(* ===== verification/_CoqProject ===== *)
-Q . S2P
Prelude.v
InetPton.v
InetNtop.v
InetRound.v
InetLegacy.v
Unix.v
ErrorLib.v
Wrap.v
ReadWrite.v
TcpEcho.v
TcpSelect.v
TcpPoll.v
TcpCli.v
Cksum.v
UdpRaw.v
SockAddr.v
SockOpt.v
NonBlock.v
TimerList.v
TimerServer.v
Http.v
HttpReply.v
HttpIO.v
WebServer.v
Udp.v
UdpServ.v
Rtt.v
NetConn.v
WebClient.v
Icmp.v
Ping.v
Trace.v
Gai.v
Getname.v
