(* ===== verification/Prelude.v ===== *)
(** * Verification of the Unix Network Programming practice repository

    ** The program

    src/unpv1e3 holds the library of Stevens' book (lib, libfree) and the
    programs built on it; src/youshuang holds the servers of a second book.
    A program of the first group calls the capitalised wrappers of lib
    (Read, Accept, Select, ...), which report errors through lib/error.c and
    exit; around them stand the stream functions readn, writen and readline,
    the address functions over inet_pton and inet_ntop, and on top of those
    the echo servers (forking, select, poll), the echo clients (line by line,
    select, non-blocking), the UDP clients and servers, among them the client
    that makes UDP reliable with a retransmission timer, and the programs that
    build and check their own packets.  From the second group come the server
    that closes idle connections with a sorted list of timers, and the web
    server with its thread pool and HTTP connection objects.

    ** How it is modelled

    Pure code (parsers, printers, checksums, header layouts, the timer list)
    is a function; an access outside of an object is an outcome of its own
    ([CFault], [None] or the halt [Undefined]), so that its absence is a
    theorem.  Code that calls the system is a program of the monad [M] of
    Unix.v over a world that holds the answers the kernel will give; one entry
    of the trace is one call with its answer.  A theorem about all worlds is
    one about all behaviours of the kernel that respect the contracts written
    in [Unix.normalise]; [runs m Q H w] says that [Q] holds of the result and
    of the calls made when [m] returns, and [H] of the way in which it stops
    and of the calls made otherwise.  Integers are [Z], wrapped by [u8], [u16],
    [u32], [u64] and [s32] where the code's type can overflow.

    ** Files (paths below src/unpv1e3 unless said otherwise)

    - Prelude.v: machine integers, bytes, decimal and hexadecimal formats,
      arrays ([store], [poke]), C strings, tactics.
    - InetPton.v, InetNtop.v: libfree/inet_pton.c, inet_ntop.c,
      inet_ntop_ipv4.c.  InetRound.v holds their theorems: the IPv4 parser
      accepts the dotted quads of a reference parser and nothing else; printing
      then parsing is the identity for both families; the IPv6 printer
      compresses the first longest run of zeros and stays within its buffer;
      the parsers stay within theirs for every input; and the texts that the
      IPv6 parser takes although the format excludes them.
    - InetLegacy.v: libfree/inet_aton.c and inet_pton_ipv4.c; on dotted quads
      inet_aton agrees with the newer parser.
    - Unix.v: the monad, the calls, [loop], the traces and the rules of [runs].
    - ErrorLib.v: lib/error.c.  Wrap.v: lib/wrapunix.c, wrapsock.c,
      wrappthread.c, wrapstdio.c, wraplib.c; each wrapper makes its one call
      and returns, or reports and exits with 1.
    - ReadWrite.v: lib/readn.c, writen.c, readline.c, tcpcliserv's and
      threads' variants: for every pattern of short counts and interruptions
      the bytes are those of the stream, each once and in order.
    - TcpEcho.v: lib/str_echo.c, signal.c, tcpcliserv/tcpserv01-04.c with
      str_echo08/09.c and the SIGCHLD handlers: what is sent back, that parent
      and child close their descriptors, that one signal reaps all children.
    - TcpSelect.v, TcpPoll.v: tcpservselect01.c and tcpservpoll01.c: the
      invariant of the table of clients, and that each round serves each ready
      descriptor once.  TcpPoll.v also shows that a stale revents field is read.
    - TcpCli.v: lib/str_cli.c, the str_cli functions of tcpcliserv and select,
      and the main programs of the clients.
    - Cksum.v: libfree/in_cksum.c: on both byte orders the optimised sum is
      the one's-complement sum; an error burst of 16 bits is found.
    - UdpRaw.v: udpcksum/udpwrite.c, senddnsquery-raw.c, udpread.c: the
      datagram written is valid and is accepted by the reader's check, which
      refuses everything else.
    - SockAddr.v: lib/sock_*.c on socket addresses.  SockOpt.v: lib/mcast_*.c,
      the timeout functions, sock_bind_wild.c and connect_nonb.c.
    - NonBlock.v: nonblock/strclinonb.c, which refines a relay of two queues.
    - TimerList.v: youshuang/ch11_timer/lst_timer.h; the pointer operations
      refine those of a sorted list, and tick ends.  TimerServer.v:
      code_11_3.cpp; the server's rounds refine a book of deadlines.
    - Http.v, HttpReply.v: youshuang/ch15_pool/thread_pool/http_conn.cpp and
      .h; the parser over the shared buffer agrees with a parser of byte
      lists, and a worker's step composes the right reply within its buffer.
      HttpIO.v: its read and write functions.  WebServer.v: threadpool.h,
      locker.h and web_server.cpp as an interleaving of the main thread and
      the workers: every connection is in at most one hand.
    - Udp.v: lib/dg_cli.c, the clients of udpcliserv, advio (timeouts) and
      bcast, and their main functions: what each sends, accepts and shows.
    - UdpServ.v: lib/dg_echo.c, rtt/dg_echo.c, the servers of udpcliserv and
      udpservselect01.c, which serves TCP and UDP.
    - Rtt.v: lib/rtt.c, rtt/dg_send_recv.c, dg_cli.c and udpcli01.c: over any
      loss and reordering each line is shown its own reply; the estimator in
      the C floating-point types, with the session recorded in rtt.out.kumba.1.
    - NetConn.v: lib/host_serv.c, tcp_connect.c, tcp_listen.c, udp_client.c,
      udp_connect.c, udp_server.c, names/udp_server_reuseaddr.c and the
      daytime programs of names/: the first usable address of a list is taken
      and the sockets of the others are closed.
    - WebClient.v: nonblock/web.c with start_connect.c, home_page.c and
      write_get_cmd.c, which refine a machine of phases: at most the allowed
      number of sockets is open, and select is asked about exactly those.
    - Icmp.v: what ping and traceroute share (tv_sub.c, fields of packets,
      getopt).  Ping.v: ping/main.c, readloop.c, sig_alrm.c, send_v4.c,
      send_v6.c, proc_v4.c, proc_v6.c, init_v6.c: requests in order, and the
      right line for every packet of any content, without a read outside of the buffer.
      Trace.v: traceroute/main.c, traceloop.c, recv_v4.c, recv_v6.c,
      icmpcode_*.c: three numbered probes for each ttl, each answered by a
      packet that quotes it or by the alarm.
    - Gai.v: libgai/getaddrinfo.c and its ga_*.c, freeaddrinfo.c and
      gai_strerror.c: the list has for each address found one structure for
      each socket type with its port, and every block allocated is in the list
      or freed (one copy of a name apart).  Getname.v: libgai/getnameinfo.c
      and gn_ipv46.c, whose numeric texts getaddrinfo reads back.

    ** Bounds and fuel

    - [loop] runs its body as long as it answers [inl]; its fuel is one more
      than the length of the script, and a body that goes round without a
      call would use it up: then the run ends in [NoFuel], which the theorems
      exclude.  A process with no further answer is [Blocked]: its trace is a
      prefix of a longer run.
    - The walks of the timer list have one unit of fuel more than the heap has
      objects; a chain without repetition is not longer.
    - The HTTP state machine has 2 * 2048 + 4 steps: every line consumes at
      least two bytes of the buffer.
    - Decimal and hexadecimal formatting has 20 and 16 digits, the width of
      64-bit values; "%.3f" has 40, more than any [float] of whole seconds.

    ** What is not modelled

    Only the calls and answers of a process are modelled, not the memory it
    shares with others.  A signal handler is a program of its own, run at the
    place of the signal by the theorem that speaks of it, not at every point
    of the main program; SIGALRM is the answer EINTR of the call it interrupts.
    Of the kernel nothing is assumed beyond the answer
    of each call, except where a theorem names the promise ([promised] in
    TimerServer.v, [fresh] in TcpSelect.v).  The text of system messages
    (strerror) is a function of the number that the model does not fix.
    [printf] of a value is written as the bytes it prints.  Left out are the
    programs whose work is done by a library outside the repository (SCTP,
    routing sockets, streams), the programs that pass descriptors between
    processes or share memory between them, the programs with threads other
    than the web server (which need the interleavings that WebServer.v has for its pool),
    and code that only prints structures of the system headers; the manifest
    lists every directory with its reason.  [getopt] is
    the function of POSIX, which stops at the first operand. *)

From stdpp Require Export base tactics list numbers option strings.
From Stdlib Require Export ZArith Lia ZifyBool ZifyNat.
From Stdlib Require Ascii String.

#[global] Open Scope Z_scope.

(** ** Tactics of the development *)

(** [des m] destructs [m] remembering the equation, then simplifies. *)
Ltac des m := let E := fresh "E" in destruct m eqn:E; simplify_eq/=.

(** [zbool] turns the boolean comparisons of the code into propositions. *)
Ltac zbool :=
  repeat match goal with
  | H : (_ && _)%bool = true |- _ => apply andb_true_iff in H; destruct H
  | H : (_ || _)%bool = false |- _ => apply orb_false_iff in H; destruct H
  | H : negb _ = true |- _ => apply negb_true_iff in H
  | H : negb _ = false |- _ => apply negb_false_iff in H
  | H : (_ =? _) = true |- _ => apply Z.eqb_eq in H
  | H : (_ =? _) = false |- _ => apply Z.eqb_neq in H
  | H : (_ <? _) = true |- _ => apply Z.ltb_lt in H
  | H : (_ <? _) = false |- _ => apply Z.ltb_ge in H
  | H : (_ <=? _) = true |- _ => apply Z.leb_le in H
  | H : (_ <=? _) = false |- _ => apply Z.leb_gt in H
  end.

(** [zif] splits on the first [if] of the goal whose test is a comparison. *)
Ltac zif :=
  match goal with
  | |- context [ if ?b then _ else _ ] =>
      let E := fresh "E" in destruct b eqn:E; zbool; try lia
  end.

(** ** Machine integers: a C unsigned value of width [w] is a [Z] in
    [0 .. 2^w - 1]; every operation that can leave the range is wrapped. *)

Definition u8 (z : Z) : Z := z mod 2 ^ 8.
Definition u16 (z : Z) : Z := z mod 2 ^ 16.
Definition u32 (z : Z) : Z := z mod 2 ^ 32.
Definition u64 (z : Z) : Z := z mod 2 ^ 64.

(** A signed 32-bit [int] obtained by truncating [z] (two's complement). *)
Definition s32 (z : Z) : Z := (z + 2 ^ 31) mod 2 ^ 32 - 2 ^ 31.

Definition byte (z : Z) : Prop := 0 <= z < 256.
Definition bytes (l : list Z) : Prop := Forall byte l.

#[export] Instance byte_dec z : Decision (byte z).
Proof. unfold byte. apply _. Defined.

Lemma u8_small z : 0 <= z < 2 ^ 8 -> u8 z = z.
Proof. apply Z.mod_small. Qed.
Lemma u16_small z : 0 <= z < 2 ^ 16 -> u16 z = z.
Proof. apply Z.mod_small. Qed.
Lemma u32_small z : 0 <= z < 2 ^ 32 -> u32 z = z.
Proof. apply Z.mod_small. Qed.
Lemma u64_small z : 0 <= z < 2 ^ 64 -> u64 z = z.
Proof. apply Z.mod_small. Qed.
Lemma u8_range z : 0 <= u8 z < 2 ^ 8.
Proof. apply Z.mod_pos_bound. lia. Qed.
Lemma u16_range z : 0 <= u16 z < 2 ^ 16.
Proof. apply Z.mod_pos_bound. lia. Qed.
Lemma u32_range z : 0 <= u32 z < 2 ^ 32.
Proof. apply Z.mod_pos_bound. lia. Qed.
Lemma u64_range z : 0 <= u64 z < 2 ^ 64.
Proof. apply Z.mod_pos_bound. lia. Qed.
Lemma s32_small z : - 2 ^ 31 <= z < 2 ^ 31 -> s32 z = z.
Proof. intros. unfold s32. rewrite Z.mod_small; lia. Qed.
Lemma s32_range z : - 2 ^ 31 <= s32 z < 2 ^ 31.
Proof. unfold s32. pose proof (Z.mod_pos_bound (z + 2 ^ 31) (2 ^ 32)). lia. Qed.

(** ** Bytes and C strings

    A C string is the list of its characters before the terminating NUL;
    [cstr] says that no character of it is NUL. *)

Definition chars (s : string) : list Z :=
  map (fun c => Z.of_N (Ascii.N_of_ascii c)) (String.list_ascii_of_string s).

Definition cstr (l : list Z) : Prop := Forall (fun c => 1 <= c < 256) l.

#[export] Instance bytes_dec l : Decision (bytes l).
Proof. unfold bytes. apply _. Defined.
#[export] Instance cstr_dec l : Decision (cstr l).
Proof. unfold cstr. apply _. Defined.

(** [strlen] and [atoi] of the C library: the characters before the first
    NUL; optional white space, a sign, decimal digits, as an [int]. *)
Fixpoint c_string (l : list Z) : list Z :=
  match l with
  | [] => []
  | c :: l' => if c =? 0 then [] else c :: c_string l'
  end.
Definition strlen (l : list Z) : Z := Z.of_nat (length (c_string l)).

Definition isspace (c : Z) : bool := (c =? 32) || ((9 <=? c) && (c <=? 13)).
Definition isdigit (c : Z) : bool := (48 <=? c) && (c <=? 57).
Fixpoint atoi_digits (l : list Z) (acc : Z) : Z :=
  match l with
  | [] => acc
  | c :: l' => if isdigit c then atoi_digits l' (acc * 10 + (c - 48)) else acc
  end.
Fixpoint atoi (l : list Z) : Z :=
  match l with
  | [] => 0
  | c :: l' =>
      if isspace c then atoi l'
      else if c =? 45 then s32 (- atoi_digits l' 0)
      else if c =? 43 then s32 (atoi_digits l' 0)
      else s32 (atoi_digits l 0)
  end.

(** Closes a decidable goal on concrete data by evaluation. *)
Ltac by_eval := refine (bool_decide_unpack _ _); vm_compute; exact I.

(** Writing at index [i] of a C array: [None] when out of bounds. *)
Definition store (a : list Z) (i : nat) (v : Z) : option (list Z) :=
  if decide (i < length a)%nat then Some (<[i := v]> a) else None.

(** The offset of [c] in the digit table [tab], as [strchr(tab, c) - tab]
    for a non-NUL [c]. *)
Fixpoint strchr_off (tab : list Z) (c : Z) : option Z :=
  match tab with
  | [] => None
  | d :: tab' => if d =? c then Some 0 else Z.succ <$> strchr_off tab' c
  end.

Arguments strchr_off : simpl never.

(** ** printf conversions: "%u"/"%d" of a non-negative value and "%x".
    [fuel] bounds the number of digits; 20 digits hold any 64-bit value. *)

Fixpoint digits_of (fuel : nat) (base n : Z) (acc : list Z) : list Z :=
  match fuel with
  | O => acc
  | S f =>
      let d := n mod base in
      let acc' := (if d <? 10 then 48 + d else 87 + d) :: acc in
      if n / base =? 0 then acc' else digits_of f base (n / base) acc'
  end.

Definition fmt_u (n : Z) : list Z := digits_of 20 10 n [].
Definition fmt_x (n : Z) : list Z := digits_of 16 16 n [].
Definition fmt_d (n : Z) : list Z := if n <? 0 then 45 :: fmt_u (- n) else fmt_u n.

Arguments fmt_u : simpl never.
Arguments fmt_x : simpl never.

Example fmt_u_255 : fmt_u 255 = chars "255".
Proof. reflexivity. Qed.
Example fmt_x_fe80 : fmt_x 65152 = chars "fe80".
Proof. reflexivity. Qed.

(** ** Shifts and masks *)

Lemma land_shiftl_small v n d :
  0 <= n -> 0 <= d < 2 ^ n -> Z.land (Z.shiftl v n) d = 0.
Proof.
  intros Hn Hd. apply Z.bits_inj'. intros i Hi. rewrite Z.land_spec, Z.bits_0.
  destruct (decide (i < n)).
  - by rewrite Z.shiftl_spec_low by lia.
  - rewrite <- (Z.mod_small d (2 ^ n)) by done.
    rewrite Z.mod_pow2_bits_high by lia. apply andb_false_r.
Qed.

Lemma lor_shiftl v n d :
  0 <= n -> 0 <= d < 2 ^ n -> Z.lor (Z.shiftl v n) d = v * 2 ^ n + d.
Proof.
  intros Hn Hd. pose proof (land_shiftl_small v n d Hn Hd) as H0.
  rewrite <- Z.lxor_lor, <- Z.add_nocarry_lxor by done.
  by rewrite Z.shiftl_mul_pow2 by lia.
Qed.

(** ** Generic list lemmas *)

(** A property of all the integers from [z], [n] of them, by evaluation. *)
Fixpoint all_from (n : nat) (z : Z) (p : Z -> bool) : bool :=
  match n with
  | O => true
  | S n' => p z && all_from n' (z + 1) p
  end.
Definition all_below (n : Z) (p : Z -> bool) : bool := all_from (Z.to_nat n) 0 p.

Lemma all_from_spec n z p x :
  all_from n z p = true -> z <= x < z + Z.of_nat n -> p x = true.
Proof.
  revert z. induction n as [|n IH]; simpl; intros z H Hx; [lia|].
  apply andb_true_iff in H as [Hz H].
  destruct (decide (x = z)) as [->|]; [done|]. apply (IH (z + 1)); [done|lia].
Qed.

Lemma all_below_spec n p x : all_below n p = true -> 0 <= x < n -> p x = true.
Proof. intros H Hx. eapply all_from_spec; [exact H|]. rewrite Z2Nat.id; lia. Qed.

Lemma store_spec a i v a' :
  store a i v = Some a' <-> (i < length a)%nat /\ a' = <[i := v]> a.
Proof.
  unfold store. case_decide; split; [intros [= <-]; done | intros [_ ->]; done | done |].
  intros [? _]. lia.
Qed.

Lemma store_ok a i v : (i < length a)%nat -> store a i v = Some (<[i := v]> a).
Proof. intros. apply store_spec. auto. Qed.

Lemma store_app a b i v x :
  i = length a -> store (a ++ x :: b) i v = Some (a ++ v :: b).
Proof.
  intros ->. apply store_spec. split; [rewrite length_app; simpl; lia|].
  by rewrite insert_app_r_alt, Nat.sub_diag by lia.
Qed.

Lemma replicate_split {A} n k (x : A) :
  (k <= n)%nat -> replicate n x = replicate k x ++ replicate (n - k) x.
Proof. intros. rewrite <- replicate_add. f_equal. lia. Qed.

Lemma cstr_app a b : cstr (a ++ b) <-> cstr a /\ cstr b.
Proof. apply Forall_app. Qed.
Lemma cstr_cons c b : cstr (c :: b) <-> 1 <= c < 256 /\ cstr b.
Proof. unfold cstr. by rewrite Forall_cons. Qed.
Lemma bytes_app a b : bytes (a ++ b) <-> bytes a /\ bytes b.
Proof. apply Forall_app. Qed.

(** Writing [bs] at offset [off]; [None] when it leaves the object. *)
Definition poke (off : nat) (bs buf : list Z) : option (list Z) :=
  if (off + length bs <=? length buf)%nat
  then Some (take off buf ++ bs ++ drop (off + length bs) buf) else None.

Lemma poke_ok off bs buf :
  (off + length bs <= length buf)%nat ->
  poke off bs buf = Some (take off buf ++ bs ++ drop (off + length bs) buf).
Proof. intros. unfold poke. by rewrite (proj2 (Nat.leb_le _ _)). Qed.

Lemma list_2 {A} (l : list A) : length l = 2%nat -> exists a b, l = [a; b].
Proof. destruct l as [|a [|b [|]]]; try done. by exists a, b. Qed.
Lemma list_4 {A} (l : list A) : length l = 4%nat -> exists a b c d, l = [a; b; c; d].
Proof. destruct l as [|a [|b [|c [|d [|]]]]]; try done. by exists a, b, c, d. Qed.

Create HintDb unp.
#[export] Hint Resolve u8_range u16_range u32_range u64_range : unp.
Create Rewrite HintDb unp.
#[export] Hint Rewrite cstr_app cstr_cons bytes_app : unp.

Lemma filter_none {A} (P : A -> Prop) `{!forall x, Decision (P x)} (l : list A) :
  Forall (fun x => ~ P x) l -> filter P l = [].
Proof. induction 1; [done|]. rewrite filter_cons, decide_False by done. done. Qed.
Lemma filter_every {A} (P : A -> Prop) `{!forall x, Decision (P x)} (l : list A) :
  Forall P l -> filter P l = l.
Proof. induction 1 as [|x l Hx _ IH]; [done|]. rewrite filter_cons, decide_True by done. by rewrite IH. Qed.
