(* ===== verification/InetPton.v ===== *)
(** * libfree/inet_pton.c: presentation format to network format

    [inet_pton4] and [inet_pton6] of the BIND 4.9.4 parser used by the
    library.  A string is the list of its characters before the NUL.  The
    local array [tmp] is an explicit array of bytes; a write outside of it is
    the outcome [CFault], so that "the parser never writes outside of its
    buffer" is a theorem and not an artefact of the model. *)

From S2P Require Import Prelude.

(** Outcome of a C function that returns 0 (invalid), 1 with a result, or
    that writes outside of its buffer. *)
Inductive cres (A : Type) : Type :=
| CFault
| CRet0
| COk (a : A).
Arguments CFault {A}.
Arguments CRet0 {A}.
Arguments COk {A} a.

Definition of_store {A} (o : option (list Z)) (k : list Z -> cres A) : cres A :=
  match o with None => CFault | Some a => k a end.

Definition INADDRSZ : nat := 4.
Definition IN6ADDRSZ : nat := 16.
Definition INT16SZ : nat := 2.

Ltac sz := unfold IN6ADDRSZ, INADDRSZ, INT16SZ in *.

Definition digits : list Z := chars "0123456789".
Definition xdigits_l : list Z := chars "0123456789abcdef".
Definition xdigits_u : list Z := chars "0123456789ABCDEF".

(** ** inet_pton4 *)

(** The locals of [inet_pton4]; [p4_tp] is the offset of [tp] in [tmp]. *)
Record p4 := P4 {
  p4_tmp : list Z;
  p4_tp : nat;
  p4_octets : Z;
  p4_saw_digit : bool
}.

(** The [while] loop of [inet_pton4]. *)
Fixpoint pton4_loop (src : list Z) (st : p4) : cres p4 :=
  match src with
  | [] => COk st
  | ch :: src' =>
      if ch =? 0 then COk st else
      match strchr_off digits ch with
      | Some off =>
          match p4_tmp st !! p4_tp st with
          | None => CFault
          | Some cur =>
              let new := u32 (cur * 10 + off) in
              if 255 <? new then CRet0 else
              of_store (store (p4_tmp st) (p4_tp st) new) (fun tmp' =>
              if negb (p4_saw_digit st) then
                if 4 <? p4_octets st + 1 then CRet0
                else pton4_loop src' (P4 tmp' (p4_tp st) (p4_octets st + 1) true)
              else pton4_loop src' (P4 tmp' (p4_tp st) (p4_octets st) true))
          end
      | None =>
          if (ch =? 46) && p4_saw_digit st then
            if p4_octets st =? 4 then CRet0 else
            of_store (store (p4_tmp st) (S (p4_tp st)) 0) (fun tmp' =>
            pton4_loop src' (P4 tmp' (S (p4_tp st)) (p4_octets st) false))
          else CRet0
      end
  end.

(** [inet_pton4] started with the uninitialised array [tmp0]; the result is
    the four bytes copied to [dst]. *)
Definition inet_pton4_from (tmp0 src : list Z) : cres (list Z) :=
  of_store (store tmp0 0 0) (fun tmp =>
  match pton4_loop src (P4 tmp 0 0 false) with
  | CFault => CFault
  | CRet0 => CRet0
  | COk st => if p4_octets st <? 4 then CRet0 else COk (take INADDRSZ (p4_tmp st))
  end).

Definition inet_pton4 (src : list Z) : cres (list Z) :=
  inet_pton4_from (replicate INADDRSZ 0) src.

(** ** inet_pton6 *)

Definition strchr_xdigits (ch : Z) : option Z :=
  match strchr_off xdigits_l ch with
  | Some off => Some off
  | None => strchr_off xdigits_u ch
  end.

(** The locals of [inet_pton6]; [tp] and [colonp] are offsets in [tmp]. *)
Record p6 := P6 {
  p6_tmp : list Z;
  p6_tp : nat;
  p6_colonp : option nat;
  p6_curtok : list Z;
  p6_saw_xdigit : bool;
  p6_val : Z
}.

(** [*tp++ = (val >> 8) & 0xff; *tp++ = val & 0xff;] *)
Definition pton6_put (tmp : list Z) (tp : nat) (val : Z) : option (list Z) :=
  match store tmp tp (Z.land (u8 (Z.shiftr val 8)) 255) with
  | None => None
  | Some tmp' => store tmp' (S tp) (Z.land (u8 val) 255)
  end.

(** [memcpy] of the bytes [bs] at offset [tp]. *)
Fixpoint put_bytes (tmp : list Z) (tp : nat) (bs : list Z) : option (list Z) :=
  match bs with
  | [] => Some tmp
  | b :: bs' =>
      match store tmp tp b with
      | None => None
      | Some tmp' => put_bytes tmp' (S tp) bs'
      end
  end.

(** The [while] loop of [inet_pton6]. *)
Fixpoint pton6_loop (src : list Z) (st : p6) : cres p6 :=
  match src with
  | [] => COk st
  | ch :: src' =>
      if ch =? 0 then COk st else
      let '(P6 tmp tp colonp curtok saw_xdigit val) := st in
      match strchr_xdigits ch with
      | Some off =>
          let val' := Z.lor (u32 (Z.shiftl val 4)) off in
          if 65535 <? val' then CRet0
          else pton6_loop src' (P6 tmp tp colonp curtok true val')
      | None =>
          if ch =? 58 then
            if negb saw_xdigit then
              match colonp with
              | Some _ => CRet0
              | None => pton6_loop src' (P6 tmp tp (Some tp) src' saw_xdigit val)
              end
            else if (IN6ADDRSZ <? tp + INT16SZ)%nat then CRet0
            else of_store (pton6_put tmp tp val) (fun tmp' =>
                 pton6_loop src' (P6 tmp' (tp + INT16SZ) colonp src' false 0))
          else if (ch =? 46) && (tp + INADDRSZ <=? IN6ADDRSZ)%nat then
            match inet_pton4 curtok with
            | CFault => CFault
            | CRet0 => CRet0
            | COk quad =>
                of_store (put_bytes tmp tp quad) (fun tmp' =>
                COk (P6 tmp' (tp + INADDRSZ) colonp curtok false val))
            end
          else CRet0
      end
  end.

(** [for (i = 1; i <= n; i++) { endp[-i] = colonp[n-i]; colonp[n-i] = 0; }],
    with [todo] iterations left and [c] the offset of [colonp]. *)
Fixpoint pton6_shift (todo i n c : nat) (tmp : list Z) : cres (list Z) :=
  match todo with
  | O => COk tmp
  | S todo' =>
      match tmp !! (c + (n - i))%nat with
      | None => CFault
      | Some b =>
          of_store (store tmp (IN6ADDRSZ - i) b) (fun tmp1 =>
          of_store (store tmp1 (c + (n - i)) 0) (fun tmp2 =>
          pton6_shift todo' (S i) n c tmp2))
      end
  end.

(** What follows the loop: the last group, the expansion of "::", the
    length test and the copy to [dst]. *)
Definition pton6_expand (tmp : list Z) (tp : nat) (colonp : option nat) : cres (list Z) :=
  match colonp with
  | Some c =>
      match pton6_shift (tp - c) 1 (tp - c) c tmp with
      | COk tmp' => COk (take IN6ADDRSZ tmp')
      | r => r
      end
  | None => if (tp =? IN6ADDRSZ)%nat then COk (take IN6ADDRSZ tmp) else CRet0
  end.

Definition pton6_finish (st : p6) : cres (list Z) :=
  let '(P6 tmp tp colonp _ saw_xdigit val) := st in
  if saw_xdigit then
    if (IN6ADDRSZ <? tp + INT16SZ)%nat then CRet0
    else of_store (pton6_put tmp tp val) (fun tmp' =>
         pton6_expand tmp' (tp + INT16SZ) colonp)
  else pton6_expand tmp tp colonp.

Definition pton6_run (src : list Z) : cres (list Z) :=
  match pton6_loop src (P6 (replicate IN6ADDRSZ 0) 0 None src false 0) with
  | CFault => CFault
  | CRet0 => CRet0
  | COk st => pton6_finish st
  end.

Definition inet_pton6 (src : list Z) : cres (list Z) :=
  match src with
  | ch :: src' =>
      if ch =? 58 then
        match src' with
        | ch' :: _ => if ch' =? 58 then pton6_run src' else CRet0
        | [] => CRet0
        end
      else pton6_run src
  | [] => pton6_run src
  end.

(** ** inet_pton *)

Definition AF_UNSPEC : Z := 0.
Definition AF_UNIX : Z := 1.
Definition AF_LOCAL : Z := AF_UNIX.
Definition AF_INET : Z := 2.
Definition AF_INET6 : Z := 10.
Definition EAFNOSUPPORT : Z := 97.
Definition ENOSPC : Z := 28.

(** Return value, bytes stored in [dst] (if any), [errno] set (if any). *)
Definition inet_pton (af : Z) (src : list Z) : Z * option (list Z) * option Z :=
  let ret r := match r with
               | COk d => (1, Some d, None)
               | _ => (0, None, None)
               end in
  if af =? AF_INET then ret (inet_pton4 src)
  else if af =? AF_INET6 then ret (inet_pton6 src)
  else (-1, None, Some EAFNOSUPPORT).

Example pton4_loopback : inet_pton4 (chars "127.0.0.1") = COk [127; 0; 0; 1].
Proof. reflexivity. Qed.
Example pton6_mapped :
  inet_pton6 (chars "::ffff:1.2.3.4") = COk [0;0;0;0;0;0;0;0;0;0;255;255;1;2;3;4].
Proof. reflexivity. Qed.
Example pton6_link :
  inet_pton6 (chars "fe80::1") = COk [254;128;0;0;0;0;0;0;0;0;0;0;0;0;0;1].
Proof. reflexivity. Qed.

(** ** The IPv4 parser against a reference grammar

    The reference splits the string at the dots and wants exactly four
    non-empty groups of decimal digits, each of value at most 255 (leading
    zeros allowed). *)

Fixpoint split_on (sep : Z) (l : list Z) : list (list Z) :=
  match l with
  | [] => [[]]
  | c :: l' =>
      match split_on sep l' with
      | [] => [[c]]
      | g :: gs => if c =? sep then [] :: g :: gs else (c :: g) :: gs
      end
  end.

Definition is_digit (c : Z) : bool := (48 <=? c) && (c <=? 57).

Definition dec_value (start : Z) (g : list Z) : Z :=
  fold_left (fun v c => v * 10 + (c - 48)) g start.

(** The value of a group continued from a prefix of value [cur]
    ([saw]: the prefix is not empty). *)
Definition octet_from (saw : bool) (cur : Z) (g : list Z) : option Z :=
  if (saw || negb (bool_decide (g = []))) && forallb is_digit g
     && (dec_value cur g <=? 255)
  then Some (dec_value cur g) else None.

Definition octet (g : list Z) : option Z := octet_from false 0 g.

Definition quad_ref (src : list Z) : option (list Z) :=
  match mapM octet (split_on 46 src) with
  | Some ds => if (length ds =? 4)%nat then Some ds else None
  | None => None
  end.

Lemma split_on_cons sep c l :
  exists g gs, split_on sep l = g :: gs /\
  split_on sep (c :: l) = if c =? sep then [] :: g :: gs else (c :: g) :: gs.
Proof.
  simpl. destruct (split_on sep l) as [|g gs] eqn:E; [|by exists g, gs].
  exfalso. destruct l as [|d l]; simpl in E; [done|].
  destruct (split_on sep l); [done|]. by destruct (d =? sep).
Qed.

Lemma strchr_digits c :
  strchr_off digits c = if is_digit c then Some (c - 48) else None.
Proof.
  unfold is_digit.
  assert (c < 48 \/ 57 < c \/ c = 48 \/ c = 49 \/ c = 50 \/ c = 51 \/ c = 52 \/ c = 53
          \/ c = 54 \/ c = 55 \/ c = 56 \/ c = 57) as Hc by lia.
  change digits with [48; 49; 50; 51; 52; 53; 54; 55; 56; 57].
  destruct Hc as [H|[H|Hc]].
  1,2: unfold strchr_off; repeat (zif; []); done.
  repeat destruct Hc as [->|Hc]; try subst; reflexivity.
Qed.

Lemma digit_step_ge cur c g :
  0 <= cur -> forallb is_digit g = true -> is_digit c = true ->
  cur * 10 + (c - 48) <= dec_value (cur * 10 + (c - 48)) g.
Proof.
  intros Hcur Hg Hc. unfold is_digit in Hc; zbool.
  assert (0 <= cur * 10 + (c - 48)) as Hv by lia. revert Hv.
  generalize (cur * 10 + (c - 48)) as v; clear - Hg.
  unfold dec_value. induction g as [|d g IH]; intros v Hv; simpl in *; [lia|].
  zbool. unfold is_digit in *; zbool.
  etransitivity; [|apply IH; [done|lia]]. lia.
Qed.

Lemma octet_from_big cur c g saw :
  0 <= cur -> is_digit c = true -> 255 < cur * 10 + (c - 48) ->
  octet_from saw cur (c :: g) = None.
Proof.
  intros Hcur Hc Hbig. unfold octet_from. simpl. rewrite Hc. simpl.
  destruct (forallb is_digit g) eqn:Hg; [|by rewrite andb_false_r].
  pose proof (digit_step_ge cur c g Hcur Hg Hc).
  change (dec_value cur (c :: g)) with (dec_value (cur * 10 + (c - 48)) g).
  destruct (_ <=? 255) eqn:E; zbool; [lia|]. by rewrite andb_false_r.
Qed.

Lemma octet_from_digit cur c g saw :
  is_digit c = true ->
  octet_from saw cur (c :: g) = octet_from true (cur * 10 + (c - 48)) g.
Proof. intros Hc. unfold octet_from. simpl. rewrite Hc. by destruct saw. Qed.

Lemma octet_from_stop saw cur c g :
  is_digit c = false -> octet_from saw cur (c :: g) = None.
Proof. intros Hc. unfold octet_from. simpl. rewrite Hc. by rewrite andb_false_r. Qed.

(** The reference from the middle of a group: [k] groups are complete. *)
Definition quad_from (done : list Z) (saw : bool) (cur : Z) (src : list Z) : option (list Z) :=
  match split_on 46 src with
  | [] => None
  | g :: gs =>
      match octet_from saw cur g, mapM octet gs with
      | Some d, Some ds =>
          if (length done + 1 + length ds =? 4)%nat then Some (done ++ d :: ds) else None
      | _, _ => None
      end
  end.

Lemma quad_from_digit don saw cur c src :
  is_digit c = true ->
  quad_from don saw cur (c :: src) = quad_from don true (cur * 10 + (c - 48)) src.
Proof.
  intros Hc. unfold quad_from.
  destruct (split_on_cons 46 c src) as (g & gs & Hs & ->).
  rewrite Hs. unfold is_digit in Hc. zif.
  by rewrite octet_from_digit by (unfold is_digit; lia).
Qed.

Lemma quad_from_dot don saw cur src :
  0 <= cur <= 255 ->
  quad_from don saw cur (46 :: src) =
    if saw && negb (length don =? 3)%nat
    then quad_from (don ++ [cur]) false 0 src
    else None.
Proof.
  intros Hcur. unfold quad_from.
  destruct (split_on_cons 46 46 src) as (g & gs & Hs & ->). rewrite Hs. simpl.
  unfold octet_from at 1. simpl. rewrite orb_false_r, andb_true_r.
  destruct saw; simpl; [|done].
  replace (dec_value cur []) with cur by done.
  replace (cur <=? 255) with true by lia.
  rewrite length_app. simpl. fold (octet g).
  destruct (octet g) as [d|]; simpl.
  2: by destruct (negb _).
  destruct (mapM octet gs) as [ds|]; simpl; [|by destruct (negb _)].
  destruct (length don =? 3)%nat eqn:E3; simpl.
  - apply Nat.eqb_eq in E3. rewrite E3. done.
  - apply Nat.eqb_neq in E3.
    replace (length don + 1 + S (length ds))%nat with (length don + 1 + 1 + length ds)%nat by lia.
    by rewrite <- app_assoc.
Qed.

Lemma quad_from_other don saw cur c src :
  is_digit c = false -> c <> 46 -> quad_from don saw cur (c :: src) = None.
Proof.
  intros Hc Hd. unfold quad_from.
  destruct (split_on_cons 46 c src) as (g & gs & Hs & ->). zif.
  by rewrite octet_from_stop.
Qed.

Definition pton4_done (r : cres p4) : cres (list Z) :=
  match r with
  | CFault => CFault
  | CRet0 => CRet0
  | COk st => if p4_octets st <? 4 then CRet0 else COk (take INADDRSZ (p4_tmp st))
  end.

Definition of_ref (o : option (list Z)) : cres (list Z) :=
  match o with Some d => COk d | None => CRet0 end.

(** The loop of the parser agrees with the reference from every state that
    it can be in. *)
Lemma pton4_loop_ref src don saw cur junk :
  cstr src -> 0 <= cur <= 255 -> (saw = false -> cur = 0) ->
  (length don <= 3)%nat -> length (don ++ cur :: junk) = 4%nat ->
  pton4_done (pton4_loop src
    (P4 (don ++ cur :: junk) (length don) (Z.of_nat (length don) + Z.b2z saw) saw))
  = of_ref (quad_from don saw cur src).
Proof.
  intros Hs. revert don saw cur junk.
  induction Hs as [|c src Hc Hs IH]; intros don saw cur junk Hcur Hsaw Hk Hlen.
  { simpl. rewrite length_app in Hlen. simpl in Hlen.
    unfold quad_from. simpl. unfold octet_from. simpl.
    destruct saw; simpl; [|by zif].
    replace (dec_value cur []) with cur by done.
    replace (cur <=? 255) with true by lia. simpl.
    destruct (length don =? 3)%nat eqn:E3.
    - apply Nat.eqb_eq in E3. rewrite E3. simpl.
      destruct junk; simpl in *; [|lia].
      by rewrite take_ge by (sz; rewrite length_app; simpl; lia).
    - apply Nat.eqb_neq in E3. zif.
      by replace (length don + 1 + 0 =? 4)%nat with false by lia. }
  simpl. destruct (c =? 0) eqn:E0; zbool; [lia|].
  rewrite strchr_digits. destruct (is_digit c) eqn:Hdig.
  - rewrite lookup_app_r, Nat.sub_diag by lia. simpl.
    pose proof Hdig as Hr. unfold is_digit in Hr; zbool.
    rewrite u32_small by lia. rewrite quad_from_digit by done.
    destruct (255 <? _) eqn:E; zbool.
    { unfold quad_from. destruct (split_on_cons 46 c src) as (g & gs & -> & _).
      rewrite <- (octet_from_digit cur c g saw) by done.
      by rewrite octet_from_big by (done || lia). }
    rewrite (store_app don junk _ (cur * 10 + (c - 48)) cur) by done. simpl.
    assert (length (don ++ (cur * 10 + (c - 48)) :: junk) = 4%nat) as Hlen'
      by (rewrite !length_app in *; simpl in *; lia).
    destruct saw; simpl.
    + apply (IH don true); try done; lia.
    + zif. replace (Z.of_nat (length don) + 0 + 1) with (Z.of_nat (length don) + Z.b2z true)
        by (simpl; lia).
      apply (IH don true); try done; lia.
  - destruct (c =? 46) eqn:Edot; zbool; simpl.
    2: by rewrite quad_from_other.
    subst c. rewrite quad_from_dot by done. destruct saw; simpl; [|done].
    cbn [Z.b2z]. destruct (_ =? 4) eqn:E4; zbool.
    { by replace (length don =? 3)%nat with true by lia. }
    replace (length don =? 3)%nat with false by lia. simpl.
    rewrite length_app in Hlen. simpl in Hlen.
    destruct junk as [|x junk]; simpl in Hlen; [lia|].
    replace (don ++ cur :: x :: junk) with ((don ++ [cur]) ++ x :: junk)
      by (by rewrite <- app_assoc).
    rewrite store_app by (rewrite length_app; simpl; lia). simpl.
    replace (S (length don)) with (length (don ++ [cur])) by (rewrite length_app; simpl; lia).
    replace (Z.of_nat (length don) + 1) with (Z.of_nat (length (don ++ [cur])) + Z.b2z false)
      by (rewrite length_app; simpl; lia).
    apply IH; try done; try lia; rewrite !length_app; simpl; lia.
Qed.

Lemma quad_from_ref src : quad_from [] false 0 src = quad_ref src.
Proof.
  unfold quad_from, quad_ref.
  assert (exists g gs, split_on 46 src = g :: gs) as (g & gs & ->).
  { destruct src as [|c src]; [by exists [], []|].
    destruct (split_on_cons 46 c src) as (g & gs & _ & ->).
    destruct (c =? 46); eauto. }
  simpl. fold (octet g). destruct (octet g); simpl; [|done].
  by destruct (mapM octet gs).
Qed.

(** The outcome satisfies [P] if it is a result, and is not a fault. *)
Definition cres_post {A} (P : A -> Prop) (r : cres A) : Prop :=
  match r with CFault => False | CRet0 => True | COk a => P a end.

Lemma pton4_from_ref tmp0 src :
  length tmp0 = 4%nat -> cstr src -> inet_pton4_from tmp0 src = of_ref (quad_ref src).
Proof.
  intros Hlen Hs. destruct tmp0 as [|x junk]; [done|].
  unfold inet_pton4_from. change (x :: junk) with ([] ++ x :: junk).
  rewrite (store_app [] junk 0 0 x) by done. simpl.
  rewrite <- quad_from_ref.
  change (pton4_done (pton4_loop src (P4 ([] ++ 0 :: junk) (length (@nil Z))
            (Z.of_nat (length (@nil Z)) + Z.b2z false) false))
          = of_ref (quad_from [] false 0 src)).
  apply pton4_loop_ref; auto; simpl; lia.
Qed.

Lemma quad_ref_length src d : quad_ref src = Some d -> length d = 4%nat.
Proof.
  unfold quad_ref. destruct (mapM octet _) as [ds|]; [|done].
  destruct (_ =? _)%nat eqn:E; [|done]. intros [= <-]. by apply Nat.eqb_eq.
Qed.

Lemma pton4_post src :
  cstr src -> cres_post (fun d => length d = 4%nat) (inet_pton4 src).
Proof.
  intros. unfold inet_pton4. rewrite pton4_from_ref by done.
  destruct (quad_ref src) eqn:E; simpl; [|done]. by eapply quad_ref_length.
Qed.

(** ** Memory safety of the IPv6 parser *)

Lemma pton6_put_spec a b0 b1 b tp val :
  tp = length a -> 0 <= val < 65536 ->
  pton6_put (a ++ b0 :: b1 :: b) tp val = Some (a ++ [val / 256; val mod 256] ++ b).
Proof.
  intros -> Hv. unfold pton6_put.
  rewrite (store_app a (b1 :: b)) by done.
  replace (a ++ _ :: b1 :: b) with
    ((a ++ [Z.land (u8 (Z.shiftr val 8)) 255]) ++ b1 :: b) by (by rewrite <- app_assoc).
  rewrite store_app by (rewrite length_app; simpl; lia).
  rewrite <- app_assoc. simpl. do 3 f_equal; [|f_equal].
  - rewrite Z.shiftr_div_pow2 by lia. change 255 with (Z.ones 8).
    rewrite Z.land_ones by lia. unfold u8. rewrite Z.mod_mod by lia.
    apply Z.mod_small. split; [apply Z.div_pos; lia|]. apply Z.div_lt_upper_bound; lia.
  - change 255 with (Z.ones 8). rewrite Z.land_ones by lia.
    unfold u8. by rewrite Z.mod_mod by lia.
Qed.

Lemma store_len a i v a' : store a i v = Some a' -> length a' = length a.
Proof. intros [_ ->]%store_spec. apply length_insert. Qed.

Lemma pton6_put_ok tmp tp val :
  (tp + 2 <= length tmp)%nat ->
  exists tmp', pton6_put tmp tp val = Some tmp' /\ length tmp' = length tmp.
Proof.
  intros. unfold pton6_put. rewrite store_ok by lia.
  rewrite store_ok by (rewrite length_insert; lia).
  eexists; split; [done|]. by rewrite !length_insert.
Qed.

Lemma put_bytes_ok bs tmp tp :
  (tp + length bs <= length tmp)%nat ->
  exists tmp', put_bytes tmp tp bs = Some tmp' /\ length tmp' = length tmp.
Proof.
  revert tmp tp. induction bs as [|b bs IH]; simpl; intros tmp tp H; [eauto|].
  rewrite store_ok by lia.
  destruct (IH (<[tp:=b]> tmp) (S tp)) as (t & -> & Ht); rewrite length_insert in *; [lia|].
  eauto.
Qed.

Definition p6_wf (st : p6) : Prop :=
  length (p6_tmp st) = 16%nat /\ (p6_tp st <= 16)%nat /\ cstr (p6_curtok st) /\
  match p6_colonp st with Some c => (c <= p6_tp st)%nat | None => True end.

Lemma pton6_loop_wf src st :
  cstr src -> p6_wf st -> cres_post p6_wf (pton6_loop src st).
Proof.
  intros Hs. revert st. induction Hs as [|c src Hc Hs IH]; intros st Hwf; [done|].
  destruct st as [tmp tp colonp curtok saw val].
  destruct Hwf as (Hlen & Htp & Hcur & Hcol); simpl in *.
  destruct (c =? 0); [done|].
  destruct (strchr_xdigits c).
  { destruct (_ <? _); [done|]. by apply IH. }
  destruct (c =? 58).
  - destruct saw; simpl.
    + destruct (_ <? tp + _)%nat eqn:E; [done|]. sz. apply Nat.ltb_ge in E.
      destruct (pton6_put_ok tmp tp val) as (t & -> & Ht); [lia|]. simpl.
      apply IH. unfold p6_wf. simpl. repeat split; try done; try lia.
      destruct colonp; [lia|done].
    + destruct colonp; [done|]. apply IH. unfold p6_wf; simpl; auto.
  - destruct (_ && _) eqn:E; [|done]. apply andb_true_iff in E as [_ E].
    apply Nat.leb_le in E. sz. pose proof (pton4_post curtok Hcur) as H4.
    destruct (inet_pton4 curtok) as [| |quad]; try done.
    simpl in H4.
    destruct (put_bytes_ok quad tmp tp) as (t & -> & Ht); [lia|].
    unfold p6_wf; simpl. repeat split; try done; try lia. destruct colonp; [lia|done].
Qed.

Lemma pton6_shift_ok todo i n c tmp :
  (1 <= i)%nat -> (todo + i = n + 1)%nat -> (c + n <= 16)%nat -> length tmp = 16%nat ->
  cres_post (fun t => length t = 16%nat) (pton6_shift todo i n c tmp).
Proof.
  revert i tmp. induction todo as [|todo IH]; intros i tmp Hi Hn Hc Hlen; [done|]. simpl.
  destruct (lookup_lt_is_Some_2 tmp (c + (n - i))%nat) as [b ->]; [lia|].
  rewrite store_ok by (sz; lia). simpl.
  rewrite store_ok by (rewrite length_insert; lia). simpl.
  apply IH; try lia. by rewrite !length_insert.
Qed.

Lemma pton6_expand_ok tmp tp colonp :
  length tmp = 16%nat -> (tp <= 16)%nat ->
  match colonp with Some c => (c <= tp)%nat | None => True end ->
  cres_post (fun d => length d = 16%nat) (pton6_expand tmp tp colonp).
Proof.
  intros Hlen Htp Hc. unfold pton6_expand. destruct colonp as [c|].
  - pose proof (pton6_shift_ok (tp - c) 1 (tp - c) c tmp) as H.
    destruct (pton6_shift _ _ _ _ _); simpl in *; try done.
    + apply H; lia.
    + rewrite length_take, H by lia. done.
  - destruct (_ =? _)%nat; [|done]. simpl. rewrite length_take, Hlen. done.
Qed.

Lemma pton6_finish_ok st :
  p6_wf st -> cres_post (fun d => length d = 16%nat) (pton6_finish st).
Proof.
  destruct st as [tmp tp colonp curtok saw val]. intros (Hlen & Htp & _ & Hcol); simpl in *.
  destruct saw; [|by apply pton6_expand_ok].
  destruct (_ <? _)%nat eqn:E; [done|]. apply Nat.ltb_ge in E. sz.
  destruct (pton6_put_ok tmp tp val) as (t & -> & Ht); [lia|]. simpl.
  apply pton6_expand_ok; try lia. destruct colonp; lia.
Qed.

Lemma pton6_run_ok src :
  cstr src -> cres_post (fun d => length d = 16%nat) (pton6_run src).
Proof.
  intros Hs. unfold pton6_run.
  pose proof (pton6_loop_wf src (P6 (replicate IN6ADDRSZ 0) 0 None src false 0) Hs) as H.
  destruct (pton6_loop _ _); simpl in *; try done.
  - apply H. unfold p6_wf; simpl. repeat split; try done. lia.
  - apply pton6_finish_ok, H. unfold p6_wf; simpl. repeat split; try done. lia.
Qed.

Lemma pton6_ok src :
  cstr src -> cres_post (fun d => length d = 16%nat) (inet_pton6 src).
Proof.
  intros Hs. unfold inet_pton6. destruct src as [|c src]; [by apply pton6_run_ok|].
  destruct (c =? 58); [|by apply pton6_run_ok].
  destruct src as [|c' src]; [done|]. destruct (c' =? 58); [|done].
  apply pton6_run_ok. by apply cstr_cons in Hs as [_ Hs].
Qed.
