(* ===== verification/InetNtop.v ===== *)
(** * libfree/inet_ntop.c, inet_ntop_ipv4.c: network to presentation format

    The returned string is the list of the characters stored in [dst] before
    the terminating NUL: a successful call stores [length s + 1] bytes. *)

From S2P Require Import Prelude InetPton.

(** NULL with the [errno] that was set, or the string stored in [dst]. *)
Inductive ntop_res : Type :=
| NtNull (errno : Z)
| NtOk (s : list Z).

(** The number of bytes of [dst] that a call stores, NUL included. *)
Definition stored (r : ntop_res) : Z :=
  match r with NtNull _ => 0 | NtOk s => Z.of_nat (length s) + 1 end.

(** [src[i]] of an address that the caller guarantees to be long enough. *)
Definition byte_at (src : list Z) (i : nat) : Z := nth i src 0.

(** ** inet_ntop4 *)

(** [sprintf(tmp, "%u.%u.%u.%u", src[0], src[1], src[2], src[3])] *)
Definition fmt_quad (src : list Z) : list Z :=
  fmt_u (byte_at src 0) ++ [46] ++ fmt_u (byte_at src 1) ++ [46] ++
  fmt_u (byte_at src 2) ++ [46] ++ fmt_u (byte_at src 3).

Definition inet_ntop4 (src : list Z) (size : Z) : ntop_res :=
  let tmp := fmt_quad src in
  if size <? Z.of_nat (length tmp) then NtNull ENOSPC else NtOk tmp.

(** ** inet_ntop6 *)

Definition NWORDS : nat := 8.

(** [for (i...) words[i / 2] |= (src[i] << ((1 - (i % 2)) << 3));] *)
Definition ntop6_words (src : list Z) : list Z :=
  fold_left (fun words i =>
      alter (fun w => Z.lor w (u32 (Z.shiftl (byte_at src i)
               (Z.shiftl (1 - Z.of_nat i mod 2) 3)))) (i / 2)%nat words)
    (seq 0 16) (replicate NWORDS 0).

(** [struct { int base, len; }]; [len] is read only when [base <> -1]. *)
Record run := Run { r_base : Z; r_len : Z }.
Definition no_run : run := Run (-1) 0.

(** [if (best.base == -1 || cur.len > best.len) best = cur;] *)
Definition run_better (best cur : run) : run :=
  if (r_base best =? -1) || (r_len best <? r_len cur) then cur else best.

(** One iteration of the search for the longest run of zero words. *)
Definition run_step (words : list Z) (st : run * run) (i : nat) : run * run :=
  let '(best, cur) := st in
  if byte_at words i =? 0 then
    if r_base cur =? -1 then (best, Run (Z.of_nat i) 1)
    else (best, Run (r_base cur) (r_len cur + 1))
  else
    if negb (r_base cur =? -1)
    then (run_better best cur, Run (-1) (r_len cur))
    else (best, cur).

Definition best_run (words : list Z) : run :=
  let '(best, cur) := fold_left (run_step words) (seq 0 NWORDS) (no_run, no_run) in
  let best := if negb (r_base cur =? -1) then run_better best cur else best in
  if negb (r_base best =? -1) && (r_len best <? 2) then Run (-1) (r_len best) else best.

(** The size of the local array [tmp] of [inet_ntop6]. *)
Definition NTOP6_TMP : Z := 46.

(** The formatting loop, for the indices [idx] still to do; [tmp] holds the
    characters written so far. *)
Fixpoint ntop6_fmt (src words : list Z) (best : run) (idx : list nat) (tmp : list Z) : ntop_res :=
  match idx with
  | [] => NtOk tmp
  | i :: idx' =>
      let zi := Z.of_nat i in
      if negb (r_base best =? -1) && (r_base best <=? zi)
         && (zi <? r_base best + r_len best)
      then ntop6_fmt src words best idx' (if zi =? r_base best then tmp ++ [58] else tmp)
      else
        let tmp := if negb (zi =? 0) then tmp ++ [58] else tmp in
        if (zi =? 6) && (r_base best =? 0) &&
           ((r_len best =? 6) || ((r_len best =? 5) && (byte_at words 5 =? 65535)))
        then match inet_ntop4 (drop 12 src) (NTOP6_TMP - Z.of_nat (length tmp)) with
             | NtNull e => NtNull e
             | NtOk s => NtOk (tmp ++ s)
             end
        else ntop6_fmt src words best idx' (tmp ++ fmt_x (byte_at words i))
  end.

(** The characters in [tmp] when the code tests for overflow. *)
Definition ntop6_text (src : list Z) : ntop_res :=
  let words := ntop6_words src in
  let best := best_run words in
  match ntop6_fmt src words best (seq 0 NWORDS) [] with
  | NtNull e => NtNull e
  | NtOk tmp =>
      NtOk (if negb (r_base best =? -1) && (r_base best + r_len best =? 8)
            then tmp ++ [58] else tmp)
  end.

Definition inet_ntop6 (src : list Z) (size : Z) : ntop_res :=
  match ntop6_text src with
  | NtNull e => NtNull e
  | NtOk tmp => if size <? Z.of_nat (length tmp) + 1 then NtNull ENOSPC else NtOk tmp
  end.

Definition inet_ntop (af : Z) (src : list Z) (size : Z) : ntop_res :=
  if af =? AF_INET then inet_ntop4 src size
  else if af =? AF_INET6 then inet_ntop6 src size
  else NtNull EAFNOSUPPORT.

(** ** libfree/inet_ntop_ipv4.c *)

Definition INET_ADDRSTRLEN : Z := 16.

(** The IPv4-only [inet_ntop]: "%d.%d.%d.%d" through [snprintf]. *)
Definition inet_ntop_ipv4 (family : Z) (p : list Z) (len : Z) : ntop_res :=
  if family =? AF_INET then
    let temp := take (Z.to_nat (INET_ADDRSTRLEN - 1))
      (fmt_d (byte_at p 0) ++ [46] ++ fmt_d (byte_at p 1) ++ [46] ++
       fmt_d (byte_at p 2) ++ [46] ++ fmt_d (byte_at p 3)) in
    if len <=? Z.of_nat (length temp) then NtNull ENOSPC else NtOk temp
  else NtNull EAFNOSUPPORT.

Example ntop6_all_zero : inet_ntop6 (replicate 16 0) 46 = NtOk (chars "::").
Proof. reflexivity. Qed.
Example ntop6_first_longest :
  inet_ntop6 [0;1;0;0;0;0;0;2;0;0;0;0;0;3;0;4] 46 = NtOk (chars "1::2:0:0:3:4").
Proof. reflexivity. Qed.
Example ntop6_v4mapped :
  inet_ntop6 [0;0;0;0;0;0;0;0;0;0;255;255;10;0;0;255] 46 = NtOk (chars "::ffff:10.0.0.255").
Proof. reflexivity. Qed.

(** ** The words of an address *)

Definition word_bytes (w : Z) : list Z := [w / 256; w mod 256].
Definition words_bytes (ws : list Z) : list Z := concat (map word_bytes ws).
Definition word (w : Z) : Prop := 0 <= w < 65536.

Lemma lor_word a b :
  byte a -> byte b ->
  Z.lor (Z.lor 0 (u32 (Z.shiftl a 8))) (u32 (Z.shiftl b 0)) = a * 256 + b.
Proof.
  unfold byte. intros Ha Hb. rewrite Z.lor_0_l, Z.shiftl_0_r.
  rewrite !u32_small by (try rewrite Z.shiftl_mul_pow2; lia).
  by rewrite lor_shiftl by lia.
Qed.

(** Words two by two from the bytes, in network order. *)
Fixpoint pair_words (src : list Z) : list Z :=
  match src with
  | a :: b :: src' => a * 256 + b :: pair_words src'
  | _ => []
  end.

Ltac list16 src H :=
  do 16 (destruct src as [|? src]; [done|]); destruct src; [|done].

Lemma ntop6_words_spec src :
  length src = 16%nat -> bytes src -> ntop6_words src = pair_words src.
Proof.
  intros Hlen Hb. list16 src Hlen. unfold bytes in Hb.
  repeat (apply Forall_cons in Hb as [? Hb]). unfold ntop6_words. simpl seq.
  cbn [fold_left alter list_alter Nat.div Nat.divmod fst replicate NWORDS byte_at nth].
  cbn [Nat.modulo Nat.divmod fst snd Nat.sub Z.of_nat].
  repeat match goal with |- context [Z.shiftl (1 - ?n mod 2) 3] =>
    let v := eval vm_compute in (Z.shiftl (1 - n mod 2) 3) in
    change (Z.shiftl (1 - n mod 2) 3) with v end.
  cbn [pair_words]. rewrite !lor_word by done. done.
Qed.

Lemma words_bytes_pair src :
  length src = 16%nat -> bytes src -> words_bytes (pair_words src) = src.
Proof.
  intros Hlen Hb. list16 src Hlen. unfold bytes, byte in Hb.
  repeat (apply Forall_cons in Hb as [? Hb]).
  unfold words_bytes, word_bytes. simpl.
  repeat match goal with |- context [(?a * 256 + ?b) / 256] =>
    rewrite (Z.div_add_l a 256 b), (Z.div_small b 256), Z.add_0_r by lia end.
  repeat match goal with |- context [(?a * 256 + ?b) mod 256] =>
    rewrite (Z.add_comm (a * 256) b), Z.mod_add, (Z.mod_small b 256) by lia end.
  done.
Qed.

Lemma pair_words_ok src :
  length src = 16%nat -> bytes src ->
  length (pair_words src) = 8%nat /\ Forall word (pair_words src).
Proof.
  intros Hlen Hb. list16 src Hlen. unfold bytes, byte in Hb.
  repeat (apply Forall_cons in Hb as [? Hb]). split; [done|].
  simpl. unfold word. repeat constructor; lia.
Qed.

(** ** The run that "::" replaces *)

(** The words [b .. b + l - 1] exist and are zero. *)
Definition zero_run (words : list Z) (b l : Z) : bool :=
  (0 <=? b) && (1 <=? l) && (b + l <=? 8) &&
  forallb (fun i => (i <? b) || (b + l <=? i) || (byte_at words (Z.to_nat i) =? 0))
    [0; 1; 2; 3; 4; 5; 6; 7].

Definition all_runs : list (Z * Z) :=
  list_prod [0; 1; 2; 3; 4; 5; 6; 7] [1; 2; 3; 4; 5; 6; 7; 8].

(** [r] is the longest run of at least two zero words, the first one of that
    length, and base -1 stands for "there is none". *)
Definition best_run_ok (words : list Z) (r : run) : bool :=
  if r_base r =? -1
  then forallb (fun '(b, l) => (l <? 2) || negb (zero_run words b l)) all_runs
  else zero_run words (r_base r) (r_len r) && (2 <=? r_len r) &&
       forallb (fun '(b, l) => negb (zero_run words b l) || (l <? r_len r)
                  || ((l =? r_len r) && (r_base r <=? b))) all_runs.

(** What the search looks at: which words are zero. *)
Definition zpat (w : Z) : Z := if w =? 0 then 0 else 1.

Lemma zpat_zero w : (zpat w =? 0) = (w =? 0).
Proof. unfold zpat. by destruct (w =? 0). Qed.

Lemma byte_at_map f ws i :
  f 0 = 0 -> byte_at (map f ws) i = f (byte_at ws i).
Proof. intros Hf. unfold byte_at. rewrite <- Hf at 1. apply map_nth. Qed.

Lemma best_run_zpat ws : best_run (map zpat ws) = best_run ws.
Proof.
  unfold best_run.
  assert (forall idx st, fold_left (run_step (map zpat ws)) idx st
                         = fold_left (run_step ws) idx st) as ->; [|done].
  induction idx as [|i idx IH]; intros st; [done|]. cbn [fold_left].
  rewrite IH. f_equal. unfold run_step. rewrite byte_at_map by done.
  by rewrite zpat_zero.
Qed.

Lemma zero_run_zpat ws b l : zero_run (map zpat ws) b l = zero_run ws b l.
Proof.
  unfold zero_run. f_equal.
  cbn [forallb]. by rewrite !byte_at_map, !zpat_zero by done.
Qed.

Lemma best_run_ok_zpat ws r : best_run_ok (map zpat ws) r = best_run_ok ws r.
Proof.
  unfold best_run_ok.
  assert (forall f g : Z * Z -> bool, (forall p, f p = g p) -> forall l,
            forallb f l = forallb g l) as Hext.
  { intros f g Hfg l. induction l; simpl; congruence. }
  destruct (r_base r =? -1).
  - apply Hext. intros [b l]. by rewrite zero_run_zpat.
  - rewrite zero_run_zpat. f_equal. apply Hext. intros [b l]. by rewrite zero_run_zpat.
Qed.

Fixpoint patterns (n : nat) : list (list Z) :=
  match n with
  | O => [[]]
  | S n' => map (cons 0) (patterns n') ++ map (cons 1) (patterns n')
  end.

Lemma patterns_complete ws : In (map zpat ws) (patterns (length ws)).
Proof.
  induction ws as [|w ws IH]; [by left|]. simpl. apply in_app_iff.
  assert (zpat w = 0 \/ zpat w = 1) as [-> | ->]
    by (unfold zpat; destruct (w =? 0); auto); [left|right]; by apply in_map.
Qed.

Lemma best_run_correct ws :
  length ws = 8%nat -> best_run_ok ws (best_run ws) = true.
Proof.
  intros Hlen. rewrite <- best_run_ok_zpat, <- best_run_zpat.
  assert (forallb (fun p => best_run_ok p (best_run p)) (patterns 8) = true) as H
    by (vm_compute; reflexivity).
  rewrite forallb_forall in H. apply H. rewrite <- Hlen. apply patterns_complete.
Qed.
