(* ===== verification/InetRound.v ===== *)
(** * The two address converters against each other

    [inet_pton] reads back what [inet_ntop] prints, for both families, and
    the memory bounds of the printers. *)

From S2P Require Import Prelude InetPton InetNtop.

(** ** Decimal octets *)

Lemma fmt_u_byte a :
  byte a -> octet (fmt_u a) = Some a /\ Forall (fun c => is_digit c = true) (fmt_u a)
            /\ (1 <= length (fmt_u a) <= 3)%nat.
Proof.
  intros Ha.
  assert (all_below 256 (fun a =>
    bool_decide (octet (fmt_u a) = Some a) && forallb is_digit (fmt_u a)
    && (1 <=? length (fmt_u a))%nat && (length (fmt_u a) <=? 3)%nat) = true) as H
    by (vm_compute; reflexivity).
  apply (all_below_spec _ _ a) in H; [|unfold byte in Ha; lia].
  cbv beta in H. zbool. rewrite bool_decide_eq_true in *.
  repeat split; try done; try lia. apply List.Forall_forall.
  by apply forallb_forall.
Qed.

Lemma split_on_digits g l :
  Forall (fun c => is_digit c = true) g ->
  split_on 46 (g ++ 46 :: l) = g :: split_on 46 l.
Proof.
  induction 1 as [|c g Hc Hg IH]; simpl.
  - destruct (split_on_cons 46 46 l) as (x & xs & -> & _). done.
  - rewrite IH. unfold is_digit in Hc. by zif.
Qed.

Lemma split_on_last g :
  Forall (fun c => is_digit c = true) g -> split_on 46 g = [g].
Proof.
  induction 1 as [|c g Hc Hg IH]; simpl; [done|].
  rewrite IH. unfold is_digit in Hc. by zif.
Qed.

Lemma quad_ref_fmt a b c d :
  byte a -> byte b -> byte c -> byte d ->
  quad_ref (fmt_quad [a; b; c; d]) = Some [a; b; c; d].
Proof.
  intros Ha Hb Hc Hd. unfold quad_ref, fmt_quad, byte_at. simpl nth.
  apply fmt_u_byte in Ha as (Ha & Da & _), Hb as (Hb & Db & _),
    Hc as (Hc & Dc & _), Hd as (Hd & Dd & _).
  cbn [app]. rewrite !split_on_digits, split_on_last by done.
  cbn [mapM]. by rewrite Ha, Hb, Hc, Hd.
Qed.

Lemma digits_cstr g : Forall (fun c => is_digit c = true) g -> cstr g.
Proof.
  intros H. eapply Forall_impl; [exact H|]. intros c Hc. unfold is_digit in Hc. zbool. lia.
Qed.

Lemma fmt_quad_cstr a b c d :
  byte a -> byte b -> byte c -> byte d -> cstr (fmt_quad [a; b; c; d]).
Proof.
  intros Ha Hb Hc Hd. unfold fmt_quad, byte_at. simpl nth.
  apply fmt_u_byte in Ha as (_ & Da & _), Hb as (_ & Db & _),
    Hc as (_ & Dc & _), Hd as (_ & Dd & _).
  apply digits_cstr in Da, Db, Dc, Dd.
  repeat (apply cstr_app; split); try done; repeat constructor; lia.
Qed.

Lemma fmt_quad_length src :
  length src = 4%nat -> bytes src -> (7 <= length (fmt_quad src) <= 15)%nat.
Proof.
  intros Hlen Hb. do 4 (destruct src as [|? src]; [done|]). destruct src; [|done].
  unfold bytes in Hb. repeat (apply Forall_cons in Hb as [? Hb]).
  unfold fmt_quad, byte_at. simpl nth.
  repeat match goal with H : byte ?x |- _ => apply fmt_u_byte in H as (_ & _ & ?) end.
  rewrite !length_app. simpl. lia.
Qed.

(** ** Hexadecimal groups *)

(** What the loop of [inet_pton6] does on a group of hexadecimal digits. *)
Definition xfold (g : list Z) (val : Z) : option Z :=
  fold_left (fun v c =>
    match v, strchr_xdigits c with
    | Some v, Some off =>
        if negb (c =? 0) && (Z.lor (u32 (Z.shiftl v 4)) off <=? 65535)
        then Some (Z.lor (u32 (Z.shiftl v 4)) off) else None
    | _, _ => None
    end) g (Some val).

Lemma xfold_None g :
  fold_left (fun v c =>
    match v, strchr_xdigits c with
    | Some v, Some off =>
        if negb (c =? 0) && (Z.lor (u32 (Z.shiftl v 4)) off <=? 65535)
        then Some (Z.lor (u32 (Z.shiftl v 4)) off) else None
    | _, _ => None
    end) g None = None.
Proof. induction g; simpl; auto. Qed.

Lemma pton6_loop_hex g rest tmp tp colonp cur saw val w :
  g <> [] -> xfold g val = Some w ->
  pton6_loop (g ++ rest) (P6 tmp tp colonp cur saw val)
  = pton6_loop rest (P6 tmp tp colonp cur true w).
Proof.
  revert saw val. induction g as [|c g IH]; intros saw val Hg Hx; [done|].
  unfold xfold in Hx. cbn [fold_left] in Hx.
  cbn [app pton6_loop]. destruct (strchr_xdigits c) as [off|]; [|by rewrite xfold_None in Hx].
  destruct (c =? 0); [simpl in Hx; by rewrite xfold_None in Hx|].
  destruct (_ <=? 65535) eqn:E; simpl in Hx; [|by rewrite xfold_None in Hx].
  cbv zeta. replace (65535 <? _) with false by lia.
  destruct g as [|d g]; [by injection Hx as ->|]. by apply IH.
Qed.

Definition hexc (d : Z) : Z := if d <? 10 then 48 + d else 87 + d.

Lemma hexc_ok d :
  0 <= d < 16 -> strchr_xdigits (hexc d) = Some d /\ 1 <= hexc d < 256 /\ hexc d <> 58.
Proof.
  intros Hd.
  assert (all_below 16 (fun d => bool_decide (strchr_xdigits (hexc d) = Some d)) = true) as H
    by (vm_compute; reflexivity).
  apply (all_below_spec _ _ d) in H; [|done]. cbv beta in H.
  rewrite bool_decide_eq_true in H. split; [done|]. unfold hexc. zif.
Qed.

Lemma xfold_hexc d g v :
  0 <= v < 4096 -> 0 <= d < 16 -> xfold (hexc d :: g) v = xfold g (v * 16 + d).
Proof.
  intros Hv Hd. unfold xfold. cbn [fold_left].
  destruct (hexc_ok d Hd) as (-> & Hr & _). f_equal.
  rewrite u32_small by (rewrite Z.shiftl_mul_pow2; lia).
  rewrite lor_shiftl by lia. change (2 ^ 4) with 16.
  replace (hexc d =? 0) with false by lia. simpl. by zif.
Qed.

Lemma digits_of_S f base n acc :
  digits_of (S f) base n acc =
    (let acc' := (if n mod base <? 10 then 48 + n mod base else 87 + n mod base) :: acc in
     if n / base =? 0 then acc' else digits_of f base (n / base) acc').
Proof. done. Qed.

(** The digits of a word, by its number of digits. *)
Lemma fmt_x_digits w :
  word w ->
  fmt_x w = [hexc (w mod 16)] /\ w / 16 = 0 \/
  fmt_x w = [hexc (w / 16 mod 16); hexc (w mod 16)] /\ w / 16 / 16 = 0 \/
  fmt_x w = [hexc (w / 16 / 16 mod 16); hexc (w / 16 mod 16); hexc (w mod 16)]
    /\ w / 16 / 16 / 16 = 0 \/
  fmt_x w = [hexc (w / 16 / 16 / 16 mod 16); hexc (w / 16 / 16 mod 16);
             hexc (w / 16 mod 16); hexc (w mod 16)] /\ w / 16 / 16 / 16 / 16 = 0.
Proof.
  intros Hw. unfold fmt_x. change 16%nat with (S (S (S (S 12)))).
  assert (w / 16 / 16 / 16 / 16 = 0) as H4
    by (unfold word in Hw; rewrite !Z.div_div by lia; apply Z.div_small; lia).
  rewrite digits_of_S. fold (hexc (w mod 16)). cbv zeta.
  destruct (Z.eqb_spec (w / 16) 0); [auto|].
  rewrite digits_of_S. fold (hexc (w / 16 mod 16)). cbv zeta.
  destruct (Z.eqb_spec (w / 16 / 16) 0); [auto|].
  rewrite digits_of_S. fold (hexc (w / 16 / 16 mod 16)). cbv zeta.
  destruct (Z.eqb_spec (w / 16 / 16 / 16) 0); [auto|].
  rewrite digits_of_S. fold (hexc (w / 16 / 16 / 16 mod 16)). cbv zeta.
  destruct (Z.eqb_spec (w / 16 / 16 / 16 / 16) 0); [auto 6|done].
Qed.

Lemma fmt_x_word w :
  word w -> xfold (fmt_x w) 0 = Some w /\ (1 <= length (fmt_x w) <= 4)%nat
            /\ cstr (fmt_x w) /\ match fmt_x w with c :: _ => c <> 58 | [] => False end.
Proof.
  intros Hw. unfold cstr. unfold word in Hw.
  pose proof (Z.mod_pos_bound w 16) as M0. pose proof (Z.mod_pos_bound (w / 16) 16) as M1.
  pose proof (Z.mod_pos_bound (w / 16 / 16) 16) as M2.
  pose proof (Z.mod_pos_bound (w / 16 / 16 / 16) 16) as M3.
  destruct (hexc_ok (w mod 16)) as (_ & ? & ?); [lia|].
  destruct (hexc_ok (w / 16 mod 16)) as (_ & ? & ?); [lia|].
  destruct (hexc_ok (w / 16 / 16 mod 16)) as (_ & ? & ?); [lia|].
  destruct (hexc_ok (w / 16 / 16 / 16 mod 16)) as (_ & ? & ?); [lia|].
  pose proof (Z.div_mod w 16) as D0. pose proof (Z.div_mod (w / 16) 16) as D1.
  pose proof (Z.div_mod (w / 16 / 16) 16) as D2.
  pose proof (Z.div_mod (w / 16 / 16 / 16) 16) as D3.
  destruct (fmt_x_digits w Hw) as [[-> E0]|[[-> E0]|[[-> E0]|[-> E0]]]];
    (split; [rewrite !xfold_hexc by lia; unfold xfold; simpl; f_equal; lia|]);
    (split; [simpl; lia|]); (split; [repeat constructor; lia|done]).
Qed.

(** ** The parser on a whole text *)

(** The parser when it has written the bytes [W]. *)
Definition st6 (W : list Z) (colonp : option nat) (cur : list Z) (saw : bool) (val : Z) : p6 :=
  P6 (W ++ replicate (16 - length W) 0) (length W) colonp cur saw val.

(** ":" and the hexadecimal digits, for each word. *)
Definition colon_groups (ws : list Z) : list Z :=
  concat (map (fun w => 58 :: fmt_x w) ws).

Lemma colon_groups_cons w ws : colon_groups (w :: ws) = 58 :: fmt_x w ++ colon_groups ws.
Proof. done. Qed.

Lemma loop_group W c cur w rest :
  word w -> pton6_loop (fmt_x w ++ rest) (st6 W c cur false 0)
            = pton6_loop rest (st6 W c cur true w).
Proof.
  intros Hw. apply fmt_x_word in Hw as (Hx & Hl & _). apply pton6_loop_hex; [|done].
  destruct (fmt_x w); [simpl in Hl; lia|done].
Qed.

Lemma put_st6 W v :
  (length W + 2 <= 16)%nat -> word v ->
  pton6_put (W ++ replicate (16 - length W) 0) (length W) v =
    Some ((W ++ word_bytes v) ++ replicate (16 - length (W ++ word_bytes v)) 0).
Proof.
  intros HW Hv. rewrite length_app. simpl length.
  replace (16 - length W)%nat with (S (S (16 - (length W + 2)))) by lia.
  cbn [replicate]. rewrite pton6_put_spec by done. by rewrite <- app_assoc.
Qed.

Lemma loop_commit W c cur v rest :
  (length W + 2 <= 16)%nat -> word v ->
  pton6_loop (58 :: rest) (st6 W c cur true v)
  = pton6_loop rest (st6 (W ++ word_bytes v) c rest false 0).
Proof.
  intros HW Hv. cbn [pton6_loop st6]. unfold st6 at 1.
  change (strchr_xdigits 58) with (@None Z). cbv iota beta. cbn [Z.eqb Pos.eqb negb].
  replace (IN6ADDRSZ <? length W + INT16SZ)%nat with false by (sz; lia).
  rewrite put_st6 by done. cbn [of_store]. unfold st6. do 2 f_equal.
  rewrite length_app. done.
Qed.

Lemma loop_dcolon W cur rest :
  pton6_loop (58 :: rest) (st6 W None cur false 0)
  = pton6_loop rest (st6 W (Some (length W)) rest false 0).
Proof. done. Qed.

Lemma words_bytes_cons v ws : words_bytes (v :: ws) = word_bytes v ++ words_bytes ws.
Proof. done. Qed.

Lemma words_bytes_app a b : words_bytes (a ++ b) = words_bytes a ++ words_bytes b.
Proof. unfold words_bytes. by rewrite map_app, concat_app. Qed.

Lemma words_bytes_length ws : length (words_bytes ws) = (2 * length ws)%nat.
Proof. induction ws as [|w ws IH]; [done|]. rewrite words_bytes_cons, length_app, IH. simpl. lia. Qed.

(** A pending group and the groups that follow it, up to the last one. *)
Lemma loop_groups ws W c cur v rest :
  (length W + 2 * length ws <= 14)%nat -> word v -> Forall word ws ->
  exists W' cur' v',
    pton6_loop (colon_groups ws ++ rest) (st6 W c cur true v)
      = pton6_loop rest (st6 W' c cur' true v') /\
    W' ++ word_bytes v' = W ++ words_bytes (v :: ws) /\ word v'.
Proof.
  revert W cur v. induction ws as [|w ws IH]; intros W cur v HW Hv Hws.
  { exists W, cur, v. unfold words_bytes. simpl. auto. }
  apply Forall_cons in Hws as [Hw Hws]. simpl in HW.
  rewrite colon_groups_cons. cbn [app]. rewrite <- app_assoc.
  rewrite loop_commit by (try done; lia). rewrite loop_group by done.
  destruct (IH (W ++ word_bytes v)
              (fmt_x w ++ colon_groups ws ++ rest) w) as (W' & cur' & v' & HL & HE & Hv');
    [rewrite length_app; simpl; lia|done|done|].
  exists W', cur', v'. rewrite HL. split; [done|]. split; [|done].
  by rewrite HE, !words_bytes_cons, <- !app_assoc.
Qed.

(** ** The expansion of "::" *)

Lemma pton6_shift_spec B1 k A B2 i n :
  (1 <= k)%nat -> (length A + n + k = 16)%nat -> (i = length B2 + 1)%nat ->
  (length B1 + length B2 = n)%nat ->
  pton6_shift (length B1) i n (length A) (A ++ B1 ++ replicate k 0 ++ B2)
  = COk (A ++ replicate k 0 ++ B1 ++ B2).
Proof.
  revert B2 i. induction B1 as [|b B1 IH] using rev_ind; intros B2 i Hk Hn Hi Hlen; [done|].
  rewrite length_app in *. simpl length in *. rewrite Nat.add_1_r. cbn [pton6_shift].
  replace (n - i)%nat with (length B1) by lia.
  rewrite lookup_app_r by lia. replace (length A + length B1 - length A)%nat with (length B1) by lia.
  rewrite <- app_assoc. rewrite lookup_app_r, Nat.sub_diag by lia. cbn [app lookup list_lookup].
  destruct k as [|k]; [lia|].
  replace (A ++ B1 ++ b :: replicate (S k) 0 ++ B2)
    with ((A ++ B1 ++ b :: replicate k 0) ++ 0 :: B2).
  2: { rewrite <- !app_assoc. cbn [app]. do 3 f_equal.
       rewrite replicate_S_end, <- app_assoc. done. }
  rewrite store_app by (rewrite !length_app; simpl; rewrite length_replicate; sz; lia).
  cbn [of_store].
  replace ((A ++ B1 ++ b :: replicate k 0) ++ b :: B2)
    with ((A ++ B1) ++ b :: replicate k 0 ++ b :: B2)
    by (rewrite <- !app_assoc; cbn [app]; done).
  rewrite store_app by (rewrite length_app; lia). cbn [of_store].
  specialize (IH (b :: B2) (S i)). simpl in IH.
  replace ((A ++ B1) ++ 0 :: replicate k 0 ++ b :: B2)
    with (A ++ B1 ++ (0 :: replicate k 0) ++ b :: B2) by (by rewrite <- app_assoc).
  cbn [app]. rewrite IH by lia. cbn [app replicate]. by rewrite <- app_assoc.
Qed.

Lemma expand_colon A B :
  (length A + length B <= 15)%nat ->
  pton6_expand ((A ++ B) ++ replicate (16 - length (A ++ B)) 0) (length (A ++ B)) (Some (length A))
  = COk (A ++ replicate (16 - length (A ++ B)) 0 ++ B).
Proof.
  intros H. unfold pton6_expand. rewrite length_app.
  replace (length A + length B - length A)%nat with (length B) by lia.
  rewrite <- app_assoc.
  pose proof (pton6_shift_spec B (16 - (length A + length B)) A [] 1 (length B)) as Hs.
  rewrite !app_nil_r in Hs. rewrite Hs by (simpl; lia).
  rewrite take_ge; [done|]. rewrite !length_app, length_replicate. sz. lia.
Qed.

Lemma expand_none W :
  length W = 16%nat -> pton6_expand (W ++ replicate (16 - length W) 0) (length W) None = COk W.
Proof.
  intros H. unfold pton6_expand. rewrite H. simpl. rewrite app_nil_r.
  by rewrite take_ge by (sz; lia).
Qed.

Lemma finish_pending W c cur v :
  (length W <= 14)%nat -> word v ->
  pton6_finish (st6 W c cur true v)
  = pton6_expand ((W ++ word_bytes v) ++ replicate (16 - length (W ++ word_bytes v)) 0)
      (length (W ++ word_bytes v)) c.
Proof.
  intros HW Hv. unfold pton6_finish, st6.
  replace (IN6ADDRSZ <? length W + INT16SZ)%nat with false by (sz; lia).
  rewrite put_st6 by (try done; lia). cbn [of_store]. f_equal. by rewrite length_app.
Qed.

Definition run6 (src : list Z) (st : p6) : cres (list Z) :=
  match pton6_loop src st with
  | CFault => CFault
  | CRet0 => CRet0
  | COk st => pton6_finish st
  end.

(** What the rest of the text leads to once "::" has been seen, or with a
    group pending. *)
Lemma run6_groups W c cur v ws :
  (length W + 2 * length ws <= 14)%nat -> word v -> Forall word ws ->
  run6 (colon_groups ws) (st6 W c cur true v)
  = let W' := W ++ words_bytes (v :: ws) in
    pton6_expand (W' ++ replicate (16 - length W') 0) (length W') c.
Proof.
  intros HW Hv Hws. unfold run6.
  destruct (loop_groups ws W c cur v [] HW Hv Hws) as (W' & cur' & v' & HL & HE & Hv').
  rewrite app_nil_r in HL. rewrite HL. cbn [pton6_loop].
  rewrite <- HE. apply finish_pending; [|done].
  apply (f_equal length) in HE. rewrite !length_app, words_bytes_length in HE.
  simpl in HE. lia.
Qed.

(** The text after "::" (its second colon included). *)
Definition tail_text (post : list Z) : list Z :=
  match post with [] => [58] | _ => colon_groups post end.

Lemma run6_tail A cur post :
  (length A + 2 * length post <= 14)%nat -> Forall word post ->
  run6 (tail_text post) (st6 A None cur false 0)
  = COk (A ++ replicate (16 - length (A ++ words_bytes post)) 0 ++ words_bytes post).
Proof.
  intros HA Hpost. destruct post as [|w post].
  - unfold tail_text, run6. rewrite loop_dcolon. cbn [pton6_loop pton6_finish st6].
    pose proof (expand_colon A []) as He. rewrite !app_nil_r in He.
    cbn [length] in He, HA. rewrite He by lia.
    change (words_bytes []) with (@nil Z). by rewrite !app_nil_r.
  - apply Forall_cons in Hpost as [Hw Hpost]. simpl in HA. simpl tail_text. unfold run6.
    rewrite colon_groups_cons, loop_dcolon, loop_group by done.
    fold (run6 (colon_groups post) (st6 A (Some (length A)) (fmt_x w ++ colon_groups post) true w)).
    rewrite run6_groups by (try done; lia). cbv zeta. apply expand_colon.
    rewrite words_bytes_length. simpl. lia.
Qed.

(** ** An embedded IPv4 address *)

Lemma fmt_u_hex a : byte a -> fmt_u a <> [] /\ exists v, xfold (fmt_u a) 0 = Some v.
Proof.
  intros Ha.
  assert (all_below 256 (fun a => negb (bool_decide (fmt_u a = [])) &&
    match xfold (fmt_u a) 0 with Some _ => true | None => false end) = true) as H
    by (vm_compute; reflexivity).
  apply (all_below_spec _ _ a) in H; [|exact Ha]. cbv beta in H. zbool.
  destruct (xfold _ _); [|done].
  split; [by apply (bool_decide_eq_false (fmt_u a = []))|eauto].
Qed.

Lemma put_bytes_app W q k :
  put_bytes (W ++ replicate (length q + k) 0) (length W) q = Some (W ++ q ++ replicate k 0).
Proof.
  revert W. induction q as [|x q IH]; intros W; [done|].
  cbn [length Nat.add replicate put_bytes]. rewrite store_app by done.
  replace (W ++ x :: replicate (length q + k) 0)
    with ((W ++ [x]) ++ replicate (length q + k) 0) by (by rewrite <- app_assoc).
  replace (S (length W)) with (length (W ++ [x])) by (rewrite length_app; simpl; lia).
  rewrite IH. by rewrite <- app_assoc.
Qed.

Lemma loop_quad W col a b c d :
  byte a -> byte b -> byte c -> byte d -> (length W <= 12)%nat ->
  run6 (fmt_quad [a; b; c; d]) (st6 W col (fmt_quad [a; b; c; d]) false 0)
  = let W' := W ++ [a; b; c; d] in
    pton6_expand (W' ++ replicate (16 - length W') 0) (length W') col.
Proof.
  intros Ha Hb Hc Hd HW. unfold run6.
  destruct (fmt_u_hex a Ha) as (Hne & v & Hv).
  set (cur := fmt_quad [a; b; c; d]) at 2. unfold fmt_quad. unfold byte_at at 1. cbn [nth].
  unfold st6. rewrite (pton6_loop_hex _ _ _ _ _ _ false 0 v Hne Hv).
  cbn [app pton6_loop Z.eqb Pos.eqb]. change (strchr_xdigits 46) with (@None Z).
  cbv iota beta.
  replace (length W + INADDRSZ <=? IN6ADDRSZ)%nat with true by (sz; lia). cbn [andb].
  unfold inet_pton4. rewrite pton4_from_ref by (done || by apply fmt_quad_cstr).
  unfold cur. rewrite quad_ref_fmt by done. cbn [of_ref].
  replace (16 - length W)%nat with (length [a; b; c; d] + (12 - length W))%nat by (simpl; lia).
  rewrite put_bytes_app. cbn [of_store pton6_finish]. cbv zeta.
  rewrite length_app. cbn [length].
  replace (16 - (length W + 4))%nat with (12 - length W)%nat by lia.
  by rewrite <- app_assoc.
Qed.

(** ** The text that [inet_ntop6] produces *)

Definition pre_text (pre : list Z) : list Z :=
  match pre with [] => [] | w :: pre => fmt_x w ++ colon_groups pre end.

Definition v4_special (words : list Z) (r : run) : bool :=
  (r_base r =? 0) && ((r_len r =? 6) || ((r_len r =? 5) && (byte_at words 5 =? 65535))).

Lemma zero_run_bounds ws b l :
  zero_run ws b l = true -> 0 <= b /\ 1 <= l /\ b + l <= 8.
Proof. unfold zero_run. intros. zbool. lia. Qed.

Lemma zero_run_zero ws b l i :
  zero_run ws b l = true -> b <= i < b + l -> byte_at ws (Z.to_nat i) = 0.
Proof.
  intros H Hi. pose proof (zero_run_bounds _ _ _ H). unfold zero_run in H. zbool.
  match goal with H : forallb _ _ = true |- _ => rename H into Hf end.
  rewrite forallb_forall in Hf. specialize (Hf i).
  assert (In i [0; 1; 2; 3; 4; 5; 6; 7]) as Hin by (simpl; lia).
  apply Hf in Hin. lia.
Qed.

Ltac run_cases b l :=
  let Hb := fresh in
  assert (b = 0 \/ b = 1 \/ b = 2 \/ b = 3 \/ b = 4 \/ b = 5 \/ b = 6) as Hb by lia;
  repeat (destruct Hb as [Hb|Hb]); subst b;
  let Hl := fresh in
  assert (l = 2 \/ l = 3 \/ l = 4 \/ l = 5 \/ l = 6 \/ l = 7 \/ l = 8) as Hl by lia;
  repeat (destruct Hl as [Hl|Hl]); subst l; try lia.

Ltac list8 ws H := do 8 (destruct ws as [|? ws]; [done|]); destruct ws; [|done].

(** The characters that the formatting loop and the trailing ":" give. *)
Definition fmt_all (src words : list Z) (best : run) : ntop_res :=
  match ntop6_fmt src words best (seq 0 NWORDS) [] with
  | NtNull e => NtNull e
  | NtOk tmp =>
      NtOk (if negb (r_base best =? -1) && (r_base best + r_len best =? 8)
            then tmp ++ [58] else tmp)
  end.

(** The loop with the test on [words[5]] and the IPv4 printer as parameters. *)
Fixpoint fmt_param (v4 : list Z -> ntop_res) (words : list Z) (best : run) (q5 : bool) (idx : list nat)
    (tmp : list Z) : ntop_res :=
  match idx with
  | [] => NtOk tmp
  | i :: idx' =>
      let zi := Z.of_nat i in
      if negb (r_base best =? -1) && (r_base best <=? zi) && (zi <? r_base best + r_len best)
      then fmt_param v4 words best q5 idx' (if zi =? r_base best then tmp ++ [58] else tmp)
      else
        let tmp := if negb (zi =? 0) then tmp ++ [58] else tmp in
        if (zi =? 6) && (r_base best =? 0) && ((r_len best =? 6) || ((r_len best =? 5) && q5))
        then match v4 tmp with
             | NtNull e => NtNull e
             | NtOk s => NtOk (tmp ++ s)
             end
        else fmt_param v4 words best q5 idx' (tmp ++ fmt_x (byte_at words i))
  end.

Lemma fmt_param_eq src words best idx tmp :
  ntop6_fmt src words best idx tmp
  = fmt_param (fun tmp => inet_ntop4 (drop 12 src) (NTOP6_TMP - Z.of_nat (length tmp)))
      words best (byte_at words 5 =? 65535) idx tmp.
Proof.
  revert tmp. induction idx as [|i idx IH]; intros tmp; [done|].
  cbn [ntop6_fmt fmt_param]. by rewrite !IH.
Qed.

Lemma fmt_all_plain src ws l :
  length ws = 8%nat -> fmt_all src ws (Run (-1) l) = NtOk (pre_text ws).
Proof.
  intros Hlen. unfold fmt_all. rewrite fmt_param_eq. destruct (_ =? 65535).
  all: list8 ws Hlen; lazy -[fmt_x app]; rewrite <- !app_assoc; cbn [app];
    by rewrite ?app_nil_r.
Qed.

Lemma fmt_all_run src ws b l :
  length ws = 8%nat -> 0 <= b -> 2 <= l -> b + l <= 8 ->
  v4_special ws (Run b l) = false ->
  fmt_all src ws (Run b l) =
    NtOk (pre_text (take (Z.to_nat b) ws) ++ 58 :: tail_text (drop (Z.to_nat (b + l)) ws)).
Proof.
  intros Hlen Hb Hl Hbl Hs. unfold fmt_all, v4_special in *. cbn [r_base r_len] in Hs.
  rewrite fmt_param_eq. destruct (_ =? 65535).
  all: list8 ws Hlen; run_cases b l; try discriminate Hs;
    lazy -[fmt_x app]; rewrite <- ?app_assoc; cbn [app]; rewrite <- ?app_assoc; cbn [app];
    by rewrite ?app_nil_r.
Qed.

Lemma fmt_all_v4 src ws l :
  length src = 16%nat -> bytes src -> length ws = 8%nat ->
  v4_special ws (Run 0 l) = true ->
  fmt_all src ws (Run 0 l) =
    NtOk (58 :: 58 :: (if l =? 6 then [] else fmt_x 65535 ++ [58]) ++ fmt_quad (drop 12 src)).
Proof.
  intros Hlen Hb Hws Hs. unfold v4_special in Hs. cbn [r_base r_len] in Hs.
  assert (length (drop 12 src) = 4%nat) as Hd by (by rewrite length_drop, Hlen).
  pose proof (fmt_quad_length _ Hd (Forall_drop _ 12 _ Hb)) as Hq.
  unfold fmt_all. rewrite fmt_param_eq.
  set (v4 := fun tmp : list Z => _).
  assert (forall tmp, (length tmp <= 31)%nat -> v4 tmp = NtOk (fmt_quad (drop 12 src))) as H4.
  { intros tmp Ht. unfold v4, inet_ntop4. cbv zeta.
    by replace (_ <? _) with false by (unfold NTOP6_TMP; lia). }
  clearbody v4. generalize dependent (fmt_quad (drop 12 src)). intros q Hq H4.
  assert (l = 6 \/ l = 5 /\ byte_at ws 5 = 65535) as [->|[-> E5]] by (zbool; lia).
  - destruct (_ =? 65535); list8 ws Hws; lazy -[fmt_x app]; by rewrite H4 by (simpl; lia).
  - rewrite E5. list8 ws Hws. cbn in E5. subst. lazy -[fmt_x app].
    rewrite H4; [by rewrite <- !app_assoc|].
    assert (word 65535) as Hw by (unfold word; lia).
    pose proof (fmt_x_word 65535 Hw) as (_ & Hx & _).
    rewrite !length_app. simpl. lia.
Qed.

(** The text of an address, in its three forms. *)
Inductive text6 (src : list Z) : list Z -> Prop :=
| Text_plain : text6 src (pre_text (pair_words src))
| Text_run b l :
    zero_run (pair_words src) b l = true -> 2 <= l ->
    text6 src (pre_text (take (Z.to_nat b) (pair_words src)) ++
               58 :: tail_text (drop (Z.to_nat (b + l)) (pair_words src)))
| Text_v4 l :
    zero_run (pair_words src) 0 l = true ->
    l = 6 \/ l = 5 /\ byte_at (pair_words src) 5 = 65535 ->
    text6 src (58 :: 58 :: (if l =? 6 then [] else fmt_x 65535 ++ [58])
               ++ fmt_quad (drop 12 src)).

Lemma ntop6_text_form src :
  length src = 16%nat -> bytes src -> exists s, ntop6_text src = NtOk s /\ text6 src s.
Proof.
  intros Hlen Hb. destruct (pair_words_ok src Hlen Hb) as [Hws _].
  assert (ntop6_text src = fmt_all src (ntop6_words src) (best_run (ntop6_words src))) as ->
    by (unfold ntop6_text, fmt_all; cbv zeta; reflexivity).
  rewrite ntop6_words_spec by done.
  pose proof (best_run_correct _ Hws) as Hr.
  destruct (best_run (pair_words src)) as [b l]. unfold best_run_ok in Hr.
  cbn [r_base r_len] in Hr. destruct (b =? -1) eqn:Hneg; zbool.
  { subst b. rewrite fmt_all_plain by done. eauto using Text_plain. }
  match goal with H : forallb _ _ = true |- _ => clear H end.
  destruct (zero_run_bounds _ _ _ ltac:(eassumption)) as (? & ? & ?).
  destruct (v4_special (pair_words src) (Run b l)) eqn:Hs.
  - assert (b = 0) as -> by (unfold v4_special in Hs; cbn [r_base r_len] in Hs; zbool; lia).
    rewrite fmt_all_v4 by done. eexists. split; [done|]. apply Text_v4; [done|].
    unfold v4_special in Hs; cbn [r_base r_len] in Hs; zbool; lia.
  - rewrite fmt_all_run by (try done; lia). eauto using Text_run.
Qed.

(** ** The length of a text *)

Lemma colon_groups_length ws :
  Forall word ws -> (length (colon_groups ws) <= 5 * length ws)%nat.
Proof.
  induction 1 as [|w ws Hw Hws IH]; [simpl; lia|].
  rewrite colon_groups_cons. destruct (fmt_x_word w Hw) as (_ & ? & _).
  simpl. rewrite length_app. lia.
Qed.

Lemma pre_text_length ws :
  Forall word ws -> (length (pre_text ws) <= 5 * length ws - 1)%nat.
Proof.
  destruct 1 as [|w ws Hw Hws]; [simpl; lia|]. unfold pre_text. rewrite length_app.
  pose proof (colon_groups_length ws Hws). destruct (fmt_x_word w Hw) as (_ & ? & _).
  simpl. lia.
Qed.

Lemma text6_length src s :
  length src = 16%nat -> bytes src -> text6 src s -> (length s <= 39)%nat.
Proof.
  intros Hlen Hb Ht. destruct (pair_words_ok src Hlen Hb) as [Hws Hw].
  destruct Ht as [|b l Hz Hl|l _ _].
  - pose proof (pre_text_length _ Hw). lia.
  - destruct (zero_run_bounds _ _ _ Hz) as (? & ? & ?).
    pose proof (pre_text_length _ (Forall_take _ (Z.to_nat b) _ Hw)) as L1.
    pose proof (colon_groups_length _ (Forall_drop _ (Z.to_nat (b + l)) _ Hw)) as L2.
    rewrite length_take in L1. rewrite length_drop in L2. rewrite length_app.
    assert (length (58%Z :: tail_text (drop (Z.to_nat (b + l)) (pair_words src)))
            <= 2 + 5 * (8 - Z.to_nat (b + l)))%nat; [|lia].
    unfold tail_text. destruct (drop _ _); cbn [length] in *; lia.
  - assert (length (fmt_quad (drop 12 src)) <= 15)%nat.
    { apply fmt_quad_length; [by rewrite length_drop, Hlen|by apply Forall_drop]. }
    destruct (fmt_x_word 65535) as (_ & ? & _); [unfold word; lia|].
    cbn [length]. rewrite length_app. destruct (l =? 6); [cbn [length]; lia|].
    rewrite length_app. cbn [length]. lia.
Qed.

(** ** The parser on each form *)

Lemma pton6_run_st src : pton6_run src = run6 src (st6 [] None src false 0).
Proof. done. Qed.

Lemma words_zero_run ws b l :
  length ws = 8%nat -> zero_run ws b l = true ->
  words_bytes (take (Z.to_nat b) ws) ++ replicate (Z.to_nat (2 * l)) 0
    ++ words_bytes (drop (Z.to_nat (b + l)) ws) = words_bytes ws.
Proof.
  intros Hlen Hz. destruct (zero_run_bounds _ _ _ Hz) as (? & ? & ?).
  assert (ws = take (Z.to_nat b) ws ++ replicate (Z.to_nat l) 0 ++ drop (Z.to_nat (b + l)) ws)
    as Hws.
  { rewrite <- (take_drop (Z.to_nat b) ws) at 1. f_equal.
    rewrite <- (take_drop (Z.to_nat l) (drop (Z.to_nat b) ws)) at 1.
    rewrite drop_drop. replace (Z.to_nat b + Z.to_nat l)%nat with (Z.to_nat (b + l)) by lia.
    f_equal. apply list_eq_same_length with (n := Z.to_nat l);
      [by rewrite length_replicate|rewrite length_take, length_drop; lia|].
    intros i x y Hi Hx Hy. rewrite lookup_replicate in Hy. destruct Hy as [-> _].
    rewrite lookup_take, lookup_drop in Hx. case_decide; [|done].
    assert (byte_at ws (Z.to_nat b + i) = x) as <- by (unfold byte_at; by apply nth_lookup_Some).
    replace (Z.to_nat b + i)%nat with (Z.to_nat (b + Z.of_nat i)) by lia.
    apply (zero_run_zero ws b l); [done|lia]. }
  rewrite Hws at 3. rewrite !words_bytes_app. do 2 f_equal.
  replace (Z.to_nat (2 * l)) with (Z.to_nat l + Z.to_nat l)%nat by lia.
  generalize (Z.to_nat l) as k. clear. induction k as [|k IH]; [done|].
  replace (S k + S k)%nat with (S (S (k + k))) by lia.
  cbn [replicate]. rewrite words_bytes_cons, <- IH. done.
Qed.

Lemma pton6_first s c s' : s = c :: s' -> c <> 58 -> inet_pton6 s = pton6_run s.
Proof. intros -> Hc. unfold inet_pton6. by replace (c =? 58) with false by lia. Qed.

Lemma pre_text_pton6 w ws s :
  word w -> inet_pton6 (pre_text (w :: ws) ++ s) = pton6_run (pre_text (w :: ws) ++ s).
Proof.
  intros Hw. destruct (fmt_x_word w Hw) as (_ & _ & _ & Hc).
  unfold pre_text. destruct (fmt_x w) as [|c r] eqn:E; [done|].
  by apply (pton6_first _ c (r ++ colon_groups ws ++ s)); [cbn [app]; rewrite <- app_assoc|].
Qed.

Lemma run6_text_run ws b l cur :
  length ws = 8%nat -> Forall word ws -> zero_run ws b l = true -> 0 < b ->
  run6 (pre_text (take (Z.to_nat b) ws) ++ 58 :: tail_text (drop (Z.to_nat (b + l)) ws))
    (st6 [] None cur false 0) = COk (words_bytes ws).
Proof.
  intros Hlen Hw Hz Hb. rewrite <- (words_zero_run ws b l Hlen Hz).
  destruct (zero_run_bounds _ _ _ Hz) as (_ & ? & ?).
  pose proof (Forall_take _ (Z.to_nat b) _ Hw) as Hpre.
  pose proof (Forall_drop _ (Z.to_nat (b + l)) _ Hw) as Hpost.
  assert (length (take (Z.to_nat b) ws) = Z.to_nat b) as Lpre by (rewrite length_take; lia).
  assert (length (drop (Z.to_nat (b + l)) ws) = (8 - Z.to_nat (b + l))%nat) as Lpost
    by (by rewrite length_drop, Hlen).
  destruct (take (Z.to_nat b) ws) as [|w pre] eqn:Ep; [simpl in Lpre; lia|].
  apply Forall_cons in Hpre as [Hw0 Hpre]. cbn [length] in Lpre.
  unfold run6. unfold pre_text. rewrite <- app_assoc, loop_group by done.
  destruct (loop_groups pre [] None cur w
              (58 :: tail_text (drop (Z.to_nat (b + l)) ws)))
    as (W' & cur' & v' & -> & HE & Hv'); [simpl; lia|done|done|].
  cbn [app] in HE. pose proof (f_equal length HE) as HL.
  rewrite length_app, words_bytes_length in HL. cbn [length word_bytes] in HL.
  rewrite loop_commit by (done || lia). rewrite HE.
  set (A := words_bytes (w :: pre)).
  assert (length A = (2 * Z.to_nat b)%nat) as LA
    by (unfold A; rewrite words_bytes_length; simpl; lia).
  fold (run6 (tail_text (drop (Z.to_nat (b + l)) ws))
          (st6 A None (tail_text (drop (Z.to_nat (b + l)) ws)) false 0)).
  rewrite run6_tail by (try done; lia). do 3 f_equal.
  rewrite length_app, words_bytes_length, LA, Lpost. f_equal. lia.
Qed.

Lemma run6_group_quad a b c d :
  byte a -> byte b -> byte c -> byte d ->
  run6 (58 :: fmt_x 65535 ++ 58 :: fmt_quad [a; b; c; d])
    (st6 [] None (58 :: fmt_x 65535 ++ 58 :: fmt_quad [a; b; c; d]) false 0)
  = COk (replicate 10 0 ++ [255; 255; a; b; c; d]).
Proof.
  intros Ha Hb Hc Hd. assert (word 65535) as Hw by (unfold word; lia).
  unfold run6. rewrite loop_dcolon, loop_group by done.
  rewrite loop_commit by (try done; simpl; lia).
  fold (run6 (fmt_quad [a; b; c; d])
          (st6 ([] ++ word_bytes 65535) (Some (length (@nil Z))) (fmt_quad [a; b; c; d]) false 0)).
  rewrite loop_quad by (try done; simpl; lia). cbv zeta.
  exact (expand_colon [] [255; 255; a; b; c; d] ltac:(simpl; lia)).
Qed.

Lemma run6_quad a b c d :
  byte a -> byte b -> byte c -> byte d ->
  run6 (58 :: fmt_quad [a; b; c; d]) (st6 [] None (58 :: fmt_quad [a; b; c; d]) false 0)
  = COk (replicate 12 0 ++ [a; b; c; d]).
Proof.
  intros Ha Hb Hc Hd. unfold run6. rewrite loop_dcolon.
  fold (run6 (fmt_quad [a; b; c; d])
          (st6 [] (Some (length (@nil Z))) (fmt_quad [a; b; c; d]) false 0)).
  rewrite loop_quad by (try done; simpl; lia). cbv zeta.
  exact (expand_colon [] [a; b; c; d] ltac:(simpl; lia)).
Qed.

Lemma pton6_v4_text src l :
  length src = 16%nat -> bytes src -> zero_run (pair_words src) 0 l = true ->
  l = 6 \/ l = 5 /\ byte_at (pair_words src) 5 = 65535 ->
  inet_pton6 (58 :: 58 :: (if l =? 6 then [] else fmt_x 65535 ++ [58])
              ++ fmt_quad (drop 12 src)) = COk src.
Proof.
  intros Hlen Hb Hz Hl. destruct (pair_words_ok src Hlen Hb) as [Hws Hw].
  pose proof (words_bytes_pair src Hlen Hb) as Hsrc.
  pose proof (words_zero_run _ 0 l Hws Hz) as HE. rewrite Hsrc in HE.
  cbn [Z.to_nat] in HE. rewrite take_0 in HE. cbn [words_bytes map concat app] in HE.
  assert (exists a b c d, drop 12 src = [a; b; c; d] /\ byte a /\ byte b /\ byte c /\ byte d)
    as (a & b & c & d & Hq & ? & ? & ? & ?).
  { pose proof (Forall_drop _ 12 _ Hb) as Hd. assert (length (drop 12 src) = 4%nat) as Hl4
      by (by rewrite length_drop, Hlen).
    revert Hd Hl4. generalize (drop 12 src) as q. intros q Hd Hl4.
    do 4 (destruct q as [|? q]; [done|]). destruct q; [|done].
    unfold bytes in Hd. repeat (apply Forall_cons in Hd as [? Hd]). eauto 10. }
  unfold inet_pton6. cbn [Z.eqb Pos.eqb]. rewrite Hq, pton6_run_st.
  destruct Hl as [->|[-> E5]]; cbn [Z.eqb Pos.eqb app].
  - rewrite run6_quad by done. f_equal. rewrite <- HE, <- Hq.
    rewrite <- HE at 1. change (Z.to_nat (2 * 6)) with 12%nat.
    by rewrite drop_app_length' by (by rewrite length_replicate).
  - rewrite <- app_assoc. cbn [app]. rewrite run6_group_quad by done. f_equal.
    change (Z.to_nat (0 + 5)) with 5%nat in HE. change (Z.to_nat (2 * 5)) with 10%nat in HE.
    assert (drop 5 (pair_words src) = 65535 :: drop 6 (pair_words src)) as H5.
    { rewrite <- E5. apply drop_S. unfold byte_at.
      destruct (lookup_lt_is_Some_2 (pair_words src) 5) as [x Hx]; [lia|].
      by rewrite Hx, (nth_lookup_Some _ _ _ _ Hx). }
    rewrite H5, words_bytes_cons in HE. change (word_bytes 65535) with [255; 255] in HE.
    rewrite <- HE in Hq. cbn [replicate app drop] in Hq. rewrite drop_0 in Hq. by rewrite <- HE, Hq.
Qed.

Lemma pton6_text src s :
  length src = 16%nat -> bytes src -> text6 src s -> inet_pton6 s = COk src.
Proof.
  intros Hlen Hb Ht. destruct (pair_words_ok src Hlen Hb) as [Hws Hw].
  pose proof (words_bytes_pair src Hlen Hb) as Hsrc.
  destruct Ht as [|b l Hz Hl|l Hz Hl].
  - destruct (pair_words src) as [|w ws] eqn:E; [done|].
    apply Forall_cons in Hw as [Hw0 Hw]. cbn [length] in Hws.
    rewrite <- (app_nil_r (pre_text (w :: ws))), pre_text_pton6 by done.
    rewrite app_nil_r, pton6_run_st. unfold run6, pre_text. rewrite loop_group by done.
    fold (run6 (colon_groups ws) (st6 [] None (fmt_x w ++ colon_groups ws) true w)).
    rewrite run6_groups by (try done; simpl; lia). cbv zeta. cbn [app]. rewrite Hsrc.
    by apply expand_none.
  - destruct (zero_run_bounds _ _ _ Hz) as (Hb0 & ? & ?).
    destruct (Z.eq_dec b 0) as [->|Hb1].
    + cbn [Z.to_nat]. rewrite take_0. unfold pre_text at 1. cbn [app].
      assert (exists s', tail_text (drop (Z.to_nat (0 + l)) (pair_words src)) = 58 :: s') as [s' Hs']
        by (unfold tail_text; destruct (drop _ _); eauto).
      unfold inet_pton6. rewrite Hs'. cbn [Z.eqb Pos.eqb]. rewrite <- Hs', pton6_run_st.
      rewrite run6_tail; [|rewrite length_drop; simpl; lia|by apply Forall_drop].
      cbn [app]. rewrite <- Hsrc at 3. rewrite <- (words_zero_run _ 0 l Hws Hz).
      cbn [Z.to_nat]. rewrite take_0. cbn [words_bytes map concat app]. do 3 f_equal.
      rewrite words_bytes_length, length_drop, Hws. lia.
    + destruct (take (Z.to_nat b) (pair_words src)) as [|w pre] eqn:Ep.
      { apply (f_equal length) in Ep. rewrite length_take in Ep. simpl in Ep. lia. }
      assert (word w) as Hw0.
      { pose proof (Forall_take _ (Z.to_nat b) _ Hw) as Hp. rewrite Ep in Hp.
        by apply Forall_cons in Hp as [? _]. }
      rewrite pre_text_pton6 by done. rewrite pton6_run_st, <- Ep.
      rewrite run6_text_run by (try done; lia). by rewrite Hsrc.
  - by eapply pton6_v4_text.
Qed.

(** ** Properties of the converters *)

Lemma ntop6_ok src size :
  length src = 16%nat -> bytes src -> 46 <= size ->
  exists s, inet_ntop6 src size = NtOk s /\ text6 src s.
Proof.
  intros Hlen Hb Hsize. destruct (ntop6_text_form src Hlen Hb) as (s & E & Ht).
  exists s. split; [|done]. unfold inet_ntop6. rewrite E.
  pose proof (text6_length src s Hlen Hb Ht).
  by replace (_ <? _) with false by lia.
Qed.

(** C2: [inet_pton4] accepts exactly the strings that the reference grammar
    accepts (four groups of digits of value at most 255, separated by dots),
    with the same value, whatever the initial contents of its local array;
    in particular it never writes outside of that array. *)
Theorem inet_pton4_correct tmp0 src :
  length tmp0 = INADDRSZ -> cstr src ->
  inet_pton4_from tmp0 src = match quad_ref src with Some d => COk d | None => CRet0 end.
Proof. apply pton4_from_ref. Qed.

Theorem inet_pton4_correct_witness :
  inet_pton4_from [9; 9; 9; 9] (chars "192.168.001.9") = COk [192; 168; 1; 9].
Proof.
  rewrite inet_pton4_correct; [reflexivity|reflexivity|by_eval].
Defined.

Lemma inet6_back src size :
  length src = 16%nat -> bytes src -> 46 <= size ->
  exists s, inet_ntop6 src size = NtOk s /\ inet_pton6 s = COk src /\
            stored (NtOk s) <= 40.
Proof.
  intros Hlen Hb Hsize. destruct (ntop6_ok src size Hlen Hb Hsize) as (s & E & Ht).
  exists s. split; [done|]. split; [by apply pton6_text|].
  pose proof (text6_length src s Hlen Hb Ht). simpl. lia.
Qed.

Lemma inet4_back a b c d :
  byte a -> byte b -> byte c -> byte d ->
  exists s, inet_ntop AF_INET [a; b; c; d] INET_ADDRSTRLEN = NtOk s /\
    inet_ntop_ipv4 AF_INET [a; b; c; d] INET_ADDRSTRLEN = NtOk s /\
    inet_pton AF_INET s = (1, Some [a; b; c; d], None).
Proof.
  intros Ha Hb Hc Hd. exists (fmt_quad [a; b; c; d]).
  assert (7 <= length (fmt_quad [a; b; c; d]) <= 15)%nat as Hl
    by (apply fmt_quad_length; [done|unfold bytes; auto]).
  assert (forall x, byte x -> fmt_d x = fmt_u x) as Hfmt.
  { intros x Hx. unfold fmt_d, byte in *. by zif. }
  repeat split.
  - unfold inet_ntop, inet_ntop4, INET_ADDRSTRLEN. cbn [Z.eqb Pos.eqb AF_INET]. cbv zeta.
    by replace (_ <? _) with false by lia.
  - unfold inet_ntop_ipv4. cbn [Z.eqb Pos.eqb AF_INET]. unfold byte_at. cbn [nth].
    rewrite !Hfmt by done.
    change (fmt_u a ++ _) with (fmt_quad [a; b; c; d]). cbv zeta.
    rewrite take_ge by (unfold INET_ADDRSTRLEN; lia).
    by replace (_ <=? _) with false by (unfold INET_ADDRSTRLEN; lia).
  - unfold inet_pton, inet_pton4. cbn [Z.eqb Pos.eqb AF_INET].
    rewrite pton4_from_ref by (done || by apply fmt_quad_cstr).
    by rewrite quad_ref_fmt.
Qed.

(** C1: round trips of addresses.  With the documented buffer size
    (INET6_ADDRSTRLEN) [inet_ntop6] always succeeds, its 46-byte local array
    is never overrun (40 bytes at most with the NUL), and [inet_pton6] reads
    the printed text, whatever its form (plain, with "::", with an embedded
    dotted quad), back to the same 16 bytes.  For a buffer of INET_ADDRSTRLEN
    bytes both IPv4 printers ([inet_ntop] of inet_ntop.c and of
    inet_ntop_ipv4.c) give the same text, and [inet_pton] reads it back. *)
Theorem inet_roundtrip :
  (forall src size, length src = 16%nat -> bytes src -> 46 <= size ->
   exists s, inet_ntop6 src size = NtOk s /\ inet_pton6 s = COk src /\ stored (NtOk s) <= 40) /\
  (forall a b c d, byte a -> byte b -> byte c -> byte d ->
   exists s, inet_ntop AF_INET [a; b; c; d] INET_ADDRSTRLEN = NtOk s /\
     inet_ntop_ipv4 AF_INET [a; b; c; d] INET_ADDRSTRLEN = NtOk s /\
     inet_pton AF_INET s = (1, Some [a; b; c; d], None)).
Proof. split; [apply inet6_back|apply inet4_back]. Qed.

Theorem inet_roundtrip_witness :
  (exists s, inet_ntop6 [32;1;13;184;0;0;0;0;0;0;0;0;0;0;0;1] 46 = NtOk s /\
    inet_pton6 s = COk [32;1;13;184;0;0;0;0;0;0;0;0;0;0;0;1] /\ stored (NtOk s) <= 40) /\
  (exists s, inet_ntop AF_INET [10; 0; 255; 7] INET_ADDRSTRLEN = NtOk s /\
    inet_ntop_ipv4 AF_INET [10; 0; 255; 7] INET_ADDRSTRLEN = NtOk s /\
    inet_pton AF_INET s = (1, Some [10; 0; 255; 7], None)).
Proof.
  split; [apply (proj1 inet_roundtrip); [reflexivity|by_eval|lia]|apply (proj2 inet_roundtrip); unfold byte; lia].
Defined.

(** C3: memory safety and result size of [inet_pton]: no input string makes
    either parser write outside of its local array; a return value of 1 comes
    with 4 or 16 bytes, 0 leaves [dst] untouched, and an unknown family gives
    -1 with EAFNOSUPPORT. *)
Theorem inet_pton_safe af src :
  cstr src ->
  inet_pton4 src <> CFault /\ inet_pton6 src <> CFault /\
  match inet_pton af src with
  | (1, Some d, None) => length d = (if (af =? AF_INET)%Z then INADDRSZ else IN6ADDRSZ)
                         /\ (af = AF_INET \/ af = AF_INET6)
  | (0, None, None) => af = AF_INET \/ af = AF_INET6
  | (-1, None, Some e) => e = EAFNOSUPPORT /\ af <> AF_INET /\ af <> AF_INET6
  | _ => False
  end.
Proof.
  intros Hs. pose proof (pton4_post src Hs) as H4. pose proof (pton6_ok src Hs) as H6.
  split; [by destruct (inet_pton4 src)|]. split; [by destruct (inet_pton6 src)|].
  unfold inet_pton. destruct (Z.eqb_spec af AF_INET) as [->|N4].
  - destruct (inet_pton4 src); simpl in *; auto.
  - destruct (Z.eqb_spec af AF_INET6) as [->|N6]; [|auto].
    destruct (inet_pton6 src); simpl in *; auto.
Qed.

Theorem inet_pton_safe_witness :
  cstr (chars ":::") /\ inet_pton6 (chars ":::") <> CFault.
Proof.
  assert (cstr (chars ":::")) as H by by_eval.
  split; [exact H|]. apply (inet_pton_safe AF_INET6 (chars ":::") H).
Defined.

(** The run that "::" replaces. *)
Lemma best_run_longest ws b l :
  length ws = NWORDS ->
  best_run ws = Run b l ->
  (b = -1 -> forall b' l', In (b', l') all_runs -> 2 <= l' -> zero_run ws b' l' = false) /\
  (b <> -1 -> zero_run ws b l = true /\ 2 <= l /\
     forall b' l', In (b', l') all_runs -> zero_run ws b' l' = true ->
       l' < l \/ l' = l /\ b <= b').
Proof.
  intros Hlen E. pose proof (best_run_correct ws Hlen) as H. rewrite E in H.
  unfold best_run_ok in H. cbn [r_base r_len] in H.
  destruct (Z.eqb_spec b (-1)) as [->|Hb]; split; intros ?; try done.
  - intros b' l' Hin Hl. rewrite forallb_forall in H. specialize (H _ Hin). simpl in H.
    apply orb_true_iff in H as [H|H]; zbool; [lia|done].
  - apply andb_true_iff in H as [H Hf]. apply andb_true_iff in H as [Hz Hl].
    zbool. split; [done|]. split; [done|]. intros b' l' Hin Hz'.
    rewrite forallb_forall in Hf. specialize (Hf _ Hin). cbn beta iota in Hf.
    rewrite Hz' in Hf. simpl in Hf. lia.
Qed.

Lemma ntop_stores src size :
  0 <= size ->
  stored (inet_ntop6 src size) <= size /\
  stored (inet_ntop_ipv4 AF_INET src size) <= size /\
  stored (inet_ntop4 src size) <= size + 1 /\
  (size < stored (inet_ntop4 src size) <-> size = Z.of_nat (length (fmt_quad src))).
Proof.
  intros Hsize. repeat split.
  - unfold inet_ntop6. destruct (ntop6_text src); simpl; [lia|].
    destruct (_ <? _) eqn:E; zbool; simpl; lia.
  - unfold inet_ntop_ipv4. cbn [Z.eqb Pos.eqb AF_INET]. cbv zeta.
    destruct (_ <=? _) eqn:E; zbool; cbn [stored]; lia.
  - unfold inet_ntop4. cbv zeta. destruct (_ <? _) eqn:E; zbool; simpl; lia.
  - unfold inet_ntop4. cbv zeta. destruct (_ <? _) eqn:E; zbool; simpl; lia.
  - unfold inet_ntop4. cbv zeta. destruct (_ <? _) eqn:E; zbool; simpl; lia.
Qed.

(** C4: [inet_ntop]: the run of words that [inet_ntop6] replaces by "::" has at
    least two words, all zero, and is the longest one, the first among
    equals; the program finds none exactly when there is none.  The bounds of
    the destination buffer: [inet_ntop6] and the IPv4-only [inet_ntop] never
    store more than [size] bytes; [inet_ntop4] stores [size + 1] bytes exactly
    when the text is [size] characters long, because it compares the length
    without the NUL. *)
Theorem inet_ntop_correct ws b l src size :
  length ws = NWORDS -> best_run ws = Run b l -> 0 <= size ->
  ((b = -1 -> forall b' l', In (b', l') all_runs -> 2 <= l' -> zero_run ws b' l' = false) /\
   (b <> -1 -> zero_run ws b l = true /\ 2 <= l /\
      forall b' l', In (b', l') all_runs -> zero_run ws b' l' = true ->
        l' < l \/ l' = l /\ b <= b')) /\
  stored (inet_ntop6 src size) <= size /\
  stored (inet_ntop_ipv4 AF_INET src size) <= size /\
  stored (inet_ntop4 src size) <= size + 1 /\
  (size < stored (inet_ntop4 src size) <-> size = Z.of_nat (length (fmt_quad src))).
Proof. intros Hl Hr Hs. split; [by apply best_run_longest|by apply ntop_stores]. Qed.

Theorem inet_ntop_correct_witness :
  (zero_run [1; 0; 0; 5; 0; 0; 0; 9] 4 3 = true /\ 2 <= 3) /\
  7 < stored (inet_ntop4 [1; 2; 3; 4] 7).
Proof.
  destruct (inet_ntop_correct [1; 0; 0; 5; 0; 0; 0; 9] 4 3 [1; 2; 3; 4] 7 eq_refl eq_refl ltac:(lia))
    as ([_ H] & _ & _ & _ & H7).
  destruct H as (Hz & Hl & _); [lia|]. split; [split; [exact Hz|exact Hl]|]. apply H7. reflexivity.
Defined.

Lemma pton6_shift_full B1 A i j n :
  (length A + length B1 + j = 16)%nat -> (i = j + 1)%nat -> (length B1 + j = n)%nat ->
  pton6_shift (length B1) i n (length A) (A ++ B1 ++ replicate j 0)
  = COk (A ++ replicate (length B1 + j) 0).
Proof.
  revert i j. induction B1 as [|b B1 IH] using rev_ind; intros i j Hn Hi Hlen; [done|].
  rewrite length_app in *. simpl length in *. rewrite Nat.add_1_r. cbn [pton6_shift].
  replace (n - i)%nat with (length B1) by lia. rewrite <- app_assoc. cbn [app].
  rewrite lookup_app_r by lia.
  replace (length A + length B1 - length A)%nat with (length B1) by lia.
  rewrite lookup_app_r, Nat.sub_diag by lia. cbn [lookup list_lookup].
  rewrite (app_assoc A). rewrite store_app by (rewrite length_app; sz; lia). cbn [of_store].
  rewrite store_app by (rewrite length_app; lia). cbn [of_store].
  change (0 :: replicate j 0) with (replicate (S j) 0). rewrite <- app_assoc.
  rewrite IH by lia. do 3 f_equal. lia.
Qed.

(** two deviations of [inet_pton6] from its comment, for all groups: a
    trailing ":" after eight groups is accepted, and a "::" in a full address
    is not ignored: the groups after it are replaced by zeros. *)
Theorem inet_pton6_deviations ws pre post :
  length ws = 8%nat -> ws = pre ++ post -> pre <> [] -> post <> [] -> Forall word ws ->
  inet_pton6 (pre_text ws ++ [58]) = inet_pton6 (pre_text ws) /\
  inet_pton6 (pre_text pre ++ 58 :: tail_text post)
    = COk (words_bytes pre ++ replicate (2 * length post) 0).
Proof.
  intros Hlen Hws Hpre Hpost Hw. split.
  - destruct ws as [|w ws']; [done|]. apply Forall_cons in Hw as [Hw0 Hw].
    cbn [length] in Hlen. rewrite pre_text_pton6 by done.
    rewrite <- (app_nil_r (pre_text (w :: ws'))) at 2. rewrite pre_text_pton6 by done.
    rewrite !pton6_run_st. unfold run6, pre_text. rewrite app_nil_r, <- app_assoc.
    rewrite !loop_group by done.
    fold (run6 (colon_groups ws') (st6 [] None (fmt_x w ++ colon_groups ws') true w)).
    rewrite run6_groups by (try done; simpl; lia). cbv zeta.
    destruct (loop_groups ws' [] None (fmt_x w ++ colon_groups ws' ++ [58]) w [58])
      as (W' & cur' & v' & -> & HE & Hv'); [simpl; lia|done|done|].
    pose proof (f_equal length HE) as HL. cbn [app] in *.
    rewrite length_app, words_bytes_length in HL. cbn [length word_bytes] in HL.
    rewrite loop_commit by (done || lia). rewrite HE. done.
  - subst ws. apply Forall_app in Hw as [Hw1 Hw2]. rewrite length_app in Hlen.
    destruct pre as [|w pre]; [done|]. destruct post as [|w' post]; [done|].
    apply Forall_cons in Hw1 as [Hw Hw1]. apply Forall_cons in Hw2 as [Hw' Hw2].
    cbn [length] in Hlen. rewrite pre_text_pton6, pton6_run_st by done.
    unfold run6, pre_text, tail_text. rewrite <- app_assoc, loop_group by done.
    destruct (loop_groups pre [] None (fmt_x w ++ colon_groups pre ++ 58 :: colon_groups (w' :: post))
                w (58 :: colon_groups (w' :: post)))
      as (W' & cur' & v' & -> & HE & Hv'); [simpl; lia|done|done|].
    cbn [app] in HE. pose proof (f_equal length HE) as HL.
    rewrite length_app, words_bytes_length in HL. cbn [length word_bytes] in HL.
    rewrite loop_commit by (done || lia). rewrite HE. set (A := words_bytes (w :: pre)).
    rewrite colon_groups_cons, loop_dcolon, loop_group by done.
    fold (run6 (colon_groups post)
            (st6 A (Some (length A)) (fmt_x w' ++ colon_groups post) true w')).
    assert (length A = (2 * length (w :: pre))%nat) as HA by apply words_bytes_length.
    cbn [length] in HA. rewrite run6_groups by (try done; lia). cbv zeta.
    set (B := words_bytes (w' :: post)).
    assert (length B = (2 * length (w' :: post))%nat) as HB by apply words_bytes_length.
    cbn [length] in HB. unfold pton6_expand. rewrite length_app.
    replace (length A + length B - length A)%nat with (length B) by lia.
    replace (16 - (length A + length B))%nat with 0%nat by lia. rewrite <- app_assoc.
    rewrite pton6_shift_full by lia. rewrite take_ge; [by rewrite Nat.add_0_r, HB|].
    rewrite length_app, length_replicate. sz. lia.
Qed.

Theorem inet_pton6_deviations_witness :
  inet_pton6 (chars "1:2:3:4::5:6:7:8") = COk [0;1;0;2;0;3;0;4;0;0;0;0;0;0;0;0].
Proof.
  apply (inet_pton6_deviations [1;2;3;4;5;6;7;8] [1;2;3;4] [5;6;7;8]); try done.
  unfold word. repeat constructor; lia.
Defined.
