(* ===== verification/InetLegacy.v ===== *)
(** * libfree/inet_aton.c and inet_pton_ipv4.c

    The GateD [inet_aton], which also accepts short forms, and the IPv4-only
    [inet_pton] built on it.  [u_long] is a 64-bit integer. *)

From S2P Require Import Prelude InetPton.

(** The [do ... while] loop over [cp]: [dots], [acc] and [addr] are its locals;
    the end of the list is the NUL. *)
Definition aton_close (acc addr : Z) : option Z :=
  if 255 <? acc then None else Some (Z.lor (u64 (Z.shiftl addr 8)) acc).

Fixpoint aton_loop (cp : list Z) (dots acc addr : Z) : option (Z * Z) :=
  match cp with
  | [] =>
      match aton_close acc addr with Some a => Some (dots, a) | None => None end
  | cc :: cp' =>
      if (48 <=? cc) && (cc <=? 57) then aton_loop cp' dots (u64 (acc * 10 + (cc - 48))) addr
      else if cc =? 46 then
        if 3 <? dots + 1 then None else
        match aton_close acc addr with
        | Some a => aton_loop cp' (dots + 1) 0 a
        | None => None
        end
      else if cc =? 0 then
        match aton_close acc addr with Some a => Some (dots, a) | None => None end
      else None
  end.

(** [htonl] of the low 32 bits, as the bytes in memory. *)
Definition htonl_bytes (a : Z) : list Z :=
  let a := u32 a in
  [u8 (Z.shiftr a 24); u8 (Z.shiftr a 16); u8 (Z.shiftr a 8); u8 a].

(** [inet_aton]: the bytes stored in [*ap], or 0 is returned. *)
Definition inet_aton (cp : list Z) : option (list Z) :=
  match aton_loop cp 0 0 0 with
  | None => None
  | Some (dots, addr) =>
      let addr := if dots <? 3 then u64 (Z.shiftl addr (8 * (3 - dots))) else addr in
      Some (htonl_bytes addr)
  end.

(** [inet_pton] of inet_pton_ipv4.c: return value, bytes stored, [errno]. *)
Definition inet_pton_ipv4 (family : Z) (strptr : list Z) : Z * option (list Z) * option Z :=
  if family =? AF_INET then
    match inet_aton strptr with
    | Some in_val => (1, Some in_val, None)
    | None => (0, None, None)
    end
  else (-1, None, Some EAFNOSUPPORT).

Example aton_short : inet_aton (chars "10.1") = Some [10; 1; 0; 0].
Proof. reflexivity. Qed.

(** ** [inet_aton] extends [inet_pton4] *)

Definition addr_of (ds : list Z) : Z :=
  fold_left (fun a b => Z.lor (u64 (Z.shiftl a 8)) b) ds 0.

Lemma addr_of_snoc ds d : addr_of (ds ++ [d]) = Z.lor (u64 (Z.shiftl (addr_of ds) 8)) d.
Proof. unfold addr_of. by rewrite fold_left_app. Qed.

Lemma quad_from_cur don saw cur c src d :
  0 <= cur -> is_digit c = true ->
  quad_from don saw cur (c :: src) = Some d -> cur * 10 + (c - 48) <= 255.
Proof.
  intros Hcur Hc H. destruct (decide (cur * 10 + (c - 48) <= 255)) as [|Hbig]; [done|].
  exfalso. rewrite quad_from_digit in H by done. unfold quad_from in H.
  destruct (split_on 46 src) as [|g gs]; [done|].
  rewrite <- (octet_from_digit cur c g saw) in H by done.
  by rewrite octet_from_big in H by (done || lia).
Qed.

Lemma aton_loop_quad src don saw cur d :
  cstr src -> 0 <= cur <= 255 ->
  quad_from don saw cur src = Some d ->
  aton_loop src (Z.of_nat (length don)) cur (addr_of don) = Some (3, addr_of d).
Proof.
  intros Hs. revert don saw cur. induction Hs as [|c src Hc Hs IH]; intros don saw cur Hcur Hq.
  { unfold quad_from in Hq. simpl in Hq. destruct (octet_from saw cur []) as [o|] eqn:Ho; [|done].
    destruct (_ =? 4)%nat eqn:E in Hq; [|done]. apply Nat.eqb_eq in E. simpl in E.
    injection Hq as <-. unfold octet_from in Ho. destruct (_ && _) in Ho; [|done].
    injection Ho as <-. simpl. unfold aton_close. zif.
    rewrite addr_of_snoc. do 2 f_equal. lia. }
  cbn [aton_loop]. change ((48 <=? c) && (c <=? 57)) with (is_digit c).
  destruct (is_digit c) eqn:Hdig.
  - pose proof (quad_from_cur _ _ _ _ _ _ (proj1 Hcur) Hdig Hq) as Hle.
    pose proof Hdig as Hr. unfold is_digit in Hr. zbool.
    rewrite u64_small by lia. rewrite quad_from_digit in Hq by done.
    apply (IH don true); [lia|done].
  - destruct (c =? 46) eqn:E; zbool; [|by rewrite quad_from_other in Hq].
    subst c. rewrite quad_from_dot in Hq by done.
    destruct saw; [|done]. simpl in Hq. destruct (length don =? 3)%nat eqn:E3; [done|].
    apply Nat.eqb_neq in E3. simpl in Hq.
    assert (length (don ++ [cur]) <= 3)%nat as H3.
    { unfold quad_from in Hq. destruct (split_on 46 src) as [|g gs]; [done|].
      destruct (octet_from _ _ g); [|done]. destruct (mapM octet gs); [|done].
      destruct (_ =? 4)%nat eqn:E in Hq; [|done]. apply Nat.eqb_eq in E. lia. }
    rewrite length_app in H3. simpl in H3. zif. unfold aton_close. zif.
    rewrite <- addr_of_snoc.
    replace (Z.of_nat (length don) + 1) with (Z.of_nat (length (don ++ [cur])))
      by (rewrite length_app; simpl; lia).
    apply (IH _ false); [lia|done].
Qed.

Lemma addr_step a b :
  0 <= a < 2 ^ 24 -> 0 <= b < 256 -> Z.lor (u64 (Z.shiftl a 8)) b = a * 256 + b.
Proof.
  intros Ha Hb. rewrite u64_small by (rewrite Z.shiftl_mul_pow2; lia).
  by rewrite lor_shiftl by lia.
Qed.

Lemma htonl_addr_of a b c d :
  byte a -> byte b -> byte c -> byte d -> htonl_bytes (addr_of [a; b; c; d]) = [a; b; c; d].
Proof.
  unfold byte. intros Ha Hb Hc Hd. unfold addr_of. cbn [fold_left].
  rewrite (addr_step 0 a), (addr_step (0 * 256 + a) b),
    (addr_step ((0 * 256 + a) * 256 + b) c),
    (addr_step (((0 * 256 + a) * 256 + b) * 256 + c) d) by lia.
  unfold htonl_bytes. rewrite u32_small by lia. cbv zeta.
  rewrite !Z.shiftr_div_pow2 by lia. unfold u8.
  change (2 ^ 8) with 256. change (2 ^ 16) with 65536. change (2 ^ 24) with 16777216.
  repeat f_equal; Z.div_mod_to_equations; lia.
Qed.

Lemma octet_byte g o : octet g = Some o -> byte o.
Proof.
  unfold octet, octet_from. simpl. destruct (_ && _) eqn:E; [|done]. zbool.
  intros [= <-]. split; [|lia]. unfold dec_value.
  assert (forall v, 0 <= v -> 0 <= fold_left (fun v c => v * 10 + (c - 48)) g v) as Hg;
    [|by apply Hg]. 
  clear - H1. revert H1. induction g as [|c g IH]; intros Hd v Hv; [done|].
  simpl in Hd. zbool. apply IH; [done|]. unfold is_digit in *. zbool. lia.
Qed.

Lemma quad_ref_bytes src d : quad_ref src = Some d -> bytes d.
Proof.
  unfold quad_ref. destruct (mapM octet _) as [ds|] eqn:E; [|done].
  destruct (_ =? _)%nat; [|done]. intros [= <-]. revert ds E.
  generalize (split_on 46 src) as gs. induction gs as [|g gs IH]; intros ds E.
  - injection E as <-. constructor.
  - simpl in E. destruct (octet g) eqn:Eo; [|done]. simpl in E.
    destruct (mapM octet gs) eqn:Em; [|done]. injection E as <-.
    constructor; [by eapply octet_byte|by apply IH].
Qed.

(** ** Properties *)

(** C5: on every string that [inet_pton4] accepts, [inet_aton] (and with it
    the IPv4-only [inet_pton]) gives the same four bytes. *)
Theorem inet_aton_extends_pton4 src d :
  cstr src -> inet_pton4 src = COk d ->
  inet_aton src = Some d /\ inet_pton_ipv4 AF_INET src = (1, Some d, None).
Proof.
  intros Hs H. unfold inet_pton4 in H. rewrite pton4_from_ref in H by done.
  destruct (quad_ref src) as [d'|] eqn:E; [|done]. injection H as <-.
  pose proof (quad_ref_length _ _ E) as Hlen. pose proof (quad_ref_bytes _ _ E) as Hb.
  rewrite <- quad_from_ref in E. apply aton_loop_quad in E; [|done|lia].
  assert (inet_aton src = Some d') as Ha.
  { unfold inet_aton. change 0 with (Z.of_nat (length (@nil Z))) at 1.
    change 0 with (addr_of []) at 2. rewrite E. simpl.
    do 4 (destruct d' as [|? d']; [done|]). destruct d'; [|done].
    unfold bytes in Hb. repeat (apply Forall_cons in Hb as [? Hb]).
    by rewrite htonl_addr_of. }
  split; [done|]. unfold inet_pton_ipv4. simpl. by rewrite Ha.
Qed.

Theorem inet_aton_extends_pton4_witness :
  inet_aton (chars "255.1.20.3") = Some [255; 1; 20; 3] /\
  inet_pton_ipv4 AF_INET (chars "255.1.20.3") = (1, Some [255; 1; 20; 3], None).
Proof.
  apply inet_aton_extends_pton4; [by_eval|reflexivity].
Defined.

(** The accumulator wraps: a group of value 2^64 passes the test on 255. *)
Lemma inet_aton_wraps :
  inet_aton (chars "18446744073709551616") = Some [0; 0; 0; 0].
Proof. reflexivity. Qed.

(** The empty string is an address. *)
Lemma inet_aton_empty : inet_aton [] = Some [0; 0; 0; 0].
Proof. reflexivity. Qed.
