(* ===== verification/Unix.v ===== *)
(** * The process and the kernel

    Programs are functions of a state-passing monad over the [world]: the
    answers that the kernel and the C library's input functions will give
    ([script], one entry per call, in order), the calls already made with
    their answers ([trace]), and the process-wide variables [errno] and
    [daemon_proc].  A run is a function of the script, so that a theorem
    about all scripts is a theorem about all behaviours of the kernel, and a
    witness evaluates a program on a concrete script.  When the script is
    exhausted the process is [Blocked] in the call: the trace is then a finite
    prefix of a longer run.

    [normalise] makes every answer respect the documented contract of its
    call: [read] and [recvfrom] deliver bytes, at most the number asked for,
    and return their number, [write] and [sendto] accept at most the bytes
    given, [select] reports only descriptors that were asked for, [poll]
    nothing for negative ones and both the right count, [fgets]
    delivers at most one line (0 stands for end of file, the null pointer
    without the error flag, and -1 for the null pointer with it), a failing
    call returns -1 and sets [errno]. *)

From stdpp Require Export gmap.
From S2P Require Export Prelude.

(** ** Descriptor sets ([fd_set]) *)

Definition FD_SETSIZE : Z := 1024.

(** [FD_SET]/[FD_CLR] outside of [0 .. FD_SETSIZE - 1] write outside of the
    object: see [fd_set] below. *)
Definition fd_isset (fd : Z) (s : gset Z) : bool := bool_decide (fd ∈ s).

(** ** Constants of unp.h and of the system headers (Linux values) *)

Definition MAXLINE : Z := 4096.
Definition LISTENQ : Z := 1024.
Definition SERV_PORT : Z := 9877.
Definition STDIN_FILENO : Z := 0.
Definition STDOUT_FILENO : Z := 1.
Definition EINTR : Z := 4.
Definition EAGAIN : Z := 11.
Definition EWOULDBLOCK : Z := 11.
Definition ECHILD : Z := 10.
Definition EPIPE : Z := 32.
Definition EPROTO : Z := 71.
Definition ECONNABORTED : Z := 103.
Definition ECONNRESET : Z := 104.
Definition ETIMEDOUT : Z := 110.
Definition ECONNREFUSED : Z := 111.
Definition EINPROGRESS : Z := 115.
Definition SHUT_RD : Z := 0.
Definition SHUT_WR : Z := 1.
Definition SHUT_RDWR : Z := 2.
Definition SIGABRT : Z := 6.
Definition LOG_ERR : Z := 3.
Definition LOG_INFO : Z := 6.

(** ** Calls and answers *)

Inductive call : Type :=
| CRead (fd n : Z)
| CWrite (fd : Z) (data : list Z)
| CRecvfrom (fd n flags : Z)
| CSendto (fd : Z) (data : list Z) (addr : list Z)
| CClose (fd : Z)
| CSocket (family type protocol : Z)
| CBind (fd : Z) (addr : list Z)
| CListen (fd backlog : Z)
| CAccept (fd : Z)
| CConnect (fd : Z) (addr : list Z)
| CShutdown (fd how : Z)
| CSelect (nfds : Z) (rset wset : gset Z) (timeout : option Z)
| CPoll (fds : list (Z * Z)) (timeout : Z)
| CFork
| CWaitpid (pid options : Z)
| CSignal (signo : Z)
| CAlarm (seconds : Z)
| CFcntl (fd cmd arg : Z)
| CGetsockopt (fd level opt : Z)
| CSetsockopt (fd level opt : Z) (val : list Z)
| CGettimeofday
| CFgets (n : Z)
| CFputs (data : list Z)
| CStdout (data : list Z)
| CFflush (fd : Z)
| CStderr (data : list Z)
| CSyslog (level : Z) (data : list Z)
| CLibc (name : string) (args : list Z) (data : list Z).

(** The return value, [errno] when it is negative, the bytes delivered, and
    for [select] the descriptors ready for writing. *)
Record answer : Type := Ans {
  a_ret : Z;
  a_err : Z;
  a_data : list Z;
  a_wdata : list Z
}.

Definition ok (r : Z) : answer := Ans r 0 [] [].
Definition err (e : Z) : answer := Ans (-1) e [] [].
Definition data (l : list Z) : answer := Ans (Z.of_nat (length l)) 0 l [].

(** The descriptors that [select] reports: members of the set, below
    [nfds], each once. *)
Definition in_set (nfds : Z) (s : gset Z) (l : list Z) : list Z :=
  filter (fun fd => fd ∈ s /\ fd < nfds) (remove_dups l).

(** The bytes up to and including the first newline. *)
Fixpoint first_line (l : list Z) : list Z :=
  match l with
  | [] => []
  | c :: l' => if c =? 10 then [c] else c :: first_line l'
  end.

(** What [poll] stores: 0 for a negative descriptor, the events otherwise. *)
Definition poll_revents (fds : list (Z * Z)) (l : list Z) : list Z :=
  imap (fun i '(fd, _) => if fd <? 0 then 0 else u16 (default 0 (l !! i))) fds.
Definition nonzero (l : list Z) : list Z := filter (fun r => r <> 0) l.

(** A pointer-valued call answers [NULL] (or MAP_FAILED) with -1. *)
Definition NULL : Z := -1.

Definition normalise (c : call) (a : answer) : answer :=
  if a_ret a <? 0 then Ans (-1) (a_err a) [] []
  else match c with
       | CRead _ n | CRecvfrom _ n _ =>
           let d := map u8 (take (Z.to_nat n) (a_data a)) in
           Ans (Z.of_nat (length d)) 0 d (a_wdata a)
       | CWrite _ d | CSendto _ d _ =>
           Ans (Z.min (a_ret a) (Z.of_nat (length d))) 0 [] []
       | CPoll fds _ =>
           let rv := poll_revents fds (a_data a) in
           Ans (Z.of_nat (length (nonzero rv))) 0 rv []
       | CFgets n =>
           let d := first_line (map u8 (take (Z.to_nat (n - 1)) (a_data a))) in
           Ans (Z.of_nat (length d)) 0 d []
       | CSelect nfds r w _ =>
           let rd := in_set nfds r (a_data a) in
           let wr := in_set nfds w (a_wdata a) in
           Ans (Z.of_nat (length rd + length wr)) 0 rd wr
       | _ => Ans (a_ret a) 0 (a_data a) (a_wdata a)
       end.

Definition event : Type := call * answer.

(** ** The world and the monad *)

Record world : Type := World {
  script : list answer;
  trace : list event;
  errno : Z;
  daemon_proc : Z;
  strerror : Z -> list Z
}.

(** Why a computation did not return: [exit], a signal ([abort]), a call that never returns, a
    write outside of an object (undefined behaviour), or the fuel of [loop],
    which is never the reason (see [wp_loop]). *)
Inductive halt : Type :=
| Exited (status : Z)
| Killed (signo : Z)
| Blocked
| Undefined
| NoFuel.

Inductive outcome (A : Type) : Type :=
| Ret (a : A)
| Halt (h : halt).
Arguments Ret {A} a.
Arguments Halt {A} h.

Definition M (A : Type) : Type := world -> outcome A * world.

#[export] Instance M_ret : MRet M := fun A a w => (Ret a, w).
#[export] Instance M_bind : MBind M := fun A B f m w =>
  match m w with
  | (Ret a, w') => f a w'
  | (Halt h, w') => (Halt h, w')
  end.

Definition halted {A} (h : halt) : M A := fun w => (Halt h, w).
Definition exit {A} (status : Z) : M A := halted (Exited status).
Definition undefined {A} : M A := halted Undefined.

Definition or_undef {A} (o : option A) : M A :=
  match o with Some a => mret a | None => undefined end.

Definition logged (w : world) (c : call) (a : answer) (rest : list answer) : world :=
  World rest (trace w ++ [(c, a)]) (if a_ret a <? 0 then a_err a else errno w)
    (daemon_proc w) (strerror w).

(** A call that waits for the kernel. *)
Definition kernel (c : call) : M answer := fun w =>
  match script w with
  | [] => (Halt Blocked, w)
  | a :: rest => (Ret (normalise c a), logged w c (normalise c a) rest)
  end.

(** An output that the process does by itself. *)
Definition output (c : call) : M unit := fun w =>
  (Ret (), logged w c (ok 0) (script w)).

Definition get_errno : M Z := fun w => (Ret (errno w), w).
Definition set_errno (e : Z) : M unit := fun w =>
  (Ret (), World (script w) (trace w) e (daemon_proc w) (strerror w)).

(** A call of which only the return value matters. *)
Definition ret_of (c : call) : M Z := a ← kernel c; mret (a_ret a).

(** [fd_set] with the bound of the object. *)
Definition fd_set (fd : Z) (s : gset Z) : M (gset Z) :=
  if (0 <=? fd) && (fd <? FD_SETSIZE) then mret ({[fd]} ∪ s) else undefined.
Definition fd_clr (fd : Z) (s : gset Z) : M (gset Z) :=
  if (0 <=? fd) && (fd <? FD_SETSIZE) then mret (s ∖ {[fd]}) else undefined.

(** ** Loops

    A C loop whose body calls the kernel is [loop body s]: [inl] continues,
    [inr] leaves the loop.  The fuel is the length of the script plus one:
    every iteration that continues takes at least one answer. *)

Fixpoint iterate {S R} (fuel : nat) (body : S -> M (S + R)) (s : S) : M R :=
  match fuel with
  | O => halted NoFuel
  | Datatypes.S f =>
      r ← body s;
      match r with
      | inl s' => iterate f body s'
      | inr x => mret x
      end
  end.

Definition loop {S R} (body : S -> M (S + R)) (s : S) : M R := fun w =>
  iterate (Datatypes.S (length (script w))) body s w.

(** ** Weakest preconditions *)

Definition wp {A} (m : M A) (Q : A -> world -> Prop) (H : halt -> world -> Prop)
    (w : world) : Prop :=
  match m w with
  | (Ret a, w') => Q a w'
  | (Halt h, w') => H h w'
  end.

Section WP.
Context {A B : Type} (H : halt -> world -> Prop).
Implicit Types (w : world).

Lemma wp_ret (a : A) (Q : A -> world -> Prop) w : Q a w -> wp (mret a) Q H w.
Proof. done. Qed.

Lemma wp_bind (m : M A) (f : A -> M B) Q w :
  wp m (fun a w' => wp (f a) Q H w') H w -> wp (m ≫= f) Q H w.
Proof. unfold wp, mbind, M_bind. by destruct (m w) as [[a|h] w']. Qed.

Lemma wp_bind_inv (m : M A) (f : A -> M B) Q w :
  wp (m ≫= f) Q H w -> wp m (fun a w' => wp (f a) Q H w') H w.
Proof. unfold wp, mbind, M_bind. by destruct (m w) as [[a|h] w']. Qed.

Lemma wp_mono (m : M A) (Q Q' : A -> world -> Prop) (H' : halt -> world -> Prop) w :
  (forall a w', Q a w' -> Q' a w') -> (forall h w', H h w' -> H' h w') ->
  wp m Q H w -> wp m Q' H' w.
Proof. unfold wp. intros HQ HH. destruct (m w) as [[a|h] w']; auto. Qed.

Lemma wp_halted h (Q : A -> world -> Prop) w : H h w -> wp (halted h) Q H w.
Proof. done. Qed.

Lemma wp_kernel c Q w :
  (script w = [] -> H Blocked w) ->
  (forall a rest, script w = a :: rest ->
     Q (normalise c a) (logged w c (normalise c a) rest)) ->
  wp (kernel c) Q H w.
Proof. unfold wp, kernel. destruct (script w); auto. Qed.

Lemma wp_output c Q w :
  Q () (logged w c (ok 0) (script w)) -> wp (output c) Q H w.
Proof. done. Qed.

Lemma wp_if (b : bool) (m1 m2 : M A) Q w :
  (b = true -> wp m1 Q H w) -> (b = false -> wp m2 Q H w) ->
  wp (if b then m1 else m2) Q H w.
Proof. destruct b; auto. Qed.
End WP.

(** The rule for loops: an invariant that every iteration preserves while it
    takes at least one answer of the script.  [NoFuel] is never reached. *)
Lemma wp_iterate {S R} (body : S -> M (S + R)) (I : S -> world -> Prop) Q H fuel s w :
  (forall s w, I s w ->
     wp (body s) (fun r w' => match r with
                              | inl s' => I s' w' /\ (length (script w') < length (script w))%nat
                              | inr x => Q x w' end) H w) ->
  I s w -> (length (script w) < fuel)%nat -> wp (iterate fuel body s) Q H w.
Proof.
  intros Hbody. revert s w. induction fuel as [|f IH]; intros s w HI Hf; [lia|].
  cbn [iterate]. apply wp_bind. eapply wp_mono; [|by intros|by apply Hbody].
  intros [s'|x] w'; [|done]. intros [HI' Hlt]. apply IH; [done|lia].
Qed.

Lemma iterate_continue {S R} f (body : S -> M (S + R)) s s' w w' :
  body s w = (Ret (inl s'), w') -> iterate (Datatypes.S f) body s w = iterate f body s' w'.
Proof. intros Hb. cbn [iterate]. unfold mbind, M_bind. by rewrite Hb. Qed.
Lemma iterate_leave {S R} f (body : S -> M (S + R)) s x w w' :
  body s w = (Ret (inr x), w') -> iterate (Datatypes.S f) body s w = (Ret x, w').
Proof. intros Hb. cbn [iterate]. unfold mbind, M_bind. by rewrite Hb. Qed.

Lemma wp_loop {S R} (body : S -> M (S + R)) (I : S -> world -> Prop) Q H s w :
  (forall s w, I s w ->
     wp (body s) (fun r w' => match r with
                              | inl s' => I s' w' /\ (length (script w') < length (script w))%nat
                              | inr x => Q x w' end) H w) ->
  I s w -> wp (loop body s) Q H w.
Proof. intros Hb HI. apply (wp_iterate body I); [done|done|lia]. Qed.

(** ** What a run has done *)

(** The bytes delivered by the reads of [fd] in a list of events, in order. *)
Fixpoint received (fd : Z) (evs : list event) : list Z :=
  match evs with
  | [] => []
  | (c, a) :: evs' =>
      match c with
      | CRead f _ | CRecvfrom f _ _ =>
          if f =? fd then a_data a ++ received fd evs' else received fd evs'
      | _ => received fd evs'
      end
  end.

(** The bytes accepted by the writes to [fd]: the first [a_ret] of each. *)
Fixpoint sent (fd : Z) (evs : list event) : list Z :=
  match evs with
  | [] => []
  | (c, a) :: evs' =>
      match c with
      | CWrite f d =>
          if f =? fd then take (Z.to_nat (a_ret a)) d ++ sent fd evs' else sent fd evs'
      | _ => sent fd evs'
      end
  end.

Lemma received_app fd a b : received fd (a ++ b) = received fd a ++ received fd b.
Proof.
  induction a as [|[c x] a IH]; [done|]. cbn [app received].
  rewrite IH. destruct c; try done; destruct (_ =? fd); by rewrite ?app_assoc.
Qed.

Lemma sent_app fd a b : sent fd (a ++ b) = sent fd a ++ sent fd b.
Proof.
  induction a as [|[c x] a IH]; [done|]. cbn [app sent].
  rewrite IH. destruct c; try done; destruct (_ =? fd); by rewrite ?app_assoc.
Qed.

Create HintDb world.
Create Rewrite HintDb world.
#[export] Hint Rewrite received_app sent_app : world.

(** All the events are calls that satisfy [P]. *)
Definition only (P : call -> Prop) (evs : list event) : Prop := Forall (fun e => P (fst e)) evs.

Lemma only_nil P : only P [].
Proof. constructor. Qed.
Lemma only_app P a b : only P (a ++ b) <-> only P a /\ only P b.
Proof. apply Forall_app. Qed.
Lemma only_one P c a : P c -> only P [(c, a)].
Proof. intros. by repeat constructor. Qed.
Lemma only_mono (P Q : call -> Prop) evs : (forall c, P c -> Q c) -> only P evs -> only Q evs.
Proof. intros H HF. eapply Forall_impl; [exact HF|]. intros [c a]. apply H. Qed.
#[export] Hint Resolve only_nil only_one : world.
#[export] Hint Resolve only_nil : core.

(** The outputs that take no answer from the script. *)
Definition is_output (c : call) : bool :=
  match c with CStdout _ | CFflush _ | CStderr _ | CSyslog _ _ => true | _ => false end.

(** How many of the events waited for an answer. *)
Fixpoint waits (evs : list event) : nat :=
  match evs with
  | [] => 0
  | (c, _) :: evs' => if is_output c then waits evs' else Datatypes.S (waits evs')
  end.

Lemma waits_app a b : waits (a ++ b) = (waits a + waits b)%nat.
Proof. induction a as [|[c x] a IH]; [done|]. simpl. destruct (is_output c); lia. Qed.

(** [extends w w' evs]: from [w] to [w'] the events [evs] happened, each call
    took its answer, and the process did not change its environment. *)
Definition extends (w w' : world) (evs : list event) : Prop :=
  trace w' = trace w ++ evs /\ daemon_proc w' = daemon_proc w /\ strerror w' = strerror w /\
  length (script w) = (length (script w') + waits evs)%nat.

Lemma extends_refl w : extends w w [].
Proof. unfold extends. rewrite app_nil_r. repeat split. simpl. lia. Qed.

Lemma extends_trans w1 w2 w3 e1 e2 :
  extends w1 w2 e1 -> extends w2 w3 e2 -> extends w1 w3 (e1 ++ e2).
Proof.
  unfold extends. intros (-> & -> & -> & ?) (-> & -> & -> & ?).
  rewrite app_assoc, waits_app. repeat split; try done. lia.
Qed.

Lemma extends_kernel w c a a0 rest :
  is_output c = false -> script w = a0 :: rest -> extends w (logged w c a rest) [(c, a)].
Proof. intros Hc Hs. unfold extends. simpl. rewrite Hc, Hs. simpl. repeat split. lia. Qed.

Lemma extends_output w c a :
  is_output c = true -> extends w (logged w c a (script w)) [(c, a)].
Proof. intros Hc. unfold extends. simpl. rewrite Hc. repeat split. lia. Qed.

Lemma extends_lt w w' evs :
  extends w w' evs -> (0 < waits evs)%nat -> (length (script w') < length (script w))%nat.
Proof. intros (_ & _ & _ & ->). lia. Qed.
#[export] Hint Resolve extends_refl extends_kernel extends_output : world.
#[export] Hint Resolve extends_refl : core.

Lemma normalise_read fd n a :
  0 <= n ->
  let r := normalise (CRead fd n) a in
  a_ret r = -1 /\ a_data r = [] \/
  0 <= a_ret r <= n /\ a_ret r = Z.of_nat (length (a_data r)) /\ bytes (a_data r).
Proof.
  intros Hn. unfold normalise. destruct (a_ret a <? 0) eqn:E; simpl; [by left|right].
  rewrite length_map, length_take. split; [lia|]. split; [lia|].
  unfold bytes. apply Forall_map, Forall_true. intros x. apply u8_range.
Qed.

Lemma normalise_write fd d a :
  let r := normalise (CWrite fd d) a in
  a_ret r = -1 \/ 0 <= a_ret r <= Z.of_nat (length d).
Proof.
  unfold normalise. destruct (a_ret a <? 0) eqn:E; zbool; simpl; [by left|right]. lia.
Qed.

Lemma elem_of_in_set nfds s l fd : fd ∈ in_set nfds s l <-> fd ∈ s /\ fd < nfds /\ fd ∈ l.
Proof. unfold in_set. rewrite list_elem_of_filter, elem_of_remove_dups. tauto. Qed.
Lemma NoDup_in_set nfds s l : NoDup (in_set nfds s l).
Proof. apply NoDup_filter, NoDup_remove_dups. Qed.

(** What [select] on readable descriptors only returns. *)
Lemma normalise_select nfds s a :
  let r := normalise (CSelect nfds s ∅ None) a in
  a_ret r = -1 \/ a_ret r = Z.of_nat (length (a_data r)) /\ NoDup (a_data r) /\
                 (forall fd, fd ∈ a_data r -> fd ∈ s /\ fd < nfds).
Proof.
  cbv zeta. unfold normalise. destruct (a_ret a <? 0); [by left|]. right. cbn [a_ret a_data].
  assert (in_set nfds ∅ (a_wdata a) = []) as ->.
  { destruct (in_set nfds ∅ (a_wdata a)) as [|fd l] eqn:E; [done|].
    assert (fd ∈ in_set nfds ∅ (a_wdata a)) as Hin by (rewrite E; apply list_elem_of_here).
    apply elem_of_in_set in Hin as [[]%not_elem_of_empty _]. }
  simpl. split_and!; [lia|apply NoDup_in_set|]. intros fd Hfd. by apply elem_of_in_set in Hfd as (?&?&?).
Qed.

(** ** Rules for the calls, in terms of [extends] *)

Lemma wp_call c (Q : answer -> world -> Prop) (H : halt -> world -> Prop) w :
  is_output c = false -> H Blocked w ->
  (forall a w', extends w w' [(c, normalise c a)] ->
     (a_ret (normalise c a) < 0 -> errno w' = a_err (normalise c a)) ->
     (0 <= a_ret (normalise c a) -> errno w' = errno w) ->
     Q (normalise c a) w') ->
  wp (kernel c) Q H w.
Proof.
  intros Hc HB HQ. apply wp_kernel; [done|]. intros a rest Hs. apply HQ.
  - by eapply extends_kernel.
  - simpl. intros Hr. by zif.
  - simpl. intros Hr. by zif.
Qed.

Lemma wp_get_errno (Q : Z -> world -> Prop) (H : halt -> world -> Prop) w :
  Q (errno w) w -> wp get_errno Q H w.
Proof. done. Qed.

Lemma wp_out c (Q : unit -> world -> Prop) (H : halt -> world -> Prop) w :
  is_output c = true ->
  (forall w', extends w w' [(c, ok 0)] -> errno w' = errno w -> script w' = script w -> Q () w') ->
  wp (output c) Q H w.
Proof. intros Hc HQ. apply wp_output, HQ; [by apply extends_output|done|done]. Qed.

(** [evs] makes only reads of [fd], or only writes to [fd]. *)
Definition is_read (fd : Z) (c : call) : Prop :=
  match c with CRead f _ => f = fd | _ => False end.
Definition is_write (fd : Z) (c : call) : Prop :=
  match c with CWrite f _ => f = fd | _ => False end.

Lemma received_one fd n a : received fd [(CRead fd n, a)] = a_data a.
Proof. simpl. by rewrite Z.eqb_refl, app_nil_r. Qed.
Lemma sent_one fd d a : sent fd [(CWrite fd d, a)] = take (Z.to_nat (a_ret a)) d.
Proof. simpl. by rewrite Z.eqb_refl, app_nil_r. Qed.
#[export] Hint Rewrite received_one sent_one : world.

Lemma sent_reads fd g evs : only (is_read g) evs -> sent fd evs = [].
Proof.
  induction 1 as [|[c a] evs Hc Hevs IH]; [done|]. simpl. by destruct c.
Qed.
Lemma received_writes fd g evs : only (is_write g) evs -> received fd evs = [].
Proof.
  induction 1 as [|[c a] evs Hc Hevs IH]; [done|]. simpl. by destruct c.
Qed.

(** The rule for loops with the events so far as part of the invariant. *)
Lemma wp_loop_evs {S R} (body : S -> M (S + R)) (I : S -> list event -> Prop)
    (Q : R -> world -> Prop) (H : halt -> world -> Prop) s w :
  I s [] ->
  (forall s evs w1, I s evs -> extends w w1 evs ->
     wp (body s) (fun r w2 => match r with
       | inl s' => exists evs', extends w1 w2 evs' /\ (0 < waits evs')%nat /\ I s' (evs ++ evs')
       | inr x => Q x w2 end) H w1) ->
  wp (loop body s) Q H w.
Proof.
  intros HI Hb. apply (wp_loop body (fun s w1 => exists evs, extends w w1 evs /\ I s evs)).
  - intros s1 w1 (evs & He & Hs). eapply wp_mono; [|by intros|by eapply Hb].
    intros [s'|x] w2; [|done]. intros (evs' & He' & Hw & HI'). split.
    + exists (evs ++ evs'). split; [by eapply extends_trans|done].
    + by eapply extends_lt.
  - exists []. auto with world.
Qed.

(** ** Runs: what a computation did, by the events of the run

    [runs m Q H w]: every run of [m] from [w] returns a value and events that
    satisfy [Q], or is halted after events that satisfy [H]; [m] cannot run
    for ever without asking the kernel, nor leave [daemon_proc] changed. *)

Definition runs {A} (m : M A) (Q : A -> list event -> Prop) (H : halt -> list event -> Prop)
    (w : world) : Prop :=
  match m w with
  | (Ret a, w') => exists evs, extends w w' evs /\ Q a evs
  | (Halt h, w') => exists evs, extends w w' evs /\ H h evs
  end.

Lemma runs_wp {A} (m : M A) Q H w :
  runs m Q H w <-> wp m (fun a w' => exists evs, extends w w' evs /\ Q a evs)
                        (fun h w' => exists evs, extends w w' evs /\ H h evs) w.
Proof. unfold runs, wp. by destruct (m w) as [[a|h] w']. Qed.

Section Runs.
Context {A B : Type}.
Implicit Types (w : world) (H : halt -> list event -> Prop) (evs : list event).

Lemma runs_mono (m : M A) (Q Q' : A -> list event -> Prop) H H' w :
  runs m Q H w -> (forall a evs, Q a evs -> Q' a evs) ->
  (forall h evs, H h evs -> H' h evs) -> runs m Q' H' w.
Proof.
  rewrite !runs_wp. intros Hm HQ HH. eapply wp_mono; [| |exact Hm].
  - intros a w' (evs & ? & ?). eauto.
  - intros h w' (evs & ? & ?). eauto.
Qed.

Lemma runs_ret (a : A) (Q : A -> list event -> Prop) H w : Q a [] -> runs (mret a) Q H w.
Proof. intros HQ. exists []. auto. Qed.

Lemma runs_halted h (Q : A -> list event -> Prop) H w : H h [] -> runs (halted h) Q H w.
Proof. intros HH. exists []. auto. Qed.

Lemma runs_bind (m : M A) (f : A -> M B) Q H w :
  runs m (fun a evs => forall w', runs (f a) (fun b e => Q b (evs ++ e))
                                     (fun h e => H h (evs ++ e)) w') H w ->
  runs (m ≫= f) Q H w.
Proof.
  unfold runs, mbind, M_bind. destruct (m w) as [[a|h] w']; [|done].
  intros (evs & He & Hf). specialize (Hf w').
  destruct (f a w') as [[b|h] w2]; destruct Hf as (e & He2 & HQ);
    exists (evs ++ e); eauto using extends_trans.
Qed.

Lemma runs_call c (f : answer -> M B) Q H w :
  is_output c = false -> H Blocked [] ->
  (forall a w', let x := normalise c a in
     (a_ret x < 0 -> errno w' = a_err x) ->
     runs (f x) (fun b e => Q b ((c, x) :: e)) (fun h e => H h ((c, x) :: e)) w') ->
  runs (kernel c ≫= f) Q H w.
Proof.
  intros Hc HB Hf. apply runs_wp, wp_bind, wp_call; [done|by exists []|].
  intros a w' He Herr _. specialize (Hf a w' Herr). rewrite runs_wp in Hf.
  eapply wp_mono; [| |exact Hf]; simpl.
  - intros b w2 (evs & He2 & HQ). eexists. split; [|exact HQ]. by eapply (extends_trans _ _ _ [_]).
  - intros h w2 (evs & He2 & HH). eexists. split; [|exact HH]. by eapply (extends_trans _ _ _ [_]).
Qed.

Lemma runs_out c (f : unit -> M B) Q H w :
  is_output c = true ->
  (forall w', runs (f ()) (fun b e => Q b ((c, ok 0) :: e)) (fun h e => H h ((c, ok 0) :: e)) w') ->
  runs (output c ≫= f) Q H w.
Proof.
  intros Hc Hf. apply runs_wp, wp_bind, wp_out; [done|].
  intros w' He _ _. specialize (Hf w'). rewrite runs_wp in Hf.
  eapply wp_mono; [| |exact Hf]; simpl.
  - intros b w2 (evs & He2 & HQ). eexists. split; [|exact HQ]. by eapply (extends_trans _ _ _ [_]).
  - intros h w2 (evs & He2 & HH). eexists. split; [|exact HH]. by eapply (extends_trans _ _ _ [_]).
Qed.

Lemma runs_get_errno (f : Z -> M B) Q H w :
  runs (f (errno w)) Q H w -> runs (get_errno ≫= f) Q H w.
Proof. done. Qed.

Lemma runs_set_errno e (f : unit -> M B) Q H w :
  (forall w', errno w' = e -> runs (f ()) Q H w') -> runs (set_errno e ≫= f) Q H w.
Proof.
  intros Hf.
  specialize (Hf (World (script w) (trace w) e (daemon_proc w) (strerror w)) eq_refl).
  unfold runs, mbind, M_bind, set_errno in *. by destruct (f () _) as [[b|h] w2].
Qed.
End Runs.

(** A loop: [I] relates the state to the events so far. *)
Lemma runs_loop {S R} (body : S -> M (S + R)) (I : S -> list event -> Prop)
    (Q : R -> list event -> Prop) (H : halt -> list event -> Prop) s w :
  I s [] ->
  (forall s evs w, I s evs ->
     runs (body s) (fun r e => match r with
                               | inl s' => (0 < waits e)%nat /\ I s' (evs ++ e)
                               | inr x => Q x (evs ++ e)
                               end) (fun h e => H h (evs ++ e)) w) ->
  runs (loop body s) Q H w.
Proof.
  intros HI Hb. apply runs_wp, (wp_loop_evs _ I); [done|].
  intros s1 evs w1 Hs He. specialize (Hb s1 evs w1 Hs). rewrite runs_wp in Hb.
  eapply wp_mono; [| |exact Hb]; simpl.
  - intros [s'|x] w2 (e & He2 & HQ).
    + exists e. by destruct HQ.
    + exists (evs ++ e). eauto using extends_trans.
  - intros h w2 (e & He2 & HH). exists (evs ++ e). eauto using extends_trans.
Qed.

(** The events of a run are determined by its worlds. *)
Lemma extends_inj w w' e1 e2 : extends w w' e1 -> extends w w' e2 -> e1 = e2.
Proof. intros (H1 & _) (H2 & _). rewrite H1 in H2. by apply app_inv_head in H2. Qed.

Lemma runs_conj {A} (m : M A) (Q1 Q2 : A -> list event -> Prop) (H1 H2 : halt -> list event -> Prop) w :
  runs m Q1 H1 w -> runs m Q2 H2 w ->
  runs m (fun a e => Q1 a e /\ Q2 a e) (fun h e => H1 h e /\ H2 h e) w.
Proof.
  unfold runs. destruct (m w) as [[a|h] w']; intros (e1 & He1 & ?) (e2 & He2 & ?);
    rewrite <- (extends_inj _ _ _ _ He1 He2) in *; eauto.
Qed.

(** ** The calls that a computation can make

    [makes P m]: whatever happens, [m] makes only calls that satisfy [P].  The
    rules follow the syntax of [m]; [solve_makes] applies them. *)

Definition makes {A} (P : call -> Prop) (m : M A) : Prop :=
  forall w, runs m (fun _ e => only P e) (fun _ e => only P e) w.

Section Makes.
Context {A B : Type} (P : call -> Prop).

Lemma makes_ret (a : A) : makes P (mret a).
Proof. intros w. by apply runs_ret. Qed.
Lemma makes_halted h : makes P (halted (A := A) h).
Proof. intros w. by apply runs_halted. Qed.
Lemma makes_bind (m : M A) (f : A -> M B) :
  makes P m -> (forall a, makes P (f a)) -> makes P (m ≫= f).
Proof.
  intros Hm Hf w. apply runs_bind. eapply runs_mono; [apply Hm| |done].
  intros a e He w'. eapply runs_mono; [apply Hf| |]; intros; by apply only_app.
Qed.
Lemma makes_kernel c : is_output c = false -> P c -> makes P (kernel c).
Proof.
  intros Hc HP w. apply runs_wp, wp_call; [done|by exists []|].
  intros a w' He _ _. eauto with world.
Qed.
Lemma makes_output c : is_output c = true -> P c -> makes P (output c).
Proof. intros Hc HP w. apply runs_wp, wp_out; [done|]. intros w' He _ _. eauto with world. Qed.
Lemma makes_get_errno : makes P get_errno.
Proof. intros w. exists []. auto. Qed.
Lemma makes_set_errno e : makes P (set_errno e).
Proof. intros w. exists []. split; [|done]. unfold extends. simpl. rewrite app_nil_r. auto. Qed.
Lemma makes_if (b : bool) (m1 m2 : M A) :
  makes P m1 -> makes P m2 -> makes P (if b then m1 else m2).
Proof. by destruct b. Qed.
End Makes.

Lemma makes_mono {A} (P P' : call -> Prop) (m : M A) :
  makes P m -> (forall c, P c -> P' c) -> makes P' m.
Proof. intros Hm HP w. eapply runs_mono; [apply Hm|..]; intros; by eapply only_mono. Qed.

Lemma makes_loop {S R} (P : call -> Prop) (body : S -> M (S + R)) s :
  (forall s, makes P (body s)) -> makes P (loop body s).
Proof.
  intros Hb w. unfold loop, runs. generalize (Datatypes.S (length (script w))) as f.
  revert s w. enough (forall f s, makes P (iterate f body s)) as Hi by (intros s w f; apply Hi).
  induction f as [|f IH]; intros s; cbn [iterate]; [apply makes_halted|].
  apply makes_bind; [done|]. intros [s'|x]; [done|apply makes_ret].
Qed.

Create HintDb makes discriminated.
#[export] Hint Resolve makes_ret makes_halted makes_get_errno makes_set_errno : makes.

(** One structural step of [solve_makes]. *)
Ltac makes_step :=
  lazymatch goal with
  | |- makes _ (_ ≫= _) => apply makes_bind; [|intros]
  | |- makes _ (if _ then _ else _) => apply makes_if
  | |- makes _ (loop _ _) => apply makes_loop; intros
  | |- makes _ (match ?x with _ => _ end) => destruct x
  | |- makes _ (kernel _) => apply makes_kernel; [reflexivity|try done]
  | |- makes _ (output _) => apply makes_output; [reflexivity|try done]
  | |- makes _ (let _ := _ in _) => cbv zeta
  | |- makes _ _ => solve [eauto with makes]
  end.
Ltac solve_makes := repeat makes_step.

Lemma runs_or_undef {A B} (o : option A) (x : A) (f : A -> M B) Q H w :
  o = Some x -> runs (f x) Q H w -> runs (or_undef o ≫= f) Q H w.
Proof. by intros ->. Qed.
Lemma runs_none {A B} (o : option A) (f : A -> M B) (Q : B -> list event -> Prop)
    (H : halt -> list event -> Prop) w :
  o = None -> H Undefined [] -> runs (or_undef o ≫= f) Q H w.
Proof. intros -> HH. by apply (runs_halted Undefined). Qed.

Lemma runs_ext {A} (m m' : M A) Q H w : m w = m' w -> runs m' Q H w -> runs m Q H w.
Proof. unfold runs. by intros ->. Qed.

(** The call of which only the value is used; [errno] as [runs_call]. *)
Lemma runs_ret_of {B} c (f : Z -> M B) (Q : B -> list event -> Prop)
    (H : halt -> list event -> Prop) w :
  is_output c = false -> H Blocked [] ->
  (forall a w', let x := normalise c a in
     (a_ret x < 0 -> errno w' = a_err x) ->
     runs (f (a_ret x)) (fun b e => Q b ((c, x) :: e)) (fun h e => H h ((c, x) :: e)) w') ->
  runs (ret_of c ≫= f) Q H w.
Proof.
  intros Hc HB Hf. apply (runs_ext _ (kernel c ≫= fun a => f (a_ret a))).
  - unfold ret_of, mbind, M_bind. by destruct (kernel c w) as [[a|h] w'].
  - by apply runs_call.
Qed.
