(* ===== verification/ErrorLib.v ===== *)
(** * lib/error.c: the error-reporting functions

    [text] is the message as [vsprintf] formats it from the arguments; the
    functions take it already formatted.  [HAVE_VSNPRINTF] is defined in the
    repository's config.h. *)

From S2P Require Import Prelude Unix.

(** [err_doit]: the message, ": " and the text of [errno] when [errnoflag] is
    set, a newline, in the local array [buf[MAXLINE + 1]], to syslog for a
    daemon and to standard error otherwise. *)
Definition err_doit (errnoflag : bool) (level : Z) (text : list Z) : M unit :=
  λ w, (
    errno_save ← get_errno;
    let buf := take (Z.to_nat (MAXLINE - 1)) text in
    let n := Z.of_nat (length buf) in
    let buf := if errnoflag
               then buf ++ take (Z.to_nat (MAXLINE - n - 1))
                      ([58; 32] ++ strerror w errno_save)
               else buf in
    let buf := buf ++ [10] in
    if MAXLINE + 1 <? Z.of_nat (length buf) + 1 then undefined
    else if negb (daemon_proc w =? 0) then output (CSyslog level buf)
    else output (CFflush STDOUT_FILENO) ;;
         output (CStderr buf) ;;
         output (CFflush 2)) w.

(** Nonfatal error related to a system call. *)
Definition err_ret (text : list Z) : M unit := err_doit true LOG_INFO text.
(** Fatal error related to a system call. *)
Definition err_sys {A} (text : list Z) : M A := err_doit true LOG_ERR text ;; exit 1.
(** Fatal error related to a system call, with a core dump. *)
Definition err_dump {A} (text : list Z) : M A :=
  err_doit true LOG_ERR text ;; halted (Killed SIGABRT).
(** Nonfatal error unrelated to a system call. *)
Definition err_msg (text : list Z) : M unit := err_doit false LOG_INFO text.
(** Fatal error unrelated to a system call. *)
Definition err_quit {A} (text : list Z) : M A := err_doit false LOG_ERR text ;; exit 1.

(** ** The line that is reported *)

Definition report_line (errnoflag : bool) (text reason : list Z) : list Z :=
  let msg := take 4095 text in
  (if errnoflag then take 4095 (msg ++ chars ": " ++ reason) else msg) ++ [10].

Definition report_events (w : world) (level : Z) (line : list Z) : list event :=
  if daemon_proc w =? 0
  then [(CFflush 1, ok 0); (CStderr line, ok 0); (CFflush 2, ok 0)]
  else [(CSyslog level line, ok 0)].

Lemma err_doit_spec flag level text w :
  err_doit flag level text w =
  (Ret (), World (script w)
     (trace w ++ report_events w level (report_line flag text (strerror w (errno w))))
     (errno w) (daemon_proc w) (strerror w)).
Proof.
  unfold err_doit, mbind, M_bind, get_errno, MAXLINE.
  change (Z.to_nat (4096 - 1)) with 4095%nat.
  set (buf := take 4095 text).
  assert (length buf <= 4095)%nat as Hbuf by (unfold buf; rewrite length_take; lia).
  assert ((if flag then buf ++ take (Z.to_nat (4096 - Z.of_nat (length buf) - 1))
                     ([58; 32] ++ strerror w (errno w)) else buf) ++ [10]
          = report_line flag text (strerror w (errno w))) as ->.
  { unfold report_line. fold buf. destruct flag; [|done]. f_equal.
    rewrite (take_app buf), (take_ge buf) by lia. do 2 f_equal. lia. }
  replace (4096 + 1 <? _) with false.
  2: { symmetry. apply Z.ltb_ge. unfold report_line. fold buf. rewrite length_app. simpl.
       destruct flag; rewrite ?length_take; lia. }
  unfold report_events. destruct (daemon_proc w =? 0); cbn -[app];
    unfold output, logged; cbn -[app]; by rewrite <- ?app_assoc.
Qed.

Lemma wp_err_doit flag level text Q H w :
  Q () (World (script w)
     (trace w ++ report_events w level (report_line flag text (strerror w (errno w))))
     (errno w) (daemon_proc w) (strerror w)) ->
  wp (err_doit flag level text) Q H w.
Proof. unfold wp. by rewrite err_doit_spec. Qed.

(** A fatal error ends the process with status 1. *)
Lemma wp_err_sys {A} text (Q : A -> world -> Prop) (H : halt -> world -> Prop) w :
  H (Exited 1) (World (script w)
     (trace w ++ report_events w LOG_ERR (report_line true text (strerror w (errno w))))
     (errno w) (daemon_proc w) (strerror w)) ->
  wp (err_sys text) Q H w.
Proof. intros. apply wp_bind, wp_err_doit. done. Qed.

Lemma wp_err_quit {A} text (Q : A -> world -> Prop) (H : halt -> world -> Prop) w :
  H (Exited 1) (World (script w)
     (trace w ++ report_events w LOG_ERR (report_line false text (strerror w (errno w))))
     (errno w) (daemon_proc w) (strerror w)) ->
  wp (err_quit text) Q H w.
Proof. intros. apply wp_bind, wp_err_doit. done. Qed.


(** ** Rules for the callers *)

Definition is_report (c : call) : Prop :=
  match c with CFflush _ | CStderr _ | CSyslog _ _ => True | _ => False end.

Lemma report_events_only w level line : only is_report (report_events w level line).
Proof. unfold report_events. destruct (_ =? 0); repeat constructor. Qed.

Lemma report_extends w level line :
  extends w (World (script w) (trace w ++ report_events w level line) (errno w)
               (daemon_proc w) (strerror w)) (report_events w level line).
Proof.
  unfold extends. simpl. repeat split. unfold report_events. destruct (_ =? 0); simpl; lia.
Qed.

Lemma wp_fatal {A} (flag : bool) (text : list Z) (Q : A -> world -> Prop) (H : halt -> world -> Prop) w :
  (forall w' evs, extends w w' evs -> only is_report evs -> H (Exited 1) w') ->
  wp (if flag then err_sys text else err_quit text) Q H w.
Proof.
  intros HH. destruct flag; [apply wp_err_sys|apply wp_err_quit];
    (eapply HH; [apply report_extends|apply report_events_only]).
Qed.

Lemma runs_fatal {A} (flag : bool) text (Q : A -> list event -> Prop)
    (H : halt -> list event -> Prop) w :
  (forall evs, only is_report evs -> H (Exited 1) evs) ->
  runs (if flag then err_sys text else err_quit text) Q H w.
Proof. intros HH. apply runs_wp, wp_fatal. eauto. Qed.

Lemma runs_err_sys {A} text (Q : A -> list event -> Prop) (H : halt -> list event -> Prop) w :
  (forall evs, only is_report evs -> H (Exited 1) evs) -> runs (err_sys text) Q H w.
Proof. apply (runs_fatal true). Qed.
Lemma runs_err_quit {A} text (Q : A -> list event -> Prop) (H : halt -> list event -> Prop) w :
  (forall evs, only is_report evs -> H (Exited 1) evs) -> runs (err_quit text) Q H w.
Proof. apply (runs_fatal false). Qed.

Lemma makes_report P flag level text :
  (forall c, is_report c -> P c) -> makes P (err_doit flag level text).
Proof.
  intros HP w. apply runs_wp, wp_err_doit. eexists. split; [apply report_extends|].
  apply (only_mono _ _ _ HP), report_events_only.
Qed.
Lemma makes_err_sys {A} P text : (forall c, is_report c -> P c) -> makes P (err_sys (A := A) text).
Proof. intros HP. apply makes_bind; [by apply makes_report|]. intros. apply makes_halted. Qed.
Lemma makes_err_quit {A} P text : (forall c, is_report c -> P c) -> makes P (err_quit (A := A) text).
Proof. intros HP. apply makes_bind; [by apply makes_report|]. intros. apply makes_halted. Qed.
#[export] Hint Resolve makes_err_sys makes_err_quit : makes.
