(* ===== verification/Wrap.v ===== *)
(** * lib/wrapunix.c, wrapsock.c, wrappthread.c, wrapstdio.c, wraplib.c

    The capitalised wrappers: each makes its call, and reports and exits when
    the call failed.  A wrapper returns what its caller gets: the value, or
    the whole answer when the call also fills its caller's objects (bytes
    read, address, descriptor sets, status).  [recv] and [send] are the calls
    [recvfrom] and [sendto] without an address, as POSIX defines them.  The
    branches taken are those of the repository's config.h (HAVE_MKSTEMP,
    HAVE_SYS_SYSCTL_H, HAVE_POLL, HAVE_INET6_RTH_INIT; no HAVE_KQUEUE). *)

From S2P Require Import Prelude InetPton InetNtop Unix ErrorLib.

Definition libc (name : string) (args data : list Z) : call := CLibc name args data.

(** The wrappers test [== -1], [< 0], [== NULL] or [!= n]: *)
Definition minus_one (a : answer) : bool := a_ret a =? -1.
Definition negative (a : answer) : bool := a_ret a <? 0.
Definition null (a : answer) : bool := a_ret a =? NULL.
Definition not_all (n : Z) (a : answer) : bool := negb (a_ret a =? n).

Definition check_sys (bad : answer -> bool) (text : list Z) (a : answer) : M answer :=
  if bad a then err_sys text else mret a.
Definition check_quit (bad : answer -> bool) (text : list Z) (a : answer) : M answer :=
  if bad a then err_quit text else mret a.

(** ** lib/wrapunix.c *)

Definition Calloc (n size : Z) : M Z :=
  a ← kernel (libc "calloc" [n; size] []); a ← check_sys null (chars "calloc error") a; mret (a_ret a).
Definition Close (fd : Z) : M unit :=
  a ← kernel (CClose fd); check_sys minus_one (chars "close error") a ;; mret ().
Definition Dup2 (fd1 fd2 : Z) : M unit :=
  a ← kernel (libc "dup2" [fd1; fd2] []); check_sys minus_one (chars "dup2 error") a ;; mret ().
Definition Fcntl (fd cmd arg : Z) : M Z :=
  a ← kernel (CFcntl fd cmd arg); a ← check_sys minus_one (chars "fcntl error") a; mret (a_ret a).
Definition Gettimeofday : M answer :=
  a ← kernel (CGettimeofday); check_sys minus_one (chars "gettimeofday error") a.
Definition Ioctl (fd request : Z) (arg : list Z) : M answer :=
  a ← kernel (libc "ioctl" [fd; request] arg); check_sys minus_one (chars "ioctl error") a.
Definition Fork : M Z :=
  a ← kernel (CFork); a ← check_sys minus_one (chars "fork error") a; mret (a_ret a).
Definition Malloc (size : Z) : M Z :=
  a ← kernel (libc "malloc" [size] []); a ← check_sys null (chars "malloc error") a; mret (a_ret a).
Definition Mkstemp (template : list Z) : M answer :=
  a ← kernel (libc "mkstemp" [] template); check_quit negative (chars "mkstemp error") a.
Definition Mmap (addr len prot flags fd offset : Z) : M Z :=
  a ← kernel (libc "mmap" [addr; len; prot; flags; fd; offset] []); a ← check_sys minus_one (chars "mmap error") a; mret (a_ret a).
Definition Open (pathname : list Z) (oflag mode : Z) : M Z :=
  a ← kernel (libc "open" [oflag; mode] pathname); a ← check_sys minus_one (chars "open error for " ++ pathname) a; mret (a_ret a).
Definition Pipe : M answer :=
  a ← kernel (libc "pipe" [] []); check_sys negative (chars "pipe error") a.
Definition Read (fd nbytes : Z) : M answer :=
  a ← kernel (CRead fd nbytes); check_sys minus_one (chars "read error") a.
Definition Sigaddset (set signo : Z) : M unit :=
  a ← kernel (libc "sigaddset" [set; signo] []); check_sys minus_one (chars "sigaddset error") a ;; mret ().
Definition Sigdelset (set signo : Z) : M unit :=
  a ← kernel (libc "sigdelset" [set; signo] []); check_sys minus_one (chars "sigdelset error") a ;; mret ().
Definition Sigemptyset (set : Z) : M unit :=
  a ← kernel (libc "sigemptyset" [set] []); check_sys minus_one (chars "sigemptyset error") a ;; mret ().
Definition Sigfillset (set : Z) : M unit :=
  a ← kernel (libc "sigfillset" [set] []); check_sys minus_one (chars "sigfillset error") a ;; mret ().
Definition Sigismember (set signo : Z) : M Z :=
  a ← kernel (libc "sigismember" [set; signo] []); a ← check_sys minus_one (chars "sigismember error") a; mret (a_ret a).
Definition Sigpending (set : Z) : M unit :=
  a ← kernel (libc "sigpending" [set] []); check_sys minus_one (chars "sigpending error") a ;; mret ().
Definition Sigprocmask (how set oset : Z) : M unit :=
  a ← kernel (libc "sigprocmask" [how; set; oset] []); check_sys minus_one (chars "sigprocmask error") a ;; mret ().
Definition Strdup (str : list Z) : M Z :=
  a ← kernel (libc "strdup" [] str); a ← check_sys null (chars "strdup error") a; mret (a_ret a).
Definition Sysconf (name : Z) : M Z :=
  set_errno 0 ;;
  a ← kernel (libc "sysconf" [name] []); a ← check_sys minus_one (chars "sysconf error") a; mret (a_ret a).
Definition Sysctl (name newp : list Z) : M answer :=
  a ← kernel (libc "sysctl" name newp); check_sys minus_one (chars "sysctl error") a.
Definition Unlink (pathname : list Z) : M unit :=
  a ← kernel (libc "unlink" [] pathname); check_sys minus_one (chars "unlink error for " ++ pathname) a ;; mret ().
Definition Wait : M answer :=
  a ← kernel (CWaitpid (-1) 0); check_sys minus_one (chars "wait error") a.
Definition Waitpid (pid options : Z) : M answer :=
  a ← kernel (CWaitpid pid options); check_sys minus_one (chars "waitpid error") a.
Definition Write (fd : Z) (ptr : list Z) : M unit :=
  a ← kernel (CWrite fd ptr); check_sys (not_all (Z.of_nat (length ptr))) (chars "write error") a ;; mret ().

(** ** lib/wrapsock.c *)

(** The loop at [again]: a connection that the peer aborted is skipped. *)
Definition Accept_body (fd : Z) (_ : unit) : M (unit + answer) :=
  a ← kernel (CAccept fd);
  if a_ret a <? 0 then
    e ← get_errno;
    if (e =? EPROTO) || (e =? ECONNABORTED) then mret (inl ())
    else err_sys (chars "accept error")
  else mret (inr a).
Definition Accept (fd : Z) : M answer := loop (Accept_body fd) ().
Definition Bind (fd : Z) (sa : list Z) : M unit :=
  a ← kernel (CBind fd sa); check_sys negative (chars "bind error") a ;; mret ().
Definition Connect (fd : Z) (sa : list Z) : M unit :=
  a ← kernel (CConnect fd sa); check_sys negative (chars "connect error") a ;; mret ().
Definition Getpeername (fd : Z) : M answer :=
  a ← kernel (libc "getpeername" [fd] []); check_sys negative (chars "getpeername error") a.
Definition Getsockname (fd : Z) : M answer :=
  a ← kernel (libc "getsockname" [fd] []); check_sys negative (chars "getsockname error") a.
Definition Getsockopt (fd level optname : Z) : M answer :=
  a ← kernel (CGetsockopt fd level optname); check_sys negative (chars "getsockopt error") a.
Definition Inet6_rth_space (type segments : Z) : M Z :=
  a ← kernel (libc "inet6_rth_space" [type; segments] []); a ← check_quit negative (chars "inet6_rth_space error") a; mret (a_ret a).
Definition Inet6_rth_init (rthlen type segments : Z) : M Z :=
  a ← kernel (libc "inet6_rth_init" [rthlen; type; segments] []); a ← check_quit null (chars "inet6_rth_init error") a; mret (a_ret a).
Definition Inet6_rth_add (rthbuf addr : list Z) : M unit :=
  a ← kernel (libc "inet6_rth_add" rthbuf addr); check_quit negative (chars "inet6_rth_add error") a ;; mret ().
Definition Inet6_rth_reverse (inp : list Z) : M unit :=
  a ← kernel (libc "inet6_rth_reverse" [] inp); check_quit negative (chars "inet6_rth_reverse error") a ;; mret ().
Definition Inet6_rth_segments (rthbuf : list Z) : M Z :=
  a ← kernel (libc "inet6_rth_segments" [] rthbuf); a ← check_quit negative (chars "inet6_rth_segments error") a; mret (a_ret a).
Definition Inet6_rth_getaddr (rthbuf : list Z) (idx : Z) : M Z :=
  a ← kernel (libc "inet6_rth_getaddr" [idx] rthbuf); a ← check_quit null (chars "inet6_rth_getaddr error") a; mret (a_ret a).
(** The backlog can be overridden by the environment variable LISTENQ. *)
Definition Listen (fd backlog : Z) : M unit :=
  ptr ← kernel (libc "getenv" [] (chars "LISTENQ"));
  let backlog := if null ptr then backlog else atoi (c_string (a_data ptr)) in
  a ← kernel (CListen fd backlog); check_sys negative (chars "listen error") a ;; mret ().
Definition Poll (fdarray : list (Z * Z)) (timeout : Z) : M answer :=
  a ← kernel (CPoll fdarray timeout); check_sys negative (chars "poll error") a.
Definition Recv (fd nbytes flags : Z) : M answer :=
  a ← kernel (CRecvfrom fd nbytes flags); check_sys negative (chars "recv error") a.
Definition Recvfrom (fd nbytes flags : Z) : M answer :=
  a ← kernel (CRecvfrom fd nbytes flags); check_sys negative (chars "recvfrom error") a.
Definition Recvmsg (fd flags : Z) : M answer :=
  a ← kernel (libc "recvmsg" [fd; flags] []); check_sys negative (chars "recvmsg error") a.
Definition Select (nfds : Z) (readfds writefds : gset Z) (timeout : option Z) : M answer :=
  a ← kernel (CSelect nfds readfds writefds timeout); check_sys negative (chars "select error") a.
Definition Send (fd : Z) (ptr : list Z) : M unit :=
  a ← kernel (CSendto fd ptr []); check_sys (not_all (Z.of_nat (length ptr))) (chars "send error") a ;; mret ().
Definition Sendto (fd : Z) (ptr sa : list Z) : M unit :=
  a ← kernel (CSendto fd ptr sa); check_sys (not_all (Z.of_nat (length ptr))) (chars "sendto error") a ;; mret ().
(** [name] is the address in [msg->msg_name], [iov] the list of the buffers of
    [msg->msg_iov]. *)
Definition Sendmsg (fd : Z) (name : list Z) (iov : list (list Z)) (flags : Z) : M unit :=
  let nbytes := foldl (fun n b => n + Z.of_nat (length b)) 0 iov in
  a ← kernel (libc "sendmsg" (fd :: flags :: name) (concat iov));
  check_sys (not_all nbytes) (chars "sendmsg error") a ;; mret ().
Definition Setsockopt (fd level optname : Z) (optval : list Z) : M unit :=
  a ← kernel (CSetsockopt fd level optname optval); check_sys negative (chars "setsockopt error") a ;; mret ().
Definition Shutdown (fd how : Z) : M unit :=
  a ← kernel (CShutdown fd how); check_sys negative (chars "shutdown error") a ;; mret ().
Definition Sockatmark (fd : Z) : M Z :=
  a ← kernel (libc "sockatmark" [fd] []); a ← check_sys negative (chars "sockatmark error") a; mret (a_ret a).
Definition Socket (family type protocol : Z) : M Z :=
  a ← kernel (CSocket family type protocol); a ← check_sys negative (chars "socket error") a; mret (a_ret a).
Definition Socketpair (family type protocol : Z) : M answer :=
  a ← kernel (libc "socketpair" [family; type; protocol] []); check_sys negative (chars "socketpair error") a.

(** ** lib/wrapstdio.c *)

Definition Fclose (fp : Z) : M unit :=
  a ← kernel (libc "fclose" [fp] []); check_sys (not_all 0) (chars "fclose error") a ;; mret ().
Definition Fdopen (fd : Z) (type : list Z) : M Z :=
  a ← kernel (libc "fdopen" [fd] type); a ← check_sys null (chars "fdopen error") a; mret (a_ret a).
(** The line, or [None] at end of file: the null pointer without [ferror]. *)
Definition Fgets (n : Z) : M (option (list Z)) :=
  a ← kernel (CFgets n);
  a ← check_sys negative (chars "fgets error") a;
  mret (if a_ret a =? 0 then None else Some (a_data a)).
Definition Fopen (filename mode : list Z) : M Z :=
  a ← kernel (libc "fopen" mode filename); a ← check_sys null (chars "fopen error") a; mret (a_ret a).
Definition Fputs (ptr : list Z) : M unit :=
  a ← kernel (CFputs ptr); check_sys minus_one (chars "fputs error") a ;; mret ().

(** ** lib/wrappthread.c: the error number is the return value *)

Definition pthread_check (text : list Z) (a : answer) : M unit :=
  let n := a_ret a in
  if n =? 0 then mret () else set_errno n ;; err_sys text.

Definition Pthread_create (func arg : Z) : M unit :=
  a ← kernel (libc "pthread_create" [func; arg] []); pthread_check (chars "pthread_create error") a.
Definition Pthread_join (tid : Z) : M unit :=
  a ← kernel (libc "pthread_join" [tid] []); pthread_check (chars "pthread_join error") a.
Definition Pthread_detach (tid : Z) : M unit :=
  a ← kernel (libc "pthread_detach" [tid] []); pthread_check (chars "pthread_detach error") a.
Definition Pthread_kill (tid signo : Z) : M unit :=
  a ← kernel (libc "pthread_kill" [tid; signo] []); pthread_check (chars "pthread_kill error") a.
Definition Pthread_mutexattr_init (attr : Z) : M unit :=
  a ← kernel (libc "pthread_mutexattr_init" [attr] []); pthread_check (chars "pthread_mutexattr_init error") a.
Definition Pthread_mutexattr_setpshared (attr flag : Z) : M unit :=
  a ← kernel (libc "pthread_mutexattr_setpshared" [attr; flag] []); pthread_check (chars "pthread_mutexattr_setpshared error") a.
Definition Pthread_mutex_init (mptr attr : Z) : M unit :=
  a ← kernel (libc "pthread_mutex_init" [mptr; attr] []); pthread_check (chars "pthread_mutex_init error") a.
Definition Pthread_mutex_lock (mptr : Z) : M unit :=
  a ← kernel (libc "pthread_mutex_lock" [mptr] []); pthread_check (chars "pthread_mutex_lock error") a.
Definition Pthread_mutex_unlock (mptr : Z) : M unit :=
  a ← kernel (libc "pthread_mutex_unlock" [mptr] []); pthread_check (chars "pthread_mutex_unlock error") a.
Definition Pthread_cond_broadcast (cptr : Z) : M unit :=
  a ← kernel (libc "pthread_cond_broadcast" [cptr] []); pthread_check (chars "pthread_cond_broadcast error") a.
Definition Pthread_cond_signal (cptr : Z) : M unit :=
  a ← kernel (libc "pthread_cond_signal" [cptr] []); pthread_check (chars "pthread_cond_signal error") a.
Definition Pthread_cond_wait (cptr mptr : Z) : M unit :=
  a ← kernel (libc "pthread_cond_wait" [cptr; mptr] []); pthread_check (chars "pthread_cond_wait error") a.
Definition Pthread_cond_timedwait (cptr mptr tsptr : Z) : M unit :=
  a ← kernel (libc "pthread_cond_timedwait" [cptr; mptr; tsptr] []); pthread_check (chars "pthread_cond_timedwait error") a.
Definition Pthread_once (ptr func : Z) : M unit :=
  a ← kernel (libc "pthread_once" [ptr; func] []); pthread_check (chars "pthread_once error") a.
Definition Pthread_key_create (func : Z) : M unit :=
  a ← kernel (libc "pthread_key_create" [func] []); pthread_check (chars "pthread_key_create error") a.
Definition Pthread_setspecific (key value : Z) : M unit :=
  a ← kernel (libc "pthread_setspecific" [key; value] []); pthread_check (chars "pthread_setspecific error") a.

(** ** lib/wraplib.c *)

Definition Inet_ntop (family : Z) (addr : list Z) (strptr_null : bool) (len : Z) : M (list Z) :=
  if strptr_null then err_quit (chars "NULL 3rd argument to inet_ntop")
  else match inet_ntop family addr len with
       | NtNull e => set_errno e ;; err_sys (chars "inet_ntop error")
       | NtOk s => mret s
       end.

Definition Inet_pton (family : Z) (strptr : list Z) : M (list Z) :=
  let '(n, dst, e) := inet_pton family strptr in
  match e with Some e => set_errno e | None => mret () end ;;
  if n <? 0 then err_sys (chars "inet_pton error for " ++ strptr)
  else if n =? 0 then err_quit (chars "inet_pton error for " ++ strptr)
  else match dst with Some d => mret d | None => undefined end.

(** ** The contract of a wrapper *)

Definition succeeded (a : answer) : Prop := 0 <= a_ret a.
Definition returned (n : Z) (a : answer) : Prop := a_ret a = n.

(** The error number that is reported: that of the failed call. *)
Definition unix_code (e : Z) (a : answer) : Z := if a_ret a <? 0 then a_err a else e.
Definition pthread_code (_ : Z) (a : answer) : Z := a_ret a.

Definition reported (flag : bool) (text : list Z) (w : world) : world :=
  World (script w)
    (trace w ++ report_events w LOG_ERR (report_line flag text (strerror w (errno w))))
    (errno w) (daemon_proc w) (strerror w).

(** [m] makes the call [c] once; when the answer is [good] it returns
    [val] of it and has done nothing else, and otherwise it reports [text]
    with the error of the call and exits with status 1. *)
Definition wraps {A} (m : M A) (c : call) (good : answer -> Prop) (val : answer -> A)
    (flag : bool) (text : list Z) (code : Z -> answer -> Z) : Prop :=
  forall w,
    match script w with
    | [] => exists w', m w = (Halt Blocked, w') /\ extends w w' []
    | a0 :: _ =>
        let a := normalise c a0 in
        exists w', extends w w' [(c, a)] /\
          (good a /\ m w = (Ret (val a), w') \/
           ~ good a /\ (flag = true -> errno w' = code (errno w) a) /\
             m w = (Halt (Exited 1), reported flag text w'))
    end.

(** What a client uses of a wrapper. *)
Lemma wp_wraps {A} (m : M A) c good val flag text code
    (Q : A -> world -> Prop) (H : halt -> world -> Prop) w :
  wraps m c good val flag text code ->
  (forall w', extends w w' [] -> H Blocked w') ->
  (forall a w', extends w w' [(c, normalise c a)] -> good (normalise c a) ->
     Q (val (normalise c a)) w') ->
  (forall a w' evs, extends w w' ((c, normalise c a) :: evs) -> only is_report evs ->
     ~ good (normalise c a) -> H (Exited 1) w') ->
  wp m Q H w.
Proof.
  intros Hm HB HQ HE. specialize (Hm w). unfold wp.
  destruct (script w) as [|a0 rest].
  - destruct Hm as (w' & -> & He). by apply HB.
  - destruct Hm as (w' & He & [[Hg ->]|(Hg & _ & ->)]); [by apply HQ|].
    eapply (HE a0 _ (report_events w' LOG_ERR (report_line flag text (strerror w' (errno w')))));
      [|apply report_events_only|done].
    eapply (extends_trans _ _ _ [_]); [exact He|apply report_extends].
Qed.

Lemma runs_wraps {A B} (m : M A) c good val flag text code (f : A -> M B)
    (Q : B -> list event -> Prop) (H : halt -> list event -> Prop) w :
  wraps m c good val flag text code ->
  H Blocked [] ->
  (forall a rep, ~ good (normalise c a) -> only is_report rep ->
     H (Exited 1) ((c, normalise c a) :: rep)) ->
  (forall a w', good (normalise c a) ->
     runs (f (val (normalise c a))) (fun b e => Q b ((c, normalise c a) :: e))
       (fun h e => H h ((c, normalise c a) :: e)) w') ->
  runs (m ≫= f) Q H w.
Proof.
  intros Hm HB HE Hf. apply runs_bind, runs_wp. eapply wp_wraps; [exact Hm| | |].
  - intros w' He. by exists [].
  - intros a w' He Hg. eexists. split; [exact He|]. intros w2. by apply Hf.
  - intros a w' evs He Hr Hg. eexists. split; [exact He|]. by apply HE.
Qed.

Lemma normalise_ret c a : -1 <= a_ret (normalise c a).
Proof.
  unfold normalise. destruct (a_ret a <? 0) eqn:E; [simpl; lia|].
  destruct c; simpl; lia.
Qed.

Lemma err_sys_reported {A} text w : @err_sys A text w = (Halt (Exited 1), reported true text w).
Proof. unfold err_sys, mbind, M_bind. by rewrite err_doit_spec. Qed.
Lemma err_quit_reported {A} text w : @err_quit A text w = (Halt (Exited 1), reported false text w).
Proof. unfold err_quit, mbind, M_bind. by rewrite err_doit_spec. Qed.

Lemma logged_extends w c a a0 rest :
  is_output c = false -> script w = a0 :: rest -> extends w (logged w c a rest) [(c, a)].
Proof. apply extends_kernel. Qed.

(** A call followed by a test: the shape of all the wrappers. *)
Lemma wraps_test {A} c (bad : answer -> bool) good (val : answer -> A) (flag : bool) text :
  is_output c = false ->
  (forall a, bad (normalise c a) = true <-> ~ good (normalise c a)) ->
  (forall a, good a \/ ~ good a) ->
  wraps (a ← kernel c;
         if bad a then (if flag then err_sys text else err_quit text) else mret (val a))
    c good val flag text unix_code.
Proof.
  intros Hc Hbad Hdec w. unfold mbind, M_bind, kernel.
  destruct (script w) as [|a0 rest] eqn:Es; [exists w; auto|].
  set (a := normalise c a0). exists (logged w c a rest).
  split; [by eapply logged_extends|].
  destruct (bad a) eqn:Eb.
  - right. split; [by apply Hbad|]. split; [done|].
    destruct flag; [apply err_sys_reported|apply err_quit_reported].
  - left. split; [|done]. destruct (Hdec a) as [|Hn]; [done|].
    apply Hbad in Hn. unfold a in Eb. by rewrite Hn in Eb.
Qed.

Lemma wraps_ext {A} (m m' : M A) c good val flag text code :
  (forall w, m w = m' w) -> wraps m c good val flag text code -> wraps m' c good val flag text code.
Proof. intros He Hm w. specialize (Hm w). by rewrite He in Hm. Qed.

Lemma minus_one_bad c a : minus_one (normalise c a) = true <-> ~ succeeded (normalise c a).
Proof. unfold minus_one, succeeded. pose proof (normalise_ret c a). lia. Qed.
Lemma negative_bad c a : negative (normalise c a) = true <-> ~ succeeded (normalise c a).
Proof. unfold negative, succeeded. lia. Qed.
Lemma null_bad c a : null (normalise c a) = true <-> ~ succeeded (normalise c a).
Proof. unfold null, NULL, succeeded. pose proof (normalise_ret c a). lia. Qed.
Lemma not_all_bad n c a : not_all n (normalise c a) = true <-> ~ returned n (normalise c a).
Proof. unfold not_all, returned. lia. Qed.
Lemma succeeded_dec a : succeeded a \/ ~ succeeded a.
Proof. unfold succeeded. lia. Qed.
Lemma returned_dec n a : returned n a \/ ~ returned n a.
Proof. unfold returned. lia. Qed.
Create HintDb wrap.
#[export] Hint Resolve minus_one_bad negative_bad null_bad not_all_bad succeeded_dec returned_dec : wrap.

(** Proves [wraps] for a wrapper whose body is a call and a test [bad]. *)
Ltac head_of t := lazymatch t with ?f _ => head_of f | _ => t end.
Ltac wrapper bad :=
  intros; eapply wraps_ext; cycle 1;
  [ eapply (wraps_test _ bad); [reflexivity | eauto with wrap | eauto with wrap]
  | let w := fresh "w" in intros w;
    match goal with |- _ = ?t => let h := head_of t in unfold h end;
    unfold mbind, M_bind, check_sys, check_quit;
    destruct (kernel _ w) as [[?|?] ?]; [|reflexivity];
    let Eb := fresh "Eb" in destruct (bad _) eqn:Eb; try reflexivity;
    rewrite ?err_sys_reported, ?err_quit_reported; reflexivity ].

Lemma wraps_pthread c text :
  is_output c = false ->
  wraps (a ← kernel c; pthread_check text a) c (returned 0) (fun _ => ()) true text pthread_code.
Proof.
  intros Hc w. unfold mbind, M_bind, kernel.
  destruct (script w) as [|a0 rest] eqn:Es; [exists w; auto|].
  set (a := normalise c a0). unfold pthread_check.
  destruct (a_ret a =? 0) eqn:E; zbool.
  - exists (logged w c a rest). split; [by eapply logged_extends|]. by left.
  - exists (World rest (trace w ++ [(c, a)]) (a_ret a) (daemon_proc w) (strerror w)).
    split; [apply (logged_extends w c a _ _ Hc Es)|].
    right. split; [unfold returned; lia|]. split; [done|].
    unfold mbind, M_bind. simpl. apply err_sys_reported.
Qed.

Lemma Calloc_wraps (n size : Z) :
  wraps (Calloc n size) (libc "calloc" [n; size] []) succeeded a_ret true (chars "calloc error") unix_code.
Proof. wrapper null. Qed.
Lemma Close_wraps (fd : Z) :
  wraps (Close fd) (CClose fd) succeeded (fun _ => ()) true (chars "close error") unix_code.
Proof. wrapper minus_one. Qed.
Lemma Dup2_wraps (fd1 fd2 : Z) :
  wraps (Dup2 fd1 fd2) (libc "dup2" [fd1; fd2] []) succeeded (fun _ => ()) true (chars "dup2 error") unix_code.
Proof. wrapper minus_one. Qed.
Lemma Fcntl_wraps (fd cmd arg : Z) :
  wraps (Fcntl fd cmd arg) (CFcntl fd cmd arg) succeeded a_ret true (chars "fcntl error") unix_code.
Proof. wrapper minus_one. Qed.
Lemma Gettimeofday_wraps :
  wraps Gettimeofday (CGettimeofday) succeeded id true (chars "gettimeofday error") unix_code.
Proof. wrapper minus_one. Qed.
Lemma Ioctl_wraps (fd request : Z) (arg : list Z) :
  wraps (Ioctl fd request arg) (libc "ioctl" [fd; request] arg) succeeded id true (chars "ioctl error") unix_code.
Proof. wrapper minus_one. Qed.
Lemma Fork_wraps :
  wraps Fork (CFork) succeeded a_ret true (chars "fork error") unix_code.
Proof. wrapper minus_one. Qed.
Lemma Malloc_wraps (size : Z) :
  wraps (Malloc size) (libc "malloc" [size] []) succeeded a_ret true (chars "malloc error") unix_code.
Proof. wrapper null. Qed.
Lemma Mkstemp_wraps (template : list Z) :
  wraps (Mkstemp template) (libc "mkstemp" [] template) succeeded id false (chars "mkstemp error") unix_code.
Proof. wrapper negative. Qed.
Lemma Mmap_wraps (addr len prot flags fd offset : Z) :
  wraps (Mmap addr len prot flags fd offset) (libc "mmap" [addr; len; prot; flags; fd; offset] []) succeeded a_ret true (chars "mmap error") unix_code.
Proof. wrapper minus_one. Qed.
Lemma Open_wraps (pathname : list Z) (oflag mode : Z) :
  wraps (Open pathname oflag mode) (libc "open" [oflag; mode] pathname) succeeded a_ret true (chars "open error for " ++ pathname) unix_code.
Proof. wrapper minus_one. Qed.
Lemma Pipe_wraps :
  wraps Pipe (libc "pipe" [] []) succeeded id true (chars "pipe error") unix_code.
Proof. wrapper negative. Qed.
Lemma Read_wraps (fd nbytes : Z) :
  wraps (Read fd nbytes) (CRead fd nbytes) succeeded id true (chars "read error") unix_code.
Proof. wrapper minus_one. Qed.
Lemma Sigaddset_wraps (set signo : Z) :
  wraps (Sigaddset set signo) (libc "sigaddset" [set; signo] []) succeeded (fun _ => ()) true (chars "sigaddset error") unix_code.
Proof. wrapper minus_one. Qed.
Lemma Sigdelset_wraps (set signo : Z) :
  wraps (Sigdelset set signo) (libc "sigdelset" [set; signo] []) succeeded (fun _ => ()) true (chars "sigdelset error") unix_code.
Proof. wrapper minus_one. Qed.
Lemma Sigemptyset_wraps (set : Z) :
  wraps (Sigemptyset set) (libc "sigemptyset" [set] []) succeeded (fun _ => ()) true (chars "sigemptyset error") unix_code.
Proof. wrapper minus_one. Qed.
Lemma Sigfillset_wraps (set : Z) :
  wraps (Sigfillset set) (libc "sigfillset" [set] []) succeeded (fun _ => ()) true (chars "sigfillset error") unix_code.
Proof. wrapper minus_one. Qed.
Lemma Sigismember_wraps (set signo : Z) :
  wraps (Sigismember set signo) (libc "sigismember" [set; signo] []) succeeded a_ret true (chars "sigismember error") unix_code.
Proof. wrapper minus_one. Qed.
Lemma Sigpending_wraps (set : Z) :
  wraps (Sigpending set) (libc "sigpending" [set] []) succeeded (fun _ => ()) true (chars "sigpending error") unix_code.
Proof. wrapper minus_one. Qed.
Lemma Sigprocmask_wraps (how set oset : Z) :
  wraps (Sigprocmask how set oset) (libc "sigprocmask" [how; set; oset] []) succeeded (fun _ => ()) true (chars "sigprocmask error") unix_code.
Proof. wrapper minus_one. Qed.
Lemma Strdup_wraps (str : list Z) :
  wraps (Strdup str) (libc "strdup" [] str) succeeded a_ret true (chars "strdup error") unix_code.
Proof. wrapper null. Qed.
Lemma Sysctl_wraps (name newp : list Z) :
  wraps (Sysctl name newp) (libc "sysctl" name newp) succeeded id true (chars "sysctl error") unix_code.
Proof. wrapper minus_one. Qed.
Lemma Unlink_wraps (pathname : list Z) :
  wraps (Unlink pathname) (libc "unlink" [] pathname) succeeded (fun _ => ()) true (chars "unlink error for " ++ pathname) unix_code.
Proof. wrapper minus_one. Qed.
Lemma Wait_wraps :
  wraps Wait (CWaitpid (-1) 0) succeeded id true (chars "wait error") unix_code.
Proof. wrapper minus_one. Qed.
Lemma Waitpid_wraps (pid options : Z) :
  wraps (Waitpid pid options) (CWaitpid pid options) succeeded id true (chars "waitpid error") unix_code.
Proof. wrapper minus_one. Qed.
Lemma Write_wraps (fd : Z) (ptr : list Z) :
  wraps (Write fd ptr) (CWrite fd ptr) (returned (Z.of_nat (length ptr))) (fun _ => ()) true (chars "write error") unix_code.
Proof. wrapper (not_all (Z.of_nat (length ptr))). Qed.
Lemma Fclose_wraps (fp : Z) :
  wraps (Fclose fp) (libc "fclose" [fp] []) (returned 0) (fun _ => ()) true (chars "fclose error") unix_code.
Proof. wrapper (not_all 0). Qed.
Lemma Fdopen_wraps (fd : Z) (type : list Z) :
  wraps (Fdopen fd type) (libc "fdopen" [fd] type) succeeded a_ret true (chars "fdopen error") unix_code.
Proof. wrapper null. Qed.
Lemma Fopen_wraps (filename mode : list Z) :
  wraps (Fopen filename mode) (libc "fopen" mode filename) succeeded a_ret true (chars "fopen error") unix_code.
Proof. wrapper null. Qed.
Lemma Fputs_wraps (ptr : list Z) :
  wraps (Fputs ptr) (CFputs ptr) succeeded (fun _ => ()) true (chars "fputs error") unix_code.
Proof. wrapper minus_one. Qed.
Lemma Bind_wraps (fd : Z) (sa : list Z) :
  wraps (Bind fd sa) (CBind fd sa) succeeded (fun _ => ()) true (chars "bind error") unix_code.
Proof. wrapper negative. Qed.
Lemma Connect_wraps (fd : Z) (sa : list Z) :
  wraps (Connect fd sa) (CConnect fd sa) succeeded (fun _ => ()) true (chars "connect error") unix_code.
Proof. wrapper negative. Qed.
Lemma Getpeername_wraps (fd : Z) :
  wraps (Getpeername fd) (libc "getpeername" [fd] []) succeeded id true (chars "getpeername error") unix_code.
Proof. wrapper negative. Qed.
Lemma Getsockname_wraps (fd : Z) :
  wraps (Getsockname fd) (libc "getsockname" [fd] []) succeeded id true (chars "getsockname error") unix_code.
Proof. wrapper negative. Qed.
Lemma Getsockopt_wraps (fd level optname : Z) :
  wraps (Getsockopt fd level optname) (CGetsockopt fd level optname) succeeded id true (chars "getsockopt error") unix_code.
Proof. wrapper negative. Qed.
Lemma Inet6_rth_space_wraps (type segments : Z) :
  wraps (Inet6_rth_space type segments) (libc "inet6_rth_space" [type; segments] []) succeeded a_ret false (chars "inet6_rth_space error") unix_code.
Proof. wrapper negative. Qed.
Lemma Inet6_rth_init_wraps (rthlen type segments : Z) :
  wraps (Inet6_rth_init rthlen type segments) (libc "inet6_rth_init" [rthlen; type; segments] []) succeeded a_ret false (chars "inet6_rth_init error") unix_code.
Proof. wrapper null. Qed.
Lemma Inet6_rth_add_wraps (rthbuf addr : list Z) :
  wraps (Inet6_rth_add rthbuf addr) (libc "inet6_rth_add" rthbuf addr) succeeded (fun _ => ()) false (chars "inet6_rth_add error") unix_code.
Proof. wrapper negative. Qed.
Lemma Inet6_rth_reverse_wraps (inp : list Z) :
  wraps (Inet6_rth_reverse inp) (libc "inet6_rth_reverse" [] inp) succeeded (fun _ => ()) false (chars "inet6_rth_reverse error") unix_code.
Proof. wrapper negative. Qed.
Lemma Inet6_rth_segments_wraps (rthbuf : list Z) :
  wraps (Inet6_rth_segments rthbuf) (libc "inet6_rth_segments" [] rthbuf) succeeded a_ret false (chars "inet6_rth_segments error") unix_code.
Proof. wrapper negative. Qed.
Lemma Inet6_rth_getaddr_wraps (rthbuf : list Z) (idx : Z) :
  wraps (Inet6_rth_getaddr rthbuf idx) (libc "inet6_rth_getaddr" [idx] rthbuf) succeeded a_ret false (chars "inet6_rth_getaddr error") unix_code.
Proof. wrapper null. Qed.
Lemma Poll_wraps (fdarray : list (Z * Z)) (timeout : Z) :
  wraps (Poll fdarray timeout) (CPoll fdarray timeout) succeeded id true (chars "poll error") unix_code.
Proof. wrapper negative. Qed.
Lemma Recv_wraps (fd nbytes flags : Z) :
  wraps (Recv fd nbytes flags) (CRecvfrom fd nbytes flags) succeeded id true (chars "recv error") unix_code.
Proof. wrapper negative. Qed.
Lemma Recvfrom_wraps (fd nbytes flags : Z) :
  wraps (Recvfrom fd nbytes flags) (CRecvfrom fd nbytes flags) succeeded id true (chars "recvfrom error") unix_code.
Proof. wrapper negative. Qed.
Lemma Recvmsg_wraps (fd flags : Z) :
  wraps (Recvmsg fd flags) (libc "recvmsg" [fd; flags] []) succeeded id true (chars "recvmsg error") unix_code.
Proof. wrapper negative. Qed.
Lemma Select_wraps (nfds : Z) (readfds writefds : gset Z) (timeout : option Z) :
  wraps (Select nfds readfds writefds timeout) (CSelect nfds readfds writefds timeout) succeeded id true (chars "select error") unix_code.
Proof. wrapper negative. Qed.
Lemma Send_wraps (fd : Z) (ptr : list Z) :
  wraps (Send fd ptr) (CSendto fd ptr []) (returned (Z.of_nat (length ptr))) (fun _ => ()) true (chars "send error") unix_code.
Proof. wrapper (not_all (Z.of_nat (length ptr))). Qed.
Lemma Sendto_wraps (fd : Z) (ptr sa : list Z) :
  wraps (Sendto fd ptr sa) (CSendto fd ptr sa) (returned (Z.of_nat (length ptr))) (fun _ => ()) true (chars "sendto error") unix_code.
Proof. wrapper (not_all (Z.of_nat (length ptr))). Qed.
Lemma Setsockopt_wraps (fd level optname : Z) (optval : list Z) :
  wraps (Setsockopt fd level optname optval) (CSetsockopt fd level optname optval) succeeded (fun _ => ()) true (chars "setsockopt error") unix_code.
Proof. wrapper negative. Qed.
Lemma Shutdown_wraps (fd how : Z) :
  wraps (Shutdown fd how) (CShutdown fd how) succeeded (fun _ => ()) true (chars "shutdown error") unix_code.
Proof. wrapper negative. Qed.
Lemma Sockatmark_wraps (fd : Z) :
  wraps (Sockatmark fd) (libc "sockatmark" [fd] []) succeeded a_ret true (chars "sockatmark error") unix_code.
Proof. wrapper negative. Qed.
Lemma Socket_wraps (family type protocol : Z) :
  wraps (Socket family type protocol) (CSocket family type protocol) succeeded a_ret true (chars "socket error") unix_code.
Proof. wrapper negative. Qed.
Lemma Socketpair_wraps (family type protocol : Z) :
  wraps (Socketpair family type protocol) (libc "socketpair" [family; type; protocol] []) succeeded id true (chars "socketpair error") unix_code.
Proof. wrapper negative. Qed.
Lemma Pthread_create_wraps (func arg : Z) :
  wraps (Pthread_create func arg) (libc "pthread_create" [func; arg] []) (returned 0) (fun _ => ()) true (chars "pthread_create error") pthread_code.
Proof. by apply wraps_pthread. Qed.
Lemma Pthread_join_wraps (tid : Z) :
  wraps (Pthread_join tid) (libc "pthread_join" [tid] []) (returned 0) (fun _ => ()) true (chars "pthread_join error") pthread_code.
Proof. by apply wraps_pthread. Qed.
Lemma Pthread_detach_wraps (tid : Z) :
  wraps (Pthread_detach tid) (libc "pthread_detach" [tid] []) (returned 0) (fun _ => ()) true (chars "pthread_detach error") pthread_code.
Proof. by apply wraps_pthread. Qed.
Lemma Pthread_kill_wraps (tid signo : Z) :
  wraps (Pthread_kill tid signo) (libc "pthread_kill" [tid; signo] []) (returned 0) (fun _ => ()) true (chars "pthread_kill error") pthread_code.
Proof. by apply wraps_pthread. Qed.
Lemma Pthread_mutexattr_init_wraps (attr : Z) :
  wraps (Pthread_mutexattr_init attr) (libc "pthread_mutexattr_init" [attr] []) (returned 0) (fun _ => ()) true (chars "pthread_mutexattr_init error") pthread_code.
Proof. by apply wraps_pthread. Qed.
Lemma Pthread_mutexattr_setpshared_wraps (attr flag : Z) :
  wraps (Pthread_mutexattr_setpshared attr flag) (libc "pthread_mutexattr_setpshared" [attr; flag] []) (returned 0) (fun _ => ()) true (chars "pthread_mutexattr_setpshared error") pthread_code.
Proof. by apply wraps_pthread. Qed.
Lemma Pthread_mutex_init_wraps (mptr attr : Z) :
  wraps (Pthread_mutex_init mptr attr) (libc "pthread_mutex_init" [mptr; attr] []) (returned 0) (fun _ => ()) true (chars "pthread_mutex_init error") pthread_code.
Proof. by apply wraps_pthread. Qed.
Lemma Pthread_mutex_lock_wraps (mptr : Z) :
  wraps (Pthread_mutex_lock mptr) (libc "pthread_mutex_lock" [mptr] []) (returned 0) (fun _ => ()) true (chars "pthread_mutex_lock error") pthread_code.
Proof. by apply wraps_pthread. Qed.
Lemma Pthread_mutex_unlock_wraps (mptr : Z) :
  wraps (Pthread_mutex_unlock mptr) (libc "pthread_mutex_unlock" [mptr] []) (returned 0) (fun _ => ()) true (chars "pthread_mutex_unlock error") pthread_code.
Proof. by apply wraps_pthread. Qed.
Lemma Pthread_cond_broadcast_wraps (cptr : Z) :
  wraps (Pthread_cond_broadcast cptr) (libc "pthread_cond_broadcast" [cptr] []) (returned 0) (fun _ => ()) true (chars "pthread_cond_broadcast error") pthread_code.
Proof. by apply wraps_pthread. Qed.
Lemma Pthread_cond_signal_wraps (cptr : Z) :
  wraps (Pthread_cond_signal cptr) (libc "pthread_cond_signal" [cptr] []) (returned 0) (fun _ => ()) true (chars "pthread_cond_signal error") pthread_code.
Proof. by apply wraps_pthread. Qed.
Lemma Pthread_cond_wait_wraps (cptr mptr : Z) :
  wraps (Pthread_cond_wait cptr mptr) (libc "pthread_cond_wait" [cptr; mptr] []) (returned 0) (fun _ => ()) true (chars "pthread_cond_wait error") pthread_code.
Proof. by apply wraps_pthread. Qed.
Lemma Pthread_cond_timedwait_wraps (cptr mptr tsptr : Z) :
  wraps (Pthread_cond_timedwait cptr mptr tsptr) (libc "pthread_cond_timedwait" [cptr; mptr; tsptr] []) (returned 0) (fun _ => ()) true (chars "pthread_cond_timedwait error") pthread_code.
Proof. by apply wraps_pthread. Qed.
Lemma Pthread_once_wraps (ptr func : Z) :
  wraps (Pthread_once ptr func) (libc "pthread_once" [ptr; func] []) (returned 0) (fun _ => ()) true (chars "pthread_once error") pthread_code.
Proof. by apply wraps_pthread. Qed.
Lemma Pthread_key_create_wraps (func : Z) :
  wraps (Pthread_key_create func) (libc "pthread_key_create" [func] []) (returned 0) (fun _ => ()) true (chars "pthread_key_create error") pthread_code.
Proof. by apply wraps_pthread. Qed.
Lemma Pthread_setspecific_wraps (key value : Z) :
  wraps (Pthread_setspecific key value) (libc "pthread_setspecific" [key; value] []) (returned 0) (fun _ => ()) true (chars "pthread_setspecific error") pthread_code.
Proof. by apply wraps_pthread. Qed.

Lemma Fgets_wraps (n : Z) :
  wraps (Fgets n) (CFgets n) succeeded
    (fun a => if a_ret a =? 0 then None else Some (a_data a)) true (chars "fgets error") unix_code.
Proof. wrapper negative. Qed.

Lemma foldl_length (l : list (list Z)) n :
  foldl (fun n b => n + Z.of_nat (length b)) n l = n + Z.of_nat (length (concat l)).
Proof.
  revert n. induction l as [|b l IH]; intros n; cbn [foldl concat]; [simpl; lia|].
  rewrite IH, length_app. lia.
Qed.

Lemma Sendmsg_wraps (fd : Z) (name : list Z) (iov : list (list Z)) (flags : Z) :
  wraps (Sendmsg fd name iov flags) (libc "sendmsg" (fd :: flags :: name) (concat iov))
    (returned (Z.of_nat (length (concat iov)))) (fun _ => ()) true (chars "sendmsg error") unix_code.
Proof.
  eapply wraps_ext; cycle 1.
  - eapply (wraps_test _ (not_all (Z.of_nat (length (concat iov)))));
      [reflexivity|eauto with wrap|eauto with wrap].
  - intros w. unfold Sendmsg. rewrite foldl_length, Z.add_0_l.
    unfold mbind, M_bind, check_sys. destruct (kernel _ w) as [[a|h] w']; [|reflexivity].
    destruct (not_all _ a); [|reflexivity].
    unfold reported. rewrite !err_sys_reported. reflexivity.
Qed.

Lemma Inet_pton_spec family s w :
  match inet_pton family s with
  | (1, Some d, _) => Inet_pton family s w = (Ret d, w)
  | (n, _, Some e) => n = -1 /\ e = EAFNOSUPPORT /\
      fst (Inet_pton family s w) = Halt (Exited 1)
  | (n, _, _) => n = 0 /\ Inet_pton family s w =
      (Halt (Exited 1), reported false (chars "inet_pton error for " ++ s) w)
  end.
Proof.
  unfold Inet_pton. set (text := chars "inet_pton error for " ++ s).
  unfold inet_pton.
  destruct (family =? AF_INET); [|destruct (family =? AF_INET6)].
  - destruct (inet_pton4 s); [..|reflexivity];
      (split; [reflexivity|exact (err_quit_reported text w)]).
  - destruct (inet_pton6 s); [..|reflexivity];
      (split; [reflexivity|exact (err_quit_reported text w)]).
  - split; [reflexivity|]. split; [reflexivity|].
    exact (f_equal fst (err_sys_reported text (snd (set_errno EAFNOSUPPORT w)))).
Qed.

Lemma Inet_ntop_spec family addr len w :
  match inet_ntop family addr len with
  | NtOk s => Inet_ntop family addr false len w = (Ret s, w)
  | NtNull e => fst (Inet_ntop family addr false len w) = Halt (Exited 1)
  end.
Proof.
  unfold Inet_ntop. destruct (inet_ntop family addr len) as [e|s]; [|reflexivity].
  exact (f_equal fst (err_sys_reported (chars "inet_ntop error") (snd (set_errno e w)))).
Qed.

Lemma Listen_step fd backlog :
  wraps (a ← kernel (CListen fd backlog); check_sys negative (chars "listen error") a ;; mret ())
    (CListen fd backlog) succeeded (fun _ => ()) true (chars "listen error") unix_code.
Proof.
  eapply wraps_ext; cycle 1.
  - eapply (wraps_test _ negative); [reflexivity|eauto with wrap|eauto with wrap].
  - intros w. unfold mbind, M_bind, check_sys.
    destruct (kernel _ w) as [[a|h] w']; [|reflexivity].
    destruct (negative a); [|reflexivity]. rewrite !err_sys_reported. reflexivity.
Qed.

(** ** Rules for the wrappers with more than one call *)

(** A connection that was aborted before [accept] returned. *)
Definition aborted (fd : Z) (e : event) : Prop :=
  fst e = CAccept fd /\ a_ret (snd e) = -1 /\
  (a_err (snd e) = EPROTO \/ a_err (snd e) = ECONNABORTED).

Lemma normalise_accept fd a :
  let r := normalise (CAccept fd) a in (a_ret r < 0 -> a_ret r = -1) /\ (a_ret r < 0 \/ 0 <= a_ret r).
Proof. unfold normalise. destruct (a_ret a <? 0) eqn:E; simpl; lia. Qed.

Lemma wp_Accept fd (Q : answer -> world -> Prop) (H : halt -> world -> Prop) w :
  (forall w' evs, extends w w' evs -> Forall (aborted fd) evs -> H Blocked w') ->
  (forall a w' evs, extends w w' (evs ++ [(CAccept fd, a)]) -> Forall (aborted fd) evs ->
     0 <= a_ret a -> Q a w') ->
  (forall a w' evs rep, extends w w' ((evs ++ [(CAccept fd, a)]) ++ rep) ->
     Forall (aborted fd) evs -> a_ret a = -1 -> ~ aborted fd (CAccept fd, a) ->
     only is_report rep -> H (Exited 1) w') ->
  wp (Accept fd) Q H w.
Proof.
  intros HB HQ HE. unfold Accept.
  apply (wp_loop_evs _ (fun _ evs => Forall (aborted fd) evs)); [constructor|].
  intros [] evs w1 Hf He. unfold Accept_body. apply wp_bind, wp_call; [done|by eapply HB|].
  intros a w2 He2 Herr _. destruct (normalise_accept fd a) as [Hm1 _].
  set (x := normalise (CAccept fd) a) in *.
  destruct (a_ret x <? 0) eqn:Er; zbool.
  - apply wp_bind, wp_get_errno. rewrite (Herr Er).
    destruct (_ || _) eqn:Ee.
    + apply wp_ret. exists [(CAccept fd, x)]. split; [done|]. split; [simpl; lia|].
      apply Forall_app; split; [done|]. constructor; [|constructor].
      split_and!; simpl; [done|auto|]. apply orb_true_iff in Ee as [?|?]; zbool; auto.
    + zbool. apply (wp_fatal true). intros w3 rep Hrep Hor.
      apply (HE x w3 evs rep); try done; [|by auto|].
      * eapply extends_trans; [|exact Hrep]. by eapply extends_trans.
      * intros (_ & _ & Ha). simpl in Ha. lia.
  - apply wp_ret. apply (HQ _ _ evs); [by eapply extends_trans|done|done].
Qed.

(** the socket, thread and library wrappers: each makes its one call with
    its own arguments and returns the result exactly when the call succeeded
    (for [send], [sendto] and [sendmsg]: transferred every byte); otherwise
    it reports its own message with the error of that call (for the pthread
    functions the returned error number) and exits with status 1.  [Accept]
    retries exactly on EPROTO and ECONNABORTED; [Listen] takes its backlog
    from the environment when LISTENQ is set; [Inet_pton] reports a malformed
    address without an error number and an unknown family with EAFNOSUPPORT. *)
Definition sock_wrappers : Prop :=
  (forall (fd : Z) (sa : list Z) , wraps (Bind fd sa) (CBind fd sa) succeeded (fun _ => ()) true (chars "bind error") unix_code) /\
  (forall (fd : Z) (sa : list Z) , wraps (Connect fd sa) (CConnect fd sa) succeeded (fun _ => ()) true (chars "connect error") unix_code) /\
  (forall (fd : Z) , wraps (Getpeername fd) (libc "getpeername" [fd] []) succeeded id true (chars "getpeername error") unix_code) /\
  (forall (fd : Z) , wraps (Getsockname fd) (libc "getsockname" [fd] []) succeeded id true (chars "getsockname error") unix_code) /\
  (forall (fd level optname : Z) , wraps (Getsockopt fd level optname) (CGetsockopt fd level optname) succeeded id true (chars "getsockopt error") unix_code) /\
  (forall (type segments : Z) , wraps (Inet6_rth_space type segments) (libc "inet6_rth_space" [type; segments] []) succeeded a_ret false (chars "inet6_rth_space error") unix_code) /\
  (forall (rthlen type segments : Z) , wraps (Inet6_rth_init rthlen type segments) (libc "inet6_rth_init" [rthlen; type; segments] []) succeeded a_ret false (chars "inet6_rth_init error") unix_code) /\
  (forall (rthbuf addr : list Z) , wraps (Inet6_rth_add rthbuf addr) (libc "inet6_rth_add" rthbuf addr) succeeded (fun _ => ()) false (chars "inet6_rth_add error") unix_code) /\
  (forall (inp : list Z) , wraps (Inet6_rth_reverse inp) (libc "inet6_rth_reverse" [] inp) succeeded (fun _ => ()) false (chars "inet6_rth_reverse error") unix_code) /\
  (forall (rthbuf : list Z) , wraps (Inet6_rth_segments rthbuf) (libc "inet6_rth_segments" [] rthbuf) succeeded a_ret false (chars "inet6_rth_segments error") unix_code) /\
  (forall (rthbuf : list Z) (idx : Z) , wraps (Inet6_rth_getaddr rthbuf idx) (libc "inet6_rth_getaddr" [idx] rthbuf) succeeded a_ret false (chars "inet6_rth_getaddr error") unix_code) /\
  (forall (fdarray : list (Z * Z)) (timeout : Z) , wraps (Poll fdarray timeout) (CPoll fdarray timeout) succeeded id true (chars "poll error") unix_code) /\
  (forall (fd nbytes flags : Z) , wraps (Recv fd nbytes flags) (CRecvfrom fd nbytes flags) succeeded id true (chars "recv error") unix_code) /\
  (forall (fd nbytes flags : Z) , wraps (Recvfrom fd nbytes flags) (CRecvfrom fd nbytes flags) succeeded id true (chars "recvfrom error") unix_code) /\
  (forall (fd flags : Z) , wraps (Recvmsg fd flags) (libc "recvmsg" [fd; flags] []) succeeded id true (chars "recvmsg error") unix_code) /\
  (forall (nfds : Z) (readfds writefds : gset Z) (timeout : option Z) , wraps (Select nfds readfds writefds timeout) (CSelect nfds readfds writefds timeout) succeeded id true (chars "select error") unix_code) /\
  (forall (fd : Z) (ptr : list Z) , wraps (Send fd ptr) (CSendto fd ptr []) (returned (Z.of_nat (length ptr))) (fun _ => ()) true (chars "send error") unix_code) /\
  (forall (fd : Z) (ptr sa : list Z) , wraps (Sendto fd ptr sa) (CSendto fd ptr sa) (returned (Z.of_nat (length ptr))) (fun _ => ()) true (chars "sendto error") unix_code) /\
  (forall (fd level optname : Z) (optval : list Z) , wraps (Setsockopt fd level optname optval) (CSetsockopt fd level optname optval) succeeded (fun _ => ()) true (chars "setsockopt error") unix_code) /\
  (forall (fd how : Z) , wraps (Shutdown fd how) (CShutdown fd how) succeeded (fun _ => ()) true (chars "shutdown error") unix_code) /\
  (forall (fd : Z) , wraps (Sockatmark fd) (libc "sockatmark" [fd] []) succeeded a_ret true (chars "sockatmark error") unix_code) /\
  (forall (family type protocol : Z) , wraps (Socket family type protocol) (CSocket family type protocol) succeeded a_ret true (chars "socket error") unix_code) /\
  (forall (family type protocol : Z) , wraps (Socketpair family type protocol) (libc "socketpair" [family; type; protocol] []) succeeded id true (chars "socketpair error") unix_code) /\
  (forall (func arg : Z) , wraps (Pthread_create func arg) (libc "pthread_create" [func; arg] []) (returned 0) (fun _ => ()) true (chars "pthread_create error") pthread_code) /\
  (forall (tid : Z) , wraps (Pthread_join tid) (libc "pthread_join" [tid] []) (returned 0) (fun _ => ()) true (chars "pthread_join error") pthread_code) /\
  (forall (tid : Z) , wraps (Pthread_detach tid) (libc "pthread_detach" [tid] []) (returned 0) (fun _ => ()) true (chars "pthread_detach error") pthread_code) /\
  (forall (tid signo : Z) , wraps (Pthread_kill tid signo) (libc "pthread_kill" [tid; signo] []) (returned 0) (fun _ => ()) true (chars "pthread_kill error") pthread_code) /\
  (forall (attr : Z) , wraps (Pthread_mutexattr_init attr) (libc "pthread_mutexattr_init" [attr] []) (returned 0) (fun _ => ()) true (chars "pthread_mutexattr_init error") pthread_code) /\
  (forall (attr flag : Z) , wraps (Pthread_mutexattr_setpshared attr flag) (libc "pthread_mutexattr_setpshared" [attr; flag] []) (returned 0) (fun _ => ()) true (chars "pthread_mutexattr_setpshared error") pthread_code) /\
  (forall (mptr attr : Z) , wraps (Pthread_mutex_init mptr attr) (libc "pthread_mutex_init" [mptr; attr] []) (returned 0) (fun _ => ()) true (chars "pthread_mutex_init error") pthread_code) /\
  (forall (mptr : Z) , wraps (Pthread_mutex_lock mptr) (libc "pthread_mutex_lock" [mptr] []) (returned 0) (fun _ => ()) true (chars "pthread_mutex_lock error") pthread_code) /\
  (forall (mptr : Z) , wraps (Pthread_mutex_unlock mptr) (libc "pthread_mutex_unlock" [mptr] []) (returned 0) (fun _ => ()) true (chars "pthread_mutex_unlock error") pthread_code) /\
  (forall (cptr : Z) , wraps (Pthread_cond_broadcast cptr) (libc "pthread_cond_broadcast" [cptr] []) (returned 0) (fun _ => ()) true (chars "pthread_cond_broadcast error") pthread_code) /\
  (forall (cptr : Z) , wraps (Pthread_cond_signal cptr) (libc "pthread_cond_signal" [cptr] []) (returned 0) (fun _ => ()) true (chars "pthread_cond_signal error") pthread_code) /\
  (forall (cptr mptr : Z) , wraps (Pthread_cond_wait cptr mptr) (libc "pthread_cond_wait" [cptr; mptr] []) (returned 0) (fun _ => ()) true (chars "pthread_cond_wait error") pthread_code) /\
  (forall (cptr mptr tsptr : Z) , wraps (Pthread_cond_timedwait cptr mptr tsptr) (libc "pthread_cond_timedwait" [cptr; mptr; tsptr] []) (returned 0) (fun _ => ()) true (chars "pthread_cond_timedwait error") pthread_code) /\
  (forall (ptr func : Z) , wraps (Pthread_once ptr func) (libc "pthread_once" [ptr; func] []) (returned 0) (fun _ => ()) true (chars "pthread_once error") pthread_code) /\
  (forall (func : Z) , wraps (Pthread_key_create func) (libc "pthread_key_create" [func] []) (returned 0) (fun _ => ()) true (chars "pthread_key_create error") pthread_code) /\
  (forall (key value : Z) , wraps (Pthread_setspecific key value) (libc "pthread_setspecific" [key; value] []) (returned 0) (fun _ => ()) true (chars "pthread_setspecific error") pthread_code) /\
  (forall (fd : Z) (name : list Z) (iov : list (list Z)) (flags : Z),
     wraps (Sendmsg fd name iov flags) (libc "sendmsg" (fd :: flags :: name) (concat iov))
       (returned (Z.of_nat (length (concat iov)))) (fun _ => ()) true (chars "sendmsg error") unix_code) /\
  (forall fd w,
     match Accept fd w with
     | (Ret a, w') => 0 <= a_ret a /\
         exists evs, extends w w' (evs ++ [(CAccept fd, a)]) /\ Forall (aborted fd) evs
     | (Halt h, w') =>
         (h = Blocked /\ exists evs, extends w w' evs /\ Forall (aborted fd) evs) \/
         (h = Exited 1 /\ exists evs a rep, extends w w' ((evs ++ [(CAccept fd, a)]) ++ rep) /\
            Forall (aborted fd) evs /\ a_ret a = -1 /\ ~ aborted fd (CAccept fd, a) /\
            only is_report rep)
     end) /\
  (forall fd backlog w,
     match script w with
     | [] => Listen fd backlog w = (Halt Blocked, w)
     | env :: _ =>
         let ptr := normalise (libc "getenv" [] (chars "LISTENQ")) env in
         let backlog' := if a_ret ptr =? NULL then backlog else atoi (c_string (a_data ptr)) in
         exists w1, extends w w1 [(libc "getenv" [] (chars "LISTENQ"), ptr)] /\
           exists m, Listen fd backlog w = m w1 /\
             wraps m (CListen fd backlog') succeeded (fun _ => ()) true (chars "listen error") unix_code
     end) /\
  (forall family s w,
     match inet_pton family s with
     | (1, Some d, _) => Inet_pton family s w = (Ret d, w)
     | (n, _, Some e) => n = -1 /\ e = EAFNOSUPPORT /\
         fst (Inet_pton family s w) = Halt (Exited 1)
     | (n, _, _) => n = 0 /\ Inet_pton family s w =
         (Halt (Exited 1), reported false (chars "inet_pton error for " ++ s) w)
     end) /\
  (forall family addr len w,
     match inet_ntop family addr len with
     | NtOk s => Inet_ntop family addr false len w = (Ret s, w)
     | NtNull e => fst (Inet_ntop family addr false len w) = Halt (Exited 1)
     end).

Lemma sock_wrappers_hold : sock_wrappers.
Proof.
  unfold sock_wrappers.
  refine (conj Bind_wraps (conj Connect_wraps (conj Getpeername_wraps (conj Getsockname_wraps (conj
    Getsockopt_wraps (conj Inet6_rth_space_wraps (conj Inet6_rth_init_wraps (conj
    Inet6_rth_add_wraps (conj Inet6_rth_reverse_wraps (conj Inet6_rth_segments_wraps (conj
    Inet6_rth_getaddr_wraps (conj Poll_wraps (conj Recv_wraps (conj Recvfrom_wraps (conj
    Recvmsg_wraps (conj Select_wraps (conj Send_wraps (conj Sendto_wraps (conj
    Setsockopt_wraps (conj Shutdown_wraps (conj Sockatmark_wraps (conj Socket_wraps (conj
    Socketpair_wraps (conj Pthread_create_wraps (conj Pthread_join_wraps (conj
    Pthread_detach_wraps (conj Pthread_kill_wraps (conj Pthread_mutexattr_init_wraps (conj
    Pthread_mutexattr_setpshared_wraps (conj Pthread_mutex_init_wraps (conj
    Pthread_mutex_lock_wraps (conj Pthread_mutex_unlock_wraps (conj
    Pthread_cond_broadcast_wraps (conj Pthread_cond_signal_wraps (conj Pthread_cond_wait_wraps
    (conj Pthread_cond_timedwait_wraps (conj Pthread_once_wraps (conj Pthread_key_create_wraps
    (conj Pthread_setspecific_wraps (conj Sendmsg_wraps ?[rest])))))))))))))))))))))))))))))))))))))))).
  split_and!.
  - intros fd w.
    assert (wp (Accept fd) (fun a w' => 0 <= a_ret a /\
         exists evs, extends w w' (evs ++ [(CAccept fd, a)]) /\ Forall (aborted fd) evs)
       (fun h w' => (h = Blocked /\ exists evs, extends w w' evs /\ Forall (aborted fd) evs) \/
         (h = Exited 1 /\ exists evs a rep, extends w w' ((evs ++ [(CAccept fd, a)]) ++ rep) /\
            Forall (aborted fd) evs /\ a_ret a = -1 /\ ~ aborted fd (CAccept fd, a) /\
            only is_report rep)) w) as Hwp.
    { apply wp_Accept; eauto 12. }
    unfold wp in Hwp. by destruct (Accept fd w) as [[a|h] w'].
  - intros fd backlog w. destruct (script w) as [|env rest] eqn:Hs; cbv zeta.
    { unfold Listen, mbind at 1, M_bind, kernel at 1. by rewrite Hs. }
    exists (logged w (libc "getenv" [] (chars "LISTENQ"))
              (normalise (libc "getenv" [] (chars "LISTENQ")) env) rest).
    split; [by eapply logged_extends|].
    eexists. split; [unfold Listen, mbind at 1, M_bind, kernel at 1; rewrite Hs; reflexivity|].
    unfold null. apply (Listen_step fd).
  - intros family s w. apply Inet_pton_spec.
  - intros family addr len w. apply Inet_ntop_spec.
Qed.

(** the Unix and standard-I/O wrappers, in the same sense: [Write] and
    [Fclose] compare with the exact result wanted, [Fgets] reports an error
    only when the error flag is set and returns [None] at end of file,
    [Mkstemp] reports without an error number, [Sysconf] clears [errno] first
    so that it never reports a stale one. *)
Definition unix_wrappers : Prop :=
  (forall (n size : Z) , wraps (Calloc n size) (libc "calloc" [n; size] []) succeeded a_ret true (chars "calloc error") unix_code) /\
  (forall (fd : Z) , wraps (Close fd) (CClose fd) succeeded (fun _ => ()) true (chars "close error") unix_code) /\
  (forall (fd1 fd2 : Z) , wraps (Dup2 fd1 fd2) (libc "dup2" [fd1; fd2] []) succeeded (fun _ => ()) true (chars "dup2 error") unix_code) /\
  (forall (fd cmd arg : Z) , wraps (Fcntl fd cmd arg) (CFcntl fd cmd arg) succeeded a_ret true (chars "fcntl error") unix_code) /\
  (wraps Gettimeofday (CGettimeofday) succeeded id true (chars "gettimeofday error") unix_code) /\
  (forall (fd request : Z) (arg : list Z) , wraps (Ioctl fd request arg) (libc "ioctl" [fd; request] arg) succeeded id true (chars "ioctl error") unix_code) /\
  (wraps Fork (CFork) succeeded a_ret true (chars "fork error") unix_code) /\
  (forall (size : Z) , wraps (Malloc size) (libc "malloc" [size] []) succeeded a_ret true (chars "malloc error") unix_code) /\
  (forall (template : list Z) , wraps (Mkstemp template) (libc "mkstemp" [] template) succeeded id false (chars "mkstemp error") unix_code) /\
  (forall (addr len prot flags fd offset : Z) , wraps (Mmap addr len prot flags fd offset) (libc "mmap" [addr; len; prot; flags; fd; offset] []) succeeded a_ret true (chars "mmap error") unix_code) /\
  (forall (pathname : list Z) (oflag mode : Z) , wraps (Open pathname oflag mode) (libc "open" [oflag; mode] pathname) succeeded a_ret true (chars "open error for " ++ pathname) unix_code) /\
  (wraps Pipe (libc "pipe" [] []) succeeded id true (chars "pipe error") unix_code) /\
  (forall (fd nbytes : Z) , wraps (Read fd nbytes) (CRead fd nbytes) succeeded id true (chars "read error") unix_code) /\
  (forall (set signo : Z) , wraps (Sigaddset set signo) (libc "sigaddset" [set; signo] []) succeeded (fun _ => ()) true (chars "sigaddset error") unix_code) /\
  (forall (set signo : Z) , wraps (Sigdelset set signo) (libc "sigdelset" [set; signo] []) succeeded (fun _ => ()) true (chars "sigdelset error") unix_code) /\
  (forall (set : Z) , wraps (Sigemptyset set) (libc "sigemptyset" [set] []) succeeded (fun _ => ()) true (chars "sigemptyset error") unix_code) /\
  (forall (set : Z) , wraps (Sigfillset set) (libc "sigfillset" [set] []) succeeded (fun _ => ()) true (chars "sigfillset error") unix_code) /\
  (forall (set signo : Z) , wraps (Sigismember set signo) (libc "sigismember" [set; signo] []) succeeded a_ret true (chars "sigismember error") unix_code) /\
  (forall (set : Z) , wraps (Sigpending set) (libc "sigpending" [set] []) succeeded (fun _ => ()) true (chars "sigpending error") unix_code) /\
  (forall (how set oset : Z) , wraps (Sigprocmask how set oset) (libc "sigprocmask" [how; set; oset] []) succeeded (fun _ => ()) true (chars "sigprocmask error") unix_code) /\
  (forall (str : list Z) , wraps (Strdup str) (libc "strdup" [] str) succeeded a_ret true (chars "strdup error") unix_code) /\
  (forall (name newp : list Z) , wraps (Sysctl name newp) (libc "sysctl" name newp) succeeded id true (chars "sysctl error") unix_code) /\
  (forall (pathname : list Z) , wraps (Unlink pathname) (libc "unlink" [] pathname) succeeded (fun _ => ()) true (chars "unlink error for " ++ pathname) unix_code) /\
  (wraps Wait (CWaitpid (-1) 0) succeeded id true (chars "wait error") unix_code) /\
  (forall (pid options : Z) , wraps (Waitpid pid options) (CWaitpid pid options) succeeded id true (chars "waitpid error") unix_code) /\
  (forall (fd : Z) (ptr : list Z) , wraps (Write fd ptr) (CWrite fd ptr) (returned (Z.of_nat (length ptr))) (fun _ => ()) true (chars "write error") unix_code) /\
  (forall (fp : Z) , wraps (Fclose fp) (libc "fclose" [fp] []) (returned 0) (fun _ => ()) true (chars "fclose error") unix_code) /\
  (forall (fd : Z) (type : list Z) , wraps (Fdopen fd type) (libc "fdopen" [fd] type) succeeded a_ret true (chars "fdopen error") unix_code) /\
  (forall (filename mode : list Z) , wraps (Fopen filename mode) (libc "fopen" mode filename) succeeded a_ret true (chars "fopen error") unix_code) /\
  (forall (ptr : list Z) , wraps (Fputs ptr) (CFputs ptr) succeeded (fun _ => ()) true (chars "fputs error") unix_code) /\
  (forall n, wraps (Fgets n) (CFgets n) succeeded
     (fun a => if a_ret a =? 0 then None else Some (a_data a)) true (chars "fgets error") unix_code) /\
  (forall name w, exists m, Sysconf name w = m (snd (set_errno 0 w)) /\
     wraps m (libc "sysconf" [name] []) succeeded a_ret true (chars "sysconf error") unix_code).

Lemma unix_wrappers_hold : unix_wrappers.
Proof.
  unfold unix_wrappers.
  refine (conj Calloc_wraps (conj Close_wraps (conj Dup2_wraps (conj Fcntl_wraps (conj
    Gettimeofday_wraps (conj Ioctl_wraps (conj Fork_wraps (conj Malloc_wraps (conj
    Mkstemp_wraps (conj Mmap_wraps (conj Open_wraps (conj Pipe_wraps (conj Read_wraps (conj
    Sigaddset_wraps (conj Sigdelset_wraps (conj Sigemptyset_wraps (conj Sigfillset_wraps (conj
    Sigismember_wraps (conj Sigpending_wraps (conj Sigprocmask_wraps (conj Strdup_wraps (conj
    Sysctl_wraps (conj Unlink_wraps (conj Wait_wraps (conj Waitpid_wraps (conj Write_wraps
    (conj Fclose_wraps (conj Fdopen_wraps (conj Fopen_wraps (conj Fputs_wraps (conj
    Fgets_wraps ?[rest]))))))))))))))))))))))))))))))).
  intros name w. eexists. split; [reflexivity|]. cbv beta.
  eapply wraps_ext; cycle 1.
  - eapply (wraps_test _ minus_one); [reflexivity|eauto with wrap|eauto with wrap].
  - intros w1. unfold mbind, M_bind, check_sys.
    destruct (kernel _ w1) as [[a|h] w']; [|reflexivity].
    destruct (minus_one a); [|reflexivity]. rewrite !err_sys_reported. reflexivity.
Qed.

(** ** Accept as a run *)

Lemma runs_Accept fd (Q : answer -> list event -> Prop) (H : halt -> list event -> Prop) w :
  (forall evs, Forall (aborted fd) evs -> H Blocked evs) ->
  (forall a evs rep, Forall (aborted fd) evs -> a_ret a = -1 -> only is_report rep ->
     H (Exited 1) ((evs ++ [(CAccept fd, a)]) ++ rep)) ->
  (forall a evs, Forall (aborted fd) evs -> 0 <= a_ret a -> Q a (evs ++ [(CAccept fd, a)])) ->
  runs (Accept fd) Q H w.
Proof. intros HB HE HQ. apply runs_wp, wp_Accept; eauto. Qed.

(** A wrapper at the end of a function. *)
Lemma runs_wraps_ret {A} (m : M A) c good val flag text code
    (Q : A -> list event -> Prop) (H : halt -> list event -> Prop) w :
  wraps m c good val flag text code ->
  H Blocked [] ->
  (forall a rep, ~ good (normalise c a) -> only is_report rep ->
     H (Exited 1) ((c, normalise c a) :: rep)) ->
  (forall a, good (normalise c a) -> Q (val (normalise c a)) [(c, normalise c a)]) ->
  runs m Q H w.
Proof.
  intros Hm HB HE HQ. apply runs_wp. eapply wp_wraps; [exact Hm| | |].
  - intros w' He. by exists [].
  - intros a w' He Hg. eauto.
  - intros a w' evs He Hr Hg. eexists. split; [exact He|]. by apply HE.
Qed.

Lemma runs_Listen fd backlog (Q : unit -> list event -> Prop)
    (H : halt -> list event -> Prop) w :
  let env := libc "getenv" [] (chars "LISTENQ") in
  H Blocked [] ->
  (forall a, H Blocked [(env, a)]) ->
  (forall a n x rep, only is_report rep -> H (Exited 1) ((env, a) :: (CListen fd n, x) :: rep)) ->
  (forall a n x, Q () [(env, a); (CListen fd n, x)]) ->
  runs (Listen fd backlog) Q H w.
Proof.
  intros env HB HB2 HE HQ. unfold Listen. apply runs_call; [done|done|].
  intros a w1. cbv zeta. intros _. eapply runs_wraps_ret; [apply Listen_step| | |]; auto.
Qed.

