(* ===== verification/ReadWrite.v ===== *)
(** * lib/readn.c, writen.c, readline.c and the other readline functions

    The functions take the descriptor and return, with the C return value,
    the bytes that they stored in the caller's buffer (the NUL that [readline]
    adds is not listed). *)

From S2P Require Import Prelude Unix ErrorLib.

(** ** readn *)

(** One iteration of the [while] loop; the state is [nleft] and the bytes
    stored so far. *)
Definition readn_body (fd n : Z) (s : Z * list Z) : M ((Z * list Z) + (Z * list Z)) :=
  let '(nleft, got) := s in
  if 0 <? nleft then
    a ← kernel (CRead fd nleft);
    if a_ret a <? 0 then
      e ← get_errno;
      if e =? EINTR then mret (inl (nleft, got)) else mret (inr (-1, got))
    else if a_ret a =? 0 then mret (inr (n - nleft, got))
    else mret (inl (nleft - a_ret a, got ++ a_data a))
  else mret (inr (n - nleft, got)).

Definition readn (fd n : Z) : M (Z * list Z) := loop (readn_body fd n) (n, []).

Definition Readn (fd nbytes : Z) : M (Z * list Z) :=
  r ← readn fd nbytes;
  if fst r <? 0 then err_sys (chars "readn error") else mret r.

(** ** writen *)

Definition writen_body (fd n : Z) (s : Z * list Z) : M ((Z * list Z) + Z) :=
  let '(nleft, ptr) := s in
  if 0 <? nleft then
    a ← kernel (CWrite fd ptr);
    if a_ret a <=? 0 then
      e ← get_errno;
      if (a_ret a <? 0) && (e =? EINTR)
      then mret (inl (nleft, ptr))
      else mret (inr (-1))
    else mret (inl (nleft - a_ret a, drop (Z.to_nat (a_ret a)) ptr))
  else mret (inr n).

Definition writen (fd : Z) (vptr : list Z) : M Z :=
  let n := Z.of_nat (length vptr) in loop (writen_body fd n) (n, vptr).

Definition Writen (fd : Z) (ptr : list Z) : M unit :=
  r ← writen fd ptr;
  if negb (r =? Z.of_nat (length ptr)) then err_sys (chars "writen error") else mret ().

(** ** lib/readline.c *)

(** The static variables [read_cnt], [read_ptr] (an offset) and the bytes of
    [read_buf] that the last [read] filled. *)
Record rl : Type := Rl { read_cnt : Z; read_ptr : nat; read_buf : list Z }.

Definition rl_init : rl := Rl 0 0 [].

(** The loop at the label [again]: [None] when [my_read] goes on, or the
    value that it returns. *)
Definition my_read_fill (fd : Z) (st : rl) (_ : unit) : M (unit + (option Z * rl)) :=
  a ← kernel (CRead fd MAXLINE);
  if a_ret a <? 0 then
    e ← get_errno;
    if e =? EINTR then mret (inl ()) else mret (inr (Some (-1), Rl (-1) (read_ptr st) (read_buf st)))
  else if a_ret a =? 0 then mret (inr (Some 0, Rl 0 (read_ptr st) (read_buf st)))
  else mret (inr (None, Rl (a_ret a) 0 (a_data a))).

(** [my_read]: return value, character stored, static variables. *)
Definition my_read (fd : Z) (st : rl) : M (Z * Z * rl) :=
  f ← (if read_cnt st <=? 0 then loop (my_read_fill fd st) () else mret (None, st));
  match f with
  | (Some rc, st') => mret (rc, 0, st')
  | (None, st') =>
      match read_buf st' !! read_ptr st' with
      | None => undefined
      | Some c => mret (1, c, Rl (read_cnt st' - 1) (S (read_ptr st')) (read_buf st'))
      end
  end.

(** The [for] loop of [readline]: [todo] is [maxlen - n]. *)
Fixpoint readline_loop (todo : nat) (fd n : Z) (out : list Z) (st : rl) : M (Z * list Z * rl) :=
  match todo with
  | O => mret (n, out, st)
  | S todo' =>
      r ← my_read fd st;
      let '(rc, c, st') := r in
      if rc =? 1 then
        if c =? 10 then mret (n, out ++ [c], st')
        else readline_loop todo' fd (n + 1) (out ++ [c]) st'
      else if rc =? 0 then mret (n - 1, out, st')
      else mret (-1, out, st')
  end.

(** The buffer must have room for the NUL: [*ptr = 0] is executed even when
    [maxlen] is 0. *)
Definition readline (fd maxlen : Z) (st : rl) : M (Z * list Z * rl) :=
  if maxlen <=? 0 then undefined
  else readline_loop (Z.to_nat (maxlen - 1)) fd 1 [] st.

Definition Readline (fd maxlen : Z) (st : rl) : M (Z * list Z * rl) :=
  r ← readline fd maxlen st;
  if fst (fst r) <? 0 then err_sys (chars "readline error") else mret r.

(** [readlinebuf]: the return value, and the bytes [*vptrptr] points to when
    it is set. *)
Definition readlinebuf (st : rl) : Z * option (list Z) :=
  (read_cnt st, if read_cnt st =? 0 then None else Some (drop (read_ptr st) (read_buf st))).

(** ** server/readline_r.c: the reentrant version

    The same static variables in the caller's [Rline]; at end of file with
    some data it leaves the loop instead of returning [n - 1]. *)

Record rline_r : Type := RlineR {
  rr_fd : Z;
  rr_maxlen : Z;
  rr_rl : rl
}.

Definition readline_rinit (fd maxlen : Z) : rline_r := RlineR fd maxlen rl_init.

(** [my_read_r]: the same code on the fields of [Rline]; the character is
    masked with 255. *)
Definition my_read_r (rptr : rline_r) : M (Z * Z * rline_r) :=
  r ← my_read (rr_fd rptr) (rr_rl rptr);
  let '(rc, c, st) := r in
  mret (rc, Z.land c 255, RlineR (rr_fd rptr) (rr_maxlen rptr) st).

Fixpoint readline_r_loop (todo : nat) (n : Z) (out : list Z) (rptr : rline_r)
    : M (Z * list Z * rline_r) :=
  match todo with
  | O => mret (n, out, rptr)
  | S todo' =>
      r ← my_read_r rptr;
      let '(rc, c, rptr') := r in
      if rc =? 1 then
        if c =? 10 then mret (n, out ++ [c], rptr')
        else readline_r_loop todo' (n + 1) (out ++ [c]) rptr'
      else if rc =? 0 then
        if n =? 1 then mret (0, out, rptr') else mret (n, out, rptr')
      else mret (-1, out, rptr')
  end.

Definition readline_r (rptr : rline_r) : M (Z * list Z * rline_r) :=
  if rr_maxlen rptr <=? 0 then undefined
  else readline_r_loop (Z.to_nat (rr_maxlen rptr - 1)) 1 [] rptr.

Definition Readline_r (rptr : rline_r) : M (Z * list Z * rline_r) :=
  r ← readline_r rptr;
  if fst (fst r) =? -1 then err_sys (chars "readline_r error") else mret r.

(** ** test/readline1.c: one [read] per character *)

Fixpoint readline1_loop (todo : nat) (fd n : Z) (out : list Z) : M (Z * list Z) :=
  match todo with
  | O => mret (n, out)
  | S todo' =>
      a ← loop (fun _ : unit =>
            a ← kernel (CRead fd 1);
            if a_ret a <? 0 then
              e ← get_errno;
              if e =? EINTR then mret (inl ()) else mret (inr a)
            else mret (inr a)) ();
      if a_ret a =? 1 then
        match a_data a with
        | c :: _ =>
            if c =? 10 then mret (n, out ++ [c])
            else readline1_loop todo' fd (n + 1) (out ++ [c])
        | [] => undefined
        end
      else if a_ret a =? 0 then mret (n - 1, out)
      else mret (-1, out)
  end.

Definition readline1 (fd maxlen : Z) : M (Z * list Z) :=
  if maxlen <=? 0 then undefined
  else readline1_loop (Z.to_nat (maxlen - 1)) fd 1 [].

(** ** Examples *)

Definition world0 (s : list answer) : world := World s [] 0 0 (fun _ => []).

Example readn_short :
  fst (readn 5 6 (world0 [data [1; 2]; err EINTR; data [3; 4; 5; 6; 7; 8]]))
  = Ret (6, [1; 2; 3; 4; 5; 6]).
Proof. reflexivity. Qed.
Example readline_two_reads :
  fst (readline 0 100 rl_init (world0 [data [97]; data [98; 10; 99]]))
  = Ret (3, [97; 98; 10], Rl 1 2 [98; 10; 99]).
Proof. reflexivity. Qed.

(** ** Rules for readn and writen *)

(** The last event is an answer that satisfies [P]. *)
Definition last_is (P : answer -> Prop) (evs : list event) : Prop :=
  exists evs' c a, evs = evs' ++ [(c, a)] /\ P a.

Lemma last_is_app P evs c a : P a -> last_is P (evs ++ [(c, a)]).
Proof. intros. by exists evs, c, a. Qed.

Definition at_eof (a : answer) : Prop := a_ret a = 0.
Definition failed (a : answer) : Prop := a_ret a = -1.

Lemma wp_readn fd n (Q : Z * list Z -> world -> Prop) (H : halt -> world -> Prop) w :
  0 <= n ->
  (forall w' evs, extends w w' evs -> only (is_read fd) evs ->
     Z.of_nat (length (received fd evs)) < n -> H Blocked w') ->
  (forall r got w' evs, extends w w' evs -> only (is_read fd) evs ->
     received fd evs = got -> Z.of_nat (length got) <= n -> bytes got ->
     (r = -1 /\ last_is failed evs /\ errno w' <> EINTR /\ Z.of_nat (length got) < n \/
      r = Z.of_nat (length got) /\ (r = n \/ r < n /\ last_is at_eof evs)) ->
     Q (r, got) w') ->
  wp (readn fd n) Q H w.
Proof.
  intros Hn HB HQ. unfold readn.
  apply (wp_loop_evs _ (fun s evs => only (is_read fd) evs /\ received fd evs = snd s /\
    fst s = n - Z.of_nat (length (snd s)) /\ 0 <= fst s /\ bytes (snd s))).
  { simpl. split_and!; try done; try lia; constructor. }
  intros [nleft got] evs w1 (Ho & Hr & Hleft & Hpos & Hby) He. simpl in *. subst got.
  destruct (0 <? nleft) eqn:E; zbool.
  2: { apply wp_ret. eapply (HQ _ _ _ evs); try done; [lia|]. right. lia. }
  apply wp_bind, wp_call; [done|apply (HB _ evs); [done|done|lia]|].
  intros a w2 He2 Herr _.
  destruct (normalise_read fd nleft a Hpos) as [[Hret Hd]|[Hret [Hlen Hb]]];
    set (x := normalise (CRead fd nleft) a) in *.
  - replace (a_ret x <? 0) with true by lia. apply wp_bind, wp_get_errno.
    destruct (errno w2 =? EINTR) eqn:Ee; zbool; apply wp_ret.
    + exists [(CRead fd nleft, x)]. autorewrite with world. rewrite Hd, app_nil_r. simpl.
      split_and!; try done; try lia. by apply only_app; split; [|apply only_one].
    + eapply (HQ _ _ _ (evs ++ [(CRead fd nleft, x)])).
      * by eapply extends_trans.
      * by apply only_app; split; [|apply only_one].
      * autorewrite with world. by rewrite Hd, app_nil_r.
      * lia.
      * done.
      * left. split_and!; try done; [by apply last_is_app|lia].
  - replace (a_ret x <? 0) with false by lia.
    destruct (a_ret x =? 0) eqn:E0; zbool; apply wp_ret.
    + assert (a_data x = []) as Hd by (destruct (a_data x); [done|simpl in Hlen; lia]).
      eapply (HQ _ _ _ (evs ++ [(CRead fd nleft, x)])).
      * by eapply extends_trans.
      * by apply only_app; split; [|apply only_one].
      * autorewrite with world. by rewrite Hd, app_nil_r.
      * lia.
      * done.
      * right. split; [lia|]. right. split; [lia|]. by apply last_is_app.
    + exists [(CRead fd nleft, x)]. autorewrite with world.
      cbn [fst snd]. rewrite length_app. split_and!; try done; try (cbn [waits is_output]; lia).
      * by apply only_app; split; [|apply only_one].
      * by apply bytes_app.
Qed.

Lemma wp_writen fd d (Q : Z -> world -> Prop) (H : halt -> world -> Prop) w :
  (forall w' evs, extends w w' evs -> only (is_write fd) evs ->
     sent fd evs `prefix_of` d -> (length (sent fd evs) < length d)%nat -> H Blocked w') ->
  (forall r w' evs, extends w w' evs -> only (is_write fd) evs ->
     (r = Z.of_nat (length d) /\ sent fd evs = d \/
      r = -1 /\ sent fd evs `prefix_of` d /\ (length (sent fd evs) < length d)%nat /\
        last_is (fun a => a_ret a <= 0) evs) ->
     Q r w') ->
  wp (writen fd d) Q H w.
Proof.
  intros HB HQ. unfold writen.
  apply (wp_loop_evs _ (fun s evs => only (is_write fd) evs /\ sent fd evs ++ snd s = d /\
    fst s = Z.of_nat (length (snd s)))).
  { simpl. split_and!; done. }
  intros [nleft ptr] evs w1 (Ho & Hs & Hleft) He. simpl in *.
  assert (sent fd evs `prefix_of` d) as Hpre by (by exists ptr).
  assert (length d = (length (sent fd evs) + length ptr)%nat) as Hlen
    by (by rewrite <- Hs, length_app).
  destruct (0 <? nleft) eqn:E; zbool.
  2: { apply wp_ret. apply (HQ _ _ evs); [done|done|]. left.
       destruct ptr; [|simpl in *; lia]. rewrite app_nil_r in Hs. by rewrite Hs. }
  apply wp_bind, wp_call; [done|apply (HB _ evs); [done|done|done|lia]|].
  intros a w2 He2 Herr _.
  pose proof (normalise_write fd ptr a) as Hret; cbv zeta in Hret.
  set (x := normalise (CWrite fd ptr) a) in *.
  assert (only (is_write fd) (evs ++ [(CWrite fd ptr, x)])) as Ho'
    by (by apply only_app; split; [|apply only_one]).
  destruct (a_ret x <=? 0) eqn:E0; zbool.
  - assert (take (Z.to_nat (a_ret x)) ptr = []) as Ht
      by (by replace (Z.to_nat (a_ret x)) with 0%nat by lia).
    apply wp_bind, wp_get_errno.
    destruct ((a_ret x <? 0) && (errno w2 =? EINTR)) eqn:E1; apply wp_ret.
    + exists [(CWrite fd ptr, x)]. autorewrite with world. rewrite Ht, app_nil_r. simpl.
      split_and!; try done. lia.
    + apply (HQ _ _ (evs ++ [(CWrite fd ptr, x)])); [by eapply extends_trans|done|].
      right. autorewrite with world. rewrite Ht, app_nil_r.
      split_and!; try done; [lia|]. by apply last_is_app.
  - apply wp_ret. exists [(CWrite fd ptr, x)]. autorewrite with world.
    cbn [fst snd]. rewrite <- app_assoc, take_drop, length_drop.
    split_and!; try done; try (cbn [waits is_output]; lia).
Qed.

(** ** Rules for my_read and readline *)

(** The bytes already read from the descriptor and not yet returned. *)
Definition pending (st : rl) : list Z :=
  if read_cnt st <=? 0 then [] else drop (read_ptr st) (read_buf st).

(** [read_cnt] counts the bytes of [read_buf] from [read_ptr] on. *)
Definition rl_wf (st : rl) : Prop :=
  read_cnt st <= 0 \/
  read_cnt st = Z.of_nat (length (read_buf st)) - Z.of_nat (read_ptr st) /\ bytes (read_buf st).

Lemma readlinebuf_pending st :
  rl_wf st -> 0 <= read_cnt st ->
  readlinebuf st = (Z.of_nat (length (pending st)),
                    match pending st with [] => None | p => Some p end).
Proof.
  intros Hwf H0. unfold readlinebuf, pending.
  destruct (read_cnt st =? 0) eqn:E; zbool.
  - replace (read_cnt st <=? 0) with true by lia. by rewrite E.
  - replace (read_cnt st <=? 0) with false by lia.
    destruct Hwf as [Hle|[Hc _]]; [lia|].
    assert (length (drop (read_ptr st) (read_buf st)) = Z.to_nat (read_cnt st)) as Hl
      by (rewrite length_drop; lia).
    destruct (drop _ _) eqn:Ed; [simpl in Hl; lia|]. rewrite Hl. f_equal. lia.
Qed.

Lemma rl_init_wf : rl_wf rl_init.
Proof. left. simpl. lia. Qed.

Lemma wp_my_read fd st (Q : Z * Z * rl -> world -> Prop) (H : halt -> world -> Prop) w :
  rl_wf st ->
  (forall w' evs, extends w w' evs -> only (is_read fd) evs -> received fd evs = [] ->
     pending st = [] -> H Blocked w') ->
  (forall rc c st' w' evs, extends w w' evs -> only (is_read fd) evs -> rl_wf st' ->
     (rc = 1 /\ byte c /\ pending st ++ received fd evs = c :: pending st' \/
      rc = 0 /\ pending st ++ received fd evs = [] /\ pending st' = [] /\ last_is at_eof evs \/
      rc = -1 /\ pending st ++ received fd evs = [] /\ pending st' = [] /\
        last_is failed evs /\ errno w' <> EINTR) ->
     Q (rc, c, st') w') ->
  wp (my_read fd st) Q H w.
Proof.
  intros Hwf HB HQ. unfold my_read. apply wp_bind.
  destruct (read_cnt st <=? 0) eqn:Ec; zbool.
  - assert (pending st = []) as Hp by (unfold pending; by replace (_ <=? 0) with true by lia).
    apply (wp_loop_evs _ (fun _ evs => only (is_read fd) evs /\ received fd evs = [])); [done|].
    intros [] evs w1 [Ho Hr] He. unfold my_read_fill.
    apply wp_bind, wp_call; [done|by apply (HB _ evs)|]. intros a w2 He2 _ _.
    destruct (normalise_read fd MAXLINE a ltac:(done)) as [[Hret Hd]|[Hret [Hlen Hb]]];
      set (x := normalise (CRead fd MAXLINE) a) in *;
      assert (only (is_read fd) (evs ++ [(CRead fd MAXLINE, x)])) as Ho'
        by (by apply only_app; split; [|apply only_one]);
      assert (extends w w2 (evs ++ [(CRead fd MAXLINE, x)])) as He' by (by eapply extends_trans).
    + replace (a_ret x <? 0) with true by lia. apply wp_bind, wp_get_errno.
      destruct (errno w2 =? EINTR) eqn:Ee; zbool; apply wp_ret.
      * exists [(CRead fd MAXLINE, x)]. autorewrite with world. rewrite Hr, Hd.
        split_and!; try done. cbn [waits is_output]. lia.
      * eapply HQ; [done|done|left; simpl; lia|]. right. right.
        autorewrite with world. rewrite Hp, Hr, Hd. split_and!; try done. by apply last_is_app.
    + replace (a_ret x <? 0) with false by lia. destruct (a_ret x =? 0) eqn:E0; zbool; apply wp_ret.
      * assert (a_data x = []) as Hd by (destruct (a_data x); [done|simpl in Hlen; lia]).
        eapply HQ; [done|done|left; simpl; lia|]. right. left.
        autorewrite with world. rewrite Hp, Hr, Hd. split_and!; try done. by apply last_is_app.
      * destruct (a_data x) as [|c rest] eqn:Hd; [simpl in Hlen; lia|].
        cbn [read_buf read_ptr read_cnt lookup list_lookup]. apply wp_ret.
        apply Forall_cons in Hb as [Hc Hb].
        eapply HQ; [done|done| |].
        { right. simpl in *. split; [lia|by apply Forall_cons]. }
        left. autorewrite with world. rewrite Hp, Hr, Hd. split_and!; try done.
        unfold pending. simpl in *. destruct (a_ret x - 1 <=? 0) eqn:E; [|by rewrite drop_0].
        zbool. destruct rest; [done|simpl in *; lia].
  - apply wp_ret. destruct Hwf as [|[Hcnt Hb]]; [lia|].
    destruct (lookup_lt_is_Some_2 (read_buf st) (read_ptr st)) as [c Hc]; [lia|].
    rewrite Hc. apply wp_ret. eapply (HQ _ _ _ _ []); [apply extends_refl|constructor| |].
    { right. simpl. split; [lia|done]. }
    left. split; [done|]. split; [by eapply Forall_lookup_1|].
    unfold pending. simpl. replace (read_cnt st <=? 0) with false by lia.
    rewrite app_nil_r, (drop_S _ _ _ Hc). f_equal.
    destruct (read_cnt st - 1 <=? 0) eqn:E; [|done]. zbool. rewrite drop_ge by lia. done.
Qed.

(** What [readline] returns for the bytes [line] that it stored. *)
Inductive line_ret (maxlen : Z) (line : list Z) (evs : list event) : Z -> Prop :=
| Line_newline l :
    line = l ++ [10] -> 10 ∉ l -> Z.of_nat (length line) < maxlen ->
    line_ret maxlen line evs (Z.of_nat (length line))
| Line_full :
    10 ∉ line -> Z.of_nat (length line) = maxlen - 1 -> line_ret maxlen line evs maxlen
| Line_eof :
    10 ∉ line -> Z.of_nat (length line) < maxlen - 1 -> last_is at_eof evs ->
    line_ret maxlen line evs (Z.of_nat (length line))
| Line_error :
    10 ∉ line -> Z.of_nat (length line) < maxlen - 1 -> last_is failed evs ->
    line_ret maxlen line evs (-1).

Lemma last_is_prepend P a b : last_is P b -> last_is P (a ++ b).
Proof. intros (e & c & x & -> & Hx). exists (a ++ e), c, x. by rewrite app_assoc. Qed.

Lemma line_ret_prepend maxlen line a b r :
  line_ret maxlen line b r -> line_ret maxlen line (a ++ b) r.
Proof.
  destruct 1; [eapply Line_newline|apply Line_full|apply Line_eof|apply Line_error];
    eauto using last_is_prepend.
Qed.

Lemma not_elem_snoc (l : list Z) c : 10 ∉ l -> c <> 10 -> 10 ∉ l ++ [c].
Proof. intros Hl Hc [?|?%list_elem_of_singleton]%elem_of_app; congruence. Qed.

Lemma wp_readline_loop todo fd n out st maxlen
    (Q : Z * list Z * rl -> world -> Prop) (H : halt -> world -> Prop) w :
  rl_wf st -> n = Z.of_nat (length out) + 1 -> Z.of_nat todo = maxlen - n ->
  10 ∉ out -> bytes out ->
  (forall w' evs, extends w w' evs -> only (is_read fd) evs -> H Blocked w') ->
  (forall r line st' w' evs, extends w w' evs -> only (is_read fd) evs -> rl_wf st' ->
     out ++ pending st ++ received fd evs = line ++ pending st' -> bytes line ->
     line_ret maxlen line evs r -> (r = -1 -> errno w' <> EINTR) -> (r = 0 -> pending st' = []) ->
     Q (r, line, st') w') ->
  wp (readline_loop todo fd n out st) Q H w.
Proof.
  revert n out st w. induction todo as [|todo IH]; intros n out st w Hwf Hn Htodo Hnl Hb HB HQ.
  { apply wp_ret. eapply (HQ _ _ _ _ []); try done; try lia.
    - by rewrite app_nil_r.
    - replace n with maxlen by lia. apply Line_full; [done|lia]. }
  cbn [readline_loop]. apply wp_bind, wp_my_read; [done|by intros; eapply HB|].
  intros rc c st' w' evs He Ho Hwf' Hcase.
  destruct Hcase as [(-> & Hc & Hp)|[(-> & Hp & Hp' & Hl)|(-> & Hp & Hp' & Hl & Herr)]];
    cbn [Z.eqb Pos.eqb].
  - destruct (c =? 10) eqn:E; zbool.
    + apply wp_ret. subst c. eapply (HQ _ _ _ _ evs); try done.
      * rewrite Hp. by rewrite <- app_assoc.
      * apply bytes_app. split; [done|]. by apply Forall_singleton.
      * replace n with (Z.of_nat (length (out ++ [10]))) by (rewrite length_app; simpl; lia).
        apply (Line_newline _ _ _ out); [done|done|rewrite length_app; simpl; lia].
      * lia.
      * lia.
    + apply IH; try done.
      * rewrite length_app. simpl. lia.
      * lia.
      * by apply not_elem_snoc.
      * apply bytes_app. split; [done|]. by apply Forall_singleton.
      * intros w2 evs2 He2 Ho2. eapply HB; [by eapply extends_trans|by apply only_app].
      * intros r line st2 w2 evs2 He2 Ho2 Hwf2 Hp2 Hb2 Hr2 Hee H0.
        eapply (HQ _ _ _ _ (evs ++ evs2));
          [by eapply extends_trans|by apply only_app|done| |done|by apply line_ret_prepend|done|done].
        rewrite received_app, <- Hp2, <- app_assoc. cbn [app].
        by rewrite (app_assoc (pending st)), Hp.
  - apply wp_ret. eapply (HQ _ _ _ _ evs); try done; [|replace (n - 1) with (Z.of_nat (length out)) by lia|lia].
    + by rewrite Hp, Hp'.
    + apply Line_eof; [done|lia|done].
  - apply wp_ret. eapply (HQ _ _ _ _ evs); try done; [by rewrite Hp, Hp'|].
    apply Line_error; [done|lia|done].
Qed.

Lemma wp_readline fd maxlen st
    (Q : Z * list Z * rl -> world -> Prop) (H : halt -> world -> Prop) w :
  0 < maxlen -> rl_wf st ->
  (forall w' evs, extends w w' evs -> only (is_read fd) evs -> H Blocked w') ->
  (forall r line st' w' evs, extends w w' evs -> only (is_read fd) evs -> rl_wf st' ->
     pending st ++ received fd evs = line ++ pending st' -> bytes line ->
     line_ret maxlen line evs r -> (r = -1 -> errno w' <> EINTR) -> (r = 0 -> pending st' = []) ->
     Q (r, line, st') w') ->
  wp (readline fd maxlen st) Q H w.
Proof.
  intros Hm Hwf HB HQ. unfold readline. replace (maxlen <=? 0) with false by lia.
  apply (wp_readline_loop _ _ _ _ _ maxlen); try done; [lia|set_solver|constructor].
Qed.

(** ** The reentrant and the slow version *)

Lemma land_byte c : byte c -> Z.land c 255 = c.
Proof.
  unfold byte. intros. change 255 with (Z.ones 8). rewrite Z.land_ones by lia.
  apply Z.mod_small. lia.
Qed.

(** The return value of [readline_r]: at end of file with some data it counts
    one byte more than it stored. *)
Definition line_ret_r (maxlen : Z) (line : list Z) (evs : list event) (r : Z) : Prop :=
  line_ret maxlen line evs r /\ (r = -1 \/ r = 0 \/ r = maxlen \/ last line = Some 10) \/
  r = Z.of_nat (length line) + 1 /\ line <> [] /\ line_ret maxlen line evs (r - 1) /\
    last_is at_eof evs /\ 10 ∉ line.

Lemma line_ret_r_prepend maxlen line a b r :
  line_ret_r maxlen line b r -> line_ret_r maxlen line (a ++ b) r.
Proof.
  intros [[H1 H2]|(H1 & H2 & H3 & H4 & H5)]; [left|right].
  - split; [by apply line_ret_prepend|done].
  - split_and!; auto using line_ret_prepend, last_is_prepend.
Qed.

Lemma wp_readline_r_loop todo n out rp maxlen
    (Q : Z * list Z * rline_r -> world -> Prop) (H : halt -> world -> Prop) w :
  rl_wf (rr_rl rp) -> n = Z.of_nat (length out) + 1 -> Z.of_nat todo = maxlen - n ->
  10 ∉ out -> bytes out ->
  (forall w' evs, extends w w' evs -> only (is_read (rr_fd rp)) evs -> H Blocked w') ->
  (forall r line rp' w' evs, extends w w' evs -> only (is_read (rr_fd rp)) evs ->
     rl_wf (rr_rl rp') -> rr_fd rp' = rr_fd rp -> rr_maxlen rp' = rr_maxlen rp ->
     out ++ pending (rr_rl rp) ++ received (rr_fd rp) evs = line ++ pending (rr_rl rp') ->
     line_ret_r maxlen line evs r -> Q (r, line, rp') w') ->
  wp (readline_r_loop todo n out rp) Q H w.
Proof.
  revert n out rp w. induction todo as [|todo IH]; intros n out rp w Hwf Hn Htodo Hnl Hb HB HQ.
  { apply wp_ret. eapply (HQ _ _ _ _ []); try done; [by rewrite app_nil_r|].
    left. replace n with maxlen by lia. split; [apply Line_full; [done|lia]|auto]. }
  cbn [readline_r_loop]. apply wp_bind. unfold my_read_r at 1.
  apply wp_bind, wp_my_read; [done|by intros; eapply HB|].
  intros rc c st' w' evs He Ho Hwf' Hcase. apply wp_ret.
  destruct Hcase as [(-> & Hc & Hp)|[(-> & Hp & Hp' & Hl)|(-> & Hp & Hp' & Hl & Herr)]];
    cbn [Z.eqb Pos.eqb].
  - rewrite (land_byte c) by done. destruct (c =? 10) eqn:E; zbool.
    + apply wp_ret. subst c. eapply (HQ _ _ (RlineR _ _ st') _ evs); try done.
      * cbn [rr_rl]. rewrite Hp. by rewrite <- app_assoc.
      * left. split; [|by rewrite last_snoc; auto].
        replace n with (Z.of_nat (length (out ++ [10]))) by (rewrite length_app; simpl; lia).
        apply (Line_newline _ _ _ out); [done|done|rewrite length_app; simpl; lia].
    + apply IH; try done; cbn [rr_fd rr_rl rr_maxlen].
      * rewrite length_app. simpl. lia.
      * lia.
      * by apply not_elem_snoc.
      * apply bytes_app. split; [done|]. by apply Forall_singleton.
      * intros w2 evs2 He2 Ho2. eapply HB; [by eapply extends_trans|by apply only_app].
      * intros r line rp2 w2 evs2 He2 Ho2 Hwf2 Hf2 Hm2 Hp2 Hr2.
        eapply (HQ _ _ _ _ (evs ++ evs2)); try done;
          [by eapply extends_trans|by apply only_app| |by apply line_ret_r_prepend].
        rewrite received_app, <- Hp2, <- app_assoc. cbn [app].
        by rewrite (app_assoc (pending _)), Hp.
  - destruct (n =? 1) eqn:E1; zbool; apply wp_ret; eapply (HQ _ _ (RlineR _ _ st') _ evs);
      try done; cbn [rr_rl]; try by rewrite Hp, Hp'.
    + left. destruct out; [|simpl in *; lia]. split; [|auto].
      change 0 with (Z.of_nat (length (@nil Z))). apply Line_eof; [done|simpl; lia|done].
    + right. split_and!; try done; [by destruct out|].
      replace (n - 1) with (Z.of_nat (length out)) by lia. apply Line_eof; [done|lia|done].
  - apply wp_ret. eapply (HQ _ _ (RlineR _ _ st') _ evs); try done; [by cbn [rr_rl]; rewrite Hp, Hp'|].
    left. split; [apply Line_error; [done|lia|done]|auto].
Qed.

Lemma wp_readline1_loop todo fd n out maxlen
    (Q : Z * list Z -> world -> Prop) (H : halt -> world -> Prop) w :
  n = Z.of_nat (length out) + 1 -> Z.of_nat todo = maxlen - n -> 10 ∉ out ->
  (forall w' evs, extends w w' evs -> only (is_read fd) evs -> H Blocked w') ->
  (forall r line w' evs, extends w w' evs -> only (is_read fd) evs ->
     out ++ received fd evs = line -> line_ret maxlen line evs r -> Q (r, line) w') ->
  wp (readline1_loop todo fd n out) Q H w.
Proof.
  revert n out w. induction todo as [|todo IH]; intros n out w Hn Htodo Hnl HB HQ.
  { apply wp_ret. eapply (HQ _ _ _ []); try done; [by rewrite app_nil_r|].
    replace n with maxlen by lia. apply Line_full; [done|lia]. }
  cbn [readline1_loop]. apply wp_bind.
  apply (wp_loop_evs _ (fun _ evs => only (is_read fd) evs /\ received fd evs = [])); [done|].
  intros [] evs w1 [Ho Hr] He. apply wp_bind, wp_call; [done|by eapply HB|].
  intros a w2 He2 _ _.
  destruct (normalise_read fd 1 a ltac:(lia)) as [[Hret Hd]|[Hret [Hlen Hb]]];
    set (x := normalise (CRead fd 1) a) in *;
    assert (only (is_read fd) (evs ++ [(CRead fd 1, x)])) as Ho'
      by (by apply only_app; split; [|apply only_one]);
    assert (extends w w2 (evs ++ [(CRead fd 1, x)])) as He' by (by eapply extends_trans);
    assert (received fd (evs ++ [(CRead fd 1, x)]) = a_data x) as Hrec
      by (autorewrite with world; by rewrite Hr).
  - replace (a_ret x <? 0) with true by lia. apply wp_bind, wp_get_errno.
    destruct (errno w2 =? EINTR) eqn:Ee; zbool; apply wp_ret.
    + exists [(CRead fd 1, x)]. rewrite Hrec, Hd.
      split_and!; try done. cbn [waits is_output]. lia.
    + rewrite Hret. cbn [Z.eqb Pos.eqb]. apply wp_ret.
      eapply (HQ _ _ _ _ He'); [done|by rewrite Hrec, Hd, app_nil_r|].
      apply Line_error; [done|lia|by apply last_is_app].
  - replace (a_ret x <? 0) with false by lia. apply wp_ret.
    destruct (a_ret x =? 1) eqn:E1; zbool.
    + destruct (a_data x) as [|c [|c2 rest]]; simpl in Hlen; [lia| |lia].
      destruct (c =? 10) eqn:E; zbool.
      * apply wp_ret. subst c. eapply (HQ _ _ _ _ He'); [done|by rewrite Hrec|].
        replace n with (Z.of_nat (length (out ++ [10]))) by (rewrite length_app; simpl; lia).
        apply (Line_newline _ _ _ out); [done|done|rewrite length_app; simpl; lia].
      * apply IH; try done; [rewrite length_app; simpl; lia|lia|by apply not_elem_snoc| |].
        -- intros w3 evs3 He3 Ho3. eapply HB; [by eapply extends_trans|by apply only_app].
        -- intros r line w3 evs3 He3 Ho3 Hl3 Hr3.
           eapply (HQ _ _ _ ((evs ++ [(CRead fd 1, x)]) ++ evs3));
             [by eapply extends_trans|by apply only_app| |by apply line_ret_prepend].
           rewrite received_app, Hrec, <- Hl3, <- app_assoc. done.
    + replace (a_ret x =? 0) with true by lia. apply wp_ret.
      assert (a_data x = []) as Hd by (destruct (a_data x); [done|simpl in Hlen; lia]).
      eapply (HQ _ _ _ _ He'); [done|by rewrite Hrec, Hd, app_nil_r|].
      replace (n - 1) with (Z.of_nat (length out)) by lia.
      apply Line_eof; [done|lia|]. apply last_is_app. unfold at_eof. lia.
Qed.

Lemma wp_Writen fd d (Q : unit -> world -> Prop) (H : halt -> world -> Prop) w :
  (forall w' evs, extends w w' evs -> only (is_write fd) evs ->
     sent fd evs `prefix_of` d -> H Blocked w') ->
  (forall w' evs evs', extends w w' (evs ++ evs') -> only (is_write fd) evs ->
     only is_report evs' -> sent fd evs `prefix_of` d -> H (Exited 1) w') ->
  (forall w' evs, extends w w' evs -> only (is_write fd) evs -> sent fd evs = d -> Q () w') ->
  wp (Writen fd d) Q H w.
Proof.
  intros HB HE HQ. unfold Writen. apply wp_bind, wp_writen; [by eauto|].
  intros r w' evs He Ho [[-> Hs]|(-> & Hs & Hlen & _)].
  - rewrite Z.eqb_refl. apply wp_ret. by eapply HQ.
  - replace (-1 =? _) with false by lia. cbn [negb].
    apply (wp_fatal true). intros w2 evs2 He2 Ho2.
    eapply HE; [by eapply extends_trans|done|done|done].
Qed.

(** ** Properties *)

(** What [readn] and [Readn] promise. *)
Definition readn_spec (fd n : Z) (w : world) : Prop :=
  match readn fd n w with
  | (Ret (r, got), w') =>
      (exists evs, extends w w' evs /\ only (is_read fd) evs /\ received fd evs = got /\
        bytes got /\ Z.of_nat (length got) <= n /\
        (r = -1 /\ last_is failed evs /\ errno w' <> EINTR /\ Z.of_nat (length got) < n \/
         r = Z.of_nat (length got) /\ (r = n \/ r < n /\ last_is at_eof evs))) /\
      (0 <= r -> Readn fd n w = (Ret (r, got), w')) /\
      (r < 0 -> fst (Readn fd n w) = Halt (Exited 1))
  | (Halt h, w') =>
      h = Blocked /\ Readn fd n w = (Halt Blocked, w') /\
      exists evs, extends w w' evs /\ only (is_read fd) evs /\
        Z.of_nat (length (received fd evs)) < n
  end.

Lemma readn_conserves fd n w : 0 <= n -> readn_spec fd n w.
Proof.
  intros Hn. unfold readn_spec.
  assert (wp (readn fd n) (fun '(r, got) w' => exists evs, extends w w' evs /\
    only (is_read fd) evs /\ received fd evs = got /\ bytes got /\ Z.of_nat (length got) <= n /\
        (r = -1 /\ last_is failed evs /\ errno w' <> EINTR /\ Z.of_nat (length got) < n \/
         r = Z.of_nat (length got) /\ (r = n \/ r < n /\ last_is at_eof evs)))
    (fun h w' => h = Blocked /\ exists evs, extends w w' evs /\ only (is_read fd) evs /\
        Z.of_nat (length (received fd evs)) < n) w) as Hwp.
  { apply wp_readn; [done|eauto 10|]. intros; eauto 20. }
  unfold wp in Hwp. unfold Readn, mbind, M_bind.
  destruct (readn fd n w) as [[[r got]|h] w']; cbn [fst].
  - split; [done|]. split; intros Hr.
    + by replace (r <? 0) with false by lia.
    + replace (r <? 0) with true by lia. unfold err_sys, mbind, M_bind. by rewrite err_doit_spec.
  - destruct Hwp as [-> Hwp]. auto.
Qed.

(** What [writen] and [Writen] promise. *)
Definition writen_spec (fd : Z) (d : list Z) (w : world) : Prop :=
    match writen fd d w with
  | (Ret r, w') =>
      (exists evs, extends w w' evs /\ only (is_write fd) evs /\
        (r = Z.of_nat (length d) /\ sent fd evs = d \/
         r = -1 /\ sent fd evs `prefix_of` d /\ (length (sent fd evs) < length d)%nat /\
           last_is (fun a => a_ret a <= 0) evs)) /\
      (r = Z.of_nat (length d) -> Writen fd d w = (Ret (), w')) /\
      (r <> Z.of_nat (length d) -> fst (Writen fd d w) = Halt (Exited 1))
  | (Halt h, w') =>
      h = Blocked /\ Writen fd d w = (Halt Blocked, w') /\
      exists evs, extends w w' evs /\ only (is_write fd) evs /\
        sent fd evs `prefix_of` d /\ (length (sent fd evs) < length d)%nat
  end.

Lemma writen_conserves fd d w : writen_spec fd d w.
Proof.
  unfold writen_spec.
  assert (wp (writen fd d) (fun r w' => exists evs, extends w w' evs /\ only (is_write fd) evs /\
        (r = Z.of_nat (length d) /\ sent fd evs = d \/
         r = -1 /\ sent fd evs `prefix_of` d /\ (length (sent fd evs) < length d)%nat /\
           last_is (fun a => a_ret a <= 0) evs))
    (fun h w' => h = Blocked /\ exists evs, extends w w' evs /\ only (is_write fd) evs /\
        sent fd evs `prefix_of` d /\ (length (sent fd evs) < length d)%nat) w) as Hwp.
  { apply wp_writen; eauto 10. }
  unfold wp in Hwp. unfold Writen, mbind, M_bind.
  destruct (writen fd d w) as [[r|h] w']; cbn [fst].
  - split; [done|]. split; intros Hr.
    + by rewrite Hr, Z.eqb_refl.
    + replace (r =? _) with false by lia. cbn [negb].
      unfold err_sys, mbind, M_bind. by rewrite err_doit_spec.
  - destruct Hwp as [-> Hwp]. auto.
Qed.

(** C7: [readn] and [Readn]: on every sequence of short reads and interrupted
    calls, [readn] stores exactly the bytes that the kernel delivered, in
    order and never more than [n]; it returns [n], a smaller count only after
    an end of file, or -1 after an error other than EINTR; it makes no other
    call and always returns unless a read blocks.  [Readn] ends the process
    with status 1 exactly in the error case.  [writen] and [Writen]: whatever
    the partial writes and interrupted calls, the bytes accepted by the kernel
    are a prefix of the buffer, in order and without gap or repetition;
    [writen] returns the full count only when all of them were accepted, and
    -1 only after a write that accepted none; [Writen] returns only after a
    complete write and otherwise ends the process with status 1. *)
Theorem readn_writen_correct fd n d w : 0 <= n -> readn_spec fd n w /\ writen_spec fd d w.
Proof. intros Hn. split; [by apply readn_conserves|apply writen_conserves]. Qed.

Theorem readn_writen_correct_witness :
  (exists w', readn 5 4 (world0 [data [1; 2]; err EINTR; data [3]; ok 0]) = (Ret (3, [1; 2; 3]), w') /\
   exists evs, extends (world0 [data [1; 2]; err EINTR; data [3]; ok 0]) w' evs /\ received 5 evs = [1; 2; 3]) /\
  exists w', writen 5 [7; 8; 9] (world0 [ok 2; err EINTR; ok 1]) = (Ret 3, w') /\
   exists evs, extends (world0 [ok 2; err EINTR; ok 1]) w' evs /\ sent 5 evs = [7; 8; 9].
Proof.
  split; eexists; (split; [reflexivity|]).
  - destruct (readn_writen_correct 5 4 [] (world0 [data [1; 2]; err EINTR; data [3]; ok 0]) ltac:(lia))
      as [[(evs & He & _ & Hr & _) _] _].
    exists evs. split; [exact He|exact Hr].
  - destruct (readn_writen_correct 5 0 [7; 8; 9] (world0 [ok 2; err EINTR; ok 1]) ltac:(lia))
      as [_ [(evs & He & _ & [[_ Hs]|(Hr & _)]) _]]; [|discriminate Hr].
    exists evs. split; [exact He|exact Hs].
Defined.

(** [readline] and its static buffer, and what its callers may rely on. *)
Definition readline_spec (fd maxlen : Z) (st : rl) (w : world) : Prop :=
  match readline fd maxlen st w with
  | (Ret (r, line, st'), w') =>
      exists evs, extends w w' evs /\ only (is_read fd) evs /\ rl_wf st' /\
        pending st ++ received fd evs = line ++ pending st' /\
        line_ret maxlen line evs r /\ (r = -1 -> errno w' <> EINTR) /\
        (0 <= read_cnt st' -> readlinebuf st' =
           (Z.of_nat (length (pending st')),
            match pending st' with [] => None | p => Some p end)) /\
        (0 <= r -> Readline fd maxlen st w = (Ret (r, line, st'), w')) /\
        (r < 0 -> fst (Readline fd maxlen st w) = Halt (Exited 1))
  | (Halt h, w') => h = Blocked /\ exists evs, extends w w' evs /\ only (is_read fd) evs
  end.
Lemma readline_meets_spec fd maxlen st w :
  0 < maxlen -> rl_wf st -> readline_spec fd maxlen st w.
Proof.
  intros Hm Hwf. unfold readline_spec.
  assert (wp (readline fd maxlen st)
    (fun '(r, line, st') w' => exists evs, extends w w' evs /\ only (is_read fd) evs /\ rl_wf st' /\
        pending st ++ received fd evs = line ++ pending st' /\
        line_ret maxlen line evs r /\ (r = -1 -> errno w' <> EINTR))
    (fun h w' => h = Blocked /\ exists evs, extends w w' evs /\ only (is_read fd) evs) w) as Hwp.
  { apply wp_readline; [done|done|eauto|]. intros; eauto 10. }
  unfold wp in Hwp. unfold Readline, mbind, M_bind.
  destruct (readline fd maxlen st w) as [[[[r line] st']|h] w']; [|done]; cbn [fst].
  destruct Hwp as (evs & H1 & H2 & H3 & H4 & H5 & H6). exists evs.
  split_and!; try done; intros Hr.
  - by apply readlinebuf_pending.
  - by replace (r <? 0) with false by lia.
  - replace (r <? 0) with true by lia. unfold err_sys, mbind, M_bind. by rewrite err_doit_spec.
Qed.

(** The reentrant version and the one that reads byte by byte. *)
Definition variants_spec (fd maxlen : Z) (rp : rline_r) (w : world) : Prop :=
  match readline_r rp w with
  | (Ret (r, line, rp'), w') =>
      exists evs, extends w w' evs /\ only (is_read fd) evs /\ rl_wf (rr_rl rp') /\
        pending (rr_rl rp) ++ received fd evs = line ++ pending (rr_rl rp') /\
        line_ret_r maxlen line evs r
  | (Halt h, w') => h = Blocked
  end /\
  match readline1 fd maxlen w with
  | (Ret (r, line), w') =>
      exists evs, extends w w' evs /\ only (is_read fd) evs /\
        received fd evs = line /\ line_ret maxlen line evs r
  | (Halt h, w') => h = Blocked
  end.
Lemma readline_variants_meet_spec fd maxlen rp w :
  0 < maxlen -> rl_wf (rr_rl rp) -> rr_maxlen rp = maxlen -> rr_fd rp = fd -> variants_spec fd maxlen rp w.
Proof.
  intros Hm Hwf Hmax Hfd. subst fd. split.
  - assert (wp (readline_r rp) (fun '(r, line, rp') w' =>
      exists evs, extends w w' evs /\ only (is_read (rr_fd rp)) evs /\ rl_wf (rr_rl rp') /\
        pending (rr_rl rp) ++ received (rr_fd rp) evs = line ++ pending (rr_rl rp') /\
        line_ret_r maxlen line evs r) (fun h _ => h = Blocked) w) as Hwp;
      [|unfold wp in Hwp; destruct (readline_r rp w) as [[[[r line] rp']|h] w']; exact Hwp].
    unfold readline_r. rewrite Hmax. replace (maxlen <=? 0) with false by lia.
    apply (wp_readline_r_loop _ _ _ _ maxlen); try done; [lia|set_solver|constructor|].
    intros; eauto 10.
  - assert (wp (readline1 (rr_fd rp) maxlen) (fun '(r, line) w' =>
      exists evs, extends w w' evs /\ only (is_read (rr_fd rp)) evs /\
        received (rr_fd rp) evs = line /\ line_ret maxlen line evs r)
      (fun h _ => h = Blocked) w) as Hwp;
      [|unfold wp in Hwp; destruct (readline1 _ _ w) as [[[r line]|h] w']; exact Hwp].
    unfold readline1. replace (maxlen <=? 0) with false by lia.
    apply (wp_readline1_loop _ _ _ _ maxlen); try done; [lia|set_solver|].
    intros; eauto 10.
Qed.

(** C8: [readline]: for every state of its static buffer and every way the
    kernel cuts the stream, the bytes buffered before plus the bytes read are
    the bytes returned plus the bytes still buffered (no byte is lost,
    duplicated or reordered between calls), and the return value is one of:
    the length of a line that ends in its only newline; [maxlen] with
    [maxlen - 1] bytes stored and no newline; the length of an unterminated
    last line at end of file; -1 on an error.  [readlinebuf] then gives
    exactly the bytes still buffered.  [readline_r] (server/readline_r.c) and
    the one-byte-at-a-time [readline] of test/readline1.c against the same
    specification: the slow version returns the same values and never reads
    beyond the line, while the reentrant version returns one more than the
    number of bytes stored when the stream ends without a newline. *)
Theorem readline_correct fd maxlen st rp w :
  0 < maxlen -> rl_wf st -> rl_wf (rr_rl rp) -> rr_maxlen rp = maxlen -> rr_fd rp = fd ->
  readline_spec fd maxlen st w /\ variants_spec fd maxlen rp w.
Proof. intros. split; [by apply readline_meets_spec|by apply readline_variants_meet_spec]. Qed.

(** A line across the buffer; "ab" and end of file, for which [readline_r] returns 3. *)
Theorem readline_correct_witness :
  (exists w' evs, readline 0 100 (Rl 1 1 [96; 97]) (world0 [data [98; 10; 99]; data [100]])
    = (Ret (3, [97; 98; 10], Rl 1 2 [98; 10; 99]), w') /\
    extends (world0 [data [98; 10; 99]; data [100]]) w' evs /\ line_ret 100 [97; 98; 10] evs 3) /\
  (exists w' rp' evs, readline_r (readline_rinit 7 80) (world0 [data [97; 98]; ok 0])
    = (Ret (3, [97; 98], rp'), w') /\ line_ret_r 80 [97; 98] evs 3).
Proof.
  assert (rl_wf (Rl 1 1 [96; 97])) as Hwf by (right; split; [reflexivity|by_eval]). split.
  - eexists _, _. split; [reflexivity|].
    destruct (readline_correct 0 100 (Rl 1 1 [96; 97]) (readline_rinit 0 100)
      (world0 [data [98; 10; 99]; data [100]]) ltac:(lia) Hwf rl_init_wf eq_refl eq_refl)
      as [(evs & He & _ & _ & _ & Hr & _) _].
    destruct He as (Ht & Hrest). simpl in Ht. subst evs. split; [by split|exact Hr].
  - destruct (readline_correct 7 80 rl_init (readline_rinit 7 80) (world0 [data [97; 98]; ok 0])
      ltac:(lia) rl_init_wf rl_init_wf eq_refl eq_refl) as [_ [(evs & _ & _ & _ & _ & Hr) _]].
    eexists _, _, evs. split; [reflexivity|exact Hr].
Defined.

(** ** The functions as runs *)

Lemma runs_Writen fd d (Q : unit -> list event -> Prop) (H : halt -> list event -> Prop) w :
  (forall evs, only (is_write fd) evs -> sent fd evs `prefix_of` d -> H Blocked evs) ->
  (forall evs rep, only (is_write fd) evs -> only is_report rep ->
     sent fd evs `prefix_of` d -> H (Exited 1) (evs ++ rep)) ->
  (forall evs, only (is_write fd) evs -> sent fd evs = d -> Q () evs) ->
  runs (Writen fd d) Q H w.
Proof. intros HB HE HQ. apply runs_wp, wp_Writen; eauto. Qed.

Lemma runs_readn fd n (Q : Z * list Z -> list event -> Prop) (H : halt -> list event -> Prop) w :
  0 <= n ->
  (forall evs, only (is_read fd) evs -> Z.of_nat (length (received fd evs)) < n -> H Blocked evs) ->
  (forall r got evs, only (is_read fd) evs -> received fd evs = got ->
     Z.of_nat (length got) <= n -> bytes got ->
     (r = -1 /\ last_is failed evs /\ Z.of_nat (length got) < n \/
      r = Z.of_nat (length got) /\ (r = n \/ r < n /\ last_is at_eof evs)) ->
     Q (r, got) evs) ->
  runs (readn fd n) Q H w.
Proof.
  intros Hn HB HQ. apply runs_wp, wp_readn; [done|eauto|].
  intros r got w' evs He Ho Hr Hl Hb Hc. exists evs. split; [done|]. apply HQ; try done.
  destruct Hc as [(?&?&?&?)|?]; [left|right]; done.
Qed.

Lemma runs_Readn fd n (Q : Z * list Z -> list event -> Prop) (H : halt -> list event -> Prop) w :
  0 <= n ->
  (forall evs, only (is_read fd) evs -> Z.of_nat (length (received fd evs)) < n -> H Blocked evs) ->
  (forall evs rep, only (is_read fd) evs -> Z.of_nat (length (received fd evs)) < n ->
     only is_report rep -> H (Exited 1) (evs ++ rep)) ->
  (forall got evs, only (is_read fd) evs -> received fd evs = got -> bytes got ->
     (Z.of_nat (length got) = n \/ Z.of_nat (length got) < n /\ last_is at_eof evs) ->
     Q (Z.of_nat (length got), got) evs) ->
  runs (Readn fd n) Q H w.
Proof.
  intros Hn HB HE HQ. unfold Readn. apply runs_bind, runs_readn; [done|done|].
  intros r got evs Ho Hr Hl Hb Hc w'. cbn [fst].
  destruct Hc as [(-> & _ & Hlt)|(-> & Hc)].
  - apply (runs_fatal true). intros rep Hrep. apply HE; [done|by rewrite Hr|done].
  - replace (_ <? 0) with false by lia. apply runs_ret. rewrite app_nil_r.
    apply HQ; try done.
Qed.

(** What [Readline] adds to the run, for its callers. *)
Definition line_step (fd maxlen : Z) (st : rl) (r : Z) (line : list Z) (st' : rl)
    (evs : list event) : Prop :=
  only (is_read fd) evs /\ rl_wf st' /\ pending st ++ received fd evs = line ++ pending st' /\
  bytes line /\ line_ret maxlen line evs r /\ (r = 0 -> pending st' = []).

Lemma runs_Readline fd maxlen st
    (Q : Z * list Z * rl -> list event -> Prop) (H : halt -> list event -> Prop) w :
  0 < maxlen -> rl_wf st ->
  (forall evs, only (is_read fd) evs -> H Blocked evs) ->
  (forall evs rep, only (is_read fd) evs -> only is_report rep -> H (Exited 1) (evs ++ rep)) ->
  (forall r line st' evs, 0 <= r -> line_step fd maxlen st r line st' evs -> Q (r, line, st') evs) ->
  runs (Readline fd maxlen st) Q H w.
Proof.
  intros Hm Hwf HB HE HQ. unfold Readline. apply runs_bind, runs_wp, wp_readline; [done|done|eauto|].
  intros r line st' w' evs He Ho Hwf' Hp Hb Hl _ H0. exists evs. split; [done|]. intros w2. cbn [fst].
  destruct (r <? 0) eqn:E; zbool.
  - apply (runs_fatal true). intros. by apply HE.
  - apply runs_ret. rewrite app_nil_r. apply HQ; [lia|done].
Qed.

(** Projections of events that a function cannot have made. *)
Lemma sent_reports fd evs : only is_report evs -> sent fd evs = [].
Proof. induction 1 as [|[c a] evs Hc Hevs IH]; [done|]. by destruct c. Qed.
Lemma received_reports fd evs : only is_report evs -> received fd evs = [].
Proof. induction 1 as [|[c a] evs Hc Hevs IH]; [done|]. by destruct c. Qed.

Lemma sent_other fd g evs : g <> fd -> only (is_write g) evs -> sent fd evs = [].
Proof.
  intros Hg. induction 1 as [|[c a] evs Hc Hevs IH]; [done|]. destruct c; try done.
  simpl in *. subst. by replace (g =? fd) with false by lia.
Qed.
Lemma received_other fd g evs : g <> fd -> only (is_read g) evs -> received fd evs = [].
Proof.
  intros Hg. induction 1 as [|[c a] evs Hc Hevs IH]; [done|]. destruct c; try done.
  simpl in *. subst. by replace (g =? fd) with false by lia.
Qed.

(** ** The calls they make *)

Section Makes.
Context (P : call -> Prop) (Hrep : forall c, is_report c -> P c).

Lemma makes_Writen fd d : (forall l, P (CWrite fd l)) -> makes P (Writen fd d).
Proof using Hrep. intros HP. unfold Writen, writen, writen_body. solve_makes. Qed.
Lemma makes_readn fd n : (forall n, P (CRead fd n)) -> makes P (readn fd n).
Proof using Hrep. intros HP. unfold readn, readn_body. solve_makes. Qed.
Lemma makes_Readn fd n : (forall n, P (CRead fd n)) -> makes P (Readn fd n).
Proof using Hrep. intros HP. unfold Readn. apply makes_bind; [by apply makes_readn|intros; solve_makes]. Qed.
Lemma makes_my_read fd st : (forall n, P (CRead fd n)) -> makes P (my_read fd st).
Proof using Hrep. intros HP. unfold my_read, my_read_fill. solve_makes. Qed.
Lemma makes_readline_loop todo fd n out st :
  (forall n, P (CRead fd n)) -> makes P (readline_loop todo fd n out st).
Proof using Hrep.
  intros HP. revert n out st. induction todo as [|todo IH]; intros n out st; cbn [readline_loop].
  - solve_makes.
  - apply makes_bind; [by apply makes_my_read|]. intros [[rc c] st']. solve_makes; apply IH.
Qed.
Lemma makes_Readline fd maxlen st : (forall n, P (CRead fd n)) -> makes P (Readline fd maxlen st).
Proof using Hrep.
  intros HP. unfold Readline, readline. apply makes_bind; [|intros; solve_makes].
  apply makes_if; [apply makes_halted|by apply makes_readline_loop].
Qed.
End Makes.
#[export] Hint Resolve makes_Writen makes_Readn makes_Readline : makes.
