(* ===== verification/TcpEcho.v ===== *)
(** * The TCP echo servers: lib/str_echo.c and tcpcliserv/tcpserv0*.c

    [str_echo] and its two request/response variants, lib/signal.c, the two
    SIGCHLD handlers, and the concurrent servers that fork a child for every
    connection.  A run follows one process: after [fork] it is the child when
    the answer is 0 and the parent otherwise. *)

From S2P Require Import Prelude InetPton InetNtop Unix ErrorLib Wrap ReadWrite.

Definition SOCK_STREAM : Z := 1.
Definition SOCK_DGRAM : Z := 2.
Definition INADDR_ANY : list Z := [0; 0; 0; 0].
Definition SIGALRM : Z := 14.
Definition SIGCHLD : Z := 17.
Definition SIGPIPE : Z := 13.
Definition SA_RESTART : Z := 268435456.
Definition SA_INTERRUPT : Z := 536870912.
Definition WNOHANG : Z := 1.
Definition SIG_ERR : Z := -1.

(** A zeroed [sockaddr_in] with family, port (network order) and address. *)
Definition htons (p : Z) : list Z := [Z.land (Z.shiftr p 8) 255; Z.land p 255].
Definition sockaddr_in (port : Z) (addr : list Z) : list Z :=
  [AF_INET; 0] ++ htons port ++ addr ++ replicate 8 0.

(** ** lib/signal.c *)

Definition signal (signo func : Z) : M Z :=
  let sa_flags := if signo =? SIGALRM then Z.lor 0 SA_INTERRUPT else Z.lor 0 SA_RESTART in
  a ← kernel (libc "sigaction" [signo; func; sa_flags] []);
  if a_ret a <? 0 then mret SIG_ERR else mret (a_ret a).

Definition Signal (signo func : Z) : M Z :=
  sigfunc ← signal signo func;
  if sigfunc =? SIG_ERR then err_sys (chars "signal error") else mret sigfunc.

(** ** lib/str_echo.c *)

Definition str_echo_body (sockfd : Z) (_ : unit) : M (unit + unit) :=
  a ← kernel (CRead sockfd MAXLINE);
  if 0 <? a_ret a then Writen sockfd (a_data a) ;; mret (inl ())
  else
    e ← get_errno;
    if (a_ret a <? 0) && (e =? EINTR) then mret (inl ())
    else if a_ret a <? 0 then err_sys (chars "str_echo: read error")
    else mret (inr ()).

Definition str_echo (sockfd : Z) : M unit := loop (str_echo_body sockfd) ().

(** ** tcpcliserv/str_echo08.c: lines of two numbers, answered by their sum *)

Definition LONG_MAX : Z := 9223372036854775807.
Definition LONG_MIN : Z := -9223372036854775808.

(** [scanf]'s "%ld": white space, a sign, at least one digit; the value
    saturates as [strtol] does.  The rest of the input is returned. *)
Fixpoint scan_digits (l : list Z) (acc : Z) : Z * list Z :=
  match l with
  | c :: l' => if isdigit c then scan_digits l' (acc * 10 + (c - 48)) else (acc, l)
  | [] => (acc, [])
  end.

Fixpoint skip_space (l : list Z) : list Z :=
  match l with
  | c :: l' => if isspace c then skip_space l' else l
  | [] => []
  end.

Definition scan_ld (l : list Z) : option (Z * list Z) :=
  let l := skip_space l in
  let '(neg, l) := match l with
                   | c :: l' => if c =? 45 then (true, l') else if c =? 43 then (false, l') else (false, l)
                   | [] => (false, [])
                   end in
  match l with
  | c :: _ =>
      if isdigit c then
        let '(v, rest) := scan_digits l 0 in
        Some (Z.max LONG_MIN (Z.min LONG_MAX (if neg : bool then - v else v)), rest)
      else None
  | [] => None
  end.

(** [sscanf(line, "%ld%ld", &arg1, &arg2) == 2]. *)
Definition scan_two (line : list Z) : option (Z * Z) :=
  match scan_ld line with
  | Some (arg1, rest) =>
      match scan_ld rest with
      | Some (arg2, _) => Some (arg1, arg2)
      | None => None
      end
  | None => None
  end.

(** A [long] addition: signed overflow is undefined. *)
Definition long_add (a b : Z) : option Z :=
  if (LONG_MIN <=? a + b) && (a + b <=? LONG_MAX) then Some (a + b) else None.

Definition str_echo08_body (sockfd : Z) (st : rl) : M (rl + unit) :=
  r ← Readline sockfd MAXLINE st;
  let '(n, line, st) := r in
  if n =? 0 then mret (inr ())
  else
    match scan_two (c_string line) with
    | Some (arg1, arg2) =>
        match long_add arg1 arg2 with
        | Some s => Writen sockfd (fmt_d s ++ [10]) ;; mret (inl st)
        | None => undefined
        end
    | None => Writen sockfd (chars "input error" ++ [10]) ;; mret (inl st)
    end.

Definition str_echo08 (sockfd : Z) (st : rl) : M unit := loop (str_echo08_body sockfd) st.

(** ** tcpcliserv/str_echo09.c: binary structures (sum.h)

    [struct args] is two little-endian 8-byte integers; [args] is the object
    on the stack, whose old bytes remain where [Readn] stored none. *)

Fixpoint le_val (l : list Z) : Z :=
  match l with [] => 0 | b :: l' => b + 256 * le_val l' end.
Fixpoint le_bytes (n : nat) (z : Z) : list Z :=
  match n with O => [] | S n' => z mod 256 :: le_bytes n' (z / 256) end.
Definition long_of (l : list Z) : Z :=
  let v := le_val l in if v <? 2 ^ 63 then v else v - 2 ^ 64.
Definition long_bytes (z : Z) : list Z := le_bytes 8 (z mod 2 ^ 64).

Definition SIZEOF_ARGS : Z := 16.

Definition args_sum (args : list Z) : option Z :=
  long_add (long_of (take 8 args)) (long_of (drop 8 args)).

Definition str_echo09_body (sockfd : Z) (args : list Z) : M (list Z + unit) :=
  r ← Readn sockfd SIZEOF_ARGS;
  let '(n, got) := r in
  if n =? 0 then mret (inr ())
  else
    let args := got ++ drop (length got) args in
    match args_sum args with
    | Some s => Writen sockfd (long_bytes s) ;; mret (inl args)
    | None => undefined
    end.

Definition str_echo09 (sockfd : Z) (args : list Z) : M unit := loop (str_echo09_body sockfd) args.

(** ** tcpcliserv/sigchldwait.c and sigchldwaitpid.c *)

Definition sig_chld_wait (signo : Z) : M unit :=
  a ← kernel (CWaitpid (-1) 0);
  output (CStdout (chars "child " ++ fmt_d (a_ret a) ++ chars " terminated" ++ [10])).

Definition sig_chld_waitpid (signo : Z) : M unit :=
  loop (fun _ : unit =>
    a ← kernel (CWaitpid (-1) WNOHANG);
    if 0 <? a_ret a then
      output (CStdout (chars "child " ++ fmt_d (a_ret a) ++ chars " terminated" ++ [10])) ;;
      mret (inl ())
    else mret (inr ())) ().

(** ** tcpcliserv/tcpserv01.c .. tcpserv04.c, tcpserv08.c, tcpserv09.c *)

(** The first statements of [main], the same in all of them. *)
Definition tcpserv_setup : M Z :=
  listenfd ← Socket AF_INET SOCK_STREAM 0;
  Bind listenfd (sockaddr_in SERV_PORT INADDR_ANY) ;;
  Listen listenfd LISTENQ ;;
  mret listenfd.

(** The rest of the loop after [accept]: fork, and in the child serve. *)
Definition serve (echo : Z -> M unit) (listenfd connfd : Z) : M (unit + Empty_set) :=
  childpid ← Fork;
  if childpid =? 0 then
    Close listenfd ;;
    echo connfd ;;
    exit 0
  else
    Close connfd ;;
    mret (inl ()).

(** tcpserv01.c and tcpserv02.c: the wrapper [Accept]. *)
Definition tcpserv_Accept (echo : Z -> M unit) (listenfd : Z) : M Empty_set :=
  loop (fun _ => a ← Accept listenfd; serve echo listenfd (a_ret a)) ().

(** tcpserv03.c and the others: [accept] again after a caught signal. *)
Definition tcpserv_accept_body (echo : Z -> M unit) (listenfd : Z) (_ : unit) : M (unit + Empty_set) :=
  a ← kernel (CAccept listenfd);
  if a_ret a <? 0 then
    e ← get_errno;
    if e =? EINTR then mret (inl ()) else err_sys (chars "accept error")
  else serve echo listenfd (a_ret a).

Definition tcpserv_accept (echo : Z -> M unit) (listenfd : Z) : M Empty_set :=
  loop (tcpserv_accept_body echo listenfd) ().

Definition tcpserv01 : M Empty_set :=
  listenfd ← tcpserv_setup; tcpserv_Accept str_echo listenfd.
Definition tcpserv02 (sig_chld : Z) : M Empty_set :=
  listenfd ← tcpserv_setup; Signal SIGCHLD sig_chld ;; tcpserv_Accept str_echo listenfd.
Definition tcpserv03 (sig_chld : Z) : M Empty_set :=
  listenfd ← tcpserv_setup; Signal SIGCHLD sig_chld ;; tcpserv_accept str_echo listenfd.
Definition tcpserv04 (sig_chld : Z) : M Empty_set :=
  listenfd ← tcpserv_setup; Signal SIGCHLD sig_chld ;; tcpserv_accept str_echo listenfd.
Definition tcpserv08 (sig_chld : Z) : M Empty_set :=
  listenfd ← tcpserv_setup; Signal SIGCHLD sig_chld ;;
  tcpserv_accept (fun fd => str_echo08 fd rl_init) listenfd.
Definition tcpserv09 (sig_chld : Z) (args : list Z) : M Empty_set :=
  listenfd ← tcpserv_setup; Signal SIGCHLD sig_chld ;;
  tcpserv_accept (fun fd => str_echo09 fd args) listenfd.

Example echo_run :
  let '(r, w) := str_echo 5 (world0 [data [104; 105]; ok 1; ok 1; err EINTR; ok 0]) in
  r = Ret () /\ sent 5 (trace w) = [104; 105].
Proof. split; reflexivity. Qed.
Example sum_run :
  let '(_, w) := str_echo08 5 rl_init (world0 [data (chars "12 -5" ++ [10]); ok 2; ok 0]) in
  sent 5 (trace w) = chars "7" ++ [10].
Proof. reflexivity. Qed.

(** ** str_echo *)

(** Calls that a handler of the connection [fd] makes. *)
Definition serves (fd : Z) (c : call) : Prop := is_read fd c \/ is_write fd c \/ is_report c.

Lemma only_serves fd evs :
  only (is_read fd) evs \/ only (is_write fd) evs \/ only is_report evs -> only (serves fd) evs.
Proof. unfold serves. intros [H|[H|H]]; (eapply only_mono; [|exact H]; intros; tauto). Qed.

Lemma received_cons_read fd n a evs :
  received fd ((CRead fd n, a) :: evs) = a_data a ++ received fd evs.
Proof. simpl. by rewrite Z.eqb_refl. Qed.
Lemma sent_cons_read fd g n a evs : sent fd ((CRead g n, a) :: evs) = sent fd evs.
Proof. done. Qed.

(** The echo so far: nothing invented, nothing reordered, and at most one
    buffer of [room] bytes not yet written back. *)
Definition echoing (fd room : Z) (evs : list event) : Prop :=
  sent fd evs `prefix_of` received fd evs /\
  Z.of_nat (length (received fd evs)) <= Z.of_nat (length (sent fd evs)) + room.

Lemma echoing_done fd room evs :
  0 <= room -> sent fd evs = received fd evs -> echoing fd room evs.
Proof. intros Hr Hs. unfold echoing. rewrite Hs. split; [done|lia]. Qed.

Lemma runs_str_echo_body fd w :
  runs (str_echo_body fd ())
    (fun r e => only (serves fd) e /\ sent fd e = received fd e /\ (0 < waits e)%nat /\
                (r = inr () -> last_is at_eof e))
    (fun h e => (h = Blocked \/ h = Exited 1) /\ only (serves fd) e /\ echoing fd MAXLINE e) w.
Proof.
  unfold str_echo_body.
  apply runs_call; [done|split; [auto|split; [done|by apply echoing_done]]|].
  intros a w1. cbv zeta. intros _.
  pose proof (normalise_read fd MAXLINE a ltac:(done)) as Hn. cbv zeta in Hn.
  set (x := normalise (CRead fd MAXLINE) a) in *.
  assert (serves fd (CRead fd MAXLINE)) as Hsr by (left; done).
  destruct (0 <? a_ret x) eqn:E; zbool.
  - destruct Hn as [[]|(Hle & Hl & Hb)]; [lia|].
    apply runs_bind, runs_Writen.
    + intros e Ho Hp. split; [auto|]. split; [constructor; [done|by apply only_serves; auto]|].
      unfold echoing. rewrite sent_cons_read, received_cons_read, (received_writes _ _ e Ho), app_nil_r.
      split; [done|]. unfold MAXLINE in *. lia.
    + intros e rep Ho Hr Hp. split; [auto|].
      split; [constructor; [done|]; apply only_app; split; apply only_serves; auto|].
      unfold echoing. rewrite sent_cons_read, received_cons_read, sent_app, received_app,
        (received_writes _ _ e Ho), (received_reports _ rep Hr), (sent_reports _ rep Hr), !app_nil_r.
      split; [done|]. unfold MAXLINE in *. lia.
    + intros e Ho Hs w2. apply runs_ret. rewrite app_nil_r.
      rewrite sent_cons_read, received_cons_read, (received_writes _ _ e Ho), app_nil_r.
      split_and!; try done; [|simpl; lia]. constructor; [done|by apply only_serves; auto].
  - assert (a_data x = []) as Hd.
    { destruct Hn as [[]|(? & Hl & _)]; [done|]. destruct (a_data x); [done|simpl in Hl; lia]. }
    apply runs_get_errno. destruct (_ && _) eqn:E1; [|destruct (a_ret x <? 0) eqn:E2; zbool].
    + apply runs_ret. rewrite sent_cons_read, received_cons_read, Hd.
      split_and!; try done; [by repeat constructor|simpl; lia].
    + apply runs_err_sys. intros rep Hr. split; [auto|].
      split; [constructor; [done|by apply only_serves; auto]|].
      apply echoing_done; [done|].
      by rewrite sent_cons_read, received_cons_read, Hd, (sent_reports _ rep Hr), (received_reports _ rep Hr).
    + apply runs_ret. rewrite sent_cons_read, received_cons_read, Hd.
      split_and!; try done; [by repeat constructor|simpl; lia|]. intros _.
      apply (last_is_app _ []). unfold at_eof. lia.
Qed.

Lemma runs_str_echo fd w :
  runs (str_echo fd)
    (fun _ e => only (serves fd) e /\ sent fd e = received fd e /\ last_is at_eof e)
    (fun h e => (h = Blocked \/ h = Exited 1) /\ only (serves fd) e /\ echoing fd MAXLINE e) w.
Proof.
  apply (runs_loop _ (fun _ e => only (serves fd) e /\ sent fd e = received fd e)); [done|].
  intros [] evs w1 (Ho & Hs). eapply runs_mono; [apply runs_str_echo_body|..]; simpl.
  - intros [[]|[]] e (Ho' & Hs' & Hw & Hl); autorewrite with world;
      rewrite only_app, Hs, Hs'; split_and!; auto using last_is_prepend.
  - intros h e (Hh & Ho' & Hp & Hlen). split; [done|]. rewrite only_app. split; [done|].
    unfold echoing. autorewrite with world. rewrite Hs, !length_app. split; [|lia].
    by apply prefix_app.
Qed.

(** ** The two sum servers *)

(** A chunk that [readline] returns: a line that fits, a full buffer without
    newline, or the bytes before an end of file. *)
Definition chunk (maxlen : Z) (l : list Z) : Prop :=
  (exists l', l = l' ++ [10] /\ (10 ∉ l') /\ Z.of_nat (length l) < maxlen) \/
  ((10 ∉ l) /\ l <> [] /\ Z.of_nat (length l) <= maxlen - 1).

(** The answer to a line, [None] when the sum overflows. *)
Definition reply08 (line : list Z) : option (list Z) :=
  match scan_two (c_string line) with
  | Some (a, b) => s ← long_add a b; Some (fmt_d s ++ [10])
  | None => Some (chars "input error" ++ [10])
  end.

Lemma line_ret_chunk maxlen line evs r :
  1 < maxlen -> line_ret maxlen line evs r -> 0 <= r ->
  (r = 0 /\ line = []) \/ (r <> 0 /\ chunk maxlen line).
Proof.
  intros Hm Hr H0.
  inversion Hr as [l Hl Hn Hlen|Hn Hlen|Hn Hlen He|Hn Hlen He]; subst; simpl in *; [..|lia].
  - right. rewrite length_app in *. simpl in *. split; [lia|]. left. exists l.
    rewrite length_app. done.
  - right. split; [lia|]. right. split; [done|]. split; [|lia]. intros ->. simpl in *. lia.
  - destruct line as [|c line]; [by left|]. right. split; [simpl; lia|]. right. split; [done|].
    split; [done|]. lia.
Qed.

(** The answers given so far: all of [replies] but the last may be cut. *)
Definition answered (fd : Z) (replies : list (list Z)) (evs : list event) : Prop :=
  sent fd evs = concat replies.

(** What is known whenever the loop of [str_echo08] starts a line. *)
Definition inv08 (fd : Z) (st0 st : rl) (evs : list event) : Prop :=
  exists lines replies,
    rl_wf st /\ only (serves fd) evs /\
    pending st0 ++ received fd evs = concat lines ++ pending st /\
    Forall (chunk MAXLINE) lines /\ mapM reply08 lines = Some replies /\
    sent fd evs = concat replies.

Lemma mapM_snoc {A B} (f : A -> option B) l x ys y :
  mapM f l = Some ys -> f x = Some y -> mapM f (l ++ [x]) = Some (ys ++ [y]).
Proof.
  revert ys. induction l as [|z l IH]; intros ys; simpl.
  - intros [= <-] ->. done.
  - destruct (f z) as [b|]; [|done]. simpl. destruct (mapM f l) as [ys'|]; [|done].
    intros [= <-] Hx. simpl. by rewrite (IH _ eq_refl Hx).
Qed.

(** The received bytes are cut into chunks, in order; every chunk but the
    last was answered in full, and the last answer may be cut short. *)
Definition partly08 (fd : Z) (st0 : rl) (evs : list event) : Prop :=
  exists (lines replies : list (list Z)) (rest : list Z),
    pending st0 ++ received fd evs = concat lines ++ rest /\
    Forall (chunk MAXLINE) lines /\ mapM reply08 lines = Some replies /\
    sent fd evs `prefix_of` concat replies.

Lemma inv08_partly fd st0 st evs e :
  inv08 fd st0 st evs -> only (is_read fd) e \/ only is_report e ->
  partly08 fd st0 (evs ++ e).
Proof.
  intros (lines & replies & _ & _ & Hr & Hc & Hm & Hs) He.
  exists lines, replies, (pending st ++ received fd e). autorewrite with world.
  rewrite app_assoc, Hr, <- app_assoc. split_and!; try done.
  rewrite Hs. destruct He as [He|He]; [rewrite (sent_reads _ _ _ He)|rewrite (sent_reports _ _ He)];
    by rewrite app_nil_r.
Qed.

(** Stopped by an addition that overflows: the line that caused it is the
    last one taken. *)
Definition overflow08 (fd : Z) (st0 : rl) (evs : list event) : Prop :=
  exists (lines : list (list Z)) (line rest : list Z),
    pending st0 ++ received fd evs = concat lines ++ line ++ rest /\
    Forall (chunk MAXLINE) lines /\ reply08 line = None.

Definition halted08 (fd : Z) (st0 : rl) (h : halt) (evs : list event) : Prop :=
  (h = Blocked \/ h = Exited 1) /\ partly08 fd st0 evs \/ h = Undefined /\ overflow08 fd st0 evs.

Lemma writes_wait fd evs :
  only (is_write fd) evs -> sent fd evs <> [] -> (0 < waits evs)%nat.
Proof. destruct 1 as [|[c a] evs Hc Hevs]; [done|]. intros _. destruct c; try done. simpl. lia. Qed.

Lemma reply08_not_nil line r : reply08 line = Some r -> r <> [].
Proof.
  unfold reply08. destruct (scan_two _) as [[a b]|]; [|by intros [= <-]].
  destruct (long_add a b) as [z|]; [|done]. cbn. intros [= <-].
  generalize (fmt_d z) as l. by intros [].
Qed.

(** Writing one answer. *)
Lemma runs_reply08 fd st0 st lines replies line e0 st' reply w :
  Forall (chunk MAXLINE) (lines ++ [line]) -> mapM reply08 lines = Some replies ->
  pending st0 ++ received fd e0 = concat (lines ++ [line]) ++ pending st' ->
  sent fd e0 = concat replies -> only (serves fd) e0 -> rl_wf st' ->
  reply08 line = Some reply ->
  runs (Writen fd reply ;; mret (A := rl + unit) (inl st'))
    (fun r e => match r with
                | inl st' => (0 < waits e)%nat /\ inv08 fd st0 st' (e0 ++ e)
                | inr _ => inv08 fd st0 st (e0 ++ e)
                end)
    (fun h e => halted08 fd st0 h (e0 ++ e)) w.
Proof.
  intros Hc Hm Hp Hs Ho Hwf Hr.
  assert (mapM reply08 (lines ++ [line]) = Some (replies ++ [reply])) as Hm'
    by (by apply mapM_snoc).
  apply runs_bind, runs_Writen.
  - intros e He Hpre. left. split; [auto|].
    exists (lines ++ [line]), (replies ++ [reply]), (pending st').
    autorewrite with world. rewrite (received_writes _ _ e He), app_nil_r, Hs, (concat_app replies). simpl.
    rewrite app_nil_r. split_and!; try done. by apply prefix_app.
  - intros e rep He Hrep Hpre. left. split; [auto|].
    exists (lines ++ [line]), (replies ++ [reply]), (pending st').
    autorewrite with world. rewrite (received_writes _ _ e He), (received_reports _ rep Hrep),
      (sent_reports _ rep Hrep), !app_nil_r, Hs, (concat_app replies). simpl.
    rewrite app_nil_r. split_and!; try done. by apply prefix_app.
  - intros e He Hse w1. apply runs_ret. rewrite app_nil_r. split.
    + eapply writes_wait; [exact He|]. rewrite Hse. by eapply reply08_not_nil.
    + exists (lines ++ [line]), (replies ++ [reply]). autorewrite with world.
      rewrite (received_writes _ _ e He), app_nil_r, Hs, Hse, (concat_app replies). simpl.
      rewrite app_nil_r, only_app. split_and!; try done. by apply only_serves; auto.
Qed.

Lemma runs_str_echo08_body fd st0 st evs w :
  inv08 fd st0 st evs ->
  runs (str_echo08_body fd st)
    (fun r e => match r with
                | inl st' => (0 < waits e)%nat /\ inv08 fd st0 st' (evs ++ e)
                | inr _ => inv08 fd st0 rl_init (evs ++ e)
                end)
    (fun h e => halted08 fd st0 h (evs ++ e)) w.
Proof.
  intros Hinv. unfold str_echo08_body.
  pose proof Hinv as (lines & replies & Hwf & Ho & Hp & Hc & Hm & Hs).
  apply runs_bind, runs_Readline; [done|done|..].
  - intros e He. left. split; [auto|]. eapply inv08_partly; eauto.
  - intros e rep He Hr. left. split; [auto|].
    destruct (inv08_partly _ _ _ _ e Hinv (or_introl He)) as (l & rs & rest & H1 & H2 & H3 & H4).
    exists l, rs, rest. rewrite app_assoc, received_app, sent_app, (received_reports _ rep Hr),
      (sent_reports _ rep Hr), !app_nil_r. done.
  - intros r line st' e Hr0 (He & Hwf' & Hpe & Hb & Hl & Hr00) w1.
    assert (only (serves fd) (evs ++ e)) as Ho'
      by (apply only_app; split; [done|apply only_serves; auto]).
    assert (sent fd (evs ++ e) = concat replies) as Hs'
      by (rewrite sent_app, (sent_reads _ _ _ He), app_nil_r; done).
    assert (pending st0 ++ received fd (evs ++ e) = concat lines ++ line ++ pending st') as Hp'
      by (rewrite received_app, app_assoc, Hp, <- app_assoc, Hpe; done).
    destruct (line_ret_chunk MAXLINE line e r ltac:(done) Hl Hr0) as [[-> ->]|[Hne Hch]].
    + apply runs_ret. rewrite app_nil_r. exists lines, replies.
      rewrite Hp', (Hr00 eq_refl), !app_nil_r. split_and!; try done. apply rl_init_wf.
    + replace (r =? 0) with false by lia.
      assert (concat lines ++ line ++ pending st' = concat (lines ++ [line]) ++ pending st') as Hcat
        by (rewrite concat_app; simpl; by rewrite app_nil_r, <- app_assoc).
      assert (Forall (chunk MAXLINE) (lines ++ [line])) as Hc' by (apply Forall_app; auto).
      assert (forall reply, reply08 line = Some reply ->
        runs (Writen fd reply ;; mret (A := rl + unit) (inl st'))
          (fun r0 e0 => match r0 with
             | inl st'0 => (0 < waits (e ++ e0))%nat /\ inv08 fd st0 st'0 (evs ++ e ++ e0)
             | inr _ => inv08 fd st0 rl_init (evs ++ e ++ e0) end)
          (fun h e0 => halted08 fd st0 h (evs ++ e ++ e0)) w1) as Hreply.
      { intros reply Hrep. eapply runs_mono.
        - eapply (runs_reply08 fd st0 rl_init lines replies line (evs ++ e)); try done.
          by rewrite Hp', Hcat.
        - intros [x|x] e0; cbn beta iota; rewrite <- app_assoc, ?waits_app; [|done].
          intros [? ?]; split; [lia|done].
        - intros h e0. cbn beta. by rewrite <- app_assoc. }
      unfold reply08 in Hreply. destruct (scan_two (c_string line)) as [[a b]|] eqn:Escan.
      * destruct (long_add a b) as [z|] eqn:Eadd; [by apply Hreply|].
        apply runs_halted. right. split; [done|]. rewrite app_nil_r.
        exists lines, line, (pending st'). split; [done|]. split; [done|].
        unfold reply08. by rewrite Escan, Eadd.
      * by apply Hreply.
Qed.

(** The answers to a sequence of records, with the object [args] that keeps
    the old bytes where a short record stores none. *)
Fixpoint run09 (args : list Z) (recs : list (list Z)) : option (list (list Z) * list Z) :=
  match recs with
  | [] => Some ([], args)
  | c :: cs =>
      let args := c ++ drop (length c) args in
      match args_sum args with
      | None => None
      | Some s =>
          match run09 args cs with
          | None => None
          | Some (rs, args) => Some (long_bytes s :: rs, args)
          end
      end
  end.

Lemma run09_snoc args recs rs args1 c s :
  run09 args recs = Some (rs, args1) ->
  args_sum (c ++ drop (length c) args1) = Some s ->
  run09 args (recs ++ [c]) = Some (rs ++ [long_bytes s], c ++ drop (length c) args1).
Proof.
  revert args rs. induction recs as [|r recs IH]; intros args rs; cbn [run09 app]; cbv zeta.
  - intros [= <- <-] ->. done.
  - destruct (args_sum (r ++ _)) as [s1|]; [|done].
    destruct (run09 _ recs) as [[rs1 args2]|] eqn:E; [|done]. intros [= <- <-] Hs.
    by rewrite (IH _ _ E Hs).
Qed.

Definition record (l : list Z) : Prop := l <> [] /\ Z.of_nat (length l) <= SIZEOF_ARGS.

Definition inv09 (fd : Z) (args0 args : list Z) (evs : list event) : Prop :=
  exists recs replies,
    only (serves fd) evs /\ received fd evs = concat recs /\ Forall record recs /\
    run09 args0 recs = Some (replies, args) /\ sent fd evs = concat replies.

(** As [partly08] and [overflow08]; [rest] is a record being read. *)
Definition halted09 (fd : Z) (args0 : list Z) (h : halt) (evs : list event) : Prop :=
  exists (recs replies : list (list Z)) (args rest : list Z),
    received fd evs = concat recs ++ rest /\ Forall record recs /\
    ((h = Blocked \/ h = Exited 1) /\ run09 args0 recs = Some (replies, args) /\
       sent fd evs `prefix_of` concat replies \/
     h = Undefined /\ rest = [] /\ run09 args0 recs = None).

Lemma run09_overflow args recs rs args1 c :
  run09 args recs = Some (rs, args1) -> args_sum (c ++ drop (length c) args1) = None ->
  run09 args (recs ++ [c]) = None.
Proof.
  revert args rs. induction recs as [|r recs IH]; intros args rs; cbn [run09 app]; cbv zeta.
  - intros [= <- <-] ->. done.
  - destruct (args_sum (r ++ _)) as [s1|]; [|done].
    destruct (run09 _ recs) as [[rs1 args2]|] eqn:E; [|done]. intros [= <- <-] Hs.
    by rewrite (IH _ _ E Hs).
Qed.

Lemma long_bytes_not_nil s : long_bytes s <> [].
Proof. unfold long_bytes. cbn [le_bytes]. done. Qed.

Lemma runs_reply09 fd args0 recs replies c args1 s e0 w :
  Forall record (recs ++ [c]) -> only (serves fd) e0 ->
  run09 args0 (recs ++ [c]) = Some (replies ++ [long_bytes s], args1) ->
  received fd e0 = concat (recs ++ [c]) -> sent fd e0 = concat replies ->
  runs (Writen fd (long_bytes s) ;; mret (A := list Z + unit) (inl args1))
    (fun r e => match r with
                | inl args => (0 < waits e)%nat /\ inv09 fd args0 args (e0 ++ e)
                | inr _ => False
                end)
    (fun h e => halted09 fd args0 h (e0 ++ e)) w.
Proof.
  intros Hrec Ho Hrun Hr Hs.
  apply runs_bind, runs_Writen.
  - intros e He Hpre. exists (recs ++ [c]), (replies ++ [long_bytes s]), args1, [].
    autorewrite with world. rewrite (received_writes _ _ e He), Hs, Hr, (concat_app replies).
    split; [done|]. split; [done|]. left. split_and!; auto.
    rewrite concat_cons, app_nil_r. by apply prefix_app.
  - intros e rep He Hrep Hpre. exists (recs ++ [c]), (replies ++ [long_bytes s]), args1, [].
    autorewrite with world. rewrite (received_writes _ _ e He), (received_reports _ _ Hrep),
      (sent_reports _ _ Hrep), Hs, Hr, (concat_app replies).
    split; [done|]. split; [done|]. left. split_and!; auto.
    rewrite concat_cons, !app_nil_r. by apply prefix_app.
  - intros e He Hse w1. apply runs_ret. rewrite app_nil_r. split.
    + eapply writes_wait; [exact He|]. rewrite Hse. apply long_bytes_not_nil.
    + exists (recs ++ [c]), (replies ++ [long_bytes s]). autorewrite with world.
      rewrite (received_writes _ _ e He), Hs, Hse, Hr, (concat_app replies), concat_cons, !app_nil_r,
        only_app.
      split_and!; try done. by apply only_serves; auto.
Qed.

Lemma runs_str_echo09_body fd args0 args evs w :
  inv09 fd args0 args evs ->
  runs (str_echo09_body fd args)
    (fun r e => match r with
                | inl args' => (0 < waits e)%nat /\ inv09 fd args0 args' (evs ++ e)
                | inr _ => inv09 fd args0 args (evs ++ e)
                end)
    (fun h e => halted09 fd args0 h (evs ++ e)) w.
Proof.
  intros (recs & replies & Ho & Hr & Hc & Hrun & Hs). unfold str_echo09_body.
  assert (forall h e, (h = Blocked \/ h = Exited 1) -> sent fd e = [] ->
            halted09 fd args0 h (evs ++ e)) as Hhalt.
  { intros h e Hh He. exists recs, replies, args, (received fd e).
    autorewrite with world. rewrite Hr, Hs, He, app_nil_r.
    split; [done|]. split; [done|]. left. auto. }
  apply runs_bind, runs_Readn; [done|..].
  - intros e He _. apply Hhalt; [auto|by eapply sent_reads].
  - intros e rep He _ Hrep. apply Hhalt; [auto|].
    by rewrite sent_app, (sent_reads _ _ _ He), (sent_reports _ _ Hrep).
  - intros got e He Hg Hb Hlen w1.
    assert (only (serves fd) (evs ++ e)) as Ho'
      by (apply only_app; split; [done|apply only_serves; auto]).
    assert (sent fd (evs ++ e) = concat replies) as Hs'
      by (rewrite sent_app, (sent_reads _ _ _ He), app_nil_r; done).
    destruct (decide (got = [])) as [->|Hne].
    + apply runs_ret. rewrite app_nil_r. exists recs, replies.
      rewrite received_app, Hg, app_nil_r. done.
    + assert (length got <> 0)%nat by (by destruct got).
      replace (Z.of_nat (length got) =? 0) with false by lia.
      assert (record got) as Hrec by (split; [done|lia]).
      assert (Forall record (recs ++ [got])) as Hrecs by (apply Forall_app; auto).
      assert (received fd (evs ++ e) = concat (recs ++ [got])) as Hr'
        by (rewrite received_app, Hr, Hg, concat_app; simpl; by rewrite app_nil_r).
      destruct (args_sum (got ++ drop (length got) args)) as [s|] eqn:Es.
      * eapply runs_mono.
        -- eapply (runs_reply09 fd args0 recs replies got _ s (evs ++ e)); try done.
           by apply run09_snoc.
        -- intros [x|x] e0; cbn beta iota; [|done].
           rewrite <- app_assoc, waits_app. intros [? ?]; split; [lia|done].
        -- intros h e0. cbn beta. by rewrite <- app_assoc.
      * apply runs_halted. rewrite app_nil_r. exists (recs ++ [got]), replies, args, [].
        rewrite Hr', app_nil_r. split_and!; try done. right.
        split_and!; try done. by eapply run09_overflow.
Qed.

(** ** The forking servers *)

Lemma Signal_wraps signo func :
  wraps (Signal signo func)
    (libc "sigaction" [signo; func; if signo =? SIGALRM then SA_INTERRUPT else SA_RESTART] [])
    succeeded a_ret true (chars "signal error") unix_code.
Proof.
  eapply wraps_ext; cycle 1.
  - eapply (wraps_test _ minus_one); [reflexivity|eauto with wrap|eauto with wrap].
  - intros w. unfold Signal, signal, mbind, M_bind.
    replace (if signo =? SIGALRM then Z.lor 0 SA_INTERRUPT else Z.lor 0 SA_RESTART)
      with (if signo =? SIGALRM then SA_INTERRUPT else SA_RESTART) by (by destruct (_ =? _)).
    unfold kernel. destruct (script w) as [|a0 rest]; [done|].
    set (a := normalise _ a0). pose proof (normalise_ret (libc "sigaction"
      [signo; func; if signo =? SIGALRM then SA_INTERRUPT else SA_RESTART] []) a0) as Hn.
    fold a in Hn. unfold minus_one, SIG_ERR. destruct (a_ret a <? 0) eqn:E; zbool.
    + replace (a_ret a) with (-1) by lia. done.
    + replace (a_ret a =? -1) with false by lia. cbn. by replace (a_ret a =? -1) with false by lia.
Qed.

(** The descriptors of the connections accepted, and those closed. *)
Fixpoint accepted (evs : list event) : list Z :=
  match evs with
  | [] => []
  | (CAccept _, a) :: evs' => if a_ret a <? 0 then accepted evs' else a_ret a :: accepted evs'
  | _ :: evs' => accepted evs'
  end.
Fixpoint closed (evs : list event) : list Z :=
  match evs with
  | [] => []
  | (CClose fd, _) :: evs' => fd :: closed evs'
  | _ :: evs' => closed evs'
  end.
(** No [fork] returned 0: the process is still the parent. *)
Definition is_parent (evs : list event) : Prop :=
  Forall (fun e => fst e = CFork -> a_ret (snd e) <> 0) evs.

Lemma accepted_app a b : accepted (a ++ b) = accepted a ++ accepted b.
Proof. induction a as [|[c x] a IH]; [done|]. destruct c; simpl; rewrite ?IH; try done. by destruct (_ <? 0). Qed.
Lemma closed_app a b : closed (a ++ b) = closed a ++ closed b.
Proof. induction a as [|[c x] a IH]; [done|]. destruct c; simpl; by rewrite ?IH. Qed.
Lemma is_parent_app a b : is_parent (a ++ b) <-> is_parent a /\ is_parent b.
Proof. apply Forall_app. Qed.

(** Events that concern neither connections nor processes. *)
Definition neutral (c : call) : Prop :=
  match c with CAccept _ | CClose _ | CFork => False | _ => True end.

Lemma neutral_events evs :
  only neutral evs -> accepted evs = [] /\ closed evs = [] /\ is_parent evs.
Proof.
  induction 1 as [|[c a] evs Hc Hevs (IH1 & IH2 & IH3)]; [by repeat constructor|].
  destruct c; try done; simpl; (split; [done|split; [done|by constructor]]).
Qed.
Lemma reports_neutral evs : only is_report evs -> only neutral evs.
Proof. apply only_mono. by intros []. Qed.

Lemma aborted_events fd evs :
  Forall (aborted fd) evs -> accepted evs = [] /\ closed evs = [] /\ is_parent evs.
Proof.
  induction 1 as [|[c a] evs (Hc & Hr & _) Hevs (IH1 & IH2 & IH3)]; [by repeat constructor|].
  simpl in *. subst c. rewrite Hr. simpl. split; [done|split; [done|by constructor]].
Qed.

(** The [serve] step and the two loops, for any handler [echo] of a
    connection that keeps to its descriptor. *)
Section Forking.
Context (echo : Z -> M unit) (Done Part : Z -> list event -> Prop).
Context (echo_spec : forall fd w,
  runs (echo fd) (fun _ e => only (serves fd) e /\ Done fd e)
    (fun h e => h <> Exited 0 /\ only (serves fd) e /\ Part fd e) w).

(** How a process of the server ends: the parent holds at most one
    connection, the others are closed; a child has closed the listening
    socket and then done nothing but serve its own connection, to the end
    when it exits with status 0. *)
Inductive server_end (listenfd : Z) (h : halt) (evs : list event) : Prop :=
| Parent_end rest :
    h <> Exited 0 -> is_parent evs -> accepted evs = closed evs ++ rest ->
    (length rest <= 1)%nat -> server_end listenfd h evs
| Child_end pre conn f post :
    evs = pre ++ (CFork, f) :: post -> a_ret f = 0 -> is_parent pre ->
    accepted pre = closed pre ++ [conn] ->
    ((h <> Exited 0 /\ only (fun c => c = CClose listenfd \/ is_report c) post) \/
     exists x e, post = (CClose listenfd, x) :: e /\ only (serves conn) e /\
       (h = Exited 0 /\ Done conn e \/ h <> Exited 0 /\ Part conn e)) ->
    server_end listenfd h evs.

Lemma normalise_ret0 c a : a_ret (normalise c a) = -1 \/ 0 <= a_ret (normalise c a).
Proof. pose proof (normalise_ret c a). lia. Qed.

(** [evs] are the events up to an accepted connection. *)
Lemma runs_serve listenfd conn evs w :
  is_parent evs -> accepted evs = closed evs ++ [conn] ->
  runs (serve echo listenfd conn)
    (fun r e => match r with
       | inl _ => (0 < waits e)%nat /\ is_parent (evs ++ e) /\ accepted (evs ++ e) = closed (evs ++ e)
       | inr _ => False
       end)
    (fun h e => server_end listenfd h (evs ++ e)) w.
Proof using echo_spec.
  intros Hp Ha. unfold serve.
  assert (forall h e, h <> Exited 0 -> is_parent e -> accepted e = [] -> closed e = [] ->
    server_end listenfd h (evs ++ e)) as Hpar.
  { intros h e Hh Hpe Hae Hce. apply (Parent_end _ _ _ [conn]); [done|by apply is_parent_app| |simpl; lia].
    by rewrite accepted_app, closed_app, Hae, Hce, !app_nil_r. }
  eapply runs_wraps; [apply Fork_wraps| | |].
  - apply Hpar; try done. constructor.
  - intros a rep Hbad Hrep. destruct (neutral_events rep (reports_neutral _ Hrep)) as (H1 & H2 & H3).
    apply Hpar; [done| |done|done]. constructor; [|done]. intros _. unfold succeeded in Hbad. simpl. lia.
  - intros a w1 Hg. set (f := normalise CFork a) in *. destruct (a_ret f =? 0) eqn:E; zbool.
    + eapply runs_wraps; [apply Close_wraps| | |].
      * apply (Child_end _ _ _ evs conn f []); try done. left. split; [done|constructor].
      * intros x rep _ Hrep. eapply (Child_end _ _ _ evs conn f); try done. left. split; [done|].
        constructor; [by left|]. refine (only_mono is_report (fun c => c = CClose listenfd \/ is_report c) _ _ Hrep). by right.
      * intros x w2 _. apply runs_bind. eapply runs_mono; [apply echo_spec| |].
        -- intros [] e [Ho Hd] w3. apply runs_halted. rewrite app_nil_r.
           eapply (Child_end _ _ _ evs conn f); try done. right. eexists _, e. by eauto.
        -- intros h e (Hh & Ho & Hpart).
           eapply (Child_end _ _ _ evs conn f); try done. right. eexists _, e. by eauto.
    + eapply runs_wraps; [apply Close_wraps| | |].
      * apply Hpar; try done. by repeat constructor.
      * intros x rep _ Hrep. destruct (neutral_events rep (reports_neutral _ Hrep)) as (H1 & H2 & H3).
        apply (Parent_end _ _ _ []); [done| | |simpl; lia].
        -- apply is_parent_app. split; [done|]. constructor; [done|]. by constructor.
        -- rewrite accepted_app, closed_app, Ha. simpl. by rewrite H1, H2, !app_nil_r.
      * intros x w2 _. apply runs_ret. split; [simpl; lia|]. split.
        -- apply is_parent_app. split; [done|]. by repeat constructor.
        -- rewrite accepted_app, closed_app, Ha. simpl. by rewrite !app_nil_r.
Qed.

Definition parent_inv (evs : list event) : Prop := is_parent evs /\ accepted evs = closed evs.

Lemma parent_blocked listenfd h evs e :
  parent_inv evs -> h <> Exited 0 -> accepted e = [] -> closed e = [] -> is_parent e ->
  server_end listenfd h (evs ++ e).
Proof.
  intros [Hp Ha] Hh H1 H2 H3. apply (Parent_end _ _ _ []); [done|by apply is_parent_app| |simpl; lia].
  by rewrite accepted_app, closed_app, Ha, H1, H2, !app_nil_r.
Qed.

Lemma runs_serve_after listenfd evs e a w :
  parent_inv evs -> accepted e = [] -> closed e = [] -> is_parent e -> 0 <= a_ret a ->
  runs (serve echo listenfd (a_ret a))
    (fun r e2 => match r with
       | inl _ => (0 < waits ((e ++ [(CAccept listenfd, a)]) ++ e2))%nat /\
                  parent_inv (evs ++ (e ++ [(CAccept listenfd, a)]) ++ e2)
       | inr _ => False
       end)
    (fun h e2 => server_end listenfd h (evs ++ (e ++ [(CAccept listenfd, a)]) ++ e2)) w.
Proof using echo_spec.
  intros [Hp Ha] H1 H2 H3 H0. eapply runs_mono.
  - apply (runs_serve listenfd (a_ret a) (evs ++ (e ++ [(CAccept listenfd, a)]))).
    + rewrite !is_parent_app. split_and!; try done. by repeat constructor.
    + rewrite !accepted_app, !closed_app, Ha, H1, H2. simpl.
      replace (a_ret a <? 0) with false by lia. by rewrite app_nil_r.
  - intros [[]|[]] e2 (Hw & Hpe & Hae). rewrite !waits_app in *. split; [lia|].
    unfold parent_inv. by rewrite <- app_assoc in Hpe, Hae.
  - intros h e2. cbn beta. by rewrite <- app_assoc.
Qed.

Lemma runs_tcpserv_Accept listenfd evs0 w :
  parent_inv evs0 ->
  runs (tcpserv_Accept echo listenfd) (fun _ _ => False)
    (fun h e => server_end listenfd h (evs0 ++ e)) w.
Proof using echo_spec.
  intros H0. apply (runs_loop _ (fun _ e => parent_inv (evs0 ++ e))); [by rewrite app_nil_r|].
  intros [] evs w1 Hinv. apply runs_bind, runs_Accept.
  - intros e He. destruct (aborted_events _ _ He) as (?&?&?). rewrite app_assoc. by apply parent_blocked.
  - intros a e rep He Hr Hrep. destruct (aborted_events _ _ He) as (H1&H2&H3).
    destruct (neutral_events rep (reports_neutral _ Hrep)) as (H4 & H5 & H6).
    rewrite app_assoc. apply parent_blocked; try done.
    + rewrite !accepted_app, H1, H4. simpl. by rewrite Hr.
    + by rewrite !closed_app, H2, H5.
    + rewrite !is_parent_app. split_and!; try done. by repeat constructor.
  - intros a e He Hr w2. destruct (aborted_events _ _ He) as (H1&H2&H3).
    eapply runs_mono; [apply (runs_serve_after listenfd (evs0 ++ evs) e a); done| |].
    + intros [[]|[]] e2 [Hw Hi]. split; [done|]. by rewrite <- app_assoc in Hi.
    + intros h e2. cbn beta. by rewrite <- app_assoc.
Qed.

Lemma runs_tcpserv_accept listenfd evs0 w :
  parent_inv evs0 ->
  runs (tcpserv_accept echo listenfd) (fun _ _ => False)
    (fun h e => server_end listenfd h (evs0 ++ e)) w.
Proof using echo_spec.
  intros H0. apply (runs_loop _ (fun _ e => parent_inv (evs0 ++ e))); [by rewrite app_nil_r|].
  intros [] evs w1 Hinv. unfold tcpserv_accept_body.
  apply runs_call; [done|rewrite app_assoc; apply parent_blocked; try done; constructor|].
  intros a w2. cbv zeta. intros _. set (x := normalise (CAccept listenfd) a).
  destruct (a_ret x <? 0) eqn:E; zbool.
  - assert (accepted [(CAccept listenfd, x)] = []) as H1
      by (simpl; by replace (a_ret x <? 0) with true by lia).
    apply runs_get_errno. destruct (_ =? _).
    + apply runs_ret. split; [simpl; lia|]. destruct Hinv as [Hp Ha]. split.
      * rewrite app_assoc. apply is_parent_app. split; [done|]. by repeat constructor.
      * rewrite app_assoc, accepted_app, closed_app, Ha. f_equal. exact H1.
    + apply runs_err_sys. intros rep Hrep.
      destruct (neutral_events rep (reports_neutral _ Hrep)) as (H4 & H5 & H6).
      rewrite app_assoc. apply parent_blocked; try done.
      * simpl. by replace (a_ret x <? 0) with true by lia.
      * by constructor.
  - eapply runs_mono; [apply (runs_serve_after listenfd (evs0 ++ evs) [] x); try done; constructor| |].
    + intros [[]|[]] e2 [Hw Hi]. split; [done|]. by rewrite <- app_assoc in Hi.
    + intros h e2. cbn beta. by rewrite <- app_assoc.
Qed.
End Forking.

(** The calls of [tcpserv_setup]: a listening TCP socket on SERV_PORT. *)
Definition setup_events (l : Z) (evs : list event) : Prop :=
  exists a1 a2 a3 a4 backlog,
    evs = [(CSocket AF_INET SOCK_STREAM 0, a1);
           (CBind l (sockaddr_in SERV_PORT INADDR_ANY), a2);
           (libc "getenv" [] (chars "LISTENQ"), a3);
           (CListen l backlog, a4)] /\
    l = a_ret a1 /\ 0 <= l.

Lemma setup_neutral l evs : setup_events l evs -> only neutral evs.
Proof. intros (a1 & a2 & a3 & a4 & b & -> & _). by repeat constructor. Qed.

Lemma runs_tcpserv_setup w :
  runs tcpserv_setup setup_events (fun h e => (h = Blocked \/ h = Exited 1) /\ only neutral e) w.
Proof.
  unfold tcpserv_setup.
  eapply runs_wraps; [apply Socket_wraps|split; [by left|constructor]| |].
  { intros a rep _ Hrep. split; [by right|]. constructor; [done|by apply reports_neutral]. }
  intros a w1 Hg. set (l := a_ret _).
  eapply runs_wraps; [apply Bind_wraps|split; [by left|by repeat constructor]| |].
  { intros x rep _ Hrep. split; [by right|]. do 2 (constructor; [done|]). by apply reports_neutral. }
  intros a2 w2 _. apply runs_bind, runs_Listen.
  - split; [by left|]. by repeat constructor.
  - intros a3. split; [by left|]. by repeat constructor.
  - intros a3 n x rep Hrep. split; [by right|]. do 4 (constructor; [done|]). by apply reports_neutral.
  - intros a3 n x w3. apply runs_ret. do 5 eexists. split; [reflexivity|]. done.
Qed.

(** The servers as a set-up followed by one of the loops. *)
Section Mains.
Context (echo : Z -> M unit) (Done Part : Z -> list event -> Prop).
Context (echo_spec : forall fd w,
  runs (echo fd) (fun _ e => only (serves fd) e /\ Done fd e)
    (fun h e => h <> Exited 0 /\ only (serves fd) e /\ Part fd e) w).

(** Ended during the set-up, or as [server_end] after it. *)
Definition main_end (h : halt) (evs : list event) : Prop :=
  (h <> Exited 0 /\ only neutral evs) \/
  exists l e1 e2, setup_events l e1 /\ evs = e1 ++ e2 /\ server_end Done Part l h evs.

Lemma neutral_inv evs : only neutral evs -> parent_inv evs.
Proof. intros H. destruct (neutral_events _ H) as (H1 & H2 & H3). split; [done|by rewrite H1, H2]. Qed.

Lemma runs_main (rest : Z -> M Empty_set) w :
  (forall l evs w', only neutral evs ->
     runs (rest l) (fun _ _ => False)
       (fun h e => h <> Exited 0 /\ only neutral (evs ++ e) \/
                   server_end Done Part l h (evs ++ e)) w') ->
  runs (l ← tcpserv_setup; rest l) (fun _ _ => False) main_end w.
Proof using.
  intros Hr. apply runs_bind. eapply runs_mono; [apply runs_tcpserv_setup| |].
  - intros l e Hs w'. eapply runs_mono; [apply (Hr l e), (setup_neutral _ _ Hs)|done|].
    intros h e2 [?|He]; [by left|]. right. exists l, e, e2. done.
  - intros h e [Hh He]. left. split; [destruct Hh; congruence|done].
Qed.

Lemma runs_main_Accept w :
  runs (l ← tcpserv_setup; tcpserv_Accept echo l) (fun _ _ => False) main_end w.
Proof using echo_spec.
  apply runs_main. intros l evs w' Hn. eapply runs_mono.
  - apply (runs_tcpserv_Accept echo Done Part echo_spec l evs), neutral_inv, Hn.
  - done.
  - intros h e He. by right.
Qed.

Lemma runs_main_signal func (rest : Z -> M Empty_set) w :
  (forall l evs w', parent_inv evs ->
     runs (rest l) (fun _ _ => False) (fun h e => server_end Done Part l h (evs ++ e)) w') ->
  runs (l ← tcpserv_setup; Signal SIGCHLD func ;; rest l) (fun _ _ => False) main_end w.
Proof using.
  intros Hr. apply runs_main. intros l evs w' Hn.
  eapply runs_wraps; [apply Signal_wraps| | |].
  - left. by rewrite app_nil_r.
  - intros a rep _ Hrep. left. split; [done|]. apply only_app. split; [done|].
    constructor; [done|by apply reports_neutral].
  - intros a w2 _. set (c := libc _ _ _). eapply runs_mono.
    + apply (Hr l (evs ++ [(c, normalise c a)])), neutral_inv, only_app.
      split; [done|]. by constructor.
    + done.
    + intros h e He. right. cbn beta in He. by rewrite <- app_assoc in He.
Qed.
End Mains.

Lemma runs_str_echo08 fd st w :
  rl_wf st ->
  runs (str_echo08 fd st)
    (fun _ evs => exists (lines replies : list (list Z)),
       only (serves fd) evs /\ pending st ++ received fd evs = concat lines /\
       Forall (chunk MAXLINE) lines /\ mapM reply08 lines = Some replies /\
       sent fd evs = concat replies)
    (fun h evs => halted08 fd st h evs) w.
Proof.
  intros Hwf. apply (runs_loop _ (inv08 fd st)).
  { exists [], []. rewrite app_nil_r. done. }
  intros s evs w1 Hinv. eapply runs_mono; [by apply runs_str_echo08_body| |done].
  intros [s'|[]] e; [done|]. intros (lines & replies & _ & Ho & Hp & Hc & Hm & Hs).
  exists lines, replies. rewrite Hp. unfold pending. simpl. by rewrite app_nil_r.
Qed.

Lemma runs_str_echo09 fd args w :
  runs (str_echo09 fd args)
    (fun _ evs => exists (recs replies : list (list Z)) (args' : list Z),
       only (serves fd) evs /\ received fd evs = concat recs /\ Forall record recs /\
       run09 args recs = Some (replies, args') /\ sent fd evs = concat replies)
    (fun h evs => halted09 fd args h evs) w.
Proof.
  apply (runs_loop _ (inv09 fd args)); [by exists [], []|].
  intros s evs w1 Hinv. eapply runs_mono; [by apply runs_str_echo09_body| |done].
  intros [s'|[]] e; [done|]. intros (recs & replies & Ho & Hr & Hc & Hm & Hs).
  by exists recs, replies, s.
Qed.

(** ** Properties *)

(** What the three handlers promise at the end of a connection, and when
    they stop before it. *)
Definition echoed (fd : Z) (evs : list event) : Prop := sent fd evs = received fd evs.
Definition echo_part (fd : Z) (evs : list event) : Prop := sent fd evs `prefix_of` received fd evs.
Definition summed (fd : Z) (evs : list event) : Prop :=
  exists lines replies : list (list Z),
    received fd evs = concat lines /\ Forall (chunk MAXLINE) lines /\
    mapM reply08 lines = Some replies /\ sent fd evs = concat replies.
Definition sum_part (fd : Z) (evs : list event) : Prop := exists h, halted08 fd rl_init h evs.
Definition added (args : list Z) (fd : Z) (evs : list event) : Prop :=
  exists (recs replies : list (list Z)) (args' : list Z),
    received fd evs = concat recs /\ Forall record recs /\
    run09 args recs = Some (replies, args') /\ sent fd evs = concat replies.
Definition add_part (args : list Z) (fd : Z) (evs : list event) : Prop :=
  exists h, halted09 fd args h evs.

(** C10: the three handlers of a connection against every kernel.  [str_echo]
    answers with exactly the bytes received, in order: it returns only at end of file,
    with everything echoed; when it is blocked or gives up, what was sent is
    a prefix of what was received and at most one buffer is outstanding; it
    touches no other descriptor.  The sum servers of str_echo08.c and
    str_echo09.c cut the stream into lines (records of 16 bytes), and the
    bytes sent are the answers in order, one for each: the decimal sum, or
    "input error" (the binary sum).  Their only undefined behaviour is an
    addition that overflows [long], for which a line such as
    "9223372036854775807 1" is enough.  The binary server answers a last
    incomplete record with bytes of an older one. *)
Theorem echo_handlers_correct fd st args w :
  rl_wf st ->
  runs (str_echo fd)
    (fun _ evs => only (serves fd) evs /\ sent fd evs = received fd evs /\ last_is at_eof evs)
    (fun h evs => (h = Blocked \/ h = Exited 1) /\ only (serves fd) evs /\
       sent fd evs `prefix_of` received fd evs /\
       Z.of_nat (length (received fd evs)) <= Z.of_nat (length (sent fd evs)) + MAXLINE) w /\
  runs (str_echo08 fd st)
    (fun _ evs => exists (lines replies : list (list Z)),
       only (serves fd) evs /\ pending st ++ received fd evs = concat lines /\
       Forall (chunk MAXLINE) lines /\ mapM reply08 lines = Some replies /\
       sent fd evs = concat replies)
    (fun h evs => halted08 fd st h evs) w /\
  runs (str_echo09 fd args)
    (fun _ evs => exists (recs replies : list (list Z)) (args' : list Z),
       only (serves fd) evs /\ received fd evs = concat recs /\ Forall record recs /\
       run09 args recs = Some (replies, args') /\ sent fd evs = concat replies)
    (fun h evs => halted09 fd args h evs) w.
Proof.
  intros Hwf. split_and!; [apply runs_str_echo|by apply runs_str_echo08|apply runs_str_echo09].
Qed.

Theorem echo_handlers_correct_witness :
  let w := world0 [data (chars "9223372036854775807 1" ++ [10])] in
  exists w', str_echo08 5 rl_init w = (Halt Undefined, w') /\
    exists evs, extends w w' evs /\ halted08 5 rl_init Undefined evs.
Proof.
  eexists. split; [reflexivity|].
  destruct (echo_handlers_correct 5 rl_init []
    (world0 [data (chars "9223372036854775807 1" ++ [10])]) rl_init_wf) as (_ & Hr & _).
  exact Hr.
Defined.

(** ** The servers' main functions *)

Lemma makes_str_echo08 fd st : makes (serves fd) (str_echo08 fd st).
Proof.
  unfold str_echo08, str_echo08_body, serves.
  apply makes_loop. intros s. apply makes_bind.
  - apply makes_Readline; [tauto|]. by left.
  - intros [[n line] st']. solve_makes.
    all: try (apply makes_Writen; [tauto|]; right; by left).
Qed.

Lemma makes_str_echo09 fd args : makes (serves fd) (str_echo09 fd args).
Proof.
  unfold str_echo09, str_echo09_body, serves.
  apply makes_loop. intros s. apply makes_bind.
  - apply makes_Readn; [tauto|]. by left.
  - intros [n got]. solve_makes.
    all: try (apply makes_Writen; [tauto|]; right; by left).
Qed.

Lemma str_echo_spec fd w :
  runs (str_echo fd) (fun _ e => only (serves fd) e /\ echoed fd e)
    (fun h e => h <> Exited 0 /\ only (serves fd) e /\ echo_part fd e) w.
Proof.
  eapply runs_mono; [apply runs_str_echo| |].
  - intros [] e (Ho & Hs & _). done.
  - intros h e (Hh & Ho & Hs & _). split; [destruct Hh; congruence|done].
Qed.

Lemma str_echo08_spec fd w :
  runs (str_echo08 fd rl_init) (fun _ e => only (serves fd) e /\ summed fd e)
    (fun h e => h <> Exited 0 /\ only (serves fd) e /\ sum_part fd e) w.
Proof.
  eapply runs_mono; [apply (runs_conj _ _ _ _ _ _ (runs_str_echo08 fd _ w rl_init_wf) (makes_str_echo08 fd _ w))| |];
    cbn beta.
  - intros [] e [(l & r & Ho & Hp & Hc & Hm & Hs) _]. split; [done|]. by exists l, r.
  - intros h e [Hh Ho]. split; [|split; [done|by exists h]].
    destruct Hh as [[[?|?] _]|[? _]]; congruence.
Qed.

Lemma str_echo09_spec args fd w :
  runs (str_echo09 fd args) (fun _ e => only (serves fd) e /\ added args fd e)
    (fun h e => h <> Exited 0 /\ only (serves fd) e /\ add_part args fd e) w.
Proof.
  eapply runs_mono; [apply (runs_conj _ _ _ _ _ _ (runs_str_echo09 fd args w) (makes_str_echo09 fd _ w))| |];
    cbn beta.
  - intros [] e [(l & r & a & Ho & Hp & Hc & Hm & Hs) _]. split; [done|]. by exists l, r, a.
  - intros h e [Hh Ho]. split; [|split; [done|by exists h]].
    destruct Hh as (?&?&?&?&_&_&[[[?|?] _]|[? _]]); congruence.
Qed.

Lemma forking_servers_runs sig_chld args w :
  runs tcpserv01 (fun _ _ => False) (main_end echoed echo_part) w /\
  runs (tcpserv02 sig_chld) (fun _ _ => False) (main_end echoed echo_part) w /\
  runs (tcpserv03 sig_chld) (fun _ _ => False) (main_end echoed echo_part) w /\
  runs (tcpserv04 sig_chld) (fun _ _ => False) (main_end echoed echo_part) w /\
  runs (tcpserv08 sig_chld) (fun _ _ => False) (main_end summed sum_part) w /\
  runs (tcpserv09 sig_chld args) (fun _ _ => False) (main_end (added args) (add_part args)) w.
Proof.
  split_and!.
  - apply runs_main_Accept, str_echo_spec.
  - apply runs_main_signal. intros. by apply runs_tcpserv_Accept; [apply str_echo_spec|].
  - apply runs_main_signal. intros. by apply runs_tcpserv_accept; [apply str_echo_spec|].
  - apply runs_main_signal. intros. by apply runs_tcpserv_accept; [apply str_echo_spec|].
  - apply runs_main_signal. intros. by apply runs_tcpserv_accept; [apply str_echo08_spec|].
  - apply runs_main_signal. intros. by apply runs_tcpserv_accept; [apply str_echo09_spec|].
Qed.

(** The line of a terminated child, and the events of reaping it. *)
Definition child_line (pid : Z) : list Z :=
  chars "child " ++ fmt_d pid ++ chars " terminated" ++ [10].
Definition reaping (options pid : Z) : list event :=
  [(CWaitpid (-1) options, ok pid); (CStdout (child_line pid), ok 0)].

Definition waitpid_body (_ : unit) : M (unit + unit) :=
  a ← kernel (CWaitpid (-1) WNOHANG);
  if 0 <? a_ret a then output (CStdout (child_line (a_ret a))) ;; mret (inl ())
  else mret (inr ()).

Lemma waitpid_loop zombies fuel w :
  Forall (fun pid => 0 < pid) zombies -> script w = map ok zombies ++ [ok 0] ->
  (length zombies < fuel)%nat ->
  exists w', iterate fuel waitpid_body () w = (Ret (), w') /\ script w' = [] /\
    trace w' = trace w ++ concat (map (reaping WNOHANG) zombies) ++ [(CWaitpid (-1) WNOHANG, ok 0)].
Proof.
  revert fuel w. induction zombies as [|pid zs IH]; intros fuel w Hz Hs Hf;
    (destruct fuel as [|fuel]; [simpl in Hf; lia|]); simpl in Hs.
  - eexists. split; [|split].
    + apply iterate_leave. unfold waitpid_body, mbind, M_bind, kernel. rewrite Hs. reflexivity.
    + done.
    + done.
  - apply Forall_cons in Hz as [Hp Hz].
    set (w1 := World (map ok zs ++ [ok 0]) ((trace w ++ [(CWaitpid (-1) WNOHANG, ok pid)]) ++
                 [(CStdout (child_line pid), ok 0)]) (errno w) (daemon_proc w) (strerror w)).
    destruct (IH fuel w1 Hz eq_refl ltac:(simpl in Hf; lia)) as (w' & Hr & Hs' & Ht).
    exists w'. split; [|split; [done|]].
    + rewrite <- Hr. apply iterate_continue. unfold waitpid_body, mbind, M_bind, kernel.
      rewrite Hs. unfold normalise. cbn [a_ret ok].
      replace (pid <? 0) with false by lia. cbn [a_ret].
      replace (0 <? pid) with true by lia. unfold output, logged.
      cbn [a_ret script trace errno daemon_proc strerror ok].
      by replace (pid <? 0) with false by lia.
    + rewrite Ht. cbn [map concat reaping trace w1]. by rewrite <- !app_assoc.
Qed.

Lemma sigchld_reaps pid rest signo w :
  0 < pid -> Forall (fun pid => 0 < pid) rest ->
  script w = map ok (pid :: rest) ++ [ok 0] ->
  (exists w', sig_chld_waitpid signo w = (Ret (), w') /\ script w' = [] /\
     trace w' = trace w ++ concat (map (reaping WNOHANG) (pid :: rest)) ++
                [(CWaitpid (-1) WNOHANG, ok 0)]) /\
  (exists w', sig_chld_wait signo w = (Ret (), w') /\ script w' = map ok rest ++ [ok 0] /\
     trace w' = trace w ++ reaping 0 pid).
Proof.
  intros Hp Hr Hs. split.
  - apply (waitpid_loop (pid :: rest)); [by constructor|done|].
    rewrite Hs, length_app, length_map. simpl. lia.
  - eexists. unfold sig_chld_wait, mbind, M_bind, kernel. rewrite Hs. simpl map.
    cbn [app]. unfold normalise. cbn [a_ret ok]. replace (pid <? 0) with false by lia.
    unfold output, logged. cbn [a_ret script trace errno daemon_proc strerror ok].
    replace (pid <? 0) with false by lia. split; [reflexivity|]. split; [done|].
    cbn [trace]. by rewrite <- app_assoc.
Qed.

(** C11: the concurrent servers tcpserv01, 02, 03, 04, 08 and 09 never return;
    in every run, the parent holds at most one connection open at a time and
    has closed every other one it accepted; a child serves exactly the
    connection it inherited, after closing the listening socket, touches no
    other descriptor, and exits with status 0 only when the peer has ended
    the connection and everything was answered.
    The SIGCHLD handlers: when several children have terminated before
    the one signal is delivered (signals are not queued), the handler of
    sigchldwaitpid.c reaps all of them and reports each once, while that of
    sigchldwait.c reaps the first and leaves the others as zombies. *)
Theorem forking_servers_correct sig_chld args w :
  (runs tcpserv01 (fun _ _ => False) (main_end echoed echo_part) w /\
   runs (tcpserv02 sig_chld) (fun _ _ => False) (main_end echoed echo_part) w /\
   runs (tcpserv03 sig_chld) (fun _ _ => False) (main_end echoed echo_part) w /\
   runs (tcpserv04 sig_chld) (fun _ _ => False) (main_end echoed echo_part) w /\
   runs (tcpserv08 sig_chld) (fun _ _ => False) (main_end summed sum_part) w /\
   runs (tcpserv09 sig_chld args) (fun _ _ => False) (main_end (added args) (add_part args)) w) /\
  (forall pid rest signo,
   0 < pid -> Forall (fun pid => 0 < pid) rest ->
   script w = map ok (pid :: rest) ++ [ok 0] ->
   (exists w', sig_chld_waitpid signo w = (Ret (), w') /\ script w' = [] /\
      trace w' = trace w ++ concat (map (reaping WNOHANG) (pid :: rest)) ++
                 [(CWaitpid (-1) WNOHANG, ok 0)]) /\
   (exists w', sig_chld_wait signo w = (Ret (), w') /\ script w' = map ok rest ++ [ok 0] /\
      trace w' = trace w ++ reaping 0 pid)).
Proof.
  split; [by apply forking_servers_runs|intros; by apply sigchld_reaps].
Qed.

Theorem forking_servers_correct_witness :
  let w := world0 [ok 7; ok 8; ok 9; ok 0] in
  (exists w', sig_chld_waitpid 17 w = (Ret (), w') /\ script w' = []) /\
  (exists w', sig_chld_wait 17 w = (Ret (), w') /\ script w' = [ok 8; ok 9; ok 0]).
Proof.
  destruct (proj2 (forking_servers_correct 0 [] (world0 [ok 7; ok 8; ok 9; ok 0])) 7 [8; 9] 17 ltac:(lia)
    ltac:(repeat constructor; lia) eq_refl) as [(w1 & H1 & H2 & _) (w2 & H3 & H4 & _)].
  split; [exists w1|exists w2]; done.
Defined.
