(* ===== verification/TcpSelect.v ===== *)
(** * tcpcliserv/tcpservselect01.c: one process, many clients, [select]

    The table [client], the descriptor set [allset] and the two maxima are the
    state of the loop.  The invariant ties them to each other and to the
    descriptors that the trace has opened and not closed; the round theorem
    says that every descriptor reported ready is served exactly once. *)

From S2P Require Import Prelude InetPton InetNtop Unix ErrorLib Wrap ReadWrite TcpEcho.

(** ** The program *)

Record selsrv : Type := Sel {
  client : list Z;       (* client[FD_SETSIZE], -1 for a free entry *)
  allset : gset Z;
  maxi : Z;
  maxfd : Z
}.

(** The first [i] with [client[i] < 0], or the length of the table. *)
Fixpoint first_free (l : list Z) : nat :=
  match l with
  | [] => 0
  | fd :: l' => if fd <? 0 then 0 else S (first_free l')
  end.

Definition new_client (listenfd : Z) (s : selsrv) : M selsrv :=
  a ← Accept listenfd;
  let connfd := a_ret a in
  let i := first_free (client s) in
  if Z.of_nat i =? FD_SETSIZE then err_quit (chars "too many clients")
  else
    allset' ← fd_set connfd (allset s);
    mret (Sel (<[i := connfd]> (client s)) allset'
              (if maxi s <? Z.of_nat i then Z.of_nat i else maxi s)
              (if maxfd s <? connfd then connfd else maxfd s)).

(** The service of the ready client in entry [i]. *)
Definition serve_client (i : nat) (sockfd : Z) (s : selsrv) : M selsrv :=
  a ← Read sockfd MAXLINE;
  if a_ret a =? 0 then
    Close sockfd ;;
    allset' ← fd_clr sockfd (allset s);
    mret (Sel (<[i := -1]> (client s)) allset' (maxi s) (maxfd s))
  else
    Writen sockfd (a_data a) ;;
    mret s.

(** [for (i = 0; i <= maxi; i++)]: [todo] is [maxi + 1 - i]. *)
Fixpoint check_clients (todo i : nat) (nready : Z) (rset : gset Z) (s : selsrv) : M selsrv :=
  match todo with
  | O => mret s
  | S todo' =>
      match client s !! i with
      | None => undefined
      | Some sockfd =>
          if sockfd <? 0 then check_clients todo' (S i) nready rset s
          else if fd_isset sockfd rset then
            s' ← serve_client i sockfd s;
            let nready := nready - 1 in
            if nready <=? 0 then mret s'
            else check_clients todo' (S i) nready rset s'
          else check_clients todo' (S i) nready rset s
      end
  end.

Definition select_round (listenfd : Z) (s : selsrv) : M (selsrv + Empty_set) :=
  a ← Select (maxfd s + 1) (allset s) ∅ None;
  let rset : gset Z := list_to_set (a_data a) in
  let nready := a_ret a in
  if fd_isset listenfd rset then
    s' ← new_client listenfd s;
    let nready := nready - 1 in
    if nready <=? 0 then mret (inl s')
    else s'' ← check_clients (Z.to_nat (maxi s' + 1)) 0 nready rset s'; mret (inl s'')
  else s'' ← check_clients (Z.to_nat (maxi s + 1)) 0 nready rset s; mret (inl s'').

Definition select_init (listenfd : Z) : M selsrv :=
  allset' ← fd_set listenfd ∅;
  mret (Sel (replicate (Z.to_nat FD_SETSIZE) (-1)) allset' (-1) listenfd).

Definition tcpservselect01 : M Empty_set :=
  listenfd ← tcpserv_setup;
  s ← select_init listenfd;
  loop (select_round listenfd) s.

Example select_two_clients :
  let ready l := Ans 0 0 l [] in
  let '(_, w) := tcpservselect01 (world0
    [ok 3; ok 0; err 0; ok 0; ready [3]; ok 4; ready [3]; ok 5; ready [4; 5];
     data [97]; ok 1; data [98]; ok 1; ready [4]; ok 0; ok 0]) in
  sent 4 (trace w) = [97] /\ sent 5 (trace w) = [98] /\ closed (trace w) = [4].
Proof. by_eval. Qed.

(** ** Descriptors that are open *)

(** [fresh open evs]: starting with the descriptors [open], the system never
    hands out one that is already open. *)
Fixpoint fresh (open : gset Z) (evs : list event) : Prop :=
  match evs with
  | [] => True
  | (c, a) :: evs' =>
      match c with
      | CSocket _ _ _ | CAccept _ =>
          if a_ret a <? 0 then fresh open evs'
          else (a_ret a ∉ open) /\ fresh ({[a_ret a]} ∪ open) evs'
      | CClose fd => fresh (open ∖ {[fd]}) evs'
      | _ => fresh open evs'
      end
  end.

Fixpoint open_after (open : gset Z) (evs : list event) : gset Z :=
  match evs with
  | [] => open
  | (c, a) :: evs' =>
      match c with
      | CSocket _ _ _ | CAccept _ =>
          if a_ret a <? 0 then open_after open evs' else open_after ({[a_ret a]} ∪ open) evs'
      | CClose fd => open_after (open ∖ {[fd]}) evs'
      | _ => open_after open evs'
      end
  end.

#[export] Instance fresh_dec open evs : Decision (fresh open evs).
Proof.
  revert open. induction evs as [|[c a] evs IH]; intros open; simpl; [apply _|].
  destruct c; try apply IH; destruct (a_ret a <? 0); apply _.
Defined.

Lemma fresh_app open a b : fresh open (a ++ b) <-> fresh open a /\ fresh (open_after open a) b.
Proof.
  revert open. induction a as [|[c x] a IH]; intros open; simpl; [tauto|].
  destruct c; try apply IH; destruct (a_ret x <? 0); rewrite ?IH; tauto.
Qed.
Lemma open_after_app open a b : open_after open (a ++ b) = open_after (open_after open a) b.
Proof.
  revert open. induction a as [|[c x] a IH]; intros open; simpl; [done|].
  destruct c; try apply IH; by destruct (a_ret x <? 0).
Qed.

(** Calls that neither open nor close a descriptor. *)
Definition keeps_open (c : call) : Prop :=
  match c with CSocket _ _ _ | CAccept _ | CClose _ => False | _ => True end.
Lemma keeps_open_events open evs :
  only keeps_open evs -> open_after open evs = open /\ fresh open evs.
Proof. induction 1 as [|[c a] evs Hc Hevs IH]; [done|]. simpl in *. by destruct c. Qed.

Lemma writes_keep fd evs : only (is_write fd) evs -> only keeps_open evs.
Proof. apply only_mono. by intros []. Qed.
Lemma reports_keep evs : only is_report evs -> only keeps_open evs.
Proof. apply only_mono. by intros []. Qed.
Lemma aborted_keep fd open evs :
  Forall (aborted fd) evs -> open_after open evs = open /\ fresh open evs.
Proof.
  induction 1 as [|[c a] evs (Hc & Hr & _) Hevs IH]; [done|]. simpl in *. subst c. by rewrite Hr.
Qed.

(** ** The invariant of the loop *)

Record sel_inv (listenfd : Z) (s : selsrv) : Prop := SelInv {
  si_length : length (client s) = 1024%nat;
  si_set : forall fd, fd ∈ allset s <-> fd = listenfd \/ 0 <= fd /\ fd ∈ client s;
  si_inj : forall i j fd, client s !! i = Some fd -> client s !! j = Some fd -> 0 <= fd -> i = j;
  si_listen : listenfd ∉ client s;
  si_maxi : forall i fd, client s !! i = Some fd -> 0 <= fd -> Z.of_nat i <= maxi s;
  si_maxi_range : -1 <= maxi s < 1024;
  si_maxfd : forall fd, fd ∈ allset s -> 0 <= fd <= maxfd s /\ fd < FD_SETSIZE
}.

Lemma first_free_spec l :
  (first_free l < length l)%nat /\ (exists fd, l !! first_free l = Some fd /\ fd < 0) \/
  first_free l = length l /\ Forall (fun fd => 0 <= fd) l.
Proof.
  induction l as [|fd l IH]; simpl; [by right|]. destruct (fd <? 0) eqn:E; zbool.
  - left. split; [lia|]. by exists fd.
  - destruct IH as [[Hl (x & Hx & H0)]|[Hl Hf]].
    + left. split; [lia|]. by exists x.
    + right. split; [lia|by constructor].
Qed.

Lemma sel_inv_init listenfd s :
  0 <= listenfd < FD_SETSIZE ->
  s = Sel (replicate (Z.to_nat FD_SETSIZE) (-1)) ({[listenfd]} ∪ ∅) (-1) listenfd ->
  sel_inv listenfd s.
Proof.
  intros Hl ->. assert (forall fd : Z, fd ∈ replicate (Z.to_nat FD_SETSIZE) (-1) -> fd = -1) as Hr
    by (intros fd Hfd; by apply elem_of_replicate in Hfd as [-> _]).
  split; cbn [client allset maxi maxfd].
  - by rewrite length_replicate.
  - intros fd. rewrite union_empty_r_L, elem_of_singleton.
    split; [by left|]. intros [->|[H0 Hfd]]; [done|]. apply Hr in Hfd. lia.
  - intros i j fd Hi Hj H0. apply list_elem_of_lookup_2, Hr in Hi. lia.
  - intros Hin. apply Hr in Hin. lia.
  - intros i fd Hi H0. apply list_elem_of_lookup_2, Hr in Hi. lia.
  - lia.
  - intros fd. rewrite union_empty_r_L, elem_of_singleton. intros ->. lia.
Qed.

(** A new connection in a free entry. *)
Lemma sel_inv_add listenfd s i fd0 connfd :
  sel_inv listenfd s -> client s !! i = Some fd0 -> fd0 < 0 ->
  0 <= connfd < FD_SETSIZE -> connfd ∉ allset s ->
  sel_inv listenfd
    (Sel (<[i := connfd]> (client s)) ({[connfd]} ∪ allset s)
         (if maxi s <? Z.of_nat i then Z.of_nat i else maxi s)
         (if maxfd s <? connfd then connfd else maxfd s)).
Proof.
  intros [Hlen Hset Hinj Hli Hmi Hmir Hmf] Hi H0 Hc Hfresh.
  pose proof (lookup_lt_Some _ _ _ Hi) as Hlt.
  assert (connfd ∉ client s) as Hnew by (intros Hin; apply Hfresh, Hset; right; split; [lia|done]).
  assert (connfd <> listenfd) as Hne by (intros ->; apply Hfresh, Hset; by left).
  assert (forall fd, 0 <= fd -> fd ∈ <[i:=connfd]> (client s) <-> fd = connfd \/ fd ∈ client s) as Hmem.
  { intros fd Hfd. rewrite !list_elem_of_lookup. split.
    - intros [j Hj]. destruct (decide (i = j)) as [->|].
      + rewrite list_lookup_insert_eq in Hj by done. simplify_eq. by left.
      + rewrite list_lookup_insert_ne in Hj by done. right. eauto.
    - intros [->|[j Hj]]; [exists i; by rewrite list_lookup_insert_eq by done|].
      exists j. rewrite list_lookup_insert_ne; [done|]. intros ->. simplify_eq. lia. }
  split; cbn [client allset maxi maxfd].
  - by rewrite length_insert.
  - intros fd. rewrite elem_of_union, elem_of_singleton, Hset. split.
    + intros [->|[->|[? ?]]]; [right|by left|right]; (split; [lia|]); apply Hmem; auto; lia.
    + intros [->|[Hfd Hin]]; [auto|]. apply Hmem in Hin as [->|?]; auto.
  - intros j k fd Hj Hk Hfd.
    destruct (decide (i = j)) as [->|Hij], (decide (j = k)) as [->|Hjk]; try done.
    + rewrite list_lookup_insert_eq in Hj by done. rewrite list_lookup_insert_ne in Hk by done.
      simplify_eq. by apply list_elem_of_lookup_2 in Hk.
    + rewrite list_lookup_insert_ne in Hj by done. destruct (decide (i = k)) as [->|].
      * rewrite list_lookup_insert_eq in Hk by done. simplify_eq. by apply list_elem_of_lookup_2 in Hj.
      * rewrite list_lookup_insert_ne in Hk by done. eauto.
  - intros Hin. apply Hmem in Hin as [?|?]; [congruence|done|].
    assert (listenfd ∈ allset s) as Hl by (apply Hset; by left). apply Hmf in Hl. lia.
  - intros j fd Hj Hfd. destruct (decide (i = j)) as [->|].
    + zif.
    + rewrite list_lookup_insert_ne in Hj by done. specialize (Hmi _ _ Hj Hfd). zif.
  - rewrite Hlen in Hlt. zif.
  - intros fd. rewrite elem_of_union, elem_of_singleton.
    intros [->|Hfd]; [zif|]. specialize (Hmf _ Hfd). zif.
Qed.

(** A client that leaves. *)
Lemma sel_inv_remove listenfd s i fd :
  sel_inv listenfd s -> client s !! i = Some fd -> 0 <= fd ->
  sel_inv listenfd (Sel (<[i := -1]> (client s)) (allset s ∖ {[fd]}) (maxi s) (maxfd s)).
Proof.
  intros [Hlen Hset Hinj Hli Hmi Hmir Hmf] Hi H0.
  pose proof (lookup_lt_Some _ _ _ Hi) as Hlt.
  assert (forall g, 0 <= g -> g ∈ <[i:=-1]> (client s) <-> g ∈ client s /\ g <> fd) as Hmem.
  { intros g Hg. rewrite !list_elem_of_lookup. split.
    - intros [j Hj]. destruct (decide (i = j)) as [->|].
      + rewrite list_lookup_insert_eq in Hj by done. simplify_eq. lia.
      + rewrite list_lookup_insert_ne in Hj by done. split; [eauto|]. intros ->. eauto.
    - intros [[j Hj] Hne]. exists j. rewrite list_lookup_insert_ne; [done|]. intros ->. congruence. }
  split; cbn [client allset maxi maxfd].
  - by rewrite length_insert.
  - intros g. rewrite elem_of_difference, elem_of_singleton, Hset. split.
    + intros [[->|[Hg Hin]] Hne]; [by left|]. right. split; [done|]. by apply Hmem.
    + intros [->|[Hg Hin]].
      * split; [by left|]. intros ->. by apply list_elem_of_lookup_2 in Hi.
      * apply Hmem in Hin as [Hin Hne]; [|done]. split; [by right|done].
  - intros j k g Hj Hk Hg.
    assert (forall j, <[i:=-1]> (client s) !! j = Some g -> client s !! j = Some g) as Hold.
    { intros j' Hj'. destruct (decide (i = j')) as [->|].
      - rewrite list_lookup_insert_eq in Hj' by done. simplify_eq. lia.
      - by rewrite list_lookup_insert_ne in Hj'. }
    eauto.
  - intros Hin. apply Hmem in Hin as [? ?]; [done|].
    assert (listenfd ∈ allset s) as Hl by (apply Hset; by left). apply Hmf in Hl. lia.
  - intros j g Hj Hg. destruct (decide (i = j)) as [->|].
    + rewrite list_lookup_insert_eq in Hj by done. simplify_eq. lia.
    + rewrite list_lookup_insert_ne in Hj by done. eauto.
  - done.
  - intros g. rewrite elem_of_difference. intros [Hg _]. eauto.
Qed.

(** ** The ready clients, in the order of the table *)

Fixpoint ready_from (todo i : nat) (rset : gset Z) (l : list Z) : list Z :=
  match todo with
  | O => []
  | S todo' =>
      match l !! i with
      | Some fd => if (0 <=? fd) && fd_isset fd rset then [fd] else []
      | None => []
      end ++ ready_from todo' (S i) rset l
  end.

Lemma elem_of_ready_from todo i rset l fd :
  fd ∈ ready_from todo i rset l <->
  exists j, (i <= j < i + todo)%nat /\ l !! j = Some fd /\ 0 <= fd /\ fd ∈ rset.
Proof.
  revert i. induction todo as [|todo IH]; intros i; cbn [ready_from].
  { split; [by intros []%not_elem_of_nil|]. intros (j & Hj & _). lia. }
  rewrite elem_of_app, IH. split.
  - intros [Hin|(j & Hj & ?)]; [|exists j; split; [lia|done]].
    destruct (l !! i) as [g|] eqn:E; [|by apply not_elem_of_nil in Hin].
    destruct (_ && _) eqn:E2; [|by apply not_elem_of_nil in Hin].
    apply list_elem_of_singleton in Hin as ->. zbool. unfold fd_isset in *.
    exists i. split; [lia|]. split; [done|]. split; [lia|]. by eapply bool_decide_eq_true.
  - intros (j & Hj & Hl & H0 & Hr). destruct (decide (j = i)) as [->|].
    + left. rewrite Hl. replace (0 <=? fd) with true by lia. unfold fd_isset.
      rewrite bool_decide_eq_true_2 by done. apply list_elem_of_singleton. done.
    + right. exists j. split; [lia|done].
Qed.

Lemma NoDup_ready_from todo i rset l :
  (forall j k fd, l !! j = Some fd -> l !! k = Some fd -> 0 <= fd -> j = k) ->
  NoDup (ready_from todo i rset l).
Proof.
  intros Hinj. revert i. induction todo as [|todo IH]; intros i; cbn [ready_from]; [constructor|].
  apply NoDup_app. split_and!; [| |apply IH].
  - destruct (l !! i) as [g|]; [|constructor]. destruct (_ && _); [apply NoDup_singleton|constructor].
  - intros fd Hin (j & Hj & Hl & H0 & _)%elem_of_ready_from.
    destruct (l !! i) as [g|] eqn:E; [|by apply not_elem_of_nil in Hin].
    destruct (_ && _); [|by apply not_elem_of_nil in Hin].
    apply list_elem_of_singleton in Hin as ->. specialize (Hinj _ _ _ E Hl H0). lia.
Qed.

Lemma ready_from_insert todo i k v rset l :
  (k < i)%nat -> ready_from todo i rset (<[k := v]> l) = ready_from todo i rset l.
Proof.
  revert i. induction todo as [|todo IH]; intros i Hk; cbn [ready_from]; [done|].
  rewrite list_lookup_insert_ne by lia. by rewrite IH by lia.
Qed.

(** The descriptors read, in order. *)
Fixpoint reads (evs : list event) : list Z :=
  match evs with
  | [] => []
  | (CRead fd _, _) :: evs' => fd :: reads evs'
  | _ :: evs' => reads evs'
  end.
Lemma reads_app a b : reads (a ++ b) = reads a ++ reads b.
Proof. induction a as [|[c x] a IH]; [done|]. destruct c; simpl; by rewrite ?IH. Qed.
Lemma reads_none (P : call -> Prop) evs :
  only P evs -> (forall fd n, ~ P (CRead fd n)) -> reads evs = [].
Proof.
  induction 1 as [|[c a] evs Hc Hevs IH]; [done|]. intros HP. simpl in *.
  destruct c; try by apply IH. exfalso. by eapply HP.
Qed.
Lemma reads_writes fd evs : only (is_write fd) evs -> reads evs = [].
Proof. intros H. eapply reads_none; [exact H|]. by intros ? ? []. Qed.
Lemma reads_reports evs : only is_report evs -> reads evs = [].
Proof. intros H. eapply reads_none; [exact H|]. by intros ? ? []. Qed.

(** Every connection has been answered with what it sent. *)
Definition all_echoed (evs : list event) : Prop := forall fd, sent fd evs = received fd evs.
(** ... or is one buffer short of it. *)
Definition all_echoing (evs : list event) : Prop := forall fd, echoing fd MAXLINE evs.

Lemma all_echoed_app a b : all_echoed a -> all_echoed b -> all_echoed (a ++ b).
Proof. intros Ha Hb fd. by rewrite sent_app, received_app, Ha, Hb. Qed.
Lemma all_echoing_app a b : all_echoed a -> all_echoing b -> all_echoing (a ++ b).
Proof.
  intros Ha Hb fd. destruct (Hb fd) as [H1 H2]. unfold echoing.
  rewrite sent_app, received_app, Ha, !length_app. split; [by apply prefix_app|lia].
Qed.
Lemma all_echoed_echoing a : all_echoed a -> all_echoing a.
Proof. intros Ha fd. by apply echoing_done. Qed.

(** Events without reads and writes. *)
Definition no_io (c : call) : Prop :=
  match c with CRead _ _ | CWrite _ _ | CRecvfrom _ _ _ => False | _ => True end.
Lemma no_io_echoed evs : only no_io evs -> all_echoed evs.
Proof. induction 1 as [|[c a] evs Hc Hevs IH]; intros fd; [done|]. specialize (IH fd). by destruct c. Qed.
Lemma reports_no_io evs : only is_report evs -> only no_io evs.
Proof. apply only_mono. by intros []. Qed.
Lemma neutral_events_echoed evs : only (fun c => is_report c) evs -> all_echoed evs.
Proof. intros H. by apply no_io_echoed, reports_no_io. Qed.
Lemma aborted_no_io fd evs : Forall (aborted fd) evs -> only no_io evs.
Proof. induction 1 as [|[c a] evs (Hc & _) Hevs IH]; [constructor|]. simpl in Hc. subst c. by constructor. Qed.

(** Serving one client: one read of it. *)
Definition service (i : nat) (fd : Z) (s : selsrv) (s' : selsrv) (e : list event) : Prop :=
  reads e = [fd] /\ accepted e = [] /\ all_echoed e /\
  ((s' = s /\ closed e = [] /\ only keeps_open e) \/
   s' = Sel (<[i := -1]> (client s)) (allset s ∖ {[fd]}) (maxi s) (maxfd s) /\
   closed e = [fd] /\ forall open, open_after open e = open ∖ {[fd]}).

(** Stopped while serving it. *)
Definition service_cut (h : halt) (e : list event) : Prop :=
  (h = Blocked \/ h = Exited 1) /\ accepted e = [] /\ all_echoing e.

Lemma echo_written fd n a evs :
  only (is_write fd) evs -> sent fd evs `prefix_of` a_data a ->
  Z.of_nat (length (a_data a)) <= MAXLINE -> all_echoing ((CRead fd n, a) :: evs).
Proof.
  intros Ho Hp Hl g. unfold echoing. destruct (decide (fd = g)) as [->|Hne].
  - rewrite sent_cons_read, received_cons_read, (received_writes _ _ _ Ho), app_nil_r.
    split; [done|]. lia.
  - simpl. replace (fd =? g) with false by lia. rewrite (sent_other _ _ _ Hne Ho), (received_writes _ _ _ Ho).
    split; [done|]. simpl. unfold MAXLINE. lia.
Qed.

Lemma echo_written_all fd n a evs :
  only (is_write fd) evs -> sent fd evs = a_data a -> all_echoed ((CRead fd n, a) :: evs).
Proof.
  intros Ho Hs g. destruct (decide (fd = g)) as [->|Hne].
  - by rewrite sent_cons_read, received_cons_read, (received_writes _ _ _ Ho), app_nil_r.
  - simpl. replace (fd =? g) with false by lia.
    by rewrite (sent_other _ _ _ Hne Ho), (received_writes _ _ _ Ho).
Qed.

Lemma runs_serve_client i fd s w :
  0 <= fd < FD_SETSIZE ->
  runs (serve_client i fd s) (service i fd s) service_cut w.
Proof.
  intros Hfd. unfold serve_client.
  assert (forall h e, (h = Blocked \/ h = Exited 1) -> only (serves fd) e -> all_echoing e -> service_cut h e)
    as Hcut.
  { intros h e Hh Ho He. split; [done|]. split; [|done]. clear -Ho.
    induction Ho as [|[c a] e Hc He IH]; [done|]. destruct c; try done. by destruct Hc as [[]|[[]|[]]]. }
  eapply runs_wraps; [apply Read_wraps| | |].
  - apply Hcut; [auto|constructor|]. by apply all_echoed_echoing.
  - intros a rep Hbad Hrep. unfold succeeded in Hbad.
    pose proof (normalise_read fd MAXLINE a ltac:(done)) as Hn. cbv zeta in Hn.
    set (x := normalise _ a) in *.
    apply Hcut; [auto| |].
    { constructor; [by left|]. apply only_serves. auto. }
    apply (all_echoing_app [_]).
    + assert (a_data x = []) as Hd.
      { destruct Hn as [[_ ?]|[? _]]; [done|]. lia. }
      intros g. simpl. destruct (fd =? g); by rewrite ?Hd.
    + by apply all_echoed_echoing, neutral_events_echoed.
  - intros a w1 Hg. unfold succeeded, id in *.
    pose proof (normalise_read fd MAXLINE a ltac:(done)) as Hn. cbv zeta in Hn.
    set (x := normalise _ a) in *. destruct Hn as [[? _]|(Hle & Hl & Hb)]; [lia|].
    assert (serves fd (CRead fd MAXLINE)) as Hsr by by left.
    destruct (a_ret x =? 0) eqn:E; zbool.
    + assert (a_data x = []) as Hd by (destruct (a_data x); [done|simpl in Hl; lia]).
      assert (all_echoed [(CRead fd MAXLINE, x)]) as H1
        by (intros g; simpl; destruct (fd =? g); by rewrite ?Hd).
      eapply runs_wraps; [apply Close_wraps| | |].
      * split; [auto|]. split; [done|]. by apply all_echoed_echoing.
      * intros y rep _ Hrep. split; [auto|]. split; [by apply (neutral_events _ (reports_neutral _ Hrep))|].
        apply all_echoed_echoing, (all_echoed_app [_]); [done|].
        apply (all_echoed_app [_]); [done|by apply neutral_events_echoed].
      * intros y w2 _. unfold fd_clr. replace ((0 <=? fd) && (fd <? FD_SETSIZE)) with true by lia.
        apply runs_ret.
        split; [done|]. split; [done|]. split; [by apply (all_echoed_app [_])|]. right. done.
    + apply runs_bind, runs_Writen.
      * intros e Ho Hp. apply Hcut; [auto| |].
        { constructor; [done|]. apply only_serves. auto. }
        apply echo_written; [done|done|lia].
      * intros e rep Ho Hrep Hp. apply Hcut; [auto| |].
        { constructor; [done|]. apply only_app. split; apply only_serves; auto. }
        intros g. destruct (echo_written fd MAXLINE x e Ho Hp ltac:(lia) g) as [H1 H2].
        pose proof (sent_reports g rep Hrep) as Hs. pose proof (received_reports g rep Hrep) as Hr.
        rewrite app_comm_cons. unfold echoing. rewrite sent_app, received_app, Hs, Hr, !app_nil_r. done.
      * intros e Ho Hs w2. apply runs_ret. rewrite app_nil_r.
        assert (only keeps_open e) as Hk by (by eapply writes_keep).
        assert (accepted e = [] /\ closed e = []) as [Ha Hc].
        { split; [|]; clear -Ho; induction Ho as [|[c a] e Hc He IH]; try done; by destruct c. }
        split; [simpl; f_equal; by eapply reads_writes|].
        split; [done|]. split; [by apply echo_written_all|].
        left. split; [done|]. split; [done|]. by constructor.
Qed.

(** ** The loop over the clients *)

(** From the table [s] to [s'], serving the clients [fds] in this order. *)
Definition served (listenfd : Z) (fds : list Z) (s s' : selsrv) (e : list event) : Prop :=
  reads e = fds /\ accepted e = [] /\ all_echoed e /\ sel_inv listenfd s' /\
  maxi s' = maxi s /\ open_after (allset s) e = allset s'.

Lemma served_app listenfd f1 f2 s1 s2 s3 e1 e2 :
  served listenfd f1 s1 s2 e1 -> served listenfd f2 s2 s3 e2 ->
  served listenfd (f1 ++ f2) s1 s3 (e1 ++ e2).
Proof.
  intros (R1 & A1 & E1 & I1 & M1 & O1) (R2 & A2 & E2 & I2 & M2 & O2). unfold served.
  rewrite reads_app, accepted_app, open_after_app, R1, R2, A1, A2, O1.
  split_and!; try done; [by apply all_echoed_app|congruence].
Qed.

Lemma service_served listenfd i fd s s' e :
  sel_inv listenfd s -> client s !! i = Some fd -> 0 <= fd -> service i fd s s' e ->
  served listenfd [fd] s s' e /\ forall j, (i < j)%nat -> client s' !! j = client s !! j.
Proof.
  intros Hinv Hi H0 (Hr & Ha & He & [(-> & _ & Hk)|(-> & _ & Ho)]).
  - split; [|done]. split_and!; try done. by apply keeps_open_events.
  - split; [split_and!; try done; by apply sel_inv_remove|].
    intros j Hj. simpl. rewrite list_lookup_insert_ne by lia. done.
Qed.

Lemma ready_from_ext todo i rset l l' :
  (forall j, (i <= j)%nat -> l !! j = l' !! j) -> ready_from todo i rset l = ready_from todo i rset l'.
Proof.
  revert i. induction todo as [|todo IH]; intros i Hl; cbn [ready_from]; [done|].
  rewrite (Hl i) by lia. f_equal. apply IH. intros j Hj. apply Hl. lia.
Qed.

Lemma runs_check_clients listenfd todo i nready rset s w :
  sel_inv listenfd s -> (i + todo <= 1024)%nat ->
  Z.of_nat (length (ready_from todo i rset (client s))) <= nready ->
  (forall fd, 0 <= fd -> fd ∈ client s -> fd < FD_SETSIZE) ->
  runs (check_clients todo i nready rset s)
    (served listenfd (ready_from todo i rset (client s)) s) service_cut w.
Proof.
  revert i nready s w. induction todo as [|todo IH]; intros i nready s w Hinv Hb Hn Hfd;
    cbn [check_clients ready_from] in *.
  { apply runs_ret. done. }
  destruct (lookup_lt_is_Some_2 (client s) i) as [fd Hi]; [rewrite (si_length _ _ Hinv); lia|].
  rewrite Hi in *. destruct (fd <? 0) eqn:E; zbool.
  { replace (0 <=? fd) with false in * by lia. cbn [andb app] in *. apply IH; [done|lia|done|done]. }
  replace (0 <=? fd) with true in * by lia. cbn [andb] in *.
  destruct (fd_isset fd rset) eqn:Er; cbn [app length] in *.
  2: { apply IH; [done|lia|done|done]. }
  apply runs_bind. eapply runs_mono.
  - apply (runs_serve_client i fd s). split; [done|]. apply Hfd; [done|by eapply list_elem_of_lookup_2].
  - intros s' e He w'. destruct (service_served _ _ _ _ _ _ Hinv Hi E He) as [Hsv Hsame].
    rewrite (ready_from_ext _ _ rset (client s) (client s')) in *; [|by intros; rewrite Hsame by lia..].
    destruct (nready - 1 <=? 0) eqn:E1; zbool.
    + apply runs_ret. rewrite app_nil_r.
      destruct (ready_from todo (S i) rset (client s')) as [|g l]; [done|simpl in *; lia].
    + eapply runs_mono; [apply IH|..].
      * by destruct Hsv as (_&_&_&?&_).
      * lia.
      * lia.
      * intros g Hg0 Hg. destruct Hsv as (_&_&_&Hinv'&_).
        apply (si_maxfd _ _ Hinv'), (si_set _ _ Hinv'). by right.
      * intros s'' e2 H2. by apply (served_app _ [fd] _ s s').
      * intros h e2 (Hh & Ha & Hec). destruct Hsv as (_&Ha'&He'&_). split; [done|].
        rewrite accepted_app, Ha', Ha. split; [done|]. by apply all_echoing_app.
  - intros h e He. done.
Qed.

(** ** A new connection *)

(** Undefined behaviour has one cause: a descriptor that does not fit in an
    [fd_set], added without a test. *)
Definition fd_too_large (listenfd : Z) (e : list event) : Prop :=
  exists a, (CAccept listenfd, a) ∈ e /\ FD_SETSIZE <= a_ret a.
Definition stopped (listenfd : Z) (h : halt) (e : list event) : Prop :=
  h = Blocked \/ h = Exited 1 \/ h = Undefined /\ fd_too_large listenfd e.

Definition added_client (listenfd : Z) (s s' : selsrv) (e : list event) : Prop :=
  reads e = [] /\ all_echoed e /\ exists conn, accepted e = [conn] /\
    (fresh (allset s) e ->
     sel_inv listenfd s' /\ open_after (allset s) e = allset s' /\ (conn ∉ allset s) /\
     exists i fd0, client s !! i = Some fd0 /\ fd0 < 0 /\ client s' = <[i := conn]> (client s) /\
       maxi s <= maxi s').

Lemma accept_events listenfd a evs open :
  Forall (aborted listenfd) evs -> 0 <= a_ret a ->
  let e := evs ++ [(CAccept listenfd, a)] in
  reads e = [] /\ all_echoed e /\ accepted e = [a_ret a] /\
  (open_after open e = {[a_ret a]} ∪ open) /\ (fresh open e -> a_ret a ∉ open).
Proof.
  intros Hab H0. cbv zeta. destruct (aborted_events _ _ Hab) as (H1 & H2 & _).
  destruct (aborted_keep _ open _ Hab) as [H3 H4].
  rewrite reads_app, accepted_app, open_after_app, fresh_app, H1, H3. simpl.
  replace (a_ret a <? 0) with false by lia. split_and!; try done.
  - rewrite app_nil_r. eapply reads_none; [eapply aborted_no_io; exact Hab|]. by intros ? ? [].
  - apply all_echoed_app; apply no_io_echoed; [by eapply aborted_no_io|by repeat constructor].
  - tauto.
Qed.

Lemma runs_new_client listenfd s w :
  sel_inv listenfd s ->
  runs (new_client listenfd s) (added_client listenfd s)
    (fun h e => stopped listenfd h e /\ reads e = [] /\ all_echoed e) w.
Proof.
  intros Hinv. unfold new_client. apply runs_bind, runs_Accept.
  - intros e He. split; [by left|]. split; [|by eapply no_io_echoed, aborted_no_io].
    eapply reads_none; [by eapply aborted_no_io|]. by intros ? ? [].
  - intros a e rep He Hr Hrep. split; [by right; left|].
    assert (only no_io ((e ++ [(CAccept listenfd, a)]) ++ rep)) as Hio.
    { rewrite !only_app. split_and!; [by eapply aborted_no_io|by repeat constructor|by apply reports_no_io]. }
    split; [|by apply no_io_echoed]. eapply reads_none; [exact Hio|]. by intros ? ? [].
  - intros a e He H0 w1. set (e1 := e ++ [(CAccept listenfd, a)]).
    destruct (accept_events listenfd a e (allset s) He H0) as (R1 & E1 & A1 & O1 & F1). fold e1 in R1, E1, A1, O1, F1.
    destruct (_ =? FD_SETSIZE) eqn:Efree; zbool.
    + apply (runs_fatal false). intros rep Hrep. split; [by right; left|].
      rewrite reads_app, R1, (reads_reports _ Hrep). split; [done|].
      apply all_echoed_app; [done|by apply neutral_events_echoed].
    + unfold fd_set. destruct ((0 <=? a_ret a) && (a_ret a <? FD_SETSIZE)) eqn:Ebig.
      2: { apply runs_halted. rewrite app_nil_r. split; [|done]. right; right. split; [done|].
           exists a. split; [unfold e1; apply elem_of_app; right; by apply list_elem_of_singleton|lia]. }
      zbool. apply runs_ret. rewrite app_nil_r. split; [done|]. split; [done|].
      exists (a_ret a). split; [done|]. intros Hf. specialize (F1 Hf).
      destruct (first_free_spec (client s)) as [[Hlt (fd0 & Hfd0 & Hneg)]|[Hl _]].
      2: { unfold FD_SETSIZE in Efree. rewrite Hl, (si_length _ _ Hinv) in Efree. lia. }
      split; [by eapply sel_inv_add|]. split; [done|]. split; [done|].
      exists (first_free (client s)), fd0. cbn [client maxi]. split_and!; try done. zif.
Qed.

(** ** One iteration of the main loop *)

(** Every descriptor that [select] reports is served, once, in this round:
    the listening socket by one [accept], a client by one [read]. *)
Definition round_ok (listenfd : Z) (e : list event) : Prop :=
  exists n rset x e', e = (CSelect n rset ∅ None, x) :: e' /\
    reads e' ≡ₚ filter (fun fd => fd <> listenfd) (a_data x) /\
    (listenfd ∈ a_data x -> exists conn, accepted e' = [conn]) /\
    (listenfd ∉ a_data x -> accepted e' = []).

Lemma ready_from_all listenfd s rd :
  sel_inv listenfd s -> NoDup rd -> (forall fd, fd ∈ rd -> fd ∈ allset s) ->
  ready_from (Z.to_nat (maxi s + 1)) 0 (list_to_set rd) (client s)
  ≡ₚ filter (fun fd => fd <> listenfd) rd.
Proof.
  intros Hinv Hnd Hsub. apply NoDup_Permutation.
  - apply NoDup_ready_from, (si_inj _ _ Hinv).
  - by apply NoDup_filter.
  - intros fd. rewrite elem_of_ready_from, list_elem_of_filter. setoid_rewrite elem_of_list_to_set. split.
    + intros (j & _ & Hj & H0 & Hr). split; [|done]. intros ->.
      by eapply (si_listen _ _ Hinv), list_elem_of_lookup_2.
    + intros [Hne Hr]. destruct (proj1 (si_set _ _ Hinv fd) (Hsub _ Hr)) as [->|[H0 Hin]]; [done|].
      apply list_elem_of_lookup in Hin as [j Hj]. exists j.
      pose proof (si_maxi _ _ Hinv _ _ Hj H0). split; [lia|done].
Qed.

(** The entry of a new connection is not ready. *)
Lemma ready_from_new listenfd s s' rd conn i fd0 :
  sel_inv listenfd s -> sel_inv listenfd s' -> NoDup rd -> (forall fd, fd ∈ rd -> fd ∈ allset s) ->
  client s !! i = Some fd0 -> fd0 < 0 -> client s' = <[i := conn]> (client s) -> conn ∉ allset s ->
  maxi s <= maxi s' ->
  ready_from (Z.to_nat (maxi s' + 1)) 0 (list_to_set rd) (client s')
  ≡ₚ filter (fun fd => fd <> listenfd) rd.
Proof.
  intros Hinv Hinv' Hnd Hsub Hi H0 Hc Hnew Hmax. apply NoDup_Permutation.
  - apply NoDup_ready_from, (si_inj _ _ Hinv').
  - by apply NoDup_filter.
  - intros fd. rewrite elem_of_ready_from, list_elem_of_filter. setoid_rewrite elem_of_list_to_set. split.
    + intros (j & _ & Hj & Hf0 & Hr). split; [|done]. intros ->.
      by eapply (si_listen _ _ Hinv'), list_elem_of_lookup_2.
    + intros [Hne Hr]. destruct (proj1 (si_set _ _ Hinv fd) (Hsub _ Hr)) as [->|[Hf0 Hin]]; [done|].
      apply list_elem_of_lookup in Hin as [j Hj]. exists j.
      pose proof (si_maxi _ _ Hinv _ _ Hj Hf0). split; [lia|].
      rewrite Hc, list_lookup_insert_ne; [done|]. intros ->. simplify_eq. lia.
Qed.

Lemma filter_ne_length (l : Z) rd :
  (length (filter (fun fd => fd <> l) rd) <= length rd)%nat /\
  (l ∈ rd -> (length (filter (fun fd => fd <> l) rd) < length rd)%nat).
Proof.
  induction rd as [|x rd [IH1 IH2]]; [split; [simpl; lia|by intros []%not_elem_of_nil]|].
  rewrite filter_cons. destruct (decide (x <> l)) as [Hne|He]; cbn [length].
  - split; [lia|]. intros [->|Hin]%elem_of_cons; [done|]. specialize (IH2 Hin). lia.
  - split; [lia|]. intros _. lia.
Qed.

(** [evs] may be the trace of a system that hands out an open descriptor;
    then nothing is claimed but the calls' progress. *)
Definition round_post (listenfd : Z) (s : selsrv) (r : selsrv + Empty_set) (e : list event) : Prop :=
  match r with
  | inl s' =>
      (0 < waits e)%nat /\
      (fresh (allset s) e ->
       sel_inv listenfd s' /\ open_after (allset s) e = allset s' /\ round_ok listenfd e /\ all_echoed e)
  | inr _ => False
  end.
Definition round_halt (listenfd : Z) (s : selsrv) (h : halt) (e : list event) : Prop :=
  fresh (allset s) e -> stopped listenfd h e /\ all_echoing e.

Lemma makes_serve_client i fd s : makes (fun _ => True) (serve_client i fd s).
Proof.
  unfold serve_client, Read, Close, check_sys, fd_clr.
  solve_makes; solve [apply makes_err_sys; done | apply makes_Writen; done].
Qed.
Lemma makes_check_clients todo i nready rset s :
  makes (fun _ => True) (check_clients todo i nready rset s).
Proof.
  revert i nready s. induction todo as [|todo IH]; intros i nready s; cbn [check_clients];
    [solve_makes|].
  destruct (client s !! i); [|solve_makes]. destruct (_ <? 0); [done|]. destruct (fd_isset _ _); [|done].
  apply makes_bind; [apply makes_serve_client|]. intros s'. destruct (_ <=? 0); [solve_makes|done].
Qed.

Lemma served_echoed_stop listenfd h e0 e :
  all_echoed e0 -> service_cut h e -> stopped listenfd h (e0 ++ e) /\ all_echoing (e0 ++ e).
Proof.
  intros H0 (Hh & _ & He). split; [|by apply all_echoing_app].
  destruct Hh; [by left|by right; left].
Qed.

(** The clients after the listening socket, or without it. *)
Lemma runs_round_clients listenfd s s' x n e0 w :
  sel_inv listenfd s' -> (fresh (allset s) e0 -> open_after (allset s) e0 = allset s') ->
  let nready := if bool_decide (listenfd ∈ a_data x) then a_ret x - 1 else a_ret x in
  a_ret x = Z.of_nat (length (a_data x)) ->
  ready_from (Z.to_nat (maxi s' + 1)) 0 (list_to_set (a_data x)) (client s')
    ≡ₚ filter (fun fd => fd <> listenfd) (a_data x) ->
  reads e0 = [] -> all_echoed e0 ->
  (listenfd ∈ a_data x -> exists conn, accepted e0 = [conn]) ->
  (listenfd ∉ a_data x -> accepted e0 = []) ->
  runs (s'' ← check_clients (Z.to_nat (maxi s' + 1)) 0 nready (list_to_set (a_data x)) s';
        mret (A := selsrv + Empty_set) (inl s''))
    (fun r e => round_post listenfd s r ((CSelect n (allset s) ∅ None, x) :: e0 ++ e))
    (fun h e => round_halt listenfd s h ((CSelect n (allset s) ∅ None, x) :: e0 ++ e)) w.
Proof.
  intros Hinv Hopen nready Hret Hready Hreads Hech Hacc Hnacc.
  assert (all_echoed ((CSelect n (allset s) ∅ None, x) :: e0)) as Hech'
    by (apply (all_echoed_app [_]); [by apply no_io_echoed; repeat constructor|done]).
  apply runs_bind. eapply runs_mono; [apply (runs_check_clients listenfd)| |].
  - done.
  - pose proof (si_maxi_range _ _ Hinv). lia.
  - rewrite (Permutation_length Hready). destruct (filter_ne_length listenfd (a_data x)) as [H1 H2].
    unfold nready. case_bool_decide as Hin; [specialize (H2 Hin)|]; lia.
  - intros fd H0 Hin. apply (si_maxfd _ _ Hinv), (si_set _ _ Hinv). by right.
  - intros s'' e (R & A & E & I & Mx & O) w'. apply runs_ret. rewrite app_nil_r. split; [simpl; lia|].
    intros Hf. cbn [fresh] in Hf. apply fresh_app in Hf as [Hf0 _]. specialize (Hopen Hf0).
    cbn [open_after]. rewrite open_after_app, Hopen. split; [done|]. split; [done|]. split.
    + do 4 eexists. split; [reflexivity|]. rewrite reads_app, accepted_app, Hreads, R, A, app_nil_r.
      done.
    + rewrite app_comm_cons. by apply all_echoed_app.
  - intros h e He _. rewrite app_comm_cons. by apply served_echoed_stop.
Qed.

Lemma runs_select_round listenfd s w :
  sel_inv listenfd s ->
  runs (select_round listenfd s) (round_post listenfd s) (round_halt listenfd s) w.
Proof.
  intros Hinv. unfold select_round.
  eapply runs_wraps; [apply Select_wraps| | |].
  - intros _. split; [by left|]. by apply all_echoed_echoing.
  - intros a rep _ Hrep _. split; [by right; left|]. apply all_echoed_echoing, no_io_echoed.
    constructor; [done|by apply reports_no_io].
  - intros a w1 Hg. unfold succeeded, id in *.
    pose proof (normalise_select (maxfd s + 1) (allset s) a) as Hn. cbv zeta in Hn.
    set (x := normalise _ a) in *. destruct Hn as [|(Hret & Hnd & Hsub)]; [lia|].
    assert (forall fd, fd ∈ a_data x -> fd ∈ allset s) as Hsub' by (intros; by apply Hsub).
    unfold fd_isset. case_bool_decide as Hl; rewrite elem_of_list_to_set in Hl.
    + apply runs_bind. eapply runs_mono; [by apply runs_new_client| |].
      * intros s' e (R & E & conn & A & Hf) w2.
        destruct (decide (fresh (allset s) e)) as [Hfr|Hnf].
        2: { (* an open descriptor: only the progress matters *)
          assert (makes (fun _ => True) (if a_ret x - 1 <=? 0 then mret (A := selsrv + Empty_set) (inl s')
             else s'' ← check_clients (Z.to_nat (maxi s' + 1)) 0 (a_ret x - 1) (list_to_set (a_data x)) s';
                  mret (inl s''))) as Hm.
          { apply makes_if; [solve_makes|]. apply makes_bind; [apply makes_check_clients|]. intros; solve_makes. }
          eapply runs_mono; [apply Hm| |].
          - intros [s''|[]] e2 _. split; [simpl; lia|]. cbn [fresh]. rewrite fresh_app. tauto.
          - intros h e2 _. unfold round_halt. cbn [fresh]. rewrite fresh_app. tauto. }
        destruct (Hf Hfr) as (Hinv' & Hopen & Hnew & i & fd0 & Hi & Hneg & Hc & Hmax).
        assert (ready_from (Z.to_nat (maxi s' + 1)) 0 (list_to_set (a_data x)) (client s')
                ≡ₚ filter (fun fd => fd <> listenfd) (a_data x)) as Hready
          by (by eapply (ready_from_new listenfd s s')).
        destruct (a_ret x - 1 <=? 0) eqn:E1; zbool.
        -- apply runs_ret. rewrite app_nil_r. split; [simpl; lia|]. intros _.
           split; [done|]. split; [done|]. split.
           ++ do 4 eexists. split; [reflexivity|]. rewrite R. split; [|split; [eauto|done]].
              destruct (filter_ne_length listenfd (a_data x)) as [H1 H2]. specialize (H2 Hl).
              destruct (filter _ _) as [|g l]; [done|]. simpl in H2. lia.
           ++ apply (all_echoed_app [_]); [by apply no_io_echoed; repeat constructor|done].
        -- replace (a_ret x - 1) with (if bool_decide (listenfd ∈ a_data x) then a_ret x - 1 else a_ret x)
             by (by rewrite bool_decide_eq_true_2).
           apply runs_round_clients; try done. eauto.
      * intros h e (Hs & R & E) _. split.
        -- destruct Hs as [?|[?|[? (y & Hy & ?)]]]; [by left|by right; left|].
           right; right. split; [done|]. exists y. split; [by apply elem_of_cons; right|done].
        -- apply (all_echoing_app [_]); [by apply no_io_echoed; repeat constructor|by apply all_echoed_echoing].
    + pose proof (ready_from_all listenfd s (a_data x) Hinv Hnd Hsub') as Hready.
      replace (a_ret x) with (if bool_decide (listenfd ∈ a_data x) then a_ret x - 1 else a_ret x) at 1
        by (by rewrite bool_decide_eq_false_2).
      eapply runs_mono; [apply (runs_round_clients listenfd s s x (maxfd s + 1) []); try done| |]; done.
Qed.

(** ** The whole run *)

Lemma makes_setup : makes no_io tcpserv_setup.
Proof.
  unfold tcpserv_setup, Socket, Bind, Listen, check_sys. solve_makes.
  all: apply makes_err_sys; by intros [].
Qed.

Lemma runs_select_init l w :
  0 <= l ->
  runs (select_init l) (fun s e => e = [] /\ sel_inv l s /\ allset s = {[l]})
    (fun h e => e = [] /\ h = Undefined /\ FD_SETSIZE <= l) w.
Proof.
  intros H0. unfold select_init, fd_set. destruct (_ && _) eqn:E; zbool.
  - apply runs_ret. split; [done|]. split; [by apply sel_inv_init|]. cbn [allset]. apply union_empty_r_L.
  - apply runs_halted. split; [done|]. split; [done|]. lia.
Qed.

(** A round makes progress whatever the system does. *)
Lemma runs_round_progress l s w :
  runs (select_round l s)
    (fun r e => match r with inl _ => (0 < waits e)%nat | inr _ => False end) (fun _ _ => True) w.
Proof.
  unfold select_round. eapply runs_wraps; [apply Select_wraps|done|done|].
  intros a w1 _. eapply (runs_mono _ (fun _ e => only (fun _ => True) e)).
  - assert (forall s n r, makes (fun _ => True) (s'' ← check_clients (Z.to_nat (maxi s + 1)) 0 n r s;
                            mret (A := selsrv + Empty_set) (inl s''))) as Hc
      by (intros; apply makes_bind; [apply makes_check_clients|intros; apply makes_ret]).
    revert w1. apply (makes_if (fun _ => True)); [|apply Hc].
    apply makes_bind.
    + unfold new_client, Accept, Accept_body, fd_set. solve_makes;
        first [by apply makes_err_sys | by apply makes_err_quit].
    + intros s'. apply makes_if; [apply makes_ret|apply Hc].
  - intros [s'|[]] e _. simpl. lia.
  - done.
Qed.

(** A descriptor that does not fit, from [socket] or from [accept]. *)
Definition too_large (e : event) : Prop :=
  match fst e with CSocket _ _ _ | CAccept _ => FD_SETSIZE <= a_ret (snd e) | _ => False end.

Definition server_trace (h : halt) (evs : list event) : Prop :=
  (h = Blocked \/ h = Exited 1 \/ h = Undefined /\ Exists too_large evs) /\
  all_echoing evs /\
  exists listenfd setup rounds last,
    evs = setup ++ concat rounds ++ last /\ Forall (round_ok listenfd) rounds /\
    all_echoed (setup ++ concat rounds) /\
    (rounds <> [] -> exists s, sel_inv listenfd s /\
       open_after ∅ (setup ++ concat rounds) = allset s).

Lemma stopped_too_large listenfd h e0 e :
  stopped listenfd h e ->
  h = Blocked \/ h = Exited 1 \/ h = Undefined /\ Exists too_large (e0 ++ e).
Proof.
  intros [?|[?|[? (a & Ha & Hbig)]]]; [by left|by right; left|]. right; right. split; [done|].
  apply Exists_app. right. apply Exists_exists. by exists (CAccept listenfd, a).
Qed.

Lemma trace_start h e :
  (h = Blocked \/ h = Exited 1 \/ h = Undefined /\ Exists too_large e) -> only no_io e ->
  server_trace h e.
Proof.
  intros Hh Hio. split; [done|]. pose proof (no_io_echoed e Hio) as He.
  split; [by apply all_echoed_echoing|]. exists 0, e, [], []. simpl. rewrite !app_nil_r.
  split; [done|]. split; [constructor|]. split; [done|]. by intros [].
Qed.

(** The main loop after the set-up events [e0]. *)
Definition loop_inv (l : Z) (e0 : list event) (s : selsrv) (evs : list event) : Prop :=
  fresh ∅ (e0 ++ evs) ->
  sel_inv l s /\ open_after ∅ (e0 ++ evs) = allset s /\ all_echoed (e0 ++ evs) /\
  exists rounds, evs = concat rounds /\ Forall (round_ok l) rounds.

Lemma loop_inv_step l e0 s s' evs e :
  loop_inv l e0 s evs -> round_post l s (inl s') e -> loop_inv l e0 s' (evs ++ e).
Proof.
  intros Hinv [_ Hpost] Hf. rewrite app_assoc in *. apply fresh_app in Hf as [Hf0 Hfe].
  destruct (Hinv Hf0) as (Hi & Ho & He & rounds & -> & Hr).
  rewrite Ho in Hfe. destruct (Hpost Hfe) as (Hi' & Ho' & Hr' & He').
  split; [done|]. rewrite open_after_app, Ho. split; [done|]. split; [by apply all_echoed_app|].
  exists (rounds ++ [e]). rewrite concat_app. simpl. rewrite app_nil_r. split; [done|].
  apply Forall_app. auto.
Qed.

Lemma loop_inv_halt l e0 s h evs e :
  loop_inv l e0 s evs -> round_halt l s h e -> fresh ∅ (e0 ++ evs ++ e) ->
  server_trace h (e0 ++ evs ++ e).
Proof.
  intros Hinv Hh Hf. rewrite app_assoc in *. apply fresh_app in Hf as [Hf0 Hfe].
  destruct (Hinv Hf0) as (Hi & Ho & He & rounds & -> & Hr).
  rewrite Ho in Hfe. destruct (Hh Hfe) as [Hst Hec].
  split; [by apply (stopped_too_large l)|]. split; [by apply all_echoing_app|].
  exists l, e0, rounds, e. rewrite <- app_assoc. split; [done|]. split; [done|]. split; [done|].
  intros _. by exists s.
Qed.

Lemma runs_select_loop l e0 s w :
  sel_inv l s -> allset s = {[l]} -> setup_events l e0 -> only no_io e0 ->
  runs (loop (select_round l) s) (fun _ _ => False)
    (fun h e => fresh ∅ (e0 ++ e) -> server_trace h (e0 ++ e)) w.
Proof.
  intros Hi Ha Hs Hio. apply (runs_loop _ (loop_inv l e0)).
  { intros _. rewrite app_nil_r. split; [done|].
    destruct Hs as (a1 & a2 & a3 & a4 & b & -> & -> & H0). simpl.
    replace (a_ret a1 <? 0) with false by lia. rewrite union_empty_r_L. split; [done|].
    split; [by apply no_io_echoed|]. by exists []. }
  intros s1 evs w1 Hinv. destruct (decide (fresh ∅ (e0 ++ evs))) as [Hf|Hnf].
  - destruct (Hinv Hf) as (Hi1 & _).
    eapply runs_mono; [by apply runs_select_round| |].
    + intros [s'|[]] e Hp. split; [by destruct Hp|]. by eapply loop_inv_step.
    + intros h e Hh. by eapply loop_inv_halt.
  - eapply runs_mono; [apply runs_round_progress| |].
    + intros [s'|[]] e Hw. split; [done|]. intros Hf. rewrite app_assoc in Hf. by apply fresh_app in Hf as [].
    + intros h e _ Hf. rewrite app_assoc in Hf. by apply fresh_app in Hf as [].
Qed.

