(* ===== verification/TcpPoll.v ===== *)
(** * tcpcliserv/tcpservpoll01.c: one process, many clients, [poll]

    The array [client] of [struct pollfd] is modelled by its three fields; the
    [revents] of an entry keep their old value, at first whatever was on the
    stack, until a call of [poll] stores into them.  [OPEN_MAX] comes from
    <limits.h>. *)

From S2P Require Import Prelude InetPton InetNtop Unix ErrorLib Wrap ReadWrite TcpEcho TcpSelect.

Definition POLLRDNORM : Z := 64.
Definition POLLERR : Z := 8.
Definition INFTIM : Z := -1.

(** ** The program *)

(** [client[i].fd], [client[i].revents] and [maxi]; [client[i].events] is
    POLLRDNORM in every entry whose [fd] is not negative. *)
Record pollsrv : Type := Pollsrv { pfd : list Z; prev : list Z; pmaxi : Z }.

Definition revents_test (mask : Z) (r : Z) : bool := negb (Z.land r mask =? 0).

Section Program.
Context (OPEN_MAX : Z).

(** [for (i = 1; i < OPEN_MAX; i++)] up to a free entry. *)
Definition poll_free (s : pollsrv) : nat := S (first_free (drop 1 (pfd s))).

Definition poll_new_client (listenfd : Z) (s : pollsrv) : M pollsrv :=
  a ← Accept listenfd;
  let connfd := a_ret a in
  let i := poll_free s in
  if Z.of_nat i =? OPEN_MAX then err_quit (chars "too many clients")
  else mret (Pollsrv (<[i := connfd]> (pfd s)) (prev s)
              (if pmaxi s <? Z.of_nat i then Z.of_nat i else pmaxi s)).

Definition poll_serve (i : nat) (sockfd : Z) (s : pollsrv) : M pollsrv :=
  let gone := Pollsrv (<[i := -1]> (pfd s)) (prev s) (pmaxi s) in
  a ← kernel (CRead sockfd MAXLINE);
  if a_ret a <? 0 then
    e ← get_errno;
    if e =? ECONNRESET then Close sockfd ;; mret gone
    else err_sys (chars "read error")
  else if a_ret a =? 0 then Close sockfd ;; mret gone
  else Writen sockfd (a_data a) ;; mret s.

Fixpoint poll_check (todo i : nat) (nready : Z) (s : pollsrv) : M pollsrv :=
  match todo with
  | O => mret s
  | S todo' =>
      match pfd s !! i, prev s !! i with
      | Some sockfd, Some r =>
          if sockfd <? 0 then poll_check todo' (S i) nready s
          else if revents_test (Z.lor POLLRDNORM POLLERR) r then
            s' ← poll_serve i sockfd s;
            let nready := nready - 1 in
            if nready <=? 0 then mret s' else poll_check todo' (S i) nready s'
          else poll_check todo' (S i) nready s
      | _, _ => undefined
      end
  end.

Definition poll_args (s : pollsrv) : list (Z * Z) :=
  map (fun fd => (fd, POLLRDNORM)) (take (Z.to_nat (pmaxi s + 1)) (pfd s)).

Definition poll_round (listenfd : Z) (s : pollsrv) : M (pollsrv + Empty_set) :=
  a ← Poll (poll_args s) INFTIM;
  let nready := a_ret a in
  let s := Pollsrv (pfd s) (a_data a ++ drop (length (a_data a)) (prev s)) (pmaxi s) in
  match prev s !! 0%nat with
  | None => undefined
  | Some r0 =>
      if revents_test POLLRDNORM r0 then
        s' ← poll_new_client listenfd s;
        let nready := nready - 1 in
        if nready <=? 0 then mret (inl s')
        else s'' ← poll_check (Z.to_nat (pmaxi s')) 1 nready s'; mret (inl s'')
      else s'' ← poll_check (Z.to_nat (pmaxi s)) 1 nready s; mret (inl s'')
  end.

(** [garbage] is the initial content of the [revents] fields. *)
Definition tcpservpoll01 (garbage : list Z) : M Empty_set :=
  listenfd ← tcpserv_setup;
  loop (poll_round listenfd)
    (Pollsrv (listenfd :: replicate (Z.to_nat (OPEN_MAX - 1)) (-1)) garbage 0).
End Program.

Example poll_two_clients :
  let ready l := Ans 0 0 l [] in
  let '(_, w) := tcpservpoll01 256 (replicate 256 0) (world0
    [ok 3; ok 0; err 0; ok 0; ready [64]; ok 4; ready [64; 0]; ok 5; ready [0; 64; 64];
     data [97]; ok 1; data [98]; ok 1; ready [0; 64; 0]; ok 0; ok 0]) in
  sent 4 (trace w) = [97] /\ sent 5 (trace w) = [98] /\ closed (trace w) = [4].
Proof. vm_compute. auto. Qed.

(** With POLLRDNORM set by chance in the [revents] of entry 2, a connection
    accepted there is read before it is reported. *)
Example poll_stale :
  let ready l := Ans 0 0 l [] in
  let garbage := <[2%nat := 64]> (replicate 256 0) in
  let '(r, w) := tcpservpoll01 256 garbage (world0
    [ok 3; ok 0; err 0; ok 0; ready [64]; ok 4; ready [64; 1]; ok 5; data [97]]) in
  r = Halt Blocked /\ received 5 (trace w) = [97].
Proof. vm_compute. auto. Qed.

(** ** The invariant *)

Section Proofs.
Context (OPEN_MAX : Z) (HOM : 1 < OPEN_MAX) (listenfd : Z) (Hlisten : 0 <= listenfd).

Record poll_inv (open : gset Z) (s : pollsrv) : Prop := PollInv {
  pi_length : Z.of_nat (length (pfd s)) = OPEN_MAX;
  pi_prev : length (prev s) = length (pfd s);
  pi_zero : pfd s !! 0%nat = Some listenfd;
  pi_set : forall fd, fd ∈ open <-> 0 <= fd /\ fd ∈ pfd s;
  pi_inj : forall i j fd, pfd s !! i = Some fd -> pfd s !! j = Some fd -> 0 <= fd -> i = j;
  pi_maxi : forall i fd, pfd s !! i = Some fd -> 0 <= fd -> Z.of_nat i <= pmaxi s;
  pi_maxi_range : 0 <= pmaxi s < OPEN_MAX
}.

(** Replacing a free entry by a new descriptor, or an entry by -1. *)
Lemma poll_inv_add open s i fd0 conn :
  poll_inv open s -> pfd s !! i = Some fd0 -> fd0 < 0 -> 0 <= conn -> conn ∉ open ->
  poll_inv ({[conn]} ∪ open)
    (Pollsrv (<[i := conn]> (pfd s)) (prev s)
       (if pmaxi s <? Z.of_nat i then Z.of_nat i else pmaxi s)).
Proof using HOM Hlisten.
  intros [Hlen Hprev Hz Hset Hinj Hmi Hmir] Hi H0 Hc Hfresh.
  pose proof (lookup_lt_Some _ _ _ Hi) as Hlt.
  assert (conn ∉ pfd s) as Hnew by (intros Hin; apply Hfresh, Hset; done).
  assert (forall j fd, 0 <= fd -> <[i:=conn]> (pfd s) !! j = Some fd <->
            (j = i /\ fd = conn) \/ pfd s !! j = Some fd) as Hl.
  { intros j fd Hfd. destruct (decide (i = j)) as [->|Hij].
    - rewrite list_lookup_insert_eq by done. split; [intros [= <-]; by left|].
      intros [[_ ->]|Hj]; [done|]. simplify_eq. lia.
    - rewrite list_lookup_insert_ne by done. split; [by right|]. intros [[-> _]|?]; done. }
  split; cbn [pfd prev pmaxi].
  - by rewrite length_insert.
  - by rewrite length_insert.
  - apply Hl; [done|]. by right.
  - intros fd. rewrite elem_of_union, elem_of_singleton, Hset, !list_elem_of_lookup. split.
    + intros [->|[Hfd [j Hj]]]; (split; [lia|]).
      * exists i. apply Hl; [done|]. by left.
      * exists j. apply Hl; [done|]. by right.
    + intros [Hfd [j Hj]]. apply Hl in Hj as [[_ ->]|Hj]; [by left| |done]. right. eauto.
  - intros j k fd Hj Hk Hfd. apply Hl in Hj; [|done]. apply Hl in Hk; [|done].
    destruct Hj as [[-> ->]|Hj], Hk as [[-> ?]|Hk]; try done.
    + by apply list_elem_of_lookup_2 in Hk.
    + subst fd. by apply list_elem_of_lookup_2 in Hj.
    + eauto.
  - intros j fd Hj Hfd. apply Hl in Hj; [|done]. destruct Hj as [[-> _]|Hj]; [zif|].
    specialize (Hmi _ _ Hj Hfd). zif.
  - zif.
Qed.

Lemma poll_inv_remove open s i fd :
  poll_inv open s -> pfd s !! i = Some fd -> 0 <= fd -> (0 < i)%nat ->
  poll_inv (open ∖ {[fd]}) (Pollsrv (<[i := -1]> (pfd s)) (prev s) (pmaxi s)).
Proof using Type.
  intros [Hlen Hprev Hz Hset Hinj Hmi Hmir] Hi H0 Hpos.
  pose proof (lookup_lt_Some _ _ _ Hi) as Hlt.
  assert (forall j g, 0 <= g -> <[i:=-1]> (pfd s) !! j = Some g <-> j <> i /\ pfd s !! j = Some g) as Hl.
  { intros j g Hg. destruct (decide (i = j)) as [->|Hij].
    - rewrite list_lookup_insert_eq by done. split; [intros [= <-]; lia|]. by intros [[] _].
    - rewrite list_lookup_insert_ne by done. split; [done|]. by intros [_ ?]. }
  split; cbn [pfd prev pmaxi].
  - by rewrite length_insert.
  - by rewrite length_insert.
  - rewrite list_lookup_insert_ne by lia. done.
  - intros g. rewrite elem_of_difference, elem_of_singleton, Hset, !list_elem_of_lookup. split.
    + intros [[Hg [j Hj]] Hne]. split; [done|]. exists j. apply Hl; [done|]. split; [|done].
      intros ->. congruence.
    + intros [Hg [j Hj]]. apply Hl in Hj as [Hne Hj]; [|done]. split; [eauto|].
      intros ->. apply Hne. eauto.
  - intros j k g Hj Hk Hg. apply Hl in Hj as [_ Hj]; [|done]. apply Hl in Hk as [_ Hk]; [|done]. eauto.
  - intros j g Hj Hg. apply Hl in Hj as [_ Hj]; [|done]. eauto.
  - done.
Qed.

Lemma poll_inv_init garbage :
  Z.of_nat (length garbage) = OPEN_MAX ->
  poll_inv {[listenfd]} (Pollsrv (listenfd :: replicate (Z.to_nat (OPEN_MAX - 1)) (-1)) garbage 0).
Proof using HOM Hlisten.
  intros Hg. set (rest := replicate _ _).
  assert (length rest = Z.to_nat (OPEN_MAX - 1)) as Hr by apply length_replicate.
  assert (forall j fd, 0 <= fd -> (listenfd :: rest) !! j = Some fd -> j = 0%nat /\ fd = listenfd) as Hl.
  { intros [|j] fd Hfd Hj; cbn in Hj; [by simplify_eq|].
    apply list_elem_of_lookup_2, elem_of_replicate in Hj as [-> _]. lia. }
  split; cbn [pfd prev pmaxi length].
  - rewrite Hr. lia.
  - lia.
  - done.
  - intros fd. rewrite elem_of_singleton, list_elem_of_lookup. split.
    + intros ->. split; [done|]. by exists 0%nat.
    + intros [Hfd [j Hj]]. by apply Hl in Hj as [_ ?].
  - intros i j fd Hi Hj Hfd. apply Hl in Hi as [-> _]; [|done]. by apply Hl in Hj as [-> _].
  - intros i fd Hi Hfd. apply Hl in Hi as [-> _]; [|done]. lia.
  - lia.
Qed.

(** ** The ready clients *)

Definition ready_mask : Z := Z.lor POLLRDNORM POLLERR.
Definition pentry (fds revs : list Z) (j : nat) : list Z :=
  match fds !! j, revs !! j with
  | Some fd, Some r => if (0 <=? fd) && revents_test ready_mask r then [fd] else []
  | _, _ => []
  end.
(** The clients of the entries [i .. i + todo - 1] reported ready. *)
Fixpoint pready (todo i : nat) (fds revs : list Z) : list Z :=
  match todo with
  | O => []
  | S todo' => pentry fds revs i ++ pready todo' (S i) fds revs
  end.

Lemma pready_ext todo i f1 r1 f2 r2 :
  (forall j, (i <= j < i + todo)%nat -> pentry f1 r1 j = pentry f2 r2 j) ->
  pready todo i f1 r1 = pready todo i f2 r2.
Proof using Type.
  revert i. induction todo as [|todo IH]; intros i He; cbn [pready]; [done|].
  rewrite (He i) by lia. f_equal. apply IH. intros j Hj. apply He. lia.
Qed.
Lemma pready_add a b i f r : pready (a + b) i f r = pready a i f r ++ pready b (i + a) f r.
Proof using Type.
  revert i. induction a as [|a IH]; intros i; cbn [pready Nat.add app].
  - by rewrite Nat.add_0_r.
  - rewrite IH, <- app_assoc. do 3 f_equal. lia.
Qed.
Lemma pready_nil todo i f r :
  (forall j, (i <= j < i + todo)%nat -> pentry f r j = []) -> pready todo i f r = [].
Proof using Type.
  revert i. induction todo as [|todo IH]; intros i He; cbn [pready]; [done|].
  rewrite (He i) by lia. apply IH. intros j Hj. apply He. lia.
Qed.

Lemma nonzero_cons x l : nonzero (x :: l) = if decide (x <> 0) then x :: nonzero l else nonzero l.
Proof using Type. unfold nonzero. by rewrite filter_cons. Qed.
Lemma revents_test_0 m : revents_test m 0 = false.
Proof using Type. unfold revents_test. by rewrite Z.land_0_l. Qed.

Lemma pready_count todo i fds revs :
  (length (pready todo i fds revs) <= length (nonzero (take todo (drop i revs))))%nat.
Proof using Type.
  revert i. induction todo as [|todo IH]; intros i; cbn [pready]; [simpl; lia|].
  rewrite length_app. specialize (IH (S i)). unfold pentry.
  destruct (revs !! i) as [r|] eqn:Er.
  - rewrite (drop_S _ _ _ Er). cbn [take]. rewrite nonzero_cons.
    destruct (fds !! i) as [fd|]; [|case_decide; simpl; lia].
    destruct ((0 <=? fd) && revents_test ready_mask r) eqn:E; [|case_decide; simpl; lia].
    case_decide as Hr; [simpl; lia|]. assert (r = 0) as -> by lia.
    rewrite revents_test_0, andb_false_r in E. done.
  - assert (pready todo (S i) fds revs = []) as ->.
    { apply pready_nil. intros j Hj. unfold pentry. apply lookup_ge_None in Er.
      rewrite (lookup_ge_None_2 revs j) by lia. by destruct (fds !! j). }
    destruct (fds !! i); simpl; lia.
Qed.

(** ** Serving the clients *)

Definition pserved (open : gset Z) (fds : list Z) (s s' : pollsrv) (e : list event) : Prop :=
  reads e = fds /\ accepted e = [] /\ all_echoed e /\ poll_inv (open_after open e) s' /\
  prev s' = prev s /\ pmaxi s' = pmaxi s.

Lemma pserved_app open f1 f2 s1 s2 s3 e1 e2 :
  pserved open f1 s1 s2 e1 -> pserved (open_after open e1) f2 s2 s3 e2 ->
  pserved open (f1 ++ f2) s1 s3 (e1 ++ e2).
Proof using Type.
  intros (R1 & A1 & E1 & I1 & P1 & M1) (R2 & A2 & E2 & I2 & P2 & M2). unfold pserved.
  rewrite reads_app, accepted_app, open_after_app, R1, R2, A1, A2.
  split_and!; try done; [by apply all_echoed_app|congruence|congruence].
Qed.

(** The read of one client and what follows it. *)
Lemma serves_cut fd h e :
  (h = Blocked \/ h = Exited 1) -> only (serves fd) e -> all_echoing e -> service_cut h e.
Proof using Type.
  intros Hh Ho He. split; [done|]. split; [|done]. clear -Ho.
  induction Ho as [|[c a] e Hc He IH]; [done|]. destruct c; try done. by destruct Hc as [[]|[[]|[]]].
Qed.

Lemma read_nothing fd n x : a_data x = [] -> all_echoed [(CRead fd n, x)].
Proof using Type. intros Hd g. simpl. destruct (fd =? g); by rewrite ?Hd. Qed.

Lemma runs_poll_gone open i fd s x w :
  poll_inv open s -> pfd s !! i = Some fd -> 0 <= fd -> (0 < i)%nat -> a_data x = [] ->
  runs (Close fd ;; mret (Pollsrv (<[i := -1]> (pfd s)) (prev s) (pmaxi s)))
    (fun s' e => pserved open [fd] s s' ((CRead fd MAXLINE, x) :: e) /\
                 forall j, (i < j)%nat -> pfd s' !! j = pfd s !! j)
    (fun h e => service_cut h ((CRead fd MAXLINE, x) :: e)) w.
Proof using Type.
  intros Hinv Hi H0 Hpos Hd. pose proof (read_nothing fd MAXLINE x Hd) as H1.
  eapply runs_wraps; [apply Close_wraps| | |].
  - split; [auto|]. split; [done|]. by apply all_echoed_echoing.
  - intros y rep _ Hrep. split; [auto|].
    split; [by apply (neutral_events _ (reports_neutral _ Hrep))|].
    apply all_echoed_echoing, (all_echoed_app [_]); [done|].
    apply (all_echoed_app [_]); [done|by apply neutral_events_echoed].
  - intros y w2 _. apply runs_ret. split.
    + do 2 (split; [done|]). split; [by apply (all_echoed_app [_])|].
      split; [by apply poll_inv_remove|done].
    + intros j Hj. cbn [pfd]. rewrite list_lookup_insert_ne by lia. done.
Qed.

Lemma runs_poll_serve open i fd s w :
  poll_inv open s -> pfd s !! i = Some fd -> 0 <= fd -> (0 < i)%nat ->
  runs (poll_serve i fd s)
    (fun s' e => pserved open [fd] s s' e /\ forall j, (i < j)%nat -> pfd s' !! j = pfd s !! j)
    service_cut w.
Proof using Type.
  intros Hinv Hi H0 Hpos. unfold poll_serve.
  apply runs_call; [done|split; [auto|split; [done|by apply all_echoed_echoing]]|].
  intros a w1. cbv zeta. intros _.
  pose proof (normalise_read fd MAXLINE a ltac:(done)) as Hn. cbv zeta in Hn.
  set (x := normalise _ a) in *. destruct (a_ret x <? 0) eqn:E; zbool.
  - destruct Hn as [[_ Hd]|[? _]]; [|lia]. apply runs_get_errno. destruct (_ =? ECONNRESET).
    + by apply runs_poll_gone.
    + apply runs_err_sys. intros rep Hrep. split; [auto|].
      split; [by apply (neutral_events _ (reports_neutral _ Hrep))|].
      apply (all_echoing_app [_]); [by apply read_nothing|].
      by apply all_echoed_echoing, neutral_events_echoed.
  - destruct Hn as [[? _]|(Hle & Hl & _)]; [lia|]. destruct (a_ret x =? 0) eqn:E0; zbool.
    { apply runs_poll_gone; try done. destruct (a_data x); [done|simpl in Hl; lia]. }
    assert (serves fd (CRead fd MAXLINE)) as Hsr by by left.
    apply runs_bind, runs_Writen.
    + intros e Ho Hp. apply (serves_cut fd); [auto| |apply echo_written; [done|done|lia]].
      constructor; [done|]. apply only_serves. auto.
    + intros e rep Ho Hrep Hp. apply (serves_cut fd); [auto| |].
      { constructor; [done|]. apply only_app. split; apply only_serves; auto. }
      intros g. destruct (echo_written fd MAXLINE x e Ho Hp ltac:(lia) g) as [H1 H2].
      rewrite app_comm_cons. unfold echoing.
      rewrite sent_app, received_app, (sent_reports g rep Hrep), (received_reports g rep Hrep), !app_nil_r.
      done.
    + intros e Ho Hs w2. apply runs_ret. rewrite app_nil_r.
      destruct (neutral_events e) as (Ha & _ & _).
      { refine (only_mono _ _ _ _ Ho). by intros []. }
      destruct (keeps_open_events open e (writes_keep _ _ Ho)) as [Hop _].
      split; [|done]. split; [simpl; f_equal; by eapply reads_writes|]. split; [done|].
      split; [by apply echo_written_all|]. split; [|done]. simpl. by rewrite Hop.
Qed.

Lemma runs_poll_check open todo i nready s w :
  poll_inv open s -> (0 < i)%nat -> (i + todo <= length (pfd s))%nat ->
  Z.of_nat (length (pready todo i (pfd s) (prev s))) <= nready ->
  runs (poll_check todo i nready s)
    (pserved open (pready todo i (pfd s) (prev s)) s) service_cut w.
Proof using Type.
  revert open i nready s w. induction todo as [|todo IH]; intros open i nready s w Hinv Hpos Hb Hn;
    cbn [poll_check pready] in *.
  { by apply runs_ret. }
  destruct (lookup_lt_is_Some_2 (pfd s) i) as [fd Hi]; [lia|].
  destruct (lookup_lt_is_Some_2 (prev s) i) as [r Hr]; [rewrite (pi_prev _ _ Hinv); lia|].
  unfold pentry in *. rewrite Hi, Hr in *. destruct (fd <? 0) eqn:E; zbool.
  { replace (0 <=? fd) with false in * by lia. cbn [andb app] in *. apply IH; [done|lia|lia|done]. }
  replace (0 <=? fd) with true in * by lia. cbn [andb] in *. fold ready_mask.
  destruct (revents_test ready_mask r) eqn:Er; cbn [app length] in *.
  2: { apply IH; [done|lia|lia|done]. }
  apply runs_bind. eapply runs_mono; [by apply (runs_poll_serve open i fd s)| |].
  - intros s' e [Hsv Hsame] w'. pose proof Hsv as (_ & Ha' & He' & Hinv' & Hprev & _).
    assert (pready todo (S i) (pfd s) (prev s) = pready todo (S i) (pfd s') (prev s')) as Hpr.
    { apply pready_ext. intros j Hj. unfold pentry. rewrite Hprev, Hsame by lia. done. }
    rewrite Hpr in *. destruct (nready - 1 <=? 0) eqn:E1; zbool.
    + apply runs_ret. rewrite app_nil_r.
      destruct (pready todo (S i) (pfd s') (prev s')); [done|simpl in *; lia].
    + eapply runs_mono; [apply (IH (open_after open e))|..]; [done|lia| |lia| |].
      * rewrite <- (pi_prev _ _ Hinv'), Hprev, (pi_prev _ _ Hinv). lia.
      * intros s'' e2 H2. by apply (pserved_app open [fd] _ s s').
      * intros h e2 (Hh & Ha & Hec). split; [done|]. rewrite accepted_app, Ha', Ha.
        split; [done|]. by apply all_echoing_app.
  - done.
Qed.

(** ** A new connection *)

Definition poll_added (open : gset Z) (s s' : pollsrv) (e : list event) : Prop :=
  reads e = [] /\ all_echoed e /\ exists conn, accepted e = [conn] /\
    (fresh open e ->
     poll_inv (open_after open e) s' /\ prev s' = prev s /\ pmaxi s <= pmaxi s' /\
     exists i fd0, pfd s !! i = Some fd0 /\ fd0 < 0 /\ pfd s' = <[i := conn]> (pfd s)).

Lemma runs_poll_new_client open s w :
  poll_inv open s ->
  runs (poll_new_client OPEN_MAX listenfd s) (poll_added open s)
    (fun h e => (h = Blocked \/ h = Exited 1) /\ all_echoed e) w.
Proof using HOM Hlisten.
  intros Hinv. unfold poll_new_client. apply runs_bind, runs_Accept.
  - intros e He. split; [by left|]. by eapply no_io_echoed, aborted_no_io.
  - intros a e rep He Hr Hrep. split; [by right|]. apply no_io_echoed.
    rewrite !only_app. split_and!; [by eapply aborted_no_io|by repeat constructor|by apply reports_no_io].
  - intros a e He H0 w1. set (e1 := e ++ [(CAccept listenfd, a)]).
    destruct (accept_events listenfd a e open He H0) as (R1 & E1 & A1 & O1 & F1).
    fold e1 in R1, E1, A1, O1, F1. cbv zeta. destruct (_ =? OPEN_MAX) eqn:Efree; zbool.
    + apply (runs_fatal false). intros rep Hrep. split; [by right|].
      apply all_echoed_app; [done|by apply neutral_events_echoed].
    + apply runs_ret. rewrite app_nil_r. split; [done|]. split; [done|].
      exists (a_ret a). split; [done|]. intros Hf. specialize (F1 Hf). rewrite O1.
      unfold poll_free in *.
      destruct (first_free_spec (drop 1 (pfd s))) as [[Hlt (fd0 & Hfd0 & Hneg)]|[Hl _]].
      2: { pose proof (pi_length _ _ Hinv). rewrite Hl, length_drop in Efree. lia. }
      rewrite lookup_drop in Hfd0.
      split; [by apply (poll_inv_add open s _ fd0)|]. split; [done|]. split; [cbn [pmaxi]; zif|].
      by exists (S (first_free (drop 1 (pfd s)))), fd0.
Qed.

(** ** One round *)

(** The [revents] that the next poll would not overwrite are harmless. *)
Definition clean (s : pollsrv) : Prop :=
  forall j r, prev s !! j = Some r -> pmaxi s < Z.of_nat j -> revents_test ready_mask r = false.

Definition listener_ready (x : answer) : bool :=
  revents_test POLLRDNORM (default 0 (a_data x !! 0%nat)).

(** Every client that [poll] reports is served, once, in the order of the
    table, and the listening socket by one [accept]. *)
Definition poll_round_ok (e : list event) : Prop :=
  exists args x e', e = (CPoll args INFTIM, x) :: e' /\
    reads e' = pready (length args - 1) 1 (map fst args) (a_data x) /\
    (if listener_ready x then exists conn, accepted e' = [conn] else accepted e' = []).

Lemma poll_revents_lookup args l j fd ev :
  args !! j = Some (fd, ev) ->
  poll_revents args l !! j = Some (if fd <? 0 then 0 else u16 (default 0 (l !! j))).
Proof using Type. intros Hj. unfold poll_revents. by rewrite list_lookup_imap, Hj. Qed.

Lemma length_poll_revents args l : length (poll_revents args l) = length args.
Proof using Type. apply length_imap. Qed.

(** The state after [poll] has stored the [revents]. *)
Definition polled (s : pollsrv) (x : answer) : pollsrv :=
  Pollsrv (pfd s) (a_data x ++ drop (length (a_data x)) (prev s)) (pmaxi s).

Section Round.
Context (open : gset Z) (s : pollsrv) (a : answer).
Let args := poll_args s.
Let x := normalise (CPoll args INFTIM) a.
Let s1 := polled s x.
Context (Hinv : poll_inv open s) (Hclean : clean s) (Hok : 0 <= a_ret x).

Lemma length_args : length args = Z.to_nat (pmaxi s + 1).
Proof using Hinv.
  unfold args, poll_args. rewrite length_map, length_take.
  pose proof (pi_length _ _ Hinv). pose proof (pi_maxi_range _ _ Hinv). lia.
Qed.

Lemma polled_data : a_data x = poll_revents args (a_data a) /\
  a_ret x = Z.of_nat (length (nonzero (a_data x))).
Proof using Hok.
  revert Hok. unfold x, normalise. destruct (a_ret a <? 0); [simpl; lia|]. done.
Qed.

Lemma length_data : length (a_data x) = Z.to_nat (pmaxi s + 1).
Proof using Hinv Hok. destruct polled_data as [-> _]. by rewrite length_poll_revents, length_args. Qed.

Lemma polled_inv : poll_inv open s1.
Proof using Hinv Hok.
  destruct Hinv as [Hlen Hprev Hz Hset Hinj Hmi Hmir]. split; try done.
  unfold s1, polled. cbn [pfd prev]. rewrite length_app, length_drop, length_data. lia.
Qed.

Lemma polled_low j : (j < Z.to_nat (pmaxi s + 1))%nat -> prev s1 !! j = a_data x !! j.
Proof using Hinv Hok. intros Hj. unfold s1, polled. cbn [prev]. apply lookup_app_l. by rewrite length_data. Qed.

Lemma polled_high j : (Z.to_nat (pmaxi s + 1) <= j)%nat -> prev s1 !! j = prev s !! j.
Proof using Hinv Hok.
  intros Hj. unfold s1, polled. cbn [prev]. rewrite lookup_app_r, lookup_drop by (rewrite length_data; lia).
  f_equal. rewrite length_data. lia.
Qed.

(** An entry without descriptor has no event. *)
Lemma polled_free j fd : pfd s !! j = Some fd -> fd < 0 ->
  (j < Z.to_nat (pmaxi s + 1))%nat -> prev s1 !! j = Some 0.
Proof using Hinv Hok.
  intros Hj Hfd Hlt. rewrite polled_low by done. destruct polled_data as [-> _].
  rewrite (poll_revents_lookup _ _ _ fd POLLRDNORM).
  - by replace (fd <? 0) with true by lia.
  - unfold args, poll_args. rewrite list_lookup_fmap, lookup_take_lt by lia. by rewrite Hj.
Qed.

Lemma clean_polled s' :
  prev s' = prev s1 -> pmaxi s <= pmaxi s' -> clean s'.
Proof using Hinv Hok Hclean.
  intros Hp Hm j r Hj Hlt. rewrite Hp in Hj. pose proof (pi_maxi_range _ _ Hinv).
  rewrite polled_high in Hj by lia. eapply Hclean; [exact Hj|lia].
Qed.

Lemma ready_args :
  pready (Z.to_nat (pmaxi s)) 1 (pfd s1) (prev s1)
  = pready (length args - 1) 1 (map fst args) (a_data x).
Proof using Hinv Hok.
  rewrite length_args. pose proof (pi_maxi_range _ _ Hinv).
  replace (Z.to_nat (pmaxi s + 1) - 1)%nat with (Z.to_nat (pmaxi s)) by lia.
  apply pready_ext. intros j Hj. unfold pentry. rewrite polled_low by lia.
  unfold args, poll_args. rewrite map_map, list_lookup_fmap, lookup_take_lt by lia.
  cbn [s1 polled pfd]. by destruct (pfd s !! j).
Qed.

(** The entry taken by a new connection is not read in this round. *)
Lemma ready_new s' i fd0 conn :
  prev s' = prev s1 -> pmaxi s <= pmaxi s' -> pfd s !! i = Some fd0 -> fd0 < 0 ->
  pfd s' = <[i := conn]> (pfd s) ->
  pready (Z.to_nat (pmaxi s')) 1 (pfd s') (prev s')
  = pready (length args - 1) 1 (map fst args) (a_data x).
Proof using Hinv Hok Hclean.
  intros Hp Hm Hi H0 Hf. rewrite <- ready_args. pose proof (pi_maxi_range _ _ Hinv).
  replace (Z.to_nat (pmaxi s')) with (Z.to_nat (pmaxi s) + Z.to_nat (pmaxi s' - pmaxi s))%nat by lia.
  rewrite pready_add, (pready_nil (Z.to_nat (pmaxi s' - _))), app_nil_r.
  - apply pready_ext. intros j Hj. unfold pentry. rewrite Hp, Hf. cbn [s1 polled pfd].
    destruct (decide (i = j)) as [->|Hne]; [|by rewrite list_lookup_insert_ne].
    rewrite (polled_free j fd0) by (done || lia).
    rewrite Hi, list_lookup_insert_eq by (by eapply lookup_lt_Some).
    by rewrite revents_test_0, !andb_false_r.
  - intros j Hj. unfold pentry. rewrite Hp. destruct (prev s1 !! j) as [r|] eqn:Er; [|by destruct (pfd s' !! j)].
    rewrite polled_high in Er by lia. rewrite (Hclean j r Er) by lia.
    destruct (pfd s' !! j); [|done]. by rewrite andb_false_r.
Qed.

Lemma ready_bound :
  Z.of_nat (length (pready (length args - 1) 1 (map fst args) (a_data x)))
  <= if listener_ready x then a_ret x - 1 else a_ret x.
Proof using Hinv Hok.
  destruct polled_data as [_ Hret]. rewrite Hret, length_args.
  pose proof (pready_count (Z.to_nat (pmaxi s + 1) - 1) 1 (map fst args) (a_data x)) as Hc.
  pose proof length_data as Hl. pose proof (pi_maxi_range _ _ Hinv).
  unfold listener_ready. destruct (a_data x) as [|r0 l] eqn:Ed; cbn [length] in Hl; [lia|]. change (drop 1 (r0 :: l)) with l in Hc. rewrite take_ge in Hc by lia.
  change (default 0 ((r0 :: l) !! 0%nat)) with r0. rewrite nonzero_cons. destruct (revents_test POLLRDNORM r0) eqn:Er.
  - case_decide as Hr; [cbn [length]; lia|]. assert (r0 = 0) as -> by lia.
    by rewrite revents_test_0 in Er.
  - case_decide; cbn [length]; lia.
Qed.
End Round.

Definition poll_post (open : gset Z) (s : pollsrv) (r : pollsrv + Empty_set) (e : list event) : Prop :=
  match r with
  | inl s' => (0 < waits e)%nat /\
      (fresh open e ->
       poll_inv (open_after open e) s' /\ clean s' /\ poll_round_ok e /\ all_echoed e)
  | inr _ => False
  end.
Definition poll_halt (open : gset Z) (h : halt) (e : list event) : Prop :=
  fresh open e -> (h = Blocked \/ h = Exited 1) /\ all_echoing e.

(** The clients after the listening socket, or without it: [e0] are the
    events of the new connection. *)
Lemma runs_round_check open s a e0 s' w :
  let x := normalise (CPoll (poll_args s) INFTIM) a in
  poll_inv open s -> clean s -> 0 <= a_ret x ->
  (fresh open e0 -> poll_inv (open_after open e0) s' /\ prev s' = prev (polled s x) /\
     pmaxi s <= pmaxi s' /\
     pready (Z.to_nat (pmaxi s')) 1 (pfd s') (prev s')
     = pready (length (poll_args s) - 1) 1 (map fst (poll_args s)) (a_data x)) ->
  fresh open e0 -> reads e0 = [] -> all_echoed e0 ->
  (if listener_ready x then exists conn, accepted e0 = [conn] else accepted e0 = []) ->
  runs (s'' ← poll_check (Z.to_nat (pmaxi s')) 1 (if listener_ready x then a_ret x - 1 else a_ret x) s';
        mret (A := pollsrv + Empty_set) (inl s''))
    (fun r e => poll_post open s r ((CPoll (poll_args s) INFTIM, x) :: e0 ++ e))
    (fun h e => poll_halt open h ((CPoll (poll_args s) INFTIM, x) :: e0 ++ e)) w.
Proof using HOM Hlisten.
  intros x Hinv Hclean Hok Hs' Hf R0 E0 A0. destruct (Hs' Hf) as (Hinv' & Hprev & Hmax & Hready).
  assert (all_echoed ((CPoll (poll_args s) INFTIM, x) :: e0)) as Hech
    by (apply (all_echoed_app [_]); [by apply no_io_echoed; repeat constructor|done]).
  apply runs_bind. eapply runs_mono; [apply (runs_poll_check (open_after open e0))| |].
  - done.
  - lia.
  - pose proof (pi_maxi_range _ _ Hinv'). pose proof (pi_length _ _ Hinv'). lia.
  - rewrite Hready. by apply (ready_bound open).
  - intros s'' e (R & A & E & I & P & Mx) w'. apply runs_ret. rewrite app_nil_r. split; [simpl; lia|].
    intros _. cbn [open_after]. rewrite open_after_app. split; [done|]. split; [|split].
    + apply (clean_polled open s a Hinv Hclean Hok); [rewrite P; exact Hprev|lia].
    + do 3 eexists. split; [reflexivity|]. rewrite reads_app, accepted_app, R0, R, A, app_nil_r.
      split; [done|]. done.
    + rewrite app_comm_cons. by apply all_echoed_app.
  - intros h e (Hh & _ & He) _. split; [done|]. rewrite app_comm_cons. by apply all_echoing_app.
Qed.

Lemma makes_poll_check todo i nready s :
  makes (fun _ => True) (poll_check todo i nready s).
Proof using Type.
  revert i nready s. induction todo as [|todo IH]; intros i nready s; cbn [poll_check];
    [apply makes_ret|].
  destruct (pfd s !! i); [|apply makes_halted]. destruct (prev s !! i); [|apply makes_halted].
  destruct (_ <? 0); [done|]. destruct (revents_test _ _); [|done].
  apply makes_bind.
  - unfold poll_serve, Close, check_sys. solve_makes;
      first [by apply makes_err_sys | by apply makes_Writen].
  - intros s'. apply makes_if; [apply makes_ret|apply IH].
Qed.

Lemma runs_poll_progress s w :
  runs (poll_round OPEN_MAX listenfd s)
    (fun r e => match r with inl _ => (0 < waits e)%nat | inr _ => False end) (fun _ _ => True) w.
Proof using Type.
  unfold poll_round. eapply runs_wraps; [apply Poll_wraps|done|done|].
  intros a w1 _. eapply (runs_mono _ (fun _ e => only (fun _ => True) e)).
  - assert (forall s n, makes (fun _ => True) (s'' ← poll_check (Z.to_nat (pmaxi s)) 1 n s;
                          mret (A := pollsrv + Empty_set) (inl s''))) as Hc
      by (intros; apply makes_bind; [apply makes_poll_check|intros; apply makes_ret]).
    revert w1. cbv zeta. fold (makes (A := pollsrv + Empty_set) (fun _ => True)).
    destruct (_ !! _); [|intros; apply makes_halted].
    apply (makes_if (fun _ => True)); [|apply Hc]. apply makes_bind.
    + unfold poll_new_client, Accept, Accept_body. solve_makes;
        first [by apply makes_err_sys | by apply makes_err_quit].
    + intros s'. apply makes_if; [apply makes_ret|apply Hc].
  - intros [s'|[]] e _. simpl. lia.
  - done.
Qed.

Lemma runs_poll_round open s w :
  poll_inv open s -> clean s ->
  runs (poll_round OPEN_MAX listenfd s) (poll_post open s) (poll_halt open) w.
Proof using HOM Hlisten.
  intros Hinv Hclean. unfold poll_round.
  eapply runs_wraps; [apply Poll_wraps| | |].
  - intros _. split; [by left|]. by apply all_echoed_echoing.
  - intros a rep _ Hrep _. split; [by right|]. apply all_echoed_echoing, no_io_echoed.
    constructor; [done|by apply reports_no_io].
  - intros a w1 Hg. unfold succeeded, id in *. cbv zeta.
    set (x := normalise _ a) in *. fold (polled s x).
    pose proof (length_data open s a Hinv Hg) as Hl. fold x in Hl.
    pose proof (pi_maxi_range _ _ Hinv) as Hr.
    destruct (prev (polled s x) !! 0%nat) as [r0|] eqn:Er0.
    2: { apply lookup_ge_None in Er0. unfold polled in Er0. cbn [prev] in Er0.
         rewrite length_app in Er0. lia. }
    assert (listener_ready x = revents_test POLLRDNORM r0) as Hlr.
    { unfold listener_ready. rewrite <- (polled_low open s a Hinv Hg) by lia. fold x. by rewrite Er0. }
    rewrite <- Hlr. destruct (listener_ready x) eqn:El.
    + apply runs_bind. eapply runs_mono; [apply (runs_poll_new_client open)| |].
      * by apply (polled_inv open s a).
      * intros s' e (R & E & conn & A & Hf) w2.
        destruct (decide (fresh open e)) as [Hfr|Hnf].
        2: { assert (makes (fun _ => True) (if a_ret x - 1 <=? 0 then mret (A := pollsrv + Empty_set) (inl s')
               else s'' ← poll_check (Z.to_nat (pmaxi s')) 1 (a_ret x - 1) s'; mret (inl s''))) as Hm.
             { apply makes_if; [apply makes_ret|]. apply makes_bind; [apply makes_poll_check|].
               intros; apply makes_ret. }
             eapply runs_mono; [apply Hm| |].
             - intros [s''|[]] e2 _. split; [simpl; lia|]. cbn [fresh]. rewrite fresh_app. tauto.
             - intros h e2 _. unfold poll_halt. cbn [fresh]. rewrite fresh_app. tauto. }
        assert (poll_inv (open_after open e) s' /\ prev s' = prev (polled s x) /\
                pmaxi s <= pmaxi s' /\
                pready (Z.to_nat (pmaxi s')) 1 (pfd s') (prev s')
                = pready (length (poll_args s) - 1) 1 (map fst (poll_args s)) (a_data x)) as Hs'.
        { destruct (Hf Hfr) as (Hinv' & Hp & Hmax & i & fd0 & Hi & Hneg & Hc).
          split; [done|]. split; [done|]. split; [done|]. by eapply (ready_new open s a). }
        destruct (a_ret x - 1 <=? 0) eqn:E1; zbool.
        -- apply runs_ret. rewrite app_nil_r. split; [simpl; lia|]. intros _.
           destruct Hs' as (Hinv' & Hp & Hmax & Hready).
           split; [done|]. split; [by apply (clean_polled open s a)|]. split.
           ++ do 3 eexists. split; [reflexivity|]. rewrite R, El. split; [|by exists conn].
              pose proof (ready_bound open s a Hinv Hg) as Hb. fold x in Hb. rewrite El in Hb.
              symmetry. apply nil_length_inv. lia.
           ++ apply (all_echoed_app [_]); [by apply no_io_echoed; repeat constructor|done].
        -- pose proof (runs_round_check open s a e s' w2 Hinv Hclean Hg (fun _ => Hs') Hfr R E) as Hrun.
           cbv zeta in Hrun. fold x in Hrun. rewrite El in Hrun. apply Hrun. by exists conn.
      * intros h e [Hh E] _. split; [done|].
        apply (all_echoing_app [_]); [by apply no_io_echoed; repeat constructor|by apply all_echoed_echoing].
    + pose proof (runs_round_check open s a [] (polled s x) w1 Hinv Hclean Hg) as Hrun.
      cbv zeta in Hrun. fold x in Hrun. rewrite El in Hrun. apply Hrun; try done.
      intros _. split; [by apply (polled_inv open s a)|]. split; [done|]. split; [done|].
      by apply (ready_args open s a).
Qed.
End Proofs.

(** ** The whole run *)

Definition poll_trace (OPEN_MAX : Z) (h : halt) (evs : list event) : Prop :=
  (h = Blocked \/ h = Exited 1) /\ all_echoing evs /\
  exists listenfd setup rounds last,
    evs = setup ++ concat rounds ++ last /\ Forall poll_round_ok rounds /\
    all_echoed (setup ++ concat rounds) /\
    (rounds <> [] -> exists s,
       poll_inv OPEN_MAX listenfd (open_after ∅ (setup ++ concat rounds)) s).

Lemma poll_trace_start OPEN_MAX h e :
  (h = Blocked \/ h = Exited 1) -> only no_io e -> poll_trace OPEN_MAX h e.
Proof.
  intros Hh Hio. split; [done|]. pose proof (no_io_echoed e Hio) as He.
  split; [by apply all_echoed_echoing|]. exists 0, e, [], []. simpl. rewrite !app_nil_r.
  split; [done|]. split; [constructor|]. split; [done|]. by intros [].
Qed.

Section Main.
Context (OPEN_MAX : Z) (HOM : 1 < OPEN_MAX) (l : Z) (Hl : 0 <= l) (e0 : list event).

Definition ploop_inv (s : pollsrv) (evs : list event) : Prop :=
  fresh ∅ (e0 ++ evs) ->
  poll_inv OPEN_MAX l (open_after ∅ (e0 ++ evs)) s /\ clean s /\ all_echoed (e0 ++ evs) /\
  exists rounds, evs = concat rounds /\ Forall poll_round_ok rounds.

Lemma ploop_step s s' evs e :
  ploop_inv s evs -> poll_post OPEN_MAX l (open_after ∅ (e0 ++ evs)) s (inl s') e ->
  ploop_inv s' (evs ++ e).
Proof using Type.
  intros Hinv [_ Hpost] Hf. rewrite app_assoc in *. apply fresh_app in Hf as [Hf0 Hfe].
  destruct (Hinv Hf0) as (Hi & Hc & He & rounds & -> & Hr).
  destruct (Hpost Hfe) as (Hi' & Hc' & Hr' & He').
  rewrite open_after_app. split; [done|]. split; [done|]. split; [by apply all_echoed_app|].
  exists (rounds ++ [e]). rewrite concat_app. simpl. rewrite app_nil_r. split; [done|].
  apply Forall_app. auto.
Qed.

Lemma ploop_halt s h evs e :
  ploop_inv s evs -> poll_halt (open_after ∅ (e0 ++ evs)) h e -> fresh ∅ (e0 ++ evs ++ e) ->
  poll_trace OPEN_MAX h (e0 ++ evs ++ e).
Proof using Type.
  intros Hinv Hh Hf. rewrite app_assoc in *. apply fresh_app in Hf as [Hf0 Hfe].
  destruct (Hinv Hf0) as (Hi & Hc & He & rounds & -> & Hr).
  destruct (Hh Hfe) as [Hst Hec].
  split; [done|]. split; [by apply all_echoing_app|].
  exists l, e0, rounds, e. rewrite <- app_assoc. split; [done|]. split; [done|]. split; [done|].
  intros _. by exists s.
Qed.

Lemma runs_poll_loop s w :
  ploop_inv s [] ->
  runs (loop (poll_round OPEN_MAX l) s) (fun _ _ => False)
    (fun h e => fresh ∅ (e0 ++ e) -> poll_trace OPEN_MAX h (e0 ++ e)) w.
Proof using HOM Hl.
  intros H0. apply (runs_loop _ ploop_inv); [done|].
  intros s1 evs w1 Hinv. destruct (decide (fresh ∅ (e0 ++ evs))) as [Hf|Hnf].
  - destruct (Hinv Hf) as (Hi1 & Hc1 & _).
    eapply runs_mono; [by apply (runs_poll_round OPEN_MAX HOM l Hl (open_after ∅ (e0 ++ evs)) s1)| |].
    + intros [s'|[]] e Hp. split; [by destruct Hp|]. by eapply ploop_step.
    + intros h e Hh. by eapply ploop_halt.
  - eapply runs_mono; [apply runs_poll_progress| |].
    + intros [s'|[]] e Hw. split; [done|]. intros Hf. rewrite app_assoc in Hf. by apply fresh_app in Hf as [].
    + intros h e _ Hf. rewrite app_assoc in Hf. by apply fresh_app in Hf as [].
Qed.
End Main.



Definition polls (fd : Z) (e : event) : bool :=
  match fst e with CPoll args _ => bool_decide (fd ∈ map fst args) | _ => false end.

(** without that assumption on the uninitialised [revents] the round
    property fails: when the stack happens to hold POLLRDNORM there, a
    connection just accepted into a new entry (descriptor 5) is read although
    no [poll] has ever been asked about it; a silent client then blocks the
    whole server. *)
Theorem poll_stale_revents :
  let ready l := Ans 0 0 l [] in
  let garbage := <[2%nat := 64]> (replicate 256 0) in
  let w := world0 [ok 3; ok 0; err 0; ok 0; ready [64]; ok 4; ready [64; 1]; ok 5; data [97]] in
  exists w', tcpservpoll01 256 garbage w = (Halt Blocked, w') /\ fresh ∅ (trace w') /\
    (CRead 5 MAXLINE, data [97]) ∈ trace w' /\ forallb (fun e => negb (polls 5 e)) (trace w') = true.
Proof.
  cbv zeta. eexists. split; [vm_compute; reflexivity|].
  split; [by_eval|]. split; [|vm_compute; reflexivity]. cbn [trace].
  repeat (first [apply list_elem_of_here|apply list_elem_of_further]).
Qed.
