(* ===== verification/TcpCli.v ===== *)
(** * The TCP clients: lib/str_cli.c, tcpcliserv/str_cli*.c, select/ and their main functions

    Standard input is the stream of [CFgets] answers; a line is the bytes of
    the [fgets] buffer, of which [strlen] sees those before the first NUL. *)

From S2P Require Import Prelude InetPton InetNtop Unix ErrorLib Wrap ReadWrite TcpEcho TcpSelect.

(** ** lib/str_cli.c (and the identical tcpcliserv/str_cli08.c) *)

Definition str_cli_body (sockfd : Z) (st : rl) : M (rl + rl) :=
  l ← Fgets MAXLINE;
  match l with
  | None => mret (inr st)
  | Some sendline =>
      Writen sockfd (c_string sendline) ;;
      r ← Readline sockfd MAXLINE st;
      let '(n, recvline, st) := r in
      if n =? 0 then err_quit (chars "str_cli: server terminated prematurely")
      else Fputs (c_string recvline) ;; mret (inl st)
  end.
Definition str_cli (sockfd : Z) (st : rl) : M rl := loop (str_cli_body sockfd) st.

(** ** tcpcliserv/str_cli11.c: the line in two segments

    [strlen(sendline) - 1] is a [size_t]: for a line that starts with NUL it
    is SIZE_MAX and [Writen] reads beyond the buffer. *)
Definition str_cli11_body (sockfd : Z) (st : rl) : M (rl + rl) :=
  l ← Fgets MAXLINE;
  match l with
  | None => mret (inr st)
  | Some sendline =>
      Writen sockfd (take 1 sendline) ;;
      kernel (libc "sleep" [1] []) ;;
      (if strlen sendline =? 0 then undefined
       else Writen sockfd (drop 1 (c_string sendline))) ;;
      r ← Readline sockfd MAXLINE st;
      let '(n, recvline, st) := r in
      if n =? 0 then err_quit (chars "str_cli: server terminated prematurely")
      else Fputs (c_string recvline) ;; mret (inl st)
  end.
Definition str_cli11 (sockfd : Z) (st : rl) : M rl := loop (str_cli11_body sockfd) st.

(** ** select/strcliselect01.c *)

Definition strcliselect01_body (infd sockfd : Z) (s : gset Z * rl) : M ((gset Z * rl) + rl) :=
  let '(rset, st) := s in
  rset ← fd_set infd rset;
  rset ← fd_set sockfd rset;
  a ← Select (Z.max infd sockfd + 1) rset ∅ None;
  let rset : gset Z := list_to_set (a_data a) in
  st ← (if fd_isset sockfd rset then
          r ← Readline sockfd MAXLINE st;
          let '(n, recvline, st) := r in
          if n =? 0 then err_quit (chars "str_cli: server terminated prematurely")
          else Fputs (c_string recvline) ;; mret st
        else mret st);
  if fd_isset infd rset then
    l ← Fgets MAXLINE;
    match l with
    | None => mret (inr st)
    | Some sendline => Writen sockfd (c_string sendline) ;; mret (inl (rset, st))
    end
  else mret (inl (rset, st)).
Definition strcliselect01 (infd sockfd : Z) (st : rl) : M rl :=
  loop (strcliselect01_body infd sockfd) (∅, st).

(** ** select/strcliselect02.c *)

Definition strcliselect02_body (infd sockfd : Z) (s : gset Z * bool) : M ((gset Z * bool) + unit) :=
  let '(rset, stdineof) := s in
  rset ← (if stdineof : bool then mret rset else fd_set infd rset);
  rset ← fd_set sockfd rset;
  a ← Select (Z.max infd sockfd + 1) rset ∅ None;
  let rset : gset Z := list_to_set (a_data a) in
  fin ← (if fd_isset sockfd rset then
           a ← Read sockfd MAXLINE;
           if a_ret a =? 0 then
             if stdineof : bool then mret true
             else err_quit (chars "str_cli: server terminated prematurely")
           else Write STDOUT_FILENO (a_data a) ;; mret false
         else mret false);
  if fin : bool then mret (inr ())
  else if fd_isset infd rset then
    a ← Read infd MAXLINE;
    if a_ret a =? 0 then
      Shutdown sockfd SHUT_WR ;;
      rset ← fd_clr infd rset;
      mret (inl (rset, true))
    else Writen sockfd (a_data a) ;; mret (inl (rset, stdineof))
  else mret (inl (rset, stdineof)).
Definition strcliselect02 (infd sockfd : Z) : M unit :=
  loop (strcliselect02_body infd sockfd) (∅, false).

(** ** The main functions

    [argv] is the argument vector with the program name; [client] is what
    follows the connection. *)

Definition usage : list Z := chars "usage: tcpcli <IPaddress>".

Definition connected (port : Z) (addr : list Z) : M Z :=
  sockfd ← Socket AF_INET SOCK_STREAM 0;
  sin_addr ← Inet_pton AF_INET addr;
  Connect sockfd (sockaddr_in port sin_addr) ;;
  mret sockfd.

Definition tcp_main (text : list Z) (port : Z) (client : Z -> M unit) (argv : list (list Z)) : M Empty_set :=
  match argv with
  | [_; addr] => sockfd ← connected port addr; client sockfd ;; exit 0
  | _ => err_quit text
  end.

Definition run_str_cli (sockfd : Z) : M unit := str_cli sockfd rl_init ;; mret ().

Definition tcpcli01 : list (list Z) -> M Empty_set := tcp_main usage SERV_PORT run_str_cli.
Definition tcpcli05 : list (list Z) -> M Empty_set := tcp_main usage 7 run_str_cli.
Definition tcpcli06 : list (list Z) -> M Empty_set :=
  tcp_main usage SERV_PORT (fun sockfd =>
    Writen sockfd (chars "foo") ;; kernel (libc "sleep" [30] []) ;; mret ()).
Definition tcpcli08 : list (list Z) -> M Empty_set := tcp_main usage SERV_PORT run_str_cli.
Definition SOL_SOCKET : Z := 1.
Definition SO_LINGER : Z := 13.
(** l_onoff = 1, l_linger = 0 *)
Definition tcpcli10 : list (list Z) -> M Empty_set :=
  tcp_main usage SERV_PORT (fun sockfd =>
    run_str_cli sockfd ;; Setsockopt sockfd SOL_SOCKET SO_LINGER [1; 0; 0; 0; 0; 0; 0; 0]).
Definition tcpcli11 : list (list Z) -> M Empty_set :=
  tcp_main usage 7 (fun sockfd => str_cli11 sockfd rl_init ;; mret ()).

(** select/tcpcli01.c, tcpcli02.c and tcpcli03.c; standard input is
    descriptor 0. *)
Definition select_tcpcli01 : list (list Z) -> M Empty_set :=
  tcp_main usage 7 (fun sockfd => strcliselect01 STDIN_FILENO sockfd rl_init ;; mret ()).
Definition select_tcpcli02 : list (list Z) -> M Empty_set :=
  tcp_main usage 7 (strcliselect02 STDIN_FILENO).
Definition select_tcpcli03 : list (list Z) -> M Empty_set :=
  tcp_main (chars "usage: tcpcli03 <IPaddress>") 19 (fun sockfd =>
    kernel (CShutdown sockfd SHUT_RD) ;; kernel (libc "pause" [] []) ;; mret ()).

Example tcpcli01_run :
  let '(r, w) := tcpcli01 [[]; chars "127.0.0.1"] (world0
    [ok 3; ok 0; data (chars "hello" ++ [10]); ok 6; data (chars "hello" ++ [10]); ok 6; ok 0]) in
  r = Halt (Exited 0) /\ sent 3 (trace w) = chars "hello" ++ [10].
Proof. vm_compute. auto. Qed.

(** ** What a client has read from its input and printed *)

Fixpoint inputs (evs : list event) : list (list Z) :=
  match evs with
  | [] => []
  | (CFgets _, a) :: evs' => if 0 <? a_ret a then a_data a :: inputs evs' else inputs evs'
  | _ :: evs' => inputs evs'
  end.
Fixpoint printed (evs : list event) : list (list Z) :=
  match evs with
  | [] => []
  | (CFputs d, a) :: evs' => if a_ret a <? 0 then printed evs' else d :: printed evs'
  | _ :: evs' => printed evs'
  end.

Lemma inputs_app a b : inputs (a ++ b) = inputs a ++ inputs b.
Proof. induction a as [|[c x] a IH]; [done|]. destruct c; simpl; rewrite ?IH; try done. by destruct (_ <? _). Qed.
Lemma printed_app a b : printed (a ++ b) = printed a ++ printed b.
Proof. induction a as [|[c x] a IH]; [done|]. destruct c; simpl; rewrite ?IH; try done. by destruct (_ <? _). Qed.

(** Reads, writes and reports. *)
Definition socket_io (c : call) : Prop :=
  match c with CRead _ _ | CWrite _ _ | CFflush _ | CStderr _ | CSyslog _ _ => True | _ => False end.
Lemma socket_io_events evs : only socket_io evs -> inputs evs = [] /\ printed evs = [].
Proof. induction 1 as [|[c a] evs Hc Hevs [IH1 IH2]]; [done|]. destruct c; try done; simpl; by rewrite IH1, IH2. Qed.
Lemma reads_socket_io fd evs : only (is_read fd) evs -> inputs evs = [] /\ printed evs = [].
Proof. intros H. apply socket_io_events. refine (only_mono _ _ _ _ H). by intros []. Qed.
Lemma writes_socket_io fd evs : only (is_write fd) evs -> inputs evs = [] /\ printed evs = [].
Proof. intros H. apply socket_io_events. refine (only_mono _ _ _ _ H). by intros []. Qed.
Lemma reports_socket_io evs : only is_report evs -> inputs evs = [] /\ printed evs = [].
Proof. intros H. apply socket_io_events. refine (only_mono _ _ _ _ H). by intros []. Qed.

(** ** The stop-and-wait client

    One line in, one line out: whenever the loop starts, as many lines were
    printed as were read. *)

Definition lockstep (fd : Z) (st0 st : rl) (evs : list event) : Prop :=
  exists lines : list (list Z),
    rl_wf st /\ sent fd evs = concat (map c_string (inputs evs)) /\
    pending st0 ++ received fd evs = concat lines ++ pending st /\
    Forall (chunk MAXLINE) lines /\ printed evs = map c_string lines /\
    length lines = length (inputs evs).

(** Stopped in the middle: the last line may be sent in part, its answer
    missing or not printed. *)
Definition lockstep_cut (fd : Z) (st0 : rl) (h : halt) (evs : list event) : Prop :=
  (h = Blocked \/ h = Exited 1) /\
  exists (lines : list (list Z)) (rest : list Z),
    sent fd evs `prefix_of` concat (map c_string (inputs evs)) /\
    pending st0 ++ received fd evs = concat lines ++ rest /\
    Forall (chunk MAXLINE) lines /\ printed evs `prefix_of` map c_string lines /\
    (length lines <= length (inputs evs) <= length (printed evs) + 1)%nat.

(** The same facts relative to the start of an iteration: [ins] lines read,
    [out] bytes sent, [got] bytes received, [prt] lines printed since. *)
Lemma lockstep_cut_intro fd st0 st h evs e more rest :
  lockstep fd st0 st evs -> (h = Blocked \/ h = Exited 1) ->
  sent fd e `prefix_of` concat (map c_string (inputs e)) ->
  pending st ++ received fd e = concat more ++ rest ->
  Forall (chunk MAXLINE) more -> printed e `prefix_of` map c_string more ->
  (length more <= length (inputs e) <= length (printed e) + 1)%nat ->
  lockstep_cut fd st0 h (evs ++ e).
Proof.
  intros (lines & Hwf & Hs & Hp & Hc & Hpr & Hl) Hh Hse Hre Hm Hpe Hle. split; [done|].
  exists (lines ++ more), rest. autorewrite with world.
  rewrite inputs_app, printed_app, map_app, map_app, !concat_app, Hs, Hpr.
  split; [by apply prefix_app|]. split.
  { rewrite app_assoc, Hp, <- !app_assoc. by rewrite Hre. }
  split; [by apply Forall_app|]. split; [by apply prefix_app|].
  rewrite !length_app, length_map. lia.
Qed.

Lemma lockstep_step fd st0 st st' evs e line more :
  lockstep fd st0 st evs -> rl_wf st' -> inputs e = [line] ->
  sent fd e = c_string line -> pending st ++ received fd e = more ++ pending st' ->
  chunk MAXLINE more -> printed e = [c_string more] ->
  lockstep fd st0 st' (evs ++ e).
Proof.
  intros (lines & Hwf & Hs & Hp & Hc & Hpr & Hl) Hwf' Hin Hse Hre Hm Hpe.
  exists (lines ++ [more]). autorewrite with world.
  rewrite inputs_app, printed_app, !map_app, !concat_app, Hs, Hpr, Hin, Hpe, Hse. simpl.
  rewrite !app_nil_r, <- app_assoc. split; [done|]. split; [done|]. split.
  { rewrite app_assoc, Hp, <- !app_assoc. by rewrite Hre. }
  split; [apply Forall_app; auto|]. split; [done|]. rewrite !length_app. simpl. lia.
Qed.

(** The reading of the answer and its printing: the last part of all the
    stop-and-wait loops, after [e0] which read [line] and sent it. *)
Definition answer_line {A} (sockfd : Z) (st : rl) (k : rl -> M A) : M A :=
  r ← Readline sockfd MAXLINE st;
  let '(n, recvline, st) := r in
  if n =? 0 then err_quit (chars "str_cli: server terminated prematurely")
  else Fputs (c_string recvline) ;; k st.

Lemma runs_answer_line fd st0 st evs e0 line w :
  lockstep fd st0 st evs -> inputs e0 = [line] -> printed e0 = [] ->
  sent fd e0 = c_string line -> received fd e0 = [] -> (0 < waits e0)%nat ->
  runs (answer_line fd st (fun st => mret (A := rl + rl) (inl st)))
    (fun r e => match r with
                | inl st' => (0 < waits (e0 ++ e))%nat /\ lockstep fd st0 st' (evs ++ e0 ++ e)
                | inr _ => False
                end)
    (fun h e => lockstep_cut fd st0 h (evs ++ e0 ++ e)) w.
Proof.
  intros Hl Hin Hpr Hs Hr Hw. unfold answer_line. pose proof Hl as (_ & Hwf & _).
  apply runs_bind, runs_Readline; [done|done|..].
  - intros e He. destruct (reads_socket_io _ _ He) as [H1 H2].
    apply (lockstep_cut_intro _ _ st _ _ _ [] (pending st ++ received fd e)); [done|auto|..];
      rewrite ?sent_app, ?received_app, ?inputs_app, ?printed_app, ?Hin, ?Hpr, ?Hs, ?Hr, ?H1, ?H2;
      try done; [|simpl; lia].
    rewrite (sent_reads _ _ _ He). simpl. by rewrite !app_nil_r.
  - intros e rep He Hrep. destruct (reads_socket_io _ _ He) as [H1 H2].
    destruct (reports_socket_io _ Hrep) as [H3 H4].
    apply (lockstep_cut_intro _ _ st _ _ _ [] (pending st ++ received fd e)); [done|auto|..];
      rewrite ?sent_app, ?received_app, ?inputs_app, ?printed_app, ?Hin, ?Hpr, ?Hs, ?Hr, ?H1, ?H2, ?H3, ?H4,
        ?(sent_reports _ _ Hrep), ?(received_reports _ _ Hrep), ?(sent_reads _ _ _ He), ?app_nil_r;
      try done; simpl; [by rewrite app_nil_r|lia].
  - intros r more st' e Hr0 (He & Hwf' & Hp & Hb & Hline & Hr00) w1.
    destruct (reads_socket_io _ _ He) as [H1 H2].
    destruct (line_ret_chunk MAXLINE more e r ltac:(done) Hline Hr0) as [[-> ->]|[Hne Hch]].
    { apply (runs_fatal false). intros rep Hrep. destruct (reports_socket_io _ Hrep) as [H3 H4].
      apply (lockstep_cut_intro _ _ st _ _ _ [] (pending st ++ received fd e)); [done|auto|..];
      rewrite ?sent_app, ?received_app, ?inputs_app, ?printed_app, ?Hin, ?Hpr, ?Hs, ?Hr, ?H1, ?H2, ?H3, ?H4,
        ?(sent_reports _ _ Hrep), ?(received_reports _ _ Hrep), ?(sent_reads _ _ _ He), ?app_nil_r;
      try done; simpl; [by rewrite app_nil_r|lia]. }
    replace (r =? 0) with false by lia.
    assert (forall h e2, (h = Blocked \/ h = Exited 1) -> inputs e2 = [] -> printed e2 = [] ->
      sent fd e2 = [] -> received fd e2 = [] -> lockstep_cut fd st0 h (evs ++ e0 ++ e ++ e2)) as Hcut.
    { intros h e2 Hh Hi2 Hp2 Hs2 Hr2.
      apply (lockstep_cut_intro _ _ st _ _ _ [more] (pending st')); [done|done|..];
      rewrite ?sent_app, ?received_app, ?inputs_app, ?printed_app, ?Hin, ?Hpr, ?Hs, ?Hr, ?H1, ?H2, ?Hi2, ?Hp2,
        ?Hs2, ?Hr2, ?(sent_reads _ _ _ He), ?app_nil_r; simpl; rewrite ?app_nil_r; try done.
      - apply Forall_singleton. done.
      - by apply prefix_nil. }
    eapply runs_wraps; [apply Fputs_wraps| | |].
    + by apply Hcut; auto.
    + intros a rep Hbad Hrep. destruct (reports_socket_io _ Hrep) as [H3 H4].
      unfold succeeded in Hbad. apply Hcut; auto; simpl.
      * replace (_ <? 0) with true by lia. done.
      * by apply sent_reports.
      * by apply received_reports.
    + intros a w2 Hg. unfold succeeded in Hg. apply runs_ret. split; [rewrite waits_app; lia|].
      eapply (lockstep_step _ _ _ _ _ _ line more); try done;
        rewrite ?sent_app, ?received_app, ?inputs_app, ?printed_app, ?Hin, ?Hpr, ?Hs, ?Hr, ?H1, ?H2,
          ?(sent_reads _ _ _ He); simpl; rewrite ?app_nil_r; try done.
      replace (_ <? 0) with false by lia. done.
Qed.

(** What one answer of [fgets] is to the rest of the iteration. *)
Lemma runs_Fgets {A} (k : option (list Z) -> M A) (Q : A -> list event -> Prop)
    (H : halt -> list event -> Prop) w :
  H Blocked [] ->
  (forall a rep, a_ret a < 0 -> only is_report rep -> H (Exited 1) ((CFgets MAXLINE, a) :: rep)) ->
  (forall a w', a_ret a = 0 -> runs (k None) (fun b e => Q b ((CFgets MAXLINE, a) :: e))
     (fun h e => H h ((CFgets MAXLINE, a) :: e)) w') ->
  (forall a w', inputs [(CFgets MAXLINE, a)] = [a_data a] -> a_data a <> [] ->
     runs (k (Some (a_data a))) (fun b e => Q b ((CFgets MAXLINE, a) :: e))
       (fun h e => H h ((CFgets MAXLINE, a) :: e)) w') ->
  runs (l ← Fgets MAXLINE; k l) Q H w.
Proof.
  intros HB HE H0 H1. eapply runs_wraps; [apply Fgets_wraps|done| |].
  - intros a rep Hbad Hrep. unfold succeeded in Hbad. apply HE; [lia|done].
  - intros a w' Hg. unfold succeeded in Hg.
    assert (a_ret (normalise (CFgets MAXLINE) a) = Z.of_nat (length (a_data (normalise (CFgets MAXLINE) a)))) as Hr.
    { revert Hg. unfold normalise. destruct (a_ret a <? 0); [simpl; lia|done]. }
    set (x := normalise _ a) in *. cbv beta. destruct (a_ret x =? 0) eqn:E; zbool; [by apply H0|].
    apply H1; [simpl; by replace (0 <? a_ret x) with true by lia|].
    intros Hd. rewrite Hd in Hr. simpl in Hr. lia.
Qed.

Lemma lockstep_quiet fd st0 st evs e :
  lockstep fd st0 st evs -> inputs e = [] -> printed e = [] -> sent fd e = [] -> received fd e = [] ->
  lockstep fd st0 st (evs ++ e).
Proof.
  intros (lines & Hwf & Hs & Hp & Hc & Hpr & Hl) H1 H2 H3 H4. exists lines. autorewrite with world.
  by rewrite inputs_app, printed_app, H1, H2, H3, H4, !app_nil_r.
Qed.

Lemma lockstep_cut_quiet fd st0 st h evs e :
  lockstep fd st0 st evs -> (h = Blocked \/ h = Exited 1) ->
  inputs e = [] -> printed e = [] -> sent fd e = [] -> received fd e = [] ->
  lockstep_cut fd st0 h (evs ++ e).
Proof.
  intros Hl Hh H1 H2 H3 H4. apply (lockstep_cut_intro _ _ st _ _ _ [] (pending st)); try done;
    rewrite ?H1, ?H2, ?H3, ?H4, ?app_nil_r; try done; simpl; lia.
Qed.

(** Interrupted while the line [e0] read is being sent by [e]. *)
Lemma lockstep_cut_sending fd st0 st h evs e0 e rep line :
  lockstep fd st0 st evs -> (h = Blocked \/ h = Exited 1) -> inputs e0 = [line] ->
  printed e0 = [] -> received fd e0 = [] -> only (is_write fd) e -> only is_report rep ->
  sent fd e0 ++ sent fd e `prefix_of` c_string line ->
  lockstep_cut fd st0 h (evs ++ e0 ++ e ++ rep).
Proof.
  intros Hl Hh Hin Hpr Hr He Hrep Hpre.
  destruct (writes_socket_io _ _ He) as [H1 H2]. destruct (reports_socket_io _ Hrep) as [H3 H4].
  apply (lockstep_cut_intro _ _ st _ _ _ [] (pending st)); try done;
    rewrite ?sent_app, ?received_app, ?inputs_app, ?printed_app, ?Hin, ?Hpr, ?Hr, ?H1, ?H2, ?H3, ?H4,
      ?(sent_reports _ _ Hrep), ?(received_reports _ _ Hrep), ?(received_writes _ _ _ He), ?app_nil_r;
    try done; simpl; [by rewrite app_nil_r|lia].
Qed.

Lemma runs_str_cli_body fd st0 st evs w :
  lockstep fd st0 st evs ->
  runs (str_cli_body fd st)
    (fun r e => match r with
                | inl st' => (0 < waits e)%nat /\ lockstep fd st0 st' (evs ++ e)
                | inr st' => lockstep fd st0 st' (evs ++ e)
                end)
    (fun h e => lockstep_cut fd st0 h (evs ++ e)) w.
Proof.
  intros Hl. unfold str_cli_body. apply runs_Fgets.
  - by apply (lockstep_cut_quiet _ _ st); auto.
  - intros a rep Ha Hrep. destruct (reports_socket_io _ Hrep) as [H3 H4].
    apply (lockstep_cut_quiet _ _ st); simpl; auto using sent_reports, received_reports.
    by replace (0 <? a_ret a) with false by lia.
  - intros a w1 Ha. apply runs_ret. apply lockstep_quiet; simpl; auto.
    by rewrite Ha.
  - intros a w1 Hin Hne. set (ev := (CFgets MAXLINE, a)) in *. apply runs_bind, runs_Writen.
    + intros e He Hpre. rewrite <- (app_nil_r e).
      by apply (lockstep_cut_sending _ _ st _ _ [ev] e [] (a_data a)); auto.
    + intros e rep He Hrep Hpre.
      by apply (lockstep_cut_sending _ _ st _ _ [ev] e rep (a_data a)); auto.
    + intros e He Hs w2. destruct (writes_socket_io _ _ He) as [H1 H2].
      assert (inputs (ev :: e) = [a_data a]) as Hin'
        by (change (ev :: e) with ([ev] ++ e); by rewrite inputs_app, Hin, H1).
      pose proof (received_writes fd fd e He) as Hr.
      eapply runs_mono; [apply (runs_answer_line fd st0 st evs (ev :: e) (a_data a))| |];
        [done|done|exact H2|exact Hs|exact Hr|simpl; lia| |done].
      by intros [s'|s'] e2.
Qed.

Lemma lockstep_init fd st0 : rl_wf st0 -> lockstep fd st0 st0 [].
Proof. intros Hwf. exists []. rewrite app_nil_r. done. Qed.

Lemma runs_str_cli fd st0 w :
  rl_wf st0 ->
  runs (str_cli fd st0) (fun st' e => lockstep fd st0 st' e) (fun h e => lockstep_cut fd st0 h e) w.
Proof.
  intros Hwf. apply (runs_loop _ (lockstep fd st0)); [by apply lockstep_init|].
  intros s evs w1 Hl. by apply runs_str_cli_body.
Qed.

(** ** str_cli11.c *)

Lemma c_string_split line :
  strlen line <> 0 -> c_string line = take 1 line ++ drop 1 (c_string line).
Proof.
  unfold strlen. destruct line as [|c l]; [done|]. simpl. destruct (c =? 0); [done|]. done.
Qed.

Definition cut11 (fd : Z) (st0 : rl) (h : halt) (evs : list event) : Prop :=
  lockstep_cut fd st0 h evs \/
  h = Undefined /\ exists line, line ∈ inputs evs /\ strlen line = 0.

Lemma cut11_sending fd st0 st h evs a e rep :
  lockstep fd st0 st evs -> (h = Blocked \/ h = Exited 1) ->
  inputs [(CFgets MAXLINE, a)] = [a_data a] -> a_data a <> [] -> strlen (a_data a) <> 0 ->
  only (is_write fd) e -> only is_report rep -> sent fd e `prefix_of` take 1 (a_data a) ->
  cut11 fd st0 h (evs ++ [(CFgets MAXLINE, a)] ++ e ++ rep).
Proof.
  intros Hl Hh Hin Hne Hs He Hrep Hp. left.
  apply (lockstep_cut_sending _ _ st _ _ _ _ _ (a_data a)); try done. simpl.
  rewrite (c_string_split _ Hs). by apply prefix_app_r.
Qed.

Lemma runs_str_cli11_body fd st0 st evs w :
  lockstep fd st0 st evs ->
  runs (str_cli11_body fd st)
    (fun r e => match r with
                | inl st' => (0 < waits e)%nat /\ lockstep fd st0 st' (evs ++ e)
                | inr st' => lockstep fd st0 st' (evs ++ e)
                end)
    (fun h e => cut11 fd st0 h (evs ++ e) \/
                (h = Blocked \/ h = Exited 1) /\ exists line, line ∈ inputs (evs ++ e) /\ strlen line = 0) w.
Proof.
  intros Hl. unfold str_cli11_body. apply runs_Fgets.
  - left; left. by apply (lockstep_cut_quiet _ _ st); auto.
  - intros a rep Ha Hrep. destruct (reports_socket_io _ Hrep) as [H3 H4].
    left; left. apply (lockstep_cut_quiet _ _ st); simpl; auto using sent_reports, received_reports.
    by replace (0 <? a_ret a) with false by lia.
  - intros a w1 Ha. apply runs_ret. apply lockstep_quiet; simpl; auto. by rewrite Ha.
  - intros a w1 Hin Hne. set (ev := (CFgets MAXLINE, a)) in *.
    assert (forall e, a_data a ∈ inputs (evs ++ ev :: e)) as Hmem.
    { intros e. change (ev :: e) with ([ev] ++ e). rewrite !inputs_app, Hin.
      apply elem_of_app; right. apply elem_of_app; left. by apply list_elem_of_singleton. }
    destruct (decide (strlen (a_data a) = 0)) as [Hz|Hnz].
    { (* the line starts with NUL *)
      apply runs_bind, runs_Writen.
      - intros e He Hpre. right. split; [auto|]. eauto.
      - intros e rep He Hrep Hpre. right. split; [auto|]. eauto.
      - intros e He Hs w2. apply runs_call; [done|right; split; [auto|]; eauto|].
        intros b w3. cbv zeta. intros _. rewrite Hz. cbn [Z.eqb].
        apply runs_bind, runs_halted. left; right. split; [done|]. exists (a_data a). split; [|done].
        apply Hmem. }
    apply runs_bind, runs_Writen.
    + intros e He Hpre. left. rewrite <- (app_nil_r e). by apply (cut11_sending _ _ st _ evs a e []); auto.
    + intros e rep He Hrep Hpre. left. by apply (cut11_sending _ _ st _ evs a e rep); auto.
    + intros e He Hs w2. destruct (writes_socket_io _ _ He) as [H1 H2].
      pose proof (received_writes fd fd e He) as Hr.
      apply runs_call; [done| |].
      { left. by apply (cut11_sending _ _ st _ evs a e []); auto; rewrite Hs. }
      intros b w3. cbv zeta. intros _. set (slp := (libc "sleep" [1] [], _)).
      replace (strlen (a_data a) =? 0) with false by lia.
      assert (inputs (ev :: e ++ [slp]) = [a_data a]) as Hin1.
      { change (ev :: e ++ [slp]) with ([ev] ++ e ++ [slp]). by rewrite !inputs_app, Hin, H1. }
      assert (printed (ev :: e ++ [slp]) = []) as Hpr1 by (simpl; by rewrite printed_app, H2).
      assert (received fd (ev :: e ++ [slp]) = []) as Hr1 by (simpl; by rewrite received_app, Hr).
      assert (sent fd (ev :: e ++ [slp]) = take 1 (a_data a)) as Hs1
        by (simpl; by rewrite sent_app, Hs, app_nil_r).
      apply runs_bind, runs_Writen.
      * intros e2 He2 Hpre. left; left. rewrite <- (app_nil_r e2).
        replace (ev :: e ++ slp :: e2 ++ []) with ((ev :: e ++ [slp]) ++ e2 ++ []) by (simpl; by rewrite <- app_assoc).
        apply (lockstep_cut_sending _ _ st _ _ _ _ _ (a_data a)); auto.
        rewrite Hs1, (c_string_split _ Hnz). by apply prefix_app.
      * intros e2 rep He2 Hrep Hpre. left; left.
        replace (ev :: e ++ slp :: e2 ++ rep) with ((ev :: e ++ [slp]) ++ e2 ++ rep) by (simpl; by rewrite <- app_assoc).
        apply (lockstep_cut_sending _ _ st _ _ _ _ _ (a_data a)); auto.
        rewrite Hs1, (c_string_split _ Hnz). by apply prefix_app.
      * intros e2 He2 Hs2 w4. destruct (writes_socket_io _ _ He2) as [H3 H4].
        pose proof (received_writes fd fd e2 He2) as Hr2.
        set (e0 := (ev :: e ++ [slp]) ++ e2).
        eapply runs_mono; [apply (runs_answer_line fd st0 st evs e0 (a_data a)); unfold e0| |].
        -- done.
        -- by rewrite inputs_app, Hin1, H3.
        -- by rewrite printed_app, Hpr1, H4.
        -- rewrite sent_app, Hs1, Hs2. by rewrite <- c_string_split.
        -- by rewrite received_app, Hr1, Hr2.
        -- simpl. lia.
        -- intros [s'|s'] e3; [|by intros []].
           replace (ev :: e ++ slp :: e2 ++ e3) with (e0 ++ e3) by (unfold e0; simpl; by rewrite <- !app_assoc).
           done.
        -- intros h e3 Hcut. left; left.
           replace (ev :: e ++ slp :: e2 ++ e3) with (e0 ++ e3) by (unfold e0; simpl; by rewrite <- !app_assoc).
           done.
Qed.

Lemma runs_str_cli11 fd st0 w :
  rl_wf st0 ->
  runs (str_cli11 fd st0) (fun st' e => lockstep fd st0 st' e)
    (fun h e => lockstep_cut fd st0 h e \/
                exists line, line ∈ inputs e /\ strlen line = 0) w.
Proof.
  intros Hwf. apply (runs_loop _ (lockstep fd st0)); [by apply lockstep_init|].
  intros s evs w1 Hl. eapply runs_mono; [by apply runs_str_cli11_body|done|].
  intros h e [[?|[_ ?]]|[_ ?]]; auto.
Qed.

(** ** strcliselect01.c *)

(** The descriptors are distinct and fit in an [fd_set]. *)
Definition select_fds (infd sockfd : Z) : Prop :=
  infd <> sockfd /\ 0 <= infd < FD_SETSIZE /\ 0 <= sockfd < FD_SETSIZE.

(** All lines read were sent, and all answers taken were printed, but the two
    are not in step: [lines] may be shorter than the input. *)
Definition select01_inv (sockfd : Z) (st0 st : rl) (evs : list event) : Prop :=
  exists lines : list (list Z),
    rl_wf st /\ sent sockfd evs = concat (map c_string (inputs evs)) /\
    pending st0 ++ received sockfd evs = concat lines ++ pending st /\
    Forall (chunk MAXLINE) lines /\ printed evs = map c_string lines.

Definition select01_cut (sockfd : Z) (st0 : rl) (h : halt) (evs : list event) : Prop :=
  (h = Blocked \/ h = Exited 1) /\
  exists (lines : list (list Z)) (rest : list Z),
    sent sockfd evs `prefix_of` concat (map c_string (inputs evs)) /\
    pending st0 ++ received sockfd evs = concat lines ++ rest /\
    Forall (chunk MAXLINE) lines /\ printed evs `prefix_of` map c_string lines.

Lemma select01_app sockfd st0 st st' evs e more :
  select01_inv sockfd st0 st evs -> rl_wf st' ->
  sent sockfd e = concat (map c_string (inputs e)) ->
  pending st ++ received sockfd e = concat more ++ pending st' ->
  Forall (chunk MAXLINE) more -> printed e = map c_string more ->
  select01_inv sockfd st0 st' (evs ++ e).
Proof.
  intros (lines & Hwf & Hs & Hp & Hc & Hpr) Hwf' Hse Hre Hm Hpe.
  exists (lines ++ more). autorewrite with world.
  rewrite inputs_app, printed_app, !map_app, !concat_app, Hs, Hpr, Hse, Hpe.
  split; [done|]. split; [done|]. split.
  { rewrite app_assoc, Hp, <- !app_assoc. by rewrite Hre. }
  split; [by apply Forall_app|done].
Qed.

Lemma select01_stop sockfd st0 st h evs e more rest :
  select01_inv sockfd st0 st evs -> (h = Blocked \/ h = Exited 1) ->
  sent sockfd e `prefix_of` concat (map c_string (inputs e)) ->
  pending st ++ received sockfd e = concat more ++ rest ->
  Forall (chunk MAXLINE) more -> printed e `prefix_of` map c_string more ->
  select01_cut sockfd st0 h (evs ++ e).
Proof.
  intros (lines & Hwf & Hs & Hp & Hc & Hpr) Hh Hse Hre Hm Hpe. split; [done|].
  exists (lines ++ more), rest. autorewrite with world.
  rewrite inputs_app, printed_app, !map_app, !concat_app, Hs, Hpr.
  split; [by apply prefix_app|]. split.
  { rewrite app_assoc, Hp, <- !app_assoc. by rewrite Hre. }
  split; [by apply Forall_app|]. by apply prefix_app.
Qed.

(** Events that change nothing of this. *)
Definition quiet (sockfd : Z) (e : list event) : Prop :=
  sent sockfd e = [] /\ received sockfd e = [] /\ inputs e = [] /\ printed e = [].
Lemma quiet_reports sockfd rep : only is_report rep -> quiet sockfd rep.
Proof.
  intros Hr. destruct (reports_socket_io _ Hr) as [H1 H2].
  split_and!; auto using sent_reports, received_reports.
Qed.
Lemma quiet_app sockfd a b : quiet sockfd a -> quiet sockfd b -> quiet sockfd (a ++ b).
Proof.
  intros (A1 & A2 & A3 & A4) (B1 & B2 & B3 & B4). unfold quiet.
  rewrite sent_app, received_app, inputs_app, printed_app, A1, A2, A3, A4. done.
Qed.
Lemma select01_quiet sockfd st0 st evs e :
  select01_inv sockfd st0 st evs -> quiet sockfd e -> select01_inv sockfd st0 st (evs ++ e).
Proof.
  intros Hi (H1 & H2 & H3 & H4). pose proof Hi as (_ & Hwf & _).
  apply (select01_app _ _ st _ _ _ []); rewrite ?H1, ?H2, ?H3, ?H4, ?app_nil_r; done.
Qed.
Lemma select01_stop_quiet sockfd st0 st h evs e :
  select01_inv sockfd st0 st evs -> (h = Blocked \/ h = Exited 1) -> quiet sockfd e ->
  select01_cut sockfd st0 h (evs ++ e).
Proof.
  intros Hi Hh (H1 & H2 & H3 & H4).
  apply (select01_stop _ _ st _ _ _ [] (pending st)); rewrite ?H1, ?H2, ?H3, ?H4, ?app_nil_r; done.
Qed.

(** The readable socket: one answer is read and printed. *)
Lemma runs_select01_answer sockfd st0 st evs w :
  select01_inv sockfd st0 st evs ->
  runs (answer_line sockfd st mret)
    (fun st' e => select01_inv sockfd st0 st' (evs ++ e))
    (fun h e => select01_cut sockfd st0 h (evs ++ e)) w.
Proof.
  intros Hi. pose proof Hi as (_ & Hwf & _). unfold answer_line.
  apply runs_bind, runs_Readline; [done|done|..].
  - intros e He. destruct (reads_socket_io _ _ He) as [H1 H2].
    apply (select01_stop _ _ st _ _ _ [] (pending st ++ received sockfd e)); auto;
      rewrite ?H1, ?H2, ?(sent_reads _ _ _ He); done.
  - intros e rep He Hrep. destruct (reads_socket_io _ _ He) as [H1 H2].
    destruct (reports_socket_io _ Hrep) as [H3 H4].
    apply (select01_stop _ _ st _ _ _ [] (pending st ++ received sockfd (e ++ rep))); auto;
      rewrite ?sent_app, ?inputs_app, ?printed_app, ?H1, ?H2, ?H3, ?H4, ?(sent_reads _ _ _ He),
        ?(sent_reports _ _ Hrep); done.
  - intros r more st' e Hr0 (He & Hwf' & Hp & Hb & Hline & Hr00) w1.
    destruct (reads_socket_io _ _ He) as [H1 H2].
    destruct (line_ret_chunk MAXLINE more e r ltac:(done) Hline Hr0) as [[-> ->]|[Hne Hch]].
    { apply (runs_fatal false). intros rep Hrep. destruct (reports_socket_io _ Hrep) as [H3 H4].
      apply (select01_stop _ _ st _ _ _ [] (pending st ++ received sockfd (e ++ rep))); auto;
      rewrite ?sent_app, ?inputs_app, ?printed_app, ?H1, ?H2, ?H3, ?H4, ?(sent_reads _ _ _ He),
        ?(sent_reports _ _ Hrep); done. }
    replace (r =? 0) with false by lia.
    assert (forall h e2, (h = Blocked \/ h = Exited 1) -> quiet sockfd e2 ->
      select01_cut sockfd st0 h (evs ++ e ++ e2)) as Hcut.
    { intros h e2 Hh (Q1 & Q2 & Q3 & Q4).
      apply (select01_stop _ _ st _ _ _ [more] (pending st')); auto;
      rewrite ?sent_app, ?received_app, ?inputs_app, ?printed_app, ?H1, ?H2, ?Q1, ?Q2, ?Q3, ?Q4,
        ?(sent_reads _ _ _ He), ?app_nil_r; try done.
      - simpl. by rewrite app_nil_r.
      - by apply prefix_nil. }
    eapply runs_wraps; [apply Fputs_wraps| | |].
    + apply Hcut; [auto|done].
    + intros a rep Hbad Hrep. unfold succeeded in Hbad. apply Hcut; [auto|].
      apply (quiet_app _ [_]); [|by apply quiet_reports]. split_and!; try done.
      simpl. by replace (_ <? 0) with true by lia.
    + intros a w2 Hg. unfold succeeded in Hg. apply runs_ret.
      apply (select01_app _ _ st _ _ _ [more]); auto;
        rewrite ?sent_app, ?received_app, ?inputs_app, ?printed_app, ?H1, ?H2, ?(sent_reads _ _ _ He);
        simpl; rewrite ?app_nil_r; try done.
      by replace (_ <? 0) with false by lia.
Qed.

(** The readable input: one line is read and sent. *)
Lemma runs_select01_input sockfd st0 st rset evs w :
  select01_inv sockfd st0 st evs ->
  runs (l ← Fgets MAXLINE;
        match l with
        | None => mret (A := (gset Z * rl) + rl) (inr st)
        | Some sendline => Writen sockfd (c_string sendline) ;; mret (inl (rset, st))
        end)
    (fun r e => match r with inl (_, st') | inr st' => select01_inv sockfd st0 st' (evs ++ e) end)
    (fun h e => select01_cut sockfd st0 h (evs ++ e)) w.
Proof.
  intros Hi. pose proof Hi as (_ & Hwf & _). apply runs_Fgets.
  - apply (select01_stop_quiet _ _ st); auto. done.
  - intros a rep Ha Hrep. apply (select01_stop_quiet _ _ st); [done|auto|].
    apply (quiet_app _ [_]); [|by apply quiet_reports]. split_and!; try done. simpl.
    by replace (0 <? a_ret a) with false by lia.
  - intros a w1 Ha. apply runs_ret. apply select01_quiet; [done|]. split_and!; try done.
    simpl. by rewrite Ha.
  - intros a w1 Hin Hne. set (ev := (CFgets MAXLINE, a)) in *.
    apply runs_bind, runs_Writen.
    + intros e He Hpre. destruct (writes_socket_io _ _ He) as [H1 H2].
      apply (select01_stop _ _ st _ _ (ev :: e) [] (pending st)); auto;
        change (ev :: e) with ([ev] ++ e); rewrite ?inputs_app, ?printed_app, ?sent_app, ?received_app, ?Hin, ?H1, ?H2,
          ?(received_writes _ _ _ He); simpl; rewrite ?app_nil_r; done.
    + intros e rep He Hrep Hpre. destruct (writes_socket_io _ _ He) as [H1 H2].
      destruct (reports_socket_io _ Hrep) as [H3 H4].
      apply (select01_stop _ _ st _ _ (ev :: e ++ rep) [] (pending st)); auto;
        change (ev :: e ++ rep) with ([ev] ++ e ++ rep);
        rewrite ?inputs_app, ?printed_app, ?sent_app, ?received_app, ?Hin, ?H1, ?H2, ?H3, ?H4,
          ?(received_writes _ _ _ He), ?(sent_reports _ _ Hrep), ?(received_reports _ _ Hrep);
        simpl; rewrite ?app_nil_r; done.
    + intros e He Hs w2. destruct (writes_socket_io _ _ He) as [H1 H2]. apply runs_ret. rewrite app_nil_r.
      apply (select01_app _ _ st _ _ (ev :: e) []); auto;
        change (ev :: e) with ([ev] ++ e); rewrite ?inputs_app, ?printed_app, ?sent_app, ?received_app, ?Hin, ?H1, ?H2,
          ?(received_writes _ _ _ He); simpl; rewrite ?app_nil_r; done.
Qed.

Lemma quiet_select sockfd n r x : quiet sockfd [(CSelect n r ∅ None, x)].
Proof. done. Qed.

Lemma runs_strcliselect01 infd sockfd st0 w :
  rl_wf st0 -> select_fds infd sockfd ->
  runs (strcliselect01 infd sockfd st0)
    (fun st e => select01_inv sockfd st0 st e) (fun h e => select01_cut sockfd st0 h e) w.
Proof.
  intros Hwf (Hne & Hin & Hsk). unfold strcliselect01.
  apply (runs_loop _ (fun s e => select01_inv sockfd st0 (snd s) e)).
  { exists []. simpl. rewrite app_nil_r. done. }
  intros [rset st] evs w1 Hi. cbn [snd] in Hi. unfold strcliselect01_body, fd_set.
  replace ((0 <=? infd) && (infd <? FD_SETSIZE)) with true by lia.
  apply runs_bind, runs_ret. intros w2.
  replace ((0 <=? sockfd) && (sockfd <? FD_SETSIZE)) with true by lia.
  apply runs_bind, runs_ret. intros w3. cbn [app].
  eapply runs_wraps; [apply Select_wraps| | |].
  - by apply (select01_stop_quiet _ _ st); auto.
  - intros a rep _ Hrep. apply (select01_stop_quiet _ _ st); [done|auto|].
    apply (quiet_app _ [_]); [done|by apply quiet_reports].
  - intros a w4 Hg. unfold id. set (x := normalise _ a). set (r2 := {[sockfd]} ∪ _) in *.
    pose proof (select01_quiet _ _ _ _ _ Hi (quiet_select sockfd (Z.max infd sockfd + 1) r2 x)) as Hi1.
    set (ev := (CSelect _ _ _ _, x)) in *.
    assert (forall st' e1, select01_inv sockfd st0 st' ((evs ++ [ev]) ++ e1) -> forall w5,
      runs (if fd_isset infd (list_to_set (a_data x)) then
              l ← Fgets MAXLINE;
              match l with
              | None => mret (inr st')
              | Some sendline => Writen sockfd (c_string sendline) ;; mret (inl (list_to_set (a_data x), st'))
              end
            else mret (A := (gset Z * rl) + rl) (inl (list_to_set (a_data x), st')))
        (fun r e => match r with
           | inl s' => (0 < waits (ev :: e1 ++ e))%nat /\ select01_inv sockfd st0 (snd s') (evs ++ ev :: e1 ++ e)
           | inr st' => select01_inv sockfd st0 st' (evs ++ ev :: e1 ++ e) end)
        (fun h e => select01_cut sockfd st0 h (evs ++ ev :: e1 ++ e)) w5) as Hinput.
    { intros st' e1 Hi2 w5.
      assert (forall e, evs ++ ev :: e1 ++ e = ((evs ++ [ev]) ++ e1) ++ e) as Heq
        by (intros e; by rewrite <- !app_assoc).
      destruct (fd_isset infd _).
      - eapply runs_mono; [by apply runs_select01_input| |].
        + intros [[rs st'']|st''] e; cbn [snd]; rewrite <- Heq; [|done]. intros ?. split; [simpl; lia|done].
        + intros h e. cbn beta. by rewrite <- Heq.
      - apply runs_ret. cbn [snd]. rewrite app_nil_r. split; [simpl; lia|]. by rewrite <- app_assoc in Hi2. }
    apply runs_bind. destruct (fd_isset sockfd _).
    + eapply runs_mono; [apply (runs_select01_answer sockfd st0 st (evs ++ [ev])); done| |].
      * intros st' e1 Hi2 w5. by apply Hinput.
      * intros h e Hcut. cbn beta in Hcut. by rewrite <- app_assoc in Hcut.
    + apply runs_ret. intros w5. apply (Hinput st []). by rewrite app_nil_r.
Qed.

(** ** strcliselect02.c *)

(** Both directions as byte streams; after the end of the input the
    write side of the socket is shut down. *)
Definition shutdowns (evs : list event) : list (Z * Z) :=
  omap (fun e => match fst e with CShutdown fd how => Some (fd, how) | _ => None end) evs.

Definition select02_inv (infd sockfd : Z) (stdineof : bool) (evs : list event) : Prop :=
  sent sockfd evs = received infd evs /\ sent STDOUT_FILENO evs = received sockfd evs /\
  shutdowns evs = (if stdineof : bool then [(sockfd, SHUT_WR)] else []).

Definition select02_cut (infd sockfd : Z) (h : halt) (evs : list event) : Prop :=
  (h = Blocked \/ h = Exited 1) /\
  sent sockfd evs `prefix_of` received infd evs /\
  sent STDOUT_FILENO evs `prefix_of` received sockfd evs /\
  (length (shutdowns evs) <= 1)%nat.

Lemma shutdowns_app a b : shutdowns (a ++ b) = shutdowns a ++ shutdowns b.
Proof. unfold shutdowns. by rewrite omap_app. Qed.
Lemma shutdowns_io evs : only socket_io evs -> shutdowns evs = [].
Proof. induction 1 as [|[c a] evs Hc Hevs IH]; [done|]. by destruct c. Qed.

Lemma sent_cons_write_ne fd g d a evs : g <> fd -> sent fd ((CWrite g d, a) :: evs) = sent fd evs.
Proof. intros Hne. cbn [sent]. by replace (g =? fd) with false by lia. Qed.
Lemma sent_cons_write fd d a evs :
  sent fd ((CWrite fd d, a) :: evs) = take (Z.to_nat (a_ret a)) d ++ sent fd evs.
Proof. cbn [sent]. by rewrite Z.eqb_refl. Qed.
Lemma received_cons_read_ne fd g n a evs :
  g <> fd -> received fd ((CRead g n, a) :: evs) = received fd evs.
Proof. intros Hne. cbn [received]. by replace (g =? fd) with false by lia. Qed.
Lemma received_cons_write fd g d a evs : received fd ((CWrite g d, a) :: evs) = received fd evs.
Proof. done. Qed.
Lemma shutdowns_cons_read fd n a evs : shutdowns ((CRead fd n, a) :: evs) = shutdowns evs.
Proof. done. Qed.
Lemma shutdowns_cons_write fd d a evs : shutdowns ((CWrite fd d, a) :: evs) = shutdowns evs.
Proof. done. Qed.
Lemma shutdowns_reports rep : only is_report rep -> shutdowns rep = [].
Proof. intros H. apply shutdowns_io. refine (only_mono _ _ _ _ H). by intros []. Qed.

Section Select02.
Context (infd sockfd : Z) (Hfds : select_fds infd sockfd)
  (Hout : infd <> STDOUT_FILENO /\ sockfd <> STDOUT_FILENO).

Lemma select02_stop eof h evs e :
  select02_inv infd sockfd eof evs -> (h = Blocked \/ h = Exited 1) ->
  sent sockfd e `prefix_of` received infd e -> sent STDOUT_FILENO e `prefix_of` received sockfd e ->
  (if eof : bool then shutdowns e = [] else (length (shutdowns e) <= 1)%nat) ->
  select02_cut infd sockfd h (evs ++ e).
Proof.
  intros (H1 & H2 & H3) Hh H4 H5 H6. split; [done|].
  rewrite !sent_app, !received_app, H1, H2, shutdowns_app, H3, length_app.
  split; [by apply prefix_app|]. split; [by apply prefix_app|].
  destruct eof; [rewrite H6; simpl; lia|simpl; lia].
Qed.

Lemma select02_app eof eof' evs e :
  select02_inv infd sockfd eof evs -> sent sockfd e = received infd e ->
  sent STDOUT_FILENO e = received sockfd e ->
  shutdowns e = (if eof then [] else if eof' : bool then [(sockfd, SHUT_WR)] else []) ->
  (eof = true -> eof' = true) ->
  select02_inv infd sockfd eof' (evs ++ e).
Proof.
  intros (H1 & H2 & H3) H4 H5 H6 H7. unfold select02_inv.
  rewrite !sent_app, !received_app, shutdowns_app, H1, H2, H3, H4, H5, H6.
  destruct eof, eof'; split_and!; try done. by specialize (H7 eq_refl).
Qed.

(** From the socket to standard output. *)
Lemma runs_select02_socket eof evs w :
  select02_inv infd sockfd eof evs ->
  runs (a ← Read sockfd MAXLINE;
        if a_ret a =? 0 then
          if eof : bool then mret true
          else err_quit (chars "str_cli: server terminated prematurely")
        else Write STDOUT_FILENO (a_data a) ;; mret false)
    (fun fin e => select02_inv infd sockfd eof (evs ++ e) /\ (fin = true -> eof = true))
    (fun h e => select02_cut infd sockfd h (evs ++ e)) w.
Proof using Hfds Hout.
  destruct Hfds as (Hne & _). destruct Hout as (Ho1 & Ho2). intros Hi.
  eapply runs_wraps; [apply Read_wraps| | |].
  - apply (select02_stop eof); [done|auto|done|done|destruct eof; simpl; auto].
  - intros a rep _ Hrep. apply (select02_stop eof); [done|auto|..].
    + rewrite sent_cons_read, (sent_reports _ _ Hrep). apply prefix_nil.
    + rewrite sent_cons_read, (sent_reports _ _ Hrep). apply prefix_nil.
    + rewrite shutdowns_cons_read, (shutdowns_reports _ Hrep). destruct eof; simpl; auto.
  - intros a w1 Hg. unfold id. pose proof (normalise_read sockfd MAXLINE a ltac:(done)) as Hn. cbv zeta in Hn.
    unfold succeeded in Hg. set (x := normalise _ a) in *. destruct Hn as [[? _]|(Hle & Hlen & _)]; [lia|].
    destruct (a_ret x =? 0) eqn:E; zbool.
    + assert (a_data x = []) as Hd by (destruct (a_data x); [done|simpl in Hlen; lia]).
      destruct eof.
      * apply runs_ret. split; [|done]. apply (select02_app true); [done|..|done|done].
        -- by rewrite received_cons_read_ne.
        -- by rewrite received_cons_read, Hd.
      * apply (runs_fatal false). intros rep Hrep.
        apply (select02_stop false); [done|auto|..];
          rewrite ?sent_cons_read, ?shutdowns_cons_read, ?(sent_reports _ _ Hrep), ?(shutdowns_reports _ Hrep);
          [apply prefix_nil|apply prefix_nil|simpl; lia].
    + set (ev := (CRead sockfd MAXLINE, x)).
      eapply runs_wraps; [apply Write_wraps| | |].
      * apply (select02_stop eof); [done|auto|apply prefix_nil|apply prefix_nil|].
        destruct eof; simpl; auto.
      * intros b rep _ Hrep. apply (select02_stop eof); [done|auto|..]; unfold ev.
        -- rewrite sent_cons_read, sent_cons_write_ne, (sent_reports _ _ Hrep) by lia. apply prefix_nil.
        -- rewrite sent_cons_read, sent_cons_write, received_cons_read, received_cons_write,
             (sent_reports _ _ Hrep), (received_reports _ _ Hrep), !app_nil_r. apply prefix_take.
        -- rewrite shutdowns_cons_read, shutdowns_cons_write, (shutdowns_reports _ Hrep).
           destruct eof; simpl; auto.
      * intros b w2 Hb. unfold returned in Hb. apply runs_ret. split; [|done].
        apply (select02_app eof); [done|..]; unfold ev.
        -- rewrite sent_cons_read, sent_cons_write_ne, received_cons_read_ne by (done || lia). done.
        -- rewrite sent_cons_read, sent_cons_write, received_cons_read, Hb, Nat2Z.id.
           rewrite take_ge by done. done.
        -- by destruct eof.
        -- done.
Qed.

(** From standard input to the socket. *)
Lemma runs_select02_input eof rset evs w :
  select02_inv infd sockfd eof evs -> (eof = true -> infd ∉ rset) ->
  runs (if fd_isset infd rset then
          a ← Read infd MAXLINE;
          if a_ret a =? 0 then
            Shutdown sockfd SHUT_WR ;;
            rset ← fd_clr infd rset;
            mret (A := (gset Z * bool) + unit) (inl (rset, true))
          else Writen sockfd (a_data a) ;; mret (inl (rset, eof))
        else mret (inl (rset, eof)))
    (fun r e => match r with
       | inl (rset', eof') => select02_inv infd sockfd eof' (evs ++ e) /\ (eof' = true -> infd ∉ rset')
       | inr _ => False end)
    (fun h e => select02_cut infd sockfd h (evs ++ e)) w.
Proof using Hfds Hout.
  destruct Hfds as (Hne & Hif & _). destruct Hout as (Ho1 & Ho2). intros Hi Heof.
  unfold fd_isset. case_bool_decide as Hset; [|by apply runs_ret; rewrite app_nil_r].
  assert (eof = false) as -> by (destruct eof; [by destruct (Heof eq_refl)|done]).
  eapply runs_wraps; [apply Read_wraps| | |].
  - apply (select02_stop false); [done|auto|done|done|simpl; lia].
  - intros a rep _ Hrep. apply (select02_stop false); [done|auto|..];
      rewrite ?sent_cons_read, ?shutdowns_cons_read, ?(sent_reports _ _ Hrep), ?(shutdowns_reports _ Hrep);
      [apply prefix_nil|apply prefix_nil|simpl; lia].
  - intros a w1 Hg. unfold id. pose proof (normalise_read infd MAXLINE a ltac:(done)) as Hn. cbv zeta in Hn.
    unfold succeeded in Hg. set (x := normalise _ a) in *. destruct Hn as [[? _]|(Hle & Hlen & _)]; [lia|].
    destruct (a_ret x =? 0) eqn:E; zbool.
    + assert (a_data x = []) as Hd by (destruct (a_data x); [done|simpl in Hlen; lia]).
      eapply runs_wraps; [apply Shutdown_wraps| | |].
      * apply (select02_stop false); [done|auto|apply prefix_nil|apply prefix_nil|simpl; lia].
      * intros b rep _ Hrep. apply (select02_stop false); [done|auto|..].
        -- rewrite sent_cons_read. cbn [sent]. rewrite (sent_reports _ _ Hrep). apply prefix_nil.
        -- rewrite sent_cons_read. cbn [sent]. rewrite (sent_reports _ _ Hrep). apply prefix_nil.
        -- rewrite shutdowns_cons_read. change (?c :: rep) with ([c] ++ rep).
           rewrite shutdowns_app, (shutdowns_reports _ Hrep). simpl. lia.
      * intros b w2 _. unfold fd_clr. replace ((0 <=? infd) && (infd <? FD_SETSIZE)) with true by lia.
        apply runs_bind, runs_ret. intros w3. apply runs_ret.
        split; [|intros _; by apply not_elem_of_difference; right; apply elem_of_singleton].
        apply (select02_app false); [done|..|done].
        -- rewrite received_cons_read, Hd. done.
        -- rewrite received_cons_read_ne by done. done.
        -- done.
    + set (ev := (CRead infd MAXLINE, x)). apply runs_bind, runs_Writen.
      * intros e He Hp. apply (select02_stop false); [done|auto|..]; unfold ev.
        -- rewrite sent_cons_read, received_cons_read, (received_writes _ _ _ He), app_nil_r. done.
        -- rewrite sent_cons_read, (sent_other _ _ _ Ho2 He). apply prefix_nil.
        -- rewrite shutdowns_cons_read, shutdowns_io; [simpl; lia|]. refine (only_mono _ _ _ _ He). by intros [].
      * intros e rep He Hrep Hp. apply (select02_stop false); [done|auto|..]; unfold ev.
        -- rewrite sent_cons_read, received_cons_read, sent_app, received_app, (received_writes _ _ _ He),
             (sent_reports _ _ Hrep), (received_reports _ _ Hrep), !app_nil_r. done.
        -- rewrite sent_cons_read, sent_app, (sent_other _ _ _ Ho2 He), (sent_reports _ _ Hrep). apply prefix_nil.
        -- rewrite shutdowns_cons_read, shutdowns_app, (shutdowns_reports _ Hrep), shutdowns_io; [simpl; lia|].
           refine (only_mono _ _ _ _ He). by intros [].
      * intros e He Hs w2. apply runs_ret. rewrite app_nil_r. split; [|done].
        apply (select02_app false); [done|..|done]; unfold ev.
        -- rewrite sent_cons_read, received_cons_read, (received_writes _ _ _ He), app_nil_r. done.
        -- rewrite sent_cons_read, (sent_other _ _ _ Ho2 He), received_cons_read_ne by done.
           by rewrite (received_writes _ _ _ He).
        -- rewrite shutdowns_cons_read. apply shutdowns_io. refine (only_mono _ _ _ _ He). by intros [].
Qed.
Lemma runs_strcliselect02_body rset eof evs w :
  select02_inv infd sockfd eof evs -> (eof = true -> infd ∉ rset) ->
  runs (strcliselect02_body infd sockfd (rset, eof))
    (fun r e => match r with
       | inl (rset', eof') => (0 < waits e)%nat /\ select02_inv infd sockfd eof' (evs ++ e) /\
                              (eof' = true -> infd ∉ rset')
       | inr _ => eof = true /\ select02_inv infd sockfd true (evs ++ e) end)
    (fun h e => select02_cut infd sockfd h (evs ++ e)) w.
Proof using Hfds Hout.
  intros Hi Heof. pose proof Hfds as (Hne & Hif & Hsk). unfold strcliselect02_body, fd_set.
  apply runs_bind.
  assert (runs (if eof then mret rset
                else if (0 <=? infd) && (infd <? FD_SETSIZE) then mret ({[infd]} ∪ rset) else undefined)
            (fun r e => e = [] /\ (eof = true -> infd ∉ r)) (fun _ _ => False) w) as H0.
  { destruct eof; [by apply runs_ret; auto|].
    replace ((0 <=? infd) && (infd <? FD_SETSIZE)) with true by lia. by apply runs_ret. }
  eapply runs_mono; [exact H0| |done]. intros r1 e0 [-> Hr1] w1. cbn [app].
  replace ((0 <=? sockfd) && (sockfd <? FD_SETSIZE)) with true by lia.
  apply runs_bind, runs_ret. intros w2. cbn [app].
  eapply runs_wraps; [apply Select_wraps| | |].
  - apply (select02_stop eof); [done|auto|done|done|destruct eof; simpl; auto].
  - intros a rep _ Hrep. apply (select02_stop eof); [done|auto|..].
    + cbn [sent]. rewrite (sent_reports _ _ Hrep). apply prefix_nil.
    + cbn [sent]. rewrite (sent_reports _ _ Hrep). apply prefix_nil.
    + change (?c :: rep) with ([c] ++ rep). rewrite shutdowns_app, (shutdowns_reports _ Hrep).
      destruct eof; simpl; auto.
  - intros a w3 Hg. unfold succeeded, id in *.
    pose proof (normalise_select (Z.max infd sockfd + 1) ({[sockfd]} ∪ r1) a) as Hn. cbv zeta in Hn.
    set (x := normalise _ a) in *. destruct Hn as [|(_ & _ & Hsub)]; [lia|].
    set (ev := (CSelect _ _ _ _, x)).
    assert (select02_inv infd sockfd eof (evs ++ [ev])) as Hi1
      by (apply (select02_app eof); try done; by destruct eof).
    assert (eof = true -> infd ∉ (list_to_set (a_data x) : gset Z)) as Hx.
    { intros He. rewrite elem_of_list_to_set. intros [Hin _]%Hsub. specialize (Hr1 He).
      apply elem_of_union in Hin as [Hin%elem_of_singleton|Hin]; [congruence|done]. }
    apply runs_bind.
    assert (runs (if fd_isset sockfd (list_to_set (a_data x)) then
          a ← Read sockfd MAXLINE;
          if a_ret a =? 0 then
            if eof : bool then mret true
            else err_quit (chars "str_cli: server terminated prematurely")
          else Write STDOUT_FILENO (a_data a) ;; mret false
        else mret false)
      (fun fin e => select02_inv infd sockfd eof ((evs ++ [ev]) ++ e) /\ (fin = true -> eof = true))
      (fun h e => select02_cut infd sockfd h ((evs ++ [ev]) ++ e)) w3) as H1.
    { destruct (fd_isset _ _); [by apply runs_select02_socket|]. apply runs_ret. by rewrite app_nil_r. }
    eapply runs_mono; [exact H1| |].
    + intros fin e1 [Hi2 Hfin] w4. destruct fin.
      * specialize (Hfin eq_refl). subst eof. apply runs_ret. rewrite app_nil_r.
        split; [done|]. by rewrite <- app_assoc in Hi2.
      * eapply runs_mono; [apply (runs_select02_input eof _ _ w4 Hi2 Hx)| |].
        -- intros [[rs eof']|[]] e2; [|done]. intros [Hi3 Hr3]. split; [simpl; lia|].
           rewrite <- !app_assoc in Hi3. done.
        -- intros h e2 Hc. cbn beta in Hc. by rewrite <- !app_assoc in Hc.
    + intros h e1 Hc. cbn beta in Hc. by rewrite <- app_assoc in Hc.
Qed.

Lemma runs_strcliselect02 w :
  runs (strcliselect02 infd sockfd)
    (fun _ e => select02_inv infd sockfd true e) (fun h e => select02_cut infd sockfd h e) w.
Proof using Hfds Hout.
  apply (runs_loop _ (fun s e => select02_inv infd sockfd (snd s) e /\ (snd s = true -> infd ∉ fst s))).
  { done. }
  intros [rset eof] evs w1 [Hi Heof]. eapply runs_mono; [by apply runs_strcliselect02_body| |].
  - intros [[rs eof']|[]] e; cbn [fst snd]; [done|]. by intros [_ ?].
  - done.
Qed.
End Select02.

(** ** Properties *)

(** C14: the loops of the clients.  [str_cli] and its two-segment form
    [str_cli11]: for every line of the input, the text before its first NUL is
    sent in full and one answer line is taken and printed before the next line
    is read; at the end of the input nothing is left unsent and every line has
    had its answer.  They stop only at the end of input, on an error, or when
    the server ends early, and [str_cli11] alone has undefined behaviour,
    exactly for a line that starts with NUL.  The byte-oriented
    strcliselect02.c, when it returns, has sent all of its input and then one
    FIN, and has written every byte the server sent before its end of file to
    standard output; in every other run both are prefixes.  The line-oriented
    strcliselect01.c keeps the same correspondence line by line, but returns
    at the end of its input whatever is still on its way. *)
Theorem client_loops_correct fd infd sockfd st w :
  select_fds infd sockfd -> infd <> STDOUT_FILENO -> sockfd <> STDOUT_FILENO -> rl_wf st ->
  runs (str_cli fd st) (fun st' e => lockstep fd st st' e) (fun h e => lockstep_cut fd st h e) w /\
  runs (str_cli11 fd st) (fun st' e => lockstep fd st st' e)
    (fun h e => lockstep_cut fd st h e \/ exists line, line ∈ inputs e /\ strlen line = 0) w /\
  runs (strcliselect02 infd sockfd)
    (fun _ e => sent sockfd e = received infd e /\ sent STDOUT_FILENO e = received sockfd e /\
                shutdowns e = [(sockfd, SHUT_WR)])
    (fun h e => select02_cut infd sockfd h e) w /\
  runs (strcliselect01 infd sockfd st)
    (fun st' e => select01_inv sockfd st st' e) (fun h e => select01_cut sockfd st h e) w.
Proof.
  intros Hfds H1 H2 Hwf. split_and!; [by apply runs_str_cli|by apply runs_str_cli11| |by apply runs_strcliselect01].
  eapply runs_mono; [by apply runs_strcliselect02|by intros|done].
Qed.

(** Two answer lines in one segment: the first is printed, the second stays
    in the buffer of [readline], which [select] does not see.  A line and
    its answer, in lockstep. *)
Theorem client_loops_correct_witness :
  let w := world0 [Ans 0 0 [3] []; data (chars "a" ++ [10] ++ chars "b" ++ [10]); ok 1] in
  let w2 := world0 [data (chars "ab" ++ [10]); ok 3; data (chars "xy" ++ [10]); ok 1; ok 0] in
  (exists w', strcliselect01 0 3 rl_init w = (Halt Blocked, w') /\
    exists evs, extends w w' evs /\ select01_cut 3 rl_init Blocked evs /\
                printed evs = [chars "a" ++ [10]]) /\
  (exists w', str_cli 3 rl_init w2 = (Ret (Rl 0 3 (chars "xy" ++ [10])), w') /\
    exists evs, extends w2 w' evs /\ lockstep 3 rl_init (Rl 0 3 (chars "xy" ++ [10])) evs).
Proof.
  assert (select_fds 0 3) as Hf by (unfold select_fds, FD_SETSIZE; lia). split.
  - destruct (client_loops_correct 3 0 3 rl_init
      (world0 [Ans 0 0 [3] []; data (chars "a" ++ [10] ++ chars "b" ++ [10]); ok 1])
      Hf ltac:(done) ltac:(done) rl_init_wf) as (_ & _ & _ & H1).
    eexists. split; [reflexivity|].
    destruct H1 as (evs & He & Hc). exists evs. split; [exact He|]. split; [exact Hc|].
    destruct He as [Ht _]. simpl in Ht. subst evs. reflexivity.
  - eexists. split; [reflexivity|].
    exact (proj1 (client_loops_correct 3 0 3 rl_init
      (world0 [data (chars "ab" ++ [10]); ok 3; data (chars "xy" ++ [10]); ok 1; ok 0])
      Hf ltac:(done) ltac:(done) rl_init_wf)).
Defined.

(** ** The main functions *)

(** Calls before the connection is established: nothing is sent. *)
Definition connecting (c : call) : Prop :=
  match c with
  | CSocket _ _ _ | CConnect _ _ | CLibc _ _ _ | CFflush _ | CStderr _ | CSyslog _ _ => True
  | _ => False
  end.

(** How a client of [port] ends: with a usage message and nothing else; or
    before it is connected; or, on the connected socket [fd], as [R] says. *)
Definition client_end (text : list Z) (port : Z) (argv : list (list Z))
    (R : Z -> halt -> list event -> Prop) (h : halt) (evs : list event) : Prop :=
  match argv with
  | [_; addr] =>
      ((h = Blocked \/ h = Exited 1) /\ only connecting evs) \/
      exists a1 a2 bin e,
        inet_pton AF_INET addr = (1, Some bin, None) /\ 0 <= a_ret a1 /\ 0 <= a_ret a2 /\
        evs = [(CSocket AF_INET SOCK_STREAM 0, a1);
               (CConnect (a_ret a1) (sockaddr_in port bin), a2)] ++ e /\
        R (a_ret a1) h e
  | _ => h = Exited 1 /\ only is_report evs
  end.

Lemma reports_connecting rep : only is_report rep -> only connecting rep.
Proof. apply only_mono. by intros []. Qed.

Lemma runs_connected {A} port addr (k : Z -> M A) (Q : A -> list event -> Prop)
    (H : halt -> list event -> Prop) w :
  (forall h e, (h = Blocked \/ h = Exited 1) -> only connecting e -> H h e) ->
  (forall a1 a2 bin w', inet_pton AF_INET addr = (1, Some bin, None) ->
     0 <= a_ret a1 -> 0 <= a_ret a2 ->
     let e0 := [(CSocket AF_INET SOCK_STREAM 0, a1);
                (CConnect (a_ret a1) (sockaddr_in port bin), a2)] in
     runs (k (a_ret a1)) (fun b e => Q b (e0 ++ e)) (fun h e => H h (e0 ++ e)) w') ->
  runs (sockfd ← connected port addr; k sockfd) Q H w.
Proof.
  intros HH HQ. apply runs_bind. unfold connected.
  eapply runs_wraps; [apply Socket_wraps|apply HH; [auto|constructor]| |].
  { intros a rep _ Hrep. apply HH; [auto|]. constructor; [done|by apply reports_connecting]. }
  intros a1 w1 Hg1. set (x1 := normalise _ a1) in *. set (ev1 := (CSocket _ _ _, x1)).
  apply runs_bind. pose proof (Inet_pton_spec AF_INET addr w1) as Hp.
  destruct (inet_pton AF_INET addr) as [[n d] e] eqn:Ep.
  assert (e = None) as ->.
  { unfold inet_pton in Ep. cbn in Ep. destruct (inet_pton4 addr); by simplify_eq. }
  assert (runs (Inet_pton AF_INET addr)
    (fun bin e => e = [] /\ (n, d) = (1, Some bin)) (fun h e => h = Exited 1 /\ only is_report e) w1) as Hrun.
  { unfold runs. unfold inet_pton in Ep. cbn in Ep. destruct (inet_pton4 addr) as [| |bin]; simplify_eq.
    1, 2: destruct Hp as [_ ->]; eexists; (split; [apply report_extends|]);
          split; [done|apply report_events_only].
    rewrite Hp. exists []. auto. }
  eapply runs_mono; [exact Hrun| |].
  - intros bin e [-> [= -> ->]] w2. cbn [app].
    eapply runs_wraps; [apply Connect_wraps| | |].
    + apply HH; [auto|]. by repeat constructor.
    + intros a2 rep _ Hrep. apply HH; [auto|]. do 2 (constructor; [done|]). by apply reports_connecting.
    + intros a2 w3 Hg2. apply runs_ret. intros w4. by apply (HQ x1 _ bin w4).
  - intros h e [-> Hrep]. apply HH; [auto|]. constructor; [done|by apply reports_connecting].
Qed.

Lemma runs_tcp_main text port client argv (R : Z -> halt -> list event -> Prop) w :
  (forall fd w, 0 <= fd -> runs (client fd) (fun _ e => R fd (Exited 0) e) (fun h e => R fd h e) w) ->
  runs (tcp_main text port client argv) (fun _ _ => False) (client_end text port argv R) w.
Proof.
  intros Hc. unfold tcp_main, client_end.
  destruct argv as [|p [|addr [|]]];
    try (apply (runs_fatal false); intros rep Hrep; done).
  apply runs_connected.
  - intros h e Hh He. by left.
  - intros a1 a2 bin w' Hp H1 H2 e0. apply runs_bind.
    eapply runs_mono; [by apply Hc| |].
    + intros [] e He w2. apply runs_halted. right. exists a1, a2, bin, e. rewrite app_nil_r. done.
    + intros h e He. right. by exists a1, a2, bin, e.
Qed.

(** The result of the stop-and-wait loops: status 0 only when every line had
    its answer. *)
Definition stopwait (fd : Z) (h : halt) (e : list event) : Prop :=
  (h = Exited 0 /\ exists st, lockstep fd rl_init st e) \/ lockstep_cut fd rl_init h e.

Lemma runs_run_str_cli fd w :
  runs (run_str_cli fd) (fun _ e => exists st, lockstep fd rl_init st e) (lockstep_cut fd rl_init) w.
Proof.
  unfold run_str_cli. apply runs_bind. eapply runs_mono; [apply runs_str_cli, rl_init_wf| |done].
  intros st e He w'. apply runs_ret. rewrite app_nil_r. eauto.
Qed.

Lemma runs_stopwait fd w :
  runs (run_str_cli fd) (fun _ e => stopwait fd (Exited 0) e) (fun h e => stopwait fd h e) w.
Proof.
  eapply runs_mono; [apply runs_run_str_cli| |].
  - intros [] e He. by left.
  - intros h e He. by right.
Qed.

Definition send_foo (fd : Z) (h : halt) (e : list event) : Prop :=
  sent fd e `prefix_of` chars "foo" /\ (h = Exited 0 -> sent fd e = chars "foo").

Definition lingering (fd : Z) (h : halt) (e : list event) : Prop :=
  stopwait fd h e \/
  exists e1 st a rep, e = e1 ++ (CSetsockopt fd SOL_SOCKET SO_LINGER [1;0;0;0;0;0;0;0], a) :: rep /\
    lockstep fd rl_init st e1 /\ only is_report rep /\ (h = Exited 0 -> rep = []).

Definition two_segments (fd : Z) (h : halt) (e : list event) : Prop :=
  stopwait fd h e \/ exists line, line ∈ inputs e /\ strlen line = 0.

Definition batch (fd : Z) (h : halt) (e : list event) : Prop :=
  select_fds STDIN_FILENO fd -> fd <> STDOUT_FILENO ->
  (h = Exited 0 /\ sent fd e = received STDIN_FILENO e /\ sent STDOUT_FILENO e = received fd e /\
     shutdowns e = [(fd, SHUT_WR)]) \/ select02_cut STDIN_FILENO fd h e.

Definition drain (fd : Z) (h : halt) (e : list event) : Prop :=
  only (fun c => c = CShutdown fd SHUT_RD \/ c = libc "pause" [] []) e.

Lemma runs_send_foo fd w :
  runs (Writen fd (chars "foo") ;; kernel (libc "sleep" [30] []) ;; mret ())
    (fun _ e => send_foo fd (Exited 0) e) (fun h e => send_foo fd h e) w.
Proof.
  apply runs_bind, runs_Writen.
  - intros e He Hp. split; done.
  - intros e rep He Hrep Hp. unfold send_foo. by rewrite sent_app, (sent_reports _ _ Hrep), app_nil_r.
  - intros e He Hs w1. apply runs_call; [done|split; by rewrite app_nil_r, Hs|].
    intros a w2. cbv zeta. intros _. apply runs_ret. unfold send_foo. rewrite sent_app, Hs. done.
Qed.

Lemma runs_lingering fd w :
  runs (run_str_cli fd ;; Setsockopt fd SOL_SOCKET SO_LINGER [1; 0; 0; 0; 0; 0; 0; 0])
    (fun _ e => lingering fd (Exited 0) e) (fun h e => lingering fd h e) w.
Proof.
  apply runs_bind. eapply runs_mono; [apply runs_run_str_cli| |].
  - intros [] e (st & He) w1. eapply runs_wraps_ret; [apply Setsockopt_wraps| | |].
    + left; right. rewrite app_nil_r. split; [auto|].
      destruct He as (lines & Hwf & Hs & Hp & Hc & Hpr & Hl). exists lines, (pending st).
      rewrite Hs, Hpr, length_map. split_and!; try done; lia.
    + intros a rep _ Hrep. right. by exists e, st, (normalise (CSetsockopt fd SOL_SOCKET SO_LINGER [1;0;0;0;0;0;0;0]) a), rep.
    + intros a _. right. by exists e, st, (normalise (CSetsockopt fd SOL_SOCKET SO_LINGER [1;0;0;0;0;0;0;0]) a), [].
  - intros h e He. left. by right.
Qed.

Lemma runs_batch fd w :
  runs (strcliselect02 STDIN_FILENO fd)
    (fun _ e => batch fd (Exited 0) e) (fun h e => batch fd h e) w.
Proof.
  destruct (decide (STDIN_FILENO <> fd /\ 0 <= fd < FD_SETSIZE /\ fd <> STDOUT_FILENO)) as [(H1 & H2 & H3)|Hn].
  - assert (select_fds STDIN_FILENO fd) as Hf
      by (unfold select_fds, STDIN_FILENO, FD_SETSIZE in *; lia).
    eapply runs_mono; [by apply (runs_strcliselect02 STDIN_FILENO fd)| |].
    + intros [] e (He1 & He2 & He3) _ _. by left.
    + intros h e He _ _. by right.
  - eapply runs_mono; [|intros ? ? _ (?&?&?) ?|intros ? ? _ (?&?&?) ?]; [|exfalso; by apply Hn..].
    assert (makes (fun _ => True) (strcliselect02 STDIN_FILENO fd)) as Hm; [|apply Hm].
    unfold strcliselect02, strcliselect02_body, fd_set, fd_clr, Select, Read, Write, Shutdown, check_sys.
    solve_makes; first [by apply makes_err_sys | by apply makes_err_quit | by apply makes_Writen].
Qed.

Definition linewise (fd : Z) (h : halt) (e : list event) : Prop :=
  select_fds STDIN_FILENO fd ->
  (h = Exited 0 /\ exists st, select01_inv fd rl_init st e) \/ select01_cut fd rl_init h e.

Lemma runs_linewise fd w :
  runs (strcliselect01 STDIN_FILENO fd rl_init ;; mret ())
    (fun _ e => linewise fd (Exited 0) e) (fun h e => linewise fd h e) w.
Proof.
  apply runs_bind.
  destruct (decide (STDIN_FILENO <> fd /\ 0 <= fd < FD_SETSIZE)) as [(H1 & H2)|Hn].
  - assert (select_fds STDIN_FILENO fd) as Hf
      by (unfold select_fds, STDIN_FILENO, FD_SETSIZE in *; lia).
    eapply runs_mono; [by apply (runs_strcliselect01 STDIN_FILENO fd); [apply rl_init_wf|]| |].
    + intros st e He w'. apply runs_ret. rewrite app_nil_r. left. eauto.
    + intros h e He _. by right.
  - assert (forall h e, linewise fd h e) as Hv by (intros h e (?&?&?); exfalso; by apply Hn).
    assert (makes (fun _ => True) (strcliselect01 STDIN_FILENO fd rl_init)) as Hm.
    { unfold strcliselect01, strcliselect01_body, fd_set, Select, Fgets, Fputs, check_sys.
      solve_makes; first [by apply makes_err_sys | by apply makes_err_quit | by apply makes_Writen
                         | by apply makes_Readline]. }
    eapply runs_mono; [apply Hm| |].
    + intros st e _ w'. apply runs_ret. apply Hv.
    + intros h e _. apply Hv.
Qed.

