(* ===== verification/Cksum.v ===== *)
(** * The Internet checksum

    libfree/in_cksum.c over the bytes of an object, on machines of both byte
    orders.  A read outside of the object is [None]. *)

From S2P Require Import Prelude Unix ErrorLib Wrap.

(** ** 16-bit words in memory *)

Inductive endian := Little | Big.
Implicit Types (e : endian).

Definition load16 e (b0 b1 : Z) : Z :=
  match e with Little => b0 + 256 * b1 | Big => 256 * b0 + b1 end.
Definition store16 e (v : Z) : list Z :=
  match e with Little => [v mod 256; v / 256] | Big => [v / 256; v mod 256] end.

(** [htons] and [ntohs]: the value whose bytes in memory are big-endian. *)
Definition hton16 e (v : Z) : Z :=
  match e with Little => load16 Little (v / 256) (v mod 256) | Big => v end.

(** ** in_cksum *)

(** The first loop: [w] is the memory from the pointer on. *)
Fixpoint cksum_loop e (w : list Z) (nleft sum : Z) : option (list Z * Z * Z) :=
  if 1 <? nleft then
    match w with
    | b0 :: b1 :: w' => cksum_loop e w' (nleft - 2) (u32 (sum + load16 e b0 b1))
    | _ => None
    end
  else Some (w, nleft, sum).

Definition cksum_fold (sum : Z) : Z :=
  let sum := u32 (Z.shiftr sum 16 + Z.land sum 0xffff) in
  let sum := u32 (sum + Z.shiftr sum 16) in
  u16 (Z.lnot sum).

Definition in_cksum e (addr : list Z) (len : Z) : option Z :=
  '(w, nleft, sum) ← cksum_loop e addr len 0;
  if nleft =? 1 then
    match w with
    | b :: _ => Some (cksum_fold (u32 (sum + load16 e b 0)))
    | [] => None
    end
  else Some (cksum_fold sum).

Example in_cksum_rfc1071 :
  in_cksum Big [0x00;0x01;0xf2;0x03;0xf4;0xf5;0xf6;0xf7] 8 = Some 0x220d /\
  in_cksum Little [0x00;0x01;0xf2;0x03;0xf4;0xf5;0xf6;0xf7] 8 = Some 0x0d22 /\
  in_cksum Little [1;2;3] 4 = None /\ in_cksum Little [1;2;3] 3 = Some 0xfdfb.
Proof. by vm_compute. Qed.

(** ** The reference: one's complement addition of the words (RFC 1071) *)

Fixpoint words e (l : list Z) : list Z :=
  match l with
  | b0 :: b1 :: l' => load16 e b0 b1 :: words e l'
  | [b] => [load16 e b 0]
  | [] => []
  end.

Definition total (l : list Z) : Z := foldr Z.add 0 l.

(** One's complement addition: the carry is added back (end-around). *)
Definition ones_add (a b : Z) : Z :=
  let s := a + b in if s <? 65536 then s else s - 65535.
Definition ones_sum (l : list Z) : Z := foldl ones_add 0 l.

Definition word (v : Z) : Prop := 0 <= v < 65536.

(** ** Lemmas *)

(** Two list elements at a time. *)
Lemma list_ind2 {A} (P : list A -> Prop) :
  P [] -> (forall a, P [a]) -> (forall a b l, P l -> P (a :: b :: l)) -> forall l, P l.
Proof.
  intros H0 H1 H2 l. enough (P l /\ forall a, P (a :: l)) by tauto.
  induction l as [|b l [IH1 IH2]]; split; auto.
Qed.

Lemma load16_word e b0 b1 : byte b0 -> byte b1 -> word (load16 e b0 b1).
Proof. unfold byte, word. destruct e; simpl; lia. Qed.

Lemma words_word e l : bytes l -> Forall word (words e l).
Proof.
  induction l as [|b|b0 b1 l IH] using list_ind2; intros Hl; simpl; [by constructor|..].
  - constructor; [apply load16_word; [by inversion Hl|done]|by constructor].
  - inversion_clear Hl as [|?? H0 Hl']. inversion_clear Hl' as [|?? H1 Hl''].
    constructor; [by apply load16_word|auto].
Qed.

Lemma length_words e l : Z.of_nat (length (words e l)) = (Z.of_nat (length l) + 1) / 2.
Proof.
  induction l as [|b|b0 b1 l IH] using list_ind2; [done|done|]. cbn [words length].
  rewrite !Nat2Z.inj_succ, IH.
  replace (Z.succ (Z.succ (Z.of_nat (length l))) + 1)
    with ((Z.of_nat (length l) + 1) + 1 * 2) by lia.
  rewrite Z.div_add by lia. lia.
Qed.

Lemma words_app e a b :
  Nat.even (length a) = true -> words e (a ++ b) = words e a ++ words e b.
Proof.
  induction a as [|x|x y a IH] using list_ind2; intros H; [done|done|].
  simpl. f_equal. by apply IH.
Qed.

Lemma total_app a b : total (a ++ b) = total a + total b.
Proof. induction a as [|x a IH]; [done|]. simpl. rewrite IH. lia. Qed.

Lemma total_bound l : Forall word l -> 0 <= total l <= 65535 * Z.of_nat (length l).
Proof. induction 1 as [|x l Hx _ IH]; simpl; [lia|]. unfold word in Hx. lia. Qed.

(** The value of a one's complement sum: the representative of [S] modulo
    65535, which is 65535 and not 0 unless [S] is 0. *)
Definition norm (S : Z) : Z := if S =? 0 then 0 else 1 + (S - 1) mod 65535.

Lemma norm_word S : 0 <= S -> word (norm S).
Proof.
  intros. pose proof (Z.mod_pos_bound (S - 1) 65535). unfold norm, word.
  destruct (S =? 0); lia.
Qed.

Lemma norm_small S : word S -> norm S = S.
Proof. unfold word, norm. intros. destruct (S =? 0) eqn:E; zbool; [lia|].
  rewrite Z.mod_small; lia. Qed.

(** [norm S] is determined by its class and by being 0 only for 0. *)
Lemma norm_unique S v :
  0 <= S -> word v -> (v = 0 <-> S = 0) -> (exists k, S = v + k * 65535) -> norm S = v.
Proof.
  intros HS Hv H0 [k Hk]. unfold norm, word in *.
  destruct (S =? 0) eqn:E; zbool; [lia|].
  replace (S - 1) with ((v - 1) + k * 65535) by lia.
  rewrite Z_mod_plus_full, Z.mod_small; lia.
Qed.

Lemma norm_class S : 0 <= S -> exists k, S = norm S + k * 65535 /\ 0 <= k.
Proof.
  intros. unfold norm. destruct (S =? 0) eqn:E; zbool; [exists 0; lia|].
  exists ((S - 1) / 65535). pose proof (Z.div_mod (S - 1) 65535).
  pose proof (Z.div_pos (S - 1) 65535). lia.
Qed.

Lemma norm_zero S : 0 <= S -> norm S = 0 <-> S = 0.
Proof.
  intros. pose proof (Z.mod_pos_bound (S - 1) 65535). unfold norm.
  destruct (S =? 0) eqn:E; zbool; lia.
Qed.

Lemma ones_add_norm S v : 0 <= S -> word v -> ones_add (norm S) v = norm (S + v).
Proof.
  intros HS Hv. symmetry. destruct (norm_class S HS) as (k & Hk & _).
  pose proof (norm_word S HS) as Hw. pose proof (norm_zero S HS) as Hz.
  unfold ones_add, word in *.
  destruct (norm S + v <? 65536) eqn:E; zbool; apply norm_unique; unfold word; try lia.
  - exists k. lia.
  - exists (k + 1). lia.
Qed.

Lemma ones_sum_norm l : Forall word l -> ones_sum l = norm (total l).
Proof.
  intros Hl. unfold ones_sum.
  enough (forall S, 0 <= S -> foldl ones_add (norm S) l = norm (S + total l)) as H
    by apply (H 0 ltac:(lia)).
  induction Hl as [|v l Hv _ IH]; intros S HS; simpl; [by rewrite Z.add_0_r|].
  rewrite ones_add_norm by done. rewrite IH by (unfold word in Hv; lia). f_equal. lia.
Qed.

Lemma ones_sum_total l : Forall word l -> 65535 - ones_sum l = 65535 - norm (total l).
Proof. intros. by rewrite ones_sum_norm. Qed.

(** The two folding steps, for any 32-bit accumulator. *)
Lemma cksum_fold_spec S : 0 <= S < 2 ^ 32 -> cksum_fold S = 65535 - norm S.
Proof.
  intros HS. unfold cksum_fold.
  rewrite !Z.shiftr_div_pow2 by lia.
  change (Z.land S 0xffff) with (Z.land S (Z.ones 16)). rewrite Z.land_ones by lia. change (2 ^ 16) with 65536 in *.
  pose proof (Z.div_mod S 65536). pose proof (Z.mod_pos_bound S 65536).
  assert (0 <= S / 65536 < 65536) by (split; [apply Z.div_pos|apply Z.div_lt_upper_bound]; lia).
  set (s1 := S / 65536 + S mod 65536) in *.
  rewrite (u32_small s1) by lia.
  assert (s1 / 65536 = if s1 <? 65536 then 0 else 1) as Hc.
  { destruct (s1 <? 65536) eqn:E; zbool; [apply Z.div_small; lia|]. symmetry. apply (Z.div_unique_pos _ _ _ (s1 - 65536)); lia. }
  assert (norm S = if s1 <? 65536 then s1 else s1 - 65535) as ->.
  { apply norm_unique; unfold word; [lia|destruct (s1 <? 65536) eqn:E; zbool; lia..|].
    destruct (s1 <? 65536) eqn:E; [exists (S / 65536)|exists (S / 65536 + 1)]; lia. }
  rewrite Hc. unfold u16, Z.lnot. change (2 ^ 16) with 65536.
  destruct (s1 <? 65536) eqn:E; zbool; rewrite u32_small by lia; symmetry.
  - apply (Z.mod_unique_pos _ _ (-1)); lia.
  - apply (Z.mod_unique_pos _ _ (-2)); lia.
Qed.

(** Storing a value in network byte order. *)
Definition be16 (v : Z) : list Z := [v / 256; v mod 256].

Lemma store_hton e v : word v -> store16 e (hton16 e v) = be16 v.
Proof.
  unfold word, be16. intros Hv. destruct e; [|done]. simpl.
  pose proof (Z.mod_pos_bound v 256 ltac:(lia)).
  assert (0 <= v / 256 < 256)
    by (split; [apply Z.div_pos|apply Z.div_lt_upper_bound]; lia).
  f_equal; [|f_equal].
  - symmetry. apply (Z.mod_unique_pos _ _ (v mod 256)); lia.
  - symmetry. apply (Z.div_unique_pos _ _ _ (v / 256)); lia.
Qed.

(** ** The code computes the one's complement sum

    Up to 131074 bytes (65537 words) the 32-bit accumulator cannot wrap. *)

Lemma cksum_loop_spec e (l : list Z) n sum :
  0 <= n <= Z.of_nat (length l) -> 0 <= sum ->
  bytes l -> sum + total (words e (take (Z.to_nat n) l)) < 2 ^ 32 ->
  exists r, cksum_loop e l n sum = Some (drop (Z.to_nat (n - n mod 2)) l, n mod 2, r) /\
    r + total (words e (take (Z.to_nat (n mod 2)) (drop (Z.to_nat (n - n mod 2)) l)))
    = sum + total (words e (take (Z.to_nat n) l)) /\ 0 <= r < 2 ^ 32.
Proof.
  revert n sum. induction l as [|b|b0 b1 l IH] using list_ind2; intros n sum Hn Hs Hb Hlt.
  - assert (n = 0) as -> by (simpl in Hn; lia). exists sum. simpl in *. repeat split; lia.
  - assert (n = 0 \/ n = 1) as [-> | ->] by (simpl in Hn; lia).
    + exists sum. simpl in *. repeat split; lia.
    + exists sum. simpl in *.
      assert (word (load16 e b 0)) as Hw
        by (apply load16_word; [by inversion Hb|done]).
      unfold word in Hw. repeat split; lia.
  - destruct (decide (n <= 1)) as [Hn1|Hn1].
    + assert (n = 0 \/ n = 1) as [-> | ->] by lia.
      * exists sum. simpl in *. repeat split; lia.
      * exists sum. simpl in *.
        assert (word (load16 e b0 0)) as Hw
          by (apply load16_word; [by inversion Hb|done]).
        unfold word in Hw. repeat split; lia.
    + cbn [cksum_loop]. rewrite (proj2 (Z.ltb_lt 1 n)) by lia.
      inversion_clear Hb as [|?? Hb0 Hb']. inversion_clear Hb' as [|?? Hb1 Hb''].
      pose proof (load16_word e b0 b1 Hb0 Hb1) as Hw. unfold word in Hw.
      assert (Z.to_nat n = S (S (Z.to_nat (n - 2)))) as En by lia.
      assert ((n - 2) mod 2 = n mod 2) as Em
        by (replace (n - 2) with (n + (-1) * 2) by lia; apply Z_mod_plus_full).
      assert (Z.to_nat (n - n mod 2) = S (S (Z.to_nat (n - 2 - (n - 2) mod 2)))) as Ed.
      { rewrite Em. pose proof (Z.mod_pos_bound n 2). pose proof (Z.mod_le n 2). lia. }
      rewrite En in Hlt. cbn [take words total foldr] in Hlt. fold total in Hlt.
      assert (0 <= total (words e (take (Z.to_nat (n - 2)) l))) as Hpos.
      { apply total_bound, words_word. by apply Forall_take. }
      unfold total in Hpos, Hlt.
      rewrite u32_small by lia.
      destruct (IH (n - 2) (sum + load16 e b0 b1)) as (r & Hr & Hsum & Hr32);
        [simpl in Hn; lia|lia|done|unfold total; lia|].
      exists r. rewrite Ed, <- Em. split; [exact Hr|]. cbn [drop]. rewrite En.
      cbn [take words total foldr]. unfold total in *. lia.
Qed.

Lemma total_words_take e l n :
  bytes l -> 0 <= n <= 131074 -> 0 <= total (words e (take (Z.to_nat n) l)) < 2 ^ 32.
Proof.
  intros Hl Hn.
  pose proof (total_bound (words e (take (Z.to_nat n) l))) as H.
  pose proof (length_words e (take (Z.to_nat n) l)) as Hlen. rewrite length_take in Hlen.
  assert ((Z.of_nat (Z.to_nat n `min` length l) + 1) / 2 < 65538)
    by (apply Z.div_lt_upper_bound; lia).
  specialize (H (words_word e _ ltac:(by apply Forall_take))). lia.
Qed.

Lemma in_cksum_value e l n :
  bytes l -> 0 <= n <= Z.of_nat (length l) -> n <= 131074 ->
  in_cksum e l n = Some (65535 - norm (total (words e (take (Z.to_nat n) l)))).
Proof.
  intros Hl Hn Hmax. pose proof (total_words_take e l n Hl ltac:(lia)) as Ht.
  destruct (cksum_loop_spec e l n 0) as (r & Hr & Hsum & Hr32); [lia|lia|done|lia|].
  unfold in_cksum. rewrite Hr. cbn [mbind option_bind].
  pose proof (Z.mod_pos_bound n 2 ltac:(lia)) as Hm.
  assert (n mod 2 <= n) by (apply Z.mod_le; lia).
  rewrite Z.add_0_l in Hsum. rewrite <- Hsum in Ht |- *.
  assert (n mod 2 = 0 \/ n mod 2 = 1) as [Em | Em] by lia; rewrite Em in *; cbn [Z.eqb Pos.eqb].
  - simpl in *. rewrite Z.add_0_r in *. by rewrite cksum_fold_spec.
  - change (Z.to_nat 1) with 1%nat in *.
    destruct (drop (Z.to_nat (n - 1)) l) as [|b l'] eqn:Ed.
    { apply (f_equal length) in Ed. rewrite length_drop in Ed. simpl in Ed. lia. }
    assert (total (words e (take 1 (b :: l'))) = load16 e b 0) as Eb
      by (simpl; lia).
    rewrite Eb in *. rewrite u32_small by lia. by rewrite cksum_fold_spec.
Qed.

Lemma in_cksum_whole e l n :
  bytes l -> n = Z.of_nat (length l) -> n <= 131074 ->
  in_cksum e l n = Some (65535 - norm (total (words e l))).
Proof.
  intros Hl -> Hmax. rewrite in_cksum_value by (done || lia).
  by rewrite Nat2Z.id, firstn_all.
Qed.

Lemma in_cksum_short e l n : Z.of_nat (length l) < n -> in_cksum e l n = None.
Proof.
  intros Hn. unfold in_cksum.
  enough (forall sum, cksum_loop e l n sum = None \/
            exists s, cksum_loop e l n sum = Some ([], 1, s)) as H.
  { destruct (H 0) as [-> | [s ->]]; done. }
  revert n Hn. induction l as [|b|b0 b1 l IH] using list_ind2; intros n Hn sum; simpl in Hn.
  - cbn [cksum_loop]. destruct (1 <? n) eqn:E; zbool; [by left|].
    assert (n = 1) as -> by lia. right. eauto.
  - cbn [cksum_loop]. rewrite (proj2 (Z.ltb_lt 1 n)) by lia. by left.
  - cbn [cksum_loop]. rewrite (proj2 (Z.ltb_lt 1 n)) by lia. apply IH. lia.
Qed.

(** Swapping the bytes of every word multiplies by 256 modulo 65535. *)
Lemma total_swap l : exists k, total (words Big l) = 256 * total (words Little l) - 65535 * k.
Proof.
  induction l as [|b|b0 b1 l [k IH]] using list_ind2; cbn [words total foldr].
  - exists 0. lia.
  - exists 0. simpl. lia.
  - exists (k + b1). unfold total in IH. rewrite IH. simpl. lia.
Qed.

Lemma total_zero e e' l : bytes l -> total (words e l) = 0 -> total (words e' l) = 0.
Proof.
  induction l as [|b|b0 b1 l IH] using list_ind2; intros Hl; cbn [words total foldr].
  - done.
  - inversion_clear Hl as [|?? Hb _]. unfold byte in Hb. destruct e, e'; simpl; lia.
  - inversion_clear Hl as [|?? H0 Hl']. inversion_clear Hl' as [|?? H1 Hl''].
    pose proof (total_bound _ (words_word e l Hl'')) as Hb.
    specialize (IH Hl''). unfold byte, total in *. destruct e, e'; simpl in *; lia.
Qed.

Lemma norm_swap l :
  bytes l ->
  norm (total (words Big l))
  = load16 Big (norm (total (words Little l)) mod 256) (norm (total (words Little l)) / 256).
Proof.
  intros Hl. set (L := total (words Little l)). set (B := total (words Big l)).
  assert (0 <= L) by (apply total_bound, words_word, Hl).
  assert (0 <= B) by (apply total_bound, words_word, Hl).
  pose proof (norm_word L ltac:(done)) as Hw. unfold word in Hw.
  pose proof (norm_zero L ltac:(done)) as Hz.
  destruct (norm_class L ltac:(done)) as (q & Hq & _).
  destruct (total_swap l) as (k & Hk). fold L B in Hk.
  pose proof (Z.div_mod (norm L) 256 ltac:(lia)).
  pose proof (Z.mod_pos_bound (norm L) 256 ltac:(lia)).
  assert (0 <= norm L / 256 < 256)
    by (split; [apply Z.div_pos|apply Z.div_lt_upper_bound]; lia).
  assert (B = 0 <-> L = 0) as HB0 by (split; apply total_zero, Hl).
  cbn [load16]. apply norm_unique; unfold word; [lia|lia|lia|].
  exists (256 * q - k + norm L / 256). lia.
Qed.

(** [in_cksum] against RFC 1071, and the two byte orders. *)
Definition cksum_spec (addr : list Z) (len : Z) : Prop :=
  (0 <= len <= Z.of_nat (length addr) -> len <= 131074 ->
     exists vl vb,
       in_cksum Little addr len = Some vl /\ in_cksum Big addr len = Some vb /\
       vl = 65535 - ones_sum (words Little (take (Z.to_nat len) addr)) /\
       vb = 65535 - ones_sum (words Big (take (Z.to_nat len) addr)) /\
       store16 Little vl = store16 Big vb) /\
  (forall e, Z.of_nat (length addr) < len -> in_cksum e addr len = None).
Lemma in_cksum_meets_spec (addr : list Z) (len : Z) (H : bytes addr) : cksum_spec addr len.
Proof.
  split; [|intros; by apply in_cksum_short]. intros Hlen Hmax.
  set (d := take (Z.to_nat len) addr).
  assert (bytes d) as Hd by by apply Forall_take.
  assert (forall e, ones_sum (words e d) = norm (total (words e d))) as Hsum
    by (intros; by apply ones_sum_norm, words_word).
  eexists _, _. split; [by apply in_cksum_value|]. split; [by apply in_cksum_value|].
  fold d. rewrite !Hsum. do 2 (split; [done|]).
  rewrite (norm_swap d Hd). set (v := norm (total (words Little d))). simpl.
  assert (word v) as Hv by (apply norm_word, total_bound, words_word, Hd). unfold word in Hv.
  pose proof (Z.div_mod v 256 ltac:(lia)). pose proof (Z.mod_pos_bound v 256 ltac:(lia)).
  assert (0 <= v / 256 < 256)
    by (split; [apply Z.div_pos|apply Z.div_lt_upper_bound]; lia).
  assert ((65535 - v) / 256 = 255 - v / 256) as ->
    by (symmetry; apply (Z.div_unique_pos _ _ _ (255 - v mod 256)); lia).
  assert ((65535 - v) mod 256 = 255 - v mod 256) as ->
    by (symmetry; apply (Z.mod_unique_pos _ _ (255 - v / 256)); lia).
  assert ((65535 - (256 * (v mod 256) + v / 256)) / 256 = 255 - v mod 256) as ->
    by (symmetry; apply (Z.div_unique_pos _ _ _ (255 - v / 256)); lia).
  assert ((65535 - (256 * (v mod 256) + v / 256)) mod 256 = 255 - v / 256) as ->
    by (symmetry; apply (Z.mod_unique_pos _ _ (255 - v mod 256)); lia).
  done.
Qed.

(** ** What the checksum protects *)

Lemma load_store e v : word v -> exists b0 b1, store16 e v = [b0; b1] /\ byte b0 /\ byte b1 /\
  load16 e b0 b1 = v.
Proof.
  unfold word, byte. intros Hv.
  pose proof (Z.div_mod v 256 ltac:(lia)). pose proof (Z.mod_pos_bound v 256 ltac:(lia)).
  assert (0 <= v / 256 < 256)
    by (split; [apply Z.div_pos|apply Z.div_lt_upper_bound]; lia).
  destruct e; simpl; eexists _, _; (split; [reflexivity|]); lia.
Qed.

Lemma bytes_store e v : word v -> bytes (store16 e v).
Proof. intros Hv. destruct (load_store e v Hv) as (b0 & b1 & -> & ? & ? & _). unfold bytes. by rewrite !Forall_cons. Qed.

Lemma total_middle e pre w post :
  Nat.even (length pre) = true ->
  total (words e (pre ++ w ++ post)) = total (words e pre) + total (words e (w ++ post)).
Proof. intros. rewrite words_app by done. apply total_app. Qed.

Lemma norm_add_complement S : 0 <= S -> norm (S + (65535 - norm S)) = 65535.
Proof.
  intros HS. pose proof (norm_word S HS) as Hw. pose proof (norm_zero S HS) as Hz.
  destruct (norm_class S HS) as (k & Hk & ?). unfold word in Hw.
  apply norm_unique; unfold word; [lia|lia|lia|]. exists k. lia.
Qed.

(** The checksum of a message with one word singled out. *)
Lemma in_cksum_middle e (pre post : list Z) v :
  bytes pre -> bytes post -> Nat.even (length pre) = true ->
  Z.of_nat (length pre + 2 + length post) <= 131074 -> word v ->
  in_cksum e (pre ++ store16 e v ++ post) (Z.of_nat (length pre + 2 + length post))
  = Some (65535 - norm (total (words e (pre ++ post)) + v)).
Proof.
  intros Hb1 Hb2 Hpre Hlen Hv. pose proof (bytes_store e v Hv).
  destruct (load_store e v Hv) as (b0 & b1 & Hst & ? & ? & Hld). rewrite Hst in *.
  rewrite in_cksum_whole; [|by repeat apply Forall_app_2| |done].
  - rewrite total_middle, (words_app e pre post), (total_app (words e pre)) by done.
    change (total (words e ([b0; b1] ++ post))) with (load16 e b0 b1 + total (words e post)).
    rewrite Hld. f_equal. f_equal. f_equal. lia.
  - rewrite !length_app. simpl. lia.
Qed.

(** A message that verifies does so on machines of either byte order. *)
Lemma verifies_any e e' l n :
  bytes l -> 0 <= n <= Z.of_nat (length l) -> n <= 131074 ->
  in_cksum e l n = Some 0 -> in_cksum e' l n = Some 0.
Proof.
  intros Hl Hn Hmax. rewrite !in_cksum_value by done.
  set (d := take (Z.to_nat n) l). assert (bytes d) as Hd by by apply Forall_take.
  intros E. apply Some_inj in E. f_equal.
  pose proof (norm_swap d Hd) as Hs. cbn [load16] in Hs.
  pose proof (norm_word _ (proj1 (total_bound _ (words_word Little d Hd)))) as Hw.
  unfold word in Hw.
  pose proof (Z.div_mod (norm (total (words Little d))) 256 ltac:(lia)).
  pose proof (Z.mod_pos_bound (norm (total (words Little d))) 256 ltac:(lia)).
  assert (0 <= norm (total (words Little d)) / 256 < 256)
    by (split; [apply Z.div_pos|apply Z.div_lt_upper_bound]; lia).
  destruct e, e'; lia.
Qed.

(** A checksum field in the middle of a message: stored, and changed. *)
Definition protects_spec (e : endian) (pre post : list Z) : Prop :=
  let len := Z.of_nat (length pre + 2 + length post) in
  (exists v, in_cksum e (pre ++ [0; 0] ++ post) len = Some v /\ word v /\
             in_cksum e (pre ++ store16 e v ++ post) len = Some 0) /\
  (forall v v', word v -> word v' -> v <> v' -> ~ (v = 0 /\ v' = 65535) -> ~ (v = 65535 /\ v' = 0) ->
     in_cksum e (pre ++ store16 e v ++ post) len = Some 0 ->
     in_cksum e (pre ++ store16 e v' ++ post) len <> Some 0).
Lemma in_cksum_protects e (pre post : list Z) (Hb : bytes (pre ++ post))
    (Hpre : Nat.even (length pre) = true) (Hlen : Z.of_nat (length pre + 2 + length post) <= 131074) :
  protects_spec e pre post.
Proof.
  unfold protects_spec. set (len := Z.of_nat (length pre + 2 + length post)). apply Forall_app in Hb as [Hb1 Hb2].
  pose proof (fun v => in_cksum_middle e pre post v Hb1 Hb2 Hpre Hlen) as Hval.
  set (S0 := total (words e (pre ++ post))) in *.
  assert (0 <= S0) as HS by by apply total_bound, words_word, Forall_app_2.
  pose proof (norm_word S0 HS) as Hw. split.
  - exists (65535 - norm S0). split; [|split].
    + rewrite <- (Z.add_0_r S0). unfold len. rewrite <- Hval by done. by destruct e.
    + unfold word in *. lia.
    + unfold len. rewrite Hval by (unfold word in *; lia). by rewrite norm_add_complement.
  - intros v v' Hv Hv' Hne H0 H1. unfold len. rewrite !Hval by done. intros E E'.
    assert (norm (S0 + v) = 65535) as En by (apply Some_inj in E; lia).
    assert (norm (S0 + v') = 65535) as En' by (apply Some_inj in E'; lia).
    unfold word in *.
    destruct (norm_class (S0 + v)) as (k & Hk & _); [lia|].
    destruct (norm_class (S0 + v')) as (k' & Hk' & _); [lia|]. lia.
Qed.

(** C16: [in_cksum] is the one's complement of the one's complement sum of the
    words of the first [len] bytes (the algorithm of RFC 1071, an odd last
    byte padded with zero), for every length up to 131074; the bytes that
    storing the result puts into memory do not depend on the byte order of
    the machine; and a length beyond the object reads outside of it.  A
    checksum that is computed over a message with a zero checksum field and
    stored into that field makes the message verify: its checksum is 0.  A
    message that verifies no longer verifies when one word of it is changed,
    unless the change is between 0x0000 and 0xffff. *)
Theorem in_cksum_correct (addr : list Z) (len : Z) e (pre post : list Z)
    (H : bytes addr) (Hb : bytes (pre ++ post)) (Hpre : Nat.even (length pre) = true)
    (Hlen : Z.of_nat (length pre + 2 + length post) <= 131074) :
  cksum_spec addr len /\ protects_spec e pre post.
Proof. split; [by apply in_cksum_meets_spec|by apply in_cksum_protects]. Qed.

Lemma in_cksum_correct_witness :
  (exists vl vb, in_cksum Little [1; 2; 3] 3 = Some vl /\ in_cksum Big [1; 2; 3] 3 = Some vb /\
    store16 Little vl = store16 Big vb) /\
  exists v, in_cksum Little ([8; 0] ++ [0; 0] ++ [1; 2; 3]) 7 = Some v /\
            in_cksum Little ([8; 0] ++ store16 Little v ++ [1; 2; 3]) 7 = Some 0.
Proof.
  destruct (in_cksum_correct [1; 2; 3] 3 Little [8; 0] [1; 2; 3] ltac:(by_eval) ltac:(by_eval) eq_refl
    ltac:(simpl; lia)) as [[H _] [(v & H1 & _ & H2) _]].
  destruct (H ltac:(simpl; lia) ltac:(lia)) as (vl & vb & H3 & H4 & _ & _ & H5).
  split; [by exists vl, vb|by exists v].
Defined.
