(* ===== verification/UdpRaw.v ===== *)
(** * Raw UDP datagrams

    udpcksum/udpwrite.c (the IP and UDP headers written by the program, with
    the UDP checksum), udpcksum/senddnsquery-raw.c (the DNS query) and
    udpcksum/udpread.c (the check of a captured frame).  The layouts of
    [struct ip] and [struct udpiphdr] are those of the system headers. *)

From S2P Require Import Prelude Unix ErrorLib Wrap ReadWrite Cksum.

Implicit Types (e : endian).

(** ** Objects in memory *)

(** The members of a [struct sockaddr_in], as they are in memory. *)
Definition sin_port (sa : list Z) : list Z := take 2 (drop 2 sa).
Definition sin_addr (sa : list Z) : list Z := take 4 (drop 4 sa).

Definition IPPROTO_IP : Z := 0.
Definition IPPROTO_UDP : Z := 17.
Definition IPVERSION : Z := 4.
Definition TTL_OUT : Z := 64.
Definition SOCK_RAW : Z := 3.
Definition IP_HDRINCL : Z := 3.

(** ** udpwrite.c *)

Definition open_output (sa_family : Z) : M Z :=
  rawfd ← Socket sa_family SOCK_RAW 0;
  Setsockopt rawfd IPPROTO_IP IP_HDRINCL [1; 0; 0; 0] ;;
  mret rawfd.

(** The headers that [udp_write] builds in [buf]; [linux] is the
    preprocessor's choice, [local] and [dest] the socket addresses. *)
Definition udp_fill e (linux : bool) (zerosum : Z) (local dest buf : list Z) (userlen : Z)
    : option (list Z) :=
  buf ← poke 0 (replicate 28 0) buf;
  let ui_len := hton16 e (u16 (8 + userlen)) in
  buf ← poke 10 (store16 e ui_len) buf;
  let userlen := s32 (userlen + 28) in
  buf ← poke 9 [IPPROTO_UDP] buf;
  buf ← poke 12 (sin_addr local) buf;
  buf ← poke 16 (sin_addr dest) buf;
  buf ← poke 20 (sin_port local) buf;
  buf ← poke 22 (sin_port dest) buf;
  buf ← poke 24 (store16 e ui_len) buf;
  buf ← (if zerosum =? 0 then
           sum ← in_cksum e buf userlen;
           poke 26 (store16 e (if sum =? 0 then 0xffff else sum)) buf
         else Some buf);
  buf ← poke 0 [Z.lor (Z.shiftl IPVERSION 4) (Z.shiftr 20 2)] buf;
  buf ← poke 1 [0] buf;
  buf ← poke 2 (store16 e (if linux then hton16 e (u16 userlen) else u16 userlen)) buf;
  buf ← poke 4 (store16 e 0) buf;
  buf ← poke 6 (store16 e 0) buf;
  poke 8 [TTL_OUT] buf.

Definition udp_write e linux (zerosum rawfd : Z) (local dest buf : list Z) (userlen : Z)
    : M (list Z) :=
  buf ← or_undef (udp_fill e linux zerosum local dest buf userlen);
  Sendto rawfd (take (Z.to_nat (s32 (userlen + 28))) buf) dest ;;
  mret buf.

(** ** senddnsquery-raw.c: [mem] is the memory that malloc returns *)

Definition dns_names : list Z :=
  [1] ++ chars "a" ++ [12] ++ chars "root-servers" ++ [3] ++ chars "net" ++ [0].

Definition dns_fill e (mem : list Z) : option (list Z) :=
  buf ← poke 28 (store16 e (hton16 e 1234)) mem;
  buf ← poke 30 (store16 e (hton16 e 0x0100)) buf;
  buf ← poke 32 (store16 e (hton16 e 1)) buf;
  buf ← poke 34 (store16 e 0) buf;
  buf ← poke 36 (store16 e 0) buf;
  buf ← poke 38 (store16 e 0) buf;
  buf ← poke 40 dns_names buf;
  buf ← poke 60 (store16 e (hton16 e 1)) buf;
  poke 62 (store16 e (hton16 e 1)) buf.

Definition send_dns_query e linux (zerosum rawfd : Z) (local dest mem : list Z) (verbose : bool)
    : M unit :=
  Malloc 128 ;;
  buf ← or_undef (dns_fill e mem);
  udp_write e linux zerosum rawfd local dest buf 36 ;;
  if verbose then output (CStdout (chars "sent: " ++ fmt_d 36 ++ chars " bytes of data" ++ [10])) ;; mret ()
  else mret ().

(** ** udpread.c *)

(** [len] is an [int] that is compared with [size_t] values. *)
Definition udp_check e (pkt : list Z) (len : Z) : M (list Z) :=
  if u64 len <? 28 then err_quit (chars "len = " ++ fmt_d len) else
  b0 ← or_undef (pkt !! 0%nat);
  if negb (Z.shiftr b0 4 =? IPVERSION) then err_quit (chars "ip_v = " ++ fmt_d (Z.shiftr b0 4)) else
  let hlen := Z.shiftl (Z.land b0 15) 2 in
  if hlen <? 20 then err_quit (chars "ip_hl = " ++ fmt_d (Z.land b0 15)) else
  if u64 len <? hlen + 8
  then err_quit (chars "len = " ++ fmt_d len ++ chars ", hlen = " ++ fmt_d hlen) else
  sum ← or_undef (in_cksum e pkt hlen);
  pkt ← or_undef (poke 10 (store16 e sum) pkt);
  if negb (sum =? 0) then err_quit (chars "ip checksum error") else
  p ← or_undef (pkt !! 9%nat);
  if p =? IPPROTO_UDP then mret pkt else err_quit (chars "not a UDP packet").

Inductive datalink := DLT_NULL | DLT_EN10MB | DLT_SLIP | DLT_PPP | DLT_OTHER (n : Z).
Definition ETHERTYPE_IP : Z := 0x0800.

(** [frame] is the packet that [next_pcap] has returned. *)
Definition udp_read e (dl : datalink) (frame : list Z) : M (list Z) :=
  let len := Z.of_nat (length frame) in
  match dl with
  | DLT_NULL => udp_check e (drop 4 frame) (len - 4)
  | DLT_EN10MB =>
      b0 ← or_undef (frame !! 12%nat);
      b1 ← or_undef (frame !! 13%nat);
      let type := 256 * b0 + b1 in
      if negb (type =? ETHERTYPE_IP)
      then err_quit (chars "Ethernet type " ++ fmt_x type ++ chars " not IP")
      else udp_check e (drop 14 frame) (len - 14)
  | DLT_SLIP | DLT_PPP => udp_check e (drop 24 frame) (len - 24)
  | DLT_OTHER n => err_quit (chars "unsupported datalink (" ++ fmt_d n ++ chars ")")
  end.

(** ** Specifications *)

(** The datagram: the 20 bytes of the IP header without a checksum of its
    own, the UDP header with checksum [ck], and the user's bytes. *)
Definition datagram (iplen ck src dst sport dport user : list Z) : list Z :=
  let ulen := be16 (8 + Z.of_nat (length user)) in
  [0x45; 0] ++ iplen ++ [0; 0; 0; 0; TTL_OUT; IPPROTO_UDP] ++ ulen ++ src ++ dst ++
  sport ++ dport ++ ulen ++ ck ++ user.

(** The pseudo-header of RFC 768 followed by the UDP datagram of [d]. *)
Definition pseudo (d : list Z) : list Z :=
  take 8 (drop 12 d) ++ [0; IPPROTO_UDP] ++ take 2 (drop 24 d) ++ drop 20 d.

(** What [udp_check] demands of a packet. *)
Definition valid_udp e (pkt : list Z) : Prop :=
  28 <= Z.of_nat (length pkt) /\
  exists b0, pkt !! 0%nat = Some b0 /\ Z.shiftr b0 4 = 4 /\
    20 <= Z.shiftl (Z.land b0 15) 2 /\
    Z.shiftl (Z.land b0 15) 2 + 8 <= Z.of_nat (length pkt) /\
    in_cksum e pkt (Z.shiftl (Z.land b0 15) 2) = Some 0 /\
    pkt !! 9%nat = Some IPPROTO_UDP.

(** The header checksum is stored by the kernel that sends the datagram. *)
Definition ip_output e (d : list Z) : option (list Z) :=
  d ← poke 10 [0; 0] d;
  v ← in_cksum e d 20;
  poke 10 (store16 e v) d.

(** ** Lemmas *)

Lemma store_zero e : store16 e 0 = [0; 0].
Proof. by destruct e. Qed.

Lemma length_port sa : length sa = 16%nat -> length (sin_port sa) = 2%nat.
Proof. intros. unfold sin_port. rewrite length_take, length_drop. lia. Qed.
Lemma length_addr sa : length sa = 16%nat -> length (sin_addr sa) = 4%nat.
Proof. intros. unfold sin_addr. rewrite length_take, length_drop. lia. Qed.

Lemma store_explicit e v : exists s0 s1, store16 e v = [s0; s1].
Proof. destruct e; simpl; eauto. Qed.

(** The image of the headers while the checksum is computed. *)
Definition unsummed (ulen src dst sport dport rest : list Z) : list Z :=
  replicate 9 0 ++ [IPPROTO_UDP] ++ ulen ++ src ++ dst ++ sport ++ dport ++ ulen ++ [0; 0] ++ rest.

Lemma udp_fill_eq e linux zerosum local dest buf userlen :
  length local = 16%nat -> length dest = 16%nat ->
  0 <= userlen <= 65507 -> 28 + userlen <= Z.of_nat (length buf) ->
  udp_fill e linux zerosum local dest buf userlen =
  let ulen := be16 (8 + userlen) in
  let total := 28 + userlen in
  let head ck := [0x45; 0] ++ (if linux then be16 total else store16 e total) ++
    [0; 0; 0; 0; TTL_OUT; IPPROTO_UDP] ++ ulen ++ sin_addr local ++ sin_addr dest ++
    sin_port local ++ sin_port dest ++ ulen ++ ck ++ drop 28 buf in
  if zerosum =? 0 then
    sum ← in_cksum e (unsummed ulen (sin_addr local) (sin_addr dest) (sin_port local)
                        (sin_port dest) (drop 28 buf)) total;
    Some (head (store16 e (if sum =? 0 then 0xffff else sum)))
  else Some (head [0; 0]).
Proof.
  intros Hl Hd Hu Hb.
  destruct (list_4 _ (length_addr local Hl)) as (a1 & a2 & a3 & a4 & Ea).
  destruct (list_4 _ (length_addr dest Hd)) as (d1 & d2 & d3 & d4 & Ed).
  destruct (list_2 _ (length_port local Hl)) as (p1 & p2 & Ep).
  destruct (list_2 _ (length_port dest Hd)) as (q1 & q2 & Eq).
  unfold udp_fill. rewrite poke_ok by (rewrite length_replicate; lia).
  rewrite Ea, Ed, Ep, Eq. cbn [mbind option_bind].
  rewrite (u16_small (8 + userlen)), (s32_small (userlen + 28)) by lia.
  rewrite (u16_small (userlen + 28)) by lia.
  rewrite (store_hton e (8 + userlen)) by (unfold word; lia).
  assert ((if linux then store16 e (hton16 e (userlen + 28)) else store16 e (userlen + 28))
          = (if linux then be16 (28 + userlen) else store16 e (28 + userlen))) as El.
  { rewrite (Z.add_comm userlen 28). by rewrite store_hton by (unfold word; lia). }
  replace (store16 e (if linux then hton16 e (userlen + 28) else userlen + 28))
    with (if linux then be16 (28 + userlen) else store16 e (28 + userlen))
    by (rewrite <- El; by destruct linux).
  clear El. rewrite (Z.add_comm userlen 28). rewrite store_zero.
  change (Z.lor (Z.shiftl IPVERSION 4) (Z.shiftr 20 2)) with 0x45.
  change (0 + length (replicate 28 0%Z))%nat with 28%nat.
  set (r := drop 28 buf). cbv zeta.
  assert (exists l0 l1, be16 (8 + userlen) = [l0; l1]) as (l0 & l1 & Eu)
    by (unfold be16; eauto).
  rewrite Eu.
  assert (exists t0 t1, (if linux then be16 (28 + userlen) else store16 e (28 + userlen)) = [t0; t1])
    as (t0 & t1 & Et).
  { destruct linux; [unfold be16; eauto|apply store_explicit]. }
  rewrite Et. change (take 0 buf) with (@nil Z).
  unfold poke. cbn [length app replicate take drop Nat.leb Nat.add mbind option_bind].
  destruct (zerosum =? 0).
  - unfold unsummed. cbn [replicate app].
    destruct (in_cksum _ _ _) as [sum|]; [|done]. cbn [mbind option_bind].
    destruct (store_explicit e (if sum =? 0 then 0xffff else sum)) as (s0 & s1 & Es).
    rewrite Es. cbn [length app replicate take drop Nat.leb Nat.add mbind option_bind].
    done.
  - cbn [length app replicate take drop Nat.leb Nat.add mbind option_bind]. done.
Qed.

Lemma bytes_port sa : bytes sa -> bytes (sin_port sa).
Proof. intros. by apply Forall_take, Forall_drop. Qed.
Lemma bytes_addr sa : bytes sa -> bytes (sin_addr sa).
Proof. intros. by apply Forall_take, Forall_drop. Qed.

Lemma bytes_be16 v : word v -> bytes (be16 v).
Proof.
  unfold word, be16, bytes. intros Hv. rewrite !Forall_cons. unfold byte.
  pose proof (Z.mod_pos_bound v 256 ltac:(lia)).
  assert (0 <= v / 256 < 256)
    by (split; [apply Z.div_pos|apply Z.div_lt_upper_bound]; lia).
  split; [lia|]. split; [lia|constructor].
Qed.

(** The checksum only looks at the first [n] bytes. *)
Lemma in_cksum_take e l n :
  bytes l -> 0 <= n <= Z.of_nat (length l) -> n <= 131074 ->
  in_cksum e l n = in_cksum e (take (Z.to_nat n) l) n.
Proof.
  intros Hl Hn Hmax. rewrite (in_cksum_value e l) by done.
  rewrite (in_cksum_whole e (take _ _)); [done|by apply Forall_take| |done].
  rewrite length_take. lia.
Qed.

(** The value stored in the UDP checksum field: never 0, and it makes the
    sum of the words 0xffff. *)
Lemma udp_sum_value S :
  0 <= S ->
  let sum := 65535 - norm S in
  let v := if sum =? 0 then 0xffff else sum in
  word v /\ v <> 0 /\ norm (S + v) = 65535.
Proof.
  intros HS sum v. pose proof (norm_word S HS) as Hw. unfold word in *.
  destruct (norm_class S HS) as (k & Hk & Hk0). unfold v, sum in *.
  destruct (65535 - norm S =? 0) eqn:E; zbool.
  - split; [lia|]. split; [lia|].
    apply norm_unique; unfold word; [lia|lia|lia|]. exists (k + 1). lia.
  - split; [lia|]. split; [lia|]. by apply norm_add_complement.
Qed.

Section Datagram.
Context (iplen src dst sport dport user : list Z).
Context (Hsrc : length src = 4%nat) (Hdst : length dst = 4%nat).
Context (Hsp : length sport = 2%nat) (Hdp : length dport = 2%nat) (Hip : length iplen = 2%nat).
Context (Buser : bytes user) (Bsrc : bytes src) (Bdst : bytes dst).
Context (Bsp : bytes sport) (Bdp : bytes dport) (Bip : bytes iplen).
Context (Hn : Z.of_nat (length user) <= 65507).

Lemma length_datagram ck :
  length ck = 2%nat -> length (datagram iplen ck src dst sport dport user) = (28 + length user)%nat.
Proof.
  intros Hck. unfold datagram, be16. rewrite !length_app, Hsrc, Hdst, Hsp, Hdp, Hip, Hck.
  simpl. lia.
Qed.

Lemma word_ulen : word (8 + Z.of_nat (length user)).
Proof using Hn. clear - Hn. unfold word. lia. Qed.

Lemma bytes_datagram ck : bytes ck -> bytes (datagram iplen ck src dst sport dport user).
Proof.
  intros Bck. pose proof (bytes_be16 _ word_ulen). unfold datagram.
  repeat (apply Forall_app_2; [done|]); try done.
  - apply Forall_app_2; [by_eval|]. repeat (apply Forall_app_2; [done|]).
    apply Forall_app_2; [by_eval|]. by repeat apply Forall_app_2.
Qed.

Lemma pseudo_datagram ck :
  let ulen := be16 (8 + Z.of_nat (length user)) in
  length ck = 2%nat ->
  pseudo (datagram iplen ck src dst sport dport user)
  = src ++ dst ++ [0; IPPROTO_UDP] ++ ulen ++ sport ++ dport ++ ulen ++ ck ++ user.
Proof.
  intros ulen Hck.
  destruct (list_4 _ Hsrc) as (? & ? & ? & ? & ->). destruct (list_4 _ Hdst) as (? & ? & ? & ? & ->).
  destruct (list_2 _ Hsp) as (? & ? & ->). destruct (list_2 _ Hdp) as (? & ? & ->).
  destruct (list_2 _ Hck) as (? & ? & ->). destruct (list_2 _ Hip) as (? & ? & ->).
  reflexivity.
Qed.

(** The words of the image with zero checksum, and those of the
    pseudo-header and the finished datagram, have sums that differ by the
    checksum. *)
Lemma pseudo_total e v :
  word v ->
  let ulen := be16 (8 + Z.of_nat (length user)) in
  total (words e (pseudo (datagram iplen (store16 e v) src dst sport dport user)))
  = total (words e (unsummed ulen src dst sport dport user)) + v.
Proof.
  intros Hv ulen. destruct (load_store e v Hv) as (c0 & c1 & Hst & _ & _ & Hld).
  rewrite Hst. rewrite (pseudo_datagram [c0; c1] eq_refl). fold ulen.
  unfold unsummed.
  destruct (list_4 _ Hsrc) as (? & ? & ? & ? & ->). destruct (list_4 _ Hdst) as (? & ? & ? & ? & ->).
  destruct (list_2 _ Hsp) as (? & ? & ->). destruct (list_2 _ Hdp) as (? & ? & ->).
  destruct (list_2 ulen eq_refl) as (? & ? & ->).
  cbn [replicate app words total foldr]. rewrite Hld.
  assert (load16 e 0 0 = 0) as -> by by destruct e. lia.
Qed.

Lemma unsummed_bytes : 
  bytes (unsummed (be16 (8 + Z.of_nat (length user))) src dst sport dport user).
Proof using Buser Bsrc Bdst Bsp Bdp Hn.
  clear Bip Hip iplen.
  pose proof (bytes_be16 _ word_ulen). unfold unsummed.
  apply Forall_app_2; [by_eval|]. apply Forall_app_2; [by_eval|].
  repeat (apply Forall_app_2; [done|]). apply Forall_app_2; [by_eval|done].
Qed.

Lemma length_unsummed :
  length (unsummed (be16 (8 + Z.of_nat (length user))) src dst sport dport user) = (28 + length user)%nat.
Proof using Hsrc Hdst Hsp Hdp.
  clear Bip Hip iplen.
  unfold unsummed, be16. rewrite !length_app, Hsrc, Hdst, Hsp, Hdp. simpl. lia.
Qed.

(** The receiver's check of a datagram whose checksum was computed from the
    image of the headers. *)
Lemma pseudo_verifies e e' sum :
  let ulen := be16 (8 + Z.of_nat (length user)) in
  let v := if sum =? 0 then 0xffff else sum in
  let d := datagram iplen (store16 e v) src dst sport dport user in
  in_cksum e (unsummed ulen src dst sport dport user) (28 + Z.of_nat (length user)) = Some sum ->
  word v /\ v <> 0 /\ in_cksum e' (pseudo d) (20 + Z.of_nat (length user)) = Some 0.
Proof.
  intros ulen v d Hsum.
  rewrite in_cksum_whole in Hsum; [|exact unsummed_bytes|unfold ulen; rewrite length_unsummed; lia|lia].
  apply Some_inj in Hsum. fold ulen in Hsum.
  pose proof (total_bound _ (words_word e _ unsummed_bytes)) as [HS _]. fold ulen in HS.
  destruct (udp_sum_value _ HS) as (Hw & Hnz & Hnorm). cbn zeta in Hw, Hnz, Hnorm.
  rewrite Hsum in Hw, Hnz, Hnorm. fold v in Hw, Hnz, Hnorm.
  split; [done|]. split; [done|].
  assert (length (store16 e v) = 2%nat) as Hck by by destruct (store_explicit e v) as (? & ? & ->).
  assert (length (pseudo d) = (20 + length user)%nat) as Hlen.
  { unfold d. rewrite pseudo_datagram by done.
    rewrite !length_app, Hsrc, Hdst, Hsp, Hdp, Hck. simpl. lia. }
  assert (bytes (pseudo d)) as Hbytes.
  { unfold d. rewrite pseudo_datagram by done. pose proof (bytes_be16 _ word_ulen).
    pose proof (bytes_store e v Hw).
    do 2 (apply Forall_app_2; [done|]). apply Forall_app_2; [by_eval|].
    by repeat apply Forall_app_2. }
  apply (verifies_any e); [done|lia|lia|].
  rewrite in_cksum_whole; [|done|lia|lia]. unfold d. rewrite pseudo_total by done.
  fold ulen. rewrite Hnorm. done.
Qed.
End Datagram.

(** The header checksum that the kernel stores makes the datagram pass. *)
Lemma ip_output_valid e e' (iplen ck src dst sport dport user : list Z) d :
  d = datagram iplen ck src dst sport dport user -> bytes d -> length iplen = 2%nat ->
  length src = 4%nat -> length dst = 4%nat -> length ck = 2%nat ->
  length sport = 2%nat -> length dport = 2%nat ->
  exists v, ip_output e d = Some (take 10 d ++ store16 e v ++ drop 12 d) /\
    valid_udp e' (take 10 d ++ store16 e v ++ drop 12 d).
Proof.
  intros -> Hd Hip Hsrc Hdst Hck Hsp Hdp.
  set (d := datagram iplen ck src dst sport dport user) in *.
  assert (28 <= length d)%nat as Hlen.
  { unfold d, datagram, be16. rewrite !length_app, Hip, Hsrc, Hdst, Hck, Hsp, Hdp. simpl. lia. }
  assert (bytes (take 10 d)) as B1 by by apply Forall_take.
  assert (bytes (take 8 (drop 12 d))) as B2 by by apply Forall_take, Forall_drop.
  assert (length (take 10 d) = 10%nat) as L1 by (rewrite length_take; lia).
  assert (length (take 8 (drop 12 d)) = 8%nat) as L2
    by (rewrite length_take, length_drop; lia).
  assert (Nat.even (length (take 10 d)) = true) as Hev by by rewrite L1.
  set (S0 := total (words e (take 10 d ++ take 8 (drop 12 d)))).
  assert (0 <= S0) as HS by by apply total_bound, words_word, Forall_app_2.
  pose proof (norm_word S0 HS) as Hw.
  assert (forall v, word v ->
    in_cksum e (take 10 d ++ store16 e v ++ drop 12 d) 20 = Some (65535 - norm (S0 + v))) as Hval.
  { intros v Hv. destruct (store_explicit e v) as (s0 & s1 & Es).
    pose proof (bytes_store e v Hv) as Bs. rewrite Es in *.
    rewrite in_cksum_take; [| |rewrite !length_app, L1, length_drop; cbn [length]; lia|lia].
    - assert (take (Z.to_nat 20) (take 10 d ++ [s0; s1] ++ drop 12 d)
              = take 10 d ++ [s0; s1] ++ take 8 (drop 12 d)) as ->.
      { rewrite take_app_ge by (rewrite L1; lia). rewrite L1. f_equal. }
      pose proof (in_cksum_middle e _ _ v B1 B2 Hev) as Hm. rewrite Es, L1, L2 in Hm.
      apply Hm; [lia|done].
    - apply Forall_app_2; [done|]. apply Forall_app_2; [done|by apply Forall_drop]. }
  exists (65535 - norm S0).
  assert (word (65535 - norm S0)) as Hv by (unfold word in *; lia).
  assert (in_cksum e (take 10 d ++ store16 e (65535 - norm S0) ++ drop 12 d) 20 = Some 0) as H0.
  { rewrite Hval by done. by rewrite norm_add_complement. }
  split.
  - unfold ip_output. rewrite poke_ok by (cbn [length]; lia). cbn [mbind option_bind].
    change (10 + length [0%Z; 0%Z])%nat with 12%nat.
    rewrite <- (store_zero e). rewrite Hval by done. rewrite Z.add_0_r. cbn [mbind option_bind].
    destruct (store_explicit e (65535 - norm S0)) as (s0 & s1 & ->). rewrite store_zero.
    rewrite poke_ok by (rewrite !length_app, L1, length_drop; cbn [length]; lia).
    rewrite take_app_length' by done. f_equal. f_equal. f_equal.
    rewrite drop_app_ge by (rewrite L1; cbn [length]; lia). rewrite L1. done.
  - destruct (store_explicit e (65535 - norm S0)) as (s0 & s1 & Es).
    pose proof (bytes_store e _ Hv) as Bs. rewrite Es in *.
    assert (bytes (take 10 d ++ [s0; s1] ++ drop 12 d)) as Hb
      by (apply Forall_app_2; [done|]; apply Forall_app_2; [done|by apply Forall_drop]).
    assert (Z.of_nat (length (take 10 d ++ [s0; s1] ++ drop 12 d)) = Z.of_nat (length d)) as Hl
      by (f_equal; rewrite !length_app, L1, length_drop; cbn [length]; lia).
    split; [lia|]. exists 0x45.
    assert (exists a b rest, iplen = [a; b] /\ d = 0x45 :: 0 :: a :: b :: 0 :: 0 :: 0 :: 0 :: TTL_OUT :: IPPROTO_UDP :: rest)
      as (a & b & rest & _ & Ed).
    { destruct (list_2 _ Hip) as (a & b & ->). exists a, b. eexists. split; [done|]. reflexivity. }
    split; [by rewrite Ed|]. split; [done|]. split; [done|].
    change (Z.shiftl (Z.land 69 15) 2) with 20.
    split; [lia|]. split; [|by rewrite Ed].
    apply (verifies_any e); [done|lia|lia|done].
Qed.

(** Only the [userlen] bytes after the headers count. *)
Lemma unsummed_prefix e src dst sport dport rest n :
  length src = 4%nat -> length dst = 4%nat -> length sport = 2%nat -> length dport = 2%nat ->
  bytes src -> bytes dst -> bytes sport -> bytes dport -> bytes rest ->
  0 <= n <= 65507 -> n <= Z.of_nat (length rest) ->
  in_cksum e (unsummed (be16 (8 + n)) src dst sport dport rest) (28 + n)
  = Some (65535 - norm (total (words e
      (unsummed (be16 (8 + n)) src dst sport dport (take (Z.to_nat n) rest))))).
Proof.
  intros L1 L2 L3 L4 B1 B2 B3 B4 B5 Hn Hr.
  assert (bytes (unsummed (be16 (8 + n)) src dst sport dport rest)) as Hb.
  { pose proof (bytes_be16 (8 + n) ltac:(unfold word; lia)). unfold unsummed.
    apply Forall_app_2; [by_eval|]. apply Forall_app_2; [by_eval|].
    repeat (apply Forall_app_2; [done|]). by apply Forall_app_2; [by_eval|]. }
  rewrite in_cksum_value; [|done| |lia].
  - f_equal. f_equal. f_equal. f_equal. f_equal.
    replace (Z.to_nat (28 + n)) with (28 + Z.to_nat n)%nat by lia. unfold unsummed, be16.
    destruct (list_4 _ L1) as (? & ? & ? & ? & ->). destruct (list_4 _ L2) as (? & ? & ? & ? & ->).
    destruct (list_2 _ L3) as (? & ? & ->). destruct (list_2 _ L4) as (? & ? & ->). reflexivity.
  - unfold unsummed, be16. rewrite !length_app, L1, L2, L3, L4. simpl. lia.
Qed.

(** What [udp_write] sends. *)
Definition wrote e (linux : bool) (zerosum : Z) (local dest user d : list Z) : Prop :=
  exists iplen ck,
    d = datagram iplen ck (sin_addr local) (sin_addr dest) (sin_port local) (sin_port dest) user /\
    length iplen = 2%nat /\ length ck = 2%nat /\ bytes d /\
    (linux = true -> iplen = be16 (28 + Z.of_nat (length user))) /\
    (zerosum <> 0 -> ck = [0; 0]) /\
    (zerosum = 0 -> ck <> [0; 0] /\
       forall e', in_cksum e' (pseudo d) (20 + Z.of_nat (length user)) = Some 0) /\
    forall ek er, exists d', ip_output ek d = Some d' /\ valid_udp er d'.

Definition sends_one (fd : Z) (d dest : list Z) {A} (m : M A) (w : world) : Prop :=
  runs m
    (fun _ evs => exists a, evs = [(CSendto fd d dest, a)] /\ a_ret a = Z.of_nat (length d))
    (fun h evs => h = Blocked /\ evs = [] \/
       h = Exited 1 /\ exists a rep, evs = (CSendto fd d dest, a) :: rep /\
         a_ret a <> Z.of_nat (length d) /\ only is_report rep) w.

Section Write.
Context (e : endian) (linux : bool) (zerosum rawfd : Z) (local dest buf : list Z) (userlen : Z).
Context (Hlocal : length local = 16%nat) (Hdest : length dest = 16%nat).
Context (Blocal : bytes local) (Bdest : bytes dest) (Bbuf : bytes buf).
Context (Hlen : 0 <= userlen <= 65507) (Hbuf : 28 + userlen <= Z.of_nat (length buf)).

Lemma udp_fill_sends :
  exists buf', udp_fill e linux zerosum local dest buf userlen = Some buf' /\
    wrote e linux zerosum local dest (take (Z.to_nat userlen) (drop 28 buf))
      (take (Z.to_nat (28 + userlen)) buf').
Proof.
  set (user := take (Z.to_nat userlen) (drop 28 buf)).
  assert (Z.of_nat (length user) = userlen) as Hu
    by (unfold user; rewrite length_take, length_drop; lia).
  assert (bytes user) as Bu by by apply Forall_take, Forall_drop.
  pose proof (length_addr _ Hlocal) as La. pose proof (length_addr _ Hdest) as Lb.
  pose proof (length_port _ Hlocal) as Lp. pose proof (length_port _ Hdest) as Lq.
  pose proof (bytes_addr _ Blocal) as Ba. pose proof (bytes_addr _ Bdest) as Bb.
  pose proof (bytes_port _ Blocal) as Bp. pose proof (bytes_port _ Bdest) as Bq.
  rewrite udp_fill_eq by done. cbv zeta.
  set (iplen := if linux then be16 (28 + userlen) else store16 e (28 + userlen)).
  assert (length iplen = 2%nat) as Lip
    by (unfold iplen; destruct linux; [done|by destruct (store_explicit e (28 + userlen)) as (? & ? & ->)]).
  assert (bytes iplen) as Bip
    by (unfold iplen; destruct linux; [apply bytes_be16|apply bytes_store]; unfold word; lia).
  set (head ck := [0x45; 0] ++ iplen ++ _).
  assert (forall ck, length ck = 2%nat -> take (Z.to_nat (28 + userlen)) (head ck)
     = datagram iplen ck (sin_addr local) (sin_addr dest) (sin_port local) (sin_port dest) user) as Htake.
  { intros ck Hck. unfold head, datagram. rewrite Hu.
    destruct (list_2 _ Hck) as (? & ? & ->). destruct (list_2 _ Lip) as (? & ? & ->).
    destruct (list_4 _ La) as (? & ? & ? & ? & ->). destruct (list_4 _ Lb) as (? & ? & ? & ? & ->).
    destruct (list_2 _ Lp) as (? & ? & ->). destruct (list_2 _ Lq) as (? & ? & ->).
    replace (Z.to_nat (28 + userlen)) with (28 + Z.to_nat userlen)%nat by lia. reflexivity. }
  assert (forall ck, length ck = 2%nat -> bytes ck ->
    (zerosum <> 0 -> ck = [0; 0]) ->
    (zerosum = 0 -> ck <> [0; 0] /\ forall e', in_cksum e'
       (pseudo (datagram iplen ck (sin_addr local) (sin_addr dest) (sin_port local) (sin_port dest) user))
       (20 + userlen) = Some 0) ->
    wrote e linux zerosum local dest user (take (Z.to_nat (28 + userlen)) (head ck))) as Hwrote.
  { intros ck Lck Bck Hz Hnz. rewrite Htake by done. exists iplen, ck.
    assert (bytes (datagram iplen ck (sin_addr local) (sin_addr dest) (sin_port local) (sin_port dest) user))
      as Bd by (apply bytes_datagram; done || lia).
    split; [done|]. do 3 (split; [done|]). rewrite Hu.
    split; [intros ->; done|]. do 2 (split; [done|]). intros ek er.
    destruct (ip_output_valid ek er _ _ _ _ _ _ _ _ eq_refl Bd) as (v & Hv & Hval); [done..|].
    eexists. by split. }
  destruct (zerosum =? 0) eqn:Ez; zbool.
  - rewrite unsummed_prefix by (done || lia || (rewrite length_drop; lia) || by apply Forall_drop).
    fold user. cbn [mbind option_bind]. eexists. split; [reflexivity|].
    set (sum := 65535 - norm _).
    assert (forall e', let v := if sum =? 0 then 0xffff else sum in
      word v /\ v <> 0 /\ in_cksum e' (pseudo (datagram iplen (store16 e v) (sin_addr local)
        (sin_addr dest) (sin_port local) (sin_port dest) user)) (20 + userlen) = Some 0) as Hpv.
    { intros e' v. rewrite <- Hu.
      apply (pseudo_verifies iplen (sin_addr local) (sin_addr dest) (sin_port local)
        (sin_port dest) user La Lb Lp Lq Lip Bu Ba Bb Bp Bq Bip ltac:(lia) e e' sum).
      rewrite in_cksum_whole; [|by apply unsummed_bytes; done || lia|rewrite length_unsummed by done; lia|lia].
      unfold sum. by rewrite Hu. }
    destruct (Hpv e) as (Hw & Hnz & _). apply Hwrote.
    + by destruct (store_explicit e (if sum =? 0 then 65535 else sum)) as (? & ? & ->).
    + by apply bytes_store.
    + done.
    + intros _. split; [|intros e'; apply (Hpv e')].
      intros E0. destruct (load_store e _ Hw) as (c0 & c1 & Es & _ & _ & Hld).
      rewrite Es in E0. injection E0 as -> ->. apply Hnz. rewrite <- Hld. by destruct e.
  - eexists. split; [reflexivity|]. by apply Hwrote; [|by_eval| |].
Qed.
End Write.

(** ** udp_check *)

Lemma header_length b0 : 0 <= Z.shiftl (Z.land b0 15) 2 <= 60.
Proof.
  change 15 with (Z.ones 4). rewrite Z.land_ones, Z.shiftl_mul_pow2 by lia.
  pose proof (Z.mod_pos_bound b0 (2 ^ 4) ltac:(lia)). lia.
Qed.

Definition refused (h : halt) (evs : list event) : Prop := h = Exited 1 /\ only is_report evs.

Lemma runs_refused {A} text (Q : A -> list event -> Prop) w : runs (err_quit text) Q refused w.
Proof. apply runs_err_quit. intros. by split. Qed.

Lemma udp_check_spec e pkt w :
  bytes pkt -> Z.of_nat (length pkt) < 2 ^ 31 ->
  (valid_udp e pkt /\
     udp_check e pkt (Z.of_nat (length pkt)) w = (Ret (take 10 pkt ++ [0; 0] ++ drop 12 pkt), w)) \/
  (~ valid_udp e pkt /\
     runs (udp_check e pkt (Z.of_nat (length pkt))) (fun _ _ => False) refused w).
Proof.
  intros Hb Hlen. set (len := Z.of_nat (length pkt)) in *.
  unfold udp_check. rewrite (u64_small len) by lia.
  destruct (len <? 28) eqn:E28; zbool.
  { right. split; [|apply runs_refused]. intros [H _]. fold len in H. lia. }
  destruct pkt as [|b0 pkt']; [simpl in len; lia|]. set (pkt := b0 :: pkt') in *.
  change (pkt !! 0%nat) with (Some b0). cbn [or_undef].
  change (mret b0 ≫= ?f) with (f b0). cbn beta.
  pose proof (header_length b0) as Hh. set (hlen := Z.shiftl (Z.land b0 15) 2) in *.
  destruct (Z.shiftr b0 4 =? IPVERSION) eqn:Ev; cbn [negb]; zbool.
  2: { right. split; [|apply runs_refused]. intros (_ & b & [= <-] & H & _). done. }
  destruct (hlen <? 20) eqn:Eh; zbool.
  { right. split; [|apply runs_refused]. intros (_ & b & [= <-] & _ & H & _). fold hlen in H. lia. }
  destruct (len <? hlen + 8) eqn:El; zbool.
  { right. split; [|apply runs_refused]. intros (_ & b & [= <-] & _ & _ & H & _).
    fold hlen len in H. lia. }
  rewrite (in_cksum_value e pkt hlen) by (done || lia).
  set (sum := 65535 - _). cbn [or_undef]. change (mret sum ≫= ?f) with (f sum). cbn beta.
  destruct (store_explicit e sum) as (s0 & s1 & Es).
  assert (28 <= length pkt)%nat as H28 by lia. rewrite Es, poke_ok by (cbn [length]; lia).
  cbn [or_undef]. change (mret ?x ≫= ?f) with (f x). cbn beta.
  change (10 + length [s0; s1])%nat with 12%nat.
  destruct (sum =? 0) eqn:Esum; cbn [negb]; zbool.
  2: { right. split; [|apply runs_refused]. intros (_ & b & [= <-] & _ & _ & _ & H & _).
       fold hlen in H. rewrite in_cksum_value in H by (done || lia). fold sum in H. congruence. }
  rewrite Esum, store_zero in Es. injection Es as <- <-.
  rewrite lookup_app_l by (rewrite length_take; lia). rewrite lookup_take_lt by lia.
  destruct (lookup_lt_is_Some_2 pkt 9) as [p Hp]; [lia|]. rewrite Hp. cbn [or_undef].
  change (mret p ≫= ?f) with (f p). cbn beta.
  destruct (p =? IPPROTO_UDP) eqn:Ep; zbool.
  - left. split; [|done]. split; [done|]. exists b0. subst p. fold hlen. 
    rewrite in_cksum_value by (done || lia). fold sum. rewrite Esum. done.
  - right. split; [|apply runs_refused]. intros (_ & b & [= <-] & _ & _ & _ & _ & H).
    rewrite Hp in H. congruence.
Qed.

(** The length of the link header, and whether it announces an IP packet. *)
Definition link_header (dl : datalink) : option nat :=
  match dl with
  | DLT_NULL => Some 4%nat
  | DLT_EN10MB => Some 14%nat
  | DLT_SLIP | DLT_PPP => Some 24%nat
  | DLT_OTHER _ => None
  end.
Definition carries_ip (dl : datalink) (frame : list Z) : Prop :=
  dl = DLT_EN10MB -> take 2 (drop 12 frame) = [0x08; 0x00].

Lemma udp_check_negative e n w : - 2 ^ 31 <= n < 0 -> udp_check e [] n w = (Halt Undefined, w).
Proof.
  intros Hn. unfold udp_check.
  replace (u64 n) with (n + 2 ^ 64) by (apply (Z.mod_unique_pos _ _ (-1)); lia).
  rewrite (proj2 (Z.ltb_ge _ _)) by lia. done.
Qed.



(** ** udp_write and the DNS query *)

Lemma udp_write_sends e linux zerosum rawfd local dest buf userlen :
  length local = 16%nat -> length dest = 16%nat -> bytes local -> bytes dest -> bytes buf ->
  0 <= userlen <= 65507 -> 28 + userlen <= Z.of_nat (length buf) ->
  exists d, wrote e linux zerosum local dest (take (Z.to_nat userlen) (drop 28 buf)) d /\
    forall w, sends_one rawfd d dest (udp_write e linux zerosum rawfd local dest buf userlen) w.
Proof.
  intros Hl Hd Bl Bd Bb Hn Hlen.
  destruct (udp_fill_sends e linux zerosum local dest buf userlen) as (buf' & Hf & Hw); [done..|].
  eexists. split; [exact Hw|]. intros w. unfold sends_one, udp_write.
  eapply runs_or_undef; [exact Hf|]. rewrite s32_small by lia. rewrite (Z.add_comm userlen 28).
  eapply runs_wraps; [apply Sendto_wraps| | |].
  - by left.
  - intros a rep Hbad Hrep. right. split; [done|]. eauto 10.
  - intros a w' Hgood. apply runs_ret. eauto.
Qed.

(** [udp_write] sends exactly one datagram on the raw socket (or reports
    the failure and exits with status 1).  The datagram has the user's bytes
    behind an IP header and a UDP header with the lengths and addresses of
    the two sockets; with checksums on, its checksum field is not 0 and the
    one's complement sum over the pseudo-header and the UDP datagram verifies
    on machines of either byte order; and once the sending kernel has stored
    the IP header checksum, [udp_check] accepts the packet. *)
Lemma udp_write_one e linux zerosum rawfd local dest buf userlen w
    (Hl : length local = 16%nat) (Hd : length dest = 16%nat)
    (Bl : bytes local) (Bd : bytes dest) (Bb : bytes buf)
    (Hn : 0 <= userlen <= 65507) (Hlen : 28 + userlen <= Z.of_nat (length buf)) :
  exists d, length d = Z.to_nat (28 + userlen) /\
    wrote e linux zerosum local dest (take (Z.to_nat userlen) (drop 28 buf)) d /\
    sends_one rawfd d dest (udp_write e linux zerosum rawfd local dest buf userlen) w.
Proof.
  destruct (udp_write_sends e linux zerosum rawfd local dest buf userlen)
    as (d & Hw & Hs); [done..|].
  exists d. split; [|by split]. destruct Hw as (iplen & ck & -> & ? & ? & _).
  rewrite length_datagram; [|by (apply length_addr || apply length_port || done)..].
  rewrite length_take, length_drop. lia.
Qed.

Definition example_addr : list Z := [2; 0; 0; 53; 10; 0; 0; 1; 0; 0; 0; 0; 0; 0; 0; 0].

(** The DNS message: identification 1234, recursion desired, one question,
    the name as labels, type A and class IN. *)
Definition dns_query : list Z :=
  be16 1234 ++ be16 0x0100 ++ be16 1 ++ be16 0 ++ be16 0 ++ be16 0 ++ dns_names ++ be16 1 ++ be16 1.

(** The labels of a name in a DNS message. *)
Fixpoint labels (fuel : nat) (l : list Z) : option (list (list Z)) :=
  match fuel, l with
  | S f, 0 :: _ => Some []
  | S f, n :: l' =>
      if (Z.to_nat n <=? length l')%nat then cons (take (Z.to_nat n) l') <$> labels f (drop (Z.to_nat n) l')
      else None
  | _, _ => None
  end.

Lemma dns_fill_eq e mem :
  length mem = 128%nat -> dns_fill e mem = Some (take 28 mem ++ dns_query ++ drop 64 mem).
Proof.
  intros Hm.
  assert (exists a b, mem = a ++ b /\ length a = 28%nat /\ length b = 100%nat) as (a & b & -> & La & Lb).
  { exists (take 28 mem), (drop 28 mem). rewrite take_drop, length_take, length_drop.
    split; [done|lia]. }
  assert (forall off bs x, (28 <= off)%nat -> (off + length bs <= 28 + length x)%nat ->
    poke off bs (a ++ x) = Some (a ++ take (off - 28) x ++ bs ++ drop (off - 28 + length bs) x)) as Hp.
  { intros off bs x H1 H2. rewrite poke_ok by (rewrite length_app; lia).
    rewrite take_app_ge, drop_app_ge, La by lia. rewrite <- app_assoc.
    replace (off + length bs - 28)%nat with (off - 28 + length bs)%nat by lia. done. }
  unfold dns_fill. rewrite !store_hton, !store_zero by (unfold word; lia).
  rewrite take_app_length' by done. rewrite drop_app_ge by lia. rewrite La.
  do 36 (destruct b as [|? b]; [done|]).
  do 8 (rewrite Hp by (simpl; lia); cbn [mbind option_bind]; simpl take; simpl drop; cbn [app]).
  rewrite Hp by (simpl; lia). reflexivity.
Qed.

(** The query is one datagram, sent and then, if asked for, announced; and the
    raw socket has IP_HDRINCL set. *)
Definition dns_query_sent e linux zerosum rawfd family local dest mem verbose w : Prop :=
  (exists d,
    wrote e linux zerosum local dest dns_query d /\
    labels 10 (drop 12 dns_query) = Some [chars "a"; chars "root-servers"; chars "net"] /\
    runs (send_dns_query e linux zerosum rawfd local dest mem verbose)
      (fun _ evs => exists a0 a out, evs = (libc "malloc" [128] [], a0) :: (CSendto rawfd d dest, a) :: out /\
         a_ret a = Z.of_nat (length d) /\ only (fun c => is_output c = true) out)
      (fun h evs => (h = Blocked \/ h = Exited 1) /\
         only (fun c => c = libc "malloc" [128] [] \/ c = CSendto rawfd d dest \/ is_report c) evs) w) /\
  runs (open_output family)
    (fun fd evs => exists a0 a, a_ret a0 = fd /\ 0 <= fd /\ 0 <= a_ret a /\
       evs = [(CSocket family SOCK_RAW 0, a0); (CSetsockopt fd IPPROTO_IP IP_HDRINCL [1; 0; 0; 0], a)])
    (fun h _ => h = Blocked \/ h = Exited 1) w.

Lemma send_dns_query_one e linux zerosum rawfd family local dest mem verbose w
    (Hl : length local = 16%nat) (Hd : length dest = 16%nat)
    (Bl : bytes local) (Bd : bytes dest) (Bm : bytes mem) (Hm : length mem = 128%nat) :
  dns_query_sent e linux zerosum rawfd family local dest mem verbose w.
Proof.
  split.
  - set (buf := take 28 mem ++ dns_query ++ drop 64 mem).
    assert (bytes buf) as Bbuf.
    { apply Forall_app_2; [by apply Forall_take|]. apply Forall_app_2; [by_eval|by apply Forall_drop]. }
    assert (take (Z.to_nat 36) (drop 28 buf) = dns_query) as Hq.
    { unfold buf. rewrite drop_app_length' by (rewrite length_take; lia). done. }
    destruct (udp_write_sends e linux zerosum rawfd local dest buf 36) as (d & Hw & Hs);
      [done..|lia|unfold buf; rewrite !length_app, length_take, length_drop; simpl; lia|].
    rewrite Hq in Hw. exists d. split; [exact Hw|]. split; [done|].
    set (P := fun c => c = libc "malloc" [128] [] \/ c = CSendto rawfd d dest \/ is_report c).
    assert (forall rep, only is_report rep -> only P rep) as Hrep.
    { intros rep. apply only_mono. intros c ?. unfold P. auto. }
    unfold send_dns_query. eapply runs_wraps; [apply Malloc_wraps| | |].
    + split; [by left|constructor].
    + intros a rep _ ?. split; [by right|]. constructor; [unfold P; auto|by apply Hrep].
    + intros a0 w1 _. eapply runs_or_undef; [by apply dns_fill_eq|]. fold buf.
      apply runs_bind. eapply runs_mono; [apply Hs| |].
      * intros buf' evs (a & -> & Ha) w2. destruct verbose.
        -- apply runs_out; [done|]. intros w3. apply runs_ret. do 3 eexists. split; [reflexivity|]. split; [exact Ha|].
           by repeat constructor.
        -- apply runs_ret. do 3 eexists. split; [reflexivity|]. split; [exact Ha|constructor].
      * intros h evs [[-> ->]|(-> & a & rep & -> & _ & ?)]; (split; [auto|]).
        -- constructor; [unfold P; auto|constructor].
        -- constructor; [unfold P; auto|]. constructor; [unfold P; auto|by apply Hrep].
  - unfold open_output. eapply runs_wraps; [apply Socket_wraps|by left|by right|].
    intros a0 w' Ha0. eapply runs_wraps; [apply Setsockopt_wraps|by left|by right|].
    intros a w2 Ha. apply runs_ret. do 2 eexists. split; [reflexivity|]. split; [done|]. by split.
Qed.

(** C17: [udp_write] sends exactly one datagram on the raw socket (or reports
    the failure and exits with status 1).  The datagram has the user's bytes
    behind an IP header and a UDP header with the lengths and addresses of
    the two sockets; with checksums on, its checksum field is not 0 and the
    one's complement sum over the pseudo-header and the UDP datagram verifies
    on machines of either byte order; and once the sending kernel has stored
    the IP header checksum, [udp_check] accepts the packet.  [open_output]
    opens a raw socket with IP_HDRINCL set, and [send_dns_query] sends one
    such datagram whose user data is the DNS query for the address of
    a.root-servers.net, the same bytes on machines of either byte order and
    whatever malloc's memory held before; a failing call is reported and ends
    the program with status 1, with nothing else sent. *)
Theorem udp_output_correct e linux zerosum rawfd family local dest buf mem verbose userlen w
    (Hl : length local = 16%nat) (Hd : length dest = 16%nat)
    (Bl : bytes local) (Bd : bytes dest) (Bb : bytes buf) (Bm : bytes mem) (Hm : length mem = 128%nat)
    (Hn : 0 <= userlen <= 65507) (Hlen : 28 + userlen <= Z.of_nat (length buf)) :
  (exists d, length d = Z.to_nat (28 + userlen) /\
    wrote e linux zerosum local dest (take (Z.to_nat userlen) (drop 28 buf)) d /\
    sends_one rawfd d dest (udp_write e linux zerosum rawfd local dest buf userlen) w) /\
  dns_query_sent e linux zerosum rawfd family local dest mem verbose w.
Proof. split; [by apply udp_write_one|by apply send_dns_query_one]. Qed.

Lemma udp_output_correct_witness :
  (exists d, length d = 31%nat /\
    wrote Little true 0 example_addr example_addr [7; 8; 9] d /\
    sends_one 3 d example_addr
      (udp_write Little true 0 3 example_addr example_addr (replicate 28 1 ++ [7; 8; 9]) 3) (world0 [])) /\
  exists d, wrote Little true 0 example_addr example_addr dns_query d /\
    labels 10 (drop 12 dns_query) = Some [chars "a"; chars "root-servers"; chars "net"].
Proof.
  destruct (udp_output_correct Little true 0 3 2 example_addr example_addr (replicate 28 1 ++ [7; 8; 9])
    (replicate 128 0) true 3 (world0 []) eq_refl eq_refl ltac:(by_eval) ltac:(by_eval) ltac:(by_eval) ltac:(by_eval)
    eq_refl ltac:(lia) ltac:(simpl; lia)) as [H1 [(d & H2 & H3 & _) _]].
  split; [exact H1|]. by exists d.
Defined.
