(* ===== verification/SockAddr.v ===== *)
(** * Protocol-independent socket addresses

    lib/sock_ntop.c, lib/sock_ntop_host.c, lib/sock_cmp_addr.c,
    lib/sock_cmp_port.c, lib/sock_get_port.c, lib/sock_set_addr.c,
    lib/sock_set_port.c, lib/sock_set_wild.c, lib/sockfd_to_family.c and
    lib/family_to_level.c, in the Linux configuration (IPV6 and AF_UNIX
    defined, HAVE_SOCKADDR_DL_STRUCT not). *)

From S2P Require Import Prelude Unix ErrorLib Wrap InetPton InetNtop InetRound Cksum.

Implicit Types (e : endian).

(** ** A [struct sockaddr] of some family: ports and addresses are the bytes
    in memory, in network byte order; [sun_path] is the whole array. *)

Inductive sockaddr :=
| SaIn (port addr : list Z)
| SaIn6 (port flowinfo addr scope : list Z)
| SaUn (path : list Z)
| SaOther (family : Z).

#[export] Instance sockaddr_eq_dec : EqDecision sockaddr.
Proof. solve_decision. Defined.

Definition AF_UNIX : Z := 1.
Definition sa_family (sa : sockaddr) : Z :=
  match sa with
  | SaIn _ _ => AF_INET
  | SaIn6 _ _ _ _ => AF_INET6
  | SaUn _ => AF_UNIX
  | SaOther f => f
  end.

Definition ntohs (port : list Z) : Z := 256 * byte_at port 0 + byte_at port 1.

(** What a function that formats an address gives: the text of its static
    buffer, NULL with [errno], or an access outside of an object. *)
Inductive sock_res :=
| SrText (s : list Z)
| SrNull (err : Z)
| SrFault.

Definition str_size : Z := 128.

(** [snprintf(buf, n, ...)] keeps at most [n - 1] characters. *)
Definition snprintf (n : Z) (text : list Z) : list Z := take (Z.to_nat (n - 1)) text.

(** [strcat] into the static buffer. *)
Definition strcat (s t : list Z) : sock_res :=
  if Z.of_nat (length s + length t) <? str_size then SrText (s ++ t) else SrFault.

(** "%s" of a path array: reading stops at the first NUL. *)
Definition path_text (path : list Z) : sock_res :=
  if bool_decide (0 ∈ path) then SrText (snprintf str_size (c_string path)) else SrFault.

Definition sock_ntop (sa : sockaddr) (salen : Z) : sock_res :=
  match sa with
  | SaIn port addr =>
      match inet_ntop AF_INET addr str_size with
      | NtNull err => SrNull err
      | NtOk str =>
          if negb (ntohs port =? 0)
          then strcat str (snprintf 8 (chars ":" ++ fmt_d (ntohs port)))
          else SrText str
      end
  | SaIn6 port _ addr _ =>
      match inet_ntop AF_INET6 addr (str_size - 1) with
      | NtNull err => SrNull err
      | NtOk str =>
          if negb (ntohs port =? 0)
          then strcat (chars "[" ++ str) (snprintf 8 (chars "]:" ++ fmt_d (ntohs port)))
          else SrText str
      end
  | SaUn path =>
      if byte_at path 0 =? 0 then SrText (chars "(no pathname bound)") else path_text path
  | SaOther family =>
      SrText (snprintf str_size (chars "sock_ntop: unknown AF_xxx: " ++ fmt_d family ++
                                 chars ", len " ++ fmt_d salen))
  end.

Definition sock_ntop_host (sa : sockaddr) (salen : Z) : sock_res :=
  match sa with
  | SaIn _ addr =>
      match inet_ntop AF_INET addr str_size with
      | NtNull err => SrNull err
      | NtOk str => SrText str
      end
  | SaIn6 _ _ addr _ =>
      match inet_ntop AF_INET6 addr str_size with
      | NtNull err => SrNull err
      | NtOk str => SrText str
      end
  | SaUn path =>
      if byte_at path 0 =? 0 then SrText (chars "(no pathname bound)") else path_text path
  | SaOther family =>
      SrText (snprintf str_size (chars "sock_ntop_host: unknown AF_xxx: " ++ fmt_d family ++
                                 chars ", len " ++ fmt_d salen))
  end.

(** The wrappers with an initial capital. *)
Definition wrap_text (r : sock_res) (text : list Z) : M (list Z) :=
  match r with
  | SrText s => mret s
  | SrNull err => set_errno err ;; err_sys text
  | SrFault => undefined
  end.
Definition Sock_ntop (sa : sockaddr) (salen : Z) : M (list Z) :=
  wrap_text (sock_ntop sa salen) (chars "sock_ntop error").
Definition Sock_ntop_host (sa : sockaddr) (salen : Z) : M (list Z) :=
  wrap_text (sock_ntop_host sa salen) (chars "sock_ntop_host error").

(** [memcmp] and [strcmp]: the sign of the first difference. *)
Fixpoint memcmp (a b : list Z) : Z :=
  match a, b with
  | x :: a', y :: b' => if x <? y then -1 else if y <? x then 1 else memcmp a' b'
  | [], [] => 0
  | [], _ => -1
  | _, [] => 1
  end.
Definition strcmp (a b : list Z) : Z := memcmp (c_string a) (c_string b).

Definition sock_cmp_addr (sa1 sa2 : sockaddr) : Z :=
  match sa1, sa2 with
  | SaIn _ a1, SaIn _ a2 => memcmp a1 a2
  | SaIn6 _ _ a1 _, SaIn6 _ _ a2 _ => memcmp a1 a2
  | SaUn p1, SaUn p2 => strcmp p1 p2
  | _, _ => -1
  end.

Definition sock_cmp_port (sa1 sa2 : sockaddr) : Z :=
  match sa1, sa2 with
  | SaIn p1 _, SaIn p2 _ | SaIn6 p1 _ _ _, SaIn6 p2 _ _ _ => if decide (p1 = p2) then 1 else 0
  | _, _ => -1
  end.

Definition sock_get_port e (sa : sockaddr) : Z :=
  match sa with
  | SaIn port _ | SaIn6 port _ _ _ => load16 e (byte_at port 0) (byte_at port 1)
  | _ => -1
  end.

(** [addr] is the memory behind the pointer; [None] when it is too short. *)
Definition sock_set_addr (sa : sockaddr) (addr : list Z) : option sockaddr :=
  match sa with
  | SaIn port _ => if decide (4 <= length addr)%nat then Some (SaIn port (take 4 addr)) else None
  | SaIn6 port flow _ scope =>
      if decide (16 <= length addr)%nat then Some (SaIn6 port flow (take 16 addr) scope) else None
  | _ => Some sa
  end.

Definition sock_set_port e (sa : sockaddr) (port : Z) : sockaddr :=
  match sa with
  | SaIn _ addr => SaIn (store16 e (u16 port)) addr
  | SaIn6 _ flow addr scope => SaIn6 (store16 e (u16 port)) flow addr scope
  | _ => sa
  end.

Definition sock_set_wild (sa : sockaddr) : option sockaddr :=
  match sa with
  | SaIn _ _ => sock_set_addr sa (replicate 4 0)
  | SaIn6 _ _ _ _ => sock_set_addr sa (replicate 16 0)
  | _ => Some sa
  end.

(** ** Families and levels *)

Definition IPPROTO_IP : Z := 0.
Definition IPPROTO_IPV6 : Z := 41.

(** [ss_family] of the address that [getsockname] has stored. *)
Definition ss_family e (a : answer) : Z :=
  load16 e (u8 (byte_at (a_data a) 0)) (u8 (byte_at (a_data a) 1)).

Definition sockfd_to_family e (sockfd : Z) : M Z :=
  a ← kernel (libc "getsockname" [sockfd] []);
  if a_ret a <? 0 then mret (-1) else mret (ss_family e a).

Definition Sockfd_to_family e (sockfd : Z) : M Z :=
  rc ← sockfd_to_family e sockfd;
  if rc <? 0 then err_sys (chars "sockfd_to_family error") else mret rc.

Definition family_to_level (family : Z) : Z :=
  if family =? AF_INET then IPPROTO_IP
  else if family =? AF_INET6 then IPPROTO_IPV6 else -1.

Definition Family_to_level (family : Z) : M Z :=
  let rc := family_to_level family in
  if rc <? 0 then err_sys (chars "family_to_level error") else mret rc.

(** ** Well-formed addresses *)

Definition wf_sa (sa : sockaddr) : Prop :=
  match sa with
  | SaIn port addr => length port = 2%nat /\ bytes port /\ length addr = 4%nat /\ bytes addr
  | SaIn6 port flow addr scope =>
      length port = 2%nat /\ bytes port /\ length addr = 16%nat /\ bytes addr
  | SaUn path => length path = 108%nat /\ bytes path
  | SaOther f => f <> AF_INET /\ f <> AF_INET6 /\ f <> AF_UNIX /\ 0 <= f < 65536
  end.

#[export] Instance wf_sa_dec sa : Decision (wf_sa sa).
Proof. destruct sa; unfold wf_sa; apply _. Defined.

Definition internet (sa : sockaddr) : Prop := sa_family sa = AF_INET \/ sa_family sa = AF_INET6.
#[export] Instance internet_dec sa : Decision (internet sa).
Proof. unfold internet. apply _. Defined.
Definition port_of (sa : sockaddr) : Z :=
  match sa with SaIn p _ | SaIn6 p _ _ _ => ntohs p | _ => 0 end.
Definition addr_of (sa : sockaddr) : list Z :=
  match sa with SaIn _ a | SaIn6 _ _ a _ => a | SaUn p => p | _ => [] end.

Example sock_ntop_ex6 :
  sock_ntop (SaIn6 [0; 80] [0;0;0;0] [0;0;0;0;0;0;0;0;0;0;0;0;0;0;0;1] [0;0;0;0]) 28
  = SrText (chars "[::1]:80").
Proof. by vm_compute. Qed.
Example sock_ntop_ex4 : sock_ntop (SaIn [0; 0] [127; 0; 0; 1]) 16 = SrText (chars "127.0.0.1").
Proof. by vm_compute. Qed.

(** ** Decimal printing is read back by [atoi] *)

Definition digits (g : list Z) : Prop := Forall (fun c => isdigit c = true) g.

Lemma digits_of_spec f n acc :
  (0 < f)%nat -> 0 <= n < 10 ^ Z.of_nat f ->
  exists g, digits_of f 10 n acc = g ++ acc /\ digits g /\ g <> [] /\
    (length g <= f)%nat /\ (n < 65536 -> (length g <= 5)%nat) /\
    forall rest z, atoi_digits (g ++ rest) z = atoi_digits rest (z * 10 ^ Z.of_nat (length g) + n).
Proof.
  enough (forall k, (0 < f)%nat -> 0 <= n < 10 ^ Z.of_nat f -> 
    exists g, digits_of f 10 n acc = g ++ acc /\ digits g /\ g <> [] /\
    (length g <= f)%nat /\ ((0 < k)%nat -> n < 10 ^ Z.of_nat k -> (length g <= k)%nat) /\
    forall rest z, atoi_digits (g ++ rest) z = atoi_digits rest (z * 10 ^ Z.of_nat (length g) + n)) as H.
  { intros Hf Hn. destruct (H 5%nat Hf Hn) as (g & ? & ? & ? & ? & Hk & ?).
    exists g. do 4 (split; [done|]). split; [|done]. intros ?. apply Hk; [lia|].
    change (10 ^ Z.of_nat 5) with 100000. lia. }
  revert n acc. induction f as [|f IH]; intros n acc k Hf Hn; [lia|].
  cbn [digits_of]. set (d := n mod 10).
  assert (0 <= d < 10) as Hd by (apply Z.mod_pos_bound; lia).
  pose proof (Z.div_mod n 10 ltac:(lia)) as Hdm. fold d in Hdm.
  assert (0 <= n / 10) by (apply Z.div_pos; lia).
  rewrite (proj2 (Z.ltb_lt d 10)) by lia.
  assert (isdigit (48 + d) = true) as Hdig.
  { unfold isdigit. apply andb_true_iff. rewrite !Z.leb_le. lia. }
  destruct (n / 10 =? 0) eqn:E; zbool.
  - exists [48 + d]. split; [done|]. split; [by repeat constructor|]. split; [done|].
    split; [simpl; lia|]. split; [simpl; lia|]. intros rest z. cbn [app atoi_digits length].
    rewrite Hdig. f_equal. lia.
  - assert (n / 10 < 10 ^ Z.of_nat f) as Hlt.
    { apply Z.div_lt_upper_bound; [lia|]. rewrite Nat2Z.inj_succ, Z.pow_succ_r in Hn by lia. lia. }
    assert (0 < f)%nat as Hf' by (destruct f; [simpl in Hlt; lia|lia]).
    destruct (IH (n / 10) ((48 + d) :: acc) (pred k) Hf' (conj H Hlt)) as (g & Hg & Dg & Ng & Lg & Kg & Ag).
    exists (g ++ [48 + d]). split; [by rewrite Hg, <- app_assoc|].
    split; [by apply Forall_app_2; [|repeat constructor]|].
    split; [by destruct g|]. rewrite length_app. cbn [length]. split; [lia|]. split.
    + intros Hk Hnk. destruct k as [|k]; [lia|]. cbn [pred] in Kg.
      destruct k as [|k]; [simpl in Hnk; lia|].
      assert (n / 10 < 10 ^ Z.of_nat (S k)).
      { apply Z.div_lt_upper_bound; [lia|]. rewrite Nat2Z.inj_succ, Z.pow_succ_r in Hnk by lia. lia. }
      specialize (Kg ltac:(lia) ltac:(done)). lia.
    + intros rest z. rewrite <- app_assoc, Ag. cbn [app atoi_digits]. rewrite Hdig. f_equal.
      rewrite Nat2Z.inj_add, Z.pow_add_r by lia. simpl (10 ^ Z.of_nat 1). lia.
Qed.

Lemma fmt_u_spec n :
  0 <= n < 65536 ->
  digits (fmt_u n) /\ (1 <= length (fmt_u n) <= 5)%nat /\ atoi (fmt_u n) = n.
Proof.
  intros Hn. destruct (digits_of_spec 20 n [] ltac:(lia)) as (g & Hg & Dg & Ng & _ & Lg & Ag).
  { change (10 ^ Z.of_nat 20) with 100000000000000000000. lia. }
  unfold fmt_u. rewrite Hg, app_nil_r. split; [done|]. specialize (Lg ltac:(lia)).
  specialize (Ag [] 0). rewrite app_nil_r in Ag. cbn [atoi_digits] in Ag.
  destruct g as [|c g]; [done|]. split; [cbn [length] in *; lia|].
  inversion_clear Dg as [|?? Hc _]. unfold isdigit in Hc. zbool.
  cbn [atoi]. unfold isspace.
  rewrite (proj2 (Z.eqb_neq c 32)), (proj2 (Z.leb_gt c 13)), andb_false_r by lia. cbn [orb].
  rewrite (proj2 (Z.eqb_neq c 45)), (proj2 (Z.eqb_neq c 43)) by lia.
  rewrite Ag. apply s32_small. lia.
Qed.

(** The last colon separates the port from the address. *)
Lemma split_unique {A} (x : A) l1 r1 l2 r2 :
  x ∉ l1 -> x ∉ l2 -> l1 ++ x :: r1 = l2 ++ x :: r2 -> l1 = l2 /\ r1 = r2.
Proof.
  revert l2. induction l1 as [|a l1 IH]; intros [|b l2] H1 H2 E; simplify_eq/=.
  - done.
  - rewrite not_elem_of_cons in H2. by destruct H2.
  - rewrite not_elem_of_cons in H1. by destruct H1.
  - rewrite not_elem_of_cons in H1, H2.
    destruct (IH l2) as [-> ->]; [apply H1|apply H2|done|]. done.
Qed.

Lemma digits_no_colon g : digits g -> 58 ∉ g.
Proof. intros Dg Hin. eapply Forall_forall in Dg; [|exact Hin]. done. Qed.

Lemma last_colon a p b q :
  digits p -> digits q -> a ++ 58 :: p = b ++ 58 :: q -> a = b /\ p = q.
Proof.
  intros Dp Dq E. apply (f_equal reverse) in E. rewrite !reverse_app, !reverse_cons in E.
  rewrite <- !app_assoc in E. cbn [app] in E.
  apply split_unique in E as [E1 E2].
  - split; by apply (inj reverse).
  - rewrite elem_of_reverse. by apply digits_no_colon.
  - rewrite elem_of_reverse. by apply digits_no_colon.
Qed.

(** ** The texts *)

Lemma ntohs_range port : length port = 2%nat -> bytes port -> 0 <= ntohs port < 65536.
Proof.
  intros Hl Hb. destruct port as [|a [|b [|]]]; try done.
  inversion_clear Hb as [|?? Ha Hb']. inversion_clear Hb' as [|?? Hb _].
  unfold ntohs, byte_at, byte in *. simpl. lia.
Qed.

Lemma ntop_internet sa size :
  wf_sa sa -> internet sa -> 46 <= size ->
  exists s, inet_ntop (sa_family sa) (addr_of sa) size = NtOk s /\
    inet_pton (sa_family sa) s = (1, Some (addr_of sa), None) /\ (length s <= 45)%nat.
Proof.
  intros Hwf Hi Hs.
  destruct sa as [port addr|port flow addr scope|path|f]; cbn [sa_family addr_of].
  - destruct Hwf as (_ & _ & Hl & Hb). exists (fmt_quad addr).
    pose proof (fmt_quad_length addr Hl Hb) as Hq. split; [|split; [|lia]].
    + unfold inet_ntop, inet_ntop4. cbn [Z.eqb Pos.eqb AF_INET].
      by replace (_ <? _) with false by lia.
    + do 4 (destruct addr as [|? addr]; [done|]). destruct addr; [|done].
      repeat match goal with H : bytes (_ :: _) |- _ => inversion_clear H end.
      repeat match goal with H : Forall byte (_ :: _) |- _ => inversion_clear H end.
      unfold inet_pton, inet_pton4. cbn [Z.eqb Pos.eqb AF_INET].
      rewrite pton4_from_ref by (done || by apply fmt_quad_cstr).
      by rewrite quad_ref_fmt.
  - destruct Hwf as (_ & _ & Hl & Hb). destruct (ntop6_ok addr size Hl Hb Hs) as (s & E & Ht).
    exists s. unfold inet_ntop, inet_pton. cbn [Z.eqb Pos.eqb AF_INET AF_INET6].
    split; [done|]. rewrite (pton6_text _ _ Hl Hb Ht). split; [done|].
    pose proof (text6_length addr s Hl Hb Ht). lia.
  - by destruct Hi.
  - destruct Hwf as (? & ? & _). by destruct Hi.
Qed.

(** The port as [sock_ntop] prints it. *)
Lemma port_text prefix n :
  0 <= n < 65536 -> (length prefix <= 2)%nat ->
  snprintf 8 (prefix ++ fmt_d n) = prefix ++ fmt_u n /\ (length (fmt_u n) <= 5)%nat.
Proof.
  intros Hn Hp. destruct (fmt_u_spec n Hn) as (_ & Hl & _). split; [|lia].
  unfold snprintf, fmt_d. replace (n <? 0) with false by lia.
  apply take_ge. rewrite length_app. simpl. lia.
Qed.

Lemma strcat_ok s t : (length s + length t < 128)%nat -> strcat s t = SrText (s ++ t).
Proof. intros. unfold strcat, str_size. by rewrite (proj2 (Z.ltb_lt _ _)) by lia. Qed.

Definition endpoint_text (sa : sockaddr) (s : list Z) : list Z :=
  if port_of sa =? 0 then s
  else (if sa_family sa =? AF_INET6 then chars "[" ++ s ++ chars "]" else s) ++
       58 :: fmt_u (port_of sa).

Lemma ntop6_text_unique addr size size' s s' :
  inet_ntop AF_INET6 addr size = NtOk s -> inet_ntop AF_INET6 addr size' = NtOk s' -> s = s'.
Proof.
  unfold inet_ntop. change (AF_INET6 =? AF_INET) with false. change (AF_INET6 =? AF_INET6) with true.
  cbv iota. unfold inet_ntop6. destruct (ntop6_text addr); [done|].
  intros H H'. destruct (size <? _); [done|]. destruct (size' <? _); [done|]. congruence.
Qed.

Lemma colon_text x : chars ":" ++ x = 58 :: x.
Proof. done. Qed.
Lemma bracket_text s x : (chars "[" ++ s) ++ chars "]:" ++ x = (chars "[" ++ s ++ chars "]") ++ 58 :: x.
Proof. by rewrite <- !app_assoc. Qed.

Lemma sock_ntop_v4 port addr salen s :
  0 <= ntohs port < 65536 -> inet_ntop AF_INET addr 128 = NtOk s -> (length s <= 45)%nat ->
  sock_ntop (SaIn port addr) salen = SrText (endpoint_text (SaIn port addr) s).
Proof.
  intros Hr E Hl. unfold sock_ntop, endpoint_text, str_size. rewrite E.
  cbn [port_of sa_family]. destruct (ntohs port =? 0); [done|]. cbn [negb].
  destruct (port_text (chars ":") (ntohs port) Hr ltac:(simpl; lia)) as [-> Hpl].
  rewrite colon_text. change (AF_INET =? AF_INET6) with false. cbv iota. apply strcat_ok. cbn [length]. lia.
Qed.

Lemma sock_ntop_v6 port flow addr scope salen s :
  0 <= ntohs port < 65536 -> inet_ntop AF_INET6 addr 127 = NtOk s -> (length s <= 45)%nat ->
  sock_ntop (SaIn6 port flow addr scope) salen
  = SrText (endpoint_text (SaIn6 port flow addr scope) s).
Proof.
  intros Hr E Hl. unfold sock_ntop, endpoint_text, str_size. change (128 - 1) with 127. rewrite E.
  cbn [port_of sa_family]. destruct (ntohs port =? 0); [done|]. cbn [negb].
  destruct (port_text (chars "]:") (ntohs port) Hr ltac:(simpl; lia)) as [-> Hpl].
  change (AF_INET6 =? AF_INET6) with true. cbv iota.
  rewrite <- bracket_text. apply strcat_ok. rewrite !length_app.
  change (length (chars "[")) with 1%nat. change (length (chars "]:")) with 2%nat. lia.
Qed.

Lemma sock_ntop_internet sa salen :
  wf_sa sa -> internet sa ->
  exists s, inet_pton (sa_family sa) s = (1, Some (addr_of sa), None) /\
    sock_ntop_host sa salen = SrText s /\ sock_ntop sa salen = SrText (endpoint_text sa s).
Proof.
  intros Hwf Hi.
  destruct (ntop_internet sa 128 Hwf Hi ltac:(lia)) as (s & E & Hp & Hl). exists s. split; [done|].
  destruct (ntop_internet sa 127 Hwf Hi ltac:(lia)) as (s' & E' & _ & Hl').
  destruct sa as [port addr|port flow addr scope|path|f]; cbn [sa_family addr_of] in *.
  - destruct Hwf as (Hp2 & Bp & _). split; [unfold sock_ntop_host, str_size; by rewrite E|].
    apply sock_ntop_v4; [by apply ntohs_range|done|done].
  - destruct Hwf as (Hp2 & Bp & _). split; [unfold sock_ntop_host, str_size; by rewrite E|].
    rewrite (ntop6_text_unique _ _ _ _ _ E E').
    apply sock_ntop_v6; [by apply ntohs_range|done|done].
  - by destruct Hi.
  - destruct Hwf as (? & ? & _). by destruct Hi.
Qed.

(** What no address text contains. *)
Lemma pton_head sa s t :
  sa_family sa = AF_INET6 -> inet_pton (sa_family sa) s = (1, Some (addr_of sa), None) ->
  s = 91 :: t -> False.
Proof. intros -> H ->. discriminate H. Qed.

Lemma quad_no_colon addr : length addr = 4%nat -> bytes addr -> 58 ∉ fmt_quad addr.
Proof.
  intros Hl Hb. do 4 (destruct addr as [|? addr]; [done|]). destruct addr; [|done].
  unfold bytes in Hb. repeat (apply Forall_cons in Hb as [? Hb]).
  unfold fmt_quad, byte_at. simpl nth. 
  repeat match goal with H : byte ?x |- _ => 
    apply fmt_u_byte in H as (_ & H & _) end.
  rewrite !elem_of_app, !list_elem_of_singleton.
  assert (forall g, Forall (fun c => is_digit c = true) g -> 58 ∈ g -> False) as Hg
    by (intros g Hg Hin; eapply Forall_forall in Hg; [|exact Hin]; done).
  intuition eauto; discriminate.
Qed.

Lemma endpoint_text_inj sa sa' s s' :
  wf_sa sa -> wf_sa sa' -> internet sa -> sa_family sa = sa_family sa' ->
  inet_pton (sa_family sa) s = (1, Some (addr_of sa), None) ->
  inet_pton (sa_family sa') s' = (1, Some (addr_of sa'), None) ->
  (sa_family sa = AF_INET -> (58 ∉ s) /\ (58 ∉ s')) ->
  endpoint_text sa s = endpoint_text sa' s' -> addr_of sa = addr_of sa' /\ port_of sa = port_of sa'.
Proof.
  intros Hwf Hwf' Hi Hf Hp Hp' Hc E.
  assert (forall x, wf_sa x -> internet x -> 0 <= port_of x < 65536) as Hrange.
  { intros [|port|?|?] Hx Hix; cbn [port_of]; [| |lia..]; apply ntohs_range; apply Hx. }
  assert (internet sa') as Hi' by (unfold internet in *; by rewrite <- Hf).
  pose proof (fmt_u_spec _ (Hrange _ Hwf Hi)) as (Dg & Lg & Ag).
  pose proof (fmt_u_spec _ (Hrange _ Hwf' Hi')) as (Dg' & Lg' & Ag').
  assert (s = s' -> addr_of sa = addr_of sa') as Hs.
  { intros ->. rewrite Hf in Hp. congruence. }
  unfold endpoint_text in E. rewrite <- Hf in E.
  destruct (port_of sa =? 0) eqn:E0, (port_of sa' =? 0) eqn:E0'; zbool.
  - split; [by apply Hs|congruence].
  - destruct (sa_family sa =? AF_INET6) eqn:E6; zbool.
    + destruct (pton_head sa s (s' ++ chars "]" ++ 58 :: fmt_u (port_of sa')) E6 Hp).
      rewrite E. by rewrite <- !app_assoc.
    + destruct Hi as [H4|]; [|done]. destruct (Hc H4) as [H _]. destruct H. rewrite E.
      rewrite elem_of_app. right. left.
  - destruct (sa_family sa =? AF_INET6) eqn:E6; zbool.
    + destruct (pton_head sa' s' (s ++ chars "]" ++ 58 :: fmt_u (port_of sa)) ltac:(congruence) Hp').
      rewrite <- E. by rewrite <- !app_assoc.
    + destruct Hi as [H4|]; [|done]. destruct (Hc H4) as [_ H]. destruct H. rewrite <- E.
      rewrite elem_of_app. right. left.
  - apply last_colon in E as [E Ep]; [|done..].
    split; [|congruence]. apply Hs.
    destruct (sa_family sa =? AF_INET6); [|done]. by simplify_list_eq.
Qed.

Lemma endpoint_text_length sa s :
  (length s <= 45)%nat -> 0 <= port_of sa < 65536 -> (length (endpoint_text sa s) <= 53)%nat.
Proof.
  intros Hl Hr. pose proof (fmt_u_spec _ Hr) as (_ & Lf & _). unfold endpoint_text.
  destruct (port_of sa =? 0); [lia|]. rewrite length_app. cbn [length].
  assert (length (if (sa_family sa =? AF_INET6)%Z then chars "[" ++ s ++ chars "]" else s) <= 47)%nat.
  { destruct (sa_family sa =? AF_INET6); [|lia]. rewrite !length_app.
    change (length (chars "[")) with 1%nat. change (length (chars "]")) with 1%nat. lia. }
  lia.
Qed.

Lemma path_text_spec path :
  length path = 108%nat ->
  (0 ∈ path -> path_text path = SrText (c_string path)) /\ (0 ∉ path -> path_text path = SrFault).
Proof.
  intros Hl. unfold path_text. split; intros H.
  - rewrite bool_decide_eq_true_2 by done. f_equal. apply take_ge.
    assert (forall l, (length (c_string l) <= length l)%nat) as Hle.
    { induction l as [|c l IH]; simpl; [lia|]. destruct (c =? 0); simpl; lia. }
    specialize (Hle path). unfold str_size. lia.
  - by rewrite bool_decide_eq_false_2.
Qed.

(** C19: For an IPv4 or IPv6 address [sock_ntop_host] gives the text that
    [inet_pton] reads back to the address, and [sock_ntop] adds the port, when
    it is not 0, as ":port" or in the form "[address]:port", in decimal that
    [atoi] reads back; so the text determines the endpoint within its family.
    A Unix domain address gives its pathname, or a fixed text when it has
    none; a pathname that fills [sun_path] without a NUL is read out of
    bounds; every other family gives a diagnostic.  The static buffer of 128
    bytes is never overrun. *)
Theorem sock_ntop_correct sa salen (Hwf : wf_sa sa) :
  (internet sa ->
    (exists s, inet_pton (sa_family sa) s = (1, Some (addr_of sa), None) /\
       sock_ntop_host sa salen = SrText s /\ sock_ntop sa salen = SrText (endpoint_text sa s) /\
       atoi (fmt_u (port_of sa)) = port_of sa) /\
    forall sa' salen', wf_sa sa' -> sa_family sa' = sa_family sa ->
      sock_ntop sa' salen' = sock_ntop sa salen ->
      addr_of sa' = addr_of sa /\ port_of sa' = port_of sa) /\
  (forall path, sa = SaUn path ->
    let r := if byte_at path 0 =? 0 then SrText (chars "(no pathname bound)")
             else if bool_decide (0 ∈ path) then SrText (c_string path) else SrFault in
    sock_ntop sa salen = r /\ sock_ntop_host sa salen = r) /\
  (forall s, sock_ntop sa salen = SrText s -> Z.of_nat (length s) < str_size).
Proof.
  assert (forall x n, wf_sa x -> internet x -> exists s,
    inet_pton (sa_family x) s = (1, Some (addr_of x), None) /\ sock_ntop_host x n = SrText s /\
    sock_ntop x n = SrText (endpoint_text x s) /\ (sa_family x = AF_INET -> 58 ∉ s) /\
    0 <= port_of x < 65536 /\ (length s <= 45)%nat) as Hint.
  { intros x n Hx Hix. destruct (sock_ntop_internet x n Hx Hix) as (s & H1 & H2 & H3).
    exists s. do 3 (split; [done|]).
    destruct (ntop_internet x 128 Hx Hix ltac:(lia)) as (s' & E & _ & Hl).
    assert (sock_ntop_host x n = SrText s') as H2'.
    { destruct x; cbn [sa_family addr_of sock_ntop_host] in *; unfold str_size; [by rewrite E..| |];
        [by destruct Hix|destruct Hx as (? & ? & _); by destruct Hix]. }
    assert (s' = s) as -> by congruence.
    split; [|split; [|done]].
    - intros H4. destruct x as [p a|p f a sc|pa|f]; cbn [sa_family addr_of] in *; try done.
      + destruct Hx as (_ & _ & Hla & Hb). unfold inet_ntop, inet_ntop4 in E.
        cbn [Z.eqb Pos.eqb AF_INET] in E. cbv zeta in E. case_match; [done|].
        injection E as <-. by apply quad_no_colon.
      + destruct Hx as (? & _). done.
    - destruct x; cbn [port_of]; [| |lia..]; apply ntohs_range; apply Hx. }
  split; [|split].
  - intros Hi. destruct (Hint sa salen Hwf Hi) as (s & H1 & H2 & H3 & H4 & H5 & _). split.
    + exists s. do 3 (split; [done|]). apply (fmt_u_spec _ H5).
    + intros sa' salen' Hwf' Hf E.
      destruct (Hint sa' salen' Hwf' ltac:(unfold internet in *; by rewrite Hf))
        as (s' & H1' & _ & H3' & H4' & _).
      apply (endpoint_text_inj sa' sa s' s); try done.
      * unfold internet in *. by rewrite Hf.
      * intros ?. split; [by apply H4'|apply H4; congruence].
      * rewrite H3, H3' in E. congruence.
  - intros path -> r. destruct Hwf as [Hl _]. destruct (path_text_spec path Hl) as [P1 P2].
    unfold r. cbn [sock_ntop sock_ntop_host]. destruct (byte_at path 0 =? 0); [done|].
    case_bool_decide; [rewrite P1 by done|rewrite P2 by done]; done.
  - intros s Hs. destruct sa as [port addr|port flow addr scope|path|f].
    1, 2: destruct (Hint _ salen Hwf ltac:(unfold internet; cbn; auto)) as (t & _ & _ & E & _ & Hr & Hl);
      rewrite E in Hs; injection Hs as <-;
      pose proof (endpoint_text_length _ t Hl Hr); unfold str_size; lia.
    + cbn [sock_ntop] in Hs. destruct (byte_at path 0 =? 0); [injection Hs as <-; by vm_compute|].
      unfold path_text in Hs. case_bool_decide; [|done]. injection Hs as <-.
      unfold snprintf, str_size. rewrite length_take. lia.
    + cbn [sock_ntop] in Hs. injection Hs as <-. unfold snprintf, str_size. rewrite length_take. lia.
Qed.

Lemma sock_ntop_correct_witness :
  exists s, inet_pton AF_INET s = (1, Some [10; 0; 0; 1], None) /\
    sock_ntop (SaIn [31; 144] [10; 0; 0; 1]) 16 = SrText (s ++ 58 :: fmt_u 8080).
Proof.
  destruct (sock_ntop_correct (SaIn [31; 144] [10; 0; 0; 1]) 16 ltac:(by_eval)) as [H _].
  destruct (H ltac:(by left)) as [(s & H1 & _ & H2 & _) _]. exists s. split; [exact H1|exact H2].
Defined.

(** ** Comparing and changing addresses *)

Lemma memcmp_zero a b : memcmp a b = 0 <-> a = b.
Proof.
  revert b. induction a as [|x a IH]; intros [|y b]; simpl; try done.
  destruct (x <? y) eqn:E1; zbool; [split; [done|intros [= -> ->]; lia]|].
  destruct (y <? x) eqn:E2; zbool; [split; [done|intros [= -> ->]; lia]|].
  rewrite IH. assert (x = y) as -> by lia. split; [by intros ->|by intros [= ->]].
Qed.

Lemma load_store16 e v : word v -> 
  load16 e (byte_at (store16 e v) 0) (byte_at (store16 e v) 1) = v.
Proof. intros Hv. by destruct (load_store e v Hv) as (b0 & b1 & -> & _ & _ & <-). Qed.

Lemma set_port_wf e sa p : wf_sa sa -> wf_sa (sock_set_port e sa p).
Proof.
  pose proof (u16_range p) as Hw.
  destruct (load_store e (u16 p) Hw) as (b0 & b1 & E & _). pose proof (bytes_store e (u16 p) Hw) as Hb.
  destruct sa; cbn [wf_sa sock_set_port]; [intros (_ & _ & H)..|done|done];
    (split; [by rewrite E|]); (split; [done|exact H]).
Qed.

(** The text that the capitalised wrappers return, or the report. *)
Lemma runs_wrap_text r text Q H w :
  (forall s, r = SrText s -> Q s []) ->
  (forall err rep, r = SrNull err -> only is_report rep -> H (Exited 1) rep) ->
  (r = SrFault -> H Undefined []) -> runs (wrap_text r text) Q H w.
Proof.
  intros H1 H2 H3. destruct r; cbn [wrap_text].
  - by apply runs_ret, H1.
  - apply runs_set_errno. intros w' _. apply runs_err_sys. eauto.
  - by apply runs_halted, H3.
Qed.

Lemma ntohs_inj p q :
  length p = 2%nat -> bytes p -> length q = 2%nat -> bytes q -> ntohs p = ntohs q <-> p = q.
Proof.
  intros Lp Bp Lq Bq. split; [|by intros ->].
  destruct p as [|a [|b [|]]]; try done. destruct q as [|c [|d [|]]]; try done.
  inversion_clear Bp as [|?? Ha Bp']. inversion_clear Bp' as [|?? Hb _].
  inversion_clear Bq as [|?? Hc Bq']. inversion_clear Bq' as [|?? Hd _].
  unfold ntohs, byte_at, byte in *. simpl. intros. f_equal; [lia|f_equal; lia].
Qed.

Lemma cmp_addr_spec sa sa' :
  wf_sa sa -> wf_sa sa' -> internet sa ->
  sock_cmp_addr sa sa' = 0 <-> sa_family sa = sa_family sa' /\ addr_of sa = addr_of sa'.
Proof.
  intros Hwf Hwf' Hi.
  destruct sa as [? a|? ? a ?|?|?]; [| |by destruct Hi|destruct Hwf as (? & ? & _); by destruct Hi];
    destruct sa' as [? a'|? ? a' ?|?|f']; cbn [sock_cmp_addr sa_family addr_of];
    rewrite ?memcmp_zero; try (split; [done|by intros [? ?]]); try tauto.
  all: destruct Hwf' as (? & ? & ?); split; [done|intros [? _]; congruence].
Qed.

Lemma cmp_port_spec sa sa' :
  wf_sa sa -> wf_sa sa' -> internet sa ->
  (sock_cmp_port sa sa' = 1 <-> sa_family sa = sa_family sa' /\ port_of sa = port_of sa') /\
  (sock_cmp_port sa sa' = -1 <-> sa_family sa <> sa_family sa').
Proof.
  intros Hwf Hwf' Hi.
  destruct sa as [q a|q ? a ?|?|?]; [| |by destruct Hi|destruct Hwf as (? & ? & _); by destruct Hi];
    destruct sa' as [q' a'|q' ? a' ?|?|f']; cbn [sock_cmp_port sa_family port_of];
    try (split; split; [done|by intros [? ?]|done|done]).
  1, 3: destruct Hwf as (? & ? & _), Hwf' as (? & ? & _); rewrite ntohs_inj by done;
    case_decide; intuition congruence.
  all: destruct Hwf' as (? & ? & ?); intuition congruence.
Qed.

Lemma set_addr_spec sa addr :
  wf_sa sa -> internet sa ->
  ((length (addr_of sa) <= length addr)%nat ->
    exists sa2, sock_set_addr sa addr = Some sa2 /\ sa_family sa2 = sa_family sa /\
      port_of sa2 = port_of sa /\ addr_of sa2 = take (length (addr_of sa)) addr /\
      (bytes addr -> wf_sa sa2)) /\
  ((length addr < length (addr_of sa))%nat -> sock_set_addr sa addr = None).
Proof.
  intros Hwf Hi.
  destruct sa as [q a|q fl a sc|?|?]; [| |by destruct Hi|destruct Hwf as (? & ? & _); by destruct Hi];
    destruct Hwf as (? & ? & Hl & ?); cbn [addr_of sock_set_addr sa_family]; rewrite Hl;
    (split; intros; [rewrite decide_True by lia|by rewrite decide_False by lia]);
    eexists; (split; [reflexivity|]); do 3 (split; [done|]); intros;
    (split; [done|]); (split; [done|]); (split; [rewrite length_take; lia|by apply Forall_take]).
Qed.

Lemma set_wild_spec sa :
  wf_sa sa -> internet sa ->
  exists sa2, sock_set_wild sa = Some sa2 /\ port_of sa2 = port_of sa /\
    Forall (eq 0) (addr_of sa2) /\ wf_sa sa2.
Proof.
  intros Hwf Hi.
  destruct sa as [q a|q fl a sc|?|?]; [| |by destruct Hi|destruct Hwf as (? & ? & _); by destruct Hi];
    cbn [sock_set_wild].
  1: destruct (proj1 (set_addr_spec _ (replicate 4 0) Hwf Hi)) as (sa2 & E & _ & Hp & Ha & Hw).
  3: destruct (proj1 (set_addr_spec _ (replicate 16 0) Hwf Hi)) as (sa2 & E & _ & Hp & Ha & Hw).
  1, 3: destruct Hwf as (_ & _ & Hl & _); cbn [addr_of]; rewrite Hl, length_replicate; lia.
  all: exists sa2; split; [done|]; split; [done|]; split; [|by apply Hw; by_eval];
    rewrite Ha; apply Forall_take; by apply Forall_replicate.
Qed.

Lemma set_port_spec e sa p :
  wf_sa sa -> internet sa ->
  sock_get_port e (sock_set_port e sa p) = u16 p /\ addr_of (sock_set_port e sa p) = addr_of sa /\
  (0 <= p < 65536 -> port_of (sock_set_port e sa (hton16 e p)) = p).
Proof.
  intros Hwf Hi.
  assert (0 <= p < 65536 -> ntohs (store16 e (u16 (hton16 e p))) = p) as Hn.
  { intros Hp. pose proof (Z.mod_pos_bound p 256 ltac:(lia)). pose proof (Z.div_mod p 256 ltac:(lia)).
    assert (0 <= p / 256 < 256)
      by (split; [apply Z.div_pos|apply Z.div_lt_upper_bound]; lia).
    rewrite u16_small by (destruct e; simpl; lia).
    rewrite store_hton by done. unfold ntohs, byte_at, be16. simpl. lia. }
  destruct sa as [q a|q fl a sc|?|?]; [| |by destruct Hi|destruct Hwf as (? & ? & _); by destruct Hi];
    cbn [sock_get_port sock_set_port addr_of port_of]; (split; [|by split]);
    apply load_store16, u16_range.
Qed.

(** C20: [sock_set_port] followed by [sock_get_port] gives the port back (with
    16 bits, in the byte order of the caller), [sock_set_addr] and
    [sock_set_wild] change the address and nothing else, and all of them
    leave a well-formed address; [sock_cmp_addr] is 0 exactly for equal
    addresses of one family, while [sock_cmp_port] is 1 exactly for equal
    ports; the capitalised [sock_ntop] functions never report an error for a
    well-formed address. *)
Theorem sock_accessors_correct e sa sa' p addr salen w (Hwf : wf_sa sa) (Hwf' : wf_sa sa') :
  (internet sa ->
     sock_get_port e (sock_set_port e sa p) = u16 p /\
     addr_of (sock_set_port e sa p) = addr_of sa /\
     (0 <= p < 65536 -> port_of (sock_set_port e sa (hton16 e p)) = p) /\
     (length (addr_of sa) <= length addr ->
        exists sa2, sock_set_addr sa addr = Some sa2 /\ sa_family sa2 = sa_family sa /\
          port_of sa2 = port_of sa /\ addr_of sa2 = take (length (addr_of sa)) addr /\
          (bytes addr -> wf_sa sa2))%nat /\
     (length addr < length (addr_of sa) -> sock_set_addr sa addr = None)%nat /\
     (exists sa2, sock_set_wild sa = Some sa2 /\ port_of sa2 = port_of sa /\
        Forall (eq 0) (addr_of sa2) /\ wf_sa sa2) /\
     (sock_cmp_addr sa sa' = 0 <-> sa_family sa = sa_family sa' /\ addr_of sa = addr_of sa') /\
     (sock_cmp_port sa sa' = 1 <-> sa_family sa = sa_family sa' /\ port_of sa = port_of sa') /\
     (sock_cmp_port sa sa' = -1 <-> sa_family sa <> sa_family sa')) /\
  wf_sa (sock_set_port e sa p) /\ sa_family (sock_set_port e sa p) = sa_family sa /\
  (~ internet sa -> sock_get_port e sa = -1 /\ sock_set_port e sa p = sa /\
     sock_set_addr sa addr = Some sa /\ sock_set_wild sa = Some sa /\ sock_cmp_port sa sa' = -1) /\
  runs (Sock_ntop sa salen)
    (fun s evs => evs = [] /\ sock_ntop sa salen = SrText s)
    (fun h evs => h = Undefined /\ evs = [] /\ sock_ntop sa salen = SrFault) w /\
  runs (Sock_ntop_host sa salen)
    (fun s evs => evs = [] /\ sock_ntop_host sa salen = SrText s)
    (fun h evs => h = Undefined /\ evs = [] /\ sock_ntop_host sa salen = SrFault) w.
Proof.
  split.
  { intros Hi. destruct (set_port_spec e sa p Hwf Hi) as (H1 & H2 & H3).
    destruct (set_addr_spec sa addr Hwf Hi) as [H4 H5].
    pose proof (cmp_port_spec sa sa' Hwf Hwf' Hi) as [H6 H7].
    pose proof (set_wild_spec sa Hwf Hi) as H8. pose proof (cmp_addr_spec sa sa' Hwf Hwf' Hi) as H9.
    do 8 (split; [assumption|]). assumption. }
  split; [by apply set_port_wf|]. split; [by destruct sa|]. split.
  { intros Hi. destruct sa; try done; [by destruct Hi; left|by destruct Hi; right]. }
  assert (forall n err, sock_ntop sa n <> SrNull err /\ sock_ntop_host sa n <> SrNull err) as Hnull.
  { intros n err. destruct (decide (internet sa)) as [Hi|Hi].
    - destruct (sock_ntop_internet sa n Hwf Hi) as (s & _ & -> & ->). done.
    - destruct sa as [? ?|? ? ? ?|path|f]; [by destruct Hi; left|by destruct Hi; right| |done].
      cbn [sock_ntop sock_ntop_host]. destruct (byte_at path 0 =? 0); [done|].
      unfold path_text. by case_bool_decide. }
  split; apply runs_wrap_text.
  - auto.
  - intros err rep E. by destruct (proj1 (Hnull salen err)).
  - auto.
  - auto.
  - intros err rep E. by destruct (proj2 (Hnull salen err)).
  - auto.
Qed.

Lemma sock_accessors_correct_witness :
  sock_get_port Little (sock_set_port Little (SaIn [0; 0] [10; 0; 0; 1]) 70000) = 4464 /\
  (sock_cmp_port (SaIn [0; 7] [10; 0; 0; 1]) (SaIn [0; 7] [10; 0; 0; 2]) = 1 <->
   AF_INET = AF_INET /\ 7 = 7).
Proof.
  destruct (sock_accessors_correct Little (SaIn [0; 0] [10; 0; 0; 1]) (SaIn [0; 0] [10; 0; 0; 1]) 70000 []
    16 (World [] [] 0 0 (fun _ => [])) ltac:(by_eval) ltac:(by_eval)) as [H _].
  destruct (sock_accessors_correct Little (SaIn [0; 7] [10; 0; 0; 1]) (SaIn [0; 7] [10; 0; 0; 2]) 0 []
    16 (World [] [] 0 0 (fun _ => [])) ltac:(by_eval) ltac:(by_eval)) as [H' _].
  split; [apply (proj1 (H ltac:(by left)))|].
  destruct (H' ltac:(by left)) as (_ & _ & _ & _ & _ & _ & _ & Hc & _). exact Hc.
Defined.
