(* ===== verification/SockOpt.v ===== *)
(** * Socket options, timeouts and connections

    lib/mcast_get_if.c, mcast_get_loop.c, mcast_get_ttl.c, mcast_set_if.c,
    mcast_set_loop.c, mcast_set_ttl.c (the options of multicast sockets by
    family), lib/sock_bind_wild.c, lib/readable_timeo.c, writable_timeo.c,
    connect_timeo.c and connect_nonb.c.  The functions report failures
    through [errno], so the file starts with rules for runs that also say
    what [errno] is at the end. *)

From S2P Require Import Prelude Unix ErrorLib Wrap InetPton InetNtop TcpEcho Cksum SockAddr.

Implicit Types (e : endian).

(** ** 32-bit values in memory *)

Definition load32 e (l : list Z) : Z :=
  match e with
  | Little => byte_at l 0 + 2 ^ 8 * byte_at l 1 + 2 ^ 16 * byte_at l 2 + 2 ^ 24 * byte_at l 3
  | Big => 2 ^ 24 * byte_at l 0 + 2 ^ 16 * byte_at l 1 + 2 ^ 8 * byte_at l 2 + byte_at l 3
  end.
Definition store32 e (v : Z) : list Z :=
  let l := [u8 v; u8 (v / 2 ^ 8); u8 (v / 2 ^ 16); u8 (v / 2 ^ 24)] in
  match e with Little => l | Big => reverse l end.

(** The bytes that a call has stored. *)
Definition stored_bytes (a : answer) : list Z := map u8 (a_data a).

(** ** lib/mcast_*.c *)

Definition IP_MULTICAST_IF : Z := 32.
Definition IP_MULTICAST_TTL : Z := 33.
Definition IP_MULTICAST_LOOP : Z := 34.
Definition IPV6_MULTICAST_IF : Z := 17.
Definition IPV6_MULTICAST_HOPS : Z := 18.
Definition IPV6_MULTICAST_LOOP : Z := 19.
Definition IFNAMSIZ : nat := 16.
Definition SIOCGIFADDR : Z := 0x8915.
Definition ENXIO : Z := 6.
Definition EINVAL : Z := 22.

(** [errno = err; return(-1);] *)
Definition fail_with (err : Z) : M Z := set_errno err ;; mret (-1).

(** The wrappers that report a negative result. *)
Definition or_err_sys (m : M Z) (text : list Z) : M Z :=
  rc ← m; if rc <? 0 then err_sys text else mret rc.

Definition mcast_get_if e (sockfd : Z) : M Z :=
  family ← sockfd_to_family e sockfd;
  if family =? AF_INET then mret (-1)
  else if family =? AF_INET6 then
    a ← kernel (CGetsockopt sockfd IPPROTO_IPV6 IPV6_MULTICAST_IF);
    if a_ret a <? 0 then mret (-1) else mret (s32 (load32 e (stored_bytes a)))
  else fail_with EAFNOSUPPORT.

Definition mcast_get_loop e (sockfd : Z) : M Z :=
  family ← sockfd_to_family e sockfd;
  if family =? AF_INET then
    a ← kernel (CGetsockopt sockfd IPPROTO_IP IP_MULTICAST_LOOP);
    if a_ret a <? 0 then mret (-1) else mret (byte_at (stored_bytes a) 0)
  else if family =? AF_INET6 then
    a ← kernel (CGetsockopt sockfd IPPROTO_IPV6 IPV6_MULTICAST_LOOP);
    if a_ret a <? 0 then mret (-1) else mret (s32 (load32 e (stored_bytes a)))
  else fail_with EAFNOSUPPORT.

Definition mcast_get_ttl e (sockfd : Z) : M Z :=
  family ← sockfd_to_family e sockfd;
  if family =? AF_INET then
    a ← kernel (CGetsockopt sockfd IPPROTO_IP IP_MULTICAST_TTL);
    if a_ret a <? 0 then mret (-1) else mret (byte_at (stored_bytes a) 0)
  else if family =? AF_INET6 then
    a ← kernel (CGetsockopt sockfd IPPROTO_IPV6 IPV6_MULTICAST_HOPS);
    if a_ret a <? 0 then mret (-1) else mret (s32 (load32 e (stored_bytes a)))
  else fail_with EAFNOSUPPORT.

Definition mcast_set_loop e (sockfd onoff : Z) : M Z :=
  family ← sockfd_to_family e sockfd;
  if family =? AF_INET then
    ret_of (CSetsockopt sockfd IPPROTO_IP IP_MULTICAST_LOOP [u8 onoff])
  else if family =? AF_INET6 then
    ret_of (CSetsockopt sockfd IPPROTO_IPV6 IPV6_MULTICAST_LOOP (store32 e onoff))
  else fail_with EAFNOSUPPORT.

Definition mcast_set_ttl e (sockfd val : Z) : M Z :=
  family ← sockfd_to_family e sockfd;
  if family =? AF_INET then
    ret_of (CSetsockopt sockfd IPPROTO_IP IP_MULTICAST_TTL [u8 val])
  else if family =? AF_INET6 then
    ret_of (CSetsockopt sockfd IPPROTO_IPV6 IPV6_MULTICAST_HOPS (store32 e val))
  else fail_with EAFNOSUPPORT.

(** The label [doioctl] of [mcast_set_if], with [ifr_name] filled. *)
Definition set_if_by_name (sockfd : Z) (ifr_name : list Z) : M Z :=
  a ← kernel (libc "ioctl" [sockfd; SIOCGIFADDR] ifr_name);
  if a_ret a <? 0 then mret (-1)
  else ret_of (CSetsockopt sockfd IPPROTO_IP IP_MULTICAST_IF (take 4 (drop 4 (stored_bytes a)))).

Definition mcast_set_if e (sockfd : Z) (ifname : option (list Z)) (ifindex : Z) : M Z :=
  family ← sockfd_to_family e sockfd;
  if family =? AF_INET then
    if 0 <? ifindex then
      a ← kernel (libc "if_indextoname" [ifindex] []);
      if a_ret a =? NULL then fail_with ENXIO
      else set_if_by_name sockfd (c_string (stored_bytes a))
    else match ifname with
         | Some name => set_if_by_name sockfd (take IFNAMSIZ (c_string name))
         | None => ret_of (CSetsockopt sockfd IPPROTO_IP IP_MULTICAST_IF [0; 0; 0; 0])
         end
  else if family =? AF_INET6 then
    if ifindex =? 0 then
      match ifname with
      | None => fail_with EINVAL
      | Some name =>
          idx ← ret_of (libc "if_nametoindex" [] name);
          if idx =? 0 then fail_with ENXIO
          else ret_of (CSetsockopt sockfd IPPROTO_IPV6 IPV6_MULTICAST_IF (store32 e idx))
      end
    else ret_of (CSetsockopt sockfd IPPROTO_IPV6 IPV6_MULTICAST_IF (store32 e ifindex))
  else fail_with EAFNOSUPPORT.

Definition Mcast_get_if e sockfd : M Z := or_err_sys (mcast_get_if e sockfd) (chars "mcast_get_if error").
Definition Mcast_get_loop e sockfd : M Z := or_err_sys (mcast_get_loop e sockfd) (chars "mcast_get_loop error").
Definition Mcast_get_ttl e sockfd : M Z := or_err_sys (mcast_get_ttl e sockfd) (chars "mcast_get_ttl error").
Definition Mcast_set_if e sockfd ifname ifindex : M unit :=
  or_err_sys (mcast_set_if e sockfd ifname ifindex) (chars "mcast_set_if error") ;; mret ().
Definition Mcast_set_loop e sockfd onoff : M unit :=
  or_err_sys (mcast_set_loop e sockfd onoff) (chars "mcast_set_loop error") ;; mret ().
Definition Mcast_set_ttl e sockfd val : M unit :=
  or_err_sys (mcast_set_ttl e sockfd val) (chars "mcast_set_ttl error") ;; mret ().

(** ** lib/sock_bind_wild.c *)

(** [sizeof(struct sockaddr_in)] and [sizeof(struct sockaddr_in6)] bytes:
    the family, then port, address and the rest as zeros. *)
Definition wild_addr e (family : Z) (size : nat) : list Z := store16 e family ++ replicate (size - 2) 0.

(** The port of the address that [getsockname] has stored. *)
Definition bound_port e (a : answer) : Z :=
  load16 e (byte_at (stored_bytes a) 2) (byte_at (stored_bytes a) 3).

Definition sock_bind_wild e (sockfd family : Z) : M Z :=
  let go size :=
    a ← kernel (CBind sockfd (wild_addr e family size));
    if a_ret a <? 0 then mret (-1) else
    a ← kernel (libc "getsockname" [sockfd] []);
    if a_ret a <? 0 then mret (-1) else mret (bound_port e a) in
  if family =? AF_INET then go 16%nat
  else if family =? AF_INET6 then go 28%nat
  else mret (-1).

Definition Sock_bind_wild e (sockfd family : Z) : M Z :=
  or_err_sys (sock_bind_wild e sockfd family) (chars "sock_bind_wild error").

(** ** lib/readable_timeo.c, lib/writable_timeo.c *)

Definition readable_timeo (fd sec : Z) : M Z :=
  rset ← fd_set fd ∅;
  ret_of (CSelect (fd + 1) rset ∅ (Some sec)).
Definition Readable_timeo (fd sec : Z) : M Z :=
  or_err_sys (readable_timeo fd sec) (chars "readable_timeo error").

Definition writable_timeo (fd sec : Z) : M Z :=
  wset ← fd_set fd ∅;
  ret_of (CSelect (fd + 1) ∅ wset (Some sec)).
Definition Writable_timeo (fd sec : Z) : M Z :=
  or_err_sys (writable_timeo fd sec) (chars "writable_timeo error").

(** ** lib/connect_timeo.c *)

(** The handler only interrupts [connect]. *)
Definition connect_alarm : Z := 1.

(** [close(sockfd); if (errno == EINTR) errno = ETIMEDOUT;] *)
Definition connect_failed (sockfd : Z) : M unit :=
  kernel (CClose sockfd) ;;
  err ← get_errno;
  if err =? EINTR then set_errno ETIMEDOUT else mret ().

Definition connect_timeo (sockfd : Z) (sa : list Z) (nsec : Z) : M Z :=
  sigfunc ← Signal SIGALRM connect_alarm;
  left ← ret_of (CAlarm nsec);
  (if negb (left =? 0) then err_msg (chars "connect_timeo: alarm was already set") else mret ()) ;;
  n ← ret_of (CConnect sockfd sa);
  (if n <? 0 then connect_failed sockfd else mret ()) ;;
  kernel (CAlarm 0) ;;
  Signal SIGALRM sigfunc ;;
  mret n.
Definition Connect_timeo (fd : Z) (sa : list Z) (sec : Z) : M unit :=
  or_err_sys (connect_timeo fd sa sec) (chars "connect_timeo error") ;; mret ().

(** ** lib/connect_nonb.c *)

Definition F_GETFL : Z := 3.
Definition F_SETFL : Z := 4.
Definition O_NONBLOCK : Z := 2048.
Definition SOL_SOCKET : Z := 1.
Definition SO_ERROR : Z := 4.

(** The label [done]. *)
Definition connect_done (sockfd flags error : Z) : M Z :=
  Fcntl sockfd F_SETFL flags ;;
  if negb (error =? 0) then
    kernel (CClose sockfd) ;;
    fail_with error
  else mret 0.

Definition connect_nonb e (sockfd : Z) (sa : list Z) (nsec : Z) : M Z :=
  flags ← Fcntl sockfd F_GETFL 0;
  Fcntl sockfd F_SETFL (Z.lor flags O_NONBLOCK) ;;
  n ← ret_of (CConnect sockfd sa);
  err ← get_errno;
  if (n <? 0) && negb (err =? EINPROGRESS) then mret (-1)
  else if n =? 0 then connect_done sockfd flags 0
  else
    rset ← fd_set sockfd ∅;
    sel ← Select (sockfd + 1) rset rset (if negb (nsec =? 0) then Some nsec else None);
    if a_ret sel =? 0 then
      kernel (CClose sockfd) ;;
      fail_with ETIMEDOUT
    else if bool_decide (sockfd ∈ a_data sel) || bool_decide (sockfd ∈ a_wdata sel) then
      a ← kernel (CGetsockopt sockfd SOL_SOCKET SO_ERROR);
      if a_ret a <? 0 then mret (-1)
      else connect_done sockfd flags (s32 (load32 e (stored_bytes a)))
    else err_quit (chars "select error: sockfd not set").

(** ** Runs with their final [errno] *)

Definition ends {A} (m : M A) (Q : A -> list event -> Z -> Prop)
    (H : halt -> list event -> Prop) (w : world) : Prop :=
  match m w with
  | (Ret a, w') => exists evs, extends w w' evs /\ Q a evs (errno w')
  | (Halt h, w') => exists evs, extends w w' evs /\ H h evs
  end.

Section Ends.
Context {A B : Type}.
Implicit Types (w : world) (H : halt -> list event -> Prop) (evs : list event).

Lemma ends_ret (a : A) (Q : A -> list event -> Z -> Prop) H w :
  Q a [] (errno w) -> ends (mret a) Q H w.
Proof. intros HQ. exists []. auto. Qed.

Lemma ends_halted h (Q : A -> list event -> Z -> Prop) H w : H h [] -> ends (halted h) Q H w.
Proof. intros HH. exists []. auto. Qed.

Lemma ends_mono (m : M A) (Q Q' : A -> list event -> Z -> Prop) H H' w :
  ends m Q H w -> (forall a evs en, Q a evs en -> Q' a evs en) ->
  (forall h evs, H h evs -> H' h evs) -> ends m Q' H' w.
Proof.
  unfold ends. destruct (m w) as [[a|h] w']; intros (evs & ? & ?) ? ?; eauto.
Qed.

Lemma ends_bind (m : M A) (f : A -> M B) (Q : B -> list event -> Z -> Prop) H w :
  ends m (fun a evs en => forall w', errno w' = en ->
            ends (f a) (fun b ev => Q b (evs ++ ev)) (fun h ev => H h (evs ++ ev)) w') H w ->
  ends (m ≫= f) Q H w.
Proof.
  unfold ends, mbind, M_bind. destruct (m w) as [[a|h] w']; [|done].
  intros (evs & He & Hf). specialize (Hf w' eq_refl).
  destruct (f a w') as [[b|h] w2]; destruct Hf as (ev & He2 & HQ);
    exists (evs ++ ev); eauto using extends_trans.
Qed.

Lemma ends_kernel_one c (Q : answer -> list event -> Z -> Prop) H w :
  is_output c = false -> H Blocked [] ->
  (forall a0, let a := normalise c a0 in
     Q a [(c, a)] (if a_ret a <? 0 then a_err a else errno w)) ->
  ends (kernel c) Q H w.
Proof.
  intros Hc HB HQ. unfold ends, kernel. destruct (script w) as [|a0 rest] eqn:E.
  - exists []. auto.
  - exists [(c, normalise c a0)]. split; [by eapply extends_kernel|]. apply HQ.
Qed.

Lemma ends_ret_of_one c (Q : Z -> list event -> Z -> Prop) H w :
  is_output c = false -> H Blocked [] ->
  (forall a0, let a := normalise c a0 in
     Q (a_ret a) [(c, a)] (if a_ret a <? 0 then a_err a else errno w)) ->
  ends (ret_of c) Q H w.
Proof.
  intros Hc HB HQ. unfold ends, ret_of, mbind, M_bind, kernel.
  destruct (script w) as [|a0 rest] eqn:E.
  - exists []. auto.
  - cbn. exists [(c, normalise c a0)]. split; [by eapply extends_kernel|]. apply HQ.
Qed.
End Ends.

Section EndsRules.
Context {A B : Type}.
Implicit Types (w : world) (H : halt -> list event -> Prop) (evs : list event).

Lemma ends_kernel c (f : answer -> M B) (Q : B -> list event -> Z -> Prop) H w :
  is_output c = false -> H Blocked [] ->
  (forall a0 w', let a := normalise c a0 in
     errno w' = (if a_ret a <? 0 then a_err a else errno w) ->
     ends (f a) (fun b ev => Q b ((c, a) :: ev)) (fun h ev => H h ((c, a) :: ev)) w') ->
  ends (kernel c ≫= f) Q H w.
Proof.
  intros Hc HB Hf. apply ends_bind, ends_kernel_one; [done..|].
  intros a0 a w' He. by apply Hf.
Qed.

Lemma ends_ret_of c (f : Z -> M B) (Q : B -> list event -> Z -> Prop) H w :
  is_output c = false -> H Blocked [] ->
  (forall a0 w', let a := normalise c a0 in
     errno w' = (if a_ret a <? 0 then a_err a else errno w) ->
     ends (f (a_ret a)) (fun b ev => Q b ((c, a) :: ev)) (fun h ev => H h ((c, a) :: ev)) w') ->
  ends (ret_of c ≫= f) Q H w.
Proof.
  intros Hc HB Hf. apply ends_bind, ends_ret_of_one; [done..|].
  intros a0 a w' He. by apply Hf.
Qed.

Lemma ends_set_errno en (f : unit -> M B) (Q : B -> list event -> Z -> Prop) H w :
  (forall w', errno w' = en -> ends (f ()) Q H w') -> ends (set_errno en ≫= f) Q H w.
Proof.
  intros Hf. set (w1 := World (script w) (trace w) en (daemon_proc w) (strerror w)).
  specialize (Hf w1 eq_refl). unfold ends in *.
  change ((set_errno en ≫= f) w) with (f () w1). done.
Qed.

Lemma ends_get_errno (f : Z -> M B) (Q : B -> list event -> Z -> Prop) H w :
  ends (f (errno w)) Q H w -> ends (get_errno ≫= f) Q H w.
Proof. done. Qed.

Lemma ends_fatal {C} flag text (Q : C -> list event -> Z -> Prop) H w :
  (forall rep, only is_report rep -> H (Exited 1) rep) ->
  ends (if flag : bool then err_sys text else err_quit text) Q H w.
Proof.
  intros HH. unfold ends. destruct flag; rewrite ?err_sys_reported, ?err_quit_reported;
    (eexists; split; [apply report_extends|apply HH, report_events_only]).
Qed.
Lemma ends_err_sys {C} text (Q : C -> list event -> Z -> Prop) H w :
  (forall rep, only is_report rep -> H (Exited 1) rep) -> ends (err_sys text) Q H w.
Proof. apply (ends_fatal true). Qed.
Lemma ends_err_quit {C} text (Q : C -> list event -> Z -> Prop) H w :
  (forall rep, only is_report rep -> H (Exited 1) rep) -> ends (err_quit text) Q H w.
Proof. apply (ends_fatal false). Qed.

Lemma ends_check bad text a (f : answer -> M B) (Q : B -> list event -> Z -> Prop) H w :
  (bad a = true -> forall rep, only is_report rep -> H (Exited 1) rep) ->
  (bad a = false -> ends (f a) Q H w) -> ends (check_sys bad text a ≫= f) Q H w.
Proof.
  unfold check_sys. intros H1 H2. destruct (bad a) eqn:E; [|by apply H2].
  apply ends_bind, ends_err_sys. by apply H1.
Qed.

Lemma ends_or_err_sys (m : M Z) text (Q : Z -> list event -> Z -> Prop) H w :
  ends m (fun n evs en => if n <? 0 then forall rep, only is_report rep -> H (Exited 1) (evs ++ rep)
                          else Q n evs en) H w ->
  ends (or_err_sys m text) Q H w.
Proof.
  intros Hm. apply ends_bind. eapply ends_mono; [exact Hm| |done].
  intros n evs en Hn w' He. cbn beta in Hn. destruct (n <? 0).
  - by apply ends_err_sys.
  - apply ends_ret. by rewrite app_nil_r, He.
Qed.

(** [err_msg] prints a report and leaves [errno] as it was. *)
Lemma ends_err_msg text (f : unit -> M B) (Q : B -> list event -> Z -> Prop) H w :
  (forall rep w', only is_report rep -> errno w' = errno w ->
     ends (f ()) (fun b ev => Q b (rep ++ ev)) (fun h ev => H h (rep ++ ev)) w') ->
  ends (err_msg text ≫= f) Q H w.
Proof.
  intros Hf. apply ends_bind. unfold err_msg, ends. rewrite err_doit_spec.
  eexists. split; [apply report_extends|]. intros w' He. apply Hf; [apply report_events_only|done].
Qed.
End EndsRules.

Lemma ends_fail_with en (Q : Z -> list event -> Z -> Prop) (H : halt -> list event -> Prop) w :
  Q (-1) [] en -> ends (fail_with en) Q H w.
Proof. intros HQ. unfold fail_with. apply ends_set_errno. intros w' <-. by apply ends_ret. Qed.

(** [errno] at the end of a run does not restrict what the run has done. *)
Lemma ends_runs {A} (m : M A) (Q : A -> list event -> Prop) H w :
  ends m (fun a evs _ => Q a evs) H w <-> runs m Q H w.
Proof. unfold ends, runs. by destruct (m w) as [[a|h] w']. Qed.

(** ** What the option functions do *)

Definition blocked (h : halt) (evs : list event) : Prop := h = Blocked.

(** The result of a wrapper: what the function did, or its report. *)
Definition loud (P : Z -> list event -> Z -> Prop) (h : halt) (evs : list event) : Prop :=
  h = Blocked \/
  h = Exited 1 /\ exists n en evs0 rep, evs = evs0 ++ rep /\ only is_report rep /\ n < 0 /\ P n evs0 en.

Lemma or_err_sys_loud m text P w :
  ends m P blocked w ->
  ends (or_err_sys m text) (fun n evs en => 0 <= n /\ P n evs en) (loud P) w.
Proof.
  intros Hm. apply ends_or_err_sys. eapply ends_mono; [exact Hm| |by left].
  intros n evs en HP. destruct (n <? 0) eqn:E; zbool.
  - intros rep Hrep. right. split; [done|]. by exists n, en, evs, rep.
  - by split.
Qed.

Lemma or_err_sys_gen m text P (H : halt -> list event -> Prop) w :
  ends m P H w ->
  ends (or_err_sys m text) (fun n evs en => 0 <= n /\ P n evs en)
    (fun h evs => H h evs \/ loud P h evs) w.
Proof.
  intros Hm. apply ends_or_err_sys. eapply ends_mono; [exact Hm| |by left].
  intros n evs en HP. destruct (n <? 0) eqn:E; zbool.
  - intros rep Hrep. right. right. split; [done|]. by exists n, en, evs, rep.
  - by split.
Qed.

Lemma or_err_sys_unit m text P w :
  ends m P blocked w ->
  runs (or_err_sys m text ;; mret ()) (fun _ evs => exists n en, 0 <= n /\ P n evs en) (loud P) w.
Proof.
  intros Hm. rewrite <- ends_runs. apply ends_bind.
  eapply ends_mono; [by apply or_err_sys_loud| |done].
  intros n evs en [Hn HP] w' He. apply ends_ret. rewrite app_nil_r. by exists n, en.
Qed.

(** The family that [sockfd_to_family] finds. *)
Definition getsockname (fd : Z) : call := libc "getsockname" [fd] [].
Definition family_of e (a : answer) : Z := if a_ret a <? 0 then -1 else ss_family e a.
Definition known (family : Z) : Prop := family = AF_INET \/ family = AF_INET6.

Lemma ends_family {B} e fd (f : Z -> M B) (Q : B -> list event -> Z -> Prop)
    (H : halt -> list event -> Prop) w :
  H Blocked [] ->
  (forall a w', ends (f (family_of e a)) (fun b ev => Q b ((getsockname fd, a) :: ev))
                  (fun h ev => H h ((getsockname fd, a) :: ev)) w') ->
  ends (sockfd_to_family e fd ≫= f) Q H w.
Proof.
  intros HB Hf. unfold sockfd_to_family. apply ends_bind.
  apply ends_kernel; [done|exact HB|]. intros a0 w' a _. unfold family_of in Hf.
  specialize (Hf a). fold a. destruct (a_ret a <? 0); apply ends_ret; intros w2 _; apply Hf.
Qed.

Lemma ends_sockfd_to_family e fd w :
  ends (sockfd_to_family e fd)
    (fun n evs _ => exists a, n = family_of e a /\ evs = [(getsockname fd, a)]) blocked w.
Proof.
  apply ends_kernel; [done|done|]. intros a0 w' a _. fold a. unfold family_of.
  destruct (a_ret a <? 0) eqn:E; apply ends_ret; exists a; by rewrite E.
Qed.

(** One call chosen by the family, or EAFNOSUPPORT. *)
Inductive by_family e (fd : Z) (call4 call6 : call) (value : Z -> answer -> Z) :
    Z -> list event -> Z -> Prop :=
| BfCall a0 a n en (K : known (family_of e a0))
    (Hn : n = if a_ret a <? 0 then -1 else value (family_of e a0) a)
    (He : a_ret a < 0 -> en = a_err a) :
    by_family e fd call4 call6 value n
      [(getsockname fd, a0); (if family_of e a0 =? AF_INET then call4 else call6, a)] en
| BfUnsupported a0 (K : ~ known (family_of e a0)) :
    by_family e fd call4 call6 value (-1) [(getsockname fd, a0)] EAFNOSUPPORT.

(** The value of the option as the functions read it. *)
Definition option_value e (family : Z) (l : list Z) : Z :=
  if family =? AF_INET then byte_at l 0 else s32 (load32 e l).
Definition option_bytes e (family : Z) (v : Z) : list Z :=
  if family =? AF_INET then [u8 v] else store32 e v.

Lemma store32_bytes e v : map u8 (store32 e v) = store32 e v.
Proof.
  assert (forall x, u8 (u8 x) = u8 x) as H by (intros; apply u8_small, u8_range).
  destruct e; simpl; by rewrite !H.
Qed.

Lemma load_store32 e v : load32 e (store32 e v) = u32 v.
Proof.
  assert (u8 v + 2 ^ 8 * u8 (v / 2 ^ 8) + 2 ^ 16 * u8 (v / 2 ^ 16) + 2 ^ 24 * u8 (v / 2 ^ 24) = u32 v) as H.
  { unfold u8, u32. change (2 ^ 8) with 256. change (2 ^ 16) with (256 * 256).
    change (2 ^ 24) with (256 * (256 * 256)). change (2 ^ 32) with (256 * (256 * (256 * 256))).
    rewrite (Z.rem_mul_r v 256), (Z.rem_mul_r (v / 256) 256), (Z.rem_mul_r (v / 256 / 256) 256) by lia.
    rewrite !Z.div_div by lia. change (256 * 256 * 256) with (256 * (256 * 256)). lia. }
  destruct e; unfold load32, store32, byte_at; simpl nth; cbn [reverse rev_append]; lia.
Qed.

Lemma option_roundtrip e family v :
  option_value e family (map u8 (option_bytes e family v)) =
  if family =? AF_INET then u8 v else s32 v.
Proof.
  unfold option_value, option_bytes. destruct (family =? AF_INET).
  - unfold byte_at. simpl. apply u8_small, u8_range.
  - rewrite store32_bytes, load_store32. unfold s32, u32. by rewrite Zplus_mod_idemp_l.
Qed.

Ltac family_cases a :=
  destruct (family_of _ a =? AF_INET) eqn:?E4; [|destruct (family_of _ a =? AF_INET6) eqn:?E6].

Lemma by_family_set e fd c4 c6 (f : Z -> M Z) w :
  is_output c4 = false -> is_output c6 = false ->
  (forall family, f family = if family =? AF_INET then ret_of c4
                             else if family =? AF_INET6 then ret_of c6 else fail_with EAFNOSUPPORT) ->
  ends (sockfd_to_family e fd ≫= f) (by_family e fd c4 c6 (fun _ a => a_ret a)) blocked w.
Proof.
  intros O4 O6 Hf. apply ends_family; [done|]. intros a0 w'. rewrite Hf.
  assert (forall c, is_output c = false -> c = (if family_of e a0 =? AF_INET then c4 else c6) ->
    known (family_of e a0) ->
    ends (ret_of c) (fun n ev => by_family e fd c4 c6 (fun _ a => a_ret a) n ((getsockname fd, a0) :: ev))
      (fun h ev => blocked h ((getsockname fd, a0) :: ev)) w') as Hc.
  { intros c Hc -> Hk. apply ends_ret_of_one; [done|done|]. intros a1 a. fold a.
    apply BfCall; [done| |].
    - pose proof (normalise_ret (if family_of e a0 =? AF_INET then c4 else c6) a1) as Hr. fold a in Hr.
      destruct (a_ret a <? 0) eqn:E; zbool; lia.
    - intros Hneg. by rewrite (proj2 (Z.ltb_lt _ _) Hneg). }
  family_cases a0; zbool.
  - apply Hc; [done|done|by left].
  - apply Hc; [done|done|by right].
  - apply ends_fail_with, BfUnsupported. intros [|]; congruence.
Qed.

Lemma by_family_get e fd c4 c6 (f : Z -> M Z) w :
  is_output c4 = false -> is_output c6 = false ->
  (forall family, f family =
     if family =? AF_INET then
       a ← kernel c4; if a_ret a <? 0 then mret (-1) else mret (byte_at (stored_bytes a) 0)
     else if family =? AF_INET6 then
       a ← kernel c6; if a_ret a <? 0 then mret (-1) else mret (s32 (load32 e (stored_bytes a)))
     else fail_with EAFNOSUPPORT) ->
  ends (sockfd_to_family e fd ≫= f)
    (by_family e fd c4 c6 (fun fam a => option_value e fam (stored_bytes a))) blocked w.
Proof.
  intros O4 O6 Hf. apply ends_family; [done|]. intros a0 w'. rewrite Hf. unfold option_value.
  set (val := fun fam a => if fam =? AF_INET then _ else _).
  assert (forall c g, is_output c = false -> c = (if family_of e a0 =? AF_INET then c4 else c6) ->
    known (family_of e a0) -> (forall a, g a = val (family_of e a0) a) ->
    ends (a ← kernel c; if a_ret a <? 0 then mret (-1) else mret (g a))
      (fun n ev => by_family e fd c4 c6 val n ((getsockname fd, a0) :: ev))
      (fun h ev => blocked h ((getsockname fd, a0) :: ev)) w') as Hc.
  { intros c g Hc -> Hk Hg. apply ends_kernel; [done|done|]. intros a1 w2 a He. fold a.
    destruct (a_ret a <? 0) eqn:E; apply ends_ret; apply BfCall; rewrite ?E; zbool; try done; lia. }
  family_cases a0; zbool.
  - apply (Hc c4 (fun a => byte_at (stored_bytes a) 0)); [done|done|by left|].
    intros a. unfold val. by rewrite E4.
  - apply (Hc c6 (fun a => s32 (load32 e (stored_bytes a)))); [done|done|by right|].
    intros a. unfold val. by rewrite (proj2 (Z.eqb_neq _ _) E4).
  - apply ends_fail_with, BfUnsupported. intros [|]; congruence.
Qed.

(** The paths of [mcast_set_if]: one [setsockopt] of the address or index of
    the interface, or a failure before it. *)
Definition set_if4 (fd : Z) (addr : list Z) : call := CSetsockopt fd IPPROTO_IP IP_MULTICAST_IF addr.
Definition set_if6 e (fd idx : Z) : call := CSetsockopt fd IPPROTO_IPV6 IPV6_MULTICAST_IF (store32 e idx).

Inductive one_call (c : call) : Z -> list event -> Z -> Prop :=
| OneCall a en (He : a_ret a < 0 -> en = a_err a) : one_call c (a_ret a) [(c, a)] en.

Inductive by_name (fd : Z) (name : list Z) : Z -> list event -> Z -> Prop :=
| BnFail a (Ha : a_ret a < 0) :
    by_name fd name (-1) [(libc "ioctl" [fd; SIOCGIFADDR] name, a)] (a_err a)
| BnSet a n evs en (Ha : 0 <= a_ret a)
    (Hs : one_call (set_if4 fd (take 4 (drop 4 (stored_bytes a)))) n evs en) :
    by_name fd name n ((libc "ioctl" [fd; SIOCGIFADDR] name, a) :: evs) en.

Inductive set_if4_run (fd : Z) (ifname : option (list Z)) (ifindex : Z) :
    Z -> list event -> Z -> Prop :=
| S4NoIndex a (Hi : 0 < ifindex) (Ha : a_ret a = NULL) :
    set_if4_run fd ifname ifindex (-1) [(libc "if_indextoname" [ifindex] [], a)] ENXIO
| S4Index a n evs en (Hi : 0 < ifindex) (Ha : a_ret a <> NULL)
    (Hs : by_name fd (c_string (stored_bytes a)) n evs en) :
    set_if4_run fd ifname ifindex n ((libc "if_indextoname" [ifindex] [], a) :: evs) en
| S4Name name n evs en (Hi : ifindex <= 0) (Hn : ifname = Some name)
    (Hs : by_name fd (take IFNAMSIZ (c_string name)) n evs en) : set_if4_run fd ifname ifindex n evs en
| S4Any n evs en (Hi : ifindex <= 0) (Hn : ifname = None) 
    (Hs : one_call (set_if4 fd [0; 0; 0; 0]) n evs en) : set_if4_run fd ifname ifindex n evs en.

Inductive set_if6_run e (fd : Z) (ifname : option (list Z)) (ifindex : Z) :
    Z -> list event -> Z -> Prop :=
| S6Index n evs en (Hi : ifindex <> 0) (Hs : one_call (set_if6 e fd ifindex) n evs en) :
    set_if6_run e fd ifname ifindex n evs en
| S6Neither (Hi : ifindex = 0) (Hn : ifname = None) : set_if6_run e fd ifname ifindex (-1) [] EINVAL
| S6Unknown name a (Hi : ifindex = 0) (Hn : ifname = Some name) (Ha : a_ret a = 0) :
    set_if6_run e fd ifname ifindex (-1) [(libc "if_nametoindex" [] name, a)] ENXIO
| S6Name name a n evs en (Hi : ifindex = 0) (Hn : ifname = Some name) (Ha : a_ret a <> 0)
    (Hs : one_call (set_if6 e fd (a_ret a)) n evs en) :
    set_if6_run e fd ifname ifindex n ((libc "if_nametoindex" [] name, a) :: evs) en.

Inductive set_if_run e fd ifname ifindex : Z -> list event -> Z -> Prop :=
| SiUnsupported a0 (K : ~ known (family_of e a0)) :
    set_if_run e fd ifname ifindex (-1) [(getsockname fd, a0)] EAFNOSUPPORT
| Si4 a0 n evs en (K : family_of e a0 = AF_INET) (Hs : set_if4_run fd ifname ifindex n evs en) :
    set_if_run e fd ifname ifindex n ((getsockname fd, a0) :: evs) en
| Si6 a0 n evs en (K : family_of e a0 = AF_INET6) (Hs : set_if6_run e fd ifname ifindex n evs en) :
    set_if_run e fd ifname ifindex n ((getsockname fd, a0) :: evs) en.

(** [mcast_get_if] has no IPv4 case: it fails without a call. *)
Inductive get_if_run e (fd : Z) : Z -> list event -> Z -> Prop :=
| GiUnsupported a0 (K : ~ known (family_of e a0)) :
    get_if_run e fd (-1) [(getsockname fd, a0)] EAFNOSUPPORT
| Gi4 a0 en (K : family_of e a0 = AF_INET) : get_if_run e fd (-1) [(getsockname fd, a0)] en
| Gi6 a0 a n en (K : family_of e a0 = AF_INET6)
    (Hn : n = if a_ret a <? 0 then -1 else option_value e AF_INET6 (stored_bytes a))
    (He : a_ret a < 0 -> en = a_err a) :
    get_if_run e fd n [(getsockname fd, a0); (CGetsockopt fd IPPROTO_IPV6 IPV6_MULTICAST_IF, a)] en.

Lemma ends_get_if e fd w : ends (mcast_get_if e fd) (get_if_run e fd) blocked w.
Proof.
  apply ends_family; [done|]. intros a0 w'. family_cases a0; zbool.
  - apply ends_ret. by apply Gi4.
  - apply ends_kernel; [done|done|]. intros a1 w2 a He. fold a. fold a in He.
    destruct (a_ret a <? 0) eqn:E; apply ends_ret; apply Gi6; rewrite ?E; zbool; done || lia.
  - apply ends_fail_with, GiUnsupported. intros [|]; congruence.
Qed.

Lemma ends_one_call c w : is_output c = false -> ends (ret_of c) (one_call c) blocked w.
Proof.
  intros Hc. apply ends_ret_of_one; [done|done|]. intros a0 a. apply OneCall.
  intros Hneg. by rewrite (proj2 (Z.ltb_lt _ _) Hneg).
Qed.

(** A run after some events. *)
Lemma ends_after {A} (m : M A) (P Q : A -> list event -> Z -> Prop) pre w :
  ends m P blocked w -> (forall a evs en, P a evs en -> Q a (pre ++ evs) en) ->
  ends m (fun a ev => Q a (pre ++ ev)) (fun h ev => blocked h (pre ++ ev)) w.
Proof. intros Hm HPQ. eapply ends_mono; [exact Hm| |]; intros; [by apply HPQ|done]. Qed.

Lemma ends_by_name fd name w : ends (set_if_by_name fd name) (by_name fd name) blocked w.
Proof.
  apply ends_kernel; [done|done|]. intros a0 w' a He. fold a. fold a in He.
  destruct (a_ret a <? 0) eqn:E; zbool.
  - apply ends_ret. rewrite He. by apply BnFail.
  - eapply (ends_after _ _ _ [_]); [by apply ends_one_call|]. intros. by apply BnSet.
Qed.

Lemma ends_set_if e fd ifname ifindex w :
  ends (mcast_set_if e fd ifname ifindex) (set_if_run e fd ifname ifindex) blocked w.
Proof.
  apply ends_family; [done|]. intros a0 w'. family_cases a0; zbool.
  - destruct (0 <? ifindex) eqn:Ei; zbool.
    + apply ends_kernel; [done|done|]. intros a1 w2 a _. fold a.
      destruct (a_ret a =? NULL) eqn:Ea; zbool.
      * apply ends_fail_with. by apply Si4, S4NoIndex.
      * eapply (ends_after _ _ _ [_; _]); [by apply ends_by_name|]. intros. by apply Si4, S4Index.
    + destruct ifname as [name|].
      * eapply (ends_after _ _ _ [_]); [by apply ends_by_name|]. intros. by eapply Si4, S4Name.
      * eapply (ends_after _ _ _ [_]); [by apply ends_one_call|]. intros. by apply Si4, S4Any.
  - destruct (ifindex =? 0) eqn:Ei; zbool.
    + destruct ifname as [name|].
      * apply ends_ret_of; [done|done|]. intros a1 w2 a _. fold a.
        destruct (a_ret a =? 0) eqn:Ea; zbool.
        -- apply ends_fail_with. by eapply Si6, S6Unknown.
        -- eapply (ends_after _ _ _ [_; _]); [by apply ends_one_call|]. intros. by eapply Si6, S6Name.
      * apply ends_fail_with. by apply Si6, S6Neither.
    + eapply (ends_after _ _ _ [_]); [by apply ends_one_call|]. intros. by apply Si6, S6Index.
  - apply ends_fail_with, SiUnsupported. intros [|]; congruence.
Qed.

(** C21: The option functions of multicast sockets look up the family of the
    socket and make the one call for that family (one byte for IPv4, four
    for IPv6), and their result and [errno] are those of the call; any other
    family, also when [getsockname] has failed, gives -1 and EAFNOSUPPORT.
    The bytes that a set function stores are what the get function reads
    back: the value itself for IPv6, its low 8 bits for IPv4.
    [mcast_set_if] finds the address or index of the interface first.  The
    capitalised functions report a negative result and exit with status 1. *)
Theorem mcast_options_correct e fd val ifname ifindex w :
  let loop4 c := CGetsockopt fd IPPROTO_IP c in
  let loop6 c := CGetsockopt fd IPPROTO_IPV6 c in
  let sets opt4 opt6 := by_family e fd (CSetsockopt fd IPPROTO_IP opt4 (option_bytes e AF_INET val))
    (CSetsockopt fd IPPROTO_IPV6 opt6 (option_bytes e AF_INET6 val)) (fun _ a => a_ret a) in
  let gets opt4 opt6 := by_family e fd (loop4 opt4) (loop6 opt6)
    (fun family a => option_value e family (stored_bytes a)) in
  ends (mcast_set_loop e fd val) (sets IP_MULTICAST_LOOP IPV6_MULTICAST_LOOP) blocked w /\
  ends (mcast_set_ttl e fd val) (sets IP_MULTICAST_TTL IPV6_MULTICAST_HOPS) blocked w /\
  ends (mcast_get_loop e fd) (gets IP_MULTICAST_LOOP IPV6_MULTICAST_LOOP) blocked w /\
  ends (mcast_get_ttl e fd) (gets IP_MULTICAST_TTL IPV6_MULTICAST_HOPS) blocked w /\
  ends (mcast_set_if e fd ifname ifindex) (set_if_run e fd ifname ifindex) blocked w /\
  ends (mcast_get_if e fd) (get_if_run e fd) blocked w /\
  ends (Mcast_get_if e fd) (fun n evs en => 0 <= n /\ get_if_run e fd n evs en)
    (loud (get_if_run e fd)) w /\
  ends (Sockfd_to_family e fd)
    (fun n evs _ => 0 <= n /\ exists a, n = family_of e a /\ evs = [(getsockname fd, a)])
    (loud (fun n evs _ => exists a, n = family_of e a /\ evs = [(getsockname fd, a)])) w /\
  (forall family, option_value e family (map u8 (option_bytes e family val)) =
     if family =? AF_INET then u8 val else s32 val) /\
  runs (Mcast_set_loop e fd val)
    (fun _ evs => exists n en, 0 <= n /\ sets IP_MULTICAST_LOOP IPV6_MULTICAST_LOOP n evs en)
    (loud (sets IP_MULTICAST_LOOP IPV6_MULTICAST_LOOP)) w /\
  runs (Mcast_set_ttl e fd val)
    (fun _ evs => exists n en, 0 <= n /\ sets IP_MULTICAST_TTL IPV6_MULTICAST_HOPS n evs en)
    (loud (sets IP_MULTICAST_TTL IPV6_MULTICAST_HOPS)) w /\
  runs (Mcast_set_if e fd ifname ifindex)
    (fun _ evs => exists n en, 0 <= n /\ set_if_run e fd ifname ifindex n evs en)
    (loud (set_if_run e fd ifname ifindex)) w /\
  ends (Mcast_get_loop e fd) (fun n evs en => 0 <= n /\ gets IP_MULTICAST_LOOP IPV6_MULTICAST_LOOP n evs en)
    (loud (gets IP_MULTICAST_LOOP IPV6_MULTICAST_LOOP)) w /\
  ends (Mcast_get_ttl e fd) (fun n evs en => 0 <= n /\ gets IP_MULTICAST_TTL IPV6_MULTICAST_HOPS n evs en)
    (loud (gets IP_MULTICAST_TTL IPV6_MULTICAST_HOPS)) w.
Proof.
  intros get4 get6 sets gets.
  assert (forall w, ends (mcast_set_loop e fd val) (sets IP_MULTICAST_LOOP IPV6_MULTICAST_LOOP) blocked w /\
    ends (mcast_set_ttl e fd val) (sets IP_MULTICAST_TTL IPV6_MULTICAST_HOPS) blocked w /\
    ends (mcast_get_loop e fd) (gets IP_MULTICAST_LOOP IPV6_MULTICAST_LOOP) blocked w /\
    ends (mcast_get_ttl e fd) (gets IP_MULTICAST_TTL IPV6_MULTICAST_HOPS) blocked w) as H.
  { intros w0. split; [by apply by_family_set|]. split; [by apply by_family_set|].
    split; by apply by_family_get. }
  destruct (H w) as (H1 & H2 & H3 & H4). do 4 (split; [assumption|]).
  split; [apply ends_set_if|]. split; [apply ends_get_if|].
  split; [apply or_err_sys_loud, ends_get_if|].
  split; [apply or_err_sys_loud, ends_sockfd_to_family|]. split; [intros; apply option_roundtrip|].
  split; [by apply or_err_sys_unit|]. split; [by apply or_err_sys_unit|].
  split; [by apply or_err_sys_unit, ends_set_if|]. split; by apply or_err_sys_loud.
Qed.

(** ** Timeouts, binding and connecting *)

(** Reports end a run whose last call has failed. *)
Definition failed_call (P : call -> Prop) (h : halt) (evs : list event) : Prop :=
  h = Exited 1 /\ exists pre c a rep, evs = pre ++ (c, a) :: rep /\ P c /\ a_ret a < 0 /\ only is_report rep.

Lemma failed_call_after P pre h evs : failed_call P h evs -> failed_call P h (pre ++ evs).
Proof.
  intros (-> & p & c & a & rep & -> & H). split; [done|].
  exists (pre ++ p), c, a, rep. by rewrite <- app_assoc.
Qed.

Inductive timeo_run (fd : Z) (c : call) : Z -> list event -> Z -> Prop :=
| TimeoRun n evs en (Hfd : 0 <= fd < FD_SETSIZE) (Hs : one_call c n evs en) : timeo_run fd c n evs en.
Definition out_of_set (fd : Z) (h : halt) (evs : list event) : Prop :=
  h = Blocked \/ h = Undefined /\ evs = [] /\ ~ (0 <= fd < FD_SETSIZE).

(** [FD_ZERO(&set); FD_SET(fd, &set);] *)
Lemma ends_fd_set {B} fd (f : gset Z -> M B) (Q : B -> list event -> Z -> Prop)
    (H : halt -> list event -> Prop) w :
  (~ (0 <= fd < FD_SETSIZE) -> H Undefined []) ->
  (0 <= fd < FD_SETSIZE -> ends (f {[fd]}) Q H w) -> ends (fd_set fd ∅ ≫= f) Q H w.
Proof.
  intros HU Hf. unfold fd_set. destruct ((0 <=? fd) && (fd <? FD_SETSIZE)) eqn:E; zbool.
  - rewrite (union_empty_r_L {[fd]} : {[fd]} ∪ ∅ = {[fd]}). by apply Hf.
  - apply ends_bind, ends_halted, HU. apply andb_false_iff in E as [E|E]; zbool; lia.
Qed.

Lemma ends_timeo fd (g : gset Z -> call) w :
  (forall s, is_output (g s) = false) ->
  ends (s ← fd_set fd ∅; ret_of (g s)) (timeo_run fd (g {[fd]})) (out_of_set fd) w.
Proof.
  intros Hg. apply ends_fd_set; [by right|]. intros Hfd.
  eapply ends_mono; [by apply ends_one_call| |by left]. intros. by apply TimeoRun.
Qed.

(** [connect_timeo]: the alarm is set around one [connect]; a failed
    connection is closed, and EINTR becomes ETIMEDOUT unless [close] has
    overwritten [errno]. *)
Definition sigaction (func : Z) : call := libc "sigaction" [SIGALRM; func; SA_INTERRUPT] [].

Definition timed_out (en : Z) : Z := if en =? EINTR then ETIMEDOUT else en.

Inductive connect_timeo_run (fd : Z) (sa : list Z) (nsec : Z) : Z -> list event -> Z -> Prop :=
| CtRun old al rep c closed al0 res en
    (Hrep : only is_report rep) (Hal : a_ret al = 0 -> rep = [])
    (Hok : 0 <= a_ret c -> closed = [])
    (Hbad : a_ret c < 0 -> exists cl, closed = [(CClose fd, cl)] /\
       (0 <= a_ret al0 -> en = timed_out (if a_ret cl <? 0 then a_err cl else a_err c))) :
    connect_timeo_run fd sa nsec (a_ret c)
      ((sigaction connect_alarm, old) :: (CAlarm nsec, al) :: rep ++
       (CConnect fd sa, c) :: closed ++ [(CAlarm 0, al0); (sigaction (a_ret old), res)]) en.

Lemma ends_Signal {B} func (f : Z -> M B) (Q : B -> list event -> Z -> Prop)
    (H : halt -> list event -> Prop) w :
  H Blocked [] ->
  (forall a rep, a_ret a < 0 -> only is_report rep -> H (Exited 1) ((sigaction func, a) :: rep)) ->
  (forall a w', 0 <= a_ret a -> errno w' = errno w ->
     ends (f (a_ret a)) (fun b ev => Q b ((sigaction func, a) :: ev))
       (fun h ev => H h ((sigaction func, a) :: ev)) w') ->
  ends (Signal SIGALRM func ≫= f) Q H w.
Proof.
  intros HB HE Hf. apply ends_bind. unfold Signal, signal. apply ends_bind.
  apply ends_kernel; [done|exact HB|]. intros a0 w' a He.
  assert (sigaction func = libc "sigaction" [SIGALRM; func; if SIGALRM =? SIGALRM
    then Z.lor 0 SA_INTERRUPT else Z.lor 0 SA_RESTART] []) as Hc by done.
  rewrite <- Hc in *. fold a. fold a in He.
  pose proof (normalise_ret (sigaction func) a0) as Hr. fold a in Hr.
  destruct (a_ret a <? 0) eqn:E; zbool; apply ends_ret; intros w2 He2.
  - change (SIG_ERR =? SIG_ERR) with true. apply ends_err_sys. intros rep Hrep. by apply HE.
  - replace (a_ret a =? SIG_ERR) with false by (unfold SIG_ERR; lia).
    apply ends_ret. intros w3 He3. apply Hf; [done|]. congruence.
Qed.

Definition is_sigaction (c : call) : Prop := exists func, c = sigaction func.

Lemma ends_set_errno_one en (Q : unit -> list event -> Z -> Prop) (H : halt -> list event -> Prop) w :
  Q () [] en -> ends (set_errno en) Q H w.
Proof.
  intros HQ. unfold ends, set_errno. eexists []. split; [|exact HQ].
  unfold extends. cbn. rewrite app_nil_r. repeat split. lia.
Qed.

Lemma ends_connect_failed fd w :
  ends (connect_failed fd)
    (fun _ ev en => exists cl, ev = [(CClose fd, cl)] /\
       en = timed_out (if a_ret cl <? 0 then a_err cl else errno w)) blocked w.
Proof.
  apply ends_kernel; [done|done|]. intros cl0 w5 cl Hcl. fold cl. fold cl in Hcl.
  apply ends_get_errno.
  destruct (errno w5 =? EINTR) eqn:E; [apply ends_set_errno_one|apply ends_ret];
    exists cl; (split; [done|]); rewrite <- Hcl; unfold timed_out; by rewrite E.
Qed.

Definition sig_failed (h : halt) (evs : list event) : Prop :=
  h = Blocked \/ failed_call is_sigaction h evs.

Lemma sig_failed_one func a rep :
  a_ret a < 0 -> only is_report rep -> sig_failed (Exited 1) ((sigaction func, a) :: rep).
Proof.
  right. split; [done|]. exists [], (sigaction func), a, rep. split; [done|].
  split; [by exists func|done].
Qed.

Lemma sig_failed_after pre h evs : sig_failed h evs -> sig_failed h (pre ++ evs).
Proof. intros [->|Hf]; [by left|right]. by apply failed_call_after. Qed.

(** Restoring the alarm and the handler. *)
Lemma ends_restore func (n : Z) w :
  ends (kernel (CAlarm 0) ;; Signal SIGALRM func ;; mret n)
    (fun m ev en => m = n /\ exists al res, ev = [(CAlarm 0, al); (sigaction func, res)] /\
       (0 <= a_ret al -> en = errno w)) sig_failed w.
Proof.
  apply ends_kernel; [done|by left|]. intros d0 w6 d Hd. fold d. fold d in Hd.
  apply ends_Signal; [by left| |].
  - intros a rep Ha Hrep. apply (sig_failed_after [_]). by apply sig_failed_one.
  - intros res w7 _ Hw7. apply ends_ret. split; [done|]. eexists _, _. split; [done|].
    intros ?. rewrite Hw7, Hd. by replace (a_ret d <? 0) with false by lia.
Qed.

Lemma ends_connecting fd sa (func : Z) w :
  ends (n ← ret_of (CConnect fd sa);
        (if n <? 0 then connect_failed fd else mret ()) ;;
        kernel (CAlarm 0) ;; Signal SIGALRM func ;; mret n)
    (fun n ev en => exists c closed al0 res, n = a_ret c /\
       ev = (CConnect fd sa, c) :: closed ++ [(CAlarm 0, al0); (sigaction func, res)] /\
       (0 <= a_ret c -> closed = []) /\
       (a_ret c < 0 -> exists cl, closed = [(CClose fd, cl)] /\
          (0 <= a_ret al0 -> en = timed_out (if a_ret cl <? 0 then a_err cl else a_err c))))
    sig_failed w.
Proof.
  apply ends_ret_of; [done|by left|]. intros c0 w4 c Hc. fold c. fold c in Hc.
  apply ends_bind. destruct (a_ret c <? 0) eqn:E; zbool.
  - eapply ends_mono; [apply ends_connect_failed| |by left].
    intros [] ev en (cl & -> & Hen) w5 Hw5.
    eapply ends_mono; [apply ends_restore| |intros; by apply (sig_failed_after [_; _])].
    intros m ev en' (-> & al & res & -> & He). exists c, [(CClose fd, cl)], al, res.
    split; [done|]. split; [done|]. split; [lia|]. intros _. exists cl. split; [done|].
    intros Hal. rewrite (He Hal), Hw5, Hen, Hc. done.
  - apply ends_ret. intros w5 _.
    eapply ends_mono; [apply ends_restore| |intros; by apply (sig_failed_after [_])].
    intros m ev en' (-> & al & res & -> & He). exists c, [], al, res.
    split; [done|]. split; [done|]. split; [done|]. lia.
Qed.

Lemma ends_connect_timeo fd sa nsec w :
  ends (connect_timeo fd sa nsec) (connect_timeo_run fd sa nsec) sig_failed w.
Proof.
  apply ends_Signal; [by left|intros; by apply sig_failed_one|].
  intros old w1 _ _. apply ends_ret_of; [done|by left|]. intros al0' w2 al _. fold al.
  destruct (a_ret al =? 0) eqn:E; cbn [negb]; zbool.
  - apply ends_bind, ends_ret. intros w3 _.
    eapply ends_mono; [apply ends_connecting| |intros; by apply (sig_failed_after [_; _])].
    intros n ev en (c & closed & al0 & res & -> & -> & H1 & H2).
    by apply (CtRun _ _ _ old al [] c closed al0 res).
  - apply ends_err_msg. intros rep w3 Hrep _.
    eapply ends_mono; [apply ends_connecting| |
      intros; apply (sig_failed_after [_; _]); by apply sig_failed_after].
    intros n ev en (c & closed & al0 & res & -> & -> & H1 & H2).
    by apply (CtRun _ _ _ old al rep c closed al0 res).
Qed.

(** The outcomes of [connect_nonb]: the flags are read, O_NONBLOCK is added
    and [connect] is called; then one of the following. *)
Definition getfl (fd : Z) : call := CFcntl fd F_GETFL 0.
Definition setfl (fd flags : Z) : call := CFcntl fd F_SETFL flags.
Definition pending (c : answer) : Prop := a_ret c <> 0 /\ (a_ret c < 0 -> a_err c = EINPROGRESS).
Definition both (fd nsec : Z) : call :=
  CSelect (fd + 1) {[fd]} {[fd]} (if negb (nsec =? 0) then Some nsec else None).
Definition so_error e (a : answer) : Z := s32 (load32 e (stored_bytes a)).

Inductive nonb_tail e (fd nsec flags : Z) (c : answer) : Z -> list event -> Z -> Prop :=
| NbRefused (Hc : a_ret c < 0) (He : a_err c <> EINPROGRESS) :
    nonb_tail e fd nsec flags c (-1) [] (a_err c)
| NbImmediate r en (Hc : a_ret c = 0) : nonb_tail e fd nsec flags c 0 [(setfl fd flags, r)] en
| NbTimeout sel cl (Hc : pending c) (Hs : a_ret sel = 0) :
    nonb_tail e fd nsec flags c (-1) [(both fd nsec, sel); (CClose fd, cl)] ETIMEDOUT
| NbNoStatus sel a (Hc : pending c) (Hs : 0 < a_ret sel) (Ha : a_ret a < 0) :
    nonb_tail e fd nsec flags c (-1)
      [(both fd nsec, sel); (CGetsockopt fd SOL_SOCKET SO_ERROR, a)] (a_err a)
| NbConnected sel a r en (Hc : pending c) (Hs : 0 < a_ret sel) (Ha : 0 <= a_ret a)
    (He : so_error e a = 0) :
    nonb_tail e fd nsec flags c 0
      [(both fd nsec, sel); (CGetsockopt fd SOL_SOCKET SO_ERROR, a); (setfl fd flags, r)] en
| NbFailed sel a r cl (Hc : pending c) (Hs : 0 < a_ret sel) (Ha : 0 <= a_ret a)
    (He : so_error e a <> 0) :
    nonb_tail e fd nsec flags c (-1)
      [(both fd nsec, sel); (CGetsockopt fd SOL_SOCKET SO_ERROR, a); (setfl fd flags, r);
       (CClose fd, cl)] (so_error e a).

Inductive connect_nonb_run e (fd : Z) (sa : list Z) (nsec : Z) : Z -> list event -> Z -> Prop :=
| NonbRun f r c n evs en (Hf : 0 <= a_ret f)
    (Ht : nonb_tail e fd nsec (a_ret f) c n evs en) :
    connect_nonb_run e fd sa nsec n
      ((getfl fd, f) :: (setfl fd (Z.lor (a_ret f) O_NONBLOCK), r) :: (CConnect fd sa, c) :: evs) en.

Definition is_fcntl_select (c : call) : Prop :=
  match c with CFcntl _ _ _ | CSelect _ _ _ _ => True | _ => False end.
Definition nonb_halt (fd : Z) (h : halt) (evs : list event) : Prop :=
  h = Blocked \/ failed_call is_fcntl_select h evs \/ h = Undefined /\ ~ (0 <= fd < FD_SETSIZE).

Lemma nonb_halt_after fd pre h evs : nonb_halt fd h evs -> nonb_halt fd h (pre ++ evs).
Proof.
  intros [->|[Hf|H]]; [by left|right; left; by apply failed_call_after|by right; right].
Qed.

Lemma nonb_failed fd c a rep :
  is_fcntl_select c -> a_ret a < 0 -> only is_report rep -> nonb_halt fd (Exited 1) ((c, a) :: rep).
Proof. right. left. split; [done|]. by exists [], c, a, rep. Qed.

Lemma ends_Fcntl fd cmd arg w :
  ends (Fcntl fd cmd arg)
    (fun n ev _ => exists a, n = a_ret a /\ 0 <= n /\ ev = [(CFcntl fd cmd arg, a)]) (nonb_halt fd) w.
Proof.
  unfold Fcntl. apply ends_kernel; [done|by left|]. intros a0 w' a _.
  pose proof (normalise_ret (CFcntl fd cmd arg) a0) as Hr. fold a. fold a in Hr.
  apply ends_check; unfold minus_one; intros E; zbool.
  - intros rep Hrep. apply nonb_failed; [done|lia|done].
  - apply ends_ret. exists a. split; [done|]. split; [lia|done].
Qed.

Lemma ends_Select fd nfds r s timeout w :
  ends (Select nfds r s timeout)
    (fun sel ev _ => 0 <= a_ret sel /\ ev = [(CSelect nfds r s timeout, sel)] /\
       exists a0, sel = normalise (CSelect nfds r s timeout) a0) (nonb_halt fd) w.
Proof.
  unfold Select. apply ends_kernel; [done|by left|]. intros a0 w' a _.
  unfold check_sys, negative. fold a. destruct (a_ret a <? 0) eqn:E; zbool.
  - apply ends_err_sys. intros rep Hrep. by apply nonb_failed.
  - apply ends_ret. split; [done|]. split; [done|]. by exists a0.
Qed.

(** When [select] on one descriptor reports something, it is that one. *)
Lemma select_one fd nfds timeout a0 :
  let sel := normalise (CSelect nfds {[fd]} {[fd]} timeout) a0 in
  0 < a_ret sel -> bool_decide (fd ∈ a_data sel) || bool_decide (fd ∈ a_wdata sel) = true.
Proof.
  intros sel. unfold sel, normalise. destruct (a_ret a0 <? 0); [simpl; lia|].
  cbn [a_ret a_data a_wdata]. intros Hpos. apply orb_true_iff. rewrite !bool_decide_eq_true.
  assert (forall l, in_set nfds {[fd]} l = [] \/ fd ∈ in_set nfds {[fd]} l) as Hl.
  { intros l. destruct (in_set nfds {[fd]} l) as [|x t] eqn:E; [by left|right].
    assert (x ∈ in_set nfds {[fd]} l) as Hx by (rewrite E; left).
    rewrite elem_of_in_set, elem_of_singleton in Hx. destruct Hx as [-> _]. left. }
  destruct (Hl (a_data a0)) as [E1|]; [|by left]. destruct (Hl (a_wdata a0)) as [E2|]; [|by right].
  rewrite E1, E2 in Hpos. simpl in Hpos. lia.
Qed.

Lemma ends_connect_done fd flags error w :
  ends (connect_done fd flags error)
    (fun n ev en => exists r,
       error = 0 /\ n = 0 /\ ev = [(setfl fd flags, r)] \/
       error <> 0 /\ n = -1 /\ en = error /\ exists cl, ev = [(setfl fd flags, r); (CClose fd, cl)])
    (nonb_halt fd) w.
Proof.
  apply ends_bind. eapply ends_mono; [apply ends_Fcntl| |done].
  intros n ev en (r & _ & _ & ->) w' _. destruct (error =? 0) eqn:E; cbn [negb]; zbool.
  - apply ends_ret. exists r. by left.
  - apply ends_kernel; [done|by apply (nonb_halt_after _ [_]); left|]. intros cl0 w2 cl _. fold cl.
    apply ends_fail_with. exists r. right. split; [done|]. split; [done|]. split; [done|]. by exists cl.
Qed.

(** After [connect] has started. *)
Lemma ends_nonb_wait e fd nsec flags c w :
  pending c -> 
  ends (rset ← fd_set fd ∅;
        sel ← Select (fd + 1) rset rset (if negb (nsec =? 0) then Some nsec else None);
        if a_ret sel =? 0 then kernel (CClose fd) ;; fail_with ETIMEDOUT
        else if bool_decide (fd ∈ a_data sel) || bool_decide (fd ∈ a_wdata sel) then
          a ← kernel (CGetsockopt fd SOL_SOCKET SO_ERROR);
          if a_ret a <? 0 then mret (-1) else connect_done fd flags (so_error e a)
        else err_quit (chars "select error: sockfd not set"))
    (nonb_tail e fd nsec flags c) (nonb_halt fd) w.
Proof.
  intros Hc. apply ends_fd_set; [by right; right|]. intros Hfd. apply ends_bind.
  eapply ends_mono; [apply ends_Select| |done]. fold (both fd nsec).
  intros sel ev en (Hpos & -> & a0 & Hsel) w' _.
  destruct (a_ret sel =? 0) eqn:E; zbool.
  - apply ends_kernel; [done|by apply (nonb_halt_after _ [_]); left|]. intros cl0 w2 cl _. fold cl.
    apply ends_fail_with. by apply NbTimeout.
  - pose proof (select_one fd (fd + 1) (if negb (nsec =? 0) then Some nsec else None) a0) as Hone.
    cbv zeta in Hone. fold (both fd nsec) in Hone. rewrite <- Hsel in Hone. rewrite Hone by lia.
    apply ends_kernel; [done|by apply (nonb_halt_after _ [_]); left|]. intros b0 w2 a Ha.
    fold a. fold a in Ha. destruct (a_ret a <? 0) eqn:Ea; zbool.
    + apply ends_ret. rewrite Ha. apply NbNoStatus; done || lia.
    + eapply ends_mono; [apply ends_connect_done| |intros; by apply (nonb_halt_after _ [_; _])].
      intros n ev en' (r & [(H0 & -> & ->)|(H0 & -> & -> & cl & ->)]).
      * apply NbConnected; done || lia.
      * apply NbFailed; done || lia.
Qed.

Lemma ends_connect_nonb e fd sa nsec w :
  ends (connect_nonb e fd sa nsec) (connect_nonb_run e fd sa nsec) (nonb_halt fd) w.
Proof.
  apply ends_bind. eapply ends_mono; [apply ends_Fcntl| |done].
  intros flags ev en (f & -> & Hf & ->) w1 _. apply ends_bind.
  eapply ends_mono; [apply ends_Fcntl| |intros; by apply (nonb_halt_after _ [_])].
  intros ? ev en' (r & _ & _ & ->) w2 _.
  apply ends_ret_of; [done|by apply (nonb_halt_after _ [_; _]); left|]. intros c0 w3 c Hc.
  fold c. fold c in Hc. apply ends_get_errno.
  assert (forall (m : M Z), ends m (nonb_tail e fd nsec (a_ret f) c) (nonb_halt fd) w3 ->
    ends m (fun n ev => connect_nonb_run e fd sa nsec n ([(getfl fd, f)] ++
              [(setfl fd (Z.lor (a_ret f) O_NONBLOCK), r)] ++ (CConnect fd sa, c) :: ev))
           (fun h ev => nonb_halt fd h ([(getfl fd, f)] ++
              [(setfl fd (Z.lor (a_ret f) O_NONBLOCK), r)] ++ (CConnect fd sa, c) :: ev)) w3) as Htail.
  { intros m Hm. eapply ends_mono; [exact Hm| |].
    - intros n evs en2 Ht. by apply NonbRun.
    - intros. by apply (nonb_halt_after _ [_; _; _]). }
  destruct ((a_ret c <? 0) && negb (errno w3 =? EINPROGRESS)) eqn:E1; zbool.
  - apply Htail, ends_ret. rewrite Hc, (proj2 (Z.ltb_lt _ _) H) in *. by apply NbRefused.
  - destruct (a_ret c =? 0) eqn:E2; zbool.
    + apply Htail. eapply ends_mono; [apply ends_connect_done| |done].
      intros n ev en2 (r2 & [(_ & -> & ->)|(H0 & _)]); [by apply NbImmediate|done].
    + apply Htail, ends_nonb_wait. split; [done|]. intros Hneg.
      rewrite (proj2 (Z.ltb_lt _ _) Hneg) in Hc. rewrite (proj2 (Z.ltb_lt _ _) Hneg) in E1.
      rewrite Hc in E1. cbn [andb] in E1. zbool. done.
Qed.

(** [sock_bind_wild]: the wildcard address of the family with port 0. *)
Inductive bind_run e (fd : Z) (family : Z) : Z -> list event -> Z -> Prop :=
| BrOther en (Hf : ~ known family) : bind_run e fd family (-1) [] en
| BrNoBind size a (Hs : size = if family =? AF_INET then 16%nat else 28%nat) (Hf : known family)
    (Ha : a_ret a < 0) :
    bind_run e fd family (-1) [(CBind fd (wild_addr e family size), a)] (a_err a)
| BrNoName size a b (Hs : size = if family =? AF_INET then 16%nat else 28%nat) (Hf : known family)
    (Ha : 0 <= a_ret a) (Hb : a_ret b < 0) :
    bind_run e fd family (-1) [(CBind fd (wild_addr e family size), a); (getsockname fd, b)] (a_err b)
| BrBound size a b en (Hs : size = if family =? AF_INET then 16%nat else 28%nat) (Hf : known family)
    (Ha : 0 <= a_ret a) (Hb : 0 <= a_ret b) :
    bind_run e fd family (bound_port e b)
      [(CBind fd (wild_addr e family size), a); (getsockname fd, b)] en.

Lemma ends_bind_wild e fd family w :
  ends (sock_bind_wild e fd family) (bind_run e fd family) blocked w.
Proof.
  unfold sock_bind_wild. cbv zeta.
  assert (forall size, size = (if family =? AF_INET then 16%nat else 28%nat) -> known family ->
    ends (a ← kernel (CBind fd (wild_addr e family size));
          if a_ret a <? 0 then mret (-1) else
          a ← kernel (libc "getsockname" [fd] []);
          if a_ret a <? 0 then mret (-1) else mret (bound_port e a)) (bind_run e fd family) blocked w) as H.
  { intros size Hs Hk. apply ends_kernel; [done|done|]. intros a0 w1 a Ha. fold a. fold a in Ha.
    destruct (a_ret a <? 0) eqn:Ea; zbool.
    - apply ends_ret. rewrite Ha. by apply BrNoBind.
    - apply ends_kernel; [done|done|]. intros b0 w2 b Hb. fold b. fold b in Hb.
      destruct (a_ret b <? 0) eqn:Eb; zbool; apply ends_ret.
      + rewrite Hb. by apply BrNoName.
      + by apply BrBound. }
  destruct (family =? AF_INET) eqn:E4; zbool; [apply H; [done|by left]|].
  destruct (family =? AF_INET6) eqn:E6; zbool; [apply H; [done|by right]|].
  apply ends_ret, BrOther. intros [|]; congruence.
Qed.

(** C22: [readable_timeo] and [writable_timeo] make one [select] on the
    descriptor, or write outside of the [fd_set] when it does not fit.
    [connect_timeo] sets the alarm around one [connect], closes the socket
    when it fails, turns EINTR into ETIMEDOUT and restores the handler; the
    error of [connect] survives unless [close] fails too.  [connect_nonb]
    returns 0 only when the connection is established and the flags of the
    descriptor are restored, -1 with the error of the connection, or
    ETIMEDOUT; it never fails with "sockfd not set"; on an immediate error
    and when SO_ERROR cannot be read it neither restores the flags nor
    closes the socket.  [sock_bind_wild] binds the wildcard address and
    gives the port that the kernel chose. *)
Theorem connect_functions_correct e fd sec sa family w :
  let readable := timeo_run fd (CSelect (fd + 1) {[fd]} ∅ (Some sec)) in
  let writable := timeo_run fd (CSelect (fd + 1) ∅ {[fd]} (Some sec)) in
  ends (readable_timeo fd sec) readable (out_of_set fd) w /\
  ends (writable_timeo fd sec) writable (out_of_set fd) w /\
  ends (connect_timeo fd sa sec) (connect_timeo_run fd sa sec) sig_failed w /\
  ends (connect_nonb e fd sa sec) (connect_nonb_run e fd sa sec) (nonb_halt fd) w /\
  ends (sock_bind_wild e fd family) (bind_run e fd family) blocked w /\
  ends (Readable_timeo fd sec) (fun n evs en => 0 <= n /\ readable n evs en)
    (fun h evs => out_of_set fd h evs \/ loud readable h evs) w /\
  ends (Writable_timeo fd sec) (fun n evs en => 0 <= n /\ writable n evs en)
    (fun h evs => out_of_set fd h evs \/ loud writable h evs) w /\
  runs (Connect_timeo fd sa sec)
    (fun _ evs => exists n en, 0 <= n /\ connect_timeo_run fd sa sec n evs en)
    (fun h evs => sig_failed h evs \/ loud (connect_timeo_run fd sa sec) h evs) w /\
  ends (Sock_bind_wild e fd family) (fun n evs en => 0 <= n /\ bind_run e fd family n evs en)
    (loud (bind_run e fd family)) w /\
  runs (Family_to_level family)
    (fun n evs => evs = [] /\ (family = AF_INET /\ n = IPPROTO_IP \/ family = AF_INET6 /\ n = IPPROTO_IPV6))
    (fun h evs => h = Exited 1 /\ only is_report evs /\ ~ known family) w.
Proof.
  intros readable writable.
  assert (ends (readable_timeo fd sec) readable (out_of_set fd) w) as Hr
    by by apply (ends_timeo fd (fun s => CSelect (fd + 1) s ∅ (Some sec))).
  assert (ends (writable_timeo fd sec) writable (out_of_set fd) w) as Hw
    by by apply (ends_timeo fd (fun s => CSelect (fd + 1) ∅ s (Some sec))).
  split; [exact Hr|]. split; [exact Hw|]. split; [apply ends_connect_timeo|].
  split; [apply ends_connect_nonb|]. split; [apply ends_bind_wild|].
  split; [by apply or_err_sys_gen|]. split; [by apply or_err_sys_gen|]. split; [|split].
  - rewrite <- ends_runs. apply ends_bind. eapply ends_mono; [apply or_err_sys_gen, ends_connect_timeo| |done].
    intros n evs en [Hn HP] w' _. apply ends_ret. rewrite app_nil_r. by exists n, en.
  - apply or_err_sys_loud, ends_bind_wild.
  - unfold Family_to_level, family_to_level.
    destruct (family =? AF_INET) eqn:E4; zbool; [apply runs_ret; auto|].
    destruct (family =? AF_INET6) eqn:E6; zbool; [apply runs_ret; auto|].
    apply runs_err_sys. intros rep Hrep. split; [done|]. split; [done|]. intros [|]; congruence.
Qed.
