(* ===== verification/NonBlock.v ===== *)
(** * The non-blocking client

    [str_cli] of nonblock/strclinonb.c: two buffers with their pointers, one
    [select] loop over non-blocking descriptors.  The specification is a
    relay of two byte queues; every run of the client is shown to be a run of
    the relay.  The debugging output under VOL2 is not compiled in. *)

From S2P Require Import Prelude Unix ErrorLib Wrap TcpEcho.

(** ** nonblock/strclinonb.c *)

Definition F_GETFL : Z := 3.
Definition F_SETFL : Z := 4.
Definition O_NONBLOCK : Z := 2048.

(** The locals of [str_cli]: the arrays [to] and [fr], and the four pointers
    as offsets into them. *)
Record nonb := Nonb {
  to : list Z; toiptr : Z; tooptr : Z;
  fr : list Z; friptr : Z; froptr : Z;
  stdineof : bool
}.

Definition nonb_init (to fr : list Z) : nonb := Nonb to 0 0 fr 0 0 false.

Definition set_nonblock (fd : Z) : M unit :=
  val ← Fcntl fd F_GETFL 0;
  Fcntl fd F_SETFL (Z.lor val O_NONBLOCK) ;;
  mret ().

(** The descriptor sets built before [select]. *)
Definition nonb_rset (sockfd : Z) (st : nonb) : M (gset Z) :=
  rset ← (if negb (stdineof st) && (toiptr st <? MAXLINE) then fd_set STDIN_FILENO ∅ else mret ∅);
  if friptr st <? MAXLINE then fd_set sockfd rset else mret rset.
Definition nonb_wset (sockfd : Z) (st : nonb) : M (gset Z) :=
  wset ← (if negb (tooptr st =? toiptr st) then fd_set sockfd ∅ else mret ∅);
  if negb (froptr st =? friptr st) then fd_set STDOUT_FILENO wset else mret wset.

(** [if (errno != EWOULDBLOCK) err_sys(text);] *)
Definition unless_block {A} (text : list Z) (m : M A) : M A :=
  e ← get_errno;
  if negb (e =? EWOULDBLOCK) then err_sys text else m.

Definition nonb_stdin (sockfd : Z) (rset wset : gset Z) (st : nonb) : M (nonb * gset Z) :=
  if fd_isset STDIN_FILENO rset then
    a ← kernel (CRead STDIN_FILENO (MAXLINE - toiptr st));
    let n := a_ret a in
    if n <? 0 then unless_block (chars "read error on stdin") (mret (st, wset))
    else if n =? 0 then
      let st' := Nonb (to st) (toiptr st) (tooptr st) (fr st) (friptr st) (froptr st) true in
      (if tooptr st =? toiptr st then Shutdown sockfd SHUT_WR else mret ()) ;;
      mret (st', wset)
    else
      buf ← or_undef (poke (Z.to_nat (toiptr st)) (a_data a) (to st));
      wset' ← fd_set sockfd wset;
      mret (Nonb buf (toiptr st + n) (tooptr st) (fr st) (friptr st) (froptr st) (stdineof st), wset')
  else mret (st, wset).

(** [inr] is the normal termination of [str_cli]. *)
Definition nonb_socket (sockfd : Z) (rset wset : gset Z) (st : nonb) : M (nonb * gset Z + unit) :=
  if fd_isset sockfd rset then
    a ← kernel (CRead sockfd (MAXLINE - friptr st));
    let n := a_ret a in
    if n <? 0 then unless_block (chars "read error on socket") (mret (inl (st, wset)))
    else if n =? 0 then
      if stdineof st then mret (inr ())
      else err_quit (chars "str_cli: server terminated prematurely")
    else
      buf ← or_undef (poke (Z.to_nat (friptr st)) (a_data a) (fr st));
      wset' ← fd_set STDOUT_FILENO wset;
      mret (inl (Nonb (to st) (toiptr st) (tooptr st) buf (friptr st + n) (froptr st) (stdineof st), wset'))
  else mret (inl (st, wset)).

(** The bytes between two pointers of a buffer. *)
Definition between (a b : Z) (buf : list Z) : list Z :=
  take (Z.to_nat (b - a)) (drop (Z.to_nat a) buf).

Definition nonb_stdout (wset : gset Z) (st : nonb) : M nonb :=
  if fd_isset STDOUT_FILENO wset && (0 <? friptr st - froptr st) then
    a ← kernel (CWrite STDOUT_FILENO (between (froptr st) (friptr st) (fr st)));
    let nwritten := a_ret a in
    if nwritten <? 0 then unless_block (chars "write error to stdout") (mret st)
    else
      let fro := froptr st + nwritten in
      if fro =? friptr st
      then mret (Nonb (to st) (toiptr st) (tooptr st) (fr st) 0 0 (stdineof st))
      else mret (Nonb (to st) (toiptr st) (tooptr st) (fr st) (friptr st) fro (stdineof st))
  else mret st.

Definition nonb_send (sockfd : Z) (wset : gset Z) (st : nonb) : M nonb :=
  if fd_isset sockfd wset && (0 <? toiptr st - tooptr st) then
    a ← kernel (CWrite sockfd (between (tooptr st) (toiptr st) (to st)));
    let nwritten := a_ret a in
    if nwritten <? 0 then unless_block (chars "write error to socket") (mret st)
    else
      let too := tooptr st + nwritten in
      if too =? toiptr st then
        (if stdineof st then Shutdown sockfd SHUT_WR else mret ()) ;;
        mret (Nonb (to st) 0 0 (fr st) (friptr st) (froptr st) (stdineof st))
      else mret (Nonb (to st) (toiptr st) too (fr st) (friptr st) (froptr st) (stdineof st))
  else mret st.

Definition strclinonb_body (sockfd : Z) (st : nonb) : M (nonb + unit) :=
  rset ← nonb_rset sockfd st;
  wset ← nonb_wset sockfd st;
  sel ← Select (Z.max (Z.max STDIN_FILENO STDOUT_FILENO) sockfd + 1) rset wset None;
  let rset := list_to_set (a_data sel) in
  '(st, wset) ← nonb_stdin sockfd rset (list_to_set (a_wdata sel)) st;
  r ← nonb_socket sockfd rset wset st;
  match r with
  | inr _ => mret (inr ())
  | inl (st, wset) =>
      st ← nonb_stdout wset st;
      st ← nonb_send sockfd wset st;
      mret (inl st)
  end.

(** [to0] and [fr0] are the arrays before anything has been stored. *)
Definition strclinonb (sockfd : Z) (to0 fr0 : list Z) : M unit :=
  set_nonblock sockfd ;;
  set_nonblock STDIN_FILENO ;;
  set_nonblock STDOUT_FILENO ;;
  loop (strclinonb_body sockfd) (nonb_init to0 fr0).

(** ** The specification: a relay of two queues *)

(** The bytes on their way to the server and to the terminal, what has ended,
    and whether the sending direction has been closed. *)
Record relay_state := Rq { outq : list Z; inq : list Z; eof : bool; peer_eof : bool; fin : bool }.
Definition relay_init : relay_state := Rq [] [] false false false.

Definition nonempty (l : list Z) : bool := match l with [] => false | _ => true end.

(** A read delivers as many bytes as it returns, none when it fails. *)
Definition delivered (a : answer) : bool := Z.max 0 (a_ret a) =? Z.of_nat (length (a_data a)).

(** What the relay may do next. *)
Definition relay_step (sockfd : Z) (q : relay_state) (ev : event) : option relay_state :=
  let '(c, a) := ev in
  match c with
  | CFcntl _ _ _ | CFflush _ | CStderr _ | CSyslog _ _ => Some q
  | CSelect _ r w _ =>
      if bool_decide (STDIN_FILENO ∈ r -> eof q = false) &&
         Bool.eqb (bool_decide (sockfd ∈ w)) (nonempty (outq q)) &&
         Bool.eqb (bool_decide (STDOUT_FILENO ∈ w)) (nonempty (inq q)) &&
         (bool_decide (sockfd ∈ r) || nonempty (inq q))
      then Some q else None
  | CRead fd n =>
      if fd =? STDIN_FILENO then
        if negb (eof q) && (0 <? n) && (n + Z.of_nat (length (outq q)) <=? MAXLINE) && delivered a then
          if a_ret a <? 0 then Some q
          else if a_ret a =? 0 then Some (Rq (outq q) (inq q) true (peer_eof q) (fin q))
          else Some (Rq (outq q ++ a_data a) (inq q) (eof q) (peer_eof q) (fin q))
        else None
      else if fd =? sockfd then
        if negb (peer_eof q) && (0 <? n) && (n + Z.of_nat (length (inq q)) <=? MAXLINE) && delivered a then
          if a_ret a <? 0 then Some q
          else if a_ret a =? 0 then Some (Rq (outq q) (inq q) (eof q) true (fin q))
          else Some (Rq (outq q) (inq q ++ a_data a) (eof q) (peer_eof q) (fin q))
        else None
      else None
  | CWrite fd d =>
      if fd =? STDOUT_FILENO then
        if bool_decide (d = inq q) && nonempty d then
          Some (Rq (outq q) (drop (Z.to_nat (a_ret a)) (inq q)) (eof q) (peer_eof q) (fin q))
        else None
      else if fd =? sockfd then
        if bool_decide (d = outq q) && nonempty d && negb (fin q) then
          Some (Rq (drop (Z.to_nat (a_ret a)) (outq q)) (inq q) (eof q) (peer_eof q) (fin q))
        else None
      else None
  | CShutdown fd how =>
      if (fd =? sockfd) && (how =? SHUT_WR) && eof q && negb (nonempty (outq q)) && negb (fin q) then
        Some (Rq (outq q) (inq q) (eof q) (peer_eof q) (if a_ret a <? 0 then fin q else true))
      else None
  | _ => None
  end.

Fixpoint relay (sockfd : Z) (q : relay_state) (evs : list event) : option relay_state :=
  match evs with
  | [] => Some q
  | ev :: evs' => q' ← relay_step sockfd q ev; relay sockfd q' evs'
  end.

(** ** Buffers between two pointers *)

Lemma length_between a b buf :
  0 <= a <= b -> b <= Z.of_nat (length buf) -> Z.of_nat (length (between a b buf)) = b - a.
Proof. intros. unfold between. rewrite length_take, length_drop. lia. Qed.

Lemma between_empty a buf : between a a buf = [].
Proof. unfold between. by rewrite Z.sub_diag. Qed.

Lemma nonempty_between a b buf :
  0 <= a <= b -> b <= Z.of_nat (length buf) -> nonempty (between a b buf) = negb (a =? b).
Proof.
  intros H1 H2. pose proof (length_between a b buf H1 H2) as Hl.
  destruct (between a b buf) as [|x l]; simpl in *; destruct (a =? b) eqn:E; zbool; done || lia.
Qed.

Lemma between_drop a b n buf :
  0 <= a -> 0 <= n -> a + n <= b -> between (a + n) b buf = drop (Z.to_nat n) (between a b buf).
Proof.
  intros. unfold between. rewrite skipn_firstn_comm, drop_drop. f_equal; [lia|f_equal; lia].
Qed.

Lemma between_poke a b buf d :
  0 <= a <= b -> b + Z.of_nat (length d) <= Z.of_nat (length buf) ->
  exists buf', poke (Z.to_nat b) d buf = Some buf' /\ length buf' = length buf /\
    between a (b + Z.of_nat (length d)) buf' = between a b buf ++ d.
Proof.
  intros H1 H2. rewrite poke_ok by lia. eexists. split; [reflexivity|].
  split; [rewrite !length_app, length_take, length_drop; lia|]. unfold between.
  rewrite drop_app_le by (rewrite length_take; lia). rewrite take_app_ge.
  2: { rewrite length_drop, length_take. lia. }
  rewrite length_drop, length_take. rewrite skipn_firstn_comm. f_equal; [f_equal; lia|].
  rewrite take_app_le by lia. apply take_ge. lia.
Qed.

(** ** The simulation *)

Record rep (st : nonb) (q : relay_state) : Prop := Rep {
  r_out : outq q = between (tooptr st) (toiptr st) (to st);
  r_in : inq q = between (froptr st) (friptr st) (fr st);
  r_eof : eof q = stdineof st;
  r_peer : peer_eof q = false;
  r_fin : fin q = stdineof st && (tooptr st =? toiptr st);
  r_to : 0 <= tooptr st <= toiptr st /\ toiptr st <= MAXLINE /\ length (to st) = Z.to_nat MAXLINE;
  r_fr : 0 <= froptr st <= friptr st /\ friptr st <= MAXLINE /\ length (fr st) = Z.to_nat MAXLINE;
  r_full : froptr st = friptr st -> friptr st = 0
}.

Lemma maxline_pos : 0 < MAXLINE.
Proof. done. Qed.

Lemma rep_lengths st q : rep st q ->
  Z.of_nat (length (outq q)) = toiptr st - tooptr st /\ Z.of_nat (length (inq q)) = friptr st - froptr st /\
  nonempty (outq q) = negb (tooptr st =? toiptr st) /\ nonempty (inq q) = negb (froptr st =? friptr st).
Proof.
  intros [-> -> _ _ _ (?&?&?) (?&?&?) _].
  rewrite !length_between, !nonempty_between by lia. done.
Qed.

Lemma relay_app fd q e1 e2 : relay fd q (e1 ++ e2) = q' ← relay fd q e1; relay fd q' e2.
Proof.
  revert q. induction e1 as [|ev e1 IH]; intros q; [done|]. cbn [app relay].
  destruct (relay_step fd q ev) as [q'|]; [|done]. apply IH.
Qed.

Lemma relay_reports fd q rep : only is_report rep -> relay fd q rep = Some q.
Proof.
  induction 1 as [|[c a] l Hc _ IH]; [done|]. cbn [relay].
  assert (relay_step fd q (c, a) = Some q) as -> by (destruct c; done). exact IH.
Qed.

(** How the client may end: waiting, or with a report and status 1. *)
Definition relay_halt (sockfd : Z) (q : relay_state) (h : halt) (evs : list event) : Prop :=
  (h = Blocked \/ h = Exited 1) /\
  exists q', relay sockfd q evs = Some q' /\ (peer_eof q' = true -> eof q' = false).

Section Simulation.
Context (sockfd : Z) (Hfd : 2 <= sockfd < FD_SETSIZE).

(** A phase of the loop keeps the representation. *)
Definition simulates {A} (m : M A) (K : A -> relay_state -> Prop) (q : relay_state) (w : world) : Prop :=
  runs m (fun a evs => exists q', relay sockfd q evs = Some q' /\ K a q')
    (relay_halt sockfd q) w.

Lemma relay_halt_cons q q' ev h evs :
  relay_step sockfd q ev = Some q' -> relay_halt sockfd q' h evs -> relay_halt sockfd q h (ev :: evs).
Proof.
  intros Hs [Hh (q2 & Hq & H2)]. split; [done|]. exists q2. split; [|done]. cbn [relay].
  by rewrite Hs.
Qed.

Lemma relay_halt_blocked q : peer_eof q = false -> relay_halt sockfd q Blocked [].
Proof. intros H. split; [by left|]. exists q. split; [done|]. congruence. Qed.

Lemma relay_halt_exit q rp :
  (peer_eof q = true -> eof q = false) -> only is_report rp -> relay_halt sockfd q (Exited 1) rp.
Proof. intros H Hr. split; [by right|]. exists q. split; [|done]. by apply relay_reports. Qed.

Lemma runs_unless_block {A} text (m : M A) Q q w :
  peer_eof q = false -> runs m Q (relay_halt sockfd q) w ->
  runs (unless_block text m) Q (relay_halt sockfd q) w.
Proof.
  intros Hp Hm. apply runs_get_errno. destruct (negb _); [|done].
  apply runs_err_sys. intros. apply relay_halt_exit; [congruence|done].
Qed.

(** One call of the client that is a step of the relay. *)
Lemma simulates_call {A} c (f : answer -> M A) K q w :
  is_output c = false -> peer_eof q = false ->
  (forall a0, let a := normalise c a0 in exists q', relay_step sockfd q (c, a) = Some q' /\
     forall w', simulates (f a) K q' w') ->
  simulates (kernel c ≫= f) K q w.
Proof.
  intros Hc Hp Hf. apply runs_call; [done|by apply relay_halt_blocked|].
  intros a0 w' a _. destruct (Hf a0) as (q' & Hs & Hm). fold a in Hs, Hm.
  eapply runs_mono; [apply Hm| |].
  - intros x evs (q2 & Hq & Hr). exists q2. cbn [relay]. by rewrite Hs.
  - intros h evs. by apply relay_halt_cons.
Qed.

Lemma simulates_ret {A} (a : A) K q w : K a q -> simulates (mret a) K q w.
Proof. intros Hr. apply runs_ret. by exists q. Qed.

Lemma simulates_shutdown {A} (m : M A) K q w :
  eof q = true -> outq q = [] -> fin q = false -> peer_eof q = false ->
  (forall w', simulates m K (Rq (outq q) (inq q) (eof q) (peer_eof q) true) w') ->
  simulates (Shutdown sockfd SHUT_WR ;; m) K q w.
Proof.
  intros He Ho Hf Hp Hm.
  assert (forall a, relay_step sockfd q (CShutdown sockfd SHUT_WR, a)
    = Some (Rq (outq q) (inq q) (eof q) (peer_eof q) (if a_ret a <? 0 then fin q else true))) as Hs.
  { intros a. cbn [relay_step]. rewrite Z.eqb_refl, He, Ho, Hf. done. }
  eapply runs_wraps; [apply Shutdown_wraps|by apply relay_halt_blocked| |].
  - intros a rp Hbad Hrp. eapply relay_halt_cons; [apply Hs|].
    apply relay_halt_exit; [cbn; congruence|done].
  - intros a w' Hgood. set (x := normalise _ a). fold x in Hgood.
    assert (relay_step sockfd q (CShutdown sockfd SHUT_WR, x)
      = Some (Rq (outq q) (inq q) (eof q) (peer_eof q) true)) as Hx.
    { rewrite Hs. unfold succeeded in Hgood. by replace (a_ret x <? 0) with false by lia. }
    eapply runs_mono; [apply Hm| |].
    + intros b evs (q2 & Hq & Hr). exists q2. cbn [relay]. by rewrite Hx.
    + intros h evs. by apply relay_halt_cons.
Qed.

Lemma normalise_read_data fd n a0 :
  0 <= n -> let a := normalise (CRead fd n) a0 in
  delivered a = true /\ (a_ret a = -1 \/ a_ret a = Z.of_nat (length (a_data a)) /\ a_ret a <= n).
Proof.
  intros Hn a. unfold delivered. rewrite Z.eqb_eq.
  destruct (normalise_read fd n a0 Hn) as [[H1 H2]|(H1 & H2 & _)];
    fold a in H1, H2.
  - split; [|by left]. rewrite H1, H2. done.
  - split; [lia|]. right. lia.
Qed.

Lemma simulates_stdin rset wset st q w :
  rep st q -> (STDIN_FILENO ∈ rset -> stdineof st = false /\ toiptr st < MAXLINE) ->
  simulates (nonb_stdin sockfd rset wset st)
    (fun r q' => rep (fst r) q' /\ friptr (fst r) = friptr st) q w.
Proof.
  intros Hr Hset. pose proof (rep_lengths st q Hr) as (Lo & Li & No & Ni).
  pose proof Hr as [Ro Ri Re Rp Rf Rto Rfr Rfu]. unfold nonb_stdin, fd_isset.
  case_bool_decide as Hin; [|by apply simulates_ret]. destruct (Hset Hin) as [He Hlt].
  apply simulates_call; [done|done|]. intros a0 a.
  destruct (normalise_read_data STDIN_FILENO (MAXLINE - toiptr st) a0) as [Hd [Ha|[Ha Hle]]]; [lia|..];
    fold a in Ha, Hd; try (fold a in Hle).
  all: cbn [relay_step]; rewrite Re, He; cbn [negb andb Z.eqb STDIN_FILENO];
    rewrite (proj2 (Z.ltb_lt 0 _)), (proj2 (Z.leb_le _ _)) by lia; rewrite Hd; cbn [andb].
  - rewrite Ha. cbn [Z.ltb Z.compare]. exists q. split; [done|]. intros w'.
    apply runs_unless_block; [done|]. apply runs_ret. by exists q.
  - destruct (a_ret a <? 0) eqn:E0; zbool; [lia|]. destruct (a_ret a =? 0) eqn:E; zbool.
    + eexists. split; [reflexivity|]. intros w'. destruct (tooptr st =? toiptr st) eqn:Eq; zbool.
      * assert (outq q = []) as Eo by (rewrite Ro, Eq; apply between_empty).
        apply simulates_shutdown; cbn [eof outq fin peer_eof inq]; try done; [by rewrite Rf, He|].
        intros w2. apply simulates_ret. cbn [fst].
        split; [|done]. constructor; cbn; try done. by rewrite Eq, Z.eqb_refl.
      * apply simulates_ret. cbn [fst]. split; [|done]. constructor; cbn; try done.
        rewrite Rf, He. by rewrite (proj2 (Z.eqb_neq _ _) Eq).
    + eexists. split; [reflexivity|]. intros w'.
      destruct (between_poke (tooptr st) (toiptr st) (to st) (a_data a)) as (buf & Hp & Hl & Hb); [lia|lia|].
      eapply runs_or_undef; [exact Hp|].
      unfold fd_set. rewrite (proj2 (Z.leb_le 0 sockfd)), (proj2 (Z.ltb_lt sockfd _)) by lia. cbn [andb].
      apply simulates_ret. cbn [fst]. split; [|done]. constructor; cbn; try done.
      * by rewrite Ha, Hb, Ro.
      * rewrite Rf, He. done.
      * rewrite Hl. lia.
Qed.

(** After the socket has been read: on, or the normal end of both sides. *)
Definition socket_post (q : relay_state) (r : nonb * gset Z + unit) (evs : list event) : Prop :=
  exists q', relay sockfd q evs = Some q' /\
    match r with
    | inl (st, _) => rep st q'
    | inr _ => eof q' = true /\ peer_eof q' = true
    end.

(** One step of the relay, then the rest. *)
Lemma runs_step {A} (m : M A) q q' ev (P : relay_state -> A -> list event -> Prop) w :
  relay_step sockfd q ev = Some q' ->
  (forall a evs, P q' a evs -> P q a (ev :: evs)) ->
  runs m (P q') (relay_halt sockfd q') w ->
  runs m (fun a evs => P q a (ev :: evs)) (fun h evs => relay_halt sockfd q h (ev :: evs)) w.
Proof.
  intros Hs HP Hm. eapply runs_mono; [exact Hm|auto|].
  intros h evs. by apply relay_halt_cons.
Qed.

Lemma socket_post_step q q' ev r evs :
  relay_step sockfd q ev = Some q' -> socket_post q' r evs -> socket_post q r (ev :: evs).
Proof. intros Hs (q2 & Hq & H). exists q2. split; [|done]. cbn [relay]. by rewrite Hs. Qed.

Lemma runs_socket rset wset st q w :
  rep st q -> (sockfd ∈ rset -> friptr st < MAXLINE) ->
  runs (nonb_socket sockfd rset wset st) (socket_post q) (relay_halt sockfd q) w.
Proof.
  intros Hr Hset. pose proof (rep_lengths st q Hr) as (Lo & Li & No & Ni).
  pose proof Hr as [Ro Ri Re Rp Rf Rto Rfr Rfu]. unfold nonb_socket, fd_isset.
  case_bool_decide as Hin; [|apply runs_ret; by exists q]. specialize (Hset Hin).
  apply runs_call; [done|by apply relay_halt_blocked|]. intros a0 w' a _.
  destruct (normalise_read_data sockfd (MAXLINE - friptr st) a0) as [Hd Hcase]; [lia|].
  fold a in Hd, Hcase.
  set (ev := (CRead sockfd (MAXLINE - friptr st), a)).
  assert (relay_step sockfd q ev =
    if a_ret a <? 0 then Some q
    else if a_ret a =? 0 then Some (Rq (outq q) (inq q) (eof q) true (fin q))
    else Some (Rq (outq q) (inq q ++ a_data a) (eof q) (peer_eof q) (fin q))) as Hs.
  { cbn [relay_step ev]. unfold STDIN_FILENO. replace (sockfd =? 0) with false by lia.
    rewrite Z.eqb_refl, Rp. cbn [negb andb].
    rewrite (proj2 (Z.ltb_lt 0 _)), (proj2 (Z.leb_le _ _)) by lia. rewrite Hd. done. }
  destruct Hcase as [Ha|[Ha Hle]].
  - rewrite Ha in Hs |- *. cbn [Z.ltb Z.compare] in Hs |- *.
    eapply runs_step; [exact Hs|intros ? ?; by apply socket_post_step|].
    apply runs_unless_block; [done|]. apply runs_ret. by exists q.
  - destruct (a_ret a <? 0) eqn:E0; zbool; [lia|]. destruct (a_ret a =? 0) eqn:E; zbool.
    + eapply runs_step; [exact Hs|intros ? ?; by apply socket_post_step|].
      destruct (stdineof st) eqn:Ee.
      * apply runs_ret. eexists. split; [done|]. by cbn.
      * apply runs_err_quit. intros rp Hrp. apply relay_halt_exit; [|done]. cbn. congruence.
    + eapply runs_step; [exact Hs|intros ? ?; by apply socket_post_step|].
      destruct (between_poke (froptr st) (friptr st) (fr st) (a_data a)) as (buf & Hp & Hl & Hb); [lia|lia|].
      eapply runs_or_undef; [exact Hp|]. change (fd_set STDOUT_FILENO wset) with (mret ({[STDOUT_FILENO]} ∪ wset) : M (gset Z)).
      apply runs_ret. eexists. split; [done|]. constructor; cbn; try done.
      * by rewrite Ha, Hb, Ri.
      * rewrite Hl. lia.
      * lia.
Qed.

Lemma simulates_stdout wset st q w :
  rep st q -> simulates (nonb_stdout wset st) rep q w.
Proof.
  intros Hr. pose proof (rep_lengths st q Hr) as (Lo & Li & No & Ni).
  pose proof Hr as [Ro Ri Re Rp Rf Rto Rfr Rfu]. unfold nonb_stdout.
  destruct (fd_isset _ wset && (0 <? friptr st - froptr st)) eqn:E; [|by apply simulates_ret]. zbool.
  rewrite <- Ri. apply simulates_call; [done|done|]. intros a0 a.
  pose proof (normalise_write STDOUT_FILENO (inq q) a0) as Ha. fold a in Ha.
  cbn [relay_step]. rewrite Z.eqb_refl, bool_decide_eq_true_2 by done.
  rewrite Ni. replace (froptr st =? friptr st) with false by lia. cbn [negb andb].
  eexists. split; [reflexivity|]. intros w'. destruct (a_ret a <? 0) eqn:E0; zbool.
  - destruct Ha as [Ha|Ha]; [|lia]. rewrite Ha. change (Z.to_nat (-1)) with 0%nat. rewrite drop_0.
    apply runs_unless_block; [done|]. apply simulates_ret. by destruct q.
  - destruct Ha as [Ha|Ha]; [lia|].
    destruct (froptr st + a_ret a =? friptr st) eqn:Eq; zbool; apply simulates_ret;
      constructor; cbn; try done; try lia.
    + rewrite between_empty. apply drop_ge. lia.
    + rewrite Ri. by rewrite between_drop by lia.
Qed.

Lemma simulates_send wset st q w :
  rep st q -> simulates (nonb_send sockfd wset st) rep q w.
Proof.
  intros Hr. pose proof (rep_lengths st q Hr) as (Lo & Li & No & Ni).
  pose proof Hr as [Ro Ri Re Rp Rf Rto Rfr Rfu]. unfold nonb_send.
  destruct (fd_isset _ wset && (0 <? toiptr st - tooptr st)) eqn:E; [|by apply simulates_ret]. zbool.
  assert ((tooptr st =? toiptr st) = false) as Ene by lia.
  rewrite Ene, andb_false_r in Rf.
  rewrite <- Ro. apply simulates_call; [done|done|]. intros a0 a.
  pose proof (normalise_write sockfd (outq q) a0) as Ha. fold a in Ha.
  cbn [relay_step]. unfold STDOUT_FILENO. replace (sockfd =? 1) with false by lia.
  rewrite Z.eqb_refl, bool_decide_eq_true_2 by done.
  rewrite No, Ene, Rf. cbn [negb andb].
  eexists. split; [reflexivity|]. intros w'. destruct (a_ret a <? 0) eqn:E0; zbool.
  - destruct Ha as [Ha|Ha]; [|lia]. rewrite Ha. change (Z.to_nat (-1)) with 0%nat. rewrite drop_0.
    apply runs_unless_block; [done|]. apply simulates_ret. rewrite <- Rf. by destruct q.
  - destruct Ha as [Ha|Ha]; [lia|].
    destruct (tooptr st + a_ret a =? toiptr st) eqn:Eq; zbool.
    + assert (drop (Z.to_nat (a_ret a)) (outq q) = []) as Ed by (apply drop_ge; lia).
      destruct (stdineof st) eqn:Ee.
      * apply simulates_shutdown; cbn [eof outq fin peer_eof inq]; try done.
        intros w2. apply simulates_ret. constructor; cbn; try done; try lia.
      * apply runs_bind, runs_ret. intros w2. apply simulates_ret.
        constructor; cbn; try done; try lia.
    + apply simulates_ret. constructor; cbn; try done; try lia.
      * rewrite Ro. by rewrite between_drop by lia.
Qed.

Lemma fd_set_sockfd s : fd_set sockfd s = mret ({[sockfd]} ∪ s).
Proof.
  unfold fd_set. by rewrite (proj2 (Z.leb_le 0 sockfd)), (proj2 (Z.ltb_lt sockfd _)) by lia.
Qed.
Lemma mbind_mret (x : gset Z) (f : gset Z -> M (gset Z)) : mret x ≫= f = f x.
Proof. done. Qed.

Lemma nonb_rset_spec st :
  exists rset, nonb_rset sockfd st = mret rset /\
    (STDIN_FILENO ∈ rset -> stdineof st = false /\ toiptr st < MAXLINE) /\
    (sockfd ∈ rset <-> friptr st < MAXLINE).
Proof.
  unfold nonb_rset.
  assert (fd_set STDIN_FILENO ∅ = mret ({[STDIN_FILENO]} ∪ ∅)) as H0 by done.
  assert (STDIN_FILENO <> sockfd) as N0 by (unfold STDIN_FILENO; lia).
  destruct (negb (stdineof st) && (toiptr st <? MAXLINE)) eqn:E1, (friptr st <? MAXLINE) eqn:E2;
    rewrite ?H0, mbind_mret, ?fd_set_sockfd; eexists; (split; [reflexivity|]); zbool;
    rewrite ?elem_of_union, ?elem_of_singleton, ?elem_of_empty; (split; [|split]);
    intuition (congruence || lia).
Qed.

Lemma nonb_wset_spec st :
  exists wset, nonb_wset sockfd st = mret wset /\
    (sockfd ∈ wset <-> tooptr st <> toiptr st) /\ (STDOUT_FILENO ∈ wset <-> froptr st <> friptr st).
Proof.
  unfold nonb_wset.
  assert (forall s, fd_set STDOUT_FILENO s = mret ({[STDOUT_FILENO]} ∪ s)) as H1 by done.
  assert (STDOUT_FILENO <> sockfd) as N1 by (unfold STDOUT_FILENO; lia).
  destruct (negb (tooptr st =? toiptr st)) eqn:E3, (negb (froptr st =? friptr st)) eqn:E4;
    rewrite ?fd_set_sockfd, mbind_mret, ?H1; eexists; (split; [reflexivity|]); zbool;
    rewrite ?elem_of_union, ?elem_of_singleton, ?elem_of_empty; (split; split);
    intuition (congruence || lia).
Qed.

Lemma relay_halt_app q e q1 h ev :
  relay sockfd q e = Some q1 -> relay_halt sockfd q1 h ev -> relay_halt sockfd q h (e ++ ev).
Proof.
  intros He [Hh (q2 & Hq & H2)]. split; [done|]. exists q2. by rewrite relay_app, He.
Qed.

(** Composition of phases. *)
Lemma simulates_bind {A B} (m : M A) (f : A -> M B) K K' q w :
  simulates m K q w -> (forall a q1 w1, K a q1 -> simulates (f a) K' q1 w1) ->
  simulates (m ≫= f) K' q w.
Proof.
  intros Hm Hf. apply runs_bind. eapply runs_mono; [exact Hm| |done].
  intros a e (q1 & He & HK) w1. eapply runs_mono; [by apply Hf| |].
  - intros b ev (q2 & Hq & HK'). exists q2. split; [|done]. by rewrite relay_app, He.
  - intros h ev. by apply relay_halt_app.
Qed.

Definition body_post (r : nonb + unit) (q' : relay_state) : Prop :=
  match r with inl st' => rep st' q' | inr _ => eof q' = true /\ peer_eof q' = true end.

Lemma simulates_tail rset wset st q w :
  rep st q -> (STDIN_FILENO ∈ rset -> stdineof st = false /\ toiptr st < MAXLINE) ->
  (sockfd ∈ rset -> friptr st < MAXLINE) ->
  simulates ('(st, wset) ← nonb_stdin sockfd rset wset st;
        r ← nonb_socket sockfd rset wset st;
        match r with
        | inr _ => mret (inr ())
        | inl (st, wset) =>
            st ← nonb_stdout wset st;
            st ← nonb_send sockfd wset st;
            mret (inl st)
        end) body_post q w.
Proof.
  intros Hr H0 H1. eapply simulates_bind; [by apply simulates_stdin|].
  intros [st1 wset1] q1 w1 [Hr1 Hf]. cbn [fst] in *.
  eapply (simulates_bind _ _ (fun r q' => match r with
    | inl (st, _) => rep st q' | inr _ => eof q' = true /\ peer_eof q' = true end));
    [apply runs_socket; [done|rewrite Hf; auto]|].
  intros [[st2 wset2]|[]] q2 w2 Hr2; [|by apply simulates_ret].
  eapply simulates_bind; [by apply simulates_stdout|]. intros st3 q3 w3 Hr3.
  eapply simulates_bind; [by apply simulates_send|]. intros st4 q4 w4 Hr4.
  by apply simulates_ret.
Qed.

Lemma runs_body st q w :
  rep st q ->
  runs (strclinonb_body sockfd st)
    (fun r evs => (0 < waits evs)%nat /\ exists q', relay sockfd q evs = Some q' /\ body_post r q')
    (relay_halt sockfd q) w.
Proof.
  intros Hr. pose proof (rep_lengths st q Hr) as (Lo & Li & No & Ni).
  pose proof Hr as [Ro Ri Re Rp Rf Rto Rfr Rfu].
  destruct (nonb_rset_spec st) as (rset & Er & Hr0 & Hr1).
  destruct (nonb_wset_spec st) as (wset & Ew & Hw0 & Hw1).
  unfold strclinonb_body. rewrite Er. change (mret rset ≫= ?f) with (f rset). cbn beta.
  rewrite Ew. change (mret wset ≫= ?f) with (f wset). cbn beta.
  set (maxfdp1 := _ + 1).
  assert (forall a, relay_step sockfd q (CSelect maxfdp1 rset wset None, a) = Some q) as Hs.
  { intros a. cbn [relay_step]. rewrite No, Ni, Re.
    rewrite (bool_decide_eq_true_2 (STDIN_FILENO ∈ rset -> _)) by tauto.
    replace (bool_decide (sockfd ∈ wset)) with (negb (tooptr st =? toiptr st))
      by (case_bool_decide as Hin; rewrite Hw0 in Hin; lia).
    replace (bool_decide (STDOUT_FILENO ∈ wset)) with (negb (froptr st =? friptr st))
      by (case_bool_decide as Hin; rewrite Hw1 in Hin; lia).
    rewrite !Bool.eqb_reflx. cbn [andb].
    assert (bool_decide (sockfd ∈ rset) || negb (froptr st =? friptr st) = true) as ->; [|done].
    apply orb_true_iff. rewrite bool_decide_eq_true, Hr1, negb_true_iff, Z.eqb_neq.
    pose proof maxline_pos. lia. }
  eapply runs_wraps; [apply Select_wraps|by apply relay_halt_blocked| |].
  - intros a rp _ Hrp. eapply relay_halt_cons; [apply Hs|]. by apply relay_halt_exit; [congruence|].
  - intros a0 w' _. set (a := normalise _ a0).
    eapply runs_mono; [apply (simulates_tail _ _ st q _ Hr)| |].
    + intros Hin. apply elem_of_list_to_set in Hin. apply Hr0.
      unfold id, a, normalise in Hin. destruct (a_ret a0 <? 0); [by inversion Hin|].
      cbn [a_data] in Hin. by apply elem_of_in_set in Hin as [? _].
    + intros Hin. apply elem_of_list_to_set in Hin. apply Hr1.
      unfold id, a, normalise in Hin. destruct (a_ret a0 <? 0); [by inversion Hin|].
      cbn [a_data] in Hin. by apply elem_of_in_set in Hin as [? _].
    + intros r evs (q' & Hq & HK). split; [cbn; lia|]. exists q'. split; [|done].
      cbn [relay]. by rewrite Hs.
    + intros h evs. apply relay_halt_cons, Hs.
Qed.

Lemma simulates_set_nonblock fd q w :
  peer_eof q = false -> simulates (set_nonblock fd) (fun _ q' => q' = q) q w.
Proof.
  intros Hp. unfold set_nonblock.
  assert (forall cmd arg a, relay_step sockfd q (CFcntl fd cmd arg, a) = Some q) as Hs by done.
  eapply runs_wraps; [apply Fcntl_wraps|by apply relay_halt_blocked| |].
  - intros a rp _ Hrp. eapply relay_halt_cons; [apply Hs|]. by apply relay_halt_exit; [congruence|].
  - intros a w1 _. eapply runs_wraps; [apply Fcntl_wraps| | |].
    + eapply relay_halt_cons; [apply Hs|]. by apply relay_halt_blocked.
    + intros b rp _ Hrp. do 2 (eapply relay_halt_cons; [apply Hs|]).
      by apply relay_halt_exit; [congruence|].
    + intros b w2 _. apply runs_ret. exists q. cbn [relay]. by rewrite !Hs.
Qed.

Lemma simulates_loop st q w :
  rep st q ->
  simulates (loop (strclinonb_body sockfd) st) (fun _ q' => eof q' = true /\ peer_eof q' = true) q w.
Proof.
  intros Hr. apply (runs_loop _ (fun st' evs => exists q', relay sockfd q evs = Some q' /\ rep st' q')).
  { by exists q. }
  intros st' evs w' (q' & Hq & Hr'). eapply runs_mono; [by apply (runs_body st' q')| |].
  - intros [st2|[]] e [Hw (q2 & Hq2 & HK)]; [split; [done|]|]; exists q2; rewrite relay_app, Hq; done.
  - intros h e. by apply relay_halt_app.
Qed.
End Simulation.

(** ** What the relay promises *)

(** Nothing is lost or invented: what has been read is what has been written
    followed by what is still queued, in both directions. *)
Lemma relay_step_conserves sockfd q ev q' :
  2 <= sockfd -> relay_step sockfd q ev = Some q' ->
  outq q ++ received STDIN_FILENO [ev] = sent sockfd [ev] ++ outq q' /\
  inq q ++ received sockfd [ev] = sent STDOUT_FILENO [ev] ++ inq q'.
Proof.
  intros Hfd. destruct ev as [c a].
  assert (STDIN_FILENO <> sockfd /\ STDOUT_FILENO <> sockfd /\ STDIN_FILENO <> STDOUT_FILENO)
    as (N0 & N1 & N2) by (unfold STDIN_FILENO, STDOUT_FILENO; lia).
  destruct c; try discriminate; cbn [relay_step received sent]; intros H;
    try (by simplify_eq; rewrite ?app_nil_r).
  - destruct (fd =? STDIN_FILENO) eqn:E0; zbool.
    + subst fd. replace (STDIN_FILENO =? sockfd) with false by lia. rewrite !app_nil_r.
      case_match eqn:E; [|done]. zbool. unfold delivered in *. zbool.
      destruct (a_ret a <? 0) eqn:Ea; zbool; [|destruct (a_ret a =? 0) eqn:Ez; zbool];
        simplify_eq/=; try done;
        (destruct (a_data a); [by rewrite app_nil_r|simpl in *; lia]).
    + destruct (fd =? sockfd) eqn:E1; [|done]. zbool. subst fd. rewrite !app_nil_r.
      case_match eqn:E; [|done]. zbool. unfold delivered in *. zbool.
      destruct (a_ret a <? 0) eqn:Ea; zbool; [|destruct (a_ret a =? 0) eqn:Ez; zbool];
        simplify_eq/=; try done;
        (destruct (a_data a); [by rewrite app_nil_r|simpl in *; lia]).
  - destruct (fd =? STDOUT_FILENO) eqn:E0; zbool.
    + subst fd. replace (STDOUT_FILENO =? sockfd) with false by lia.
      case_match eqn:E; [|done]. zbool. simplify_eq/=. rewrite !app_nil_r.
      split; [done|]. apply bool_decide_eq_true in H0 as ->. by rewrite take_drop.
    + destruct (fd =? sockfd) eqn:E1; [|done]. zbool. subst fd.
      case_match eqn:E; [|done]. zbool. simplify_eq/=. rewrite !app_nil_r.
      split; [|done]. apply bool_decide_eq_true in H0 as ->. by rewrite take_drop.
  - case_match; [|done]. simplify_eq/=. by rewrite !app_nil_r.
  - case_match; [|done]. simplify_eq/=. by rewrite !app_nil_r.
Qed.

Lemma relay_conserves sockfd q evs q' :
  2 <= sockfd -> relay sockfd q evs = Some q' ->
  outq q ++ received STDIN_FILENO evs = sent sockfd evs ++ outq q' /\
  inq q ++ received sockfd evs = sent STDOUT_FILENO evs ++ inq q'.
Proof.
  intros Hfd. revert q. induction evs as [|ev evs IH]; intros q H.
  - injection H as <-. by rewrite !app_nil_r.
  - cbn [relay] in H. destruct (relay_step sockfd q ev) as [q1|] eqn:E; [|done].
    destruct (relay_step_conserves _ _ _ _ Hfd E) as [H1 H2]. destruct (IH q1 H) as [H3 H4].
    change (ev :: evs) with ([ev] ++ evs). rewrite !received_app, !sent_app.
    by rewrite !app_assoc, H1, H2, <- !app_assoc, H3, H4.
Qed.

Lemma rep_init to0 fr0 :
  length to0 = Z.to_nat MAXLINE -> length fr0 = Z.to_nat MAXLINE ->
  rep (nonb_init to0 fr0) relay_init.
Proof.
  intros Ht Hf. pose proof maxline_pos. constructor; cbn; rewrite ?between_empty; done || lia.
Qed.

(** C23: The non-blocking client refines the relay of two byte queues: every
    run, whatever the kernel answers, is a run of the relay, so it never
    accesses memory outside of its buffers, reads only when there is room,
    never waits in [select] without having to write or to read from the
    server, writes exactly what is queued, sends one FIN, after the end of
    the input and once everything has been sent, and sends nothing after it.
    What has been read is what has been written followed by what is queued,
    in both directions.  It returns only when both sides have ended (what is
    still queued then is lost), and otherwise waits or reports an error. *)
Theorem strclinonb_correct sockfd to0 fr0 w (Hfd : 2 <= sockfd < FD_SETSIZE)
    (Hto : length to0 = Z.to_nat MAXLINE) (Hfr : length fr0 = Z.to_nat MAXLINE) :
  let relayed evs q := relay sockfd relay_init evs = Some q /\
    received STDIN_FILENO evs = sent sockfd evs ++ outq q /\
    received sockfd evs = sent STDOUT_FILENO evs ++ inq q in
  runs (strclinonb sockfd to0 fr0)
    (fun _ evs => exists q, relayed evs q /\ eof q = true /\ peer_eof q = true)
    (fun h evs => (h = Blocked \/ h = Exited 1) /\
       exists q, relayed evs q /\ (peer_eof q = true -> eof q = false)) w.
Proof.
  intros relayed.
  eapply (runs_mono _ (fun _ evs => exists q, relay sockfd relay_init evs = Some q /\
    eof q = true /\ peer_eof q = true) _ (relay_halt sockfd relay_init)).
  2: { intros [] evs (q & Hq & H). exists q. split; [|done]. split; [done|].
       by apply (relay_conserves sockfd relay_init); [lia|]. }
  2: { intros h evs [Hh (q & Hq & H)]. split; [done|]. exists q. split; [|done]. split; [done|].
       by apply (relay_conserves sockfd relay_init); [lia|]. }
  unfold strclinonb.
  eapply (simulates_bind sockfd _ _ (fun _ q => q = relay_init)); [by apply simulates_set_nonblock|].
  intros _ ? w1 ->.
  eapply (simulates_bind sockfd _ _ (fun _ q => q = relay_init)); [by apply simulates_set_nonblock|].
  intros _ ? w2 ->.
  eapply (simulates_bind sockfd _ _ (fun _ q => q = relay_init)); [by apply simulates_set_nonblock|].
  intros _ ? w3 ->. apply simulates_loop; [done|]. by apply rep_init.
Qed.

(** A run that returns while bytes of the server are still queued: standard
    output would have blocked when the server closed the connection. *)
Definition lossy_script : list answer :=
  [ok 0; ok 0; ok 0; ok 0; ok 0; ok 0;
   data [0]; data []; ok 0;
   data [3]; data [104; 105]; err EWOULDBLOCK;
   data [3]; data []].

Definition buffer : list Z := replicate (Z.to_nat MAXLINE) 0.

Lemma strclinonb_correct_witness :
  runs (strclinonb 3 buffer buffer)
    (fun _ evs => exists q, relay 3 relay_init evs = Some q /\ eof q = true)
    (fun h evs => h = Blocked \/ h = Exited 1) (World lossy_script [] 0 0 (fun _ => [])) /\
  exists w', strclinonb 3 buffer buffer (World lossy_script [] 0 0 (fun _ => [])) = (Ret (), w') /\
    received 3 (trace w') = [104; 105] /\ sent 1 (trace w') = [].
Proof.
  split.
  - eapply runs_mono;
      [apply (strclinonb_correct 3 buffer buffer); [unfold FD_SETSIZE; lia|apply length_replicate..]| |].
    + intros [] evs (q & [Hq _] & He & _). by exists q.
    + intros h evs [Hh _]. exact Hh.
  - eexists. vm_compute. auto.
Defined.
