(* ===== verification/TimerList.v ===== *)
(** * The sorted timer list

    youshuang/ch11_timer/lst_timer.h: [sort_timer_lst], a doubly linked list
    of [util_timer] objects in ascending order of their [expire].  The
    objects live in an explicit heap from addresses to objects, 0 is the null
    pointer, a dereference of a null or freed pointer is undefined behaviour
    ([None] in the list operations, [Undefined] in [tick]); the pointers
    [prev], [next], [head] and [tail] are the code's.  [rep s l] says that the heap holds exactly
    the chain of [l], and the theorems show that the operations do on the
    chain what [ins], [filter] and so on do on the list. *)

From Stdlib Require Import Sorted.
From S2P Require Import Unix.

(** ** Objects and heap *)

Definition nullptr : Z := 0.

Record util_timer : Type := Timer {
  expire : Z;
  cb_func : Z;
  user_data : Z;
  prev : Z;
  next : Z
}.

(** [head] and [tail] with the heap in which the timers live. *)
Record sort_timer_lst : Type := Lst {
  heap : gmap Z util_timer;
  head : Z;
  tail : Z
}.

(** The constructor of [sort_timer_lst]; the constructor of [util_timer] sets
    the two pointers, and the caller the other fields. *)
Definition new_lst (h : gmap Z util_timer) : sort_timer_lst := Lst h nullptr nullptr.
Definition new_timer (e cb ud : Z) : util_timer := Timer e cb ud nullptr nullptr.

Definition deref (s : sort_timer_lst) (a : Z) : option util_timer :=
  if a =? nullptr then None else heap s !! a.

Definition with_next (v : Z) (t : util_timer) : util_timer :=
  Timer (expire t) (cb_func t) (user_data t) (prev t) v.
Definition with_prev (v : Z) (t : util_timer) : util_timer :=
  Timer (expire t) (cb_func t) (user_data t) v (next t).
Definition with_expire (v : Z) (t : util_timer) : util_timer :=
  Timer v (cb_func t) (user_data t) (prev t) (next t).

(** The assignments [a->next = v], [a->prev = v], [a->expire = v],
    [head = v], [tail = v], and [delete a] ([delete] of a null pointer does
    nothing, of anything that is not allocated is undefined). *)
Definition assign (f : util_timer -> util_timer) (a : Z) (s : sort_timer_lst) :
    option sort_timer_lst :=
  t ← deref s a; Some (Lst (<[a := f t]> (heap s)) (head s) (tail s)).
Definition set_next (a v : Z) := assign (with_next v) a.
Definition set_prev (a v : Z) := assign (with_prev v) a.
Definition set_expire (a v : Z) := assign (with_expire v) a.
Definition set_head (v : Z) (s : sort_timer_lst) : sort_timer_lst := Lst (heap s) v (tail s).
Definition set_tail (v : Z) (s : sort_timer_lst) : sort_timer_lst := Lst (heap s) (head s) v.
Definition free (a : Z) (s : sort_timer_lst) : option sort_timer_lst :=
  if a =? nullptr then Some s
  else match heap s !! a with
       | Some _ => Some (Lst (delete a (heap s)) (head s) (tail s))
       | None => None
       end.

(** Enough for a walk over any chain of the heap. *)
Definition walk_fuel (s : sort_timer_lst) : nat := S (size (heap s)).

(** ** [add_timer] *)

(** The walk of the private [add_timer]; it returns [prev] and [tmp]. *)
Fixpoint add_walk (fuel : nat) (timer prev tmp : Z) (s : sort_timer_lst) :
    option (Z * Z * sort_timer_lst) :=
  match fuel with
  | O => None
  | S f =>
      if tmp =? nullptr then Some (prev, tmp, s)
      else
        t ← deref s timer;
        n ← deref s tmp;
        if expire t <? expire n then
          s ← set_next prev timer s;
          s ← set_next timer tmp s;
          s ← set_prev tmp timer s;
          s ← set_prev timer prev s;
          Some (prev, tmp, s)
        else add_walk f timer tmp (next n) s
  end.

Definition add_timer_from (timer lst_head : Z) (s : sort_timer_lst) : option sort_timer_lst :=
  p ← deref s lst_head;
  '(prev, tmp, s) ← add_walk (walk_fuel s) timer lst_head (next p) s;
  if tmp =? nullptr then
    s ← set_next prev timer s;
    s ← set_prev timer prev s;
    s ← set_next timer nullptr s;
    Some (set_tail timer s)
  else Some s.

Definition add_timer (timer : Z) (s : sort_timer_lst) : option sort_timer_lst :=
  if timer =? nullptr then Some s
  else if head s =? nullptr then Some (set_tail timer (set_head timer s))
  else
    t ← deref s timer;
    h ← deref s (head s);
    if expire t <? expire h then
      s ← set_next timer (head s) s;
      s ← set_prev (head s) timer s;
      Some (set_head timer s)
    else add_timer_from timer (head s) s.

(** ** [adjust_timer] and [del_timer] *)

Definition adjust_timer (timer : Z) (s : sort_timer_lst) : option sort_timer_lst :=
  if timer =? nullptr then Some s
  else
    t ← deref s timer;
    let tmp := next t in
    if tmp =? nullptr then Some s
    else
      n ← deref s tmp;
      if expire t <? expire n then Some s
      else if timer =? head s then
        h ← deref s (head s);
        let s := set_head (next h) s in
        s ← set_prev (head s) nullptr s;
        s ← set_next timer nullptr s;
        add_timer_from timer (head s) s
      else
        t ← deref s timer;
        s ← set_next (prev t) (next t) s;
        t ← deref s timer;
        s ← set_prev (next t) (prev t) s;
        t ← deref s timer;
        add_timer_from timer (next t) s.

Definition del_timer (timer : Z) (s : sort_timer_lst) : option sort_timer_lst :=
  if timer =? nullptr then Some s
  else if (timer =? head s) && (timer =? tail s) then
    s ← free timer s;
    Some (set_tail nullptr (set_head nullptr s))
  else if timer =? head s then
    h ← deref s (head s);
    let s := set_head (next h) s in
    s ← set_prev (head s) nullptr s;
    free timer s
  else if timer =? tail s then
    e ← deref s (tail s);
    let s := set_tail (prev e) s in
    s ← set_next (tail s) nullptr s;
    free timer s
  else
    t ← deref s timer;
    s ← set_next (prev t) (next t) s;
    t ← deref s timer;
    s ← set_prev (next t) (prev t) s;
    free timer s.

(** ** The destructor *)

Fixpoint destroy_walk (fuel : nat) (tmp : Z) (s : sort_timer_lst) : option sort_timer_lst :=
  match fuel with
  | O => None
  | S f =>
      if tmp =? nullptr then Some s
      else
        t ← deref s tmp;
        let s := set_head (next t) s in
        s ← free tmp s;
        destroy_walk f (head s) s
  end.

Definition destroy (s : sort_timer_lst) : option sort_timer_lst :=
  destroy_walk (walk_fuel s) (head s) s.

(** ** [tick] *)

Section Tick.
(** What a callback does when it is called with its [user_data]; it has no
    access to the list, as the callbacks of the repository. *)
Variable callback : Z -> Z -> M unit.

Fixpoint tick_walk (fuel : nat) (cur tmp : Z) (s : sort_timer_lst) : M sort_timer_lst :=
  match fuel with
  | O => halted NoFuel
  | S f =>
      if tmp =? nullptr then mret s
      else
        t ← or_undef (deref s tmp);
        if cur <? expire t then mret s
        else
          callback (cb_func t) (user_data t);;
          let s := set_head (next t) s in
          s ← or_undef (if head s =? nullptr then Some s
                        else set_prev (head s) nullptr s);
          s ← or_undef (free tmp s);
          tick_walk f cur (head s) s
  end.

Definition tick (s : sort_timer_lst) : M sort_timer_lst :=
  if head s =? nullptr then mret s
  else
    output (CStdout (chars "timer tick." ++ [10]));;
    a ← kernel (CLibc "time" [] []);
    tick_walk (walk_fuel s) (a_ret a) (head s) s.
End Tick.

(** ** The list that the heap represents *)

Record task : Type := Task { due : Z; job : Z; arg : Z }.
Notation entry := (Z * task)%type.
Definition node (t : task) (p n : Z) : util_timer := Timer (due t) (job t) (arg t) p n.

Definition first_of (l : list entry) (q : Z) : Z :=
  match l with [] => q | (a, _) :: _ => a end.
Fixpoint last_of (p : Z) (l : list entry) : Z :=
  match l with [] => p | (a, _) :: l' => last_of a l' end.

(** The chain of [l], from the predecessor [p] to the successor [q]. *)
Fixpoint dseg (h : gmap Z util_timer) (p : Z) (l : list entry) (q : Z) : Prop :=
  match l with
  | [] => True
  | (a, t) :: l' => h !! a = Some (node t p (first_of l' q)) /\ dseg h a l' q
  end.

(** [tail] means nothing when the list is empty: [tick] leaves it dangling. *)
Definition rep (s : sort_timer_lst) (l : list entry) : Prop :=
  NoDup (l.*1) /\ (nullptr ∉ (l.*1)) /\ head s = first_of l nullptr /\
  (l <> [] -> tail s = last_of nullptr l) /\ dseg (heap s) nullptr l nullptr.

(** Only the cells at [X] may differ. *)
Definition same_outside (X : list Z) (s s' : sort_timer_lst) : Prop :=
  forall b, (b ∉ X) -> heap s' !! b = heap s !! b.

(** ** The abstract list: insertion behind the timers that are not later *)

Fixpoint ins (x : entry) (l : list entry) : list entry :=
  match l with
  | [] => [x]
  | y :: l' => if due x.2 <? due y.2 then x :: y :: l' else y :: ins x l'
  end.

Definition earlier (x y : entry) : Prop := due x.2 <= due y.2.
Definition ascending (l : list entry) : Prop := StronglySorted earlier l.
Definition timers (s : sort_timer_lst) (l : list entry) : Prop := rep s l /\ ascending l.
Definition expired (cur : Z) (x : entry) : Prop := due x.2 <= cur.
#[export] Instance expired_dec cur x : Decision (expired cur x).
Proof. unfold expired. apply _. Defined.

(** ** Chains *)

Lemma first_of_app l1 l2 q : first_of (l1 ++ l2) q = first_of l1 (first_of l2 q).
Proof. by destruct l1 as [|[a t] l1]. Qed.
Lemma last_of_app p l1 l2 : last_of p (l1 ++ l2) = last_of (last_of p l1) l2.
Proof. revert p. induction l1 as [|[a t] l1 IH]; intros p; [done|]. apply IH. Qed.

Lemma last_of_in p l : last_of p l ∈ p :: l.*1.
Proof.
  revert p. induction l as [|[a t] l IH]; intros p; [by left|]. right. apply IH.
Qed.
Lemma last_of_not a p l : a <> p -> (a ∉ l.*1) -> a <> last_of p l.
Proof.
  intros Hp Ha E. pose proof (last_of_in p l) as Hin. rewrite <- E in Hin.
  by apply elem_of_cons in Hin as [?|?].
Qed.
Lemma first_of_not a l q : a <> q -> (a ∉ l.*1) -> a <> first_of l q.
Proof.
  intros Hq Ha. destruct l as [|[b u] l]; [done|]. cbn [fmap list_fmap fst] in Ha.
  by apply not_elem_of_cons in Ha as [? _].
Qed.
Lemma first_of_not_null l : l <> [] -> (nullptr ∉ l.*1) -> first_of l nullptr <> nullptr.
Proof.
  intros Hl H0. destruct l as [|[b u] l]; [done|]. cbn [fmap list_fmap fst first_of] in *.
  apply not_elem_of_cons in H0 as [? _]. congruence.
Qed.

Lemma dseg_app h p l1 l2 q :
  dseg h p (l1 ++ l2) q <->
  dseg h p l1 (first_of l2 q) /\ dseg h (last_of p l1) l2 q.
Proof.
  revert p. induction l1 as [|[a t] l1 IH]; intros p; [simpl; tauto|].
  cbn [app dseg last_of]. rewrite first_of_app, IH. tauto.
Qed.

Lemma dseg_insert h a x p l q :
  (a ∉ l.*1) -> dseg h p l q -> dseg (<[a := x]> h) p l q.
Proof.
  revert p. induction l as [|[b t] l IH]; intros p Ha Hd; [done|].
  cbn [dseg fmap list_fmap fst] in *. rewrite not_elem_of_cons in Ha.
  destruct Hd as [Hb Hd]. rewrite lookup_insert_ne by (intros ->; tauto). intuition.
Qed.

Lemma dseg_delete h a p l q :
  (a ∉ l.*1) -> dseg h p l q -> dseg (delete a h) p l q.
Proof.
  revert p. induction l as [|[b t] l IH]; intros p Ha Hd; [done|].
  cbn [dseg fmap list_fmap fst] in *. rewrite not_elem_of_cons in Ha.
  destruct Hd as [Hb Hd]. rewrite lookup_delete_ne by (intros ->; tauto). intuition.
Qed.

Lemma dseg_ext h h' p l q :
  (forall a, a ∈ l.*1 -> h' !! a = h !! a) -> dseg h p l q -> dseg h' p l q.
Proof.
  revert p. induction l as [|[b t] l IH]; intros p He Hd; [done|].
  cbn [dseg] in *. destruct Hd as [Hb Hd].
  rewrite He by set_solver. split; [done|]. apply IH; [|done].
  intros a Ha. apply He. set_solver.
Qed.

(** The part of [rep] that is about the cells. *)
Definition chain (s : sort_timer_lst) (l : list entry) : Prop :=
  NoDup (l.*1) /\ (nullptr ∉ (l.*1)) /\ dseg (heap s) nullptr l nullptr.

Lemma rep_chain s l :
  rep s l <-> chain s l /\ head s = first_of l nullptr /\ (l <> [] -> tail s = last_of nullptr l).
Proof. unfold rep, chain. tauto. Qed.

Lemma dseg_lookup h p l q a : dseg h p l q -> a ∈ l.*1 -> exists x, h !! a = Some x.
Proof.
  revert p. induction l as [|[b t] l IH]; intros p Hd Ha; [set_solver|].
  cbn [dseg fmap list_fmap fst] in *. destruct Hd as [Hb Hd].
  apply elem_of_cons in Ha as [->|Ha]; eauto.
Qed.

(** A chain is no longer than the heap is large: [walk_fuel] is enough. *)
Lemma chain_fuel s l : chain s l -> (length l < walk_fuel s)%nat.
Proof.
  intros (Hn & _ & Hd). unfold walk_fuel.
  assert (Hs : list_to_set (l.*1) ⊆ dom (heap s)).
  { intros a Ha. apply elem_of_list_to_set in Ha. apply elem_of_dom.
    by eapply dseg_lookup. }
  apply subseteq_size in Hs. rewrite size_list_to_set, length_fmap, size_dom in Hs by done. lia.
Qed.

(** ** Dereferences that are defined *)

Lemma deref_ok s a x : a <> nullptr -> heap s !! a = Some x -> deref s a = Some x.
Proof. intros Ha Hx. unfold deref. rewrite (proj2 (Z.eqb_neq _ _)) by done. done. Qed.

Lemma assign_ok f s a x :
  a <> nullptr -> heap s !! a = Some x ->
  assign f a s = Some (Lst (<[a := f x]> (heap s)) (head s) (tail s)).
Proof. intros. unfold assign. erewrite deref_ok by done. done. Qed.

Lemma free_ok s a x :
  a <> nullptr -> heap s !! a = Some x ->
  free a s = Some (Lst (delete a (heap s)) (head s) (tail s)).
Proof. intros Ha Hx. unfold free. rewrite (proj2 (Z.eqb_neq _ _)) by done. by rewrite Hx. Qed.

(** Runs one assignment, dereference or [delete] of the operation. *)
Ltac cell :=
  match goal with
  | |- context [deref ?s ?a] =>
      erewrite (deref_ok s a) by (first [done | simpl; simplify_map_eq; done])
  | |- context [set_next ?a ?v ?s] => unfold set_next
  | |- context [set_prev ?a ?v ?s] => unfold set_prev
  | |- context [assign ?f ?a ?s] =>
      erewrite (assign_ok f s a) by (first [done | simpl; simplify_map_eq; done])
  | |- context [free ?a ?s] =>
      erewrite (free_ok s a) by (first [done | simpl; simplify_map_eq; done])
  end; cbn [mbind option_bind heap head tail set_head set_tail].

(** Proves a [dseg] of a list given by its parts from those of the parts. *)
Ltac seg :=
  rewrite <- ?app_assoc; cbn [app];
  repeat match goal with
  | |- dseg _ _ (_ ++ _) _ => apply dseg_app; split
  | |- _ /\ _ => split
  | |- dseg _ _ (_ :: _) _ => cbn [dseg first_of last_of]
  | |- dseg _ _ [] _ => done
  | H : dseg ?h ?p ?l ?q |- dseg ?h ?p ?l ?q => exact H
  | |- dseg (<[_ := _]> _) _ _ _ => apply dseg_insert
  | |- dseg (delete _ _) _ _ _ => apply dseg_delete
  | |- _ ∉ _ => solve [eauto with congruence]
  | |- _ !! _ = _ => solve [simplify_map_eq; reflexivity]
  end.

Lemma nodup_mid (l1 l2 : list entry) (a : Z) (t : task) :
  NoDup ((l1 ++ (a, t) :: l2).*1) <->
  (a ∉ l1.*1) /\ (a ∉ l2.*1) /\ NoDup ((l1 ++ l2).*1).
Proof.
  rewrite !fmap_app. cbn [fmap list_fmap fst].
  rewrite <- Permutation_middle, NoDup_cons, elem_of_app. tauto.
Qed.

Lemma not_in_app (a : Z) (l1 l2 : list entry) :
  (a ∉ (l1 ++ l2).*1) <-> (a ∉ l1.*1) /\ (a ∉ l2.*1).
Proof. rewrite fmap_app, elem_of_app. tauto. Qed.
Lemma not_in_cons (a b : Z) (t : task) (l : list entry) :
  (a ∉ ((b, t) :: l).*1) <-> a <> b /\ (a ∉ l.*1).
Proof. cbn [fmap list_fmap fst]. rewrite not_elem_of_cons. done. Qed.
Lemma not_in_nil (a : Z) : a ∉ ([] : list entry).*1.
Proof. cbn. apply not_elem_of_nil. Qed.
#[local] Hint Resolve not_in_nil : core.

(** Breaks the facts about the addresses of a list into those of its parts. *)
Ltac parts :=
  repeat match goal with
  | H : _ /\ _ |- _ => destruct H
  | H : True |- _ => clear H
  | H : _ ∉ [].*1 |- _ => clear H
  | H : context [(_ ++ _) ++ _] |- _ => rewrite <- app_assoc in H; cbn [app] in H
  | H : _ ∉ _ :: _ |- _ => apply not_elem_of_cons in H
  | H : NoDup ((_ ++ (_, _) :: _).*1) |- _ => apply nodup_mid in H
  | H : NoDup (((_, _) :: ?l).*1) |- _ => apply (nodup_mid [] l) in H; cbn [app] in H
  | H : _ ∉ (_ ++ _).*1 |- _ => apply not_in_app in H
  | H : _ ∉ ((_, _) :: _).*1 |- _ => apply not_in_cons in H
  | H : dseg _ _ (_ ++ _) _ |- _ => apply dseg_app in H
  | H : dseg _ _ (_ :: _) _ |- _ => cbn [dseg] in H
  end; cbn [first_of last_of] in *.

(** The converse, for goals. *)
Ltac addrs :=
  rewrite <- ?app_assoc; cbn [app];
  repeat match goal with
  | |- _ /\ _ => split
  | |- NoDup ((_ ++ (_, _) :: _).*1) => apply nodup_mid
  | |- NoDup (((_, _) :: ?l).*1) => apply (nodup_mid [] l); cbn [app]
  | |- _ ∉ (_ ++ _).*1 => apply not_in_app
  | |- _ ∉ ((_, _) :: _).*1 => apply not_in_cons
  | |- _ ∉ [].*1 => apply not_in_nil
  | |- _ ∉ _ :: _ => apply not_elem_of_cons
  | |- _ <> _ => congruence
  | |- _ => assumption
  end.

(** The cells that are not listed are as they were. *)
Ltac outside :=
  let x := fresh "x" in let Hx := fresh "Hx" in
  intros x Hx; parts; cbn [heap set_head set_tail];
  repeat first [rewrite lookup_insert_ne by congruence | rewrite lookup_delete_ne by congruence];
  try reflexivity.

(** A list is empty or has a last element. *)
Lemma list_last (l : list entry) : l = [] \/ exists l' b u, l = l' ++ [(b, u)].
Proof. destruct l as [|[b u] l' _] using rev_ind; [by left|right; eauto]. Qed.

Lemma ins_app x l1 l2 :
  Forall (fun y => due y.2 <= due x.2) l1 -> ins x (l1 ++ l2) = l1 ++ ins x l2.
Proof.
  induction 1 as [|y l1 Hy _ IH]; [done|]. cbn [app ins].
  destruct (due x.2 <? due y.2) eqn:E; [lia|]. by rewrite IH.
Qed.

(** Linking a timer between the last element [b] of a list and [c]. *)
Lemma add_walk_spec fuel s l1 l2 a t p0 n0 :
  chain s (l1 ++ l2) -> l1 <> [] -> (a ∉ (l1 ++ l2).*1) -> a <> nullptr ->
  heap s !! a = Some (node t p0 n0) -> (length l2 < fuel)%nat ->
  exists pr tm s', add_walk fuel a (last_of nullptr l1) (first_of l2 nullptr) s = Some (pr, tm, s') /\
    (tm = nullptr /\ s' = s /\ pr = last_of nullptr (l1 ++ l2) /\ ins (a, t) l2 = l2 ++ [(a, t)] \/
     tm <> nullptr /\ head s' = head s /\ tail s' = tail s /\
     dseg (heap s') nullptr (l1 ++ ins (a, t) l2) nullptr /\
     last_of nullptr (l1 ++ ins (a, t) l2) = last_of nullptr (l1 ++ l2) /\
     same_outside (a :: (l1 ++ l2).*1) s s').
Proof.
  intros Hc Hl Ha Ha0 Hat. revert fuel l1 Hc Hl Ha.
  induction l2 as [|[c v] l2 IH]; intros fuel l1 Hc Hl Ha Hf; destruct fuel as [|f]; try (simpl in Hf; lia).
  - cbn [add_walk first_of]. rewrite Z.eqb_refl.
    exists (last_of nullptr l1), nullptr, s. split; [done|]. left. by rewrite app_nil_r.
  - cbn [add_walk first_of]. pose proof Hc as (Hn & H0 & Hd). parts.
    rewrite (proj2 (Z.eqb_neq c nullptr)) by congruence.
    repeat cell. cbn [node expire due].
    cbn [ins]. cbn [snd]. destruct (due t <? due v) eqn:E.
    + destruct (list_last l1) as [->|(l1' & b & u & ->)]; [done|].
      rewrite last_of_app in *. cbn [last_of] in *. parts.
      repeat cell. eexists _, _, _. split; [done|right].
      cbn [heap head tail]. split; [congruence|]. split; [done|]. split; [done|].
      split; [by seg|split; [by rewrite !last_of_app|by outside]].
    + specialize (IH f (l1 ++ [(c, v)])). rewrite last_of_app in IH. cbn [last_of node next] in *.
      rewrite <- !app_assoc in IH. cbn [app] in IH.
      destruct IH as (pr & tm & s' & -> & HP); [done|by destruct l1| |simpl in Hf; lia|].
      { apply not_in_app. split; [done|]. by apply not_in_cons. }
      exists pr, tm, s'. split; [done|].
      destruct HP as [(? & ? & ? & ->)|HP]; [left|right]; done.
Qed.

Lemma ins_perm x l : ins x l ≡ₚ x :: l.
Proof.
  induction l as [|y l IH]; [done|]. cbn [ins]. destruct (due x.2 <? due y.2); [done|].
  rewrite IH. constructor.
Qed.
Lemma ins_addresses x l : (ins x l).*1 ≡ₚ x.1 :: l.*1.
Proof. by rewrite ins_perm. Qed.

Lemma ins_rep_addresses l1 a t l2 :
  NoDup ((l1 ++ l2).*1) -> (nullptr ∉ (l1 ++ l2).*1) -> (a ∉ (l1 ++ l2).*1) -> a <> nullptr ->
  NoDup ((l1 ++ ins (a, t) l2).*1) /\ (nullptr ∉ (l1 ++ ins (a, t) l2).*1).
Proof.
  intros Hn H0 Ha Ha0. assert (Hp : (l1 ++ ins (a, t) l2).*1 ≡ₚ a :: (l1 ++ l2).*1).
  { rewrite !fmap_app, ins_addresses. cbn [fst]. by rewrite <- Permutation_middle. }
  rewrite Hp. split; [by constructor|]. rewrite not_elem_of_cons. done.
Qed.

Lemma add_timer_from_spec s l1 b u l2 a t p0 n0 :
  rep s (l1 ++ (b, u) :: l2) -> (a ∉ (l1 ++ (b, u) :: l2).*1) -> a <> nullptr ->
  heap s !! a = Some (node t p0 n0) ->
  exists s', add_timer_from a b s = Some s' /\
    rep s' (l1 ++ (b, u) :: ins (a, t) l2) /\
    same_outside (a :: (l1 ++ (b, u) :: l2).*1) s s'.
Proof.
  rewrite !rep_chain. intros (Hc & Hh & Ht) Ha Ha0 Hat.
  destruct (add_walk_spec (walk_fuel s) s (l1 ++ [(b, u)]) l2 a t p0 n0)
    as (pr & tm & s' & Hw & HP); try done; rewrite <- ?app_assoc; try done.
  { by destruct l1. }
  { apply chain_fuel in Hc. rewrite length_app in Hc. simpl in Hc. lia. }
  rewrite last_of_app in Hw. cbn [last_of] in Hw.
  pose proof Hc as (Hn & H0 & Hd).
  destruct (ins_rep_addresses (l1 ++ [(b, u)]) a t l2) as [Hn' H0'];
    rewrite <- ?app_assoc in *; try done. cbn [app] in *.
  assert (Hb : exists x, deref s b = Some x /\ next x = first_of l2 nullptr).
  { parts. eexists. split; [by apply deref_ok|done]. }
  destruct Hb as (x & Hb & Hx). unfold add_timer_from. rewrite Hb.
  cbn [mbind option_bind]. rewrite Hx, Hw. cbn [mbind option_bind].
  destruct HP as [(-> & -> & -> & Hi)|(Htm & Hh' & Ht' & Hd' & Hl & Ho)].
  - rewrite Z.eqb_refl. rewrite Hi in *. clear Hw Hb Hx Hi.
    change ((b, u) :: l2 ++ [(a, t)]) with (((b, u) :: l2) ++ [(a, t)]) in *.
    destruct (list_last ((b, u) :: l2)) as [?|(l' & z & w & Hz)]; [done|].
    rewrite Hz in *. clear Hz. rewrite <- app_assoc in *. cbn [app] in *.
    rewrite !app_assoc in *. set (L := l1 ++ l') in *. clearbody L.
    rewrite last_of_app. cbn [last_of]. pose proof Hd as Hd0. parts. repeat cell.
    eexists. split; [done|]. split; [|by outside].
    split; [by addrs|]. split; [by addrs|]. cbn [heap head tail set_head set_tail]. split_and!.
    + rewrite Hh, !first_of_app. done.
    + intros _. by rewrite last_of_app.
    + by seg.
  - rewrite (proj2 (Z.eqb_neq _ _)) by done. eexists. split; [done|]. split; [|done].
    split_and!; try done.
    + rewrite Hh', Hh, !first_of_app. done.
    + intros _. rewrite Ht', Hl. apply Ht. by destruct l1.
Qed.

(** ** The operations *)

Lemma add_timer_spec s l a t :
  rep s l -> (a ∉ l.*1) -> a <> nullptr -> heap s !! a = Some (node t nullptr nullptr) ->
  exists s', add_timer a s = Some s' /\ rep s' (ins (a, t) l) /\ same_outside (a :: l.*1) s s'.
Proof.
  intros Hr Ha Ha0 Hat. unfold add_timer. rewrite (proj2 (Z.eqb_neq a _)) by done.
  pose proof Hr as (Hn & H0 & Hh & Ht & Hd). rewrite Hh.
  destruct l as [|[b u] l].
  - rewrite Z.eqb_refl. eexists. split; [done|]. split; [|done].
    cbn [ins]. split; [by addrs|]. split; [by addrs|]. by split_and!.
  - cbn [first_of]. parts. rewrite (proj2 (Z.eqb_neq b _)) by congruence.
    repeat cell. cbn [node expire ins snd]. destruct (due t <? due u) eqn:E.
    + repeat cell. rewrite Hh. cbn [first_of]. repeat cell.
      eexists. split; [done|]. split; [|by outside].
      split; [by addrs|]. split; [by addrs|]. cbn [heap head tail set_head]. split_and!; [done|by auto|by seg].
    + destruct (add_timer_from_spec s [] b u l a t nullptr nullptr) as (s' & He & HP); try done.
      { by addrs. }
      by exists s'.
Qed.

(** The timer [a] taken out of the chain, its own cell untouched. *)
Lemma unlink_spec s l1 a t l2 :
  rep s (l1 ++ (a, t) :: l2) -> l1 <> [] -> l2 <> [] ->
  exists s1 s2,
    set_next (last_of nullptr l1) (first_of l2 nullptr) s = Some s1 /\
    deref s1 a = Some (node t (last_of nullptr l1) (first_of l2 nullptr)) /\
    set_prev (first_of l2 nullptr) (last_of nullptr l1) s1 = Some s2 /\
    rep s2 (l1 ++ l2) /\ same_outside ((l1 ++ l2).*1) s s2 /\
    heap s2 !! a = Some (node t (last_of nullptr l1) (first_of l2 nullptr)).
Proof.
  intros (Hn & H0 & Hh & Ht & Hd) Hl1 Hl2.
  destruct (list_last l1) as [->|(l1' & b & u & ->)]; [done|].
  destruct l2 as [|[c v] l2]; [done|].
  rewrite last_of_app. cbn [last_of first_of].
  specialize (Ht ltac:(by destruct l1')). rewrite !last_of_app in Ht.
  rewrite <- app_assoc, !first_of_app in Hh. cbn [app first_of last_of] in *. parts.
  repeat cell. eexists _, _. split; [done|]. repeat cell. split; [done|]. split; [done|].
  split; [|split; [by outside|by simplify_map_eq]].
  split; [by addrs|]. split; [by addrs|]. cbn [heap head tail].
  split_and!; [by rewrite Hh, <- app_assoc, first_of_app| |by seg].
  intros _. by rewrite Ht, !last_of_app.
Qed.

Lemma adjust_timer_spec s l1 a t l2 :
  rep s (l1 ++ (a, t) :: l2) ->
  exists s', adjust_timer a s = Some s' /\ rep s' (l1 ++ ins (a, t) l2) /\
    same_outside ((l1 ++ (a, t) :: l2).*1) s s'.
Proof.
  intros Hr. pose proof Hr as (Hn & H0 & Hh & Ht & Hd).
  rewrite first_of_app in Hh. cbn [first_of] in Hh. parts.
  unfold adjust_timer. rewrite (proj2 (Z.eqb_neq a _)) by congruence. repeat cell. cbn [node next].
  destruct l2 as [|[c v] l2]; [by exists s|]. parts.
  rewrite (proj2 (Z.eqb_neq c _)) by congruence. repeat cell. cbn [node expire ins snd].
  destruct (due t <? due v) eqn:E; [by exists s|].
  destruct l1 as [|[b u] l1]; cbn [first_of app last_of] in *; rewrite Hh.
  - rewrite Z.eqb_refl. specialize (Ht ltac:(done)). repeat cell. cbn [node next].
    repeat cell. match goal with |- context [add_timer_from a c ?s] => set (s2 := s) end.
    destruct (add_timer_from_spec s2 [] c v l2 a t nullptr nullptr) as (s' & Hf & Hr' & Ho').
    { subst s2. split; [by addrs|]. split; [by addrs|]. cbn [app heap head tail].
      split_and!; [done|done|by seg]. }
    { by addrs. }
    { congruence. }
    { subst s2. cbn [heap]. by simplify_map_eq. }
    exists s'. split; [done|]. split; [done|].
    intros x Hx. parts. rewrite Ho' by addrs. subst s2. cbn [heap].
    by rewrite !lookup_insert_ne by congruence.
  - parts. rewrite (proj2 (Z.eqb_neq a b)) by congruence.
    destruct (unlink_spec s ((b, u) :: l1) a t ((c, v) :: l2) Hr) as (s1 & s2 & He1 & Hd1 & He2 & Hr2 & Ho & Ha2);
      [done|done|]. cbn [last_of first_of] in *.
    cbn [node prev next]. fold (set_next (last_of b l1) c). rewrite He1. cbn [mbind option_bind].
    rewrite Hd1. cbn [mbind option_bind node prev next]. rewrite He2. cbn [mbind option_bind].
    erewrite deref_ok by (try done; congruence). cbn [mbind option_bind node next].
    destruct (add_timer_from_spec s2 ((b, u) :: l1) c v l2 a t (last_of b l1) c) as (s' & Hf & Hr' & Ho'); try done.
    { cbn [app]. by addrs. }
    exists s'. split; [done|]. split; [done|].
    intros x Hx. cbn [app] in *. parts. rewrite Ho', Ho by addrs. done.
Qed.

Lemma del_timer_spec s l1 a t l2 :
  rep s (l1 ++ (a, t) :: l2) ->
  exists s', del_timer a s = Some s' /\ rep s' (l1 ++ l2) /\ heap s' !! a = None /\
    same_outside ((l1 ++ (a, t) :: l2).*1) s s'.
Proof.
  intros Hr. pose proof Hr as (Hn & H0 & Hh & Ht & Hd).
  specialize (Ht ltac:(by destruct l1)). rewrite last_of_app in Ht.
  rewrite first_of_app in Hh. cbn [first_of last_of] in *. parts.
  unfold del_timer. rewrite (proj2 (Z.eqb_neq a _)), Hh, Ht by congruence.
  destruct (list_last l1) as [->|(l1' & b & u & ->)].
  - rewrite Z.eqb_refl. destruct l2 as [|[c v] l2]; parts; cbn [andb app].
    + rewrite Z.eqb_refl. repeat cell. eexists. split; [done|].
      split; [by split_and!; [constructor|..]|split; [by simplify_map_eq|by outside]].
    + assert (Hl : a <> last_of c l2) by by apply last_of_not.
      rewrite (proj2 (Z.eqb_neq _ _)) by done. repeat cell. cbn [node next]. repeat cell.
      eexists. split; [done|]. split; [|split; [by simplify_map_eq|by outside]].
      split; [by addrs|]. split; [by addrs|]. cbn [heap head tail]. split_and!; [done|done|by seg].
  - rewrite first_of_app, last_of_app in *. cbn [first_of last_of] in *. parts.
    rewrite (proj2 (Z.eqb_neq a (first_of _ _))) by by apply first_of_not. cbn [andb].
    destruct l2 as [|[c v] l2]; parts.
    + rewrite Z.eqb_refl. repeat cell. cbn [node prev].
      repeat cell. eexists. split; [done|]. rewrite app_nil_r.
      split; [|split; [by simplify_map_eq|by outside]].
      split; [by addrs|]. split; [by addrs|]. cbn [heap head tail].
      split_and!; [by rewrite Hh, first_of_app|by rewrite last_of_app|by seg].
    + rewrite (proj2 (Z.eqb_neq a (last_of _ _))) by by apply last_of_not.
      destruct (unlink_spec s (l1' ++ [(b, u)]) a t ((c, v) :: l2)) as (s1 & s2 & He1 & Hd1 & He2 & Hr2 & Ho & Ha2);
        [by rewrite <- app_assoc|by destruct l1'|done|].
      rewrite last_of_app in *. cbn [last_of first_of] in *.
      cell. cbn [node prev next]. rewrite He1. cbn [mbind option_bind].
      rewrite Hd1. cbn [mbind option_bind node prev next]. rewrite He2. cbn [mbind option_bind].
      erewrite free_ok by (try done; congruence). eexists. split; [done|].
      split; [|split; [by simplify_map_eq|]].
      * pose proof Hr2 as (? & ? & ? & ? & ?). split_and!; try done. apply dseg_delete; [by addrs|done].
      * intros x Hx. parts. cbn [heap]. rewrite lookup_delete_ne by congruence. by rewrite Ho by addrs.
Qed.

Lemma dseg_deleted h a t p l q :
  dseg h p ((a, t) :: l) q -> (a ∉ l.*1) -> dseg (delete a h) a l q.
Proof. intros [_ Hd] Ha. by apply dseg_delete. Qed.

Lemma destroy_walk_spec l : forall fuel s p,
  NoDup (l.*1) -> (nullptr ∉ l.*1) -> dseg (heap s) p l nullptr -> head s = first_of l nullptr ->
  (length l < fuel)%nat ->
  exists s', destroy_walk fuel (head s) s = Some s' /\ head s' = nullptr /\
    (forall a, a ∈ l.*1 -> heap s' !! a = None) /\ same_outside (l.*1) s s'.
Proof.
  induction l as [|[a t] l IH]; intros [|f] s p Hn H0 Hd Hh Hf; try (simpl in Hf; lia);
    cbn [destroy_walk]; rewrite Hh; cbn [first_of].
  - exists s. split_and!; [done|done|set_solver|done].
  - parts. rewrite (proj2 (Z.eqb_neq a _)) by congruence. repeat cell.
    cbn [node next]. repeat cell.
    destruct (IH f (Lst (delete a (heap s)) (first_of l nullptr) (tail s)) a) as (s' & He & Hh' & Hx & Ho);
      [done|done|by apply dseg_delete|done|simpl in Hf; lia|].
    exists s'. cbn [head] in He. split; [done|]. split; [done|]. split.
    + cbn [fmap list_fmap fst]. intros b Hb.
      destruct (decide (b = a)) as [->|Hba].
      { rewrite Ho by done. cbn [heap]. by simplify_map_eq. }
      apply Hx. by apply elem_of_cons in Hb as [?|?].
    + intros b Hb. parts. rewrite Ho by done. cbn [heap]. by rewrite lookup_delete_ne by congruence.
Qed.

Lemma destroy_spec s l :
  rep s l ->
  exists s', destroy s = Some s' /\ rep s' [] /\
    (forall a, a ∈ l.*1 -> heap s' !! a = None) /\ same_outside (l.*1) s s'.
Proof.
  intros Hr. apply rep_chain in Hr as (Hc & Hh & _). pose proof Hc as (Hn & H0 & Hd).
  destruct (destroy_walk_spec l (walk_fuel s) s nullptr) as (s' & He & Hh' & HP); try done.
  { by apply chain_fuel. }
  exists s'. split; [done|]. split; [|done]. split_and!; try done. constructor.
Qed.

(** ** [tick] *)

(** The first timer taken out of the chain and deleted; [tail] is left alone. *)
Lemma pop_spec s a t l :
  rep s ((a, t) :: l) ->
  exists s1 s2,
    (if first_of l nullptr =? nullptr then Some (set_head (first_of l nullptr) s)
     else set_prev (first_of l nullptr) nullptr (set_head (first_of l nullptr) s)) = Some s1 /\
    free a s1 = Some s2 /\ rep s2 l /\ heap s2 !! a = None /\
    same_outside (((a, t) :: l).*1) s s2.
Proof.
  intros (Hn & H0 & Hh & Ht & Hd). specialize (Ht ltac:(done)). cbn [last_of] in Ht.
  destruct l as [|[c v] l]; parts.
  - rewrite Z.eqb_refl. eexists _, _. split; [done|]. repeat cell. split; [done|].
    split; [by split_and!; [constructor|..]|split; [by simplify_map_eq|by outside]].
  - rewrite (proj2 (Z.eqb_neq c _)) by congruence. repeat cell. eexists _, _. split; [done|].
    repeat cell. split; [done|]. split; [|split; [by simplify_map_eq|by outside]].
    split; [by addrs|]. split; [by addrs|]. cbn [heap head tail]. split_and!; [done|done|by seg].
Qed.

Section TickSpec.
Variable callback : Z -> Z -> M unit.

(** The callbacks of a list of timers, in its order. *)
Fixpoint fire (l : list entry) : M unit :=
  match l with
  | [] => mret ()
  | (_, t) :: l' => callback (job t) (arg t);; fire l'
  end.

(** The timers up to the first that is not due, and the rest. *)
Fixpoint due_now (cur : Z) (l : list entry) : list entry :=
  match l with
  | [] => []
  | x :: l' => if cur <? due x.2 then [] else x :: due_now cur l'
  end.
Fixpoint due_later (cur : Z) (l : list entry) : list entry :=
  match l with
  | [] => []
  | x :: l' => if cur <? due x.2 then x :: l' else due_later cur l'
  end.

Lemma tick_walk_spec l : forall fuel s cur,
  rep s l -> (length l < fuel)%nat ->
  exists s', rep s' (due_later cur l) /\
    (forall a, a ∈ (due_now cur l).*1 -> heap s' !! a = None) /\
    same_outside (l.*1) s s' /\
    forall w, tick_walk callback fuel cur (head s) s w = (fire (due_now cur l);; mret s') w.
Proof.
  induction l as [|[a t] l IH]; intros [|f] s cur Hr Hf; try (simpl in Hf; lia);
    pose proof Hr as (Hn & H0 & Hh & Ht & Hd); cbn [tick_walk]; rewrite Hh; cbn [first_of].
  - exists s. split_and!; try done. set_solver.
  - parts. rewrite (proj2 (Z.eqb_neq a _)) by congruence.
    erewrite deref_ok by (try done; congruence). cbn [due_now due_later snd].
    destruct (cur <? due t) eqn:E.
    { exists s. split_and!; try done; [set_solver|]. intros w.
      unfold or_undef, mret, mbind, M_ret, M_bind. cbn [node expire]. by rewrite E. }
    destruct (pop_spec s a t l Hr) as (s1 & s2 & Hp & Hfr & Hr2 & Hx2 & Ho2).
    destruct (IH f s2 cur Hr2) as (s' & Hr' & Hx & Ho & He); [simpl in Hf; lia|].
    exists s'. split; [done|]. split; [|split].
    + cbn [fmap list_fmap fst]. intros b Hb. apply elem_of_cons in Hb as [->|Hb]; [|by auto].
      rewrite Ho; [done|]. by parts.
    + intros b Hb. rewrite Ho; [by apply Ho2|]. by parts.
    + intros w. cbn [fire node expire job cb_func user_data next].
      unfold or_undef, mbind, M_bind, mret, M_ret. unfold mbind, M_bind, mret, M_ret in He.
      cbn [expire node cb_func user_data next]. rewrite E.
      destruct (callback (job t) (arg t) w) as [[[]|h] w']; [|done].
      cbn [set_head head]. fold (set_head (first_of l nullptr) s). rewrite Hp, Hfr. apply He.
Qed.
End TickSpec.

(** ** Ascending lists *)

Lemma ascending_app l1 l2 :
  ascending (l1 ++ l2) <->
  ascending l1 /\ ascending l2 /\ (forall x y, x ∈ l1 -> y ∈ l2 -> earlier x y).
Proof.
  unfold ascending. induction l1 as [|x l1 IH]; cbn [app].
  - split; [intros; split_and!; [constructor|done|set_solver]|tauto].
  - split.
    + intros H. inversion H as [|? ? H1 H2]; subst. apply IH in H1 as (Ha & Hb & Hc).
      rewrite Forall_app in H2. destruct H2 as [H2 H3]. split_and!; [by constructor|done|].
      intros u v Hu Hv. apply elem_of_cons in Hu as [->|Hu]; [|by auto].
      rewrite Forall_forall in H3. by apply H3.
    + intros (H1 & H2 & H3). inversion H1 as [|? ? H4 H5]; subst. constructor.
      * apply IH. split_and!; [done|done|]. intros u v Hu Hv. apply H3; [by right|done].
      * apply Forall_app. split; [done|]. apply Forall_forall. intros v Hv. apply H3; [by left|done].
Qed.

Lemma ins_elem x y l : y ∈ ins x l <-> y = x \/ y ∈ l.
Proof.
  induction l as [|z l IH]; cbn [ins]; [set_solver|].
  destruct (due x.2 <? due z.2); rewrite ?elem_of_cons, ?IH; tauto.
Qed.

Lemma ins_ascending x l : ascending l -> ascending (ins x l).
Proof.
  unfold ascending. induction 1 as [|y l Hs IH Hy]; cbn [ins]; [by repeat constructor|].
  destruct (due x.2 <? due y.2) eqn:E.
  - constructor; [by constructor|]. constructor; [unfold earlier; lia|].
    eapply Forall_impl; [exact Hy|]. unfold earlier. intros z Hz. cbn beta in Hz. lia.
  - constructor; [done|]. apply Forall_forall. intros z Hz.
    apply ins_elem in Hz as [->|Hz]; [unfold earlier; lia|].
    rewrite Forall_forall in Hy. by apply Hy.
Qed.

Lemma ins_before x l : (forall y, y ∈ l -> due x.2 < due y.2) -> ins x l = x :: l.
Proof.
  intros H. destruct l as [|y l]; [done|]. cbn [ins].
  rewrite (proj2 (Z.ltb_lt _ _)); [done|]. apply H. by left.
Qed.

Lemma due_now_filter cur l : ascending l -> due_now cur l = filter (expired cur) l.
Proof.
  unfold ascending. induction 1 as [|y l Hs IH Hy]; [done|]. cbn [due_now].
  rewrite filter_cons. unfold expired in *. destruct (cur <? due y.2) eqn:E.
  - rewrite decide_False by lia. symmetry. apply filter_none.
    eapply Forall_impl; [exact Hy|]. unfold earlier. intros z Hz. cbn beta in Hz. lia.
  - rewrite decide_True by lia. by rewrite IH.
Qed.

Lemma due_later_filter cur l :
  ascending l -> due_later cur l = filter (fun x => ~ expired cur x) l.
Proof.
  unfold ascending. induction 1 as [|y l Hs IH Hy]; [done|]. cbn [due_later].
  rewrite filter_cons. unfold expired in *. destruct (cur <? due y.2) eqn:E.
  - rewrite decide_True by lia. f_equal. symmetry. apply filter_every.
    eapply Forall_impl; [exact Hy|]. unfold earlier. intros z Hz. cbn beta in Hz. lia.
  - rewrite decide_False by lia. by rewrite IH.
Qed.

Lemma filter_ascending (P : entry -> Prop) `{!forall x, Decision (P x)} l :
  ascending l -> ascending (filter P l).
Proof.
  unfold ascending. induction 1 as [|y l Hs IH Hy]; [constructor|]. rewrite filter_cons.
  case_decide; [|done]. constructor; [done|]. rewrite Forall_forall in *.
  intros z [_ Hz]%list_elem_of_filter. by apply Hy.
Qed.

Lemma due_later_ascending cur l : ascending l -> ascending (due_later cur l).
Proof.
  unfold ascending. induction 1 as [|y l Hs IH Hy]; cbn [due_later]; [constructor|].
  destruct (cur <? due y.2); [by constructor|done].
Qed.

(** The walk of [tick] on an ascending list. *)
Lemma tick_walk_filter callback s l cur :
  timers s l ->
  exists s', timers s' (filter (fun x => ~ expired cur x) l) /\
    (forall b, b ∈ (filter (expired cur) l).*1 -> heap s' !! b = None) /\
    same_outside (l.*1) s s' /\
    forall w, tick_walk callback (walk_fuel s) cur (head s) s w =
      (fire callback (filter (expired cur) l);; mret s') w.
Proof.
  intros [Hr Ha]. apply rep_chain in Hr as Hc. destruct Hc as (Hc & _).
  destruct (tick_walk_spec callback l (walk_fuel s) s cur Hr (chain_fuel _ _ Hc))
    as (s' & Hr' & Hx & Ho & He).
  exists s'. rewrite due_now_filter in Hx, He by done. rewrite <- due_later_filter by done.
  split; [split; [done|by apply due_later_ascending]|done].
Qed.

(** ** The list operations *)

(** The cell of a timer whose [expire] the caller has changed. *)
Definition with_due (e : Z) (t : task) : task := Task e (job t) (arg t).

Lemma set_expire_spec s l1 a t l2 e :
  rep s (l1 ++ (a, t) :: l2) ->
  exists s1, set_expire a e s = Some s1 /\ rep s1 (l1 ++ (a, with_due e t) :: l2) /\
    same_outside [a] s s1.
Proof.
  intros (Hn & H0 & Hh & Ht & Hd). rewrite first_of_app, last_of_app in *.
  unfold set_expire. parts. repeat cell. eexists. split; [done|].
  split; [|by outside].
  split; [by addrs|]. split; [by addrs|]. cbn [heap head tail]. rewrite first_of_app, last_of_app.
  split_and!; [done|intros _; apply Ht; by destruct l1|by seg].
Qed.

Lemma remove_ascending l1 x l2 : ascending (l1 ++ x :: l2) -> ascending (l1 ++ l2).
Proof.
  rewrite !ascending_app. intros (H1 & H2 & H3). inversion H2; subst.
  split_and!; [done|done|]. intros u v Hu Hv. apply H3; [done|by right].
Qed.

(** Moving a timer back from its place is inserting it anew. *)
Lemma move_ascending l1 a t l2 e :
  ascending (l1 ++ (a, t) :: l2) -> due t <= e ->
  l1 ++ ins (a, with_due e t) l2 = ins (a, with_due e t) (l1 ++ l2) /\
  ascending (l1 ++ ins (a, with_due e t) l2).
Proof.
  intros Ha Hle. assert (Hi : l1 ++ ins (a, with_due e t) l2 = ins (a, with_due e t) (l1 ++ l2)).
  { symmetry. apply ins_app, Forall_forall. intros x Hx.
    apply ascending_app in Ha as (_ & _ & H3). specialize (H3 x (a, t) Hx ltac:(by left)).
    unfold earlier in H3. cbn in *. lia. }
  split; [done|]. rewrite Hi. by eapply ins_ascending, remove_ascending.
Qed.

(** What the four operations and the destructor do to a list of timers. *)
Definition operations_refine (s : sort_timer_lst) (l : list entry) : Prop :=
  (forall a t, (a ∉ l.*1) -> a <> nullptr -> heap s !! a = Some (node t nullptr nullptr) ->
     exists s', add_timer a s = Some s' /\ timers s' (ins (a, t) l) /\
       same_outside (a :: l.*1) s s') /\
  (forall l1 a t l2 e, l = l1 ++ (a, t) :: l2 ->
     exists s1 s', set_expire a e s = Some s1 /\ adjust_timer a s1 = Some s' /\
       same_outside (l.*1) s s' /\
       (due t <= e -> timers s' (ins (a, with_due e t) (l1 ++ l2))) /\
       (e < due t -> rep s' (l1 ++ (a, with_due e t) :: l2))) /\
  (forall l1 a t l2, l = l1 ++ (a, t) :: l2 ->
     exists s', del_timer a s = Some s' /\ timers s' (l1 ++ l2) /\ heap s' !! a = None /\
       same_outside (l.*1) s s') /\
  (exists s', destroy s = Some s' /\ timers s' [] /\
     (forall a, a ∈ l.*1 -> heap s' !! a = None) /\ same_outside (l.*1) s s') /\
  add_timer nullptr s = Some s /\ adjust_timer nullptr s = Some s /\ del_timer nullptr s = Some s.

(** C24: The operations of [sort_timer_lst] on a heap that holds a well-formed
    ascending list never touch a null or freed pointer and implement the
    operations of an abstract sorted list.  [add_timer] of a fresh timer
    inserts it behind all the timers that are due no later.  [adjust_timer],
    after the caller has stored a new [expire], takes the timer out and inserts
    it at its place again, provided that the time was not moved forward: with
    an earlier time it leaves the timer where it is.  [del_timer] removes the
    timer, wherever it stands, and releases it; the destructor releases all.
    Cells that are not of the list are not changed, the null pointer is
    ignored, and the result is again a well-formed ascending list. *)
Theorem timer_operations_refine s l : timers s l -> operations_refine s l.
Proof.
  intros [Hr Ha]. unfold operations_refine. split_and!; try done.
  - intros a t Hni Ha0 Hat. destruct (add_timer_spec s l a t Hr Hni Ha0 Hat) as (s' & He & Hr' & Ho).
    exists s'. split; [done|]. split; [|done]. split; [done|]. by apply ins_ascending.
  - intros l1 a t l2 e ->. destruct (set_expire_spec s l1 a t l2 e Hr) as (s1 & He1 & Hr1 & Ho1).
    destruct (adjust_timer_spec s1 l1 a (with_due e t) l2 Hr1) as (s' & He & Hr' & Ho).
    exists s1, s'. split_and!; [done|done| | |].
    + intros x Hx. rewrite Ho; [apply Ho1|]; parts; by addrs.
    + intros Hle. destruct (move_ascending l1 a t l2 e Ha Hle) as [Hi Ha']. rewrite <- Hi. done.
    + intros Hlt. apply ascending_app in Ha as (_ & Ha2 & _).
      rewrite <- ins_before; [done|]. inversion Ha2 as [|? ? _ Hf]; subst.
      rewrite Forall_forall in Hf. intros y Hy. specialize (Hf y Hy). unfold earlier in Hf. cbn in *. lia.
  - intros l1 a t l2 ->. destruct (del_timer_spec s l1 a t l2 Hr) as (s' & He & Hr' & Hx & Ho).
    exists s'. split; [done|]. split; [|done]. split; [done|]. by eapply remove_ascending.
  - destruct (destroy_spec s l Hr) as (s' & He & Hr' & Hx & Ho). exists s'.
    split; [done|]. split; [|done]. split; [done|constructor].
Qed.

(** Three timers, inserted out of order. *)
Definition three_timers : list entry :=
  [(16, Task 10 1 5); (48, Task 20 1 7); (32, Task 20 1 6)].
Definition three_cells : sort_timer_lst :=
  Lst (list_to_map [(16, node (Task 10 1 5) 0 48); (32, node (Task 20 1 6) 48 0);
                    (48, node (Task 20 1 7) 16 32); (64, node (Task 15 1 8) 0 0)]) 16 32.

Lemma three_timers_ok : timers three_cells three_timers.
Proof.
  split; [|by repeat constructor].
  split; [by apply (bool_decide_unpack _)|]. split; [by apply (bool_decide_unpack _)|].
  split; [done|]. split; [done|]. by repeat split.
Qed.

Lemma timer_operations_refine_witness :
  timers three_cells three_timers /\ operations_refine three_cells three_timers.
Proof. split; [exact three_timers_ok|exact (timer_operations_refine _ _ three_timers_ok)]. Defined.

(** C25: [tick] on a well-formed ascending list, for a clock that answers
    [cur]: it returns after calling the callbacks of exactly the timers whose
    time has come ([expire <= cur]), each once, in the order of the list, and
    of no other; those timers are released and the others remain, a
    well-formed ascending list, also when the list has become empty and [tail]
    dangles.  On an empty list it does nothing, not even ask for the time.
    Its loop ends within the fuel of one pass over the heap. *)
Theorem tick_fires_expired callback s l w :
  timers s l ->
  (l = [] -> tick callback s w = (Ret s, w)) /\
  (l <> [] ->
     let w1 := logged w (CStdout (chars "timer tick." ++ [10])) (ok 0) (script w) in
     (script w = [] -> tick callback s w = (Halt Blocked, w1)) /\
     forall a rest, script w = a :: rest ->
       let clock := normalise (CLibc "time" [] []) a in
       let cur := a_ret clock in
       exists s',
         timers s' (filter (fun x => ~ expired cur x) l) /\
         (forall b, b ∈ (filter (expired cur) l).*1 -> heap s' !! b = None) /\
         same_outside (l.*1) s s' /\
         tick callback s w =
           (fire callback (filter (expired cur) l);; mret s')
             (logged w1 (CLibc "time" [] []) clock rest)).
Proof.
  intros Ht. pose proof Ht as [(Hn & H0 & Hh & _) _].
  split; [intros ->; unfold tick; by rewrite Hh|].
  intros Hl w1.
  assert (Et : tick callback s w =
    (a ← kernel (CLibc "time" [] []);
     tick_walk callback (walk_fuel s) (a_ret a) (head s) s) w1).
  { unfold tick. rewrite (proj2 (Z.eqb_neq (head s) _)); [done|].
    rewrite Hh. by apply first_of_not_null. }
  rewrite Et. split; [|intros a rest Hs clock cur].
  - intros Hs. unfold mbind, M_bind, kernel. cbn [script w1 logged]. by rewrite Hs.
  - destruct (tick_walk_filter callback s l cur Ht) as (s' & Ht' & Hx & Ho & He).
    exists s'. split; [done|]. split; [done|]. split; [done|].
    rewrite <- He. unfold mbind at 1, M_bind at 1, kernel. cbn [script w1 logged]. by rewrite Hs.
Qed.

Lemma tick_fires_expired_witness :
  timers three_cells three_timers /\
  exists s', timers s' [(48, Task 20 1 7); (32, Task 20 1 6)] /\ heap s' !! 16 = None.
Proof.
  split; [exact three_timers_ok|].
  destruct (tick_fires_expired (fun _ ud => output (CStdout [ud])) three_cells three_timers
    (World [ok 12] [] 0 0 (fun _ => [])) three_timers_ok) as [_ H].
  destruct (H ltac:(done)) as [_ H1]. destruct (H1 (ok 12) [] eq_refl) as (s' & Ht & Hx & _).
  exists s'. split; [exact Ht|]. apply Hx. vm_compute. left.
Defined.
