(* ===== verification/TimerServer.v ===== *)
(** * The server that closes idle connections

    youshuang/ch11_timer/code_11_3.cpp: one process, [epoll], and one timer of
    [sort_timer_lst] per connection, which is moved back by 15 seconds
    whenever the connection sends data.  A connection is known by its index in
    [users]; a timer's [user_data] points to the entry [users[fd]], which the
    model writes as the index [fd].  The book of deadlines is the abstract
    state: the theorem ties the timer list, the heap and [users] to it. *)

From stdpp Require Import sorting.
From S2P Require Import InetPton Unix TcpEcho NonBlock TimerList.

Definition FD_LIMIT : Z := 65535.
Definition MAX_EVENT_NUMBER : Z := 1024.
Definition TIMESLOT : Z := 5.
Definition BUFFER_SIZE : Z := 64.
Definition EPOLLIN : Z := 1.
Definition EPOLLET : Z := 2 ^ 31.
Definition EPOLL_CTL_ADD : Z := 1.
Definition EPOLL_CTL_DEL : Z := 2.
Definition SIGALRM : Z := 14.
Definition SIGTERM : Z := 15.
Definition PF_UNIX : Z := 1.

(** The function pointer [cb_func] of this program. *)
Definition CB_FUNC : Z := 1.
(** The global [epollfd], which [main]'s local variable of the same name hides. *)
Definition global_epollfd : Z := 0.

Record client_data : Type := Client {
  address : list Z;
  sockfd : Z;
  buf : list Z;
  timer : Z
}.

(** [users] with the entries that have been initialised; [timeout] is set and
    reset, but never read. *)
Record server : Type := Server {
  timer_lst : sort_timer_lst;
  users : gmap Z client_data;
  stop_server : bool;
  timeout : bool
}.

Definition with_lst (l : sort_timer_lst) (s : server) : server :=
  Server l (users s) (stop_server s) (timeout s).
Definition with_user (fd : Z) (c : client_data) (s : server) : server :=
  Server (timer_lst s) (<[fd := c]> (users s)) (stop_server s) (timeout s).
Definition with_stop (b : bool) (s : server) : server :=
  Server (timer_lst s) (users s) b (timeout s).
Definition with_timeout (b : bool) (s : server) : server :=
  Server (timer_lst s) (users s) (stop_server s) b.

(** [assert]: the process aborts. *)
Definition assert (b : bool) : M unit :=
  if b then mret () else halted (Killed SIGABRT).
Definition printf (l : list Z) : M unit := output (CStdout l).

(** ** epoll, signals and memory *)

Definition setnonblocking (fd : Z) : M Z :=
  old_option ← ret_of (CFcntl fd F_GETFL 0);
  let new_option := Z.lor old_option O_NONBLOCK in
  kernel (CFcntl fd F_SETFL new_option);;
  mret old_option.

Definition epoll_ctl (epfd op fd events : Z) : call :=
  CLibc "epoll_ctl" [epfd; op; fd; events] [].
Definition addfd (epollfd fd : Z) : M unit :=
  kernel (epoll_ctl epollfd EPOLL_CTL_ADD fd (Z.lor EPOLLIN EPOLLET));;
  setnonblocking fd;;
  mret ().

(** [epoll_wait] answers with pairs of a descriptor and its events, at most
    [MAX_EVENT_NUMBER], and returns their number. *)
Fixpoint pairs (l : list Z) : list (Z * Z) :=
  match l with
  | fd :: ev :: l' => (fd, ev) :: pairs l'
  | _ => []
  end.
Definition ready (a : answer) : list (Z * Z) :=
  if a_ret a <? 0 then [] else take (Z.to_nat MAX_EVENT_NUMBER) (pairs (a_data a)).
Definition epoll_wait (epfd : Z) : call := CLibc "epoll_wait" [epfd; MAX_EVENT_NUMBER; -1] [].

(** The handler writes the signal's number into the pipe, and the main loop
    reads it there: the signals that arrive are the bytes that [recv] delivers. *)
Definition sig_handler (pipefd1 sig : Z) : M unit :=
  save_errno ← get_errno;
  kernel (CSendto pipefd1 [u8 sig] []);;
  set_errno save_errno.
Definition addsig (sig : Z) : M unit :=
  r ← ret_of (CLibc "sigaction" [sig] []);
  assert (negb (r =? -1)).

(** [new util_timer] with the fields set by the caller: the allocator answers
    with an address that is not in use; when it fails, the exception
    [bad_alloc] ends the process. *)
Definition new_address (h : gmap Z util_timer) (a : Z) : Z :=
  if (a =? nullptr) || bool_decide (is_Some (h !! a))
  then fresh (dom h ∪ {[nullptr]}) else a.
Definition new_util_timer (s : sort_timer_lst) : M Z :=
  a ← ret_of (CLibc "new" [] []);
  if a <? 0 then halted (Killed SIGABRT) else mret (new_address (heap s) a).
Definition put_timer (a : Z) (t : util_timer) (s : sort_timer_lst) : sort_timer_lst :=
  Lst (<[a := t]> (heap s)) (head s) (tail s).

(** ** The callback and [timer_handler] *)

Definition cb_func (user_data : client_data) : M unit :=
  kernel (epoll_ctl global_epollfd EPOLL_CTL_DEL (sockfd user_data) 0);;
  kernel (CClose (sockfd user_data));;
  printf (chars "close fd " ++ fmt_d (sockfd user_data) ++ [10]).

(** The call through the pointer [cb_func] of a timer with its [user_data]. *)
Definition call_cb (users : gmap Z client_data) (f ud : Z) : M unit :=
  if f =? CB_FUNC then c ← or_undef (users !! ud); cb_func c else undefined.

Definition timer_handler (s : server) : M server :=
  l ← tick (call_cb (users s)) (timer_lst s);
  kernel (CAlarm TIMESLOT);;
  mret (with_lst l s).

(** ** The three kinds of events *)

Definition in_users (fd : Z) : bool := (0 <=? fd) && (fd <? FD_LIMIT).

Definition new_connection (listenfd epollfd : Z) (s : server) : M server :=
  a ← kernel (CAccept listenfd);
  let connfd := a_ret a in
  addfd epollfd connfd;;
  if in_users connfd then
    p ← new_util_timer (timer_lst s);
    cur ← ret_of (CLibc "time" [] []);
    let t := Timer (cur + 3 * TIMESLOT) CB_FUNC connfd nullptr nullptr in
    let old := default [] (buf <$> users s !! connfd) in
    l ← or_undef (add_timer p (put_timer p t (timer_lst s)));
    mret (with_lst l (with_user connfd (Client (a_data a) connfd old p) s))
  else undefined.

Definition signal_byte (s : server) (c : Z) : server :=
  if c =? SIGALRM then with_timeout true s
  else if c =? SIGTERM then with_stop true s else s.
Definition read_signals (pipefd0 : Z) (s : server) : M server :=
  a ← kernel (CRecvfrom pipefd0 1024 0);
  if a_ret a =? -1 then mret s
  else if a_ret a =? 0 then mret s
  else mret (fold_left signal_byte (a_data a) s).

Definition got_message (ret : Z) (buf : list Z) (fd : Z) : list Z :=
  chars "got " ++ fmt_d ret ++ chars " bytes of client data: " ++ c_string buf ++
  chars " from " ++ fmt_d fd ++ [10].
Definition pad (n : Z) (l : list Z) : list Z :=
  l ++ replicate (Z.to_nat n - length l) 0.

(** A connection that has ended: closed, and its timer deleted. *)
Definition close_and_delete (u : client_data) (s : server) : M server :=
  cb_func u;;
  if negb (timer u =? nullptr) then
    l ← or_undef (del_timer (timer u) (timer_lst s)); mret (with_lst l s)
  else mret s.

(** A connection that has sent data: its timer is moved back. *)
Definition put_off (timer : Z) (s : server) : M server :=
  cur ← ret_of (CLibc "time" [] []);
  l ← or_undef (set_expire timer (cur + 3 * TIMESLOT) (timer_lst s));
  printf (chars "adjust timer once." ++ [10]);;
  l ← or_undef (adjust_timer timer l);
  mret (with_lst l s).

Definition client_input (fd : Z) (s : server) : M server :=
  if in_users fd then
    u ← or_undef (users s !! fd);
    a ← kernel (CRecvfrom fd (BUFFER_SIZE - 1) 0);
    let ret := a_ret a in
    let u := Client (address u) (sockfd u) (pad BUFFER_SIZE (a_data a)) (timer u) in
    let s := with_user fd u s in
    printf (got_message ret (buf u) fd);;
    if ret <? 0 then
      e ← get_errno;
      if negb (e =? EAGAIN) then close_and_delete u s else mret s
    else if ret =? 0 then close_and_delete u s
    else if negb (timer u =? nullptr) then put_off (timer u) s
    else mret s
  else undefined.

(** ** The main loop *)

Definition handle_event (listenfd pipefd0 epollfd : Z) (ev : Z * Z) (s : server) : M server :=
  let '(fd, events) := ev in
  let epollin := negb (Z.land events EPOLLIN =? 0) in
  if fd =? listenfd then new_connection listenfd epollfd s
  else if (fd =? pipefd0) && epollin then read_signals pipefd0 s
  else if epollin then client_input fd s
  else mret s.

Fixpoint handle_events (listenfd pipefd0 epollfd : Z) (evs : list (Z * Z)) (s : server) : M server :=
  match evs with
  | [] => mret s
  | ev :: evs' =>
      s ← handle_event listenfd pipefd0 epollfd ev s;
      handle_events listenfd pipefd0 epollfd evs' s
  end.

(** One pass of [while(!stop_server)]; [inr] leaves the loop. *)
Definition epoll_round (listenfd pipefd0 epollfd : Z) (s : server) : M (server + server) :=
  if stop_server s then mret (inr s)
  else
    a ← kernel (epoll_wait epollfd);
    e ← get_errno;
    if (a_ret a <? 0) && negb (e =? EINTR) then
      printf (chars "epoll failure." ++ [10]);;
      mret (inr s)
    else
      s ← handle_events listenfd pipefd0 epollfd (ready a) s;
      s ← timer_handler s;
      mret (inl (with_timeout false s)).

Definition server_init : server := Server (new_lst ∅) ∅ false false.

(** The last component of a path. *)
Definition basename (path : list Z) : list Z :=
  List.fold_left (fun acc c => if c =? 47 then [] else acc ++ [c]) path [].

Definition server_main (argv : list (list Z)) : M Z :=
  match argv with
  | _ :: ip :: port :: _ =>
      r ← kernel (CLibc "inet_pton" [AF_INET] ip);
      listenfd ← ret_of (CSocket AF_INET SOCK_STREAM 0);
      assert (0 <=? listenfd);;
      ret ← ret_of (CBind listenfd (sockaddr_in (u16 (atoi port))
        (if a_ret r =? 1 then a_data r else [0; 0; 0; 0])));
      assert (negb (ret =? -1));;
      ret ← ret_of (CListen listenfd 5);
      assert (negb (ret =? -1));;
      epollfd ← ret_of (CLibc "epoll_create" [5] []);
      assert (negb (epollfd =? -1));;
      addfd epollfd listenfd;;
      p ← kernel (CLibc "socketpair" [PF_UNIX; SOCK_STREAM; 0] []);
      assert (negb (a_ret p =? -1));;
      let pipefd0 := default 0 (a_data p !! 0%nat) in
      let pipefd1 := default 0 (a_data p !! 1%nat) in
      setnonblocking pipefd1;;
      addfd epollfd pipefd0;;
      addsig SIGTERM;;
      addsig SIGALRM;;
      kernel (CAlarm TIMESLOT);;
      s ← loop (epoll_round listenfd pipefd0 epollfd)
            server_init;
      kernel (CClose listenfd);;
      kernel (CClose pipefd1);;
      kernel (CClose pipefd0);;
      or_undef (destroy (timer_lst s));;
      mret 0
  | _ =>
      printf (chars "usage: " ++ basename (default [] (argv !! 0%nat)) ++
              chars " ip_address port_number" ++ [10]);;
      mret 1
  end.

(** ** What the kernel promises

    The open connections and the time of the last [time] call: [accept]
    hands out no descriptor that is in use, [epoll_wait] reports the
    descriptors registered, each at most once, and the clock does not go
    backwards. *)

Record kern : Type := Kern { conns : gset Z; now : Z }.

Definition is_epoll_wait (c : call) : bool :=
  match c with CLibc n _ _ => String.eqb n "epoll_wait" | _ => false end.
Definition is_time (c : call) : bool :=
  match c with CLibc n _ _ => String.eqb n "time" | _ => false end.

Definition after_event (k : kern) (e : event) : kern :=
  match e.1 with
  | CAccept _ => if a_ret e.2 <? 0 then k else Kern ({[a_ret e.2]} ∪ conns k) (now k)
  | CClose fd => Kern (conns k ∖ {[fd]}) (now k)
  | c => if is_time c then Kern (conns k) (a_ret e.2) else k
  end.

Definition allowed (known : gset Z) (k : kern) (e : event) : Prop :=
  match e.1 with
  | CAccept _ => a_ret e.2 < 0 \/ (a_ret e.2 ∉ known ∪ conns k)
  | c =>
      (is_epoll_wait c = true ->
         NoDup ((ready e.2).*1) /\ Forall (fun fd => fd ∈ known ∪ conns k) ((ready e.2).*1)) /\
      (is_time c = true -> now k <= a_ret e.2)
  end.

Definition after (k : kern) (evs : list event) : kern := fold_left after_event evs k.
Fixpoint promised (known : gset Z) (k : kern) (evs : list event) : Prop :=
  match evs with
  | [] => True
  | e :: evs' => allowed known k e /\ promised known (after_event k e) evs'
  end.

#[export] Instance allowed_dec known k e : Decision (allowed known k e).
Proof. unfold allowed. destruct (e.1); apply _. Defined.
#[export] Instance promised_dec known k evs : Decision (promised known k evs).
Proof. revert k. induction evs as [|e evs IH]; intros k; cbn [promised]; apply _. Defined.

Lemma promised_app known k a b :
  promised known k (a ++ b) <-> promised known k a /\ promised known (after k a) b.
Proof.
  revert k. induction a as [|e a IH]; intros k; cbn [app promised]; [tauto|].
  rewrite IH. tauto.
Qed.
Lemma after_app k a b : after k (a ++ b) = after (after k a) b.
Proof. apply fold_left_app. Qed.

(** ** The book of deadlines and the events that change it *)

Definition closing (fd : Z) (e : list event) : Prop :=
  exists a1 a2,
    e = [(epoll_ctl global_epollfd EPOLL_CTL_DEL fd 0, a1); (CClose fd, a2);
         (CStdout (chars "close fd " ++ fmt_d fd ++ [10]), ok 0)].

Inductive closings : list Z -> list event -> Prop :=
| closings_nil : closings [] []
| closings_cons fd fds e1 e2 :
    closing fd e1 -> closings fds e2 -> closings (fd :: fds) (e1 ++ e2).

Definition idle_limit : Z := 3 * TIMESLOT.

(** One event: the book before, what happens, the book after. *)
Inductive handled (listenfd pipefd0 epollfd : Z) (book : gmap Z Z) :
    Z * Z -> list event -> gmap Z Z -> Prop :=
| handled_new ev a a1 a2 a3 a4 t :
    in_users (a_ret a) = true ->
    handled listenfd pipefd0 epollfd book (listenfd, ev)
      [(CAccept listenfd, a);
       (epoll_ctl epollfd EPOLL_CTL_ADD (a_ret a) (Z.lor EPOLLIN EPOLLET), a1);
       (CFcntl (a_ret a) F_GETFL 0, a2);
       (CFcntl (a_ret a) F_SETFL (Z.lor (a_ret a2) O_NONBLOCK), a3);
       (CLibc "new" [] [], a4); (CLibc "time" [] [], t)]
      (<[a_ret a := a_ret t + idle_limit]> book)
| handled_signals ev a :
    handled listenfd pipefd0 epollfd book (pipefd0, ev) [(CRecvfrom pipefd0 1024 0, a)] book
| handled_data fd ev a msg t msg' :
    fd ∈ dom book -> 0 < a_ret a ->
    handled listenfd pipefd0 epollfd book (fd, ev)
      [(CRecvfrom fd (BUFFER_SIZE - 1) 0, a); (CStdout msg, ok 0); (CLibc "time" [] [], t);
       (CStdout msg', ok 0)]
      (<[fd := a_ret t + idle_limit]> book)
| handled_end fd ev a msg e :
    fd ∈ dom book -> a_ret a = 0 \/ a_ret a < 0 /\ a_err a <> EAGAIN -> closing fd e ->
    handled listenfd pipefd0 epollfd book (fd, ev)
      ((CRecvfrom fd (BUFFER_SIZE - 1) 0, a) :: (CStdout msg, ok 0) :: e) (delete fd book)
| handled_again fd ev a msg :
    fd ∈ dom book -> a_ret a < 0 -> a_err a = EAGAIN ->
    handled listenfd pipefd0 epollfd book (fd, ev)
      [(CRecvfrom fd (BUFFER_SIZE - 1) 0, a); (CStdout msg, ok 0)] book
| handled_other fd ev :
    Z.land ev EPOLLIN = 0 -> handled listenfd pipefd0 epollfd book (fd, ev) [] book.

Inductive handled_all (listenfd pipefd0 epollfd : Z) :
    list (Z * Z) -> gmap Z Z -> list event -> gmap Z Z -> Prop :=
| handled_all_nil book : handled_all listenfd pipefd0 epollfd [] book [] book
| handled_all_cons ev evs book e1 book1 e2 book2 :
    handled listenfd pipefd0 epollfd book ev e1 book1 ->
    handled_all listenfd pipefd0 epollfd evs book1 e2 book2 ->
    handled_all listenfd pipefd0 epollfd (ev :: evs) book (e1 ++ e2) book2.

(** The connections whose deadline has passed at [cur]. *)
Definition idle (cur : Z) (p : Z * Z) : Prop := p.2 <= cur.
#[export] Instance idle_dec cur p : Decision (idle cur p).
Proof. unfold idle. apply _. Defined.

(** One [tick]: the connections that are idle are closed, the earliest
    deadline first, and no other. *)
Inductive ticked (book : gmap Z Z) : list event -> gmap Z Z -> Prop :=
| ticked_empty : book = ∅ -> ticked book [] book
| ticked_some msg t l e :
    book <> ∅ ->
    l ≡ₚ map_to_list (filter (idle (a_ret t)) book) ->
    StronglySorted Z.le (l.*2) ->
    closings (l.*1) e ->
    ticked book ((CStdout msg, ok 0) :: (CLibc "time" [] [], t) :: e)
      (filter (fun p => ~ idle (a_ret t) p) book).

Inductive round (listenfd pipefd0 epollfd : Z) (book : gmap Z Z) : list event -> gmap Z Z -> Prop :=
| round_intro a e1 book1 e2 book2 r :
    handled_all listenfd pipefd0 epollfd (ready a) book e1 book1 ->
    ticked book1 e2 book2 ->
    round listenfd pipefd0 epollfd book
      ((epoll_wait epollfd, a) :: e1 ++ e2 ++ [(CAlarm TIMESLOT, r)]) book2.

Inductive rounds (listenfd pipefd0 epollfd : Z) : list event -> gmap Z Z -> Prop :=
| rounds_nil : rounds listenfd pipefd0 epollfd [] ∅
| rounds_snoc e1 book1 e2 book2 :
    rounds listenfd pipefd0 epollfd e1 book1 -> round listenfd pipefd0 epollfd book1 e2 book2 ->
    rounds listenfd pipefd0 epollfd (e1 ++ e2) book2.

(** ** The invariant *)

Definition args (l : list (Z * task)) : list Z := (fun x => arg x.2) <$> l.

(** The timers [l] are those of the connections of [book]. *)
Definition connected (l : list (Z * task)) (users : gmap Z client_data) (book : gmap Z Z) : Prop :=
  NoDup (args l) /\
  (forall x, x ∈ l ->
     job x.2 = CB_FUNC /\ in_users (arg x.2) = true /\ book !! arg x.2 = Some (due x.2) /\
     exists c, users !! arg x.2 = Some c /\ timer c = x.1 /\ sockfd c = arg x.2) /\
  (forall fd, fd ∈ dom book -> fd ∈ args l).

(** A well-formed ascending list of the timers of exactly the open
    connections, and no other timer on the heap. *)
Definition server_inv (k : kern) (s : server) (book : gmap Z Z) : Prop :=
  conns k = dom book /\
  (forall fd d, book !! fd = Some d -> d <= now k + idle_limit) /\
  exists l, timers (timer_lst s) l /\ connected l (users s) book /\
    (forall b, (b ∉ l.*1) -> heap (timer_lst s) !! b = None).

Lemma elem_of_args fd l : fd ∈ args l <-> exists x, x ∈ l /\ arg x.2 = fd.
Proof. unfold args. rewrite list_elem_of_fmap. naive_solver. Qed.

#[export] Instance connected_perm :
  Proper ((≡ₚ) ==> eq ==> eq ==> iff) connected.
Proof.
  assert (Hd : forall l l' u b, l ≡ₚ l' -> connected l u b -> connected l' u b).
  { intros l l' u b Hp (H1 & H2 & H3). unfold connected, args in *. split; [|split].
    - by rewrite <- Hp.
    - intros x Hx. apply H2. by rewrite Hp.
    - intros fd Hfd. rewrite <- Hp. by apply H3. }
  intros l l' Hp u ? <- b ? <-. split; by apply Hd.
Qed.

Lemma connected_nil users book : connected [] users book <-> book = ∅.
Proof.
  unfold connected. split.
  - intros (_ & _ & H). apply dom_empty_inv_L. set_solver.
  - intros ->. split; [constructor|]. split; set_solver.
Qed.

Lemma connected_cons a t l users book :
  connected ((a, t) :: l) users book <->
  job t = CB_FUNC /\ in_users (arg t) = true /\ book !! arg t = Some (due t) /\
  (exists c, users !! arg t = Some c /\ timer c = a /\ sockfd c = arg t) /\
  (arg t ∉ args l) /\ connected l users (delete (arg t) book).
Proof.
  unfold connected, args. cbn [fmap list_fmap snd]. rewrite NoDup_cons. split.
  - intros ((Hn1 & Hn2) & Hx & Hd). destruct (Hx (a, t)) as (? & ? & ? & ?); [by left|].
    split_and!; try done.
    + intros x Hxl. destruct (Hx x) as (? & ? & ? & ?); [by right|]. split_and!; try done.
      rewrite lookup_delete_ne; [done|]. intros E. apply Hn1. rewrite E.
      change (arg x.2 ∈ args l). apply elem_of_args. eauto.
    + intros fd. rewrite dom_delete_L, elem_of_difference, not_elem_of_singleton. intros [Hfd Hne].
      specialize (Hd fd Hfd). by apply elem_of_cons in Hd as [?|?].
  - intros (Hj & Hi & Hb & Hc & Hn1 & Hn2 & Hx & Hd). split_and!; try done.
    + intros x Hxl. apply elem_of_cons in Hxl as [->|Hxl]; [by split_and!|].
      destruct (Hx x Hxl) as (? & ? & Hb' & ?). split_and!; try done.
      by apply lookup_delete_Some in Hb' as [_ ?].
    + intros fd Hfd. destruct (decide (fd = arg t)) as [->|Hne]; [by left|]. right.
      apply Hd. set_solver.
Qed.

(** Changing an entry that no timer of [l] points to. *)
Lemma connected_user l users book fd c :
  (fd ∉ args l) -> connected l users book -> connected l (<[fd := c]> users) book.
Proof.
  intros Hfd (H1 & H2 & H3). split; [done|]. split; [|done]. intros x Hx.
  destruct (H2 x Hx) as (? & ? & ? & ?). split_and!; try done.
  rewrite lookup_insert_ne; [done|]. intros ->. apply Hfd.
  apply elem_of_args. eauto.
Qed.

(** The entry of a connection, with the place of its timer in the list. *)
Lemma connected_find l users book fd :
  connected l users book -> fd ∈ dom book ->
  exists l1 a t l2 c, l = l1 ++ (a, t) :: l2 /\ arg t = fd /\ users !! fd = Some c /\
    timer c = a /\ sockfd c = fd /\ in_users fd = true /\
    connected ((a, t) :: l1 ++ l2) users book.
Proof.
  intros Hc Hfd. pose proof Hc as (_ & Hx & Hd). apply Hd, elem_of_args in Hfd as ([a t] & Hin & <-).
  destruct (Hx _ Hin) as (_ & Hi & _ & c & Hu & Ht & Hs). cbn [fst snd] in *.
  apply list_elem_of_split in Hin as (l1 & l2 & ->).
  exists l1, a, t, l2, c. split_and!; try done. by rewrite Permutation_middle.
Qed.

Lemma connected_filter cur l users book :
  connected l users book ->
  connected (filter (fun x => ~ expired cur x) l) users (filter (fun p => ~ idle cur p) book).
Proof.
  intros (H1 & H2 & H3). split; [|split].
  - unfold args in *. eapply sublist_NoDup; [exact H1|]. apply fmap_sublist, sublist_filter.
  - intros x Hx. apply list_elem_of_filter in Hx as [He Hx]. destruct (H2 x Hx) as (? & ? & ? & ?).
    split_and!; try done. by apply map_lookup_filter_Some.
  - intros fd Hfd. apply elem_of_dom in Hfd as [d Hd]. apply map_lookup_filter_Some in Hd as [Hd Hi].
    assert (Hin : fd ∈ dom book) by by apply elem_of_dom.
    apply H3, elem_of_args in Hin as (x & Hx & <-). destruct (H2 x Hx) as (_ & _ & Hb & _).
    apply elem_of_args. exists x. split; [|done]. apply list_elem_of_filter. split; [|done].
    rewrite Hb in Hd.
    unfold expired, idle in *. cbn in Hi. by simplify_eq.
Qed.

(** ** Sequences of steps *)

Definition bad_accept (e : list event) : Prop :=
  exists fd a, (CAccept fd, a) ∈ e /\ in_users (a_ret a) = false.
(** The ways in which a run may stop: blocked in a call, aborted for lack of
    memory, or with undefined behaviour after a failed [accept]. *)
Definition fine (h : halt) (e : list event) : Prop :=
  h = Blocked \/ h = Killed SIGABRT \/ h = Undefined /\ bad_accept e.

Lemma fine_app h e1 e2 : fine h e2 -> fine h (e1 ++ e2).
Proof.
  intros [?|[?|[? (fd & a & Hin & Ha)]]]; [by left|by right; left|right; right].
  split; [done|]. exists fd, a. split; [|done]. apply elem_of_app. by right.
Qed.
Lemma fine_blocked e : fine Blocked e.
Proof. by left. Qed.
#[local] Hint Resolve fine_blocked : core.

Section Steps.
Context (known : gset Z).

(** [step k R m]: from a state of the kernel [k], the runs of [m] that the kernel's
    promises allow do what [R] says and end in the invariant. *)
Definition step (k : kern) (R : list event -> gmap Z Z -> Prop) (m : M server) (w : world) : Prop :=
  runs m
    (fun s e => promised known k e -> exists book, R e book /\ server_inv (after k e) s book)
    (fun h e => promised known k e -> fine h e) w.

Lemma step_bind k (R1 : list event -> gmap Z Z -> Prop) (R2 : gmap Z Z -> list event -> gmap Z Z -> Prop)
    m (f : server -> M server) w :
  step k R1 m w ->
  (forall s, makes (fun _ => True) (f s)) ->
  (forall s e book w', promised known k e -> R1 e book -> server_inv (after k e) s book ->
     step (after k e) (R2 book) (f s) w') ->
  step k (fun e book2 => exists e1 e2 book, e = e1 ++ e2 /\ R1 e1 book /\ R2 book e2 book2) (m ≫= f) w.
Proof.
  unfold step. intros Hm Hany Hf. apply runs_bind. eapply runs_mono; [exact Hm|..]; cbn beta; [|done].
  intros s e Hs w'. destruct (decide (promised known k e)) as [Hp|Hp].
  - destruct (Hs Hp) as (book & HR & Hi).
    eapply runs_mono; [by apply (Hf s e book w')|..]; cbn beta.
    + intros s2 e2 H Hpp. apply promised_app in Hpp as [_ Hpp]. destruct (H Hpp) as (book2 & HR2 & Hi2).
      exists book2. rewrite after_app. split; [|done]. eauto 8.
    + intros h e2 H Hpp. apply promised_app in Hpp as [_ Hpp]. by apply fine_app, H.
  - eapply runs_mono; [apply Hany|..]; cbn beta; intros ? e2 _ Hpp; by apply promised_app in Hpp as [? _].
Qed.

Lemma step_mono k (R R' : list event -> gmap Z Z -> Prop) m w :
  step k R m w -> (forall e book, R e book -> R' e book) -> step k R' m w.
Proof.
  unfold step. intros Hm HR. eapply runs_mono; [exact Hm|..]; cbn beta; [|done].
  intros s e H Hp. destruct (H Hp) as (book & ? & ?). eauto.
Qed.

(** Events before a step that the kernel's promises do not concern. *)
Lemma step_prefix k pre (R R' : list event -> gmap Z Z -> Prop) m w :
  after k pre = k -> step k R m w -> (forall e book, R e book -> R' (pre ++ e) book) ->
  runs m
    (fun s e => promised known k (pre ++ e) ->
       exists book, R' (pre ++ e) book /\ server_inv (after k (pre ++ e)) s book)
    (fun h e => promised known k (pre ++ e) -> fine h (pre ++ e)) w.
Proof.
  unfold step. intros Hk Hm HR. eapply runs_mono; [exact Hm|..]; cbn beta.
  - intros s e H [_ Hp]%promised_app. rewrite Hk in Hp. destruct (H Hp) as (book & ? & ?).
    exists book. rewrite after_app, Hk. auto.
  - intros h e H [_ Hp]%promised_app. rewrite Hk in Hp. by apply fine_app, H.
Qed.
End Steps.

(** ** The timer list of the server *)

Lemma connected_add a t l users book c :
  (arg t ∉ dom book) -> job t = CB_FUNC -> in_users (arg t) = true ->
  timer c = a -> sockfd c = arg t -> connected l users book ->
  connected ((a, t) :: l) (<[arg t := c]> users) (<[arg t := due t]> book).
Proof.
  intros Hfd Hj Hi Ht Hs Hc.
  assert (Ha : arg t ∉ args l).
  { intros Hin. apply Hfd. apply elem_of_args in Hin as (x & Hx & <-).
    destruct Hc as (_ & H2 & _). destruct (H2 x Hx) as (_ & _ & Hb & _). by eapply elem_of_dom_2. }
  apply connected_cons. rewrite delete_insert_eq, delete_id by by apply not_elem_of_dom.
  split_and!; try done; [by simplify_map_eq| |by apply connected_user].
  exists c. by simplify_map_eq.
Qed.

Lemma connected_remove a t l users book :
  connected ((a, t) :: l) users book -> connected l users (delete (arg t) book).
Proof. by intros (_ & _ & _ & _ & _ & ?)%connected_cons. Qed.

Lemma connected_move a t l users book d c :
  connected ((a, t) :: l) users book -> timer c = a -> sockfd c = arg t ->
  connected ((a, with_due d t) :: l) (<[arg t := c]> users) (<[arg t := d]> book).
Proof.
  intros Hc Ht Hs. pose proof Hc as (Hj & Hi & _)%connected_cons.
  apply connected_remove in Hc. rewrite <- (insert_delete_eq book).
  pose proof (connected_add a (with_due d t) l users (delete (arg t) book) c) as Ha.
  cbn [with_due arg due job] in Ha. apply Ha; try done. set_solver.
Qed.

Lemma connected_touch a t l users book c :
  connected ((a, t) :: l) users book -> timer c = a -> sockfd c = arg t ->
  connected ((a, t) :: l) (<[arg t := c]> users) book.
Proof.
  intros Hc Ht Hs. pose proof Hc as (_ & _ & Hb & _)%connected_cons.
  rewrite <- (insert_id book (arg t) (due t)) by done.
  destruct t as [d j g]. by apply (connected_move a (Task d j g) l users book d c).
Qed.

Lemma rep_put s l p t : rep s l -> (p ∉ l.*1) -> rep (put_timer p t s) l.
Proof.
  intros (H1 & H2 & H3 & H4 & H5) Hp. split_and!; try done. by apply dseg_insert.
Qed.

Lemma rep_unused s l p : rep s l -> heap s !! p = None -> p ∉ l.*1.
Proof.
  intros (_ & _ & _ & _ & Hd) Hp Hin. eapply dseg_lookup in Hd as [x Hx]; [|exact Hin]. congruence.
Qed.

Lemma new_address_ok h a : new_address h a <> nullptr /\ h !! new_address h a = None.
Proof.
  unfold new_address. destruct ((a =? nullptr) || _) eqn:E.
  - assert (Hf : fresh (dom h ∪ {[nullptr]}) ∉ dom h ∪ {[nullptr]}) by apply is_fresh.
    rewrite not_elem_of_union, not_elem_of_singleton, not_elem_of_dom in Hf. tauto.
  - apply orb_false_iff in E as [E1 E2]. apply bool_decide_eq_false in E2.
    split; [by apply Z.eqb_neq|]. by apply eq_None_not_Some.
Qed.

(** ** Single calls *)

Lemma runs_kernel c (Q : answer -> list event -> Prop) (H : halt -> list event -> Prop) w :
  is_output c = false -> H Blocked [] ->
  (forall a, Q (normalise c a) [(c, normalise c a)]) -> runs (kernel c) Q H w.
Proof.
  intros Hc HB HQ. apply runs_wp, wp_call; [done|by exists []|]. intros a w' He _ _. by eexists.
Qed.

(** An output leaves [errno] alone. *)
Lemma runs_printf {B} l (f : unit -> M B) (Q : B -> list event -> Prop) (H : halt -> list event -> Prop) w :
  (forall w', errno w' = errno w ->
     runs (f ()) (fun b e => Q b ((CStdout l, ok 0) :: e)) (fun h e => H h ((CStdout l, ok 0) :: e)) w') ->
  runs (printf l ≫= f) Q H w.
Proof.
  intros Hf. apply runs_wp, wp_bind, wp_out; [done|].
  intros w' He Herr _. specialize (Hf w' Herr). rewrite runs_wp in Hf.
  eapply wp_mono; [| |exact Hf]; cbn beta.
  - intros b w2 (evs & He2 & HQ). eexists. split; [|exact HQ]. by eapply (extends_trans _ _ _ [_]).
  - intros h w2 (evs & He2 & HH). eexists. split; [|exact HH]. by eapply (extends_trans _ _ _ [_]).
Qed.

Definition stops (h : halt) (e : list event) : Prop := h = Blocked.

Lemma setnonblocking_runs fd w :
  runs (setnonblocking fd)
    (fun r e => exists a1 a2, r = a_ret a1 /\
       e = [(CFcntl fd F_GETFL 0, a1); (CFcntl fd F_SETFL (Z.lor r O_NONBLOCK), a2)]) stops w.
Proof.
  unfold setnonblocking, ret_of. apply runs_bind, runs_call; [done|done|]. intros a w' x _.
  apply runs_ret. intros w2. apply runs_call; [done|done|]. intros a2 w3 x2 _. apply runs_ret.
  eauto.
Qed.

Lemma addfd_runs epfd fd w :
  runs (addfd epfd fd)
    (fun _ e => exists a1 a2 a3,
       e = [(epoll_ctl epfd EPOLL_CTL_ADD fd (Z.lor EPOLLIN EPOLLET), a1);
            (CFcntl fd F_GETFL 0, a2); (CFcntl fd F_SETFL (Z.lor (a_ret a2) O_NONBLOCK), a3)]) stops w.
Proof.
  unfold addfd. apply runs_call; [done|done|]. intros a w' x _.
  apply runs_bind. eapply runs_mono; [apply setnonblocking_runs|..]; cbn beta; [|done].
  intros r e (a1 & a2 & -> & ->) w2. apply runs_ret. eauto.
Qed.

Lemma cb_func_runs c w :
  runs (cb_func c) (fun _ e => closing (sockfd c) e) stops w.
Proof.
  unfold cb_func. apply runs_call; [done|done|]. intros a w' x _.
  apply runs_call; [done|done|]. intros a2 w2 x2 _.
  apply runs_wp, wp_out; [done|]. intros w3 He _ _. eexists. split; [exact He|]. by eexists _, _.
Qed.

Lemma new_util_timer_runs s w :
  runs (new_util_timer s)
    (fun p e => (exists a, e = [(CLibc "new" [] [], a)]) /\ p <> nullptr /\ heap s !! p = None)
    (fun h e => h = Blocked \/ h = Killed SIGABRT) w.
Proof.
  unfold new_util_timer, ret_of. apply runs_bind, runs_call; [done|by left|]. intros a w' x _.
  apply runs_ret. intros w2. destruct (a_ret x <? 0); [apply runs_halted; by right|].
  apply runs_ret. split; [by eexists|]. apply new_address_ok.
Qed.

(** ** The steps of the server *)

Section Server.
Context (listenfd pipefd0 epollfd : Z).
Let known : gset Z := {[listenfd; pipefd0]}.

Lemma new_connection_step k s book ev w :
  server_inv k s book ->
  step known k (handled listenfd pipefd0 epollfd book (listenfd, ev))
    (new_connection listenfd epollfd s) w.
Proof.
  intros (Hk & Hb & l & [Hr Ha] & Hc & Hh). unfold step, new_connection.
  apply runs_call; [done|done|]. intros a w1 x _. cbv zeta.
  apply runs_bind. eapply runs_mono; [apply addfd_runs|..]; cbn beta; [|by intros h e ->].
  intros [] e (a1 & a2 & a3 & ->) w2.
  destruct (in_users (a_ret x)) eqn:Hi; cycle 1.
  { apply runs_halted. intros _. right; right. split; [done|]. exists listenfd, x.
    split; [by left|done]. }
  apply runs_bind. eapply runs_mono; [apply new_util_timer_runs|..]; cbn beta.
  2:{ intros h e [->| ->] _; [by left|by right; left]. }
  intros p e ((a4 & ->) & Hp0 & Hp) w3.
  apply runs_bind. unfold ret_of. apply runs_call; [done|done|]. intros t w4 y _.
  apply runs_ret. intros w5. cbn [app].
  assert (Hpl : p ∉ l.*1) by by eapply rep_unused.
  set (tm := Timer _ _ _ _ _). set (tk := Task (a_ret y + idle_limit) CB_FUNC (a_ret x)).
  destruct (add_timer_spec (put_timer p tm (timer_lst s)) l p tk) as (s' & He & Hr' & Ho).
  { by apply rep_put. } { done. } { done. } { cbn. by simplify_map_eq. }
  rewrite He. apply runs_ret. intros Hpr. cbn in Hpr. destruct Hpr as (H1 & _ & _ & _ & _ & [_ H2] & _).
  unfold in_users in Hi. destruct H1 as [H1|H1]; [lia|].
  rewrite (proj2 (Z.ltb_ge (a_ret x) 0)) in H2 by lia. specialize (H2 eq_refl). cbn [now] in H2.
  exists (<[a_ret x := a_ret y + idle_limit]> book). split; [by constructor|].
  match goal with |- server_inv ?k' _ _ =>
    assert (Ek : k' = Kern ({[a_ret x]} ∪ conns k) (a_ret y)) end.
  { cbn. by rewrite (proj2 (Z.ltb_ge (a_ret x) 0)) by lia. }
  rewrite Ek. split; [|split].
  - cbn [conns]. by rewrite dom_insert_L, Hk.
  - intros fd d [[<- <-]|[_ Hd]]%lookup_insert_Some; cbn [now]; [lia|]. specialize (Hb fd d Hd). lia.
  - exists (ins (p, tk) l). cbn [timer_lst users with_lst with_user].
    split; [split; [done|by apply ins_ascending]|]. split.
    + rewrite ins_perm. apply (connected_add p tk l); try done. cbn [tk arg]. rewrite <- Hk. set_solver.
    + intros b Hbl. rewrite ins_addresses, not_elem_of_cons in Hbl. cbn [fst] in Hbl. destruct Hbl as [Hbp Hbl].
      rewrite Ho by by apply not_elem_of_cons. cbn. rewrite lookup_insert_ne by done. by apply Hh.
Qed.

Lemma signals_step k s book ev w :
  server_inv k s book ->
  step known k (handled listenfd pipefd0 epollfd book (pipefd0, ev)) (read_signals pipefd0 s) w.
Proof.
  intros Hi. unfold step, read_signals. apply runs_call; [done|done|]. intros a w1 x _.
  assert (Hs : forall s', timer_lst s' = timer_lst s -> users s' = users s ->
    promised known k [(CRecvfrom pipefd0 1024 0, x)] ->
    exists book', handled listenfd pipefd0 epollfd book (pipefd0, ev) [(CRecvfrom pipefd0 1024 0, x)] book' /\
      server_inv (after k [(CRecvfrom pipefd0 1024 0, x)]) s' book').
  { intros s' Hl Hu _. exists book. split; [by constructor|].
    unfold server_inv. rewrite Hl, Hu. exact Hi. }
  destruct (a_ret x =? -1); [by apply runs_ret, Hs|]. destruct (a_ret x =? 0); [by apply runs_ret, Hs|].
  apply runs_ret, Hs; generalize (a_data x) as d; intros d; clear; revert s;
    induction d as [|c d IH]; intros s; try done; cbn [fold_left]; rewrite IH;
    unfold signal_byte; by repeat case_match.
Qed.

Lemma close_step k s book l1 a t l2 u w :
  conns k = dom book -> (forall fd d, book !! fd = Some d -> d <= now k + idle_limit) ->
  timers (timer_lst s) (l1 ++ (a, t) :: l2) ->
  (forall b, (b ∉ (l1 ++ (a, t) :: l2).*1) -> heap (timer_lst s) !! b = None) ->
  connected ((a, t) :: l1 ++ l2) (users s) book -> timer u = a -> sockfd u = arg t ->
  step known k (fun e book' => closing (arg t) e /\ book' = delete (arg t) book) (close_and_delete u s) w.
Proof.
  intros Hk Hb [Hr Ha] Hh Hc Hu Hs. unfold step, close_and_delete.
  apply runs_bind. eapply runs_mono; [apply cb_func_runs|..]; cbn beta; [|by intros h e ->].
  intros [] e He w2. rewrite Hs in He. rewrite Hu.
  pose proof Hr as (_ & H0 & _). rewrite fmap_app in H0. cbn in H0.
  rewrite (proj2 (Z.eqb_neq a _)) by set_solver. cbn [negb].
  destruct (del_timer_spec _ _ _ _ _ Hr) as (s' & Hd & Hr' & Hx & Ho). rewrite Hd.
  eapply runs_or_undef; [done|]. apply runs_ret. rewrite app_nil_r. intros _. exists (delete (arg t) book). split; [done|].
  destruct He as (a1 & a2 & ->). cbn [app after fold_left after_event fst is_time epoll_ctl String.eqb].
  split; [|split].
  - cbn. by rewrite dom_delete_L, Hk.
  - intros fd d [_ Hd']%lookup_delete_Some. by apply (Hb fd).
  - exists (l1 ++ l2). cbn [timer_lst users with_lst]. split; [|split].
    + split; [done|]. by eapply remove_ascending.
    + by apply connected_remove in Hc.
    + intros b Hbl. destruct (decide (b = a)) as [->|Hne]; [done|].
      assert (Hb' : b ∉ (l1 ++ (a, t) :: l2).*1).
      { rewrite fmap_app, elem_of_app in *. cbn. rewrite elem_of_cons. tauto. }
      rewrite Ho by done. by apply Hh.
Qed.

Lemma put_off_step k s book l1 a t l2 w :
  conns k = dom book -> (forall fd d, book !! fd = Some d -> d <= now k + idle_limit) ->
  timers (timer_lst s) (l1 ++ (a, t) :: l2) ->
  (forall b, (b ∉ (l1 ++ (a, t) :: l2).*1) -> heap (timer_lst s) !! b = None) ->
  connected ((a, t) :: l1 ++ l2) (users s) book ->
  step known k (fun e book' => exists y msg,
      e = [(CLibc "time" [] [], y); (CStdout msg, ok 0)] /\
      book' = <[arg t := a_ret y + idle_limit]> book) (put_off a s) w.
Proof.
  intros Hk Hb [Hr Ha] Hh Hc. pose proof Hc as (Hj & Hi & Hbt & (c & Hu & Htm & Hs) & _)%connected_cons.
  unfold step, put_off, ret_of. apply runs_bind, runs_call; [done|done|]. intros y w2 x _.
  apply runs_ret. intros w3.
  destruct (set_expire_spec (timer_lst s) l1 a t l2 (a_ret x + idle_limit) Hr) as (s1 & He1 & Hr1 & Ho1).
  eapply runs_or_undef; [exact He1|]. apply runs_printf. intros w4 _.
  destruct (adjust_timer_spec s1 l1 a _ l2 Hr1) as (s2 & He2 & Hr2 & Ho2).
  eapply runs_or_undef; [exact He2|]. apply runs_ret. intros [[_ Hp] _].
  specialize (Hp eq_refl). cbn in Hp. eexists. split; [by eexists _, _|].
  specialize (Hb (arg t) (due t) Hbt) as Hbd.
  destruct (move_ascending l1 a t l2 (a_ret x + idle_limit) Ha) as [_ Ha2]; [lia|].
  split; [|split].
  - cbn. rewrite dom_insert_L, Hk. apply elem_of_dom_2 in Hbt. set_solver.
  - intros fd d [[<- <-]|[_ Hd]]%lookup_insert_Some; cbn; [lia|]. specialize (Hb fd d Hd). lia.
  - exists (l1 ++ ins (a, with_due (a_ret x + idle_limit) t) l2). cbn [timer_lst users with_lst].
    split; [done|]. split.
    + rewrite ins_perm, <- Permutation_middle, <- (insert_id (users s) (arg t) c) by done.
      by apply connected_move.
    + intros b Hbl. rewrite fmap_app, ins_addresses in Hbl. cbn [fst] in Hbl.
      assert (Hb' : b ∉ (l1 ++ (a, t) :: l2).*1) by (by rewrite fmap_app).
      assert (Hba : b ∉ [a]) by (rewrite fmap_app in Hb'; cbn in Hb'; set_solver).
      rewrite Ho2 by (by rewrite fmap_app in *). rewrite Ho1 by done. by apply Hh.
Qed.

Lemma client_input_step k s book fd ev w :
  server_inv k s book -> fd ∈ dom book ->
  step known k (handled listenfd pipefd0 epollfd book (fd, ev)) (client_input fd s) w.
Proof.
  intros (Hk & Hb & l & [Hr Ha] & Hc & Hh) Hfd.
  destruct (connected_find l (users s) book fd Hc Hfd)
    as (l1 & a & t & l2 & c & -> & <- & Hu & Htm & Hs & Hin & Hc').
  unfold client_input. rewrite Hin, Hu. unfold step. eapply runs_or_undef; [done|].
  apply runs_call; [done|done|]. intros ans w1 x Herr. cbv zeta.
  set (u := Client _ _ _ _). set (s1 := with_user (arg t) u s).
  apply runs_printf. intros w2 Herr2. cbn [timer u]. rewrite Htm.
  assert (Hc1 : connected ((a, t) :: l1 ++ l2) (users s1) book).
  { by apply connected_touch. }
  assert (Ha0 : a <> nullptr).
  { pose proof Hr as (_ & H0 & _). rewrite fmap_app in H0. cbn in H0. set_solver. }
  rewrite (proj2 (Z.eqb_neq a _)) by done. cbn [negb].
  set (pre := [(CRecvfrom (arg t) (BUFFER_SIZE - 1) 0, x);
               (CStdout (got_message (a_ret x) (buf u) (arg t)), ok 0)] : list event).
  match goal with |- runs _ ?Q ?H _ =>
    assert (Hend : a_ret x = 0 \/ a_ret x < 0 /\ a_err x <> EAGAIN -> forall w,
      runs (close_and_delete u s1) Q H w) end.
  { intros Hend w'. eapply (step_prefix known k pre);
      [done|by eapply (close_step k s1 book l1 a t l2 u)|].
    intros e book' [He ->]. by apply handled_end. }
  destruct (a_ret x <? 0) eqn:E.
  { apply runs_get_errno. rewrite Herr2, Herr by lia. destruct (a_err x =? EAGAIN) eqn:Ee; cbn [negb].
    - apply runs_ret. intros _. exists book. split; [by apply handled_again; [..|lia|lia]|].
      split; [done|]. split; [done|]. exists (l1 ++ (a, t) :: l2).
      split; [done|]. split; [|done]. by rewrite <- Permutation_middle.
    - apply Hend. right. lia. }
  destruct (a_ret x =? 0) eqn:E2; [apply Hend; left; lia|].
  eapply (step_prefix known k pre); [done|by eapply (put_off_step k s1 book l1 a t l2)|].
  intros e book' (y & msg & -> & ->). apply handled_data; [done|lia].
Qed.

Lemma handle_event_step k s book ev w :
  server_inv k s book -> ev.1 ∈ known ∪ dom book ->
  step known k (handled listenfd pipefd0 epollfd book ev) (handle_event listenfd pipefd0 epollfd ev s) w.
Proof.
  intros Hi Hin. destruct ev as [fd ev]. cbn [fst] in Hin. unfold handle_event.
  destruct (fd =? listenfd) eqn:E1; [apply Z.eqb_eq in E1; subst; by apply new_connection_step|].
  destruct (Z.land ev EPOLLIN =? 0) eqn:E3; cbn [negb]; rewrite ?andb_true_r, ?andb_false_r.
  - unfold step. apply runs_ret. intros _. exists book. split; [|done]. apply handled_other. lia.
  - destruct (fd =? pipefd0) eqn:E2; [apply Z.eqb_eq in E2; subst; by apply signals_step|].
    apply client_input_step; [done|]. apply elem_of_union in Hin as [Hin|Hin]; [|done].
    apply elem_of_union in Hin as [Hin|Hin]; apply elem_of_singleton in Hin; lia.
Qed.

Lemma handled_dom book ev e book' fd :
  handled listenfd pipefd0 epollfd book ev e book' -> fd ∈ dom book -> fd <> ev.1 -> fd ∈ dom book'.
Proof.
  intros Hh Hfd Hne. destruct Hh; cbn [fst] in *; try done;
    rewrite ?dom_insert_L, ?dom_delete_L; apply elem_of_union || apply elem_of_difference;
    [by right..|].
  by rewrite not_elem_of_singleton.
Qed.

Lemma makes_tick_walk (P : call -> Prop) callback fuel cur tmp l :
  (forall f ud, makes P (callback f ud)) -> makes P (tick_walk callback fuel cur tmp l).
Proof.
  intros Hc. revert tmp l. induction fuel as [|f IH]; intros tmp l; cbn [tick_walk]; [apply makes_halted|].
  unfold or_undef. repeat first [apply Hc|apply IH|makes_step].
Qed.

(** No handler waits for events. *)
Definition no_wait (c : call) : Prop := is_epoll_wait c = false.

Lemma makes_cb_func c : makes no_wait (cb_func c).
Proof. unfold cb_func, printf. solve_makes. Qed.
Lemma makes_addfd epfd fd : makes no_wait (addfd epfd fd).
Proof. unfold addfd, setnonblocking, ret_of. solve_makes. Qed.
#[local] Hint Resolve makes_cb_func makes_addfd : makes.

Lemma makes_handle_event ev s : makes no_wait (handle_event listenfd pipefd0 epollfd ev s).
Proof.
  unfold handle_event, new_connection, read_signals, client_input, put_off, close_and_delete,
    new_util_timer, printf, ret_of, or_undef. solve_makes.
Qed.
Lemma makes_handle_events evs s : makes no_wait (handle_events listenfd pipefd0 epollfd evs s).
Proof.
  revert s. induction evs as [|ev evs IH]; intros s; cbn [handle_events]; [apply makes_ret|].
  apply makes_bind; [apply makes_handle_event|done].
Qed.
Lemma makes_timer_handler s : makes no_wait (timer_handler s).
Proof.
  unfold timer_handler, tick. apply makes_bind; [|intros; solve_makes].
  apply makes_if; [apply makes_ret|]. apply makes_bind; [by apply makes_output|]. intros _.
  apply makes_bind; [by apply makes_kernel|]. intros a. apply makes_tick_walk. intros f ud.
  unfold call_cb, or_undef. solve_makes.
Qed.

Lemma handle_events_step evs : forall k s book w,
  server_inv k s book -> NoDup (evs.*1) -> Forall (fun fd => fd ∈ known ∪ dom book) (evs.*1) ->
  step known k (handled_all listenfd pipefd0 epollfd evs book)
    (handle_events listenfd pipefd0 epollfd evs s) w.
Proof.
  induction evs as [|ev evs IH]; intros k s book w Hi Hn Hf; cbn [handle_events].
  - unfold step. apply runs_ret. intros _. exists book. split; [constructor|done].
  - cbn [fmap list_fmap] in *. inversion Hn as [|? ? Hni Hn']; subst.
    inversion Hf as [|? ? Hev Hf']; subst.
    eapply step_mono.
    + eapply (step_bind known k _ (fun book => handled_all listenfd pipefd0 epollfd evs book));
        [by apply handle_event_step|..].
      * intros s'. eapply makes_mono; [apply makes_handle_events|done].
      * intros s' e book' w' _ Hh Hi'. apply IH; [done|done|].
        rewrite Forall_forall in *. intros fd Hfd. specialize (Hf' fd Hfd).
        apply elem_of_union in Hf' as [?|Hd]; apply elem_of_union; [by left|right].
        eapply handled_dom; [exact Hh|done|]. by intros ->.
    + intros e book' (e1 & e2 & b & -> & H1 & H2). by econstructor.
Qed.

(** ** The tick of the server *)

Lemma after_closings fds e : closings fds e ->
  forall k, after k e = Kern (conns k ∖ list_to_set fds) (now k).
Proof.
  induction 1 as [|fd fds e1 e2 (a1 & a2 & ->) _ IH]; intros k.
  - destruct k as [c n]. cbn. f_equal. set_solver.
  - rewrite after_app, IH. cbn. f_equal. rewrite difference_difference_l_L. done.
Qed.

Lemma fire_runs users l w :
  (forall x, x ∈ l -> job x.2 = CB_FUNC /\ exists c, users !! arg x.2 = Some c /\ sockfd c = arg x.2) ->
  runs (fire (call_cb users) l) (fun _ e => closings (args l) e) stops w.
Proof.
  revert w. induction l as [|[a t] l IH]; intros w Hl; cbn [fire]; [apply runs_ret; constructor|].
  destruct (Hl (a, t)) as (Hj & c & Hu & Hs); [by left|]. cbn [snd] in *.
  apply runs_bind. unfold call_cb at 1. rewrite Hj, Z.eqb_refl. eapply runs_or_undef; [exact Hu|].
  eapply runs_mono; [apply cb_func_runs|..]; cbn beta; [|done].
  intros [] e He w'. rewrite Hs in He. eapply runs_mono; [apply IH; intros x Hx; apply Hl; by right|..]; [|done].
  intros [] e2 He2. by constructor.
Qed.

(** The timers that have expired are those of the idle connections. *)
Lemma expired_idle cur l users book :
  connected l users book -> ascending l ->
  let p := (fun x : Z * task => (arg x.2, due x.2)) <$> filter (expired cur) l in
  p ≡ₚ map_to_list (filter (idle cur) book) /\ StronglySorted Z.le (p.*2) /\
  p.*1 = args (filter (expired cur) l).
Proof.
  intros Hc Ha p. subst p. split; [|split].
  - apply NoDup_Permutation.
    + apply (NoDup_fmap_1 fst). rewrite <- list_fmap_compose. destruct Hc as (Hn & _ & _).
      eapply sublist_NoDup; [exact Hn|]. unfold args. apply fmap_sublist, sublist_filter.
    + apply NoDup_map_to_list.
    + intros [fd d]. rewrite elem_of_map_to_list, map_lookup_filter_Some, list_elem_of_fmap.
      destruct Hc as (Hn & H2 & H3). split.
      * intros (x & Hx & Hin). simplify_eq/=. apply list_elem_of_filter in Hin as [He Hin].
        by destruct (H2 x Hin) as (_ & _ & ? & _).
      * intros [Hb Hi]. assert (Hin : fd ∈ dom book) by by eapply elem_of_dom_2.
        apply H3, elem_of_args in Hin as (x & Hx & <-). destruct (H2 x Hx) as (_ & _ & Hb' & _).
        simplify_eq. exists x. split; [done|]. by apply list_elem_of_filter.
  - rewrite <- list_fmap_compose. apply (StronglySorted_fmap _ earlier); [done|].
    by apply filter_ascending.
  - rewrite <- list_fmap_compose. done.
Qed.

Lemma dom_not_idle cur (book : gmap Z Z) (p : list (Z * Z)) :
  p ≡ₚ map_to_list (filter (idle cur) book) ->
  dom book ∖ list_to_set (p.*1) = dom (filter (fun q => ~ idle cur q) book).
Proof.
  intros Hp. apply set_eq. intros fd. rewrite elem_of_difference, elem_of_list_to_set, !elem_of_dom.
  assert (Hin : fd ∈ p.*1 <-> exists d, book !! fd = Some d /\ d <= cur).
  { rewrite Hp, list_elem_of_fmap. split.
    - intros ([fd' d] & -> & Hd%elem_of_map_to_list%map_lookup_filter_Some). exists d. exact Hd.
    - intros (d & Hd & Hle). exists (fd, d). split; [done|].
      by apply elem_of_map_to_list, map_lookup_filter_Some. }
  rewrite Hin. split.
  - intros [[d Hd] Hn]. exists d. apply map_lookup_filter_Some. split; [done|].
    intros Hi. apply Hn. by exists d.
  - intros [d Hd]. apply map_lookup_filter_Some in Hd as [Hd Hi]. split; [by exists d|].
    intros (d' & Hd' & Hle). simplify_eq. done.
Qed.

Lemma tick_step k s book w :
  server_inv k s book ->
  runs (tick (call_cb (users s)) (timer_lst s))
    (fun l e => promised known k e ->
       exists book', ticked book e book' /\ server_inv (after k e) (with_lst l s) book')
    (fun h e => promised known k e -> fine h e) w.
Proof.
  intros (Hk & Hb & l & Ht & Hc & Hh). pose proof Ht as [(_ & H0 & Hd & _) Ha].
  unfold tick. rewrite Hd. destruct (decide (l = [])) as [->|Hl].
  { apply runs_ret. intros _. apply connected_nil in Hc as ->. exists ∅. split; [by constructor|].
    split; [done|]. split; [done|]. exists []. split; [done|]. split; [by apply connected_nil|done]. }
  rewrite (proj2 (Z.eqb_neq _ _)) by by apply first_of_not_null. rewrite <- Hd.
  apply runs_out; [done|]. intros w1. apply runs_call; [done|done|]. intros a w2 t _.
  destruct (tick_walk_filter (call_cb (users s)) (timer_lst s) l (a_ret t) Ht) as (s' & Ht' & Hx & Ho & He).
  eapply runs_ext; [apply He|]. clear He.
  apply runs_bind. eapply runs_mono; [apply fire_runs|..]; cbn beta.
  { intros x [_ Hin]%list_elem_of_filter. destruct Hc as (_ & H2 & _).
    destruct (H2 x Hin) as (? & _ & _ & c & ? & _ & ?). eauto. }
  2:{ by intros h e ->. }
  intros [] e He w3. apply runs_ret. rewrite app_nil_r. intros (_ & [_ Hp] & _).
  specialize (Hp eq_refl). cbn in Hp.
  destruct (expired_idle (a_ret t) l (users s) book Hc Ha) as (Hp1 & Hp2 & Hp3).
  rewrite <- Hp3 in He. exists (filter (fun p => ~ idle (a_ret t) p) book). split.
  { eapply ticked_some; [|exact Hp1|exact Hp2|exact He]. intros ->.
    apply Hl. destruct l as [|[b u] l']; [done|]. destruct Hc as (_ & H2 & _).
    by destruct (H2 (b, u) ltac:(by left)) as (_ & _ & ? & _). }
  match goal with |- server_inv ?k' _ _ =>
    change k' with (after (Kern (conns k) (a_ret t)) e) end.
  rewrite (after_closings _ _ He). split; [|split].
  - cbn. rewrite Hk. by apply dom_not_idle.
  - cbn. intros fd d [Hd' _]%map_lookup_filter_Some. specialize (Hb fd d Hd'). lia.
  - exists (filter (fun x => ~ expired (a_ret t) x) l). split; [done|].
    split; [by apply connected_filter|]. intros b Hbl. cbn [timer_lst with_lst].
    destruct (decide (b ∈ (filter (expired (a_ret t)) l).*1)) as [Hin|Hni]; [by apply Hx|].
    assert (Hb' : b ∉ l.*1).
    { intros (x & -> & Hin)%list_elem_of_fmap. destruct (decide (expired (a_ret t) x)).
      - apply Hni, list_elem_of_fmap. exists x. split; [done|]. by apply list_elem_of_filter.
      - apply Hbl, list_elem_of_fmap. exists x. split; [done|]. by apply list_elem_of_filter. }
    rewrite Ho by done. by apply Hh.
Qed.

Lemma timer_handler_step k s book w :
  server_inv k s book ->
  step known k (fun e book' => exists e2 r, e = e2 ++ [(CAlarm TIMESLOT, r)] /\ ticked book e2 book')
    (timer_handler s) w.
Proof.
  intros Hi. unfold step, timer_handler. apply runs_bind.
  eapply runs_mono; [by apply tick_step|..]; cbn beta; [|done].
  intros l e H w2. apply runs_call; [done|by rewrite app_nil_r|]. intros r w3 x _.
  apply runs_ret. intros [Hp _]%promised_app. destruct (H Hp) as (book' & Ht & Hi').
  exists book'. split; [by eexists _, _|]. by rewrite after_app.
Qed.

(** ** The main loop *)

(** The events of the pass that is under way: nothing, or what follows one
    [epoll_wait]. *)
Definition under_way (e : list event) : Prop :=
  e = [] \/ exists a e', e = (epoll_wait epollfd, a) :: e' /\ only no_wait e'.

Lemma after_wait k a : after_event k (epoll_wait epollfd, a) = k.
Proof. done. Qed.

(** The work of one pass, after [epoll_wait] has answered [a]. *)
Definition pass (a : answer) (s : server) : M server :=
  s ← handle_events listenfd pipefd0 epollfd (ready a) s; timer_handler s.

Lemma makes_pass a s : makes no_wait (pass a s).
Proof. apply makes_bind; [apply makes_handle_events|intros; apply makes_timer_handler]. Qed.

Lemma pass_step k s book a w :
  server_inv k s book ->
  runs (pass a s)
    (fun s' e => promised known k ((epoll_wait epollfd, a) :: e) -> exists book',
       round listenfd pipefd0 epollfd book ((epoll_wait epollfd, a) :: e) book' /\
       server_inv (after k ((epoll_wait epollfd, a) :: e)) s' book')
    (fun h e => promised known k ((epoll_wait epollfd, a) :: e) -> fine h ((epoll_wait epollfd, a) :: e)) w.
Proof.
  intros Hi. destruct (decide (allowed known k (epoll_wait epollfd, a))) as [Hal|Hal].
  2:{ eapply runs_mono; [apply makes_pass|..]; cbn beta; intros ? e _ [? _]; done. }
  destruct Hal as [Hw _]. destruct (Hw eq_refl) as [Hn Hf]. pose proof Hi as [Hk _].
  rewrite Hk in Hf. apply (step_prefix known k [(epoll_wait epollfd, a)]
    (fun e b => round listenfd pipefd0 epollfd book ((epoll_wait epollfd, a) :: e) b)); [done| |done].
  eapply step_mono.
  - eapply (step_bind known k _ (fun b e b' => exists e2 r, e = e2 ++ [(CAlarm TIMESLOT, r)] /\ ticked b e2 b')).
    + by apply (handle_events_step (ready a) k s book).
    + intros s'. eapply makes_mono; [apply makes_timer_handler|done].
    + intros s' e b w' _ _ Hi'. by apply timer_handler_step.
  - intros e book2 (e1 & e2 & b & -> & Hh & e3 & r & -> & Ht). by econstructor.
Qed.

(** How a pass that ends the loop looks. *)
Definition leaves (s : server) (e : list event) : Prop :=
  stop_server s = true /\ e = [] \/
  exists a msg, a_ret a < 0 /\ e = [(epoll_wait epollfd, a); (CStdout msg, ok 0)].

Lemma epoll_round_runs k s book w :
  server_inv k s book ->
  runs (epoll_round listenfd pipefd0 epollfd s)
    (fun r e => match r with
     | inl s' => (0 < waits e)%nat /\ (promised known k e ->
         exists book', round listenfd pipefd0 epollfd book e book' /\ server_inv (after k e) s' book')
     | inr s' => s' = s /\ leaves s e
     end)
    (fun h e => under_way e /\ (promised known k e -> fine h e)) w.
Proof.
  intros Hi. unfold epoll_round. destruct (stop_server s) eqn:Es; [apply runs_ret; split; [done|by left]|].
  apply runs_call; [done|split; [by left|done]|]. intros a w1 x _. apply runs_get_errno.
  destruct (_ && _) eqn:E.
  - apply runs_printf. intros w2 _. apply runs_ret. split; [done|]. right. eexists _, _.
    split; [|done]. lia.
  - apply (runs_ext _ (s ← pass x s; mret (inl (with_timeout false s)))).
    { unfold pass, mbind, M_bind. by destruct (handle_events _ _ _ _ _ _) as [[?|?] ?]. }
    apply runs_bind. eapply runs_mono; [apply runs_conj; [apply makes_pass|by apply pass_step]|..]; cbn beta.
    + intros s' e [_ H] w2. apply runs_ret. rewrite app_nil_r. split; [cbn; lia|].
      intros Hp. destruct (H Hp) as (book' & Hr & Hi'). eauto.
    + intros h e [Ho H]. split; [|done]. right. eauto.
Qed.

Lemma epoll_round_any s w :
  runs (epoll_round listenfd pipefd0 epollfd s)
    (fun r e => match r with inl _ => (0 < waits e)%nat | inr _ => True end) (fun _ _ => True) w.
Proof.
  unfold epoll_round. destruct (stop_server s); [by apply runs_ret|].
  apply runs_call; [done|done|]. intros a w1 x _. apply runs_get_errno.
  destruct (_ && _); [apply runs_printf; intros; by apply runs_ret|].
  eapply runs_mono; [apply (makes_bind no_wait); [apply makes_handle_events|]|..]; cbn beta; [| |done].
  - intros s'. apply makes_bind; [apply makes_timer_handler|]. intros s2. apply makes_ret.
  - intros [s'|s'] e _; [cbn; lia|done].
Qed.

(** All the memory of the timers is given back at the end. *)
Lemma server_inv_destroy k s book :
  server_inv k s book -> exists l, destroy (timer_lst s) = Some l /\ heap l = ∅.
Proof.
  intros (_ & _ & l & [Hr _] & _ & Hh). destruct (destroy_spec _ _ Hr) as (s' & He & _ & Hx & Ho).
  exists s'. split; [done|]. apply map_eq. intros a. rewrite lookup_empty.
  destruct (decide (a ∈ l.*1)); [by apply Hx|]. rewrite Ho by done. by apply Hh.
Qed.

Definition kern_init : kern := Kern ∅ 0.

Lemma server_inv_init : server_inv kern_init server_init ∅.
Proof.
  split; [done|]. split; [done|]. exists []. split; [split; [|constructor]|].
  - split_and!; try done; [constructor|set_solver].
  - split; [by apply connected_nil|]. intros b _. apply lookup_empty.
Qed.

(** C26: The main loop of the server of code_11_3.cpp, as long as the kernel
    keeps its promises (descriptors reported are registered, new ones are not
    in use, the clock does not go back): whatever the clients and the signals
    do, its calls are a sequence of rounds, each of which handles every ready
    descriptor once and then ticks, with at most one round under way.  In the
    book of the rounds a connection has as deadline the time of its last
    activity plus 15 seconds; it is dropped from the book when it ends, and
    every tick closes exactly the connections whose deadline has passed, the
    earliest first.  Between the rounds the timer list is well-formed and
    ascending, and holds exactly one timer for each open connection, whose
    [users] entry points back to it; no timer is leaked, used after it has been freed or
    freed twice.  The loop runs until SIGTERM has been read or [epoll_wait] has
    failed, and then the destructor frees all timers; a run stops otherwise
    only in a call that blocks, for lack of memory, or by the use of the
    result of a failed [accept] as an index. *)
Theorem epoll_server_correct w :
  runs (loop (epoll_round listenfd pipefd0 epollfd) server_init)
    (fun s e => promised known kern_init e ->
       exists e1 e2 book, e = e1 ++ e2 /\ rounds listenfd pipefd0 epollfd e1 book /\ leaves s e2 /\
         server_inv (after kern_init e1) s book /\
         exists l, destroy (timer_lst s) = Some l /\ heap l = ∅)
    (fun h e => promised known kern_init e ->
       fine h e /\
       exists e1 e2 book, e = e1 ++ e2 /\ rounds listenfd pipefd0 epollfd e1 book /\ under_way e2) w.
Proof.
  apply (runs_loop _ (fun s e => promised known kern_init e -> exists book,
    rounds listenfd pipefd0 epollfd e book /\ server_inv (after kern_init e) s book)).
  { intros _. exists ∅. split; [constructor|apply server_inv_init]. }
  intros s e w1 HI. destruct (decide (promised known kern_init e)) as [Hp|Hp].
  - destruct (HI Hp) as (book & Hr & Hi). eapply runs_mono; [by apply epoll_round_runs|..]; cbn beta.
    + intros [s'|s'] e2.
      * intros [Hw H]. split; [done|]. intros [_ Hp2]%promised_app. destruct (H Hp2) as (book' & Hr' & Hi').
        exists book'. rewrite after_app. split; [by econstructor|done].
      * intros [-> Hl] _. exists e, e2, book. split_and!; try done. by eapply server_inv_destroy.
    + intros h e2 [Hu Hf] [_ Hp2]%promised_app. split; [by apply fine_app, Hf|]. by exists e, e2, book.
  - eapply runs_mono; [apply epoll_round_any|..]; cbn beta.
    + intros [s'|s'] e2 Hw; [split; [done|]|]; by intros [? _]%promised_app.
    + by intros h e2 _ [? _]%promised_app.
Qed.
End Server.

(** Two clients: the second is idle and closed at time 118, the first has
    sent data at time 104 and stays. *)
Example two_clients :
  let w0 := World
    [Ans 2 0 [3; 1; 5; 1] []; ok 7; ok 0; ok 0; ok 0; ok 96; ok 100; data [14]; ok 101; ok 0;
     Ans 2 0 [3; 1; 7; 1] []; ok 8; ok 0; ok 0; ok 0; ok 96; ok 103;
     data [97; 98]; ok 104; ok 105; ok 0;
     err 4; ok 118; err 9; ok 0; ok 0] [] 0 0 (fun _ => []) in
  let '(_, w) := loop (epoll_round 3 5 4) server_init w0 in
  promised {[3; 5]} kern_init (trace w) /\ conns (after kern_init (trace w)) = {[7]} /\
  script w = [].
Proof. by_eval. Qed.
