(* ===== verification/Http.v ===== *)
(** * The HTTP request parser

    youshuang/ch15_pool/thread_pool/http_conn.cpp, [parse_line],
    [parse_request_line], [parse_headers], [parse_content] and [process_read]:
    two nested state machines over one buffer of 2048 bytes, in which the
    lines and their parts are separated by storing null bytes, and to which
    [m_url] and the other members point.  The pointers are indices into the
    buffer; an access outside of it is undefined behaviour ([None], and
    [Undefined] in the calls that print).  The specification is a parser of
    byte lists that knows neither buffer nor pointers. *)

From S2P Require Import Unix.

(** ** Strings in the buffer: [<string.h>] on the bytes from an index on *)

Definition READ_BUFFER_SIZE : Z := 2048.

Definition is_ws (c : Z) : bool := (c =? 32) || (c =? 9).
Definition tolower (c : Z) : Z := if (65 <=? c) && (c <=? 90) then c + 32 else c.

(** The object from the byte [i] on; nothing outside of the buffer. *)
Definition from (buf : list Z) (i : Z) : option (list Z) :=
  if (0 <=? i) && (i <=? Z.of_nat (length buf)) then Some (drop (Z.to_nat i) buf) else None.
Definition char_at (buf : list Z) (i : Z) : option Z :=
  if 0 <=? i then buf !! Z.to_nat i else None.
(** [buf[i] = '\0'] *)
Definition put0 (buf : list Z) (i : Z) : option (list Z) :=
  if (0 <=? i) && (i <? Z.of_nat (length buf)) then Some (<[Z.to_nat i := 0]> buf) else None.

(** The functions of [<string.h>] run over the end of the object when no null byte stops them. *)
Fixpoint strpbrk_ws (l : list Z) (i : Z) : option (option Z) :=
  match l with
  | [] => None
  | c :: l' =>
      if c =? 0 then Some None
      else if is_ws c then Some (Some i)
      else strpbrk_ws l' (i + 1)
  end.
Fixpoint strspn_ws (l : list Z) : option Z :=
  match l with
  | [] => None
  | c :: l' => if is_ws c then n ← strspn_ws l'; Some (n + 1) else Some 0
  end.
Fixpoint strchr_from (x : Z) (l : list Z) (i : Z) : option (option Z) :=
  match l with
  | [] => None
  | c :: l' =>
      if c =? x then Some (Some i)
      else if c =? 0 then Some None
      else strchr_from x l' (i + 1)
  end.
(** [strcasecmp(s, lit) == 0] and [strncasecmp(s, lit, strlen(lit)) == 0] *)
Fixpoint strcaseeq (l lit : list Z) : option bool :=
  match lit, l with
  | [], c :: _ => Some (c =? 0)
  | x :: lit', c :: l' => if tolower c =? tolower x then strcaseeq l' lit' else Some false
  | _, [] => None
  end.
Fixpoint strncaseeq (l lit : list Z) : option bool :=
  match lit, l with
  | [], _ => Some true
  | x :: lit', c :: l' => if tolower c =? tolower x then strncaseeq l' lit' else Some false
  | _, [] => None
  end.
Definition terminated (l : list Z) : option (list Z) :=
  if bool_decide (0 ∈ l) then Some (c_string l) else None.

(** ** The members of [http_conn] that the parser uses *)

Inductive CHECK_STATE := CHECK_STATE_REQUESTLINE | CHECK_STATE_HEADER | CHECK_STATE_CONTENT.
Inductive LINE_STATUS := LINE_OK | LINE_BAD | LINE_OPEN.
Inductive HTTP_CODE :=
| NO_REQUEST | GET_REQUEST | BAD_REQUEST | NO_RESOURCE | FORBIDDEN_REQUEST | FILE_REQUEST
| INTERNAL_ERROR | CLOSED_CONNECTION.

Record request : Type := Request {
  m_read_buf : list Z;
  m_read_idx : Z;
  m_checked_idx : Z;
  m_start_line : Z;
  m_check_state : CHECK_STATE;
  m_url : option Z;
  m_version : option Z;
  m_host : option Z;
  m_content_length : Z;
  m_linger : bool
}.

(** [init]: the members as for a new request. *)
Definition init : request :=
  Request (replicate (Z.to_nat READ_BUFFER_SIZE) 0) 0 0 0 CHECK_STATE_REQUESTLINE
    None None None 0 false.

Definition with_buf (b : list Z) (r : request) : request :=
  Request b (m_read_idx r) (m_checked_idx r) (m_start_line r) (m_check_state r)
    (m_url r) (m_version r) (m_host r) (m_content_length r) (m_linger r).
Definition with_checked (c : Z) (r : request) : request :=
  Request (m_read_buf r) (m_read_idx r) c (m_start_line r) (m_check_state r)
    (m_url r) (m_version r) (m_host r) (m_content_length r) (m_linger r).
Definition with_start (c : Z) (r : request) : request :=
  Request (m_read_buf r) (m_read_idx r) (m_checked_idx r) c (m_check_state r)
    (m_url r) (m_version r) (m_host r) (m_content_length r) (m_linger r).
Definition with_state (c : CHECK_STATE) (r : request) : request :=
  Request (m_read_buf r) (m_read_idx r) (m_checked_idx r) (m_start_line r) c
    (m_url r) (m_version r) (m_host r) (m_content_length r) (m_linger r).
Definition with_url (u v : option Z) (r : request) : request :=
  Request (m_read_buf r) (m_read_idx r) (m_checked_idx r) (m_start_line r) (m_check_state r)
    u v (m_host r) (m_content_length r) (m_linger r).
Definition with_host (h : option Z) (r : request) : request :=
  Request (m_read_buf r) (m_read_idx r) (m_checked_idx r) (m_start_line r) (m_check_state r)
    (m_url r) (m_version r) h (m_content_length r) (m_linger r).
Definition with_length (n : Z) (r : request) : request :=
  Request (m_read_buf r) (m_read_idx r) (m_checked_idx r) (m_start_line r) (m_check_state r)
    (m_url r) (m_version r) (m_host r) n (m_linger r).
Definition with_linger (b : bool) (r : request) : request :=
  Request (m_read_buf r) (m_read_idx r) (m_checked_idx r) (m_start_line r) (m_check_state r)
    (m_url r) (m_version r) (m_host r) (m_content_length r) b.

(** ** [parse_line] *)

Definition CR : Z := 13.
Definition LF : Z := 10.

(** The [for] loop; [n] is [m_read_idx - m_checked_idx]. *)
Fixpoint parse_line_loop (n : nat) (r : request) : option (LINE_STATUS * request) :=
  match n with
  | O => Some (LINE_OPEN, r)
  | S n' =>
      let i := m_checked_idx r in
      temp ← char_at (m_read_buf r) i;
      if temp =? CR then
        if i + 1 =? m_read_idx r then Some (LINE_OPEN, r)
        else
          c ← char_at (m_read_buf r) (i + 1);
          if c =? LF then
            b ← put0 (m_read_buf r) i;
            b ← put0 b (i + 1);
            Some (LINE_OK, with_checked (i + 2) (with_buf b r))
          else Some (LINE_BAD, r)
      else if temp =? LF then
        if 1 <=? i then
          p ← char_at (m_read_buf r) (i - 1);
          if p =? CR then
            b ← put0 (m_read_buf r) (i - 1);
            b ← put0 b i;
            Some (LINE_OK, with_checked (i + 1) (with_buf b r))
          else Some (LINE_BAD, r)
        else Some (LINE_BAD, r)
      else parse_line_loop n' (with_checked (i + 1) r)
  end.
Definition parse_line (r : request) : option (LINE_STATUS * request) :=
  parse_line_loop (Z.to_nat (m_read_idx r - m_checked_idx r)) r.

(** ** [parse_request_line] *)

(** The address after [http://host] or [https://host]. *)
Definition skip_host (buf : list Z) (url : Z) : option (option Z) :=
  l ← from buf url;
  http ← strncaseeq l (chars "http://");
  if (http : bool) then l ← from buf (url + 7); strchr_from 47 l (url + 7)
  else
    https ← strncaseeq l (chars "https://");
    if (https : bool) then l ← from buf (url + 8); strchr_from 47 l (url + 8)
    else Some (Some url).

(** The part behind the method: [m_url] is [url], the buffer [b]. *)
Definition parse_target (url : Z) (b : list Z) (r : request) : option (HTTP_CODE * request) :=
  l ← from b url;
  n ← strspn_ws l;
  let url := url + n in
  l ← from b url;
  v ← strpbrk_ws l url;
  match v with
  | None => Some (BAD_REQUEST, with_url (Some url) None (with_buf b r))
  | Some v =>
      b ← put0 b v;
      l ← from b url;
      n ← strspn_ws l;
      let version := v + 1 + n in
      l ← from b version;
      http11 ← strcaseeq l (chars "HTTP/1.1");
      if negb http11 then
        Some (BAD_REQUEST, with_url (Some url) (Some version) (with_buf b r))
      else
        url ← skip_host b url;
        let r := with_url url (Some version) (with_buf b r) in
        match url with
        | None => Some (BAD_REQUEST, r)
        | Some url =>
            c ← char_at b url;
            if c =? 47 then Some (NO_REQUEST, with_state CHECK_STATE_HEADER r)
            else Some (BAD_REQUEST, r)
        end
  end.

Definition parse_request_line (text : Z) (r : request) : option (HTTP_CODE * request) :=
  l ← from (m_read_buf r) text;
  u ← strpbrk_ws l text;
  match u with
  | None => Some (BAD_REQUEST, with_url None (m_version r) r)
  | Some u =>
      b ← put0 (m_read_buf r) u;
      let url := u + 1 in
      method ← from b text;
      get ← strcaseeq method (chars "GET");
      if negb get then Some (BAD_REQUEST, with_url (Some url) (m_version r) (with_buf b r))
      else parse_target url b r
  end.

(** ** [parse_headers] and [parse_content] *)

Definition unknown_header (line : list Z) : list Z :=
  chars "unknow header: " ++ line ++ [LF].

(** The result, and the line that is printed, if any. *)
Definition parse_header (text : Z) (r : request) : option (HTTP_CODE * request * list Z) :=
  c ← char_at (m_read_buf r) text;
  if c =? 0 then
    if negb (m_content_length r =? 0) then
      Some (NO_REQUEST, with_state CHECK_STATE_CONTENT r, [])
    else Some (GET_REQUEST, r, [])
  else
    l ← from (m_read_buf r) text;
    connection ← strncaseeq l (chars "Connection:");
    if (connection : bool) then
      l ← from (m_read_buf r) (text + 11);
      n ← strspn_ws l;
      l ← from (m_read_buf r) (text + 11 + n);
      keep ← strcaseeq l (chars "keep-alive");
      Some (NO_REQUEST, if (keep : bool) then with_linger true r else r, [])
    else
      content ← strncaseeq l (chars "Content-Length:");
      if (content : bool) then
        l ← from (m_read_buf r) (text + 15);
        n ← strspn_ws l;
        l ← from (m_read_buf r) (text + 15 + n);
        s ← terminated l;
        Some (NO_REQUEST, with_length (atoi s) r, [])
      else
        host ← strncaseeq l (chars "Host:");
        if (host : bool) then
          l ← from (m_read_buf r) (text + 5);
          n ← strspn_ws l;
          Some (NO_REQUEST, with_host (Some (text + 5 + n)) r, [])
        else
          s ← terminated l;
          Some (NO_REQUEST, r, unknown_header s).

Definition parse_headers (text : Z) (r : request) : M (HTTP_CODE * request) :=
  '(code, r, line) ← or_undef (parse_header text r);
  match line with
  | [] => mret (code, r)
  | _ => output (CStdout line);; mret (code, r)
  end.

Definition parse_content (text : Z) (r : request) : option (HTTP_CODE * request) :=
  if m_content_length r + m_checked_idx r <=? m_read_idx r then
    b ← put0 (m_read_buf r) (text + m_content_length r);
    Some (GET_REQUEST, with_buf b r)
  else Some (NO_REQUEST, r).

(** ** [process_read] *)

Definition got_line (line : list Z) : list Z :=
  chars "got 1 http line: " ++ line ++ [LF].

(** The body of the [while] loop for the line at [text]: [inl code] is a
    [return], [inr] that [do_request] is to be called, [again] the next pass. *)
Definition verdict : Type := ((HTTP_CODE + unit) * request)%type.
Definition process_line (again : LINE_STATUS -> request -> M verdict) (text : Z) (r : request) :
    M verdict :=
  l ← or_undef (from (m_read_buf r) text);
  s ← or_undef (terminated l);
  output (CStdout (got_line s));;
  match m_check_state r with
  | CHECK_STATE_REQUESTLINE =>
      '(ret, r) ← or_undef (parse_request_line text r);
      match ret with
      | BAD_REQUEST => mret (inl BAD_REQUEST, r)
      | _ => again LINE_OK r
      end
  | CHECK_STATE_HEADER =>
      '(ret, r) ← parse_headers text r;
      match ret with
      | BAD_REQUEST => mret (inl BAD_REQUEST, r)
      | GET_REQUEST => mret (inr (), r)
      | _ => again LINE_OK r
      end
  | CHECK_STATE_CONTENT =>
      '(ret, r) ← or_undef (parse_content text r);
      match ret with
      | GET_REQUEST => mret (inr (), r)
      | _ => again LINE_OPEN r
      end
  end.

(** The [while] loop. *)
Fixpoint read_loop (fuel : nat) (line_status : LINE_STATUS) (r : request) : M verdict :=
  match fuel with
  | O => halted NoFuel
  | S f =>
      let next r := process_line (read_loop f) (m_start_line r) (with_start (m_checked_idx r) r) in
      match m_check_state r, line_status with
      | CHECK_STATE_CONTENT, LINE_OK => next r
      | _, _ =>
          '(status, r) ← or_undef (parse_line r);
          match status with
          | LINE_OK => next r
          | _ => mret (inl NO_REQUEST, r)
          end
      end
  end.

(** Every line moves [m_checked_idx] by at least one, and only one pass in the
    content state does not read a line. *)
Definition read_fuel : nat := Z.to_nat (2 * READ_BUFFER_SIZE + 4).
Definition parse_request (r : request) : M verdict :=
  read_loop read_fuel LINE_OK r.

(** A request with the bytes [d] in the buffer. *)
Definition received_request (d : list Z) : request :=
  Request (d ++ replicate (Z.to_nat READ_BUFFER_SIZE - length d) 0)
    (Z.of_nat (length d)) 0 0 CHECK_STATE_REQUESTLINE None None None 0 false.

(** ** The specification: a parser of byte lists *)

Inductive next : Type := Open | Bad | Line (text rest : list Z).

Fixpoint next_line (l : list Z) : next :=
  match l with
  | [] => Open
  | c :: l' =>
      if c =? CR then
        match l' with
        | [] => Open
        | c2 :: l2 => if c2 =? LF then Line [] l2 else Bad
        end
      else if c =? LF then Bad
      else match next_line l' with
           | Line t rest => Line (c :: t) rest
           | x => x
           end
  end.

(** The characters before the first blank, and those after it. *)
Fixpoint word (l : list Z) : option (list Z * list Z) :=
  match l with
  | [] => None
  | c :: l' => if is_ws c then Some ([], l') else '(w, r) ← word l'; Some (c :: w, r)
  end.
Fixpoint skip_ws (l : list Z) : list Z :=
  match l with
  | [] => []
  | c :: l' => if is_ws c then skip_ws l' else l
  end.
Fixpoint to_slash (l : list Z) : option (list Z) :=
  match l with
  | [] => None
  | c :: l' => if c =? 47 then Some l else to_slash l'
  end.
Definition same (s lit : list Z) : bool := bool_decide (map tolower s = map tolower lit).
Definition starts (s lit : list Z) : bool := same (take (length lit) s) lit.

(** The path of a request's target. *)
Definition target_path (u : list Z) : option (list Z) :=
  if starts u (chars "http://") then to_slash (drop 7 u)
  else if starts u (chars "https://") then to_slash (drop 8 u)
  else match u with
       | c :: _ => if c =? 47 then Some u else None
       | [] => None
       end.

(** "GET", a blank or more, the target, exactly one blank, "HTTP/1.1". *)
Definition target_of (s : list Z) : option (list Z) :=
  '(u, version) ← word (skip_ws s);
  if same version (chars "HTTP/1.1") then target_path u else None.
Definition request_path (s : list Z) : option (list Z) :=
  '(method, r) ← word s;
  if same method (chars "GET") then target_of r else None.

(** The length and [keep-alive] after a header line. *)
Definition header (s : list Z) (clen : Z) (linger : bool) : Z * bool :=
  if starts s (chars "Connection:") then
    (clen, same (skip_ws (drop 11 s)) (chars "keep-alive") || linger)
  else if starts s (chars "Content-Length:") then (atoi (skip_ws (drop 15 s)), linger)
  else (clen, linger).

Inductive parsed : Type :=
| Unfinished
| Rejected
| Overrun (clen : Z)
| Complete (path : list Z) (clen : Z) (linger : bool).

(** The body: [t] and [c] are the places of [text] and of [m_checked_idx], [n]
    is the number of bytes received. *)
Fixpoint body (fuel : nat) (path : list Z) (clen : Z) (linger : bool) (n t c : Z) (rest : list Z) : parsed :=
  match fuel with
  | O => Unfinished
  | S f =>
      if clen + c <=? n then
        if (0 <=? t + clen) && (t + clen <? READ_BUFFER_SIZE) then Complete path clen linger
        else Overrun clen
      else match next_line rest with
           | Line l rest' => body f path clen linger n c (c + Z.of_nat (length l) + 2) rest'
           | _ => Unfinished
           end
  end.

Fixpoint headers (fuel : nat) (path : list Z) (clen : Z) (linger : bool) (n : Z) (rest : list Z) : parsed :=
  match fuel with
  | O => Unfinished
  | S f =>
      match next_line rest with
      | Line l rest' =>
          match c_string l with
          | [] =>
              if clen =? 0 then Complete path clen linger
              else
                let c := n - Z.of_nat (length rest') in
                if bool_decide (0 ∈ rest') || (n <? READ_BUFFER_SIZE)
                then body f path clen linger n c c rest'
                else Overrun clen
          | s => let '(clen, linger) := header s clen linger in headers f path clen linger n rest'
          end
      | _ => Unfinished
      end
  end.

Definition http_spec (d : list Z) : parsed :=
  match next_line d with
  | Line l rest =>
      match request_path (c_string l) with
      | Some path => headers (length d) path 0 false (Z.of_nat (length d)) rest
      | None => Rejected
      end
  | _ => Unfinished
  end.

(** ** Indices into a buffer given by its parts *)

Lemma char_at_app a x b i : i = Z.of_nat (length a) -> char_at (a ++ x :: b) i = Some x.
Proof.
  intros ->. unfold char_at. rewrite (proj2 (Z.leb_le _ _)), Nat2Z.id by lia. by apply list_lookup_middle.
Qed.
Lemma put0_app a x b i : i = Z.of_nat (length a) -> put0 (a ++ x :: b) i = Some (a ++ 0 :: b).
Proof.
  intros ->. unfold put0. rewrite length_app. cbn [length]. zif. rewrite Nat2Z.id.
  rewrite insert_app_r_alt by lia. by rewrite Nat.sub_diag.
Qed.
Lemma from_app a b i : i = Z.of_nat (length a) -> from (a ++ b) i = Some b.
Proof.
  intros ->. unfold from. rewrite length_app. zif. rewrite Nat2Z.id. by rewrite drop_app_length.
Qed.

Lemma word_split l w r : word l = Some (w, r) ->
  exists c, l = w ++ c :: r /\ is_ws c = true /\ Forall (fun x => is_ws x = false) w.
Proof.
  revert w r. induction l as [|c l IH]; intros w r H; [done|]. cbn [word] in H.
  destruct (is_ws c) eqn:E; [simplify_eq; by exists c|].
  destruct (word l) as [[w' r']|] eqn:Ew; [|done]. simplify_eq/=.
  destruct (IH w' r eq_refl) as (x & -> & Hx & Hw). exists x. split_and!; [done|done|by constructor].
Qed.
Lemma word_none l : word l = None -> Forall (fun x => is_ws x = false) l.
Proof.
  induction l as [|c l IH]; intros H; [constructor|]. cbn [word] in H.
  destruct (is_ws c) eqn:E; [done|]. destruct (word l) as [[w r]|]; [done|]. by constructor; auto.
Qed.

(** Strings in the buffer contain no null byte. *)
Definition nonul (l : list Z) : Prop := Forall (fun c => c <> 0) l.

Lemma strpbrk_blank w c r i :
  nonul w -> Forall (fun x => is_ws x = false) w -> is_ws c = true ->
  strpbrk_ws (w ++ c :: r) i = Some (Some (i + Z.of_nat (length w))).
Proof.
  intros Hn Hw Hc. revert i Hn. induction Hw as [|x w Hx _ IH]; intros i Hn; cbn [app strpbrk_ws].
  - destruct (c =? 0) eqn:E; [|rewrite Hc; cbn; do 2 f_equal; lia].
    apply Z.eqb_eq in E as ->. done.
  - inversion Hn; subst. rewrite (proj2 (Z.eqb_neq _ _)), Hx by done. rewrite IH by done.
    cbn [length]. do 2 f_equal. lia.
Qed.
Lemma strpbrk_none s tl i :
  nonul s -> Forall (fun x => is_ws x = false) s -> strpbrk_ws (s ++ 0 :: tl) i = Some None.
Proof.
  intros Hn Hw. revert i Hn. induction Hw as [|x w Hx _ IH]; intros i Hn; cbn [app strpbrk_ws]; [done|].
  inversion Hn; subst. by rewrite (proj2 (Z.eqb_neq _ _)), Hx, IH by done.
Qed.

(** [strspn] and [skip_ws] *)
Lemma skip_ws_split l : exists w, l = w ++ skip_ws l /\ Forall (fun x => is_ws x = true) w /\
  (forall c r, skip_ws l = c :: r -> is_ws c = false).
Proof.
  induction l as [|c l (w & Hl & Hw & Hs)]; [by exists []|]. cbn [skip_ws].
  destruct (is_ws c) eqn:E; [|exists []; split_and!; [done|done|]; intros; by simplify_eq].
  exists (c :: w). rewrite Hl at 1. split_and!; [done|by constructor|done].
Qed.
Lemma strspn_blanks w s tl :
  Forall (fun x => is_ws x = true) w -> (forall c r, s = c :: r -> is_ws c = false) ->
  strspn_ws (w ++ s ++ 0 :: tl) = Some (Z.of_nat (length w)).
Proof.
  intros Hw Hs. induction Hw as [|x w Hx _ IH]; cbn [app strspn_ws].
  - destruct s as [|c s]; cbn [app strspn_ws]; [done|]. by rewrite (Hs c s).
  - rewrite Hx, IH. cbn. f_equal. lia.
Qed.
Lemma strspn_skip s tl :
  strspn_ws (s ++ 0 :: tl) = Some (Z.of_nat (length s) - Z.of_nat (length (skip_ws s))).
Proof.
  destruct (skip_ws_split s) as (w & Hs & Hw & Hn). rewrite Hs at 1. rewrite <- app_assoc.
  rewrite strspn_blanks by done. f_equal. apply (f_equal length) in Hs.
  rewrite length_app in Hs. lia.
Qed.

(** The comparisons *)
Lemma strcaseeq_spec s lit tl :
  nonul s -> nonul lit -> strcaseeq (s ++ 0 :: tl) lit = Some (same s lit).
Proof.
  intros Hs Hl. unfold same. revert lit Hl.
  induction Hs as [|c s Hc Hs IH]; intros lit Hl; destruct Hl as [|x lit Hx Hl]; cbn [app strcaseeq map].
  - done.
  - assert (tolower x <> 0) by (unfold tolower; destruct (_ && _) eqn:?; lia).
    change (tolower 0) with 0. rewrite (proj2 (Z.eqb_neq _ _)) by congruence. done.
  - rewrite (proj2 (Z.eqb_neq _ _)) by done. done.
  - destruct (tolower c =? tolower x) eqn:E.
    + rewrite IH by done. apply Z.eqb_eq in E. rewrite E. f_equal. apply bool_decide_ext.
      split; [intros Hm; by rewrite Hm|by intros [= Hm]].
    + apply Z.eqb_neq in E. f_equal. symmetry. apply bool_decide_eq_false. congruence.
Qed.
Lemma strncaseeq_spec s lit tl :
  nonul s -> nonul lit -> strncaseeq (s ++ 0 :: tl) lit = Some (starts s lit).
Proof.
  intros Hs Hl. unfold starts, same. revert lit Hl.
  induction Hs as [|c s Hc Hs IH]; intros lit Hl; destruct Hl as [|x lit Hx Hl]; cbn [app strncaseeq length take map].
  - done.
  - assert (tolower x <> 0) by (unfold tolower; destruct (_ && _) eqn:?; lia).
    change (tolower 0) with 0. rewrite (proj2 (Z.eqb_neq _ _)) by congruence. done.
  - done.
  - destruct (tolower c =? tolower x) eqn:E.
    + rewrite IH by done. apply Z.eqb_eq in E. rewrite E. f_equal. apply bool_decide_ext.
      split; [intros Hm; by rewrite Hm|by intros [= Hm]].
    + apply Z.eqb_neq in E. f_equal. symmetry. apply bool_decide_eq_false. congruence.
Qed.
Lemma strchr_slash s tl i :
  nonul s -> strchr_from 47 (s ++ 0 :: tl) i =
    Some (match to_slash s with
          | Some p => Some (i + Z.of_nat (length s) - Z.of_nat (length p))
          | None => None
          end).
Proof.
  intros Hs. revert i. induction Hs as [|c s Hc Hs IH]; intros i; cbn [app strchr_from to_slash]; [done|].
  destruct (c =? 47); [do 2 f_equal; cbn [length]; lia|].
  rewrite (proj2 (Z.eqb_neq _ _)), IH by done. destruct (to_slash s); [|done]. do 2 f_equal. cbn [length]. lia.
Qed.
Lemma c_string_app s tl : nonul s -> c_string (s ++ 0 :: tl) = s.
Proof.
  induction 1 as [|c s Hc _ IH]; [done|]. cbn [app c_string]. by rewrite (proj2 (Z.eqb_neq _ _)), IH.
Qed.
Lemma c_string_nonul l : nonul (c_string l).
Proof.
  induction l as [|c l IH]; [constructor|]. cbn [c_string]. destruct (c =? 0) eqn:E; [constructor|].
  constructor; [lia|done].
Qed.
Lemma c_string_prefix l : exists x, l = c_string l ++ x.
Proof.
  induction l as [|c l [x IH]]; [by exists []|]. cbn [c_string]. destruct (c =? 0); [by eexists|].
  exists x. cbn [app]. by f_equal.
Qed.
(** A line with its terminator holds its string and a null byte. *)
(** ** The request line *)

Lemma to_slash_split l p : to_slash l = Some p -> exists h q, l = h ++ p /\ p = 47 :: q.
Proof.
  revert p. induction l as [|c l IH]; intros p H; [done|]. cbn [to_slash] in H.
  destruct (c =? 47) eqn:E; [simplify_eq; exists [], l; split; [done|]; f_equal; lia|].
  destruct (IH p H) as (h & q & -> & ->). by exists (c :: h), q.
Qed.

Lemma nonul_app a b : nonul (a ++ b) <-> nonul a /\ nonul b.
Proof. apply Forall_app. Qed.

Lemma starts_split s lit : starts s lit = true -> exists h t, s = h ++ t /\ length h = length lit /\ drop (length lit) s = t.
Proof.
  unfold starts, same. intros H%bool_decide_eq_true. apply (f_equal length) in H.
  rewrite !length_map in H. exists (take (length lit) s), (drop (length lit) s).
  by rewrite take_drop.
Qed.

(** The part of the target that the pointer ends up at. *)
Definition slash_first (p : list Z) : option (list Z) :=
  match p with c :: _ => if c =? 47 then Some p else None | [] => None end.

Lemma skip_scheme a t z n p0 :
  nonul t -> drop n t = p0 -> (n <= length t)%nat ->
  exists o, (l ← from (a ++ t ++ 0 :: z) (Z.of_nat (length a) + Z.of_nat n);
             strchr_from 47 l (Z.of_nat (length a) + Z.of_nat n)) = Some o /\
    match o with
    | None => to_slash p0 = None
    | Some i => exists h p, t = h ++ p /\ i = Z.of_nat (length a) + Z.of_nat (length h) /\
                  to_slash p0 = slash_first p
    end.
Proof.
  intros Ht Hd Hn. rewrite <- (take_drop n t) in Ht |- *. rewrite Hd in *.
  apply nonul_app in Ht as [_ Ht].
  rewrite <- (app_assoc (take n t)), (app_assoc a (take n t)).
  rewrite from_app by (rewrite length_app, length_take; lia).
  cbn [mbind option_bind]. rewrite strchr_slash by done.
  eexists. split; [done|]. destruct (to_slash p0) as [p|] eqn:E; [|done].
  apply to_slash_split in E as (h & q & -> & ->). exists (take n t ++ h), (47 :: q).
  rewrite <- app_assoc. split; [done|]. rewrite !length_app, length_take. cbn [length].
  split; [lia|done].
Qed.

Lemma skip_host_spec a t z :
  nonul t ->
  exists o, skip_host (a ++ t ++ 0 :: z) (Z.of_nat (length a)) = Some o /\
    match o with
    | None => target_path t = None
    | Some i => exists h p, t = h ++ p /\ i = Z.of_nat (length a) + Z.of_nat (length h) /\
                  target_path t = slash_first p
    end.
Proof.
  intros Ht. unfold skip_host, target_path.
  rewrite (from_app a _ (Z.of_nat (length a))) by done. cbn [mbind option_bind].
  rewrite (strncaseeq_spec t (chars "http://")) by (try done; by repeat constructor). cbn [mbind option_bind].
  destruct (starts t (chars "http://")) eqn:E1.
  { apply starts_split in E1 as (h & p & Ht' & Hl & Hd). apply (skip_scheme a t z 7 (drop 7 t)); [done|done|].
    rewrite Ht', length_app, Hl. cbn. lia. }
  rewrite (strncaseeq_spec t (chars "https://")) by (try done; by repeat constructor). cbn [mbind option_bind].
  destruct (starts t (chars "https://")) eqn:E2.
  { apply starts_split in E2 as (h & p & Ht' & Hl & Hd). apply (skip_scheme a t z 8 (drop 8 t)); [done|done|].
    rewrite Ht', length_app, Hl. cbn. lia. }
  eexists. split; [done|]. exists [], t. split; [done|]. split; [cbn; lia|done].
Qed.

(** The buffer after an accepted request line: the path at [m_url]. *)
Definition path_at (pre : list Z) (u : Z) (path : list Z) : Prop :=
  nonul path /\ exists a z, pre = a ++ path ++ 0 :: z /\ u = Z.of_nat (length a).

Lemma parse_target_spec r A s tl :
  nonul s ->
  exists code r', parse_target (Z.of_nat (length A)) (A ++ s ++ 0 :: tl) r = Some (code, r') /\
    match target_of s with
    | None => code = BAD_REQUEST
    | Some path => code = NO_REQUEST /\ exists s' u v,
        length s' = length s /\ path_at (A ++ s' ++ [0]) u path /\
        r' = with_state CHECK_STATE_HEADER (with_url (Some u) v (with_buf (A ++ s' ++ 0 :: tl) r))
    end.
Proof.
  intros Hs. unfold parse_target, target_of.
  rewrite (from_app A _ (Z.of_nat (length A))) by done. cbn [mbind option_bind].
  rewrite strspn_skip. cbn [mbind option_bind].
  destruct (skip_ws_split s) as (w & Er & Hw & Hnw). set (r2 := skip_ws s) in *. clearbody r2. subst s.
  apply nonul_app in Hs as [_ Hs]. rewrite <- app_assoc, (app_assoc A w).
  assert (Hi : Z.of_nat (length A) + (Z.of_nat (length (w ++ r2)) - Z.of_nat (length r2)) =
    Z.of_nat (length (A ++ w))) by (rewrite !length_app; lia).
  rewrite Hi. clear Hi. set (B := A ++ w).
  rewrite (from_app B _ (Z.of_nat (length B))) by done. cbn [mbind option_bind].
  destruct (word r2) as [[t ver]|] eqn:Ew.
  2:{ rewrite strpbrk_none by (try done; by apply word_none). by eexists _, _. }
  apply word_split in Ew as (c & -> & Hc & Ht). rewrite <- app_assoc. cbn [app].
  apply nonul_app in Hs as [Ht0 Hs]. inversion Hs as [|? ? Hc0 Hv]; subst.
  rewrite strpbrk_blank by done. cbn [mbind option_bind].
  rewrite (app_assoc B t), put0_app by (rewrite length_app; lia). rewrite <- (app_assoc B t).
  cbn [mbind option_bind]. rewrite (from_app B _ (Z.of_nat (length B))) by done. cbn [mbind option_bind].
  pose proof (strspn_blanks [] t (ver ++ 0 :: tl)) as Hz. cbn [app length] in Hz.
  rewrite Hz by (try done; intros x y ->; by eapply Hnw). clear Hz. cbn [mbind option_bind].
  replace (B ++ t ++ 0 :: ver ++ 0 :: tl) with ((B ++ t ++ [0]) ++ ver ++ 0 :: tl)
    by by rewrite <- ?app_assoc.
  rewrite from_app by (rewrite !length_app; cbn; lia).
  cbn [mbind option_bind]. rewrite strcaseeq_spec by (try done; by repeat constructor).
  cbn [mbind option_bind]. destruct (same ver (chars "HTTP/1.1")); cbn [negb]; [|by eexists _, _].
  rewrite <- app_assoc, <- app_assoc. cbn [app].
  destruct (skip_host_spec B t (ver ++ 0 :: tl) Ht0) as (o & -> & Ho). cbn [mbind option_bind].
  destruct o as [i|]; [|rewrite Ho; by eexists _, _].
  destruct Ho as (h & p & -> & -> & ->). apply nonul_app in Ht0 as [_ Hp].
  rewrite <- (app_assoc h), (app_assoc B h).
  destruct p as [|x p]; cbn [app slash_first].
  { rewrite char_at_app by (rewrite length_app; lia). by eexists _, _. }
  rewrite char_at_app by (rewrite length_app; lia). cbn [mbind option_bind].
  destruct (x =? 47); [|by eexists _, _]. eexists _, _. split; [done|]. split; [done|].
  exists (w ++ (h ++ x :: p) ++ 0 :: ver), (Z.of_nat (length B) + Z.of_nat (length h)), 
    (Some (Z.of_nat (length B) + Z.of_nat (length (h ++ x :: p)) + 1 + 0)).
  split_and!.
  - rewrite !length_app. cbn [length]. lia.
  - split; [done|]. exists (B ++ h), (ver ++ [0]). split; [|rewrite !length_app; lia].
    unfold B. rewrite <- !app_assoc. cbn [app]. by rewrite <- ?app_assoc.
  - unfold B. rewrite <- !app_assoc. cbn [app]. by rewrite <- ?app_assoc.
Qed.

Lemma parse_request_line_spec r pre s tl :
  m_read_buf r = pre ++ s ++ 0 :: tl -> nonul s ->
  exists code r', parse_request_line (Z.of_nat (length pre)) r = Some (code, r') /\
    match request_path s with
    | None => code = BAD_REQUEST
    | Some path => code = NO_REQUEST /\ exists s' u v,
        length s' = length s /\ path_at (pre ++ s' ++ [0]) u path /\
        r' = with_state CHECK_STATE_HEADER (with_url (Some u) v (with_buf (pre ++ s' ++ 0 :: tl) r))
    end.
Proof.
  intros Hb Hs. unfold parse_request_line, request_path.
  rewrite Hb, (from_app pre _ (Z.of_nat (length pre))) by done.
  cbn [mbind option_bind]. destruct (word s) as [[m r1]|] eqn:Ew.
  2:{ rewrite strpbrk_none by (try done; by apply word_none). by eexists _, _. }
  apply word_split in Ew as (c & -> & Hc & Hm). rewrite <- app_assoc in *. cbn [app] in *.
  apply nonul_app in Hs as [Hm0 Hs]. inversion Hs as [|? ? Hc0 Hr1]; subst.
  rewrite strpbrk_blank by done. cbn [mbind option_bind].
  rewrite (app_assoc pre m), put0_app by (rewrite length_app; lia). cbn [mbind option_bind].
  rewrite <- (app_assoc pre m). rewrite (from_app pre _ (Z.of_nat (length pre))) by done.
  cbn [mbind option_bind].
  rewrite strcaseeq_spec by (try done; by repeat constructor). cbn [mbind option_bind].
  destruct (same m (chars "GET")); cbn [negb]; [|by eexists _, _].
  set (A := pre ++ m ++ [0]).
  replace (pre ++ m ++ 0 :: r1 ++ 0 :: tl) with (A ++ r1 ++ 0 :: tl) by (unfold A; by rewrite <- ?app_assoc).
  replace (Z.of_nat (length pre) + Z.of_nat (length m) + 1) with (Z.of_nat (length A))
    by (unfold A; rewrite !length_app; cbn; lia).
  destruct (parse_target_spec r A r1 tl Hr1) as (code & r' & -> & Hres). eexists _, _. split; [done|].
  destruct (target_of r1) as [path|]; [|done]. destruct Hres as (? & s' & u & v & Hl & Hp & ->).
  split; [done|]. exists (m ++ 0 :: s'), u, v. split_and!.
  - rewrite !length_app. cbn [length]. lia.
  - unfold A in Hp. rewrite <- !app_assoc in *. exact Hp.
  - unfold A. by rewrite <- ?app_assoc.
Qed.

(** ** The line reader *)

Lemma next_line_split rest t rest' : next_line rest = Line t rest' -> rest = t ++ CR :: LF :: rest'.
Proof.
  revert t rest'. induction rest as [|c l IH]; intros t rest' H; [done|]. cbn [next_line] in H.
  destruct (c =? CR) eqn:E1.
  - destruct l as [|c2 l2]; [done|]. destruct (c2 =? LF) eqn:E2; [|done]. simplify_eq.
    cbn [app]. f_equal; [lia|]. f_equal. lia.
  - destruct (c =? LF); [done|]. destruct (next_line l) eqn:El; simplify_eq. cbn [app]. f_equal. by apply IH.
Qed.

Lemma parse_line_loop_spec rest : forall r pre tail,
  m_read_buf r = pre ++ rest ++ tail -> m_checked_idx r = Z.of_nat (length pre) ->
  m_read_idx r = Z.of_nat (length pre) + Z.of_nat (length rest) -> last pre <> Some CR ->
  exists status r', parse_line_loop (length rest) r = Some (status, r') /\
    match next_line rest with
    | Line t rest' =>
        status = LINE_OK /\
        r' = with_checked (Z.of_nat (length pre) + Z.of_nat (length t) + 2)
               (with_buf (pre ++ t ++ 0 :: 0 :: rest' ++ tail) r)
    | _ => status <> LINE_OK
    end.
Proof.
  induction rest as [|c l IH]; intros r pre tail Hb Hc Hn Hl; cbn [length parse_line_loop next_line].
  { by eexists _, _. }
  rewrite Hb, Hc, Hn. cbn [app].
  rewrite (char_at_app pre c _ (Z.of_nat (length pre))) by done. cbn [mbind option_bind].
  destruct (c =? CR) eqn:E1; [destruct l as [|c2 l]|]; cbn [length] in *.
  - zif. by eexists _, _.
  - zif. cbn [app]. replace (pre ++ c :: c2 :: l ++ tail) with ((pre ++ [c]) ++ c2 :: l ++ tail)
      by by rewrite <- app_assoc.
    rewrite char_at_app by (rewrite length_app; cbn; lia). cbn [mbind option_bind].
    destruct (c2 =? LF); [|by eexists _, _].
    rewrite <- app_assoc. cbn [app]. rewrite put0_app by lia. cbn [mbind option_bind].
    replace (pre ++ 0 :: c2 :: l ++ tail) with ((pre ++ [0]) ++ c2 :: l ++ tail) by by rewrite <- app_assoc.
    rewrite put0_app by (rewrite length_app; cbn; lia). cbn [mbind option_bind].
    rewrite <- app_assoc. cbn [app length]. eexists _, _. split; [done|]. split; [done|].
    by rewrite Z.add_0_r.
  - destruct (c =? LF) eqn:E2.
    + destruct (1 <=? Z.of_nat (length pre)) eqn:E3; [|by eexists _, _].
      destruct pre as [|x pre _] using rev_ind; [done|].
      rewrite last_snoc in Hl. rewrite length_app in *. cbn [length] in *.
      rewrite <- app_assoc. cbn [app]. rewrite char_at_app by lia. cbn [mbind option_bind].
      rewrite (proj2 (Z.eqb_neq x CR)) by congruence. by eexists _, _.
    + destruct (IH (with_checked (Z.of_nat (length pre) + 1) r) (pre ++ [c]) tail)
        as (st & r' & -> & H); rewrite ?length_app; cbn [m_read_buf m_checked_idx m_read_idx with_checked length];
        [by rewrite Hb, <- app_assoc|lia|lia|rewrite last_snoc; intros [= ->]; lia|].
      exists st, r'. split; [done|]. destruct (next_line l) as [| |t rest']; [done|done|].
      destruct H as [-> ->]. split; [done|]. rewrite <- app_assoc, length_app. cbn [app length].
      unfold with_checked, with_buf. cbn. f_equal. lia.
Qed.

(** ** Header lines *)

Lemma from_drop pre s tl n k :
  k = Z.of_nat n -> (n <= length s)%nat ->
  from (pre ++ s ++ 0 :: tl) (Z.of_nat (length pre) + k) = Some (drop n s ++ 0 :: tl).
Proof.
  intros -> Hn. rewrite <- (take_drop n s) at 1. rewrite <- (app_assoc (take n s)), (app_assoc pre).
  rewrite from_app; [done|]. rewrite length_app, length_take. lia.
Qed.
Lemma from_value pre s tl n k :
  k = Z.of_nat n -> (n <= length s)%nat ->
  from (pre ++ s ++ 0 :: tl) (Z.of_nat (length pre) + k +
    (Z.of_nat (length (drop n s)) - Z.of_nat (length (skip_ws (drop n s))))) =
  Some (skip_ws (drop n s) ++ 0 :: tl).
Proof.
  intros -> Hn. destruct (skip_ws_split (drop n s)) as (w & Hw & _).
  replace (Z.of_nat (length pre) + Z.of_nat n + _) with (Z.of_nat (length pre) + Z.of_nat (n + length w)).
  - assert (Hd : drop (n + length w) s = skip_ws (drop n s)).
    { rewrite <- drop_drop, Hw at 1. by rewrite drop_app_length. }
    rewrite (from_drop pre s tl (n + length w)), Hd; [done|done|]. apply (f_equal length) in Hw. rewrite length_app, length_drop in Hw. lia.
  - apply (f_equal length) in Hw. rewrite length_app in Hw. lia.
Qed.
Lemma starts_length s lit : starts s lit = true -> (length lit <= length s)%nat.
Proof. intros (h & t & -> & Hl & _)%starts_split. rewrite length_app. lia. Qed.
Lemma nonul_drop n s : nonul s -> nonul (drop n s).
Proof. apply Forall_drop. Qed.
Lemma nonul_skip_ws s : nonul s -> nonul (skip_ws s).
Proof. intros Hs. destruct (skip_ws_split s) as (w & Hw & _). rewrite Hw in Hs. apply nonul_app in Hs. tauto. Qed.
Lemma terminated_app s tl : nonul s -> terminated (s ++ 0 :: tl) = Some s.
Proof.
  intros Hs. unfold terminated. rewrite bool_decide_eq_true_2 by set_solver. by rewrite c_string_app.
Qed.

Lemma parse_header_spec r pre s tl :
  m_read_buf r = pre ++ s ++ 0 :: tl -> nonul s -> s <> [] ->
  exists h line, parse_header (Z.of_nat (length pre)) r =
    Some (NO_REQUEST,
      let '(n, b) := header s (m_content_length r) (m_linger r) in
      with_host h (with_linger b (with_length n r)), line).
Proof.
  intros Hb Hs Hne. unfold parse_header, header. rewrite Hb.
  assert (Hc : exists c s', s = c :: s' /\ c <> 0).
  { destruct Hs as [|c s' Hc Hs]; [done|]. eauto. }
  destruct Hc as (c & s' & Ec & Hc0).
  assert (Hch : char_at (pre ++ s ++ 0 :: tl) (Z.of_nat (length pre)) = Some c)
    by (rewrite Ec; by apply char_at_app).
  rewrite Hch. cbn [mbind option_bind]. rewrite (proj2 (Z.eqb_neq c 0)) by done.
  rewrite (from_app pre _ (Z.of_nat (length pre))) by done. cbn [mbind option_bind].
  assert (Hl : forall lit, nonul lit -> strncaseeq (s ++ 0 :: tl) lit = Some (starts s lit))
    by (intros; by apply strncaseeq_spec).
  rewrite !Hl by (by repeat constructor). cbn [mbind option_bind].
  destruct (starts s (chars "Connection:")) eqn:E1.
  { apply starts_length in E1. cbn in E1. rewrite (from_drop pre s tl 11) by (try done; lia).
    cbn [mbind option_bind]. rewrite strspn_skip. cbn [mbind option_bind].
    rewrite (from_value pre s tl 11) by (try done; lia). cbn [mbind option_bind].
    rewrite strcaseeq_spec by (first [by apply nonul_skip_ws, nonul_drop|by repeat constructor]).
    cbn [mbind option_bind]. exists (m_host r), []. destruct r. by destruct (same _ _). }
  destruct (starts s (chars "Content-Length:")) eqn:E2.
  { apply starts_length in E2. cbn in E2. rewrite (from_drop pre s tl 15) by (try done; lia).
    cbn [mbind option_bind]. rewrite strspn_skip. cbn [mbind option_bind].
    rewrite (from_value pre s tl 15) by (try done; lia). cbn [mbind option_bind].
    rewrite terminated_app by (by apply nonul_skip_ws, nonul_drop). cbn [mbind option_bind].
    exists (m_host r), []. by destruct r. }
  destruct (starts s (chars "Host:")) eqn:E3.
  { apply starts_length in E3. cbn in E3. rewrite (from_drop pre s tl 5) by (try done; lia).
    cbn [mbind option_bind]. rewrite strspn_skip. cbn [mbind option_bind].
    eexists _, []. by destruct r. }
  rewrite terminated_app by done. cbn [mbind option_bind]. exists (m_host r). eexists. by destruct r.
Qed.

(** ** The state machine against the specification *)

(** Between two lines: [pre] has been analysed, [rest] received, [tail] is free. *)
Definition at_line (r : request) (pre rest tail : list Z) : Prop :=
  m_read_buf r = pre ++ rest ++ tail /\ Z.of_nat (length (pre ++ rest ++ tail)) = READ_BUFFER_SIZE /\
  m_checked_idx r = Z.of_nat (length pre) /\ m_start_line r = Z.of_nat (length pre) /\
  m_read_idx r = Z.of_nat (length pre) + Z.of_nat (length rest) /\
  last pre <> Some CR /\ (tail <> [] -> 0 ∈ tail).

Definition url_is (r : request) (pre : list Z) (path : list Z) : Prop :=
  exists u, m_url r = Some u /\ path_at pre u path.

Definition meets (p : parsed) (v : verdict) : Prop :=
  match p with
  | Unfinished => v.1 = inl NO_REQUEST
  | Rejected => v.1 = inl BAD_REQUEST
  | Overrun _ => False
  | Complete path n b =>
      v.1 = inr () /\ m_content_length v.2 = n /\ m_linger v.2 = b /\
      (0 <= n -> url_is v.2 (m_read_buf v.2) path)
  end.
(** The runs of [m] end as the specification says; undefined behaviour only
    when it foresees an access outside of the buffer. *)
Definition obeys (p : parsed) (m : M verdict) (w : world) : Prop :=
  runs m (fun v _ => meets p v) (fun h _ => h = Undefined /\ exists n, p = Overrun n) w.

Lemma path_at_app pre u path x : path_at pre u path -> path_at (pre ++ x) u path.
Proof. intros (Hn & a & z & -> & Hu). split; [done|]. exists a, (z ++ x). by rewrite <- !app_assoc. Qed.

Lemma terminated_ok l : 0 ∈ l -> exists s, terminated l = Some s.
Proof. intros H. unfold terminated. rewrite bool_decide_eq_true_2 by done. eauto. Qed.

(** One pass in the content state, for the text at the end of [pa]. *)
Lemma process_content again r pa pb tl path clen linger w p :
  m_check_state r = CHECK_STATE_CONTENT -> m_read_buf r = pa ++ pb ++ tl ->
  Z.of_nat (length (pa ++ pb ++ tl)) = READ_BUFFER_SIZE ->
  0 ∈ pb ++ tl -> url_is r pa path -> m_content_length r = clen -> m_linger r = linger ->
  (clen + m_checked_idx r <= m_read_idx r ->
     p = if (0 <=? Z.of_nat (length pa) + clen) && (Z.of_nat (length pa) + clen <? READ_BUFFER_SIZE)
         then Complete path clen linger else Overrun clen) ->
  (m_read_idx r < clen + m_checked_idx r -> forall w, obeys p (again LINE_OPEN r) w) ->
  obeys p (process_line again (Z.of_nat (length pa)) r) w.
Proof.
  intros Hst Hb Hlen H0 (u & Hu & Hp) Hcl Hli Hfin Hagain. unfold obeys, process_line.
  rewrite Hb, (from_app pa) by done. eapply runs_or_undef; [done|].
  destruct (terminated_ok _ H0) as (s & Hs). eapply runs_or_undef; [exact Hs|].
  apply runs_out; [done|]. intros w2. rewrite Hst. unfold parse_content. rewrite Hcl.
  destruct (clen + m_checked_idx r <=? m_read_idx r) eqn:E.
  - rewrite Hfin by lia. clear Hfin Hagain. unfold put0. rewrite Hb, Hlen.
    destruct ((0 <=? Z.of_nat (length pa) + clen) && _) eqn:E2; cbn [mbind option_bind].
    + eapply runs_or_undef; [done|]. apply runs_ret. cbn. split_and!; [done|done|done|].
      intros Hc. exists u. split; [done|]. rewrite insert_app_r_alt by lia. by apply path_at_app.
    + by apply runs_none; [|split; [|eexists]].
  - eapply runs_or_undef; [done|]. eapply runs_mono; [apply Hagain; lia|done|done].
Qed.

(** What a line leaves of the request as it was. *)
Definition keeps (r r' : request) : Prop :=
  m_check_state r' = m_check_state r /\ m_url r' = m_url r /\
  m_content_length r' = m_content_length r /\ m_linger r' = m_linger r.

Lemma parse_line_step r pre rest tail :
  at_line r pre rest tail ->
  exists status r', parse_line r = Some (status, r') /\
    match next_line rest with
    | Line l rest' =>
        status = LINE_OK /\ m_start_line r' = Z.of_nat (length pre) /\
        at_line (with_start (m_checked_idx r') r') (pre ++ l ++ [0; 0]) rest' tail /\
        keeps r r' /\ length rest = (length l + 2 + length rest')%nat
    | _ => status <> LINE_OK
    end.
Proof.
  intros (Hb & Hlen & Hc & Hs & Hn & Hl & Ht). unfold parse_line.
  replace (Z.to_nat (m_read_idx r - m_checked_idx r)) with (length rest) by lia.
  destruct (parse_line_loop_spec rest r pre tail Hb Hc Hn Hl) as (st & r' & -> & H).
  exists st, r'. split; [done|]. destruct (next_line rest) as [| |l rest'] eqn:E; [done|done|].
  apply next_line_split in E. destruct H as [-> ->]. split; [done|]. split; [done|].
  assert (Hlr : length rest = (length l + 2 + length rest')%nat) by (rewrite E, length_app; cbn; lia).
  split; [|done]. rewrite !length_app in Hlen.
  split_and!; cbn [m_read_buf m_checked_idx m_start_line m_read_idx with_start with_checked with_buf];
    rewrite ?length_app; cbn [length]; try lia; try done.
  - by rewrite <- ?app_assoc.
  - rewrite app_assoc, last_app. done.
Qed.

Lemma url_is_app r r' pre x path :
  m_url r' = m_url r -> url_is r pre path -> url_is r' (pre ++ x) path.
Proof. intros E (u & Hu & Hp). exists u. rewrite E. split; [done|]. by apply path_at_app. Qed.

Lemma body_spec f : forall F r pre rest tail path clen linger w,
  at_line r pre rest tail -> m_check_state r = CHECK_STATE_CONTENT -> url_is r pre path ->
  m_content_length r = clen -> m_linger r = linger ->
  (length rest <= f)%nat -> (length rest < F)%nat ->
  obeys (match next_line rest with
         | Line l rest' => body f path clen linger (m_read_idx r) (Z.of_nat (length pre))
                             (Z.of_nat (length pre) + Z.of_nat (length l) + 2) rest'
         | _ => Unfinished
         end) (read_loop F LINE_OPEN r) w.
Proof.
  induction f as [|f IH]; intros [|F] r pre rest tail path clen linger w Hat Hst Hu Hcl Hli Hf HF;
    try lia; cbn [read_loop]; rewrite Hst;
    destruct (parse_line_step _ _ _ _ Hat) as (st & r' & -> & Hstep); unfold obeys;
    (eapply runs_or_undef; [done|]);
    destruct (next_line rest) as [| |l rest'] eqn:E;
    try (destruct st; [done|by apply runs_ret..]);
    destruct Hstep as (-> & Hsl & Hat' & (K1 & K2 & K3 & K4) & Hlr); [lia|].
  rewrite Hsl. pose proof Hat' as (Hb' & Hlen' & Hc' & _ & Hn' & _ & _).
  pose proof Hat as (_ & _ & _ & _ & Hn & _ & _).
  cbn [m_read_buf m_checked_idx m_read_idx with_start] in Hb', Hc', Hn'.
  rewrite !length_app in Hc', Hn'. cbn [length] in Hc', Hn'.
  set (r2 := with_start (m_checked_idx r') r') in *.
  eapply (process_content (read_loop F) r2 pre (l ++ [0; 0]) (rest' ++ tail) path clen linger).
  - subst r2. cbn. congruence.
  - subst r2. cbn. rewrite Hb'. by rewrite <- ?app_assoc.
  - rewrite <- Hlen'. by rewrite <- ?app_assoc.
  - rewrite !elem_of_app. left. right. by left.
  - destruct Hu as (u & Hu & Hp). exists u. subst r2. cbn. rewrite K2. done.
  - subst r2. cbn. congruence.
  - subst r2. cbn. congruence.
  - subst r2. cbn [m_checked_idx m_read_idx with_start]. intros Hle. cbn [body].
    by rewrite (proj2 (Z.leb_le _ _)) by lia.
  - intros Hgt w2. cbn [body]. change (m_read_idx r') with (m_read_idx r2) in Hn'.
    change (m_checked_idx r') with (m_checked_idx r2) in Hc'.
    rewrite (proj2 (Z.leb_gt _ _)) by lia.
    assert (Hlp : Z.of_nat (length (pre ++ l ++ [0; 0])) = Z.of_nat (length pre) + Z.of_nat (length l) + 2)
      by (rewrite !length_app; cbn; lia).
    rewrite <- Hlp. replace (m_read_idx r) with (m_read_idx r2) by lia.
    eapply (IH F r2 (pre ++ l ++ [0; 0]) rest' tail path clen linger); try done; subst r2; cbn; try congruence; try lia.
    by apply (url_is_app r).
Qed.

(** A line with its terminator: its string, a null byte, and the remains. *)
Lemma line_string l : exists y, l ++ [0; 0] = c_string l ++ 0 :: y /\ last (0 :: y) = Some 0.
Proof.
  induction l as [|c l (y & IH & Hy)]; [by exists [0]|]. cbn [c_string app].
  destruct (c =? 0) eqn:E.
  - apply Z.eqb_eq in E as ->. exists (l ++ [0; 0]). split; [done|].
    change (0 :: l ++ [0; 0]) with ((0 :: l) ++ [0] ++ [0]). rewrite app_assoc. by rewrite last_snoc.
  - exists y. split; [|done]. cbn [app]. by f_equal.
Qed.

Lemma runs_parse_headers {B} text r code r' line (f : HTTP_CODE * request -> M B) Q H w :
  parse_header text r = Some (code, r', line) ->
  (forall w', runs (f (code, r')) (fun b _ => Q b) (fun h _ => H h) w') ->
  runs (parse_headers text r ≫= f) (fun b _ => Q b) (fun h _ => H h) w.
Proof.
  intros Hp Hf. unfold parse_headers. rewrite Hp. apply runs_bind.
  eapply runs_or_undef; [done|]. destruct line; [apply runs_ret|apply runs_out; [done|]; intros w2; apply runs_ret];
    intros w'; eapply runs_mono; [apply Hf|done|done|apply Hf|done|done].
Qed.

Section Headers.
Context (f : nat) (F : nat) (r : request) (pre l rest tail path : list Z) (clen : Z) (linger : bool).
Context (IH : forall r' pre' clen' linger' w,
  at_line r' pre' rest tail -> m_check_state r' = CHECK_STATE_HEADER -> url_is r' pre' path ->
  m_content_length r' = clen' -> m_linger r' = linger' ->
  obeys (headers f path clen' linger' (m_read_idx r) rest) (read_loop F LINE_OK r') w).
Context (Hat : at_line r (pre ++ l ++ [0; 0]) rest tail) (Hst : m_check_state r = CHECK_STATE_HEADER)
  (Hu : url_is r pre path) (Hcl : m_content_length r = clen) (Hli : m_linger r = linger)
  (Hf : (length rest < f)%nat) (HF : (length rest + 1 < F)%nat).

(** The blank line that announces a body. *)
Lemma blank_line_body w :
  c_string l = [] -> clen <> 0 ->
  let c := m_read_idx r - Z.of_nat (length rest) in
  obeys (if bool_decide (0 ∈ rest) || (m_read_idx r <? READ_BUFFER_SIZE)
         then body f path clen linger (m_read_idx r) c c rest else Overrun clen)
    (read_loop F LINE_OK (with_state CHECK_STATE_CONTENT r)) w.
Proof using All.
  intros Hs Hc0 c. pose proof Hat as (Hb & Hlen & Hc & Hsl & Hn & _ & Ht).
  set (pre' := pre ++ l ++ [0; 0]) in *.
  destruct F as [|F']; [lia|]. cbn [read_loop m_check_state with_state].
  cbn [m_start_line m_checked_idx with_state]. rewrite Hsl.
  set (r2 := with_start (m_checked_idx r) (with_state CHECK_STATE_CONTENT r)).
  assert (Ec : c = Z.of_nat (length pre')) by (unfold c; lia).
  assert (Hat2 : at_line r2 pre' rest tail) by (pose proof Hat as (? & ? & ? & ? & ? & ? & ?); by split_and!).
  assert (Hu2 : url_is r2 pre' path) by (destruct Hu as (u & ? & Hp); exists u; split; [done|]; by apply path_at_app).
  destruct (decide (0 ∈ rest ++ tail)) as [H0|H0].
  - assert (Hcond : bool_decide (0 ∈ rest) || (m_read_idx r <? READ_BUFFER_SIZE) = true).
    { apply elem_of_app in H0 as [H0|H0]; [by rewrite bool_decide_eq_true_2|].
      apply orb_true_iff. right. rewrite !length_app in Hlen. destruct tail; [set_solver|]. cbn in Hlen. lia. }
    rewrite Hcond, Ec. destruct f as [|f']; [lia|].
    eapply (process_content (read_loop F') r2 pre' [] (rest ++ tail) path clen linger); try done.
    + cbn [r2 m_checked_idx m_read_idx with_start with_state body]. intros Hle.
      by rewrite (proj2 (Z.leb_le _ _)) by lia.
    + cbn [r2 m_checked_idx m_read_idx with_start with_state body]. intros Hgt w2.
      rewrite (proj2 (Z.leb_gt _ _)) by lia.
      by apply (body_spec f' F' r2 pre' rest tail path clen linger); [..|lia|lia].
  - assert (Hcond : bool_decide (0 ∈ rest) || (m_read_idx r <? READ_BUFFER_SIZE) = false).
    { apply orb_false_iff. rewrite elem_of_app in H0. split; [apply bool_decide_eq_false; tauto|].
      rewrite !length_app in Hlen. destruct tail; [cbn in Hlen; lia|]. destruct H0. right. by apply Ht. }
    rewrite Hcond. unfold obeys, process_line. subst r2. cbn [m_read_buf with_start with_state].
    rewrite Hb, (from_app pre') by done. eapply runs_or_undef; [done|]. apply runs_none; [|eauto].
    unfold terminated. by rewrite bool_decide_eq_false_2.
Qed.

(** What the specification says of the line [l]. *)
Definition header_verdict : parsed :=
  match c_string l with
  | [] =>
      if clen =? 0 then Complete path clen linger
      else
        let c := m_read_idx r - Z.of_nat (length rest) in
        if bool_decide (0 ∈ rest) || (m_read_idx r <? READ_BUFFER_SIZE)
        then body f path clen linger (m_read_idx r) c c rest
        else Overrun clen
  | s => let '(clen, linger) := header s clen linger in headers f path clen linger (m_read_idx r) rest
  end.

Lemma header_line w : obeys header_verdict (process_line (read_loop F) (Z.of_nat (length pre)) r) w.
Proof using All.
  pose proof Hat as (Hb & Hlen & Hc & Hsl & Hn & Hl & Ht).
  destruct (line_string l) as (y & El & Hy).
  assert (Hb' : m_read_buf r = pre ++ c_string l ++ 0 :: (y ++ rest ++ tail)).
  { rewrite Hb, <- !app_assoc. change (l ++ [0; 0] ++ rest ++ tail) with (l ++ ([0; 0] ++ rest ++ tail)).
    rewrite (app_assoc l), El, <- app_assoc. done. }
  pose proof (c_string_nonul l) as Hns.
  unfold obeys, process_line. rewrite Hb', (from_app pre) by done. eapply runs_or_undef; [done|].
  rewrite terminated_app by done. eapply runs_or_undef; [done|].
  apply runs_out; [done|]. intros w2. rewrite Hst. unfold header_verdict.
  assert (Hu' : url_is r (pre ++ l ++ [0; 0]) path) by (by eapply url_is_app).
  destruct (c_string l) as [|ch s'] eqn:Es.
  - assert (Hch : char_at (m_read_buf r) (Z.of_nat (length pre)) = Some 0)
      by (rewrite Hb'; by apply char_at_app).
    destruct (clen =? 0) eqn:E0.
    + apply (runs_parse_headers _ _ GET_REQUEST r []).
      { unfold parse_header. rewrite Hch. cbn [mbind option_bind]. by rewrite Hcl, E0. }
      intros w3. apply runs_ret. split_and!; [done|done|done|]. intros _. cbn [snd].
      destruct Hu' as (u & ? & Hp). exists u. split; [done|]. rewrite Hb, <- app_assoc.
      change (pre ++ (l ++ [0; 0]) ++ rest ++ tail) with (pre ++ (l ++ [0; 0]) ++ (rest ++ tail)).
      rewrite (app_assoc pre). by apply path_at_app.
    + apply (runs_parse_headers _ _ NO_REQUEST (with_state CHECK_STATE_CONTENT r) []).
      { unfold parse_header. rewrite Hch. cbn [mbind option_bind]. by rewrite Hcl, E0. }
      intros w3. apply blank_line_body; [done|lia].
  - destruct (parse_header_spec r pre (ch :: s') (y ++ rest ++ tail) Hb' Hns) as (h & line & Hph); [done|].
    rewrite Hcl, Hli in Hph. destruct (header (ch :: s') clen linger) as [n b].
    apply (runs_parse_headers _ _ _ _ _ _ _ _ _ Hph). intros w3.
    by apply (IH (with_host h (with_linger b (with_length n r))) (pre ++ l ++ [0; 0])).
Qed.
End Headers.

Lemma headers_spec f : forall F r pre rest tail path clen linger w,
  at_line r pre rest tail -> m_check_state r = CHECK_STATE_HEADER -> url_is r pre path ->
  m_content_length r = clen -> m_linger r = linger ->
  (length rest < f)%nat -> (length rest + 1 < F)%nat ->
  obeys (headers f path clen linger (m_read_idx r) rest) (read_loop F LINE_OK r) w.
Proof.
  induction f as [|f IH]; intros [|F] r pre rest tail path clen linger w Hat Hst Hu Hcl Hli Hf HF;
    try lia; cbn [read_loop headers]; rewrite Hst;
    destruct (parse_line_step _ _ _ _ Hat) as (st & r' & -> & Hstep); unfold obeys;
    (eapply runs_or_undef; [done|]);
    destruct (next_line rest) as [| |l rest'] eqn:E;
    try (destruct st; [done|by apply runs_ret..]);
    destruct Hstep as (-> & Hsl & Hat' & (K1 & K2 & K3 & K4) & Hlr).
  rewrite Hsl. set (r2 := with_start (m_checked_idx r') r') in *.
  assert (Hidx : m_read_idx r2 = m_read_idx r).
  { pose proof Hat as (_ & _ & _ & _ & Hn & _ & _). pose proof Hat' as (_ & _ & _ & _ & Hn' & _ & _).
    rewrite !length_app in Hn'. cbn [length] in Hn'. lia. }
  rewrite <- Hidx.
  apply (header_line f F r2 pre l rest' tail path clen linger); subst r2; cbn; try congruence; try lia; try done.
  - intros r3 pre3 clen3 linger3 w3 Hat3 H1 H2 H3 H4.
    assert (E3 : m_read_idx r' = m_read_idx r3).
    { pose proof Hat' as (_ & Hl1 & _ & _ & Hn1 & _ & _). pose proof Hat3 as (_ & Hl3 & _ & _ & Hn3 & _ & _).
      repeat rewrite length_app in Hl1. repeat rewrite length_app in Hl3. repeat rewrite length_app in Hn1. cbn [length m_read_idx with_start] in Hl1, Hl3, Hn1. lia. }
    rewrite E3. by eapply IH; [..|lia|lia].
  - destruct Hu as (u & ? & ?). exists u. cbn. split; [congruence|done].
Qed.

(** ** A whole request *)

Lemma body_overrun f path clen linger n t c rest m :
  body f path clen linger n t c rest = Overrun m -> 0 <= t <= c ->
  m < 0 \/ READ_BUFFER_SIZE <= n.
Proof.
  revert t c rest. induction f as [|f IH]; intros t c rest H Htc; [done|]. cbn [body] in H.
  destruct (clen + c <=? n) eqn:E1.
  - destruct ((0 <=? t + clen) && _) eqn:E2; [done|]. simplify_eq. lia.
  - destruct (next_line rest) as [| |l rest']; [done|done|]. eapply IH; [exact H|lia].
Qed.
Lemma headers_overrun f path clen linger n rest m :
  headers f path clen linger n rest = Overrun m -> Z.of_nat (length rest) <= n ->
  m < 0 \/ READ_BUFFER_SIZE <= n.
Proof.
  revert clen linger rest. induction f as [|f IH]; intros clen linger rest H Hn; [done|]. cbn [headers] in H.
  destruct (next_line rest) as [| |l rest'] eqn:E; [done|done|].
  apply next_line_split in E. apply (f_equal length) in E. rewrite length_app in E. cbn [length] in E.
  destruct (c_string l) as [|ch s].
  - destruct (clen =? 0); [done|]. destruct (bool_decide _ || _) eqn:E2; [|simplify_eq; lia].
    eapply body_overrun; [exact H|lia].
  - destruct (header (ch :: s) clen linger) as [n' b']. eapply IH; [exact H|lia].
Qed.

Lemma at_line_init d :
  (length d <= Z.to_nat READ_BUFFER_SIZE)%nat ->
  at_line (received_request d) [] d (replicate (Z.to_nat READ_BUFFER_SIZE - length d) 0).
Proof.
  intros Hd. split_and!; try done.
  - cbn [app]. rewrite length_app, length_replicate. unfold READ_BUFFER_SIZE in *. lia.
  - intros H. destruct (Z.to_nat READ_BUFFER_SIZE - length d)%nat; [done|]. by left.
Qed.

Lemma request_line_step f F r l rest tail w :
  at_line r (l ++ [0; 0]) rest tail -> m_check_state r = CHECK_STATE_REQUESTLINE ->
  m_content_length r = 0 -> m_linger r = false ->
  (length rest < f)%nat -> (length rest + 1 < F)%nat ->
  obeys (match request_path (c_string l) with
         | Some path => headers f path 0 false (m_read_idx r) rest
         | None => Rejected
         end) (process_line (read_loop F) (Z.of_nat (length (@nil Z))) r) w.
Proof.
  intros Hat Hst Hcl Hli Hf HF. pose proof Hat as (Hb & Hlen & Hc & Hs & Hn & _ & Ht).
  destruct (line_string l) as (y & El & Hy).
  assert (Hb' : m_read_buf r = [] ++ c_string l ++ 0 :: (y ++ rest ++ tail)).
  { rewrite Hb, El, <- !app_assoc. done. }
  pose proof (c_string_nonul l) as Hns. unfold obeys, process_line.
  rewrite Hb', (from_app []) by done. eapply runs_or_undef; [done|].
  rewrite terminated_app by done. eapply runs_or_undef; [done|].
  apply runs_out; [done|]. intros w2. rewrite Hst.
  destruct (parse_request_line_spec r [] (c_string l) (y ++ rest ++ tail) Hb' Hns) as (code & r3 & Hp & H).
  eapply runs_or_undef; [exact Hp|]. destruct (request_path (c_string l)) as [path|].
  2:{ rewrite H. by apply runs_ret. }
  destruct H as (-> & s' & u & v & Hl & Hpath & Er3).
  replace (m_read_idx r) with (m_read_idx r3) by by rewrite Er3.
  apply (headers_spec f F r3 (s' ++ 0 :: y) rest tail path 0 false); try done; subst r3; try done.
  - assert (Hl2 : length (s' ++ 0 :: y) = length (l ++ [0; 0])).
    { rewrite El, !length_app. cbn [length]. lia. }
    split_and!; cbn [m_read_buf m_checked_idx m_start_line m_read_idx with_state with_url with_buf]; try done.
    + by rewrite <- app_assoc.
    + rewrite <- Hlen, length_app, Hl2, <- length_app. done.
    + by rewrite Hl2.
    + by rewrite Hl2.
    + by rewrite Hl2.
    + rewrite last_app. by rewrite Hy.
  - exists u. split; [done|]. cbn [app] in Hpath. apply (path_at_app _ _ _ y) in Hpath.
    by rewrite <- app_assoc in Hpath.
Qed.

Lemma parse_obeys d w :
  (length d <= Z.to_nat READ_BUFFER_SIZE)%nat ->
  obeys (http_spec d) (parse_request (received_request d)) w.
Proof.
  intros Hd.
  pose proof (at_line_init d Hd) as Hat. set (r := received_request d) in *.
  set (tail := replicate (Z.to_nat READ_BUFFER_SIZE - length d) 0) in *.
  assert (HF : (Z.to_nat READ_BUFFER_SIZE + 2 <= read_fuel)%nat) by (unfold read_fuel, READ_BUFFER_SIZE; lia).
  unfold parse_request, http_spec. destruct read_fuel as [|F]; [lia|]. cbn [read_loop].
  change (m_check_state r) with CHECK_STATE_REQUESTLINE. cbv iota.
  destruct (parse_line_step _ _ _ _ Hat) as (st & r' & -> & Hstep). unfold obeys.
  eapply runs_or_undef; [done|]. destruct (next_line d) as [| |l rest] eqn:E;
    try (destruct st; [done|by apply runs_ret..]).
  destruct Hstep as (-> & Hsl & Hat' & (K1 & K2 & K3 & K4) & Hlr).
  rewrite Hsl. pose proof Hat' as (_ & Hl & _ & _ & Hn & _). pose proof Hat as (_ & Hl0 & _).
  cbn [app] in *. set (r2 := with_start (m_checked_idx r') r') in *.
  replace (Z.of_nat (length d)) with (m_read_idx r2).
  - unfold r in K1, K3, K4. cbn in K1, K3, K4.
    apply (request_line_step (length d) F r2 l rest tail w Hat'); subst r2; cbn; try congruence; lia.
  - rewrite Hn. repeat rewrite length_app. cbn [length]. lia.
Qed.


Definition crlf : list Z := [CR; LF].
Definition request_1 : list Z :=
  chars "GET  http://example.org/a/b.html HTTP/1.1" ++ crlf ++ chars "Host: x" ++ crlf ++
  chars "Connection: keep-alive" ++ crlf ++ crlf.
(** A request that makes the server write in front of its buffer. *)
Definition request_2 : list Z :=
  chars "GET / HTTP/1.1" ++ crlf ++ chars "Content-Length: -9000" ++ crlf ++ crlf.

