(* ===== verification/HttpReply.v ===== *)
(** * The HTTP replies

    youshuang/ch15_pool/thread_pool/http_conn.cpp: [do_request], the
    [add_response] family, [process_write], [write], [read], [close_conn],
    [init] and [process].  The reply is composed in a buffer of 1024 bytes by
    functions whose failures are not looked at; the file is mapped and sent
    from the mapping by [writev]. *)

From S2P Require Import Unix NonBlock Http.

Definition WRITE_BUFFER_SIZE : Z := 1024.
Definition FILENAME_LEN : Z := 200.
Definition S_IROTH : Z := 4.
Definition S_IFMT : Z := 61440.
Definition S_IFDIR : Z := 16384.
Definition EPOLLIN : Z := 1.
Definition EPOLLOUT : Z := 4.
Definition EPOLLRDHUP : Z := 8192.
Definition EPOLLONESHOT : Z := 2 ^ 30.
Definition EPOLLET : Z := 2 ^ 31.

Definition doc_root : list Z := chars "htdocs".
Definition ok_200_title : list Z := chars "OK".
Definition error_400_title : list Z := chars "Bad Request".
Definition error_400_form : list Z :=
  chars "Your request has bad syntax or is inherently impossible to satisfy." ++ [LF].
Definition error_403_title : list Z := chars "Forbidden".
Definition error_403_form : list Z :=
  chars "You do not have permission to get file from this server." ++ [LF].
Definition error_404_title : list Z := chars "Not Found".
Definition error_404_form : list Z :=
  chars "The requested file was not found on this server." ++ [LF].
Definition error_500_title : list Z := chars "Internal Error".
Definition error_500_form : list Z :=
  chars "There was an unusual problem serving the requested file." ++ [LF].

(** ** The connection *)

(** [m_file_address]: null, [MAP_FAILED], or the mapped bytes. *)
Inductive mapping : Type := MapNull | MapFailed | Mapped (bytes : list Z).
(** The [iov_base] that occur: the write buffer and the mapped file. *)
Inductive iovec : Type := IovBuf (len : Z) | IovFile (len : Z).

Record http_conn : Type := Conn {
  m_sockfd : Z;
  m_req : request;
  m_write_buf : list Z;
  m_write_idx : Z;
  m_real_file : list Z;
  m_file_address : mapping;
  m_st_mode : Z;
  m_st_size : Z;
  m_iv : list iovec
}.

Definition with_req (r : request) (c : http_conn) : http_conn :=
  Conn (m_sockfd c) r (m_write_buf c) (m_write_idx c) (m_real_file c) (m_file_address c)
    (m_st_mode c) (m_st_size c) (m_iv c).
Definition with_write (b : list Z) (i : Z) (c : http_conn) : http_conn :=
  Conn (m_sockfd c) (m_req c) b i (m_real_file c) (m_file_address c)
    (m_st_mode c) (m_st_size c) (m_iv c).
Definition with_file (f : list Z) (c : http_conn) : http_conn :=
  Conn (m_sockfd c) (m_req c) (m_write_buf c) (m_write_idx c) f (m_file_address c)
    (m_st_mode c) (m_st_size c) (m_iv c).
Definition with_map (m : mapping) (c : http_conn) : http_conn :=
  Conn (m_sockfd c) (m_req c) (m_write_buf c) (m_write_idx c) (m_real_file c) m
    (m_st_mode c) (m_st_size c) (m_iv c).
Definition with_stat (mode size : Z) (c : http_conn) : http_conn :=
  Conn (m_sockfd c) (m_req c) (m_write_buf c) (m_write_idx c) (m_real_file c) (m_file_address c)
    mode size (m_iv c).
Definition with_iv (iv : list iovec) (c : http_conn) : http_conn :=
  Conn (m_sockfd c) (m_req c) (m_write_buf c) (m_write_idx c) (m_real_file c) (m_file_address c)
    (m_st_mode c) (m_st_size c) iv.
Definition with_sockfd (fd : Z) (c : http_conn) : http_conn :=
  Conn fd (m_req c) (m_write_buf c) (m_write_idx c) (m_real_file c) (m_file_address c)
    (m_st_mode c) (m_st_size c) (m_iv c).

(** The private [init]: all buffers are zeroed, the mapping is not touched. *)
Definition init_conn (c : http_conn) : http_conn :=
  Conn (m_sockfd c) init (replicate (Z.to_nat WRITE_BUFFER_SIZE) 0) 0
    (replicate (Z.to_nat FILENAME_LEN) 0) (m_file_address c) (m_st_mode c) (m_st_size c) (m_iv c).

(** ** epoll *)

Definition EPOLL_CTL_ADD : Z := 1.
Definition EPOLL_CTL_DEL : Z := 2.
Definition EPOLL_CTL_MOD : Z := 3.
Definition epoll_ctl (epfd op fd ev : Z) : call := CLibc "epoll_ctl" [epfd; op; fd; ev] [].
Definition http_addfd (epollfd fd : Z) (one_shot : bool) : M unit :=
  let ev := Z.lor (Z.lor EPOLLIN EPOLLET) EPOLLRDHUP in
  kernel (epoll_ctl epollfd EPOLL_CTL_ADD fd (if one_shot then Z.lor ev EPOLLONESHOT else ev));;
  old_option ← ret_of (CFcntl fd F_GETFL 0);
  kernel (CFcntl fd F_SETFL (Z.lor old_option O_NONBLOCK));;
  mret ().
Definition removefd (epollfd fd : Z) : M unit :=
  kernel (epoll_ctl epollfd EPOLL_CTL_DEL fd 0);;
  kernel (CClose fd);;
  mret ().
Definition modfd (epollfd fd ev : Z) : M unit :=
  kernel (epoll_ctl epollfd EPOLL_CTL_MOD fd
    (Z.lor (Z.lor (Z.lor ev EPOLLET) EPOLLONESHOT) EPOLLRDHUP));;
  mret ().

(** [close_conn] and the public [init], with the counter [m_user_count]. *)
Definition close_conn (epollfd : Z) (real_close : bool) (s : http_conn * Z) : M (http_conn * Z) :=
  let '(c, user_count) := s in
  if real_close && negb (m_sockfd c =? -1) then
    removefd epollfd (m_sockfd c);;
    mret (with_sockfd (-1) c, user_count - 1)
  else mret s.
Definition open_conn (epollfd sockfd : Z) (s : http_conn * Z) : M (http_conn * Z) :=
  let '(c, user_count) := s in
  kernel (CSetsockopt sockfd 1 2 [1; 0; 0; 0]);;
  http_addfd epollfd sockfd true;;
  mret (init_conn (with_sockfd sockfd c), user_count + 1).

(** ** [read] *)

(** The loop of [recv] calls: [inr b] is the function's result. *)
Definition read_step (c : http_conn) : M (http_conn + bool * http_conn) :=
  let r := m_req c in
  a ← kernel (CRecvfrom (m_sockfd c) (READ_BUFFER_SIZE - m_read_idx r) 0);
  if a_ret a =? -1 then
    e ← get_errno;
    if (e =? EAGAIN) || (e =? EWOULDBLOCK) then mret (inr (true, c)) else mret (inr (false, c))
  else if a_ret a =? 0 then mret (inr (false, c))
  else
    b ← or_undef (poke (Z.to_nat (m_read_idx r)) (a_data a) (m_read_buf r));
    let r := with_buf b r in
    mret (inl (with_req (Request (m_read_buf r) (m_read_idx r + a_ret a) (m_checked_idx r)
      (m_start_line r) (m_check_state r) (m_url r) (m_version r) (m_host r)
      (m_content_length r) (m_linger r)) c)).
Definition read (c : http_conn) : M (bool * http_conn) :=
  if READ_BUFFER_SIZE <=? m_read_idx (m_req c) then mret (false, c)
  else loop read_step c.

(** ** [do_request] *)

Definition pad0 (n : nat) (l : list Z) : list Z := take n l ++ replicate (n - length l) 0.

(** [strcpy] of the root, [strncpy] of the URL behind it. *)
Definition real_file (url old : list Z) : list Z :=
  let len := length doc_root in
  let n := (Z.to_nat FILENAME_LEN - len - 1)%nat in
  doc_root ++ pad0 n url ++ drop (len + n) old.

Definition url_string (r : request) : option (list Z) :=
  u ← m_url r; l ← from (m_read_buf r) u; terminated l.

Definition do_request (c : http_conn) : M (HTTP_CODE * http_conn) :=
  url ← or_undef (url_string (m_req c));
  let c := with_file (real_file url (m_real_file c)) c in
  name ← or_undef (terminated (m_real_file c));
  a ← kernel (CLibc "stat" [] name);
  if a_ret a <? 0 then mret (NO_RESOURCE, c)
  else
    let c := with_stat (default 0 (a_data a !! 0%nat)) (default 0 (a_data a !! 1%nat)) c in
    if Z.land (m_st_mode c) S_IROTH =? 0 then mret (FORBIDDEN_REQUEST, c)
    else if Z.land (m_st_mode c) S_IFMT =? S_IFDIR then mret (BAD_REQUEST, c)
    else
      fd ← ret_of (CLibc "open" [] name);
      m ← kernel (CLibc "mmap" [m_st_size c; fd] []);
      kernel (CClose fd);;
      mret (FILE_REQUEST, with_map (if a_ret m <? 0 then MapFailed else Mapped (a_data m)) c).

(** ** The reply *)

(** [vsnprintf] into the space left: at most its size minus one characters and a null byte. *)
Definition add_response (text : list Z) (c : http_conn) : option (bool * http_conn) :=
  if WRITE_BUFFER_SIZE <=? m_write_idx c then Some (false, c)
  else
    let space := WRITE_BUFFER_SIZE - 1 - m_write_idx c in
    let len := Z.of_nat (length text) in
    b ← (if 0 <? space
         then poke (Z.to_nat (m_write_idx c)) (take (Z.to_nat (space - 1)) text ++ [0]) (m_write_buf c)
         else Some (m_write_buf c));
    if space <=? len then Some (false, with_write b (m_write_idx c) c)
    else Some (true, with_write b (m_write_idx c + len) c).

Definition status_line (status : Z) (title : list Z) : list Z :=
  chars "HTTP/1.1 " ++ fmt_d status ++ chars " " ++ title ++ [CR; LF].
Definition content_length_line (n : Z) : list Z := chars "Content-Length: " ++ fmt_d n ++ [CR; LF].
Definition linger_line (b : bool) : list Z :=
  chars "Connection: " ++ (if b then chars "keep-alive" else chars "close") ++ [CR; LF].

Definition add_status_line (status : Z) (title : list Z) (c : http_conn) :=
  add_response (status_line status title) c.
Definition add_content_length (n : Z) (c : http_conn) := add_response (content_length_line n) c.
Definition add_linger (c : http_conn) := add_response (linger_line (m_linger (m_req c))) c.
Definition add_blank_line (c : http_conn) := add_response [CR; LF] c.
Definition add_content (content : list Z) (c : http_conn) := add_response content c.
(** The [int] parameter; the results of the three calls are dropped, and the
    function, declared [bool], ends without a [return]. *)
Definition add_headers (content_len : Z) (c : http_conn) : option http_conn :=
  '(_, c) ← add_content_length (s32 content_len) c;
  '(_, c) ← add_linger c;
  '(_, c) ← add_blank_line c;
  Some c.

Definition ok_string : list Z := chars "<html><body></body></html>".

(** A reply from a title and a text. *)
Definition write_form (status : Z) (title form : list Z) (c : http_conn) : option (bool * http_conn) :=
  '(_, c) ← add_status_line status title c;
  c ← add_headers (Z.of_nat (length form)) c;
  '(ok, c) ← add_content form c;
  if negb ok then Some (false, c)
  else Some (true, with_iv [IovBuf (m_write_idx c)] c).

Definition process_write (ret : HTTP_CODE) (c : http_conn) : option (bool * http_conn) :=
  match ret with
  | INTERNAL_ERROR => write_form 500 error_500_title error_500_form c
  | BAD_REQUEST => write_form 400 error_400_title error_400_form c
  | NO_RESOURCE => write_form 404 error_404_title error_404_form c
  | FORBIDDEN_REQUEST => write_form 403 error_403_title error_403_form c
  | FILE_REQUEST =>
      if negb (m_st_size c =? 0) then
        '(_, c) ← add_status_line 200 ok_200_title c;
        c ← add_headers (m_st_size c) c;
        Some (true, with_iv [IovBuf (m_write_idx c); IovFile (m_st_size c)] c)
      else write_form 200 ok_200_title ok_string c
  | _ => Some (false, c)
  end.

(** ** [write] *)

Definition unmap (c : http_conn) : M http_conn :=
  match m_file_address c with
  | MapNull => mret c
  | _ => kernel (CLibc "munmap" [m_st_size c] []);; mret (with_map MapNull c)
  end.

(** The bytes that an [iovec] stands for; a failed mapping has none. *)
Definition iov_bytes (c : http_conn) (v : iovec) : option (list Z) :=
  match v with
  | IovBuf n => Some (take (Z.to_nat n) (m_write_buf c))
  | IovFile n =>
      match m_file_address c with
      | Mapped l => Some (take (Z.to_nat n) l)
      | _ => None
      end
  end.
Fixpoint gather (c : http_conn) (iv : list iovec) : option (list Z) :=
  match iv with
  | [] => Some []
  | v :: iv' => a ← iov_bytes c v; b ← gather c iv'; Some (a ++ b)
  end.

(** One [writev] with what follows it; a bad address makes it fail. *)
Definition write_step (epollfd : Z) (s : Z * http_conn) : M (Z * http_conn + bool * http_conn) :=
  let '(bytes_to_send, c) := s in
  let failed c :=
    e ← get_errno;
    if e =? EAGAIN then modfd epollfd (m_sockfd c) EPOLLOUT;; mret (inr (true, c))
    else c ← unmap c; mret (inr (false, c)) in
  match gather c (m_iv c) with
  | None => kernel (CLibc "writev" [m_sockfd c] []);; set_errno 14;; failed c
  | Some l =>
      temp ← ret_of (CWrite (m_sockfd c) l);
      if temp <=? -1 then failed c
      else
        let bytes_to_send := bytes_to_send - temp in
        if bytes_to_send <=? 0 then
          c ← unmap c;
          if m_linger (m_req c) then
            let c := init_conn c in
            modfd epollfd (m_sockfd c) EPOLLIN;; mret (inr (true, c))
          else modfd epollfd (m_sockfd c) EPOLLIN;; mret (inr (false, c))
        else mret (inl (bytes_to_send, c))
  end.
Definition write (epollfd : Z) (c : http_conn) : M (bool * http_conn) :=
  if m_write_idx c =? 0 then
    modfd epollfd (m_sockfd c) EPOLLIN;; mret (true, init_conn c)
  else loop (write_step epollfd) (m_write_idx c, c).

(** ** [process] *)

Definition process_read (c : http_conn) : M (HTTP_CODE * http_conn) :=
  '(v, r) ← parse_request (m_req c);
  match v with
  | inl code => mret (code, with_req r c)
  | inr _ => do_request (with_req r c)
  end.

(** The end of [process]: the reply is composed and the socket rearmed. *)
Definition finish (epollfd : Z) (code : HTTP_CODE) (s : http_conn * Z) : M (http_conn * Z) :=
  let '(c, user_count) := s in
  match code with
  | NO_REQUEST => modfd epollfd (m_sockfd c) EPOLLIN;; mret (c, user_count)
  | _ =>
      '(write_ret, c) ← or_undef (process_write code c);
      s ← (if negb write_ret then close_conn epollfd true (c, user_count) else mret (c, user_count));
      modfd epollfd (m_sockfd s.1) EPOLLOUT;;
      mret s
  end.

Definition process (epollfd : Z) (s : http_conn * Z) : M (http_conn * Z) :=
  let '(c, user_count) := s in
  '(read_ret, c) ← process_read c;
  finish epollfd read_ret (c, user_count).

(** ** Composing a reply *)

(** The write buffer holds the text [l] so far. *)
Definition written (c : http_conn) (l : list Z) : Prop :=
  m_write_idx c = Z.of_nat (length l) /\ length (m_write_buf c) = Z.to_nat WRITE_BUFFER_SIZE /\
  take (length l) (m_write_buf c) = l.

(** What composing a reply leaves alone. *)
Definition same_conn (c c' : http_conn) : Prop :=
  m_sockfd c' = m_sockfd c /\ m_req c' = m_req c /\ m_file_address c' = m_file_address c /\
  m_st_size c' = m_st_size c.

Lemma same_conn_trans c1 c2 c3 : same_conn c1 c2 -> same_conn c2 c3 -> same_conn c1 c3.
Proof. unfold same_conn. intros (-> & -> & -> & ->). done. Qed.

Lemma add_response_spec c l text :
  written c l -> (length l + length text + 1 < Z.to_nat WRITE_BUFFER_SIZE)%nat ->
  exists c', add_response text c = Some (true, c') /\ written c' (l ++ text) /\ same_conn c c'.
Proof.
  intros (Hi & Hb & Hl) Hlen. unfold add_response, WRITE_BUFFER_SIZE in *. rewrite Hi. zif. zif.
  rewrite (firstn_all2 text) by lia. rewrite Nat2Z.id.
  rewrite poke_ok by (rewrite length_app; cbn [length]; lia). cbn [mbind option_bind]. zif.
  eexists. split; [done|]. split; [|done]. split_and!; cbn [m_write_idx m_write_buf with_write].
  - rewrite length_app. lia.
  - repeat rewrite length_app. rewrite length_take, length_drop. cbn [length]. unfold WRITE_BUFFER_SIZE. lia.
  - rewrite Hl, <- app_assoc, app_assoc. by rewrite take_app_length.
Qed.

Definition reply_headers (n : Z) (keep : bool) : list Z :=
  content_length_line n ++ linger_line keep ++ [CR; LF].

Lemma digits_of_length k b n acc : (length (digits_of k b n acc) <= k + length acc)%nat.
Proof.
  revert n acc. induction k as [|k IH]; intros n acc; cbn [digits_of]; [done|]. cbv zeta.
  destruct (n / b =? 0); [cbn [length]; lia|]. etransitivity; [apply IH|]. cbn [length]. lia.
Qed.
Lemma fmt_d_length n : (length (fmt_d n) <= 21)%nat.
Proof.
  unfold fmt_d, fmt_u. pose proof (digits_of_length 20 10 (- n) []) as H1.
  pose proof (digits_of_length 20 10 n []) as H2. cbn [length] in H1, H2.
  destruct (n <? 0); cbn [length]; lia.
Qed.
Lemma reply_headers_length n keep : (length (reply_headers n keep) <= 70)%nat.
Proof.
  unfold reply_headers, content_length_line, linger_line. pose proof (fmt_d_length n).
  destruct keep; repeat rewrite length_app; cbn; lia.
Qed.

Lemma add_headers_spec c l n :
  written c l -> (length l + 71 < Z.to_nat WRITE_BUFFER_SIZE)%nat ->
  exists c', add_headers n c = Some c' /\
    written c' (l ++ reply_headers (s32 n) (m_linger (m_req c))) /\ same_conn c c'.
Proof.
  intros Hw Hl. pose proof (reply_headers_length (s32 n) (m_linger (m_req c))) as Hh.
  unfold reply_headers in *. repeat rewrite length_app in Hh. unfold add_headers.
  destruct (add_response_spec c l (content_length_line (s32 n)) Hw) as (c1 & E1 & W1 & S1); [lia|].
  unfold add_content_length. rewrite E1. cbn [mbind option_bind].
  pose proof S1 as (_ & Hr1 & _).
  destruct (add_response_spec c1 _ (linger_line (m_linger (m_req c1))) W1) as (c2 & E2 & W2 & S2);
    [rewrite length_app, Hr1; lia|].
  unfold add_linger. rewrite E2. cbn [mbind option_bind].
  destruct (add_response_spec c2 _ [CR; LF] W2) as (c3 & E3 & W3 & S3);
    [repeat rewrite length_app; rewrite Hr1; cbn [length] in *; lia|].
  unfold add_blank_line. rewrite E3. cbn [mbind option_bind]. exists c3. split; [done|].
  rewrite Hr1, <- !app_assoc in W3. split; [done|]. eauto using same_conn_trans.
Qed.

(** A complete reply: status line, headers, text. *)
Definition reply (status : Z) (title form : list Z) (keep : bool) : list Z :=
  status_line status title ++ reply_headers (Z.of_nat (length form)) keep ++ form.

(** The reply [l] is composed and is what the next [write] will send. *)
Definition prepared (c : http_conn) (l : list Z) : Prop :=
  m_iv c = [IovBuf (m_write_idx c)] /\ written c l.

Lemma prepared_gather c l : prepared c l -> gather c (m_iv c) = Some l.
Proof.
  intros (Hv & Hi & _ & Ht). rewrite Hv. cbn [gather iov_bytes mbind option_bind].
  by rewrite Hi, Nat2Z.id, Ht, app_nil_r.
Qed.

Lemma status_line_length status title :
  (length (status_line status title) <= 33 + length title)%nat.
Proof.
  unfold status_line. pose proof (fmt_d_length status). repeat rewrite length_app. cbn [length chars]. 
  change (length (chars "HTTP/1.1 ")) with 9%nat. change (length (chars " ")) with 1%nat. lia.
Qed.

Lemma write_form_spec c status title form :
  written c [] -> (length title + length form <= 800)%nat ->
  exists c', write_form status title form c = Some (true, c') /\
    prepared c' (reply status title form (m_linger (m_req c))) /\ same_conn c c'.
Proof.
  intros Hw Hl. unfold write_form, add_status_line, add_content, reply.
  pose proof (status_line_length status title) as Hs. unfold WRITE_BUFFER_SIZE in *.
  pose proof (reply_headers_length (Z.of_nat (length form)) (m_linger (m_req c))) as Hh.
  destruct (add_response_spec c [] (status_line status title) Hw) as (c1 & -> & W1 & S1);
    [cbn [length]; unfold WRITE_BUFFER_SIZE; lia|].
  cbn [mbind option_bind app] in *. pose proof S1 as (_ & Hr1 & _).
  destruct (add_headers_spec c1 _ (Z.of_nat (length form)) W1) as (c2 & -> & W2 & S2);
    [unfold WRITE_BUFFER_SIZE; lia|].
  cbn [mbind option_bind]. rewrite Hr1 in W2. rewrite s32_small in W2 by lia.
  destruct (add_response_spec c2 _ form W2) as (c3 & -> & W3 & S3);
    [rewrite length_app; unfold WRITE_BUFFER_SIZE; lia|].
  cbn [mbind option_bind negb]. eexists. split; [done|]. split.
  - split; [done|]. rewrite <- app_assoc in W3. done.
  - eauto using same_conn_trans.
Qed.

(** The reply to a request for a file: the headers, then the bytes mapped. *)
Definition file_headers (size : Z) (keep : bool) : list Z :=
  status_line 200 ok_200_title ++ reply_headers (s32 size) keep.
Definition prepared_file (c : http_conn) (l : list Z) : Prop :=
  m_iv c = [IovBuf (m_write_idx c); IovFile (m_st_size c)] /\ written c l.

Lemma process_write_file c :
  written c [] -> m_st_size c <> 0 ->
  exists c', process_write FILE_REQUEST c = Some (true, c') /\
    prepared_file c' (file_headers (m_st_size c) (m_linger (m_req c))) /\ same_conn c c'.
Proof.
  intros Hw Hs. unfold process_write. rewrite (proj2 (Z.eqb_neq _ _)) by done. cbn [negb].
  pose proof (status_line_length 200 ok_200_title) as Hl.
  change (length ok_200_title) with 2%nat in Hl. unfold add_status_line, file_headers.
  destruct (add_response_spec c [] (status_line 200 ok_200_title) Hw) as (c1 & -> & W1 & S1);
    [cbn [length]; unfold WRITE_BUFFER_SIZE; lia|].
  cbn [mbind option_bind app] in *. pose proof S1 as (_ & Hr1 & _ & _).
  destruct (add_headers_spec c1 _ (m_st_size c1) W1) as (c2 & -> & W2 & S2);
    [unfold WRITE_BUFFER_SIZE; lia|].
  cbn [mbind option_bind]. pose proof S1 as (_ & _ & _ & Hsz). rewrite Hr1, Hsz in W2. eexists. split; [done|].
  pose proof (same_conn_trans _ _ _ S1 S2) as S. split; [split|].
  - destruct S2 as (_ & _ & _ & Hs2). cbn. by rewrite Hs2.
  - exact W2.
  - exact S.
Qed.

(** ** The calls of [process] *)

(** The events that are not mere outputs. *)
Definition syscalls (e : list event) : list event := filter (fun x => is_output x.1 = false) e.
Lemma syscalls_app a b : syscalls (a ++ b) = syscalls a ++ syscalls b.
Proof. apply filter_app. Qed.
Lemma syscalls_only e : only (fun c => is_output c = true) e -> syscalls e = [].
Proof.
  intros H. apply filter_none. unfold only in H. rewrite Forall_forall in *.
  intros x Hx. rewrite (H x Hx). done.
Qed.

(** The parser makes no calls. *)
Lemma makes_process_line again text r :
  (forall st r, makes (fun c => is_output c = true) (again st r)) ->
  makes (fun c => is_output c = true) (process_line again text r).
Proof.
  intros Ha. unfold process_line, parse_headers, or_undef.
  repeat first [apply Ha|makes_step|
    match goal with |- makes _ (match ?x with _ => _ end) => destruct x end].
Qed.
Lemma makes_parse_request r : makes (fun c => is_output c = true) (parse_request r).
Proof.
  unfold parse_request. generalize read_fuel as f. intros f. generalize LINE_OK as st. revert r.
  induction f as [|f IH]; intros r st; cbn [read_loop]; [apply makes_halted|].
  unfold or_undef. repeat first [apply makes_process_line; intros; apply IH|makes_step].
Qed.

(** ** [do_request] *)

Definition zeros (n : Z) : list Z := replicate (Z.to_nat n) 0.

(** The file that is asked for: the root and the path, 199 characters at most. *)
Definition file_name (path : list Z) : list Z := doc_root ++ take 193 path.

Lemma real_file_name path :
  nonul path -> terminated (real_file path (zeros FILENAME_LEN)) = Some (file_name path).
Proof.
  intros Hp. unfold real_file, pad0, file_name.
  change (Z.to_nat FILENAME_LEN - length doc_root - 1)%nat with 193%nat.
  change (drop (length doc_root + 193) (zeros FILENAME_LEN)) with [0].
  assert (Hz : exists x, replicate (193 - length path) 0 ++ [0] = 0 :: x).
  { destruct (193 - length path)%nat; [by exists []|by eexists]. }
  destruct Hz as [x Hz].
  rewrite <- (app_assoc (take 193 path)), Hz, app_assoc. apply terminated_app.
  apply nonul_app. split; [by repeat constructor|]. by apply Forall_take.
Qed.

Definition stat_call (name : list Z) : call := CLibc "stat" [] name.
Definition stat_mode (st : answer) : Z := default 0 (a_data st !! 0%nat).
Definition stat_size (st : answer) : Z := default 0 (a_data st !! 1%nat).

(** What looking up [name] finds. *)
Inductive looked_up (name : list Z) : HTTP_CODE -> list event -> Z -> mapping -> Prop :=
| found_nothing st sz m : a_ret st < 0 -> looked_up name NO_RESOURCE [(stat_call name, st)] sz m
| found_private st m :
    0 <= a_ret st -> Z.land (stat_mode st) S_IROTH = 0 ->
    looked_up name FORBIDDEN_REQUEST [(stat_call name, st)] (stat_size st) m
| found_directory st m :
    0 <= a_ret st -> Z.land (stat_mode st) S_IROTH <> 0 ->
    Z.land (stat_mode st) S_IFMT = S_IFDIR ->
    looked_up name BAD_REQUEST [(stat_call name, st)] (stat_size st) m
| found_file st fd mm cl :
    0 <= a_ret st -> Z.land (stat_mode st) S_IROTH <> 0 ->
    Z.land (stat_mode st) S_IFMT <> S_IFDIR ->
    looked_up name FILE_REQUEST
      [(stat_call name, st); (CLibc "open" [] name, fd);
       (CLibc "mmap" [stat_size st; a_ret fd] [], mm); (CClose (a_ret fd), cl)]
      (stat_size st) (if a_ret mm <? 0 then MapFailed else Mapped (a_data mm)).

(** What [do_request] leaves of the connection as it was. *)
Definition same_reply (c c' : http_conn) : Prop :=
  m_sockfd c' = m_sockfd c /\ m_req c' = m_req c /\
  m_write_buf c' = m_write_buf c /\ m_write_idx c' = m_write_idx c.

Lemma do_request_runs c path w :
  url_string (m_req c) = Some path -> nonul path -> m_real_file c = zeros FILENAME_LEN ->
  runs (do_request c)
    (fun r e => looked_up (file_name path) r.1 e (m_st_size r.2) (m_file_address r.2) /\
                same_reply c r.2)
    (fun h e => h = Blocked) w.
Proof.
  intros Hu Hp Hf. unfold do_request. rewrite Hu. eapply runs_or_undef; [done|].
  cbn [m_real_file with_file]. rewrite Hf, real_file_name by done. eapply runs_or_undef; [done|].
  apply runs_call; [done|done|]. intros a w1 st _. cbv zeta.
  destruct (a_ret st <? 0) eqn:E1; [apply runs_ret; split; [constructor; lia|done]|].
  cbn [m_st_mode with_stat].
  destruct (Z.land _ S_IROTH =? 0) eqn:E2.
  { apply runs_ret. split; [apply found_private; [lia|]; by apply Z.eqb_eq|done]. }
  destruct (Z.land _ S_IFMT =? S_IFDIR) eqn:E3.
  { apply runs_ret. split; [apply found_directory; [lia| |]; [by apply Z.eqb_neq|by apply Z.eqb_eq]|done]. }
  unfold ret_of. apply runs_bind, runs_call; [done|done|]. intros fd w2 y _. apply runs_ret. intros w3.
  apply runs_call; [done|done|]. intros mm w4 z _. apply runs_call; [done|done|]. intros cl w5 u _.
  apply runs_ret. split; [|done]. cbn [app fst snd m_file_address with_map m_st_size with_stat].
  apply found_file; [lia|by apply Z.eqb_neq|by apply Z.eqb_neq].
Qed.

(** ** The whole of [process] *)

(** The reply that a result leads to. *)
Definition answered (code : HTTP_CODE) (keep : bool) (c : http_conn) : Prop :=
  match code with
  | BAD_REQUEST => prepared c (reply 400 error_400_title error_400_form keep)
  | NO_RESOURCE => prepared c (reply 404 error_404_title error_404_form keep)
  | FORBIDDEN_REQUEST => prepared c (reply 403 error_403_title error_403_form keep)
  | FILE_REQUEST =>
      if m_st_size c =? 0 then prepared c (reply 200 ok_200_title ok_string keep)
      else prepared_file c (file_headers (m_st_size c) keep)
  | _ => False
  end.

Lemma process_write_spec code c :
  written c [] ->
  code = BAD_REQUEST \/ code = NO_RESOURCE \/ code = FORBIDDEN_REQUEST \/ code = FILE_REQUEST ->
  exists c', process_write code c = Some (true, c') /\
    answered code (m_linger (m_req c)) c' /\ same_conn c c'.
Proof.
  intros Hw [-> |[-> |[-> | ->]]]; cbn [process_write answered];
    try (apply write_form_spec; [done|apply Nat.leb_le; reflexivity]).
  destruct (m_st_size c =? 0) eqn:E; cbn [negb].
  - destruct (write_form_spec c 200 ok_200_title ok_string Hw) as (c' & -> & Hp & Hs);
      [apply Nat.leb_le; reflexivity|].
    exists c'. split; [done|]. split; [|done]. destruct Hs as (_ & _ & _ & ->). by rewrite E.
  - destruct (process_write_file c Hw) as (c' & He & Hp & Hs); [by apply Z.eqb_neq|].
    unfold process_write in He. rewrite E in He. cbn [negb] in He. rewrite He.
    exists c'. split; [done|]. split; [|done]. destruct Hs as (_ & _ & _ & Hz). rewrite Hz, E. done.
Qed.

(** [EPOLL_CTL_MOD]: the connection waits for [ev] again. *)
Definition rearm (epollfd : Z) (c : http_conn) (ev : Z) (a : answer) : event :=
  (epoll_ctl epollfd EPOLL_CTL_MOD (m_sockfd c)
     (Z.lor (Z.lor (Z.lor ev EPOLLET) EPOLLONESHOT) EPOLLRDHUP), a).

Lemma modfd_runs {B} epollfd fd ev (f : unit -> M B) Q H w :
  H Blocked [] ->
  (forall a w', let x := (epoll_ctl epollfd EPOLL_CTL_MOD fd
                   (Z.lor (Z.lor (Z.lor ev EPOLLET) EPOLLONESHOT) EPOLLRDHUP), a) in
     runs (f ()) (fun b e => Q b (x :: e)) (fun h e => H h (x :: e)) w') ->
  runs (modfd epollfd fd ev ≫= f) Q H w.
Proof.
  intros HB Hf. unfold modfd. apply runs_bind, runs_call; [done|done|].
  intros a w1 x _. apply runs_ret. intros w2. apply Hf.
Qed.

Lemma url_is_string r path : url_is r (m_read_buf r) path -> url_string r = Some path /\ nonul path.
Proof.
  intros (u & Hu & Hn & a & z & Hb & ->). unfold url_string. rewrite Hu. cbn [mbind option_bind].
  rewrite Hb, from_app by done. cbn [mbind option_bind]. by rewrite terminated_app.
Qed.
Lemma url_string_nonul r path : url_string r = Some path -> nonul path.
Proof.
  unfold url_string. destruct (m_url r) as [u|]; [|done]. cbn [mbind option_bind].
  destruct (from (m_read_buf r) u) as [l|]; [|done]. cbn [mbind option_bind]. unfold terminated.
  destruct (bool_decide _); [|done]. intros [= <-]. apply c_string_nonul.
Qed.

Lemma looked_up_code name code e sz m :
  looked_up name code e sz m ->
  code = BAD_REQUEST \/ code = NO_RESOURCE \/ code = FORBIDDEN_REQUEST \/ code = FILE_REQUEST.
Proof. destruct 1; auto. Qed.

Lemma finish_reply epollfd code c n w :
  written c [] ->
  code = BAD_REQUEST \/ code = NO_RESOURCE \/ code = FORBIDDEN_REQUEST \/ code = FILE_REQUEST ->
  runs (finish epollfd code (c, n))
    (fun s e => s.2 = n /\ same_conn c s.1 /\ answered code (m_linger (m_req c)) s.1 /\
       exists a, e = [rearm epollfd c EPOLLOUT a])
    (fun h e => h = Blocked) w.
Proof.
  intros Hw Hc. destruct (process_write_spec code c Hw Hc) as (c' & He & Ha & Hs).
  assert (Ef : finish epollfd code (c, n) =
    ('(write_ret, c) ← or_undef (process_write code c);
     s ← (if negb write_ret then close_conn epollfd true (c, n) else mret (c, n));
     modfd epollfd (m_sockfd s.1) EPOLLOUT;; mret s)) by (by destruct Hc as [-> |[-> |[-> | ->]]]).
  rewrite Ef. eapply runs_or_undef; [exact He|]. cbn [negb]. apply runs_bind, runs_ret.
  intros w2. apply modfd_runs; [done|]. intros a w3 x. apply runs_ret. cbn [fst snd app].
  split; [done|]. split; [done|]. split; [done|]. exists a. subst x. unfold rearm. cbn [fst].
  destruct Hs as (-> & _). done.
Qed.

(** The connection after [init] and the arrival of [d]. *)
Definition connection (c : http_conn) (d : list Z) : Prop :=
  m_req c = received_request d /\ written c [] /\ m_real_file c = zeros FILENAME_LEN.

(** The requests with a negative Content-Length, or that end on the last byte of the buffer. *)
Definition dangerous (d : list Z) : Prop :=
  (exists k, http_spec d = Overrun k) \/
  (exists path k keep, http_spec d = Complete path k keep /\ k < 0).

Definition processed (epollfd : Z) (c : http_conn) (p : parsed) (e : list event) (c' : http_conn) : Prop :=
  match p with
  | Unfinished => exists a, syscalls e = [rearm epollfd c EPOLLIN a]
  | Rejected => exists a, syscalls e = [rearm epollfd c EPOLLOUT a] /\
      answered BAD_REQUEST (m_linger (m_req c')) c'
  | Complete path clen keep => 0 <= clen -> exists code e1 a,
      looked_up (file_name path) code e1 (m_st_size c') (m_file_address c') /\
      syscalls e = e1 ++ [rearm epollfd c EPOLLOUT a] /\ answered code keep c'
  | Overrun _ => False
  end.

Lemma syscalls_calls c a e : is_output c = false -> syscalls ((c, a) :: e) = (c, a) :: syscalls e.
Proof. intros Hc. unfold syscalls. by rewrite filter_cons, decide_True. Qed.
Lemma looked_up_calls name code e sz m : looked_up name code e sz m -> syscalls e = e.
Proof. destruct 1; reflexivity. Qed.

(** The connection once the request is complete. *)
Lemma complete_runs epollfd c n path w :
  url_string (m_req c) = Some path -> m_real_file c = zeros FILENAME_LEN -> written c [] ->
  runs ('(code, c) ← do_request c; finish epollfd code (c, n))
    (fun s e => s.2 = n /\ m_sockfd s.1 = m_sockfd c /\ exists code e1 a,
       looked_up (file_name path) code e1 (m_st_size s.1) (m_file_address s.1) /\
       e = e1 ++ [rearm epollfd c EPOLLOUT a] /\ answered code (m_linger (m_req c)) s.1)
    (fun h e => h = Blocked) w.
Proof.
  intros Hu Hf Hw. apply runs_bind. eapply runs_mono;
    [apply (do_request_runs c path); [done|by eapply url_string_nonul|done]|..]; cbn beta; [|done].
  intros [code c1] e [Hl (S1 & S2 & S3 & S4)] w2. cbn [fst snd] in *.
  assert (Hw1 : written c1 []) by (unfold written in *; by rewrite S3, S4).
  eapply runs_mono; [apply (finish_reply epollfd code c1 n); [done|by eapply looked_up_code]|..]; cbn beta; [|done].
  intros [c2 n2] e2 (Hn & (T1 & T2 & T3 & T4) & Ha & a & ->). cbn [fst snd] in *.
  split; [done|]. split; [congruence|]. exists code, e, a. rewrite T3, T4, <- S2. split; [done|].
  split; [|done]. unfold rearm. by rewrite S1.
Qed.

Lemma process_eq epollfd c n w :
  process epollfd (c, n) w =
  ('(v, r) ← parse_request (m_req c);
   match v with
   | inl code => finish epollfd code (with_req r c, n)
   | inr _ => '(code, c) ← do_request (with_req r c); finish epollfd code (c, n)
   end) w.
Proof.
  unfold process, process_read, mbind, M_bind.
  by destruct (parse_request (m_req c) w) as [[[[code|[]] r]|h] w'].
Qed.


(** A connection on which [d] has arrived. *)
Definition conn_with (d : list Z) : http_conn :=
  Conn 7 (received_request d) (zeros WRITE_BUFFER_SIZE) 0 (zeros FILENAME_LEN) MapNull 0 0 [].


(** ** Runs of [write]

    A [writev] that takes only a part is followed by one of the whole again:
    the peer gets the first bytes twice. *)
Definition reply_404 : http_conn :=
  match process_write NO_RESOURCE (conn_with []) with Some (_, c) => c | None => conn_with [] end.

Example write_repeats :
  let l := reply 404 error_404_title error_404_form false in
  let w := (write 4 reply_404 (World [ok 10; ok 200; ok 0] [] 0 0 (fun _ => []))).2 in
  (gather reply_404 (m_iv reply_404), sent 7 (trace w)) = (Some l, take 10 l ++ l).
Proof. vm_compute. reflexivity. Qed.

(** The bytes to be sent are counted without the file: when the headers have
    gone out with a part of the file, the rest is never sent. *)
Definition reply_file : http_conn :=
  match process_write FILE_REQUEST (with_map (Mapped (replicate 500 97)) (with_stat 33188 500 (conn_with [])))
  with Some (_, c) => c | None => conn_with [] end.

Example write_truncates_file :
  let w := (write 4 reply_file (World [ok 100; ok 0; ok 0] [] 0 0 (fun _ => []))).2 in
  (length <$> gather reply_file (m_iv reply_file), length (sent 7 (trace w)), script w) =
  (Some 559%nat, 100%nat, []).
Proof. vm_compute. reflexivity. Qed.
