(* ===== verification/HttpIO.v ===== *)
(** * Reading requests and sending replies

    The two loops of youshuang/ch15_pool/thread_pool/http_conn.cpp that move
    bytes: [read] with its [recv] calls, [write] with its [writev] calls, and
    [parse_request] on a buffer that several calls of [read] have filled. *)

From S2P Require Import Unix InetPton TcpEcho NonBlock Http HttpReply.

(** ** [read] *)

(** The bytes [l] have been put behind those received before. *)
Definition received_more (l : list Z) (c : http_conn) : http_conn :=
  let r := m_req c in
  let i := Z.to_nat (m_read_idx r) in
  with_req (Request (take i (m_read_buf r) ++ l ++ drop (i + length l) (m_read_buf r))
    (m_read_idx r + Z.of_nat (length l)) (m_checked_idx r) (m_start_line r) (m_check_state r)
    (m_url r) (m_version r) (m_host r) (m_content_length r) (m_linger r)) c.

(** The indices stay inside of the buffer. *)
Definition buffer_ok (r : request) : Prop :=
  length (m_read_buf r) = Z.to_nat READ_BUFFER_SIZE /\ 0 <= m_read_idx r <= READ_BUFFER_SIZE.

Lemma received_more_nil c : buffer_ok (m_req c) -> received_more [] c = c.
Proof.
  intros [Hb Hi]. destruct c as [fd [] b i f a m z v]. cbn in *. unfold received_more. cbn.
  by rewrite Nat.add_0_r, take_drop, Z.add_0_r.
Qed.

Lemma received_more_ok l c :
  buffer_ok (m_req c) -> m_read_idx (m_req c) + Z.of_nat (length l) <= READ_BUFFER_SIZE ->
  buffer_ok (m_req (received_more l c)).
Proof.
  intros [Hb Hi] Hl. split; cbn; [|lia].
  repeat rewrite length_app. rewrite length_take, length_drop. lia.
Qed.

Lemma splice_twice (i : nat) (l k b : list Z) :
  (i + length l <= length b)%nat ->
  let b1 := take i b ++ l ++ drop (i + length l) b in
  take (i + length l) b1 ++ k ++ drop (i + length l + length k) b1 =
  take i b ++ (l ++ k) ++ drop (i + length (l ++ k)) b.
Proof.
  intros Hl b1. subst b1. rewrite (app_assoc (take i b) l (drop _ b)).
  assert (Ht : length (take i b ++ l) = (i + length l)%nat) by (rewrite length_app, length_take; lia).
  rewrite <- Ht, take_app_length, drop_app_add, drop_drop, Ht, length_app.
  rewrite <- !app_assoc. do 4 f_equal. lia.
Qed.

Lemma received_more_app l k c :
  buffer_ok (m_req c) -> m_read_idx (m_req c) + Z.of_nat (length l) <= READ_BUFFER_SIZE ->
  received_more k (received_more l c) = received_more (l ++ k) c.
Proof.
  intros [Hb Hi] Hl. unfold received_more. cbn.
  replace (Z.to_nat (m_read_idx (m_req c) + Z.of_nat (length l)))
    with (Z.to_nat (m_read_idx (m_req c)) + length l)%nat by lia.
  rewrite splice_twice by lia. unfold with_req. cbn. do 2 f_equal. rewrite length_app. lia.
Qed.

(** How the loop ends: the call with its answer, and the result of [read]. *)
Inductive read_end (fd n : Z) : event -> bool -> Prop :=
| read_drained a : a_ret a = -1 -> a_err a = EAGAIN -> read_end fd n (CRecvfrom fd n 0, a) true
| read_broken a : a_ret a = -1 -> a_err a <> EAGAIN -> read_end fd n (CRecvfrom fd n 0, a) false
| read_closed a : a_ret a = 0 -> read_end fd n (CRecvfrom fd n 0, a) false.

(** A run of [read] that has received [l]. *)
Definition reading (c : http_conn) (l : list Z) (e : list event) : Prop :=
  received (m_sockfd c) e = l /\ only (fun x => exists n, x = CRecvfrom (m_sockfd c) n 0) e /\
  m_read_idx (m_req c) + Z.of_nat (length l) <= READ_BUFFER_SIZE.

Definition read_result (c : http_conn) (r : bool * http_conn) (e : list event) : Prop :=
  exists l e0 x,
    e = e0 ++ [x] /\ r.2 = received_more l c /\ reading c l e0 /\
    read_end (m_sockfd c) (READ_BUFFER_SIZE - (m_read_idx (m_req c) + Z.of_nat (length l))) x r.1.

Lemma normalise_recv fd n flags a :
  0 <= n ->
  let x := normalise (CRecvfrom fd n flags) a in
  a_ret x = -1 \/ 0 <= a_ret x <= n /\ a_ret x = Z.of_nat (length (a_data x)).
Proof.
  intros Hn. unfold normalise. destruct (a_ret a <? 0); cbn [a_ret a_data]; [by left|right].
  rewrite length_map, length_take. lia.
Qed.

Lemma read_step_runs c l e0 w :
  buffer_ok (m_req c) -> reading c l e0 ->
  runs (read_step (received_more l c))
    (fun r e => match r with
       | inl c' => exists k, c' = received_more (l ++ k) c /\ reading c (l ++ k) (e0 ++ e) /\ waits e = 1%nat
       | inr r => read_result c r (e0 ++ e)
       end)
    (fun h e => h = Blocked) w.
Proof.
  intros Hb (Hr & Ho & Hl). pose proof (received_more_ok l c Hb Hl) as Hb'.
  unfold read_step. set (n := READ_BUFFER_SIZE - m_read_idx (m_req (received_more l c))).
  assert (Hn : n = READ_BUFFER_SIZE - (m_read_idx (m_req c) + Z.of_nat (length l))) by done.
  apply runs_call; [done|done|]. intros a w1 x Herr.
  pose proof (normalise_recv (m_sockfd c) n 0 a ltac:(lia)) as Hx. cbv zeta in Hx.
  change (m_sockfd (received_more l c)) with (m_sockfd c) in *. fold x in Hx.
  assert (Hend : forall b, read_end (m_sockfd c) n (CRecvfrom (m_sockfd c) n 0, x) b ->
            read_result c (b, received_more l c) (e0 ++ [(CRecvfrom (m_sockfd c) n 0, x)])).
  { intros b Hend. exists l, e0, (CRecvfrom (m_sockfd c) n 0, x).
    split; [done|]. split; [done|]. split; [done|]. by rewrite <- Hn. }
  destruct (a_ret x =? -1) eqn:E1.
  - apply runs_get_errno. apply Z.eqb_eq in E1.
    replace (errno w1) with (a_err x) by (symmetry; apply Herr; lia).
    change EWOULDBLOCK with EAGAIN. rewrite orb_diag.
    destruct (a_err x =? EAGAIN) eqn:E2; apply runs_ret, Hend; constructor; lia.
  - apply Z.eqb_neq in E1. destruct Hx as [|[Hx1 Hx2]]; [done|].
    destruct (a_ret x =? 0) eqn:E2; [apply runs_ret, Hend; constructor; lia|].
    destruct Hb' as [Hb1 Hb2]. rewrite poke_ok by lia.
    eapply runs_or_undef; [done|]. apply runs_ret. exists (a_data x). split; [|split; [|done]].
    + rewrite <- received_more_app by done. set (c1 := received_more l c) in *.
      unfold received_more. by rewrite Hx2.
    + split_and!.
      * rewrite received_app, Hr. cbn [received]. by rewrite Z.eqb_refl, app_nil_r.
      * apply only_app. split; [done|]. apply only_one. by exists n.
      * rewrite length_app. lia.
Qed.

Lemma read_runs c w :
  buffer_ok (m_req c) -> m_read_idx (m_req c) < READ_BUFFER_SIZE ->
  runs (read c) (read_result c) (fun h e => h = Blocked) w.
Proof.
  intros Hb Hi. unfold read. rewrite (proj2 (Z.leb_gt _ _)) by done.
  apply (runs_loop _ (fun s e => exists l, s = received_more l c /\ reading c l e)).
  - exists []. split; [by rewrite received_more_nil|]. split; [done|]. split; [done|]. cbn. lia.
  - intros s e w1 (l & -> & Hl). eapply runs_mono; [by apply read_step_runs|..]; cbn beta; [|done].
    intros [c'|r] e1; [|done]. intros (k & -> & Hk & Hw). split; [lia|]. by exists (l ++ k).
Qed.

(** ** [write] *)

(** The calls [writev] of the reply [l], with their answers. *)
Definition offers (fd : Z) (l : list Z) (taken : list answer) : list event :=
  (fun a => (CWrite fd l, a)) <$> taken.
Definition total (taken : list answer) : Z := foldr (fun a n => a_ret a + n) 0 taken.

(** Each took a part of the reply, and together less than what is to be sent. *)
Definition short (c : http_conn) (l : list Z) (taken : list answer) : Prop :=
  Forall (fun a => 0 <= a_ret a <= Z.of_nat (length l)) taken /\ total taken < m_write_idx c.

(** [unmap]: the call made when there is a mapping. *)
Definition unmapped (c : http_conn) (e : list event) : Prop :=
  match m_file_address c with
  | MapNull => e = []
  | _ => exists a, e = [(CLibc "munmap" [m_st_size c] [], a)]
  end.

(** The three ways in which [write] ends when the reply is the bytes [l]. *)
Inductive wrote (epollfd : Z) (c : http_conn) (l : list Z) : bool * http_conn -> list event -> Prop :=
| wrote_all taken last um a :
    short c l taken -> 0 <= a_ret last <= Z.of_nat (length l) ->
    m_write_idx c <= total taken + a_ret last -> unmapped c um ->
    wrote epollfd c l
      (m_linger (m_req c),
       if m_linger (m_req c) then init_conn (with_map MapNull c) else with_map MapNull c)
      (offers (m_sockfd c) l (taken ++ [last]) ++ um ++ [rearm epollfd c EPOLLIN a])
| wrote_part taken last a :
    short c l taken -> a_ret last = -1 -> a_err last = EAGAIN ->
    wrote epollfd c l (true, c)
      (offers (m_sockfd c) l (taken ++ [last]) ++ [rearm epollfd c EPOLLOUT a])
| wrote_failed taken last um :
    short c l taken -> a_ret last = -1 -> a_err last <> EAGAIN -> unmapped c um ->
    wrote epollfd c l (false, with_map MapNull c) (offers (m_sockfd c) l (taken ++ [last]) ++ um).

Lemma offers_total_app a b : total (a ++ b) = total a + total b.
Proof. unfold total. induction a as [|x a IH]; cbn [app foldr]; [done|]. rewrite IH. lia. Qed.
Lemma offers_app fd l a b : offers fd l (a ++ b) = offers fd l a ++ offers fd l b.
Proof. apply fmap_app. Qed.

Lemma unmap_runs {B} c (f : http_conn -> M B) Q H w :
  H Blocked [] ->
  (forall um w', unmapped c um ->
     runs (f (with_map MapNull c)) (fun b e => Q b (um ++ e)) (fun h e => H h (um ++ e)) w') ->
  runs (unmap c ≫= f) Q H w.
Proof.
  intros HB Hf. unfold unmap. apply runs_bind. unfold unmapped in Hf.
  destruct (m_file_address c) eqn:E.
  1: { apply runs_ret. intros w'. destruct c. cbn in E. subst. by apply Hf. }
  all: apply runs_call; [done|done|]; intros a w1 x _; apply runs_ret; intros w2;
       apply (Hf [_]); by eexists.
Qed.

Section Write.
Context (epollfd : Z) (c : http_conn) (l : list Z).
Hypothesis Hidx : 0 < m_write_idx c.
Hypothesis Hl : gather c (m_iv c) = Some l.

Definition sending (s : Z * http_conn) (e : list event) : Prop :=
  exists taken, s = (m_write_idx c - total taken, c) /\ e = offers (m_sockfd c) l taken /\ short c l taken.

Lemma sent_all_runs taken last w :
  short c l taken -> 0 <= a_ret last <= Z.of_nat (length l) ->
  m_write_idx c <= total taken + a_ret last ->
  runs (c ← unmap c;
        if m_linger (m_req c) then
          let c := init_conn c in
          modfd epollfd (m_sockfd c) EPOLLIN;; mret (inr (true, c))
        else modfd epollfd (m_sockfd c) EPOLLIN;; mret (inr (A := Z * http_conn) (false, c)))
    (fun r e => exists x, r = inr x /\ wrote epollfd c l x (offers (m_sockfd c) l (taken ++ [last]) ++ e))
    (fun h e => h = Blocked) w.
Proof.
  intros Hs Ha Hd. apply unmap_runs; [done|]. intros um w1 Hum.
  cbn [m_req with_map m_linger]. pose proof (wrote_all epollfd c l taken last um) as Hw.
  destruct (m_linger (m_req c)); cbv zeta; apply modfd_runs; try done;
    intros a w2 x; apply runs_ret; eexists; (split; [done|]); exact (Hw a Hs Ha Hd Hum).
Qed.

Lemma write_failed_runs taken last w :
  short c l taken -> a_ret last = -1 -> errno w = a_err last ->
  runs (e ← get_errno;
        if e =? EAGAIN then modfd epollfd (m_sockfd c) EPOLLOUT;; mret (inr (true, c))
        else c ← unmap c; mret (inr (A := Z * http_conn) (false, c)))
    (fun r e => exists x, r = inr x /\ wrote epollfd c l x (offers (m_sockfd c) l (taken ++ [last]) ++ e))
    (fun h e => h = Blocked) w.
Proof.
  intros Hs Ha He. apply runs_get_errno. rewrite He. destruct (a_err last =? EAGAIN) eqn:E.
  - apply modfd_runs; [done|]. intros a w2 x. apply runs_ret. eexists. split; [done|].
    apply wrote_part; [done|done|lia].
  - apply unmap_runs; [done|]. intros um w2 Hum. apply runs_ret. eexists. split; [done|].
    rewrite app_nil_r. apply wrote_failed; [done|done|lia|done].
Qed.

Lemma write_runs w : runs (write epollfd c) (wrote epollfd c l) (fun h e => h = Blocked) w.
Proof.
  unfold write. rewrite (proj2 (Z.eqb_neq _ _)) by lia.
  apply (runs_loop _ sending).
  { exists []. split; [by rewrite Z.sub_0_r|]. done. }
  intros s e w1 (taken & -> & -> & Hs). unfold write_step. rewrite Hl.
  apply runs_ret_of; [done|done|]. intros a w2 last Herr.
  pose proof (normalise_write (m_sockfd c) l a) as Ha. cbv zeta in Ha. fold last in Ha.
  assert (Hrun : forall e r, wrote epollfd c l r (offers (m_sockfd c) l (taken ++ [last]) ++ e) ->
            wrote epollfd c l r (offers (m_sockfd c) l taken ++ (CWrite (m_sockfd c) l, last) :: e))
    by (intros e r; by rewrite offers_app, <- app_assoc).
  destruct (a_ret last <=? -1) eqn:E.
  - eapply runs_mono; [apply (write_failed_runs taken last); [done|lia|apply Herr; lia]|..]; cbn beta; [|done].
    intros r e (x & -> & Hx). by apply Hrun.
  - destruct (_ - _ <=? 0) eqn:E2.
    + eapply runs_mono; [apply (sent_all_runs taken last); [done|lia|lia]|..]; cbn beta; [|done].
      intros r e (x & -> & Hx). by apply Hrun.
    + apply runs_ret. split; [cbn; lia|]. exists (taken ++ [last]). rewrite offers_total_app, offers_app.
      destruct Hs as [Hs1 Hs2]. split; [cbn; f_equal; lia|]. split; [done|]. split.
      * apply Forall_app. split; [done|]. repeat constructor; lia.
      * rewrite offers_total_app. cbn. lia.
Qed.
End Write.

(** ** [parse_request] on a buffer filled by several reads *)

Definition request_ok (r : request) : Prop :=
  buffer_ok r /\ 0 <= m_checked_idx r <= m_read_idx r.

(** What the functions for one line leave of the indices. *)
Definition same_place (r r' : request) : Prop :=
  length (m_read_buf r') = length (m_read_buf r) /\ m_read_idx r' = m_read_idx r /\
  m_checked_idx r' = m_checked_idx r.

Lemma same_place_ok r r' : same_place r r' -> request_ok r -> request_ok r'.
Proof. unfold same_place, request_ok, buffer_ok. intros (-> & -> & ->). done. Qed.

Lemma put0_length b i b' : put0 b i = Some b' -> length b' = length b.
Proof. unfold put0. case_match; [|done]. intros [= <-]. by rewrite length_insert. Qed.

(** [opt_cases H] opens the sequence of fallible steps of [H : _ = Some _]. *)
Ltac opt_cases H :=
  repeat first
    [ apply bind_Some in H as (? & ? & H)
    | match type of H with
      | (if ?b then _ else _) = Some _ => destruct b
      | match ?x with _ => _ end = Some _ => destruct x
      end ];
  simplify_eq.
Ltac put0_lengths :=
  repeat match goal with H : put0 _ _ = Some _ |- _ => apply put0_length in H end.

Lemma parse_line_loop_place n : forall r st r',
  parse_line_loop n r = Some (st, r') -> request_ok r -> (Z.to_nat (m_read_idx r - m_checked_idx r) = n) ->
  request_ok r' /\ m_read_idx r' = m_read_idx r /\ m_check_state r' = m_check_state r /\
  m_checked_idx r <= m_checked_idx r' /\ (st = LINE_OK -> m_checked_idx r < m_checked_idx r').
Proof.
  induction n as [|n IH]; intros r st r' H Hr Hn; cbn [parse_line_loop] in H;
    [simplify_eq; split_and!; done || lia|].
  assert (Hb := Hr). destruct Hb as [[Hb1 Hb2] Hb3].
  apply bind_Some in H as (temp & _ & H). destruct (temp =? CR).
  - destruct (_ =? m_read_idx r) eqn:E; [simplify_eq; split_and!; done || lia|].
    opt_cases H; put0_lengths; split_and!; try done; cbn; try lia. split; [split|]; cbn; lia || congruence.
  - destruct (temp =? LF).
    + opt_cases H; put0_lengths; split_and!; try done; cbn; try lia. split; [split|]; cbn; lia || congruence.
    + apply IH in H; [|by split; [split|cbn; lia]|cbn; lia].
      cbn in H. destruct H as (? & -> & -> & ? & ?). split_and!; try done; lia.
Qed.

Lemma parse_request_line_place text r code r' :
  parse_request_line text r = Some (code, r') -> same_place r r' /\ code <> GET_REQUEST.
Proof.
  intros H. unfold parse_request_line, parse_target in H.
  opt_cases H; put0_lengths; (split; [|done]); repeat split; cbn; congruence.
Qed.
Lemma parse_header_place text r code r' line :
  parse_header text r = Some (code, r', line) -> same_place r r' /\ code <> BAD_REQUEST.
Proof. intros H. unfold parse_header in H. opt_cases H; (split; [|done]); by repeat case_match. Qed.
Lemma parse_content_place text r code r' :
  parse_content text r = Some (code, r') ->
  same_place r r' /\ m_check_state r' = m_check_state r.
Proof. intros H. unfold parse_content in H. opt_cases H; put0_lengths; by repeat split. Qed.

(** What [parse_request] can answer, for whatever is in the buffer. *)
Definition verdict_ok (v : verdict) : Prop :=
  request_ok v.2 /\ (v.1 = inl NO_REQUEST \/ v.1 = inl BAD_REQUEST \/ v.1 = inr ()).
Definition parses (m : M verdict) : Prop :=
  forall w, runs m (fun v _ => verdict_ok v) (fun h _ => h = Undefined) w.

Lemma parses_ret code r :
  request_ok r -> (code = inl NO_REQUEST \/ code = inl BAD_REQUEST \/ code = inr ()) ->
  parses (mret (code, r)).
Proof. intros Hr Hc w. by apply runs_ret. Qed.

Lemma parses_or_undef {A} (o : option A) (f : A -> M verdict) :
  (forall x, o = Some x -> parses (f x)) -> parses (or_undef o ≫= f).
Proof.
  intros Hf w. destruct o as [x|] eqn:E; [|by apply runs_none].
  eapply runs_or_undef; [done|]. by apply Hf.
Qed.
Lemma parses_output c (f : unit -> M verdict) :
  is_output c = true -> parses (f ()) -> parses (output c ≫= f).
Proof.
  intros Hc Hf w. apply runs_out; [done|]. intros w'. eapply runs_mono; [apply Hf|done|done].
Qed.

(** Passes of the loop that are not preceded by a line: at most one. *)
Definition spare (st : LINE_STATUS) (r : request) : Z :=
  match m_check_state r, st with
  | CHECK_STATE_CONTENT, LINE_OK => 1
  | CHECK_STATE_CONTENT, _ => 0
  | _, _ => 1
  end.

Section ProcessLine.
Context (again : LINE_STATUS -> request -> M verdict) (text : Z) (r : request).
Hypothesis Hr : request_ok r.
Hypothesis Hagain : forall st r', request_ok r' -> m_checked_idx r' = m_checked_idx r ->
  m_read_idx r' = m_read_idx r ->
  (m_check_state r = CHECK_STATE_CONTENT -> spare st r' = 0) -> parses (again st r').

Lemma process_line_parses : parses (process_line again text r).
Proof.
  assert (Hsame : forall r', same_place r r' -> request_ok r' /\
            m_checked_idx r' = m_checked_idx r /\ m_read_idx r' = m_read_idx r).
  { intros r' H. split; [by eapply same_place_ok|]. by destruct H as (_ & -> & ->). }
  unfold process_line. apply parses_or_undef. intros l _. apply parses_or_undef. intros s _.
  apply parses_output; [done|]. destruct (m_check_state r) eqn:Est.
  - apply parses_or_undef. intros [code r'] H. apply parse_request_line_place in H as [H Hc].
    apply Hsame in H as (? & ? & ?).
    destruct code; try (apply Hagain; done); try done. apply parses_ret; auto.
  - unfold parse_headers. intros w. eapply runs_ext.
    { instantiate (1 := '(code, r', line) ← or_undef (parse_header text r);
        (match line with [] => mret () | _ => output (CStdout line) end);;
        match code with
        | BAD_REQUEST => mret (inl BAD_REQUEST, r')
        | GET_REQUEST => mret (inr (), r')
        | _ => again LINE_OK r'
        end).
      unfold mbind, M_bind, or_undef. destruct (parse_header text r) as [[[code r'] line]|]; [|done].
      by destruct line. }
    revert w. apply parses_or_undef. intros [[code r'] line] H.
    apply parse_header_place in H as [H _]. apply Hsame in H as (? & ? & ?).
    assert (parses (match code with
        | BAD_REQUEST => mret (inl BAD_REQUEST, r')
        | GET_REQUEST => mret (inr (), r')
        | _ => again LINE_OK r' end))
      by (destruct code; try (apply Hagain; done); apply parses_ret; auto).
    destruct line; [done|]. by apply parses_output.
  - apply parses_or_undef. intros [code r'] H. apply parse_content_place in H as [H Hs].
    apply Hsame in H as (? & ? & ?).
    destruct code; try (apply Hagain; try done; intros _; unfold spare; by rewrite Hs, Est).
    apply parses_ret; auto.
Qed.
End ProcessLine.

Lemma read_loop_parses f : forall st r,
  request_ok r -> m_read_idx r - m_checked_idx r + spare st r < Z.of_nat f ->
  parses (read_loop f st r).
Proof.
  induction f as [|f IH]; intros st r Hr Hf.
  { destruct Hr as [_ Hr]. unfold spare in Hf. destruct (m_check_state r), st; lia. }
  assert (Hline : parses ('(status, r) ← or_undef (parse_line r);
     match status with
     | LINE_OK => process_line (read_loop f) (m_start_line r) (with_start (m_checked_idx r) r)
     | _ => mret (inl NO_REQUEST, r)
     end) ).
  { apply parses_or_undef. intros [status r'] H. apply parse_line_loop_place in H; [|done|done].
    destruct H as (Hr' & Hi & Hs & Hc & Hlt). destruct status; [|apply parses_ret; auto..].
    apply process_line_parses; [exact Hr'|]. cbn. intros st' r2 Hr2 Hc2 Hi2 Hsp. apply IH; [done|].
    specialize (Hlt eq_refl). unfold spare in *. rewrite Hs in Hsp.
    destruct (m_check_state r), st, (m_check_state r2), st'; try lia; specialize (Hsp eq_refl); lia. }
  cbn [read_loop]. destruct (m_check_state r) eqn:Est; [exact Hline|exact Hline|].
  destruct st; [|exact Hline|exact Hline].
  apply process_line_parses; [exact Hr|]. cbn. intros st' r2 Hr2 Hc2 Hi2 Hsp. apply IH; [done|].
  rewrite Est in Hsp. specialize (Hsp eq_refl). unfold spare in Hf at 1. rewrite Est in Hf. lia.
Qed.

Lemma parse_request_parses r : request_ok r -> parses (parse_request r).
Proof.
  intros Hr. apply read_loop_parses; [done|]. destruct Hr as [[_ H1] H2]. unfold read_fuel, spare.
  unfold READ_BUFFER_SIZE in *. destruct (m_check_state r); lia.
Qed.

(** ** What the peer gets *)

(** Every [writev] takes all of [l] or fails. *)
Definition all_or_nothing (l : list Z) (e : list event) : Prop :=
  forall fd d a, (CWrite fd d, a) ∈ e -> a_ret a < 0 \/ a_ret a = Z.of_nat (length l).

Lemma sent_unmapped fd c um : unmapped c um -> sent fd um = [].
Proof. unfold unmapped. destruct (m_file_address c); [by intros ->|by intros [a ->]..]. Qed.

Lemma offers_elem fd l taken a : a ∈ taken -> (CWrite fd l, a) ∈ offers fd l taken.
Proof. intros Ha. apply list_elem_of_fmap. by exists a. Qed.

(** With short counts excluded nothing is offered after the reply was taken. *)
Lemma short_whole c l taken :
  m_write_idx c <= Z.of_nat (length l) -> short c l taken ->
  (forall a, a ∈ taken -> a_ret a < 0 \/ a_ret a = Z.of_nat (length l)) -> taken = [].
Proof.
  intros Hl [Hs Ht] Hw. destruct taken as [|a taken]; [done|]. exfalso.
  apply Forall_cons in Hs as [Ha Hs]. destruct (Hw a) as [|Ha']; [apply list_elem_of_here|lia|].
  enough (0 <= total taken) by (cbn [total foldr] in Ht; unfold total in *; cbn in Ht; lia).
  clear Hw Ht. induction taken as [|b t IH]; [done|]. apply Forall_cons in Hs as [? ?].
  specialize (IH H0). unfold total in *. cbn. lia.
Qed.

Lemma wrote_once epollfd c l r e :
  wrote epollfd c l r e -> m_write_idx c <= Z.of_nat (length l) -> all_or_nothing l e ->
  sent (m_sockfd c) e = l \/ sent (m_sockfd c) e = [].
Proof.
  intros Hw Hl Ha.
  assert (Hone : forall taken last e', e = offers (m_sockfd c) l (taken ++ [last]) ++ e' ->
            short c l taken -> sent (m_sockfd c) e' = [] ->
            sent (m_sockfd c) e = take (Z.to_nat (a_ret last)) l /\
            (a_ret last < 0 \/ a_ret last = Z.of_nat (length l))).
  { intros taken last e' -> Hs He'.
    assert (Hel : forall a, a ∈ taken ++ [last] -> a_ret a < 0 \/ a_ret a = Z.of_nat (length l)).
    { intros a Hin. apply (Ha (m_sockfd c) l). apply elem_of_app. left. by apply offers_elem. }
    assert (taken = []) as ->.
    { apply (short_whole c l); [done|done|]. intros a Hin. apply Hel, elem_of_app. by left. }
    split; [|apply Hel, list_elem_of_singleton; done].
    cbn [app offers fmap list_fmap sent]. by rewrite Z.eqb_refl, He', app_nil_r. }
  assert (Hend : forall taken last e', e = offers (m_sockfd c) l (taken ++ [last]) ++ e' ->
            short c l taken -> sent (m_sockfd c) e' = [] ->
            sent (m_sockfd c) e = l \/ sent (m_sockfd c) e = []).
  { intros taken last e' He Hs He'. destruct (Hone taken last e' He Hs He') as [-> [Hneg| ->]].
    - right. by replace (Z.to_nat (a_ret last)) with 0%nat by lia.
    - left. rewrite Nat2Z.id. apply firstn_all. }
  destruct Hw as [taken last um a Hs _ _ Hu|taken last a Hs _ _|taken last um Hs _ _ Hu];
    (eapply Hend; [done|done|]); rewrite ?sent_app, ?(sent_unmapped _ _ _ Hu); done.
Qed.

(** A reply that lies in a mapping that failed cannot be sent. *)
Lemma write_bad_address epollfd c w :
  0 < m_write_idx c -> gather c (m_iv c) = None ->
  runs (write epollfd c)
    (fun r e => r = (false, with_map MapNull c) /\ exists a um,
       e = (CLibc "writev" [m_sockfd c] [], a) :: um /\ unmapped c um)
    (fun h e => h = Blocked) w.
Proof.
  intros Hi Hg. unfold write. rewrite (proj2 (Z.eqb_neq _ _)) by lia.
  apply (runs_loop _ (fun s e => s = (m_write_idx c, c) /\ e = [])); [done|].
  intros s e w1 [-> ->]. unfold write_step. rewrite Hg.
  apply runs_call; [done|done|]. intros a w2 x _. apply runs_set_errno. intros w3 He.
  apply runs_get_errno. rewrite He. cbn [Z.eqb EAGAIN].
  apply unmap_runs; [done|]. intros um w4 Hu. apply runs_ret. split; [done|].
  exists x, um. by rewrite app_nil_r.
Qed.


