(* ===== verification/WebServer.v ===== *)
(** * The web server and its thread pool

    youshuang/ch15_pool/thread_pool/web_server.cpp, threadpool.h, locker.h:
    the main thread waits with [epoll], reads requests and sends replies; the
    threads of the pool run [process].  The threads share the queue (under
    its lock), the semaphore, the objects [users] and the counter
    [m_user_count].

    Each action between two synchronisation points is a program of the monad
    [M]; [web_step] interleaves them: any thread may make the next step.  The
    steps of a thread are: in the main loop [epoll_wait], the handling of one
    event up to the [push_back] under the lock, and the [post]; in [run] the
    [wait], the locked [pop_front], and [process].  Treating the handling of
    an event and [process] as one step each is justified by the theorem
    itself: the object that such a step works on is in the hands of that
    thread alone, and is handed on by its last call. *)

From stdpp Require Import functions.
From S2P Require Import TimerServer Unix InetPton TcpEcho NonBlock Http HttpReply HttpIO.

Definition MAX_FD : Z := 65536.
Definition WEB_EVENTS : Z := 10000.
Definition EPOLLERR : Z := 8.
Definition EPOLLHUP : Z := 16.
Definition SIGPIPE : Z := 13.
Definition SIG_IGN : Z := 1.
Definition SO_LINGER : Z := 13.

(** ** threadpool.h *)

Definition thread_number : nat := 8.
Definition max_requests : Z := 10000.

(** The queue holds pointers to connections: indices of [users]. *)
Record threadpool : Type := Pool { m_workqueue : list Z; m_queuestat : Z }.

(** [append] up to the release of the lock; [push_back] has been done when it
    answers [true], and [post] is to follow. *)
Definition append (request : Z) (p : threadpool) : bool * threadpool :=
  if max_requests <? Z.of_nat (length (m_workqueue p)) then (false, p)
  else (true, Pool (m_workqueue p ++ [request]) (m_queuestat p)).
Definition post (p : threadpool) : threadpool := Pool (m_workqueue p) (m_queuestat p + 1).

(** The places of a thread in [run]: before [m_queuestat.wait()], before
    [m_queuelocker.lock()], and before [request->process()]. *)
Inductive worker : Type := AtWait | AtLock | HasRequest (request : Z).
#[export] Instance worker_eq_dec : EqDecision worker.
Proof. solve_decision. Defined.

(** [wait] goes on when the semaphore is positive. *)
Definition run_wait (p : threadpool) : option threadpool :=
  if 0 <? m_queuestat p then Some (Pool (m_workqueue p) (m_queuestat p - 1)) else None.
(** From [lock] to [unlock]; the queue may be empty. *)
Definition run_take (p : threadpool) : worker * threadpool :=
  match m_workqueue p with
  | [] => (AtWait, p)
  | request :: q => (HasRequest request, Pool q (m_queuestat p))
  end.

(** The constructor: [false] when it throws. *)
Fixpoint start_threads (todo i : nat) : M bool :=
  match todo with
  | O => mret true
  | S todo' =>
      printf (chars "create the " ++ fmt_d (Z.of_nat i) ++ chars "th therad." ++ [10]);;
      r ← ret_of (CLibc "pthread_create" [Z.of_nat i] []);
      if negb (r =? 0) then mret false
      else
        r ← ret_of (CLibc "pthread_detach" [Z.of_nat i] []);
        if negb (r =? 0) then mret false
        else start_threads todo' (S i)
  end.

(** ** The main loop *)

(** [users], the objects of all possible connections, and [m_user_count]. *)
Definition conns : Type := ((Z -> http_conn) * Z)%type.
Definition user (u : Z -> http_conn) (fd : Z) : option http_conn :=
  if (0 <=? fd) && (fd <? MAX_FD) then Some (u fd) else None.

Definition show_error (connfd : Z) (info : list Z) : M unit :=
  printf (info ++ [10]);;
  kernel (CSendto connfd info []);;
  kernel (CClose connfd);;
  mret ().

Definition web_wait (epollfd : Z) : call := CLibc "epoll_wait" [epollfd; WEB_EVENTS; -1] [].
Definition web_ready (a : answer) : list (Z * Z) :=
  if a_ret a <? 0 then [] else take (Z.to_nat WEB_EVENTS) (pairs (a_data a)).

(** [epoll_wait] and its test; [None] is the [break]. *)
Definition web_poll (epollfd : Z) : M (option (list (Z * Z))) :=
  a ← kernel (web_wait epollfd);
  e ← get_errno;
  if (a_ret a <? 0) && negb (e =? EINTR) then
    printf (chars "epoll failure." ++ [10]);;
    mret None
  else mret (Some (web_ready a)).

Definition web_accept (listenfd epollfd : Z) (s : conns) : M conns :=
  let '(u, user_count) := s in
  connfd ← ret_of (CAccept listenfd);
  if connfd <? 0 then
    e ← get_errno;
    printf (chars "errno is: " ++ fmt_d e ++ [10]);;
    mret s
  else if MAX_FD <=? user_count then
    show_error connfd (chars "Internal server busy.");;
    mret s
  else
    c ← or_undef (user u connfd);
    '(c, n) ← open_conn epollfd connfd (c, user_count);
    mret (<[connfd := c]> u, n).

(** [users[sockfd].close_conn()]. *)
Definition web_close (epollfd sockfd : Z) (c : http_conn) (s : conns) : M conns :=
  '(c, n) ← close_conn epollfd true (c, s.2);
  mret (<[sockfd := c]> s.1, n).

(** The body of the [for] loop; [Some fd] asks for [pool->append(users + fd)]. *)
Definition web_event (listenfd epollfd : Z) (ev : Z * Z) (s : conns) : M (conns * option Z) :=
  let '(sockfd, events) := ev in
  if sockfd =? listenfd then s ← web_accept listenfd epollfd s; mret (s, None)
  else
    c ← or_undef (user s.1 sockfd);
    if negb (Z.land events (Z.lor EPOLLRDHUP (Z.lor EPOLLHUP EPOLLERR)) =? 0) then
      s ← web_close epollfd sockfd c s; mret (s, None)
    else if negb (Z.land events EPOLLIN =? 0) then
      '(ret, c) ← HttpReply.read c;
      if (ret : bool) then mret ((<[sockfd := c]> s.1, s.2), Some sockfd)
      else s ← web_close epollfd sockfd c s; mret (s, None)
    else if negb (Z.land events EPOLLOUT =? 0) then
      '(ret, c) ← HttpReply.write epollfd c;
      if negb ret then s ← web_close epollfd sockfd c s; mret (s, None)
      else mret ((<[sockfd := c]> s.1, s.2), None)
    else mret (s, None).

(** [request->process()]. *)
Definition web_process (epollfd request : Z) (s : conns) : M conns :=
  c ← or_undef (user s.1 request);
  '(c, n) ← process epollfd (c, s.2);
  mret (<[request := c]> s.1, n).

(** [addsig(SIGPIPE, SIG_IGN)]. *)
Definition web_addsig (sig handler : Z) : M unit :=
  r ← ret_of (CLibc "sigaction" [sig; handler; 1] []);
  assert (negb (r =? -1)).

(** The part of [main] before the loop; [inl] is its result when it returns
    there, [inr] the listening socket and the [epoll] descriptor. *)
Definition web_setup (argv : list (list Z)) : M (Z + Z * Z) :=
  match argv with
  | _ :: ip :: port :: _ =>
      web_addsig SIGPIPE SIG_IGN;;
      pool ← start_threads thread_number 0;
      if negb pool then mret (inl 1)
      else
        listenfd ← ret_of (CSocket AF_INET SOCK_STREAM 0);
        assert (0 <=? listenfd);;
        kernel (CSetsockopt listenfd 1 SO_LINGER [1; 0; 0; 0; 0; 0; 0; 0]);;
        r ← kernel (CLibc "inet_pton" [AF_INET] ip);
        ret ← ret_of (CBind listenfd (sockaddr_in (u16 (atoi port))
          (if a_ret r =? 1 then a_data r else [0; 0; 0; 0])));
        assert (negb (ret =? -1));;
        ret ← ret_of (CListen listenfd 5);
        assert (negb (ret =? -1));;
        epollfd ← ret_of (CLibc "epoll_create" [5] []);
        assert (negb (epollfd =? -1));;
        http_addfd epollfd listenfd false;;
        mret (inr (listenfd, epollfd))
  | _ =>
      printf (chars "usage: " ++ basename (default [] (argv !! 0%nat)) ++
              chars " ip_address port_number" ++ [10]);;
      mret (inl 1)
  end.

(** ** The threads together *)

(** The places of the main thread: before [epoll_wait]; with events still to
    be handled; between [push_back] and [post]; after the loop has ended. *)
Inductive main_pc : Type :=
| Polling | Handling (evs : list (Z * Z)) | Posting (evs : list (Z * Z)) | Broken.

(** The whole state; [lost] is a record for the theorem: the connections
    whose [append] has failed. *)
Record web : Type := Web {
  conns_of : conns;
  pool : threadpool;
  main_at : main_pc;
  workers : list worker;
  lost : gset Z
}.

Section Server.
Context (listenfd epollfd : Z).

(** What the main thread does after an event. *)
Definition after_web_event (r : conns * option Z) (evs : list (Z * Z)) (s : web) : web :=
  match r.2 with
  | None => Web r.1 (pool s) (Handling evs) (workers s) (lost s)
  | Some fd =>
      let '(ok, p) := append fd (pool s) in
      if ok : bool then Web r.1 p (Posting evs) (workers s) (lost s)
      else Web r.1 p (Handling evs) (workers s) ({[fd]} ∪ lost s)
  end.

Inductive web_step (s : web) : list event -> web -> Prop :=
| step_poll w w' e r :
    main_at s = Polling -> web_poll epollfd w = (Ret r, w') -> extends w w' e ->
    web_step s e (Web (conns_of s) (pool s)
      (match r with Some evs => Handling evs | None => Broken end) (workers s) (lost s))
| step_next :
    main_at s = Handling [] ->
    web_step s [] (Web (conns_of s) (pool s) Polling (workers s) (lost s))
| step_event ev evs w w' e r :
    main_at s = Handling (ev :: evs) ->
    web_event listenfd epollfd ev (conns_of s) w = (Ret r, w') -> extends w w' e ->
    web_step s e (after_web_event r evs s)
| step_post evs :
    main_at s = Posting evs ->
    web_step s [] (Web (conns_of s) (post (pool s)) (Handling evs) (workers s) (lost s))
| step_wait i p :
    main_at s <> Broken -> workers s !! i = Some AtWait -> run_wait (pool s) = Some p ->
    web_step s [] (Web (conns_of s) p (main_at s) (<[i := AtLock]> (workers s)) (lost s))
| step_take i :
    main_at s <> Broken -> workers s !! i = Some AtLock ->
    web_step s [] (Web (conns_of s) (run_take (pool s)).2 (main_at s)
      (<[i := (run_take (pool s)).1]> (workers s)) (lost s))
| step_process i fd w w' e c :
    main_at s <> Broken -> workers s !! i = Some (HasRequest fd) ->
    web_process epollfd fd (conns_of s) w = (Ret c, w') -> extends w w' e ->
    web_step s e (Web c (pool s) (main_at s) (<[i := AtWait]> (workers s)) (lost s)).

(** ** The kernel's side

    The descriptors registered with [epoll]: with the events asked for, or
    disabled, when [EPOLLONESHOT] has taken effect. *)
Local Notation interest := (gmap Z (option Z)).

(** [epoll_wait] has reported [fd]. *)
Definition reported_once (k : interest) (fd : Z) : interest :=
  match k !! fd with
  | Some (Some m) => if Z.land m EPOLLONESHOT =? 0 then k else <[fd := None]> k
  | _ => k
  end.

Definition epoll_after (args : list Z) (k : interest) : interest :=
  match args with
  | [_; op; fd; ev] => if op =? EPOLL_CTL_DEL then delete fd k else <[fd := Some ev]> k
  | _ => k
  end.
Definition k_event (k : interest) (x : event) : interest :=
  match x.1 with
  | CClose fd => delete fd k
  | CLibc name args _ =>
      if String.eqb name "epoll_ctl" then if a_ret x.2 <? 0 then k else epoll_after args k
      else if String.eqb name "epoll_wait" then fold_left reported_once (web_ready x.2).*1 k
      else k
  | _ => k
  end.
Definition k_events (k : interest) (e : list event) : interest := fold_left k_event e k.

(** What it promises: new descriptors are not in use; operations on registered
    descriptors succeed; [epoll_wait] reports registered and enabled
    descriptors, each once, and of the events those asked for or a hang-up. *)
Definition epoll_ok (args : list Z) (k : interest) (a : answer) : Prop :=
  match args with
  | [_; op; fd; _] => is_Some (k !! fd) \/ op = EPOLL_CTL_ADD -> 0 <= a_ret a
  | _ => True
  end.
Definition asked (m ev bit : Z) : Prop := Z.land ev bit <> 0 -> Z.land m bit <> 0.
Definition reports (k : interest) (x : Z * Z) : Prop :=
  match k !! x.1 with
  | Some (Some m) =>
      asked m x.2 EPOLLIN /\ asked m x.2 EPOLLOUT /\
      Z.land x.2 (Z.lor EPOLLIN (Z.lor EPOLLOUT (Z.lor EPOLLRDHUP (Z.lor EPOLLHUP EPOLLERR)))) <> 0
  | _ => False
  end.
Definition k_allows (k : interest) (x : event) : Prop :=
  match x.1 with
  | CAccept _ => 0 <= a_ret x.2 -> k !! a_ret x.2 = None
  | CLibc name args _ =>
      (name = "open"%string -> 0 <= a_ret x.2 -> k !! a_ret x.2 = None) /\
      (name = "epoll_ctl"%string -> epoll_ok args k x.2) /\
      (name = "epoll_wait"%string ->
         NoDup (web_ready x.2).*1 /\ Forall (reports k) (web_ready x.2))
  | _ => True
  end.
Fixpoint k_promised (k : interest) (e : list event) : Prop :=
  match e with
  | [] => True
  | x :: e' => k_allows k x /\ k_promised (k_event k x) e'
  end.

#[export] Instance asked_dec m ev bit : Decision (asked m ev bit).
Proof. unfold asked. apply _. Defined.
#[export] Instance reports_dec k x : Decision (reports k x).
Proof. unfold reports. repeat case_match; apply _. Defined.
#[export] Instance epoll_ok_dec args k a : Decision (epoll_ok args k a).
Proof. unfold epoll_ok. repeat case_match; apply _. Defined.
#[export] Instance k_allows_dec k x : Decision (k_allows k x).
Proof. unfold k_allows. destruct (x.1); apply _. Defined.
#[export] Instance k_promised_dec k e : Decision (k_promised k e).
Proof. revert k. induction e as [|x e IH]; intros k; cbn [k_promised]; apply _. Defined.

(** The states that the server can reach. *)
Inductive reach : interest -> web -> Prop :=
| reach_start argv u w w' e :
    web_setup argv w = (Ret (inr (listenfd, epollfd)), w') -> extends w w' e -> k_promised ∅ e ->
    reach (k_events ∅ e)
      (Web (u, 0) (Pool [] 0) Polling (replicate thread_number AtWait) ∅)
| reach_step k s e s' :
    reach k s -> web_step s e s' -> k_promised k e -> reach (k_events k e) s'.

(** ** The invariant *)

(** A connection that can take input, and one with a reply to send. *)
Definition fresh_conn (c : http_conn) : Prop :=
  request_ok (m_req c) /\ written c [] /\ m_real_file c = zeros FILENAME_LEN.
Definition has_reply (c : http_conn) : Prop := 0 < m_write_idx c.

Definition in_mask : Z := Z.lor (Z.lor (Z.lor EPOLLIN EPOLLET) EPOLLONESHOT) EPOLLRDHUP.
Definition out_mask : Z := Z.lor (Z.lor (Z.lor EPOLLOUT EPOLLET) EPOLLONESHOT) EPOLLRDHUP.
Definition listen_mask : Z := Z.lor (Z.lor EPOLLIN EPOLLET) EPOLLRDHUP.

(** The connections in the hands of the main thread, and of the workers. *)
Definition pending (s : web) : list (Z * Z) :=
  filter (fun x => x.1 <> listenfd)
    (match main_at s with Handling evs | Posting evs => evs | _ => [] end).
Definition running (s : web) : list Z :=
  omap (fun t => match t with HasRequest fd => Some fd | _ => None end) (workers s).
Definition in_hand (s : web) : list Z := (pending s).*1 ++ m_workqueue (pool s) ++ running s.

(** The connections open: registered, other than the listening socket. *)
Definition open_conns (k : interest) : gset Z := dom k ∖ {[listenfd]}.

Definition woken (s : web) : list worker := filter (fun t => t = AtLock) (workers s).
Definition posting (s : web) : nat := match main_at s with Posting _ => 1 | _ => 0 end.

(** The state of a connection in which an event is awaited, or handled. *)
Definition armed (m : Z) (c : http_conn) : Prop :=
  m = in_mask /\ fresh_conn c \/ m = out_mask /\ has_reply c.
Definition expects (c : http_conn) (ev : Z) : Prop :=
  (Z.land ev EPOLLIN <> 0 -> fresh_conn c) /\ (Z.land ev EPOLLOUT <> 0 -> has_reply c) /\
  Z.land ev (Z.lor EPOLLIN (Z.lor EPOLLOUT (Z.lor EPOLLRDHUP (Z.lor EPOLLHUP EPOLLERR)))) <> 0.

(** The kernel's table, the objects and the owners fit together: a connection
    that is registered is enabled and in the state that its events need, or
    disabled and in exactly one hand, or lost. *)
Record owned (k : interest) (u : Z -> http_conn) (n : Z) (hand : list Z) (gone : gset Z) : Prop := {
  own_listen : k !! listenfd = Some (Some listen_mask);
  own_open : forall fd m, k !! fd = Some m -> fd <> listenfd -> 0 <= fd < MAX_FD /\ m_sockfd (u fd) = fd;
  own_armed : forall fd m, k !! fd = Some (Some m) -> fd <> listenfd -> armed m (u fd);
  own_nodup : NoDup hand;
  own_hand : forall fd, fd ∈ hand <-> k !! fd = Some None /\ fd ∉ gone;
  own_gone : forall fd, fd ∈ gone -> k !! fd = Some None;
  own_count : n = Z.of_nat (size (open_conns k))
}.

Section Owned.
Context (k : interest) (u : Z -> http_conn) (n : Z) (hand : list Z) (gone : gset Z).

Lemma owned_perm hand' : hand ≡ₚ hand' -> owned k u n hand gone -> owned k u n hand' gone.
Proof.
  intros Hp [H1 H2 H3 H4 H5 H6 H7]. constructor; try done; [by rewrite <- Hp|].
  intros fd. by rewrite <- Hp.
Qed.

Lemma owned_head fd :
  owned k u n (fd :: hand) gone ->
  k !! fd = Some None /\ fd ∉ gone /\ fd ∉ hand /\ fd <> listenfd /\ 0 <= fd < MAX_FD /\ m_sockfd (u fd) = fd.
Proof.
  intros [H1 H2 H3 H4 H5 H6 H7]. apply NoDup_cons in H4 as [H4 _].
  destruct (proj1 (H5 fd) (list_elem_of_here _ _)) as [Hk Hg].
  assert (fd <> listenfd) by (intros ->; congruence). by destruct (H2 fd None Hk).
Qed.

Lemma open_conns_delete fd :
  k !! fd = Some None -> fd <> listenfd ->
  Z.of_nat (size (open_conns (delete fd k))) = Z.of_nat (size (open_conns k)) - 1.
Proof.
  intros Hk Hl. unfold open_conns. rewrite dom_delete_L.
  assert (Hin : fd ∈ dom k ∖ {[listenfd]}).
  { apply elem_of_difference. split; [by apply elem_of_dom|]. by rewrite elem_of_singleton. }
  replace ((dom k ∖ {[fd]}) ∖ {[listenfd]}) with ((dom k ∖ {[listenfd]}) ∖ {[fd]}) by set_solver.
  rewrite (size_difference _ {[fd]}) by set_solver. rewrite size_singleton.
  assert (size (dom k ∖ {[listenfd]}) <> 0%nat); [|lia].
  intros Hz. apply size_empty_inv in Hz. set_solver.
Qed.

Lemma owned_close fd c :
  owned k u n (fd :: hand) gone -> owned (delete fd k) (<[fd := c]> u) (n - 1) hand gone.
Proof.
  intros Ho. destruct (owned_head fd Ho) as (Hk & Hg & Hn & Hl & _). destruct Ho as [H1 H2 H3 H4 H5 H6 H7].
  apply NoDup_cons in H4 as [_ H4].
  constructor.
  - by rewrite lookup_delete_ne.
  - intros g m [Hne Hg']%lookup_delete_Some Hgl. rewrite fn_lookup_insert_ne by done. by eapply H2.
  - intros g m [Hne Hg']%lookup_delete_Some Hgl. rewrite fn_lookup_insert_ne by done. by eapply H3.
  - done.
  - intros g. destruct (decide (g = fd)) as [->|Hne].
    + split; [done|]. rewrite lookup_delete_eq. by intros [? _].
    + rewrite lookup_delete_ne by done. rewrite <- H5. rewrite elem_of_cons. intuition.
  - intros g Hgg. rewrite lookup_delete_ne; [by apply H6|]. congruence.
  - rewrite open_conns_delete by done. lia.
Qed.

Lemma open_conns_insert fd m :
  is_Some (k !! fd) -> open_conns (<[fd := m]> k) = open_conns k.
Proof. intros Hk. unfold open_conns. rewrite dom_insert_lookup_L by done. done. Qed.

Lemma owned_rearm fd c m :
  owned k u n (fd :: hand) gone -> m_sockfd c = fd -> armed m c ->
  owned (<[fd := Some m]> k) (<[fd := c]> u) n hand gone.
Proof.
  intros Ho Hc Hm. destruct (owned_head fd Ho) as (Hk & Hg & Hn & Hl & Hr & _).
  destruct Ho as [H1 H2 H3 H4 H5 H6 H7]. apply NoDup_cons in H4 as [_ H4].
  constructor.
  - by rewrite lookup_insert_ne.
  - intros g m' [[<- <-]|[Hne Hg']]%lookup_insert_Some Hgl; [by rewrite fn_lookup_insert|].
    rewrite fn_lookup_insert_ne by done. by eapply H2.
  - intros g m' [[<- [= <-]]|[Hne Hg']]%lookup_insert_Some Hgl; [by rewrite fn_lookup_insert|].
    rewrite fn_lookup_insert_ne by done. by eapply H3.
  - done.
  - intros g. destruct (decide (g = fd)) as [->|Hne].
    + split; [done|]. rewrite lookup_insert_eq. by intros [? _].
    + rewrite lookup_insert_ne by done. rewrite <- H5. rewrite elem_of_cons. intuition.
  - intros g Hgg. rewrite lookup_insert_ne; [by apply H6|]. congruence.
  - by rewrite open_conns_insert.
Qed.

Lemma owned_keep fd c :
  owned k u n (fd :: hand) gone -> m_sockfd c = fd -> owned k (<[fd := c]> u) n (fd :: hand) gone.
Proof.
  intros Ho Hc. destruct (owned_head fd Ho) as (Hk & Hg & Hn & Hl & Hr & _).
  destruct Ho as [H1 H2 H3 H4 H5 H6 H7].
  constructor; try done; intros g m Hg' Hgl; (destruct (decide (g = fd)) as [->|Hne];
    [|rewrite fn_lookup_insert_ne by done]); try by eauto.
  - by rewrite fn_lookup_insert.
  - congruence.
Qed.

Lemma owned_lose fd : owned k u n (fd :: hand) gone -> owned k u n hand ({[fd]} ∪ gone).
Proof.
  intros Ho. destruct (owned_head fd Ho) as (Hk & Hg & Hn & Hl & Hr & _).
  destruct Ho as [H1 H2 H3 H4 H5 H6 H7]. apply NoDup_cons in H4 as [_ H4].
  constructor; try done.
  - intros g. rewrite not_elem_of_union, not_elem_of_singleton. specialize (H5 g).
    rewrite elem_of_cons in H5. destruct (decide (g = fd)) as [->|]; intuition.
  - intros g [->%elem_of_singleton|Hgg]%elem_of_union; [done|by apply H6].
Qed.

Lemma owned_accept fd c :
  owned k u n hand gone -> k !! fd = None -> 0 <= fd < MAX_FD -> m_sockfd c = fd -> fresh_conn c ->
  owned (<[fd := Some in_mask]> k) (<[fd := c]> u) (n + 1) hand gone.
Proof.
  intros [H1 H2 H3 H4 H5 H6 H7] Hk Hr Hc Hf. assert (fd <> listenfd) by congruence.
  constructor.
  - by rewrite lookup_insert_ne.
  - intros g m' [[<- <-]|[Hne Hg']]%lookup_insert_Some Hgl; [by rewrite fn_lookup_insert|].
    rewrite fn_lookup_insert_ne by done. by eapply H2.
  - intros g m' [[<- [= <-]]|[Hne Hg']]%lookup_insert_Some Hgl;
      [by rewrite fn_lookup_insert; left|].
    rewrite fn_lookup_insert_ne by done. by eapply H3.
  - done.
  - intros g. rewrite H5. destruct (decide (g = fd)) as [->|Hne];
      [rewrite lookup_insert_eq|by rewrite lookup_insert_ne].
    split; intros [? _]; congruence.
  - intros g Hgg%H6. rewrite lookup_insert_ne; [done|]. congruence.
  - unfold open_conns in *. rewrite dom_insert_L.
    replace (({[fd]} ∪ dom k) ∖ {[listenfd]}) with ({[fd]} ∪ (dom k ∖ {[listenfd]})) by set_solver.
    rewrite size_union, size_singleton; [lia|]. apply not_elem_of_dom in Hk. set_solver.
Qed.

Lemma owned_disable fd m :
  owned k u n hand gone -> k !! fd = Some (Some m) -> fd <> listenfd ->
  owned (<[fd := None]> k) u n (fd :: hand) gone.
Proof.
  intros [H1 H2 H3 H4 H5 H6 H7] Hk Hl.
  assert (Hh : fd ∉ hand) by (intros [? _]%H5; congruence).
  constructor.
  - by rewrite lookup_insert_ne.
  - intros g m' [[<- <-]|[Hne Hg']]%lookup_insert_Some Hgl; by eapply H2.
  - intros g m' [[<- [=]]|[Hne Hg']]%lookup_insert_Some Hgl. by eapply H3.
  - by apply NoDup_cons.
  - intros g. rewrite elem_of_cons, H5. destruct (decide (g = fd)) as [->|Hne].
    + rewrite lookup_insert_eq. split; [intros _|by left]. split; [done|]. intros ?%H6. congruence.
    + rewrite lookup_insert_ne by done. intuition.
  - intros g Hgg%H6. rewrite lookup_insert_ne; [done|]. congruence.
  - by rewrite open_conns_insert.
Qed.
End Owned.

Lemma asked_none m ev bit : Z.land m bit = 0 -> asked m ev bit -> Z.land ev bit = 0.
Proof. unfold asked. intros Hm Ha. destruct (decide (Z.land ev bit = 0)); tauto. Qed.

Lemma reports_expects k c x m :
  k !! x.1 = Some (Some m) -> armed m c -> reports k x -> expects c x.2.
Proof.
  unfold reports. intros -> Hm (Hi & Ho & Hn). unfold expects.
  destruct Hm as [[-> Hc]|[-> Hc]].
  - assert (Z.land x.2 EPOLLOUT = 0) by (by apply (asked_none in_mask)). tauto.
  - assert (Z.land x.2 EPOLLIN = 0) by (by apply (asked_none out_mask)). tauto.
Qed.

Lemma reported_once_armed k fd m c :
  k !! fd = Some (Some m) -> armed m c -> reported_once k fd = <[fd := None]> k.
Proof. intros Hk Hm. unfold reported_once. rewrite Hk. by destruct Hm as [[-> _]|[-> _]]. Qed.

Definition not_listen (x : Z * Z) : Prop := x.1 <> listenfd.

Lemma owned_report u n gone evs : forall k hand,
  owned k u n hand gone -> NoDup evs.*1 -> Forall (reports k) evs ->
  owned (fold_left reported_once evs.*1 k) u n ((filter not_listen evs).*1 ++ hand) gone /\
  Forall (fun x => not_listen x -> expects (u x.1) x.2) evs.
Proof.
  induction evs as [|[fd ev] evs IH]; intros k hand Ho Hd Hr; [by split|].
  cbn [fmap list_fmap fst fold_left] in *. apply NoDup_cons in Hd as [Hn Hd].
  apply Forall_cons in Hr as [Hr Hrs].
  destruct (decide (fd = listenfd)) as [->|Hl].
  - assert (reported_once k listenfd = k) as ->
      by (unfold reported_once; by rewrite (own_listen _ _ _ _ _ Ho)).
    destruct (IH k hand Ho Hd Hrs) as [H1 H2].
    rewrite filter_cons_False by (unfold not_listen; naive_solver). split; [done|]. by constructor.
  - assert (exists m, k !! fd = Some (Some m)) as [m Hm]
      by (unfold reports in Hr; cbn in Hr; destruct (k !! fd) as [[m|]|]; eauto; done).
    pose proof (own_armed _ _ _ _ _ Ho fd m Hm Hl) as Ha.
    rewrite (reported_once_armed k fd m _ Hm Ha), filter_cons_True by done.
    destruct (IH (<[fd := None]> k) (fd :: hand)) as [H1 H2]; [by eapply owned_disable|done| |].
    + apply Forall_forall. intros [g ev'] Hin. rewrite Forall_forall in Hrs. specialize (Hrs _ Hin).
      unfold reports in *. cbn [fst snd] in *. rewrite lookup_insert_ne; [done|].
      intros ->. apply Hn, list_elem_of_fmap. by exists (g, ev').
    + split; [eapply owned_perm; [|exact H1]; cbn; by rewrite Permutation_middle|].
      constructor; [|done]. intros _. by apply (reports_expects k _ (fd, ev) m).
Qed.

(** ** What the calls of a program do to the kernel's table *)

Lemma k_events_app k a b : k_events k (a ++ b) = k_events (k_events k a) b.
Proof. apply fold_left_app. Qed.
Lemma k_promised_app k a b : k_promised k (a ++ b) <-> k_promised k a /\ k_promised (k_events k a) b.
Proof. revert k. induction a as [|x a IH]; intros k; cbn [app k_promised]; [tauto|]. rewrite IH. tauto. Qed.

(** Calls that do not concern [epoll]. *)
Definition silent (c : call) : bool :=
  match c with
  | CClose _ => false
  | CLibc name _ _ => negb (String.eqb name "epoll_ctl") && negb (String.eqb name "epoll_wait")
  | _ => true
  end.
Lemma k_events_silent k e : only (fun c => silent c = true) e -> k_events k e = k.
Proof.
  intros H. unfold k_events. induction H as [|[c a] e Hc He IH]; [done|]. cbn [fold_left].
  replace (k_event k (c, a)) with k; [done|]. cbn [fst] in Hc. destruct c; try done.
  cbn [silent] in Hc. apply andb_true_iff in Hc as [H1%negb_true_iff H2%negb_true_iff].
  unfold k_event. cbn [fst]. by rewrite H1, H2.
Qed.
Lemma silent_outputs e : only (fun c => is_output c = true) e -> only (fun c => silent c = true) e.
Proof. apply only_mono. by intros []. Qed.

Definition mask (ev : Z) : Z := Z.lor (Z.lor (Z.lor ev EPOLLET) EPOLLONESHOT) EPOLLRDHUP.

Lemma k_rearm k c ev a :
  is_Some (k !! m_sockfd c) -> k_promised k [rearm epollfd c ev a] ->
  k_events k [rearm epollfd c ev a] = <[m_sockfd c := Some (mask ev)]> k.
Proof.
  intros Hk [[_ [Hp _]] _]. specialize (Hp eq_refl). cbn in Hp.
  unfold k_events, rearm, k_event. cbn [fold_left fst snd epoll_ctl String.eqb].
  rewrite (proj2 (Z.ltb_ge _ _)) by auto. done.
Qed.

Lemma web_close_runs fd c s w :
  m_sockfd c = fd -> fd <> -1 ->
  runs (web_close epollfd fd c s)
    (fun r e => exists c', r = (<[fd := c']> s.1, s.2 - 1) /\ forall k, k_events k e = delete fd k)
    (fun h e => h = Blocked) w.
Proof.
  intros Hc Hfd. unfold web_close, close_conn. rewrite Hc, (proj2 (Z.eqb_neq _ _)) by done.
  cbn [andb negb]. unfold removefd. apply runs_bind, runs_bind, runs_call; [done|done|].
  intros a w1 x _. apply runs_call; [done|done|]. intros b w2 y _. apply runs_ret. intros w3.
  apply runs_ret. intros w4. apply runs_ret. exists (with_sockfd (-1) c). split; [done|]. intros k.
  unfold k_events, k_event. cbn [app fold_left fst snd epoll_ctl String.eqb epoll_after Z.eqb EPOLL_CTL_DEL].
  destruct (a_ret x <? 0); [done|]. apply delete_delete_eq.
Qed.

(** ** One event of a connection *)

Inductive outcome (k : interest) (s : conns) (fd : Z) : conns * option Z -> interest -> Prop :=
| out_closed c : outcome k s fd ((<[fd := c]> s.1, s.2 - 1), None) (delete fd k)
| out_armed c m : m_sockfd c = fd -> armed m c ->
    outcome k s fd ((<[fd := c]> s.1, s.2), None) (<[fd := Some m]> k)
| out_pool c : m_sockfd c = fd -> fresh_conn c -> outcome k s fd ((<[fd := c]> s.1, s.2), Some fd) k.

Lemma read_any_runs c w :
  fresh_conn c ->
  runs (HttpReply.read c)
    (fun r e => only (fun x => silent x = true) e /\ fresh_conn r.2 /\ m_sockfd r.2 = m_sockfd c)
    (fun h e => h = Blocked) w.
Proof.
  intros (Hr & Hw & Hf). destruct Hr as [Hb Hc].
  destruct (decide (m_read_idx (m_req c) < READ_BUFFER_SIZE)) as [Hi|Hi].
  - eapply runs_mono; [by apply read_runs|..]; cbn beta; [|done].
    intros r e (l & e0 & x & -> & -> & (_ & Ho & Hl) & Hx). split; [|split; [|done]].
    + apply only_app. split; [eapply only_mono; [|exact Ho]; by intros c' [n ->]|].
      by destruct Hx; apply only_one.
    + split; [split; [by apply received_more_ok|]; cbn; lia|]. split; [exact Hw|exact Hf].
  - unfold HttpReply.read. rewrite (proj2 (Z.leb_le _ _)) by lia. by apply runs_ret.
Qed.

Lemma fresh_init c : fresh_conn (init_conn c).
Proof.
  split; [split; [split; [done|vm_compute; by split]|vm_compute; by split]|].
  split; [split; [done|split; [done|done]]|done].
Qed.

Lemma unmapped_silent c um : unmapped c um -> only (fun x => silent x = true) um.
Proof. unfold unmapped. destruct (m_file_address c); [by intros ->|intros [a ->]; by apply only_one..]. Qed.
Lemma offers_silent fd l taken : only (fun x => silent x = true) (offers fd l taken).
Proof. apply Forall_fmap, Forall_true. done. Qed.

(** [write], then the end of the connection when it has failed. *)
Lemma wrote_outcome fd c l r e k s :
  wrote epollfd c l r e -> m_sockfd c = fd -> k !! fd = Some None -> k_promised k e ->
  (r.1 = true -> has_reply c -> outcome k s fd ((<[fd := r.2]> s.1, s.2), None) (k_events k e)) /\
  (r.1 = false -> delete fd (k_events k e) = delete fd k).
Proof.
  intros Hw Hc Hk Hp. destruct Hw as [taken last um a _ _ _ Hu|taken last a _ _ _|taken last um _ _ _ Hu];
    rewrite ?app_assoc in Hp |- *.
  - rewrite k_promised_app in Hp. destruct Hp as [_ Hp]. rewrite k_events_app.
    assert (Hs : only (fun x => silent x = true) (offers (m_sockfd c) l (taken ++ [last]) ++ um))
      by (apply only_app; eauto using offers_silent, unmapped_silent).
    rewrite (k_events_silent k _ Hs) in Hp |- *. rewrite k_rearm by (rewrite ?Hc; done). rewrite Hc.
    cbn [fst snd]. destruct (m_linger (m_req c)); (split; [intros ? _|]); try done.
    + apply out_armed; [done|]. left. split; [done|]. apply fresh_init.
    + intros _. apply delete_insert_eq.
  - rewrite k_promised_app in Hp. destruct Hp as [_ Hp]. rewrite k_events_app.
    rewrite (k_events_silent k _ (offers_silent _ _ _)) in Hp |- *. rewrite k_rearm by (rewrite ?Hc; done).
    rewrite Hc. split; [|done]. intros _ Hr. apply out_armed; [done|]. by right.
  - rewrite k_events_silent by (apply only_app; eauto using offers_silent, unmapped_silent). done.
Qed.

Lemma write_any_runs c w :
  has_reply c ->
  runs (HttpReply.write epollfd c)
    (fun r e => m_sockfd r.2 = m_sockfd c /\
       forall k s, k !! m_sockfd c = Some None -> k_promised k e ->
       (r.1 = true -> outcome k s (m_sockfd c) ((<[m_sockfd c := r.2]> s.1, s.2), None) (k_events k e)) /\
       (r.1 = false -> delete (m_sockfd c) (k_events k e) = delete (m_sockfd c) k))
    (fun h e => h = Blocked) w.
Proof.
  intros Hr. destruct (gather c (m_iv c)) as [l|] eqn:E.
  - eapply runs_mono; [by apply (write_runs epollfd c l)|..]; cbn beta; [|done].
    intros r e Hw. split.
    + destruct Hw; cbn [fst snd]; [by destruct (m_linger (m_req c))|done|done].
    + intros k s Hk Hp. destruct (wrote_outcome _ c l r e k s Hw eq_refl Hk Hp) as [H1 H2]. auto.
  - eapply runs_mono; [by apply write_bad_address|..]; cbn beta; [|done].
    intros r e (-> & a & um & -> & Hu). split; [done|]. intros k s Hk _. split; [done|]. intros _.
    rewrite k_events_silent; [done|]. constructor; [done|]. by eapply unmapped_silent.
Qed.

Lemma land_lor_zero a b c : Z.land a (Z.lor b c) = 0 <-> Z.land a b = 0 /\ Z.land a c = 0.
Proof. rewrite Z.land_lor_distr_r. apply Z.lor_eq_0_iff. Qed.

Lemma web_event_conn fd ev s k w :
  fd <> listenfd -> 0 <= fd < MAX_FD -> m_sockfd (s.1 fd) = fd -> expects (s.1 fd) ev ->
  k !! fd = Some None ->
  runs (web_event listenfd epollfd (fd, ev) s)
    (fun r e => k_promised k e -> outcome k s fd r (k_events k e))
    (fun h e => h = Blocked) w.
Proof.
  intros Hl Hr Hs (Hin & Hout & Hany) Hk. unfold web_event.
  rewrite (proj2 (Z.eqb_neq _ _)) by done.
  assert (Hu : user s.1 fd = Some (s.1 fd)) by (unfold user; by zif).
  eapply runs_or_undef; [exact Hu|]. set (c := s.1 fd) in *.
  assert (Hclose : forall c' w', m_sockfd c' = fd ->
    runs (s ← web_close epollfd fd c' s; mret (s, None (A := Z)))
      (fun r e => exists c2, r = ((<[fd := c2]> s.1, s.2 - 1), None) /\ forall k, k_events k e = delete fd k)
      (fun h e => h = Blocked) w').
  { intros c' w' Hc'. apply runs_bind. eapply runs_mono; [apply web_close_runs; [done|lia]|..]; cbn beta; [|done].
    intros r e (c2 & -> & He) w2. apply runs_ret. exists c2. by rewrite app_nil_r. }
  destruct (negb _) eqn:E1; zbool.
  { eapply runs_mono; [by apply Hclose|..]; cbn beta; [|done].
    intros r e (c2 & -> & He) _. rewrite He. constructor. }
  destruct (negb (Z.land ev EPOLLIN =? 0)) eqn:E2; zbool.
  - apply runs_bind. eapply runs_mono; [by apply read_any_runs, Hin|..]; cbn beta; [|done].
    intros [b c2] e (Hsil & Hf & Hc2) w2. cbn [fst snd] in *. destruct b.
    + apply runs_ret. rewrite app_nil_r, k_events_silent by done. intros _. apply out_pool; [congruence|done].
    + eapply runs_mono; [apply Hclose; congruence|..]; cbn beta; [|done].
      intros r e2 (c3 & -> & He) _. rewrite k_events_app, He, k_events_silent by done. constructor.
  - destruct (negb (Z.land ev EPOLLOUT =? 0)) eqn:E3; zbool.
    + apply runs_bind. eapply runs_mono; [by apply write_any_runs, Hout|..]; cbn beta; [|done].
      rewrite Hs. intros [b c2] e [Hc2 Hw] w2. cbn [fst snd] in *. destruct b; cbn [negb].
      * apply runs_ret. rewrite app_nil_r. intros Hp. by apply (Hw k s Hk Hp).
      * eapply runs_mono; [by apply Hclose|..]; cbn beta; [|done].
        intros r e2 (c3 & -> & He) [Hp _]%k_promised_app. rewrite k_events_app, He.
        destruct (Hw k s Hk Hp) as [_ ->]; [|done]. constructor.
    + exfalso. apply Hany. rewrite !land_lor_zero in *. tauto.
Qed.

(** ** New connections *)

Inductive accepted (k : interest) (s : conns) : conns -> interest -> Prop :=
| acc_none : accepted k s s k
| acc_new fd c : k !! fd = None -> 0 <= fd < MAX_FD -> m_sockfd c = fd -> fresh_conn c ->
    accepted k s (<[fd := c]> s.1, s.2 + 1) (<[fd := Some in_mask]> k).

(** How the handling of an event may stop: in a call, or when [accept] answers
    with a descriptor beyond the table of connections. *)
Definition web_stop (h : halt) (e : list event) : Prop :=
  h = Blocked \/ h = Undefined /\ exists a, (CAccept listenfd, a) ∈ e /\ MAX_FD <= a_ret a.

Lemma open_conn_runs fd c n w :
  runs (open_conn epollfd fd (c, n))
    (fun r e => exists c', r = (c', n + 1) /\ m_sockfd c' = fd /\ fresh_conn c' /\
       exists e1 a e2, e = e1 ++ (epoll_ctl epollfd EPOLL_CTL_ADD fd in_mask, a) :: e2 /\
         only (fun x => silent x = true) e1 /\ only (fun x => silent x = true) e2)
    (fun h e => h = Blocked) w.
Proof.
  unfold open_conn, http_addfd. apply runs_call; [done|done|]. intros a1 w1 x1 _.
  apply runs_bind, runs_call; [done|done|]. intros a2 w2 x2 _.
  apply runs_ret_of; [done|done|]. intros a3 w3 x3 _. apply runs_call; [done|done|]. intros a4 w4 x4 _.
  apply runs_ret. intros w5. apply runs_ret. eexists. split; [done|]. split; [done|].
  split; [apply fresh_init|]. eexists [_], x2, [_; _]. split; [reflexivity|]. split; by repeat constructor.
Qed.

(** A descriptor is added amid calls that do not concern [epoll]. *)
Lemma k_add k e1 fd m ep a e2 :
  k_promised k (e1 ++ (epoll_ctl ep EPOLL_CTL_ADD fd m, a) :: e2) ->
  only (fun x => silent x = true) e1 -> only (fun x => silent x = true) e2 ->
  k_events k (e1 ++ (epoll_ctl ep EPOLL_CTL_ADD fd m, a) :: e2) = <[fd := Some m]> k.
Proof.
  intros [_ Hp]%k_promised_app H1 H2. rewrite k_events_app, (k_events_silent k e1 H1) in *.
  destruct Hp as [[_ [Hp _]] _]. specialize (Hp eq_refl). cbn in Hp.
  change (k_events (k_event k (epoll_ctl ep EPOLL_CTL_ADD fd m, a)) e2 = <[fd := Some m]> k).
  rewrite k_events_silent by done. unfold k_event. cbn [fst snd epoll_ctl String.eqb].
  by rewrite (proj2 (Z.ltb_ge _ _)) by auto.
Qed.

Lemma web_accept_runs s k w :
  runs (web_accept listenfd epollfd s)
    (fun r e => k_promised k e -> accepted k s r (k_events k e)) web_stop w.
Proof.
  destruct s as [u n]. unfold web_accept. apply runs_ret_of; [done|by left|]. intros a w1 x _.
  assert (Hx : k_event k (CAccept listenfd, x) = k) by done.
  destruct (a_ret x <? 0) eqn:E1.
  { apply runs_get_errno, runs_out; [done|]. intros w2. apply runs_ret. intros _. constructor. }
  apply Z.ltb_ge in E1. destruct (MAX_FD <=? n).
  { unfold show_error. apply runs_bind, runs_out; [done|]. intros w2.
    apply runs_call; [done|by left|]. intros a2 w3 y _. apply runs_call; [done|by left|]. intros a3 w4 z _.
    apply runs_ret. intros w5. apply runs_ret. intros [Hf _]. cbn in Hf.
    unfold k_events. cbn [app fold_left k_event fst]. rewrite delete_id by auto. constructor. }
  unfold user. destruct ((0 <=? a_ret x) && (a_ret x <? MAX_FD)) eqn:E2.
  - eapply runs_or_undef; [done|]. apply runs_bind.
    eapply runs_mono; [apply open_conn_runs|..]; cbn beta; [|by intros; left].
    intros [c' n'] e (c2 & [= -> ->] & Hc & Hf & e1 & b & e2 & -> & H1 & H2) w2. apply runs_ret.
    rewrite app_nil_r. intros [Hfree Hp]. cbn in Hfree. rewrite Hx in Hp.
    change (k_events k ((CAccept listenfd, x) :: e1 ++ (epoll_ctl epollfd EPOLL_CTL_ADD (a_ret x) in_mask, b) :: e2))
      with (k_events (k_event k (CAccept listenfd, x)) (e1 ++ (epoll_ctl epollfd EPOLL_CTL_ADD (a_ret x) in_mask, b) :: e2)).
    rewrite Hx, (k_add _ _ _ _ _ _ _ Hp H1 H2). apply acc_new; [auto|lia|done|done].
  - apply runs_none; [done|]. right. split; [done|]. exists x. split; [apply list_elem_of_here|lia].
Qed.

Lemma web_event_listen ev s k w :
  runs (web_event listenfd epollfd (listenfd, ev) s)
    (fun r e => k_promised k e -> r.2 = None /\ accepted k s r.1 (k_events k e)) web_stop w.
Proof.
  unfold web_event. rewrite Z.eqb_refl. apply runs_bind.
  eapply runs_mono; [apply web_accept_runs|..]; cbn beta.
  - intros r e H w2. apply runs_ret. rewrite app_nil_r. auto.
  - auto.
Qed.

Lemma web_poll_runs k w :
  runs (web_poll epollfd)
    (fun r e => k_promised k e ->
       match r with
       | Some evs => k_events k e = fold_left reported_once evs.*1 k /\ NoDup evs.*1 /\ Forall (reports k) evs
       | None => k_events k e = k
       end)
    (fun h e => h = Blocked) w.
Proof.
  unfold web_poll. apply runs_call; [done|done|]. intros a w1 x _. apply runs_get_errno.
  destruct ((a_ret x <? 0) && _) eqn:E.
  - apply runs_out; [done|]. intros w2. apply runs_ret. intros _.
    apply andb_true_iff in E as [E _]. unfold k_events, k_event, web_ready.
    cbn [fold_left fst snd web_wait String.eqb]. cbn. by rewrite E.
  - apply runs_ret. intros [[_ [_ Hp]] _]. split; [done|]. by apply Hp.
Qed.

(** ** [process] in a worker *)

Definition nonneg (k : interest) : Prop := forall fd, is_Some (k !! fd) -> 0 <= fd.

Lemma looked_up_table k name code e sz m :
  looked_up name code e sz m -> nonneg k -> k_promised k e -> k_events k e = k.
Proof.
  destruct 1 as [| | |st fd mm cl]; intros Hk Hp; try done.
  destruct Hp as (_ & (Ho & _) & _). specialize (Ho eq_refl). cbn in Ho.
  unfold k_events. cbn [fold_left k_event fst]. apply delete_id.
  destruct (k !! a_ret fd) eqn:E; [|done]. specialize (Hk (a_ret fd) ltac:(by eexists)).
  rewrite <- Ho, <- E; done.
Qed.

Lemma answered_reply code keep c : answered code keep c -> has_reply c.
Proof.
  unfold has_reply.
  assert (H1 : forall st t f b, prepared c (reply st t f b) -> 0 < m_write_idx c).
  { intros st t f b [_ [-> _]]. unfold reply, status_line. rewrite !length_app.
    change (length (chars "HTTP/1.1 ")) with 9%nat. lia. }
  assert (H2 : forall sz b, prepared_file c (file_headers sz b) -> 0 < m_write_idx c).
  { intros sz b [_ [-> _]]. unfold file_headers, status_line. rewrite !length_app.
    change (length (chars "HTTP/1.1 ")) with 9%nat. lia. }
  destruct code; cbn [answered]; try done; try (by apply H1).
  destruct (m_st_size c =? 0); [by apply H1|by apply H2].
Qed.

(** A worker stops in a call, or by an access out of bounds in the parser. *)
Definition worker_stop (h : halt) (_ : list event) : Prop := h = Blocked \/ h = Undefined.

Definition rearmed (k : interest) (c : http_conn) (n : Z) (r : http_conn * Z) (k' : interest) : Prop :=
  r.2 = n /\ m_sockfd r.1 = m_sockfd c /\
  exists m, armed m r.1 /\ k' = <[m_sockfd c := Some m]> k.

Lemma process_any_runs c n k w :
  fresh_conn c -> is_Some (k !! m_sockfd c) -> nonneg k ->
  runs (process epollfd (c, n))
    (fun r e => k_promised k e -> rearmed k c n r (k_events k e)) worker_stop w.
Proof.
  intros (Hr & Hw & Hf) Hk Hnn. eapply runs_ext; [apply process_eq|]. apply runs_bind.
  eapply runs_mono; [apply runs_conj; [apply makes_parse_request|by apply parse_request_parses]|..]; cbn beta;
    [|intros h e [_ ->]; by right].
  intros [x r] e [Ho [Hr' Hx]] w1. cbn [fst snd] in *. apply silent_outputs in Ho.
  assert (Hpre : forall e2, k_promised k (e ++ e2) -> k_promised k e2 /\ k_events k (e ++ e2) = k_events k e2).
  { intros e2 [_ Hp]%k_promised_app. rewrite k_events_app. by rewrite (k_events_silent k e Ho) in *. }
  set (c1 := with_req r c). assert (Hw1 : written c1 []) by done.
  destruct Hx as [->|[->| ->]]; cbn beta match.
  - apply modfd_runs; [by left|]. intros a w2 y. apply runs_ret. intros [Hp ->]%Hpre.
    split; [done|]. split; [done|]. exists in_mask. split; [by left|].
    change y with (rearm epollfd c EPOLLIN a) in Hp |- *. by rewrite k_rearm.
  - eapply runs_mono; [by apply finish_reply; [|left]|..]; cbn beta; [|by intros; left].
    intros s e2 (Hn & (T1 & _) & Ha & a & ->) [Hp ->]%Hpre. split; [done|]. split; [done|].
    exists out_mask. split; [right; split; [done|by eapply answered_reply]|].
    change (rearm epollfd c1 EPOLLOUT a) with (rearm epollfd c EPOLLOUT a) in Hp |- *. by rewrite k_rearm.
  - destruct (url_string (m_req c1)) as [path|] eqn:Eu.
    + eapply runs_mono; [by apply (complete_runs epollfd c1 n path)|..]; cbn beta; [|by intros; left].
      intros s e2 (Hn & Hs & code & e1 & a & Hl & -> & Ha) [Hp ->]%Hpre. split; [done|]. split; [done|].
      exists out_mask. split; [right; split; [done|by eapply answered_reply]|].
      apply k_promised_app in Hp as [Hp1 Hp2]. rewrite k_events_app.
      rewrite (looked_up_table _ _ _ _ _ _ Hl Hnn Hp1) in Hp2 |- *.
      change (rearm epollfd c1 EPOLLOUT a) with (rearm epollfd c EPOLLOUT a) in Hp2 |- *. by rewrite k_rearm.
    + apply runs_bind. unfold do_request. rewrite Eu. apply runs_none; [done|]. by right.
Qed.

Lemma web_process_runs fd s k w :
  0 <= fd < MAX_FD -> m_sockfd (s.1 fd) = fd -> fresh_conn (s.1 fd) -> is_Some (k !! fd) -> nonneg k ->
  runs (web_process epollfd fd s)
    (fun r e => k_promised k e -> exists c m, r = (<[fd := c]> s.1, s.2) /\ m_sockfd c = fd /\
       armed m c /\ k_events k e = <[fd := Some m]> k) worker_stop w.
Proof.
  intros Hr Hs Hf Hk Hn. unfold web_process.
  assert (Hu : user s.1 fd = Some (s.1 fd)) by (unfold user; by zif).
  eapply runs_or_undef; [exact Hu|]. apply runs_bind.
  eapply runs_mono; [apply (process_any_runs _ _ k); [done|by rewrite Hs|done]|..]; cbn beta; [|done].
  intros [c n] e H w2. apply runs_ret. rewrite app_nil_r. intros Hp. destruct (H Hp) as (H1 & H2 & m & H3 & H4).
  cbn [fst snd] in *. rewrite Hs in *. subst n. by exists c, m.
Qed.

(** ** Preservation *)

Record web_inv (k : interest) (s : web) : Prop := {
  inv_owned : owned k (conns_of s).1 (conns_of s).2 (in_hand s) (lost s);
  inv_events : Forall (fun x => expects ((conns_of s).1 x.1) x.2) (pending s);
  inv_queue : Forall (fun fd => fresh_conn ((conns_of s).1 fd)) (m_workqueue (pool s) ++ running s);
  inv_sem : 0 <= m_queuestat (pool s);
  inv_woken : Z.of_nat (length (m_workqueue (pool s))) =
    m_queuestat (pool s) + Z.of_nat (length (woken s) + posting s);
  inv_length : Z.of_nat (length (m_workqueue (pool s))) <= max_requests + 1;
  inv_listenfd : 0 <= listenfd
}.

Lemma inv_nonneg k s : web_inv k s -> nonneg k.
Proof.
  intros Hi fd [m Hm]. destruct (decide (fd = listenfd)) as [->|Hl]; [by eapply inv_listenfd|].
  by destruct (own_open _ _ _ _ _ (inv_owned _ _ Hi) fd m Hm Hl) as [[? _] _].
Qed.

(** Changing one connection does not concern the others. *)
Lemma Forall_other {A} (P : http_conn -> A -> Prop) (f : A -> Z) (u : Z -> http_conn) fd c l :
  fd ∉ f <$> l -> Forall (fun x => P (u (f x)) x) l -> Forall (fun x => P ((<[fd := c]> u) (f x)) x) l.
Proof.
  intros Hn. rewrite !Forall_forall. intros H x Hx. rewrite fn_lookup_insert_ne; [by apply H|].
  intros ->. apply Hn, list_elem_of_fmap. eauto.
Qed.
Lemma events_other (u : Z -> http_conn) fd c (l : list (Z * Z)) :
  fd ∉ l.*1 -> Forall (fun x => expects (u x.1) x.2) l ->
  Forall (fun x => expects ((<[fd := c]> u) x.1) x.2) l.
Proof. apply (Forall_other (fun c x => expects c x.2) fst). Qed.
Lemma queue_other (u : Z -> http_conn) fd c (l : list Z) :
  fd ∉ l -> Forall (fun x => fresh_conn (u x)) l -> Forall (fun x => fresh_conn ((<[fd := c]> u) x)) l.
Proof. intros Hn. apply (Forall_other (fun c _ => fresh_conn c) id). by rewrite list_fmap_id. Qed.

Lemma pending_cons p ev evs (s : web) :
  main_at s = Handling (ev :: evs) ->
  pending s = (if decide (not_listen ev) then [ev] else []) ++
    pending (Web p (pool s) (Handling evs) (workers s) (lost s)).
Proof.
  intros Hm. unfold pending. rewrite Hm. cbn [main_at]. rewrite filter_cons.
  by destruct (decide _), (decide (not_listen ev)).
Qed.

Lemma hand_queued {A} (x : A) a q r : x :: a ++ q ++ r ≡ₚ a ++ (q ++ [x]) ++ r.
Proof. solve_Permutation. Qed.
Lemma hand_taken {A} (x : A) a q r1 r2 : a ++ (x :: q) ++ r1 ++ r2 ≡ₚ a ++ q ++ r1 ++ x :: r2.
Proof. solve_Permutation. Qed.
Lemma hand_done {A} (x : A) a q r1 r2 : a ++ q ++ r1 ++ x :: r2 ≡ₚ x :: a ++ q ++ r1 ++ r2.
Proof. solve_Permutation. Qed.

Section Preserve.
Context (k : interest) (s : web).
Hypothesis Hinv : web_inv k s.

Lemma poll_preserves w w' e r :
  main_at s = Polling -> web_poll epollfd w = (Ret r, w') -> extends w w' e -> k_promised k e ->
  web_inv (k_events k e) (Web (conns_of s) (pool s)
    (match r with Some evs => Handling evs | None => Broken end) (workers s) (lost s)).
Proof.
  intros Hm Hr He Hp. pose proof (web_poll_runs k w) as H. unfold runs in H. rewrite Hr in H.
  destruct H as (e' & He' & H). rewrite (extends_inj _ _ _ _ He' He) in H. specialize (H Hp).
  destruct Hinv as [H1 H2 H3 H4 H5 H6 H7]. unfold in_hand, pending, posting in *. rewrite Hm in *. cbn in H1, H5.
  destruct r as [evs|]; [|constructor; try done; unfold in_hand, pending, posting; cbn; by rewrite ?H].
  destruct H as (-> & Hd & Hr'). destruct (owned_report _ _ _ _ _ _ H1 Hd Hr') as [Ho Hx].
  constructor; try done. unfold pending. cbn [main_at conns_of].
  apply Forall_forall. intros x [Hx1 Hx2]%list_elem_of_filter. rewrite Forall_forall in Hx. by apply Hx.
Qed.

Lemma listen_preserves ev evs w w' e r :
  main_at s = Handling ((listenfd, ev) :: evs) ->
  web_event listenfd epollfd (listenfd, ev) (conns_of s) w = (Ret r, w') -> extends w w' e ->
  k_promised k e -> web_inv (k_events k e) (after_web_event r evs s).
Proof.
  intros Hm Hr He Hp. pose proof (web_event_listen ev (conns_of s) k w) as H. unfold runs in H.
  rewrite Hr in H. destruct H as (e' & He' & H). rewrite (extends_inj _ _ _ _ He' He) in H.
  destruct (H Hp) as [Hr2 Ha]. unfold after_web_event. rewrite Hr2.
  pose proof (pending_cons r.1 _ _ _ Hm) as Hpd. rewrite decide_False in Hpd by (unfold not_listen; cbn; tauto).
  destruct Hinv as [H1 H2 H3 H4 H5 H6 H7]. unfold posting in H5. rewrite Hm in H5.
  unfold in_hand in H1. rewrite Hpd in H1, H2.
  destruct Ha as [|fd c Hk Hfd Hc Hf]; [by constructor|].
  assert (Hh : fd ∉ (pending (Web r.1 (pool s) (Handling evs) (workers s) (lost s))).*1 ++
                    m_workqueue (pool s) ++ running s)
    by (intros [? _]%(own_hand _ _ _ _ _ H1); congruence).
  apply not_elem_of_app in Hh as [Hh1 Hh2].
  constructor; try done.
  - by apply owned_accept.
  - by apply events_other.
  - by apply queue_other.
Qed.

Lemma conn_preserves fd ev evs w w' e r :
  fd <> listenfd -> main_at s = Handling ((fd, ev) :: evs) ->
  web_event listenfd epollfd (fd, ev) (conns_of s) w = (Ret r, w') -> extends w w' e ->
  k_promised k e -> web_inv (k_events k e) (after_web_event r evs s).
Proof.
  intros Hl Hm Hr He Hp.
  pose proof (pending_cons r.1 _ _ _ Hm) as Hpd. rewrite decide_True in Hpd by done.
  destruct Hinv as [H1 H2 H3 H4 H5 H6 H7]. unfold posting in H5. rewrite Hm in H5.
  set (s' := Web r.1 (pool s) (Handling evs) (workers s) (lost s)) in *.
  unfold in_hand in H1. rewrite Hpd in H1, H2. cbn [app fmap list_fmap fst] in H1, H2.
  apply Forall_cons in H2 as [Hx H2]. cbn [fst snd] in Hx.
  destruct (owned_head _ _ _ _ _ _ H1) as (Hk & Hg & Hn & _ & Hfd & Hs).
  pose proof (web_event_conn fd ev (conns_of s) k w Hl Hfd Hs Hx Hk) as H. unfold runs in H.
  rewrite Hr in H. destruct H as (e' & He' & H). rewrite (extends_inj _ _ _ _ He' He) in H.
  specialize (H Hp). apply not_elem_of_app in Hn as [Hn1 Hn2]. unfold after_web_event.
  destruct H as [c|c m Hc Hmc|c Hc Hf]; cbn [fst snd].
  - constructor; try done; [by apply owned_close|by apply events_other|by apply queue_other].
  - constructor; try done; [by apply owned_rearm|by apply events_other|by apply queue_other].
  - assert (Ho : owned k (<[fd := c]> (conns_of s).1) (conns_of s).2
                   (fd :: (pending s').*1 ++ m_workqueue (pool s) ++ running s) (lost s))
      by (by apply owned_keep).
    unfold append. destruct (max_requests <? _) eqn:E.
    + constructor; try done; [by apply owned_lose|by apply events_other|by apply queue_other].
    + constructor; cbn [conns_of pool m_workqueue m_queuestat lost]; try done.
      * eapply owned_perm; [apply hand_queued|exact Ho].
      * by apply events_other.
      * rewrite <- app_assoc. apply Forall_app. apply not_elem_of_app in Hn2 as [Hq1 Hq2].
        apply Forall_app in H3 as [H3 H3']. split; [by apply queue_other|].
        constructor; [cbn [fst conns_of]; by rewrite fn_lookup_insert|by apply queue_other].
      * unfold posting, woken in *. cbn [main_at workers]. rewrite length_app. cbn [length]. lia.
      * rewrite length_app. cbn [length]. lia.
Qed.

(** The list of the workers around one of them. *)
Lemma worker_split i x (l : list worker) :
  l !! i = Some x -> exists l1 l2, l = l1 ++ x :: l2 /\ forall y, <[i := y]> l = l1 ++ y :: l2.
Proof.
  intros H. exists (take i l), (drop (S i) l). split; [by rewrite take_drop_middle|].
  intros y. rewrite insert_take_drop; [done|]. by apply lookup_lt_is_Some; eexists.
Qed.

Lemma wait_preserves i p :
  workers s !! i = Some AtWait -> run_wait (pool s) = Some p ->
  web_inv k (Web (conns_of s) p (main_at s) (<[i := AtLock]> (workers s)) (lost s)).
Proof.
  intros Hi Hp. destruct (worker_split _ _ _ Hi) as (l1 & l2 & Hw & Hup). rewrite Hup.
  unfold run_wait in Hp. destruct (0 <? m_queuestat (pool s)) eqn:E; simplify_eq.
  destruct Hinv as [H1 H2 H3 H4 H5 H6 H7]. unfold in_hand, running, woken in *. rewrite Hw in *.
  rewrite ?omap_app, ?filter_app, ?length_app in *. cbn [omap list_omap] in *.
  constructor; try done; cbn [pool workers m_queuestat m_workqueue]; unfold in_hand, running, woken;
    cbn [pool workers m_queuestat m_workqueue]; rewrite ?omap_app, ?filter_app, ?length_app; try done; try lia.
  rewrite filter_cons_True by done. rewrite filter_cons_False in H5 by done. cbn [length].
  unfold posting in *. cbn [main_at]. lia.
Qed.

(** A woken worker finds a request. *)
Lemma woken_finds i : workers s !! i = Some AtLock -> m_workqueue (pool s) <> [].
Proof.
  intros Hi Hq. pose proof (inv_woken _ _ Hinv) as H. pose proof (inv_sem _ _ Hinv) as H'.
  rewrite Hq in H. cbn [length] in H.
  assert (AtLock ∈ woken s) as Hin by (apply list_elem_of_filter; split; [done|by eapply list_elem_of_lookup_2]).
  destruct (woken s); [by apply not_elem_of_nil in Hin|]. cbn [length] in H. lia.
Qed.

Lemma take_preserves i :
  workers s !! i = Some AtLock ->
  web_inv k (Web (conns_of s) (run_take (pool s)).2 (main_at s)
    (<[i := (run_take (pool s)).1]> (workers s)) (lost s)).
Proof.
  intros Hi. pose proof (woken_finds i Hi) as Hq. destruct (worker_split _ _ _ Hi) as (l1 & l2 & Hw & Hup).
  rewrite Hup. unfold run_take. destruct (m_workqueue (pool s)) as [|fd q] eqn:Eq; [done|].
  destruct Hinv as [H1 H2 H3 H4 H5 H6 H7]. unfold in_hand, running, woken in *. rewrite Hw, Eq in *.
  rewrite ?omap_app, ?filter_app, ?length_app in *. cbn [omap list_omap length fst snd] in *.
  constructor; try done; cbn [pool workers m_queuestat m_workqueue]; unfold in_hand, running, woken;
    cbn [pool workers m_queuestat m_workqueue fst snd]; rewrite ?omap_app, ?filter_app, ?length_app; try lia.
  - eapply owned_perm; [|exact H1]. apply hand_taken.
  - eapply Permutation_Forall; [apply (hand_taken fd [] q)|exact H3].
  - rewrite filter_cons_False by done. rewrite filter_cons_True in H5 by done. cbn [length] in H5.
    unfold posting in *. cbn [main_at]. lia.
Qed.

Lemma process_preserves i fd w w' e c :
  workers s !! i = Some (HasRequest fd) -> web_process epollfd fd (conns_of s) w = (Ret c, w') ->
  extends w w' e -> k_promised k e ->
  web_inv (k_events k e) (Web c (pool s) (main_at s) (<[i := AtWait]> (workers s)) (lost s)).
Proof.
  intros Hi Hr He Hp. pose proof (inv_nonneg k s Hinv) as Hnn.
  destruct (worker_split _ _ _ Hi) as (l1 & l2 & Hw & Hup). rewrite Hup.
  destruct Hinv as [H1 H2 H3 H4 H5 H6 H7]. unfold in_hand, running, woken in *. rewrite Hw in *.
  rewrite ?omap_app, ?filter_app, ?length_app in *. cbn [omap list_omap] in *.
  apply (owned_perm _ _ _ _ _ _ (hand_done _ _ _ _ _)) in H1.
  destruct (owned_head _ _ _ _ _ _ H1) as (Hk & Hg & Hn & _ & Hfd & Hs).
  rewrite !Forall_app, Forall_cons in H3. destruct H3 as (Hf1 & Hf2 & Hf & Hf3).
  pose proof (web_process_runs fd (conns_of s) k w Hfd Hs Hf ltac:(by eexists) Hnn) as H. unfold runs in H.
  rewrite Hr in H. destruct H as (e' & He' & H). rewrite (extends_inj _ _ _ _ He' He) in H.
  destruct (H Hp) as (c' & m & -> & Hc' & Hm & ->).
  apply not_elem_of_app in Hn as [Hn1 [Hn2 [Hn3 Hn4]%not_elem_of_app]%not_elem_of_app].
  constructor; try done; cbn [pool workers conns_of fst snd]; unfold in_hand, running, woken;
    cbn [pool workers conns_of fst snd]; rewrite ?omap_app, ?filter_app, ?length_app; cbn [omap list_omap].
  - by apply owned_rearm.
  - by apply events_other.
  - rewrite !Forall_app. split_and!; by apply queue_other.
  - rewrite filter_cons_False by done. rewrite filter_cons_False in H5 by done. done.
Qed.

Lemma step_preserves e s' : web_step s e s' -> k_promised k e -> web_inv (k_events k e) s'.
Proof.
  intros Hs Hp. destruct Hs as [w w' e r Hm Hr He|Hm|[fd ev] evs w w' e r Hm Hr He|evs Hm|i p _ Hi Hw|i _ Hi|i fd w w' e c _ Hi Hr He].
  - by eapply poll_preserves.
  - destruct Hinv as [H1 H2 H3 H4 H5 H6 H7]. unfold in_hand, pending, posting in *. rewrite Hm in *.
    by constructor.
  - destruct (decide (fd = listenfd)) as [->|Hl]; [by eapply listen_preserves|by eapply conn_preserves].
  - destruct Hinv as [H1 H2 H3 H4 H5 H6 H7]. unfold in_hand, pending, posting, woken in *. rewrite Hm in *.
    constructor; try done; unfold posting, woken; cbn [pool post m_queuestat m_workqueue main_at workers]; lia.
  - by eapply wait_preserves.
  - by apply take_preserves.
  - by eapply process_preserves.
Qed.
End Preserve.

End Server.

(** ** The start *)

Lemma runs_assert {B} (b : bool) (f : unit -> M B) Q (H : halt -> list event -> Prop) w :
  (b = true -> forall w', runs (f ()) Q H w') -> H (Killed SIGABRT) [] -> runs (assert b ≫= f) Q H w.
Proof.
  intros Hf Hh. unfold assert. destruct b; [apply runs_bind, runs_ret; intros w'|by apply runs_bind, runs_halted].
  eapply runs_mono; [by apply Hf|done|done].
Qed.

Lemma makes_start_threads todo i : makes (fun c => silent c = true) (start_threads todo i).
Proof.
  revert i. induction todo as [|todo IH]; intros i; cbn [start_threads]; [apply makes_ret|].
  unfold printf, ret_of. repeat first [apply IH|makes_step].
Qed.

Definition started (r : Z + Z * Z) (e : list event) : Prop :=
  match r with
  | inr (l, ep) => 0 <= l /\ exists e1 a e2, e = e1 ++ (epoll_ctl ep EPOLL_CTL_ADD l listen_mask, a) :: e2 /\
      only (fun x => silent x = true) e1 /\ only (fun x => silent x = true) e2
  | inl _ => True
  end.

Lemma web_setup_runs argv w : runs (web_setup argv) started (fun _ _ => True) w.
Proof.
  unfold web_setup. destruct argv as [|a0 [|ip [|port argv]]];
    try (apply runs_out; [done|]; intros w1; by apply runs_ret).
  unfold web_addsig. apply runs_bind, runs_ret_of; [done|done|]. intros r1 w1 x1 _.
  eapply runs_ext; [instantiate (1 := assert (negb (a_ret x1 =? -1)) ≫= mret);
    unfold mbind, M_bind; by destruct (assert _ w1) as [[[]|h] w']|].
  apply runs_assert; [|done]. intros _ w2. apply runs_ret. intros w3.
  apply runs_bind. eapply runs_mono; [apply makes_start_threads|..]; cbn beta; [|done].
  intros pool e0 H0 w4. destruct (negb pool); [by apply runs_ret|].
  apply runs_ret_of; [done|done|]. intros r2 w5 x2 _. apply runs_assert; [|done]. intros Hl w6.
  apply runs_call; [done|done|]. intros r3 w7 x3 _. apply runs_call; [done|done|]. intros r4 w8 x4 _.
  apply runs_ret_of; [done|done|]. intros r5 w9 x5 _. apply runs_assert; [|done]. intros _ w10.
  apply runs_ret_of; [done|done|]. intros r6 w11 x6 _. apply runs_assert; [|done]. intros _ w12.
  apply runs_ret_of; [done|done|]. intros r7 w13 x7 _. apply runs_assert; [|done]. intros _ w14.
  unfold http_addfd. apply runs_bind, runs_call; [done|done|]. intros r8 w15 x8 _.
  apply runs_ret_of; [done|done|]. intros r9 w16 x9 _. apply runs_call; [done|done|]. intros r10 w17 x10 _.
  apply runs_ret. intros w18. apply runs_ret. split; [lia|]. cbn [app].
  eexists (_ :: e0 ++ [_; _; _; _; _; _]), x8, [_; _]. cbn [app]. rewrite <- app_assoc. split; [reflexivity|].
  split; [|by repeat constructor]. constructor; [done|]. apply Forall_app. split; [done|]. by repeat constructor.
Qed.

Lemma start_inv listenfd argv u w w' e ep :
  web_setup argv w = (Ret (inr (listenfd, ep)), w') -> extends w w' e -> k_promised ∅ e ->
  web_inv listenfd (k_events ∅ e) (Web (u, 0) (Pool [] 0) Polling (replicate thread_number AtWait) ∅).
Proof.
  intros Hr He Hp. pose proof (web_setup_runs argv w) as H. unfold runs in H. rewrite Hr in H.
  destruct H as (e' & He' & H). rewrite (extends_inj _ _ _ _ He' He) in H. clear He' e'.
  destruct H as (Hl & e1 & a & e2 & -> & H1 & H2). rewrite (k_add _ _ _ _ _ _ _ Hp H1 H2).
  constructor; try done; cbn [conns_of fst snd pool].
  constructor.
  - apply lookup_insert_eq.
  - intros fd m Hm Hn. by rewrite lookup_insert_ne in Hm.
  - intros fd m Hm Hn. by rewrite lookup_insert_ne in Hm.
  - constructor.
  - intros fd. split; [by intros ?%not_elem_of_nil|]. intros [[[? ?]|[? ?]]%lookup_insert_Some _]; done.
  - intros fd H. by apply not_elem_of_empty in H.
  - unfold open_conns. rewrite dom_insert_L, dom_empty_L, union_empty_r_L.
    replace ({[listenfd]} ∖ {[listenfd]} : gset Z) with (∅ : gset Z) by set_solver. done.
Qed.

(** ** The theorem *)

Lemma reach_inv listenfd epollfd k s : reach listenfd epollfd k s -> web_inv listenfd k s.
Proof.
  induction 1 as [argv u w w' e Hr He Hp|k s e s' _ IH Hs Hp].
  - by eapply start_inv.
  - by eapply step_preserves.
Qed.

(** What the server guarantees in a state, with the kernel's table [k]. *)
Record safe (listenfd epollfd : Z) (k : gmap Z (option Z)) (s : web) : Prop := {
  (* a connection is in the hands of one thread at most, and then disabled *)
  safe_once : NoDup (in_hand listenfd s);
  safe_disabled : forall fd, fd ∈ in_hand listenfd s -> k !! fd = Some None;
  (* an open connection waits for the event that its state needs, or is in
     hand, or [append] has refused it *)
  safe_all : forall fd, fd ∈ open_conns listenfd k ->
    (exists m, k !! fd = Some (Some m) /\ armed m ((conns_of s).1 fd)) \/
    fd ∈ in_hand listenfd s \/ fd ∈ lost s;
  (* the counter counts the open connections *)
  safe_count : (conns_of s).2 = Z.of_nat (size (open_conns listenfd k));
  (* a worker that has passed the semaphore finds a request *)
  safe_woken : AtLock ∈ workers s -> m_workqueue (pool s) <> [];
  safe_queue : Z.of_nat (length (m_workqueue (pool s))) <= max_requests + 1;
  (* the main thread and the workers stop only where they may *)
  safe_main : forall ev evs w, main_at s = Handling (ev :: evs) ->
    runs (web_event listenfd epollfd ev (conns_of s)) (fun _ _ => True) (web_stop listenfd) w;
  safe_worker : forall fd w, HasRequest fd ∈ workers s ->
    runs (web_process epollfd fd (conns_of s)) (fun _ _ => True) worker_stop w
}.

Lemma main_runs listenfd epollfd k s ev evs w :
  web_inv listenfd k s -> main_at s = Handling (ev :: evs) ->
  runs (web_event listenfd epollfd ev (conns_of s)) (fun _ _ => True) (web_stop listenfd) w.
Proof.
  intros Hi Hm. destruct ev as [fd ev]. destruct (decide (fd = listenfd)) as [->|Hl].
  - by eapply runs_mono; [apply (web_event_listen _ _ ev _ k)|done|].
  - pose proof (pending_cons listenfd (conns_of s) _ _ _ Hm) as Hpd. rewrite decide_True in Hpd by done.
    pose proof (inv_events _ _ _ Hi) as Hx. pose proof (inv_owned _ _ _ Hi) as Ho.
    unfold in_hand in Ho. rewrite Hpd in Ho, Hx. cbn [app fmap list_fmap fst] in Ho, Hx.
    apply Forall_cons in Hx as [Hx _]. destruct (owned_head _ _ _ _ _ _ _ Ho) as (Hk & _ & _ & _ & Hfd & Hs).
    eapply runs_mono; [by apply (web_event_conn listenfd epollfd fd ev _ k)|done|]. intros h e ->. by left.
Qed.

Lemma worker_runs listenfd epollfd k s fd w :
  web_inv listenfd k s -> HasRequest fd ∈ workers s ->
  runs (web_process epollfd fd (conns_of s)) (fun _ _ => True) worker_stop w.
Proof.
  intros Hi Hw. assert (Hr : fd ∈ running s) by (apply list_elem_of_omap; by exists (HasRequest fd)).
  assert (Hh : fd ∈ in_hand listenfd s) by (unfold in_hand; rewrite !elem_of_app; tauto).
  pose proof (inv_queue _ _ _ Hi) as Hq. rewrite Forall_forall in Hq.
  pose proof (inv_owned _ _ _ Hi) as Ho. pose proof (proj1 (own_hand _ _ _ _ _ _ Ho fd) Hh) as [Hk _].
  assert (Hl : fd <> listenfd) by (intros ->; pose proof (own_listen _ _ _ _ _ _ Ho); congruence).
  destruct (own_open _ _ _ _ _ _ Ho fd None Hk Hl) as [Hfd Hs].
  eapply runs_mono; [apply (web_process_runs epollfd fd _ k); [done|done| |by eexists|by eapply inv_nonneg]|done|done].
  apply Hq, elem_of_app. by right.
Qed.

(** C30: The web server with its pool of threads, for every interleaving of the
    main thread and the workers and every behaviour of clients and kernel that
    keeps the promises of [epoll]: a connection is never in the hands of two
    threads, nor reported again while one has it; an open connection waits for
    the event that its state needs (input for a request, output for a reply),
    is being handled, or was refused by a full queue, and none is forgotten
    otherwise; [m_user_count] counts the open connections; a worker let
    through by the semaphore finds a request; the queue holds at most 10001.
    The main thread stops only in a call, or when [accept] answers with a
    descriptor beyond the table; a worker only in a call or by an access out
    of bounds in the parser. *)
Theorem web_server_safe listenfd epollfd k s :
  reach listenfd epollfd k s -> safe listenfd epollfd k s.
Proof.
  intros Hr. apply reach_inv in Hr as Hi. pose proof (inv_owned _ _ _ Hi) as Ho.
  constructor.
  - apply (own_nodup _ _ _ _ _ _ Ho).
  - intros fd Hh. by apply (own_hand _ _ _ _ _ _ Ho) in Hh as [? _].
  - intros fd Hf. unfold open_conns in Hf. apply elem_of_difference in Hf as [[x Hx]%elem_of_dom Hn].
    rewrite elem_of_singleton in Hn.
    destruct x as [m|]; [left; exists m; split; [done|by eapply (own_armed _ _ _ _ _ _ Ho)]|right].
    destruct (decide (fd ∈ lost s)); [by right|left]. by apply (own_hand _ _ _ _ _ _ Ho).
  - apply (own_count _ _ _ _ _ _ Ho).
  - intros [i Hw]%list_elem_of_lookup. by eapply woken_finds.
  - apply (inv_length _ _ _ Hi).
  - intros ev evs w Hm. by eapply main_runs.
  - intros fd w Hw. by eapply worker_runs.
Qed.

(** A run: the server starts, a client connects on descriptor 7. *)
Definition world_of (l : list answer) : world := World l [] 0 0 (fun _ => []).
Definition setup_world : world :=
  world_of (ok 0 :: replicate 16 (ok 0) ++
    [ok 3; ok 0; Ans 1 0 [127; 0; 0; 1] []; ok 0; ok 0; ok 4; ok 0; ok 0; ok 0]).
Definition poll_world : world := world_of [Ans 1 0 [3; 1] []].
Definition accept_world : world := world_of [ok 7; ok 0; ok 0; ok 0; ok 0].
Definition web_argv : list (list Z) := [chars "web"; chars "127.0.0.1"; chars "80"].
Definition no_conns : Z -> http_conn := fun _ => conn_with [].

Lemma run_eq {A} (m : M A) w x : (m w).1 = Ret x -> m w = (Ret x, (m w).2).
Proof. intros <-. by destruct (m w). Qed.

Lemma web_server_safe_witness :
  exists k s, reach 3 4 k s /\ main_at s = Handling [] /\ (conns_of s).2 = 1 /\
    dom k = ({[3; 7]} : gset Z) /\ safe 3 4 k s.
Proof.
  set (w1 := (web_setup web_argv setup_world).2).
  assert (R1 : reach 3 4 (k_events ∅ (trace w1))
                 (Web (no_conns, 0) (Pool [] 0) Polling (replicate thread_number AtWait) ∅)).
  { eapply (reach_start 3 4 web_argv no_conns setup_world w1 (trace w1)).
    - apply (run_eq (web_setup web_argv) setup_world (inr (3, 4))). vm_compute. reflexivity.
    - vm_compute. repeat split.
    - apply (bool_decide_unpack _). vm_compute. exact I. }
  set (w2 := (web_poll 4 poll_world).2).
  pose proof (step_poll 3 4 _ poll_world w2 (trace w2) (Some [(3, 1)])
    (eq_refl : main_at (Web (no_conns, 0) (Pool [] 0) Polling (replicate thread_number AtWait) ∅) = _)) as S2.
  assert (R2 := reach_step 3 4 _ _ _ _ R1 (S2 (run_eq (web_poll 4) poll_world (Some [(3, 1)]) ltac:(vm_compute; reflexivity))
    ltac:(vm_compute; repeat split)) ltac:(apply (bool_decide_unpack _); vm_compute; exact I)).
  cbn [conns_of pool workers lost] in R2. clear S2.
  set (m3 := web_event 3 4 (3, 1) (no_conns, 0)).
  set (w3 := (m3 accept_world).2).
  set (r3 := match (m3 accept_world).1 with Ret r => r | _ => ((no_conns, 0), None) end).
  pose proof (step_event 3 4 _ (3, 1) [] accept_world w3 (trace w3) r3
    (eq_refl : main_at (Web (no_conns, 0) (Pool [] 0) (Handling [(3, 1)]) (replicate thread_number AtWait) ∅) = _)) as S3.
  assert (R3 := reach_step 3 4 _ _ _ _ R2 (S3 (run_eq m3 accept_world r3 ltac:(vm_compute; reflexivity))
    ltac:(vm_compute; repeat split)) ltac:(apply (bool_decide_unpack _); vm_compute; exact I)).
  eexists _, _. split; [exact R3|]. split; [vm_compute; reflexivity|].
  split; [vm_compute; reflexivity|]. split; [vm_compute; reflexivity|].
  exact (web_server_safe 3 4 _ _ R3).
Defined.
