(* ===== verification/Udp.v ===== *)
(** * The UDP clients: lib/dg_cli.c, udpcliserv/, advio/dgclitimeo*.c, bcast/ and their main functions

    Every client reads lines and sends each as a datagram; they differ in how
    they wait for the answer, in how long, and in what they show of it.  The
    address of the sender of a datagram is what [recvfrom] stores through its
    fifth argument: the second list of bytes of the answer. *)

From S2P Require Import Prelude InetPton InetNtop InetRound Unix ErrorLib Wrap ReadWrite TcpEcho TcpCli SockAddr SockOpt.

(** ** What the clients share *)

Definition while_fgets (round : list Z -> M unit) : M unit :=
  loop (fun _ : unit =>
    l ← Fgets MAXLINE;
    match l with
    | None => mret (inr ())
    | Some sendline => round sendline ;; mret (inl ())
    end) ().

(** The address stored by [recvfrom], and the [struct sockaddr_in] that it is
    on a socket of that family: family in the order of the host, port,
    address and eight bytes of padding. *)
Definition sender (a : answer) : list Z := map u8 (a_wdata a).
Definition sin_of (l : list Z) : option sockaddr :=
  if bool_decide (length l = 16%nat /\ take 2 l = [AF_INET; 0])
  then Some (SaIn (take 2 (drop 2 l)) (take 4 (drop 4 l))) else None.
Definition sizeof_sockaddr_in : Z := 16.
Definition sockaddr_len (l : list Z) : Z := Z.of_nat (length l).

Definition stdout (text : list Z) : M unit := output (CStdout text).
Definition stderr (text : list Z) : M unit := output (CStderr text).
Definition newline : list Z := [10].

(** ** lib/dg_cli.c *)

Definition dg_cli (sockfd : Z) (servaddr : list Z) : M unit :=
  while_fgets (fun sendline =>
    Sendto sockfd (c_string sendline) servaddr ;;
    a ← Recvfrom sockfd MAXLINE 0;
    Fputs (c_string (a_data a))).

(** ** udpcliserv/dgcliaddr.c: replies from elsewhere are not shown *)

Definition ignored (from : list Z) : list Z :=
  chars "reply from " ++ from ++ chars " (ignored)" ++ newline.

Definition dgcliaddr_reply (servaddr : list Z) (a : answer) : M unit :=
  if bool_decide (sender a = servaddr) then Fputs (c_string (a_data a))
  else sa ← or_undef (sin_of (sender a));
       from ← Sock_ntop sa (sockaddr_len (sender a));
       stdout (ignored from).
Definition dgcliaddr (sockfd : Z) (servaddr : list Z) : M unit :=
  Malloc (sockaddr_len servaddr) ;;
  while_fgets (fun sendline =>
    Sendto sockfd (c_string sendline) servaddr ;;
    a ← Recvfrom sockfd MAXLINE 0;
    dgcliaddr_reply servaddr a).

(** ** udpcliserv/dgcliinetaddr.c: every reply with its sender *)

(** [htons(replyaddr->sin_port)] swaps the bytes on the hosts where the
    family is stored low byte first. *)
Definition received_from (sa : sockaddr) : list Z :=
  chars "received reply from " ++ fmt_quad (addr_of sa) ++ chars ", port " ++ fmt_d (port_of sa) ++ newline.
Definition dgcliinetaddr (sockfd : Z) (servaddr : list Z) : M unit :=
  Malloc (sockaddr_len servaddr) ;;
  while_fgets (fun sendline =>
    Sendto sockfd (c_string sendline) servaddr ;;
    a ← Recvfrom sockfd MAXLINE 0;
    sa ← or_undef (sin_of (sender a));
    stdout (received_from sa) ;;
    Fputs (c_string (a_data a))).

(** ** udpcliserv/dgcliconnect.c: the kernel filters by sender *)

Definition dgcliconnect (sockfd : Z) (servaddr : list Z) : M unit :=
  Connect sockfd servaddr ;;
  while_fgets (fun sendline =>
    Write sockfd (c_string sendline) ;;
    a ← Read sockfd MAXLINE;
    Fputs (c_string (a_data a))).

(** ** advio/dgclitimeo.c, dgclitimeo1.c, dgclitimeo2.c and dgclitimeo3.c: five seconds for each reply *)

Definition socket_timeout : M unit := stderr (chars "socket timeout" ++ newline).

Definition dgclitimeo (sockfd : Z) (servaddr : list Z) : M unit :=
  while_fgets (fun sendline =>
    Sendto sockfd (c_string sendline) servaddr ;;
    n ← Readable_timeo sockfd 5;
    if n =? 0 then socket_timeout
    else a ← Recvfrom sockfd MAXLINE 0; Fputs (c_string (a_data a))).

Definition dgclitimeo1 (sockfd : Z) (servaddr : list Z) : M unit :=
  while_fgets (fun sendline =>
    Sendto sockfd (c_string sendline) servaddr ;;
    n ← Readable_timeo sockfd 5;
    if n =? 0 then socket_timeout
    else a ← Recvfrom sockfd MAXLINE 0; Fputs (c_string (a_data a))).

(** [recvfrom] itself: its failure with [errno] equal to [quiet] is a timeout. *)
Definition recvfrom_or (quiet sockfd : Z) (timeout : M unit) (k : answer -> M unit) : M unit :=
  a ← kernel (CRecvfrom sockfd MAXLINE 0);
  if a_ret a <? 0 then
    err ← get_errno;
    if err =? quiet then timeout else err_sys (chars "recvfrom error")
  else k a.

Definition SO_RCVTIMEO : Z := 20.
(** A [struct timeval] of 64-bit fields, low byte first. *)
Definition timeval_bytes (sec usec : Z) : list Z := le_bytes 8 sec ++ le_bytes 8 usec.

Definition dgclitimeo2 (sockfd : Z) (servaddr : list Z) : M unit :=
  Setsockopt sockfd SOL_SOCKET SO_RCVTIMEO (timeval_bytes 5 0) ;;
  while_fgets (fun sendline =>
    Sendto sockfd (c_string sendline) servaddr ;;
    recvfrom_or EWOULDBLOCK sockfd socket_timeout (fun a => Fputs (c_string (a_data a)))).

(** The handler of SIGALRM only interrupts [recvfrom]. *)
Definition sig_alrm : Z := 1.
Definition dgclitimeo3 (sockfd : Z) (servaddr : list Z) : M unit :=
  Signal SIGALRM sig_alrm ;;
  while_fgets (fun sendline =>
    Sendto sockfd (c_string sendline) servaddr ;;
    kernel (CAlarm 5) ;;
    recvfrom_or EINTR sockfd socket_timeout (fun a =>
      kernel (CAlarm 0) ;; Fputs (c_string (a_data a)))).

(** ** bcast/dgclibcast1.c to dgclibcast6.c: all the replies of some seconds *)

Definition SO_BROADCAST : Z := 6.
Definition SIG_BLOCK : Z := 0.
Definition SIG_UNBLOCK : Z := 1.
Definition recvfrom_alarm : Z := 1.
(** The objects [sigset_alrm] and [sigset_empty]. *)
Definition sigset_alrm : Z := 1.
Definition sigset_empty : Z := 2.

Definition bcast_setup (sockfd : Z) (servaddr : list Z) : M unit :=
  Malloc (sockaddr_len servaddr) ;;
  Setsockopt sockfd SOL_SOCKET SO_BROADCAST [1; 0; 0; 0].

Definition from_text (from text : list Z) : list Z := chars "from " ++ from ++ chars ": " ++ text.
Definition show_reply (a : answer) : M unit :=
  sa ← or_undef (sin_of (sender a));
  from ← Sock_ntop_host sa (sockaddr_len (sender a));
  stdout (from_text from (c_string (a_data a))).

Definition dgclibcast1 (sockfd : Z) (servaddr : list Z) : M unit :=
  bcast_setup sockfd servaddr ;;
  Signal SIGALRM recvfrom_alarm ;;
  while_fgets (fun sendline =>
    Sendto sockfd (c_string sendline) servaddr ;;
    kernel (CAlarm 5) ;;
    loop (fun _ : unit =>
      a ← kernel (CRecvfrom sockfd MAXLINE 0);
      if a_ret a <? 0 then
        err ← get_errno;
        if err =? EINTR then mret (inr ()) else err_sys (chars "recvfrom error")
      else show_reply a ;; mret (inl ())) ()).

Definition dgclibcast2 (sockfd : Z) (servaddr : list Z) : M unit :=
  bcast_setup sockfd servaddr ;;
  Signal SIGALRM recvfrom_alarm ;;
  while_fgets (fun sendline =>
    Sendto sockfd (c_string sendline) servaddr ;;
    kernel (CAlarm 1) ;;
    loop (fun _ : unit =>
      a ← kernel (CRecvfrom sockfd MAXLINE 0);
      if a_ret a =? -1 then
        err ← get_errno;
        if err =? EINTR then mret (inr ()) else err_sys (chars "recvfrom error")
      else kernel (libc "sleep" [1] []) ;; show_reply a ;; mret (inl ())) ()).

(** The alarm is let in only around [recvfrom]; [Sigprocmask] leaves [errno]
    alone when it succeeds. *)
Definition dgclibcast3 (sockfd : Z) (servaddr : list Z) : M unit :=
  bcast_setup sockfd servaddr ;;
  Sigemptyset sigset_alrm ;;
  Sigaddset sigset_alrm SIGALRM ;;
  Signal SIGALRM recvfrom_alarm ;;
  while_fgets (fun sendline =>
    Sendto sockfd (c_string sendline) servaddr ;;
    kernel (CAlarm 5) ;;
    loop (fun _ : unit =>
      Sigprocmask SIG_UNBLOCK sigset_alrm NULL ;;
      a ← kernel (CRecvfrom sockfd MAXLINE 0);
      Sigprocmask SIG_BLOCK sigset_alrm NULL ;;
      if a_ret a <? 0 then
        err ← get_errno;
        if err =? EINTR then mret (inr ()) else err_sys (chars "recvfrom error")
      else show_reply a ;; mret (inl ())) ()).

Definition dgclibcast4 (sockfd : Z) (servaddr : list Z) : M unit :=
  bcast_setup sockfd servaddr ;;
  Sigemptyset sigset_empty ;;
  Sigemptyset sigset_alrm ;;
  Sigaddset sigset_alrm SIGALRM ;;
  Signal SIGALRM recvfrom_alarm ;;
  while_fgets (fun sendline =>
    Sendto sockfd (c_string sendline) servaddr ;;
    Sigprocmask SIG_BLOCK sigset_alrm NULL ;;
    kernel (CAlarm 5) ;;
    loop (fun _ : unit =>
      rset ← fd_set sockfd ∅;
      p ← kernel (libc "pselect" [sockfd + 1; sigset_empty] (elements rset));
      if a_ret p <? 0 then
        err ← get_errno;
        if err =? EINTR then mret (inr ()) else err_sys (chars "pselect error")
      else if negb (a_ret p =? 1) then
        err_sys (chars "pselect error: returned " ++ fmt_d (a_ret p))
      else
        a ← Recvfrom sockfd MAXLINE 0;
        show_reply a ;; mret (inl ())) ()).

(** The handler jumps out of the loop: a [recvfrom] cut short by the alarm is
    its end; [Recvfrom] has not yet looked at the result. *)
Definition dgclibcast5 (sockfd : Z) (servaddr : list Z) : M unit :=
  bcast_setup sockfd servaddr ;;
  Signal SIGALRM recvfrom_alarm ;;
  while_fgets (fun sendline =>
    Sendto sockfd (c_string sendline) servaddr ;;
    kernel (CAlarm 5) ;;
    loop (fun _ : unit =>
      a ← kernel (CRecvfrom sockfd MAXLINE 0);
      if a_ret a <? 0 then
        err ← get_errno;
        if err =? EINTR then mret (inr ()) else err_sys (chars "recvfrom error")
      else show_reply a ;; mret (inl ())) ()).

(** The handler of SIGALRM of dgclibcast6 writes a byte to the pipe. *)
Definition dgclibcast6_alarm (pipefd1 : Z) : M unit := Write pipefd1 [0].
Definition dgclibcast6_body (sockfd pipefd0 : Z) (rset : gset Z) : M (gset Z + unit) :=
  rset ← fd_set sockfd rset;
  rset ← fd_set pipefd0 rset;
  a ← kernel (CSelect (Z.max sockfd pipefd0 + 1) rset ∅ None);
  if a_ret a <? 0 then
    err ← get_errno;
    if err =? EINTR then mret (inl rset) else err_sys (chars "select error")
  else
    let rset : gset Z := list_to_set (a_data a) in
    (if fd_isset sockfd rset then a ← Recvfrom sockfd MAXLINE 0; show_reply a else mret ()) ;;
    if fd_isset pipefd0 rset then Read pipefd0 1 ;; mret (inr ()) else mret (inl rset).
Definition dgclibcast6 (sockfd : Z) (servaddr : list Z) : M unit :=
  bcast_setup sockfd servaddr ;;
  p ← Pipe;
  Signal SIGALRM recvfrom_alarm ;;
  while_fgets (fun sendline =>
    Sendto sockfd (c_string sendline) servaddr ;;
    kernel (CAlarm 5) ;;
    loop (dgclibcast6_body sockfd (byte_at (a_data p) 0)) ∅).

(** ** udpcliserv/dgclibig.c, dgcliloop1.c and dgcliloop3.c: many or large datagrams

    [sendline] is the uninitialised array that is sent. *)

Definition SO_SNDBUF : Z := 7.
Definition SO_RCVBUF : Z := 8.
Definition int_bytes (v : Z) : list Z := le_bytes 4 (v mod 2 ^ 32).

Definition send_loop (ndg : Z) (sockfd : Z) (sendline servaddr : list Z) : M unit :=
  loop (fun i : Z => if i <? ndg then Sendto sockfd sendline servaddr ;; mret (inl (i + 1))
                     else mret (inr ())) 0.

Definition NDG : Z := 2000.
Definition dgcliloop1 (sockfd : Z) (sendline servaddr : list Z) : M unit :=
  send_loop NDG sockfd sendline servaddr.
Definition dgcliloop3 (sockfd : Z) (sendline servaddr : list Z) : M unit :=
  Setsockopt sockfd SOL_SOCKET SO_SNDBUF (int_bytes (100 * 1024)) ;;
  send_loop NDG sockfd sendline servaddr.

Definition dgclibig_MAXLINE : Z := 65507.
Definition dgclibig (sockfd : Z) (sendline servaddr : list Z) : M unit :=
  Setsockopt sockfd SOL_SOCKET SO_SNDBUF (int_bytes 70000) ;;
  Setsockopt sockfd SOL_SOCKET SO_RCVBUF (int_bytes 70000) ;;
  Sendto sockfd sendline servaddr ;;
  a ← Recvfrom sockfd dgclibig_MAXLINE 0;
  stdout (chars "received " ++ fmt_d (a_ret a) ++ chars " bytes" ++ newline).

(** ** The main functions *)

Definition udp_usage : list Z := chars "usage: udpcli <IPaddress>".

Definition udp_main (text : list Z) (port : Z) (client : Z -> list Z -> M unit)
    (argv : list (list Z)) : M Empty_set :=
  match argv with
  | [_; addr] =>
      sin_addr ← Inet_pton AF_INET addr;
      sockfd ← Socket AF_INET SOCK_DGRAM 0;
      client sockfd (sockaddr_in port sin_addr) ;;
      exit 0
  | _ => err_quit text
  end.

Definition udpcli01 : list (list Z) -> M Empty_set := udp_main udp_usage SERV_PORT dg_cli.
Definition udpcli02 : list (list Z) -> M Empty_set := udp_main udp_usage 7 dgcliaddr.
Definition udpcli03 : list (list Z) -> M Empty_set := udp_main udp_usage 7 dgcliinetaddr.
Definition udpcli04 : list (list Z) -> M Empty_set := udp_main udp_usage SERV_PORT dgcliconnect.
Definition udpcli06 (sendline : list Z) : list (list Z) -> M Empty_set :=
  udp_main udp_usage SERV_PORT (fun fd to => dgcliloop1 fd sendline to).
Definition udpcli08 (sendline : list Z) : list (list Z) -> M Empty_set :=
  udp_main udp_usage 9 (fun fd to => dgcliloop3 fd sendline to).
(** The address that the kernel gave to the connected socket. *)
Definition udpcli09 (argv : list (list Z)) : M Empty_set :=
  match argv with
  | [_; addr] =>
      sockfd ← Socket AF_INET SOCK_DGRAM 0;
      sin_addr ← Inet_pton AF_INET addr;
      Connect sockfd (sockaddr_in SERV_PORT sin_addr) ;;
      a ← Getsockname sockfd;
      sa ← or_undef (sin_of (map u8 (a_data a)));
      local ← Sock_ntop sa (sockaddr_len (a_data a));
      stdout (chars "local address " ++ local ++ newline) ;;
      exit 0
  | _ => err_quit udp_usage
  end.
Definition advio_udpcli01 : list (list Z) -> M Empty_set := udp_main udp_usage 7 dgclitimeo1.
Definition advio_udpcli02 : list (list Z) -> M Empty_set := udp_main udp_usage 7 dgclitimeo2.
Definition advio_udpcli03 : list (list Z) -> M Empty_set := udp_main udp_usage 7 dgclitimeo3.
Definition bcast_udpcli01 : list (list Z) -> M Empty_set :=
  udp_main (chars "usage: udpcli01 <IPaddress>") 13 dgclibcast1.
Definition bcast_udpcli02 : list (list Z) -> M Empty_set :=
  udp_main (chars "usage: udpcli02 <IPaddress>") 13 dgclibcast2.
Definition bcast_udpcli03 : list (list Z) -> M Empty_set :=
  udp_main (chars "usage: udpcli03 <IPaddress>") 13 dgclibcast3.
Definition bcast_udpcli04 : list (list Z) -> M Empty_set :=
  udp_main (chars "usage: udpcli04 <IPaddress>") 13 dgclibcast4.
Definition bcast_udpcli05 : list (list Z) -> M Empty_set :=
  udp_main (chars "usage: udpcli05 <IPaddress>") 13 dgclibcast5.
Definition bcast_udpcli06 : list (list Z) -> M Empty_set :=
  udp_main (chars "usage: udpcli02 <IPaddress>") 13 dgclibcast6.

(** ** What a client has sent, received and shown *)

Definition dgram : Type := list Z * list Z.

Fixpoint outgoing (fd : Z) (evs : list event) : list dgram :=
  match evs with
  | [] => []
  | (c, a) :: evs' =>
      match c with
      | CSendto f d to =>
          if (f =? fd) && (0 <=? a_ret a) then (d, to) :: outgoing fd evs' else outgoing fd evs'
      | CWrite f d =>
          if (f =? fd) && (0 <=? a_ret a) then (d, []) :: outgoing fd evs' else outgoing fd evs'
      | _ => outgoing fd evs'
      end
  end.

(** A datagram is taken into a buffer of MAXLINE bytes; a connected socket
    does not tell its sender. *)
Fixpoint incoming (fd : Z) (evs : list event) : list dgram :=
  match evs with
  | [] => []
  | (c, a) :: evs' =>
      match c with
      | CRecvfrom f _ _ =>
          if (f =? fd) && (0 <=? a_ret a) then (a_data a, sender a) :: incoming fd evs' else incoming fd evs'
      | CRead f n =>
          if (f =? fd) && (n =? MAXLINE) && (0 <=? a_ret a) then (a_data a, []) :: incoming fd evs'
          else incoming fd evs'
      | _ => incoming fd evs'
      end
  end.

Fixpoint displays (evs : list event) : list (list Z) :=
  match evs with
  | [] => []
  | (c, a) :: evs' =>
      match c with
      | CFputs d => if a_ret a <? 0 then displays evs' else d :: displays evs'
      | CStdout d => d :: displays evs'
      | _ => displays evs'
      end
  end.

Lemma outgoing_app fd a b : outgoing fd (a ++ b) = outgoing fd a ++ outgoing fd b.
Proof. induction a as [|[c x] a IH]; [done|]. destruct c; simpl; rewrite ?IH; try done; by destruct (_ && _). Qed.
Lemma incoming_app fd a b : incoming fd (a ++ b) = incoming fd a ++ incoming fd b.
Proof. induction a as [|[c x] a IH]; [done|]. destruct c; simpl; rewrite ?IH; try done; by destruct (_ && _). Qed.
Lemma displays_app a b : displays (a ++ b) = displays a ++ displays b.
Proof. induction a as [|[c x] a IH]; [done|]. destruct c; simpl; rewrite ?IH; try done; by destruct (_ <? 0). Qed.

(** [seg fd ins out inc dis e]: the events [e] read the lines [ins], sent
    [out], received [inc] and showed [dis]. *)
Definition seg (fd : Z) (ins : list (list Z)) (out inc : list dgram) (dis : list (list Z))
    (e : list event) : Prop :=
  inputs e = ins /\ outgoing fd e = out /\ incoming fd e = inc /\ displays e = dis.
Definition quiet (fd : Z) (e : list event) : Prop := seg fd [] [] [] [] e.

Lemma seg_app fd i1 i2 o1 o2 n1 n2 d1 d2 e1 e2 :
  seg fd i1 o1 n1 d1 e1 -> seg fd i2 o2 n2 d2 e2 ->
  seg fd (i1 ++ i2) (o1 ++ o2) (n1 ++ n2) (d1 ++ d2) (e1 ++ e2).
Proof.
  intros (<- & <- & <- & <-) (<- & <- & <- & <-). unfold seg.
  by rewrite inputs_app, outgoing_app, incoming_app, displays_app.
Qed.
Lemma seg_quiet_l fd i o n d e1 e2 : quiet fd e1 -> seg fd i o n d e2 -> seg fd i o n d (e1 ++ e2).
Proof. apply (seg_app fd [] i [] o [] n [] d). Qed.
Lemma seg_quiet_r fd i o n d e1 e2 : seg fd i o n d e1 -> quiet fd e2 -> seg fd i o n d (e1 ++ e2).
Proof.
  intros H1 H2. pose proof (seg_app _ _ _ _ _ _ _ _ _ _ _ H1 H2) as H. by rewrite !app_nil_r in H.
Qed.
Lemma quiet_nil fd : quiet fd [].
Proof. done. Qed.
Lemma noise_app fd a b : quiet fd a -> quiet fd b -> quiet fd (a ++ b).
Proof. apply seg_quiet_l. Qed.

(** Calls that are neither input nor datagrams nor shown. *)
Definition silent (c : call) : Prop :=
  match c with
  | CFgets _ | CFputs _ | CStdout _ | CRecvfrom _ _ _ | CSendto _ _ _ | CWrite _ _ => False
  | CRead _ n => n <> MAXLINE
  | _ => True
  end.
Lemma only_silent fd e : only silent e -> quiet fd e.
Proof.
  induction 1 as [|[c a] e Hc He IH]; [done|]. destruct IH as (H1 & H2 & H3 & H4). unfold quiet, seg.
  destruct c; try done; cbn; rewrite ?H1, ?H2, ?H3, ?H4; try done.
  cbn in Hc. replace (n =? MAXLINE) with false by lia. by rewrite andb_false_r.
Qed.
Lemma reports_silent rep : only is_report rep -> only silent rep.
Proof. apply only_mono. by intros []. Qed.
Lemma quiet_cons fd c a e : silent c -> quiet fd e -> quiet fd ((c, a) :: e).
Proof. intros Hc He. apply (noise_app fd [(c, a)]); [|done]. apply only_silent. by constructor. Qed.
Lemma noise_reports fd rep : only is_report rep -> quiet fd rep.
Proof. intros H. by apply only_silent, reports_silent. Qed.
#[local] Hint Resolve quiet_nil noise_app noise_reports : world.

(** The calls that exchange datagrams. *)
Definition dgram_call (c : call) : Prop :=
  match c with CRecvfrom _ _ _ | CSendto _ _ _ => True | _ => is_report c end.
Lemma reports_dgram rep : only is_report rep -> only dgram_call rep.
Proof. apply only_mono. by intros []. Qed.

(** The wrapper [Recvfrom]: a datagram, or a report. *)
Lemma runs_arrival {B} fd (k : answer -> M B) (Q : B -> list event -> Prop)
    (H : halt -> list event -> Prop) w :
  (forall h e, h = Blocked \/ h = Exited 1 -> quiet fd e -> only dgram_call e -> H h e) ->
  (forall x w', 0 <= a_ret x ->
     seg fd [] [] [(a_data x, sender x)] [] [(CRecvfrom fd MAXLINE 0, x)] ->
     runs (k x) (fun b e => Q b ([(CRecvfrom fd MAXLINE 0, x)] ++ e))
       (fun h e => H h ([(CRecvfrom fd MAXLINE 0, x)] ++ e)) w') ->
  runs (a ← Recvfrom fd MAXLINE 0; k a) Q H w.
Proof.
  intros HH HQ. eapply runs_wraps; [apply Recvfrom_wraps| | |].
  - apply HH; auto with world.
  - intros a rep Hbad Hrep. unfold succeeded in Hbad.
    apply HH; [auto| |constructor; [done|by apply reports_dgram]].
    apply (noise_app fd [_]); [|by apply noise_reports].
    unfold quiet, seg. cbn -[normalise]. by replace (_ && _) with false by lia.
  - intros a w1 Hg. unfold succeeded in Hg. apply HQ; [done|].
    unfold seg. cbn -[normalise]. by replace (_ && _) with true by lia.
Qed.

(** ** Conversations

    [talk fd to shows N ts e]: for each of the lines of [ts], one datagram
    with its text was sent to [to]; [N] says how many replies a line can have
    had; all the replies were shown as [shows] says. *)

Section Talk.
Context (fd : Z) (to : list Z) (shows : dgram -> list (list Z)) (N : nat -> Prop).
(** [fits] is what the client needs of a reply, [risky] what it cannot do. *)
Context (fits : dgram -> Prop) (risky : Prop).

Definition shown (ds : list dgram) : list (list Z) := concat (shows <$> ds).

Definition talk (ts : list (list Z * list dgram)) (e : list event) : Prop :=
  seg fd ts.*1 ((fun l => (c_string l, to)) <$> ts.*1) (concat ts.*2) (shown (concat ts.*2)) e /\
  Forall (fun t => N (length t.2)) ts.

(** Stopped while the last datagram received is being shown. *)
Definition showing (e : list event) : Prop :=
  exists ds r part, incoming fd e = ds ++ r /\ (length r <= 1)%nat /\
    displays e = shown ds ++ part /\ part `prefix_of` shown r.

(** Stopped in a round: the line, its datagram and its replies, in this order. *)
Definition unfinished (e : list event) : Prop :=
  (length (inputs e) <= 1)%nat /\
  outgoing fd e `prefix_of` (fun l => (c_string l, to)) <$> inputs e /\
  (outgoing fd e = [] -> incoming fd e = []) /\ showing e.

Definition stops (h : halt) (e : list event) : Prop :=
  h = Blocked \/ h = Exited 1 \/ h = Undefined /\ (risky \/ ~ Forall fits (incoming fd e)).

Definition talk_cut (h : halt) (e : list event) : Prop :=
  stops h e /\ exists ts e1 e2, e = e1 ++ e2 /\ talk ts e1 /\ unfinished e2.

(** One round, after its line: what [round] has to do. *)
Definition answers (line : list Z) (e : list event) : Prop :=
  exists ds, seg fd [] [(c_string line, to)] ds (shown ds) e /\ N (length ds).
Definition answers_cut (line : list Z) (h : halt) (e : list event) : Prop :=
  stops h e /\ inputs e = [] /\ outgoing fd e `prefix_of` [(c_string line, to)] /\
  (outgoing fd e = [] -> incoming fd e = []) /\ showing e.

Lemma showing_seg i o ds e : seg fd i o ds (shown ds) e -> showing e.
Proof.
  intros (_ & _ & Hi & Hd). exists ds, [], []. rewrite Hi, Hd, !app_nil_r. split; [done|].
  split; [simpl; lia|]. split; [done|]. apply prefix_nil.
Qed.

Lemma showing_app i o ds e1 e2 : seg fd i o ds (shown ds) e1 -> showing e2 -> showing (e1 ++ e2).
Proof.
  intros (_ & _ & Hi & Hd) (ds' & r & part & Hi2 & Hr & Hd2 & Hp). exists (ds ++ ds'), r, part.
  rewrite incoming_app, displays_app, Hi, Hd, Hi2, Hd2, <- !app_assoc. split; [done|]. split; [done|].
  split; [|done]. unfold shown. by rewrite fmap_app, concat_app, <- app_assoc.
Qed.

Lemma talk_nil : talk [] [].
Proof. done. Qed.

Lemma talk_app ts1 ts2 e1 e2 : talk ts1 e1 -> talk ts2 e2 -> talk (ts1 ++ ts2) (e1 ++ e2).
Proof.
  intros [H1 HN1] [H2 HN2]. split; [|by apply Forall_app].
  pose proof (seg_app _ _ _ _ _ _ _ _ _ _ _ H1 H2) as H.
  unfold shown in *. by rewrite !fmap_app, !concat_app, fmap_app, concat_app.
Qed.

Lemma talk_quiet ts q e : quiet fd q -> talk ts e -> talk ts (q ++ e).
Proof. intros Hq [H HN]. split; [|done]. by apply seg_quiet_l. Qed.

(** Stopped by an event that only concerns the process. *)
Lemma stops_app h e1 e2 : stops h e2 -> stops h (e1 ++ e2).
Proof.
  intros [?|[?|[? [?|Hf]]]]; [by left|by right; left|right; right; by auto|].
  right. right. split; [done|]. right. rewrite incoming_app, Forall_app. by intros [_ ?].
Qed.

Lemma unfinished_quiet e : quiet fd e -> unfinished e.
Proof.
  intros Hq. pose proof Hq as (H1 & H2 & H3 & H4). unfold unfinished. rewrite H1, H2. split; [simpl; lia|].
  split; [apply prefix_nil|]. split; [done|]. by apply (showing_seg [] [] []).
Qed.

Lemma talk_cut_quiet h e : h = Blocked \/ h = Exited 1 -> quiet fd e -> talk_cut h e.
Proof.
  intros Hh Hq. split; [destruct Hh; [by left|by right; left]|].
  exists [], [], e. split; [done|]. split; [done|]. by apply unfinished_quiet.
Qed.

Lemma talk_cut_app ts h e1 e2 : talk ts e1 -> talk_cut h e2 -> talk_cut h (e1 ++ e2).
Proof.
  intros Ht [Hs (ts' & a & b & -> & Ha & Hb)]. split; [by apply stops_app|].
  exists (ts ++ ts'), (e1 ++ a), b. rewrite app_assoc. split; [done|]. split; [by apply talk_app|done].
Qed.
Lemma talk_cut_quiet_l h q e : quiet fd q -> talk_cut h e -> talk_cut h (q ++ e).
Proof. intros Hq. apply (talk_cut_app []). by split. Qed.

Lemma runs_while_fgets (round : list Z -> M unit) w :
  (forall line w, runs (round line) (fun _ e => answers line e) (answers_cut line) w) ->
  runs (while_fgets round) (fun _ e => exists ts, talk ts e) talk_cut w.
Proof.
  intros Hr. apply (runs_loop _ (fun _ e => exists ts, talk ts e)); [by exists []|].
  intros [] evs w1 [ts Ht]. apply runs_Fgets.
  - apply (talk_cut_app ts); [done|]. apply talk_cut_quiet; auto with world.
  - intros a rep Ha Hrep. apply (talk_cut_app ts); [done|]. apply talk_cut_quiet; [auto|].
    apply (noise_app fd [_]); [|by apply noise_reports]. unfold quiet, seg. cbn.
    by replace (0 <? a_ret a) with false by lia.
  - intros a w2 Ha. apply runs_ret. exists (ts ++ []). apply talk_app; [done|].
    split; [|done]. unfold seg. cbn. by rewrite Ha.
  - intros a w2 Hin _. apply runs_bind. eapply runs_mono; [apply Hr| |].
    + intros [] e (ds & (H1 & H2 & H3 & H4) & HN) w3. apply runs_ret. split; [simpl; lia|].
      exists (ts ++ [(a_data a, ds)]). rewrite app_nil_r. apply talk_app; [done|].
      change ((CFgets MAXLINE, a) :: e) with ([(CFgets MAXLINE, a)] ++ e).
      split; [|by constructor]. unfold seg. rewrite inputs_app, Hin, H1. cbn.
      rewrite H2, H3, H4, app_nil_r. done.
    + intros h e (Hs & H1 & H2 & H3 & H4). apply (talk_cut_app ts); [done|].
      split; [by apply (stops_app _ [(CFgets MAXLINE, a)])|].
      exists [], [], ((CFgets MAXLINE, a) :: e). split; [done|]. split; [done|].
      change ((CFgets MAXLINE, a) :: e) with ([(CFgets MAXLINE, a)] ++ e).
      unfold unfinished. rewrite inputs_app, Hin, H1. cbn. split; [lia|]. split; [done|]. done.
Qed.

(** ** The part of a round after the datagram *)

Definition replied (e : list event) : Prop :=
  exists ds, seg fd [] [] ds (shown ds) e /\ N (length ds).
Definition replied_cut (h : halt) (e : list event) : Prop :=
  stops h e /\ inputs e = [] /\ outgoing fd e = [] /\ showing e.

Lemma runs_sent (line : list Z) (send : M unit) c (m : M unit) code text flag w :
  c = CSendto fd (c_string line) to \/ c = CWrite fd (c_string line) /\ to = [] ->
  wraps send c (returned (Z.of_nat (length (c_string line)))) (fun _ => ()) flag text code ->
  (forall w, runs m (fun _ e => replied e) replied_cut w) ->
  runs (send ;; m) (fun _ e => answers line e) (answers_cut line) w.
Proof.
  intros Hc Hw Hm.
  assert (forall a, a_ret (normalise c a) <> Z.of_nat (length (c_string line)) ->
    outgoing fd [(c, normalise c a)] `prefix_of` [(c_string line, to)]) as Hpre.
  { intros a _. destruct Hc as [->|[-> ->]]; cbn [outgoing]; destruct (_ && _);
      [done|apply prefix_nil|done|apply prefix_nil]. }
  assert (forall a e, inputs ((c, a) :: e) = inputs e /\ incoming fd ((c, a) :: e) = incoming fd e /\
    displays ((c, a) :: e) = displays e) as Hsame by (by intros; destruct Hc as [->|[-> _]]).
  eapply runs_wraps; [exact Hw| | |].
  - split; [by left|]. split; [done|]. split; [apply prefix_nil|]. split; [done|].
    by apply (showing_seg [] [] []).
  - intros a rep Hbad Hrep. split; [by right; left|].
    destruct (noise_reports fd rep Hrep) as (H1 & H2 & H3 & H4).
    destruct (Hsame (normalise c a) rep) as (-> & Hin & Hd). rewrite H1. split; [done|].
    change ((c, normalise c a) :: rep) with ([(c, normalise c a)] ++ rep) in *.
    rewrite outgoing_app, H2, app_nil_r, Hin, H3. split; [by apply Hpre|]. split; [done|].
    exists [], [], []. rewrite Hin, Hd, H3, H4. split; [done|]. split; [simpl; lia|done].
  - intros a w1 Hg. unfold returned in Hg.
    assert (forall e, outgoing fd e = [] ->
      outgoing fd ((c, normalise c a) :: e) = [(c_string line, to)]) as Hout.
    { intros e He. destruct Hc as [->|[-> ->]]; cbn [outgoing]; rewrite Z.eqb_refl, He, Hg;
        by replace (0 <=? Z.of_nat (length (c_string line))) with true by lia. }
    eapply runs_mono; [apply Hm| |].
    + intros [] e (ds & (H1 & H2 & H3 & H4) & HN). exists ds. split; [|done].
      destruct (Hsame (normalise c a) e) as (E1 & E2 & E3). unfold seg.
      rewrite E1, E2, E3, Hout by done. done.
    + intros h e (Hs & H1 & H2 & ds & r & part & Hsh).
      destruct (Hsame (normalise c a) e) as (E1 & E2 & E3). unfold answers_cut.
      split; [by apply (stops_app _ [_])|]. rewrite E1, E2, Hout by done. split; [done|].
      split; [done|]. split; [done|]. exists ds, r, part. by rewrite E2, E3.
Qed.

Lemma replied_app n1 e1 e2 ds1 :
  seg fd [] [] ds1 (shown ds1) e1 -> length ds1 = n1 ->
  (exists ds, seg fd [] [] ds (shown ds) e2 /\ N (n1 + length ds)) -> replied (e1 ++ e2).
Proof.
  intros H1 <- (ds & H2 & HN). exists (ds1 ++ ds). rewrite length_app. split; [|done].
  pose proof (seg_app _ _ _ _ _ _ _ _ _ _ _ H1 H2) as H. unfold shown in *. by rewrite fmap_app, concat_app.
Qed.

Lemma replied_quiet q e : quiet fd q -> replied e -> replied (q ++ e).
Proof. intros Hq (ds & He & HN). exists ds. split; [by apply seg_quiet_l|done]. Qed.

Lemma replied_cut_app h ds e1 e2 :
  seg fd [] [] ds (shown ds) e1 -> replied_cut h e2 -> replied_cut h (e1 ++ e2).
Proof.
  intros H1 (Hs & H2 & H3 & H4). split; [by apply stops_app|].
  split; [by rewrite inputs_app, (proj1 H1), H2|].
  split; [by rewrite outgoing_app, (proj1 (proj2 H1)), H3|]. by eapply showing_app.
Qed.
Lemma replied_cut_quiet h e : h = Blocked \/ h = Exited 1 -> quiet fd e -> replied_cut h e.
Proof.
  intros Hh Hq. pose proof Hq as (H1 & H2 & _). split; [destruct Hh; [by left|by right; left]|].
  split; [done|]. split; [done|]. by apply (showing_seg [] [] []).
Qed.

(** [display x m]: the program [m] shows the datagram [x]. *)
Definition display (x : dgram) (m : M unit) : Prop :=
  forall w, runs m (fun _ e => seg fd [] [] [] (shows x) e)
    (fun h e => (h = Blocked \/ h = Exited 1 \/ h = Undefined /\ ~ fits x) /\
       exists part, seg fd [] [] [] part e /\ part `prefix_of` shows x) w.

(** The events [e] receive the datagram [x] and show nothing. *)
Definition arrives (x : dgram) (e : list event) : Prop := seg fd [] [] [x] [] e.

Lemma shown_one x : shown [x] = shows x.
Proof. apply app_nil_r. Qed.

Lemma arrives_quiet x e q : arrives x e -> quiet fd q -> arrives x (e ++ q).
Proof. apply seg_quiet_r. Qed.

Lemma arrives_cut x e h : arrives x e -> h = Blocked \/ h = Exited 1 -> replied_cut h e.
Proof.
  intros (H1 & H2 & H3 & H4) Hh. split; [destruct Hh; [by left|by right; left]|].
  split; [done|]. split; [done|]. exists [], [x], []. rewrite H3, H4. split; [done|].
  split; [simpl; lia|]. split; [done|]. apply prefix_nil.
Qed.

Lemma runs_display e0 x m w :
  arrives x e0 -> display x m ->
  runs m (fun _ e => seg fd [] [] [x] (shown [x]) (e0 ++ e)) (fun h e => replied_cut h (e0 ++ e)) w.
Proof.
  intros Hx Hd. eapply runs_mono; [apply Hd| |].
  - intros [] e He. rewrite shown_one. by apply (seg_app fd [] [] [] [] [x] [] [] (shows x)).
  - intros h e [Hh (part & He & Hpart)].
    pose proof (seg_app _ _ _ _ _ _ _ _ _ _ _ Hx He) as (H1 & H2 & H3 & H4). cbn [app] in *.
    split; [|split; [done|split; [done|]]].
    + destruct Hh as [?|[?|[? Hf]]]; [by left|by right; left|right; right]. split; [done|]. right.
      rewrite H3. intros HF. by inversion_clear HF.
    + exists [], [x], part. rewrite H3, H4, shown_one. split; [done|]. split; [simpl; lia|done].
Qed.

(** [recvfrom] itself. *)
Lemma runs_recv {B} (k : answer -> M B) (Q : B -> list event -> Prop) (H : halt -> list event -> Prop) w :
  H Blocked [] ->
  (forall a w', a_ret a = -1 -> quiet fd [(CRecvfrom fd MAXLINE 0, a)] ->
     runs (k a) (fun b e => Q b ((CRecvfrom fd MAXLINE 0, a) :: e))
       (fun h e => H h ((CRecvfrom fd MAXLINE 0, a) :: e)) w') ->
  (forall a w', 0 <= a_ret a -> arrives (a_data a, sender a) [(CRecvfrom fd MAXLINE 0, a)] ->
     runs (k a) (fun b e => Q b ((CRecvfrom fd MAXLINE 0, a) :: e))
       (fun h e => H h ((CRecvfrom fd MAXLINE 0, a) :: e)) w') ->
  runs (kernel (CRecvfrom fd MAXLINE 0) ≫= k) Q H w.
Proof.
  intros HB Hbad Hgood. apply runs_call; [done|done|]. intros a w' x _.
  pose proof (normalise_ret (CRecvfrom fd MAXLINE 0) a) as Hn. fold x in Hn.
  destruct (decide (a_ret x = -1)) as [E|E]; [apply Hbad|apply Hgood]; try lia;
    unfold quiet, arrives, seg; cbn; rewrite Z.eqb_refl; [|].
  - by replace (0 <=? a_ret x) with false by lia.
  - by replace (0 <=? a_ret x) with true by lia.
Qed.

Lemma runs_Recvfrom (k : answer -> M unit) w :
  N 1 -> (forall a, 0 <= a_ret a -> display (a_data a, sender a) (k a)) ->
  runs (a ← Recvfrom fd MAXLINE 0; k a) (fun _ e => replied e) replied_cut w.
Proof.
  intros HN Hk. apply runs_arrival.
  - intros h e Hh Hq _. by apply replied_cut_quiet.
  - intros x w1 Hg Hx. eapply runs_mono; [apply (runs_display _ _ _ _ Hx), Hk, Hg| |done].
    intros [] e He. eexists. split; [exact He|done].
Qed.

Lemma runs_recvfrom_or quiet_errno (timeout : M unit) (k : answer -> M unit) w :
  N 0 -> N 1 -> (forall w, runs timeout (fun _ e => quiet fd e) (fun _ _ => False) w) ->
  (forall a, 0 <= a_ret a -> display (a_data a, sender a) (k a)) ->
  runs (recvfrom_or quiet_errno fd timeout k) (fun _ e => replied e) replied_cut w.
Proof.
  intros H0 H1 Ht Hk. apply runs_recv.
  - apply replied_cut_quiet; auto with world.
  - intros a w1 -> Hq. cbn. apply runs_get_errno. destruct (_ =? _).
    + eapply runs_mono; [apply Ht| |done]. intros [] e He. exists []. split; [|done].
      by apply (noise_app fd [_]).
    + apply runs_err_sys. intros rep Hrep. apply replied_cut_quiet; [auto|].
      apply (noise_app fd [_]); auto with world.
  - intros a w1 Ha Hx. replace (a_ret a <? 0) with false by lia.
    eapply runs_mono; [apply (runs_display [(CRecvfrom fd MAXLINE 0, a)] (a_data a, sender a))| |]; try done.
    + by apply Hk.
    + intros [] e He. eexists. split; [exact He|done].
Qed.

(** Replies until the time is over. *)
Definition round_of {S} (r : S + unit) (e : list event) : Prop :=
  (exists ds, seg fd [] [] ds (shown ds) e) /\ (0 < waits e)%nat.
Lemma runs_replies {S} (body : S -> M (S + unit)) s w :
  (forall n, N n) -> (forall s w, runs (body s) round_of replied_cut w) ->
  runs (loop body s) (fun _ e => replied e) replied_cut w.
Proof.
  intros HN Hb. apply (runs_loop _ (fun _ e => exists ds, seg fd [] [] ds (shown ds) e)); [by exists []|].
  intros s1 e w1 (ds & He). eapply runs_mono; [apply Hb| |].
  - intros r e2 [(ds2 & He2) Hw].
    assert (seg fd [] [] (ds ++ ds2) (shown (ds ++ ds2)) (e ++ e2)) as Hs.
    { pose proof (seg_app _ _ _ _ _ _ _ _ _ _ _ He He2) as H. unfold shown in *. by rewrite fmap_app, concat_app. }
    destruct r as [s'|[]]; [split; [done|]|]; exists (ds ++ ds2); auto.
  - intros h e2 He2. by eapply replied_cut_app.
Qed.

Lemma round_of_quiet {S} (r : S + unit) e : quiet fd e -> (0 < waits e)%nat -> round_of r e.
Proof. intros Hq Hw. split; [by exists []|done]. Qed.
Lemma round_of_quiet_l {S} (r : S + unit) q e : quiet fd q -> round_of r e -> round_of r (q ++ e).
Proof. intros Hq [(ds & He) Hw]. split; [exists ds; by apply seg_quiet_l|]. rewrite waits_app. lia. Qed.
Lemma replied_cut_quiet_l h q e : quiet fd q -> replied_cut h e -> replied_cut h (q ++ e).
Proof. intros Hq. by apply (replied_cut_app h []). Qed.

(** A reply is shown, and the loop goes on. *)
Lemma runs_shown {S} e0 x (m : M unit) (r : S + unit) w :
  arrives x e0 -> (0 < waits e0)%nat -> display x m ->
  runs (m ;; mret r) (fun r e => round_of r (e0 ++ e)) (fun h e => replied_cut h (e0 ++ e)) w.
Proof.
  intros Hx Hw Hm. apply runs_bind. eapply runs_mono; [by apply runs_display| |done].
  intros [] e He w1. apply runs_ret. rewrite app_nil_r. split; [by exists [x]|]. rewrite waits_app. lia.
Qed.
End Talk.

#[export] Hint Resolve quiet_nil noise_app noise_reports : world.

(** Programs that neither converse nor show. *)
Definition quietly {A} (fd : Z) (m : M A) : Prop :=
  forall w, runs m (fun _ e => quiet fd e) (fun h e => (h = Blocked \/ h = Exited 1) /\ quiet fd e) w.

Lemma quietly_wraps {A} fd (m : M A) c good val flag text code :
  wraps m c good val flag text code -> silent c -> quietly fd m.
Proof.
  intros Hw Hc w. eapply runs_wraps_ret; [exact Hw| | |].
  - auto with world.
  - intros a rep _ Hrep. split; [auto|]. apply quiet_cons; auto with world.
  - intros a _. by apply quiet_cons.
Qed.
Lemma quietly_kernel fd c : is_output c = false -> silent c -> quietly fd (kernel c).
Proof.
  intros Hc Hs w. apply runs_wp, wp_call; [done|by exists []; auto with world|].
  intros a w' He _ _. eexists. split; [exact He|]. by apply quiet_cons.
Qed.
Lemma quietly_bind {A B} fd (m : M A) (k : A -> M B) :
  quietly fd m -> (forall a, quietly fd (k a)) -> quietly fd (m ≫= k).
Proof.
  intros Hm Hk w. apply runs_bind. eapply runs_mono; [apply Hm| |done].
  intros a e He w'. eapply runs_mono; [apply Hk| |]; [auto with world|intros h e2 [Hh Hq]; auto with world].
Qed.
Lemma quietly_err_sys {A} fd text : quietly (A := A) fd (err_sys text).
Proof. intros w. apply runs_err_sys. auto with world. Qed.
Lemma quietly_ret {A} fd (a : A) : quietly fd (mret a).
Proof. intros w. apply runs_ret. auto with world. Qed.
Lemma quietly_Signal fd signo func : quietly fd (Signal signo func).
Proof. apply (quietly_wraps _ _ _ _ _ _ _ _ (Signal_wraps signo func)). done. Qed.

(** A quiet program before one whose events are spoken of up to quiet ones. *)
Lemma runs_quietly {A B} fd (m : M A) (k : A -> M B) (Q : B -> list event -> Prop)
    (H : halt -> list event -> Prop) w :
  quietly fd m ->
  (forall b q e, quiet fd q -> Q b e -> Q b (q ++ e)) ->
  (forall h q e, quiet fd q -> H h e -> H h (q ++ e)) ->
  (forall h e, h = Blocked \/ h = Exited 1 -> quiet fd e -> H h e) ->
  (forall a w', runs (k a) Q H w') -> runs (m ≫= k) Q H w.
Proof.
  intros Hm HQ HH Hs Hk. apply runs_bind. eapply runs_mono; [apply Hm| |].
  - intros a q Hq w'. eapply runs_mono; [apply Hk| |]; auto.
  - intros h e [Hh Hq]. auto.
Qed.

(** ** What each client shows of a datagram *)

Definition is_sin (x : dgram) : Prop := sin_of x.2 <> None.
Definition text_of (r : sock_res) : list Z := match r with SrText s => s | _ => [] end.

Definition show_text (x : dgram) : list (list Z) := [c_string x.1].
Definition show_addr (servaddr : list Z) (x : dgram) : list (list Z) :=
  if bool_decide (x.2 = servaddr) then [c_string x.1]
  else match sin_of x.2 with
       | Some sa => [ignored (text_of (sock_ntop sa (sockaddr_len x.2)))]
       | None => []
       end.
Definition show_inet (x : dgram) : list (list Z) :=
  match sin_of x.2 with Some sa => [received_from sa; c_string x.1] | None => [] end.
Definition show_from (x : dgram) : list (list Z) :=
  match sin_of x.2 with
  | Some sa => [from_text (text_of (sock_ntop_host sa (sockaddr_len x.2))) (c_string x.1)]
  | None => []
  end.

Lemma display_Fputs fd shows fits x t : shows x = [t] -> display fd shows fits x (Fputs t).
Proof.
  intros Hs w. rewrite Hs. eapply runs_wraps_ret; [apply Fputs_wraps| | |].
  - split; [auto|]. exists []. split; [done|apply prefix_nil].
  - intros a rep Hbad Hrep. split; [auto|]. exists []. split; [|apply prefix_nil].
    apply (noise_app fd [_]); [|by apply noise_reports]. unfold succeeded in Hbad.
    unfold quiet, seg. cbn -[normalise]. by replace (_ <? 0) with true by lia.
  - intros a Hg. unfold succeeded in Hg. unfold seg. cbn -[normalise]. by replace (_ <? 0) with false by lia.
Qed.

Lemma display_stdout fd shows fits x t : shows x = [t] -> display fd shows fits x (stdout t).
Proof.
  intros Hs w. rewrite Hs. apply runs_wp, wp_out; [done|]. intros w' He _ _. by eexists.
Qed.

Lemma sin_of_wf a sa : sin_of (sender a) = Some sa -> wf_sa sa /\ internet sa.
Proof.
  assert (bytes (sender a)) as Hb.
  { unfold bytes, sender. apply Forall_map, Forall_true. intros x. apply u8_range. }
  unfold sin_of. case_bool_decide as H; [|done]. destruct H as [Hl _]. intros [= <-].
  split; [|by left]. unfold bytes in *. split; [rewrite length_take, length_drop; lia|].
  split; [by apply Forall_take, Forall_drop|]. split; [rewrite length_take, length_drop; lia|].
  by apply Forall_take, Forall_drop.
Qed.

(** A reply that needs the address of its sender. *)
Lemma display_sin fd shows x (k : sockaddr -> M unit) :
  (forall sa, sin_of x.2 = Some sa -> display fd shows is_sin x (k sa)) ->
  display fd shows is_sin x (sa ← or_undef (sin_of x.2); k sa).
Proof.
  intros Hk w. destruct (sin_of x.2) as [sa|] eqn:E.
  - apply (runs_or_undef _ sa); [done|]. by apply Hk.
  - apply (runs_none None); [done|]. split; [|exists []; split; [done|apply prefix_nil]].
    right. right. unfold is_sin. rewrite E. auto.
Qed.

Lemma display_wrap_text fd shows fits x r s text (k : list Z -> M unit) :
  r = SrText s -> display fd shows fits x (k s) -> display fd shows fits x (t ← wrap_text r text; k t).
Proof. intros -> Hk w. by apply Hk. Qed.

Lemma sock_ntop_text a sa len : sin_of (sender a) = Some sa ->
  sock_ntop sa len = SrText (text_of (sock_ntop sa len)) /\
  sock_ntop_host sa len = SrText (text_of (sock_ntop_host sa len)).
Proof.
  intros [Hwf Hi]%sin_of_wf. by destruct (sock_ntop_internet sa len Hwf Hi) as (s & _ & -> & ->).
Qed.

Lemma display_addr fd servaddr a :
  display fd (show_addr servaddr) is_sin (a_data a, sender a) (dgcliaddr_reply servaddr a).
Proof.
  unfold dgcliaddr_reply. destruct (bool_decide _) eqn:E.
  - apply display_Fputs. unfold show_addr. cbn [snd fst]. by rewrite E.
  - apply (display_sin _ _ (a_data a, sender a)). intros sa Hsa. cbn [snd] in Hsa.
    eapply display_wrap_text; [by apply (sock_ntop_text a)|]. apply display_stdout.
    unfold show_addr. cbn [snd]. by rewrite E, Hsa.
Qed.

Lemma display_from fd a : display fd show_from is_sin (a_data a, sender a) (show_reply a).
Proof.
  apply (display_sin _ _ (a_data a, sender a)). intros sa Hsa. cbn [snd] in Hsa.
  eapply display_wrap_text; [by apply (sock_ntop_text a)|]. apply display_stdout.
  unfold show_from. cbn [snd]. by rewrite Hsa.
Qed.

Lemma display_inet fd a :
  display fd show_inet is_sin (a_data a, sender a)
    (sa ← or_undef (sin_of (sender a)); stdout (received_from sa) ;; Fputs (c_string (a_data a))).
Proof.
  apply (display_sin _ _ (a_data a, sender a)). intros sa Hsa w. cbn [snd] in Hsa. unfold show_inet.
  cbn [snd fst]. rewrite Hsa. unfold stdout. apply runs_out; [done|]. intros w1.
  eapply runs_mono; [apply (display_Fputs fd show_text (fun _ => True) (a_data a, sender a)); reflexivity| |].
  - intros [] e He. by apply (seg_app fd [] [] [] [] [] [] [_] _ [_]).
  - intros h e [Hh (part & He & Hp)]. split.
    { destruct Hh as [?|[?|[_ []]]]; auto. }
    exists ([received_from sa] ++ part). split; [by apply (seg_app fd [] [] [] [] [] [] [_] _ [_])|].
    by apply (prefix_app [received_from sa]).
Qed.

(** ** Every client holds a conversation *)

Definition one (n : nat) : Prop := n = 1%nat.
Definition at_most_one (n : nat) : Prop := (n <= 1)%nat.
Definition any_number (n : nat) : Prop := True.
Definition anything (x : dgram) : Prop := True.
Definition no_risk (fd : Z) : Prop := False.
(** A descriptor that [FD_SET] cannot take. *)
Definition set_risk (fd : Z) : Prop := ~ 0 <= fd < FD_SETSIZE.

(** The program ended after the last line, or was stopped. *)
Definition conv (shows : dgram -> list (list Z)) (N : nat -> Prop) (fits : dgram -> Prop)
    (risk : Z -> Prop) (fd : Z) (to : list Z) (h : halt) (e : list event) : Prop :=
  (h = Exited 0 /\ exists ts, talk fd to shows N ts e) \/ talk_cut fd to shows N fits (risk fd) h e.

Definition runs_to (m : M unit) (R : halt -> list event -> Prop) : Prop :=
  forall w, runs m (fun _ e => R (Exited 0) e) R w.

Section Clients.
Context (shows : list Z -> dgram -> list (list Z)) (N : nat -> Prop) (fits : dgram -> Prop)
  (risk : Z -> Prop) (fd : Z) (to : list Z).
Notation Conv := (conv (shows to) N fits risk fd to).

Lemma conv_quiet h q e : quiet fd q -> Conv h e -> Conv h (q ++ e).
Proof.
  intros Hq [[Hh (ts & Ht)]|Hc]; [left|right].
  - split; [done|]. exists ts. by apply talk_quiet.
  - by apply talk_cut_quiet_l.
Qed.

Lemma runs_setup {A} (m : M A) (k : A -> M unit) :
  quietly fd m -> (forall a, runs_to (k a) Conv) -> runs_to (m ≫= k) Conv.
Proof.
  intros Hm Hk w. apply (runs_quietly fd); [done|..].
  - intros _ q e. apply conv_quiet.
  - intros h q e. apply conv_quiet.
  - intros h e Hh Hq. right. by apply talk_cut_quiet.
  - intros a w'. apply Hk.
Qed.

Lemma runs_rounds (rest : M unit) :
  (forall w, runs rest (fun _ e => replied fd (shows to) N e) (replied_cut fd (shows to) fits (risk fd)) w) ->
  runs_to (while_fgets (fun line => Sendto fd (c_string line) to ;; rest)) Conv.
Proof.
  intros Hr w. eapply runs_mono; [apply (runs_while_fgets fd to (shows to) N fits (risk fd))| |].
  - intros line w1. eapply runs_sent; [by left|apply Sendto_wraps|]. intros w2. apply Hr.
  - intros _ e [ts Ht]. left. eauto.
  - intros h e He. by right.
Qed.
End Clients.

Lemma display_text fd a : display fd show_text anything (a_data a, sender a) (Fputs (c_string (a_data a))).
Proof. by apply display_Fputs. Qed.

Lemma dg_cli_runs fd to : runs_to (dg_cli fd to) (conv show_text one anything no_risk fd to).
Proof.
  apply (runs_rounds (fun _ => show_text)). intros w. apply runs_Recvfrom; [done|].
  intros a _. apply display_text.
Qed.

Lemma dgcliaddr_runs fd to : runs_to (dgcliaddr fd to) (conv (show_addr to) one is_sin no_risk fd to).
Proof.
  apply (runs_setup show_addr); [by eapply quietly_wraps; [apply Malloc_wraps|]|]. intros _.
  apply (runs_rounds show_addr). intros w. apply runs_Recvfrom; [done|].
  intros a _. apply display_addr.
Qed.

Lemma dgcliinetaddr_runs fd to : runs_to (dgcliinetaddr fd to) (conv show_inet one is_sin no_risk fd to).
Proof.
  apply (runs_setup (fun _ => show_inet)); [by eapply quietly_wraps; [apply Malloc_wraps|]|]. intros _.
  apply (runs_rounds (fun _ => show_inet)). intros w. apply runs_Recvfrom; [done|].
  intros a _. apply display_inet.
Qed.

(** The connected client: nothing happens before the connection. *)
Definition connected_conv (fd : Z) (to : list Z) (h : halt) (e : list event) : Prop :=
  ((h = Blocked \/ h = Exited 1) /\ quiet fd e) \/
  exists a e', 0 <= a_ret a /\ e = (CConnect fd to, a) :: e' /\
    conv show_text one anything no_risk fd [] h e'.

Lemma dgcliconnect_runs fd to : runs_to (dgcliconnect fd to) (connected_conv fd to).
Proof.
  intros w. eapply runs_wraps; [apply Connect_wraps|left; auto with world| |].
  - intros a rep _ Hrep. left. split; [auto|]. apply quiet_cons; [done|auto with world].
  - intros a w1 Hg. unfold succeeded in Hg.
    assert (runs_to (while_fgets (fun sendline => Write fd (c_string sendline) ;;
        a ← Read fd MAXLINE; Fputs (c_string (a_data a)))) (conv show_text one anything no_risk fd [])) as Hr.
    { intros w2. eapply runs_mono; [apply (runs_while_fgets fd [] show_text one anything False)| |].
      - intros line w3. eapply runs_sent; [by right|apply Write_wraps|]. intros w4.
        eapply runs_wraps; [apply Read_wraps|apply replied_cut_quiet; auto with world| |].
        + intros x rep Hbad Hrep. unfold succeeded in Hbad. apply replied_cut_quiet; [auto|].
          apply (noise_app fd [_]); [|by apply noise_reports]. unfold quiet, seg. cbn -[normalise].
          by replace (_ && _) with false by lia.
        + intros x w5 Hx. unfold succeeded in Hx. set (y := normalise _ x) in *.
          eapply runs_mono; [apply (runs_display fd show_text anything False [(CRead fd MAXLINE, y)] (a_data y, []))| |].
          * unfold arrives, seg. cbn. by replace (_ && _) with true by lia.
          * by apply display_Fputs.
          * intros [] e He. eexists. split; [exact He|done].
          * done.
      - intros _ e [ts Ht]. left. eauto.
      - intros h e He. by right. }
    eapply runs_mono; [apply Hr| |]; intros; right; eexists _, _; (split; [exact Hg|split; [reflexivity|done]]).
Qed.

(** The clients that wait for a limited time. *)
Lemma socket_timeout_quiet fd w : runs socket_timeout (fun _ e => quiet fd e) (fun _ _ => False) w.
Proof.
  apply runs_wp, wp_out; [done|]. intros w' He _ _. eexists. split; [exact He|]. by apply quiet_cons.
Qed.

Lemma runs_Readable_timeo fd sec shows N fits (k : Z -> M unit) w :
  (forall n w, runs (k n) (fun _ e => replied fd shows N e) (replied_cut fd shows fits (set_risk fd)) w) ->
  runs (n ← Readable_timeo fd sec; k n) (fun _ e => replied fd shows N e)
    (replied_cut fd shows fits (set_risk fd)) w.
Proof.
  intros Hk. destruct (decide (0 <= fd < FD_SETSIZE)) as [Hfd|Hfd].
  - apply (runs_quietly fd).
    + unfold Readable_timeo, or_err_sys. apply quietly_bind.
      * unfold readable_timeo, fd_set. replace (_ && _) with true by lia.
        apply (quietly_bind fd (mret _)); [apply quietly_ret|]. intros s.
        apply quietly_bind; [by apply quietly_kernel|]. intros a. apply quietly_ret.
      * intros rc. destruct (_ <? 0); [apply quietly_err_sys|apply quietly_ret].
    + intros _. apply replied_quiet.
    + intros h. apply replied_cut_quiet_l.
    + intros h e. apply replied_cut_quiet.
    + done.
  - unfold Readable_timeo, or_err_sys, readable_timeo, fd_set. replace (_ && _) with false by lia.
    apply (runs_halted Undefined). split; [|split; [done|split; [done|]]].
    + right. right. by auto.
    + by apply (showing_seg fd shows [] [] []).
Qed.

Lemma dgclitimeo_runs fd to :
  runs_to (dgclitimeo fd to) (conv show_text at_most_one anything set_risk fd to) /\
  runs_to (dgclitimeo1 fd to) (conv show_text at_most_one anything set_risk fd to).
Proof.
  split; apply (runs_rounds (fun _ => show_text)); intros w; apply runs_Readable_timeo; intros n w1;
    (destruct (n =? 0); [|apply runs_Recvfrom; [unfold at_most_one; lia|intros a _; apply display_text]]);
    (eapply runs_mono; [apply socket_timeout_quiet| |done]); intros [] e He; exists []; (split; [done|]);
    unfold at_most_one; simpl; lia.
Qed.

Lemma dgclitimeo2_runs fd to :
  runs_to (dgclitimeo2 fd to) (conv show_text at_most_one anything no_risk fd to).
Proof.
  apply (runs_setup (fun _ => show_text)); [by eapply quietly_wraps; [apply Setsockopt_wraps|]|]. intros _.
  apply (runs_rounds (fun _ => show_text)). intros w.
  apply runs_recvfrom_or; [unfold at_most_one; lia..|apply socket_timeout_quiet|].
  intros a _. apply display_text.
Qed.

(** A quiet call before what a display does. *)
Lemma display_quiet {A} fd shows fits x (m : M A) (k : M unit) :
  quietly fd m -> display fd shows fits x k -> display fd shows fits x (m ;; k).
Proof.
  intros Hm Hk w. apply (runs_quietly fd); [done|..].
  - intros _ q e. apply seg_quiet_l.
  - intros h q e Hq [Hh (part & He & Hp)]. split; [done|]. exists part. split; [by apply seg_quiet_l|done].
  - intros h e Hh Hq. split; [destruct Hh; auto|]. exists []. split; [done|apply prefix_nil].
  - intros _ w'. apply Hk.
Qed.
(** and before what follows a datagram. *)
Lemma runs_replied_quiet {A} fd shows N fits risky (m : M A) (k : A -> M unit) w :
  quietly fd m ->
  (forall a w, runs (k a) (fun _ e => replied fd shows N e) (replied_cut fd shows fits risky) w) ->
  runs (m ≫= k) (fun _ e => replied fd shows N e) (replied_cut fd shows fits risky) w.
Proof.
  intros Hm Hk. apply (runs_quietly fd); [done|..].
  - intros _. apply replied_quiet.
  - intros h. apply replied_cut_quiet_l.
  - intros h e. apply replied_cut_quiet.
  - done.
Qed.

Lemma dgclitimeo3_runs fd to :
  runs_to (dgclitimeo3 fd to) (conv show_text at_most_one anything no_risk fd to).
Proof.
  apply (runs_setup (fun _ => show_text)); [apply quietly_Signal|]. intros _.
  apply (runs_rounds (fun _ => show_text)). intros w.
  apply runs_replied_quiet; [by apply quietly_kernel|]. intros _ w1.
  apply runs_recvfrom_or; [unfold at_most_one; lia..|apply socket_timeout_quiet|].
  intros a _. apply display_quiet; [by apply quietly_kernel|apply display_text].
Qed.

(** ** The broadcast clients *)

Section Broadcast.
Context (fd : Z) (risk : Prop).
Notation Round := (round_of fd show_from).
Notation Cut := (replied_cut fd show_from is_sin risk).

(** The end of the wait, after the quiet events [e0]. *)
Lemma runs_wait_over {S} text e0 w :
  quiet fd e0 -> (0 < waits e0)%nat ->
  runs (err ← get_errno; if err =? EINTR then mret (inr ()) else err_sys text)
    (fun (r : S + unit) e => Round r (e0 ++ e)) (fun h e => Cut h (e0 ++ e)) w.
Proof.
  intros Hq Hw. apply runs_get_errno. destruct (_ =? _).
  - apply runs_ret. rewrite app_nil_r. by apply round_of_quiet.
  - apply runs_err_sys. intros rep Hrep. apply replied_cut_quiet; auto with world.
Qed.

Lemma runs_show_reply {S} e0 a (r : S + unit) w :
  arrives fd (a_data a, sender a) e0 -> (0 < waits e0)%nat ->
  runs (show_reply a ;; mret r) (fun r e => Round r (e0 ++ e)) (fun h e => Cut h (e0 ++ e)) w.
Proof. intros Hx Hw. eapply runs_shown; [exact Hx|done|apply display_from]. Qed.

(** A quiet program in the middle of an iteration. *)
Lemma runs_round_quiet {A S} e0 (m : M A) (k : A -> M (S + unit)) w :
  quietly fd m -> (forall h q, h = Blocked \/ h = Exited 1 -> quiet fd q -> Cut h (e0 ++ q)) ->
  (forall a q w, quiet fd q ->
     runs (k a) (fun r e => Round r ((e0 ++ q) ++ e)) (fun h e => Cut h ((e0 ++ q) ++ e)) w) ->
  runs (m ≫= k) (fun r e => Round r (e0 ++ e)) (fun h e => Cut h (e0 ++ e)) w.
Proof.
  intros Hm Hs Hk. apply runs_bind. eapply runs_mono; [apply Hm| |].
  - intros a q Hq w'. eapply runs_mono; [apply Hk; exact Hq| |]; intros ? e; cbn beta; by rewrite <- app_assoc.
  - intros h q [Hh Hq]. by apply Hs.
Qed.

Lemma cut_after_quiet h e0 q : quiet fd e0 -> h = Blocked \/ h = Exited 1 -> quiet fd q -> Cut h (e0 ++ q).
Proof. intros He Hh Hq. apply replied_cut_quiet; auto with world. Qed.
Lemma cut_after_arrival h x e0 q :
  arrives fd x e0 -> h = Blocked \/ h = Exited 1 -> quiet fd q -> Cut h (e0 ++ q).
Proof. intros He Hh Hq. eapply arrives_cut; [by apply arrives_quiet|done]. Qed.

Lemma bcast1_body (u : unit) w :
  runs (a ← kernel (CRecvfrom fd MAXLINE 0);
        if a_ret a <? 0 then
          err ← get_errno;
          if err =? EINTR then mret (inr ()) else err_sys (chars "recvfrom error")
        else show_reply a ;; mret (inl ())) (fun (r : unit + unit) e => Round r e) Cut w.
Proof.
  apply runs_recv; [apply replied_cut_quiet; auto with world| |].
  - intros a w1 -> Hq. apply (runs_wait_over _ [_]); [done|simpl; lia].
  - intros a w1 Ha Hx. replace (a_ret a <? 0) with false by lia.
    apply (runs_show_reply [_]); [done|simpl; lia].
Qed.

Lemma bcast2_body (u : unit) w :
  runs (a ← kernel (CRecvfrom fd MAXLINE 0);
        if a_ret a =? -1 then
          err ← get_errno;
          if err =? EINTR then mret (inr ()) else err_sys (chars "recvfrom error")
        else kernel (libc "sleep" [1] []) ;; show_reply a ;; mret (inl ())) (fun (r : unit + unit) e => Round r e) Cut w.
Proof.
  apply runs_recv; [apply replied_cut_quiet; auto with world| |].
  - intros a w1 -> Hq. apply (runs_wait_over _ [_]); [done|simpl; lia].
  - intros a w1 Ha Hx. replace (a_ret a =? -1) with false by lia.
    apply (runs_round_quiet [_]); [by apply quietly_kernel|intros; by eapply cut_after_arrival|].
    intros _ q w2 Hq. apply runs_show_reply; [by apply arrives_quiet|simpl; lia].
Qed.

Lemma bcast3_body (u : unit) w :
  runs (Sigprocmask SIG_UNBLOCK sigset_alrm NULL ;;
        a ← kernel (CRecvfrom fd MAXLINE 0);
        Sigprocmask SIG_BLOCK sigset_alrm NULL ;;
        if a_ret a <? 0 then
          err ← get_errno;
          if err =? EINTR then mret (inr ()) else err_sys (chars "recvfrom error")
        else show_reply a ;; mret (inl ())) (fun (r : unit + unit) e => Round r e) Cut w.
Proof.
  assert (forall how, quietly fd (Sigprocmask how sigset_alrm NULL)) as Hsig
    by (intros how; by eapply quietly_wraps; [apply Sigprocmask_wraps|]).
  apply (runs_quietly fd); [done|intros ? q e; apply round_of_quiet_l|intros h q e; apply replied_cut_quiet_l|
    intros h e; apply replied_cut_quiet|]. intros _ w0.
  apply runs_recv; [apply replied_cut_quiet; auto with world| |].
  - intros a w1 -> Hq. apply (runs_round_quiet [_]); [done|intros; by apply cut_after_quiet|].
    intros _ q w2 Hq2. apply runs_wait_over; [auto with world|simpl; lia].
  - intros a w1 Ha Hx. replace (a_ret a <? 0) with false by lia.
    apply (runs_round_quiet [_]); [done|intros; by eapply cut_after_arrival|].
    intros _ q w2 Hq. apply runs_show_reply; [by apply arrives_quiet|simpl; lia].
Qed.

(** [Recvfrom] and the display of its datagram, after quiet events. *)
Lemma runs_Recvfrom_show {S} e0 (r : S + unit) w :
  quiet fd e0 ->
  runs (a ← Recvfrom fd MAXLINE 0; show_reply a ;; mret r)
    (fun r e => Round r (e0 ++ e)) (fun h e => Cut h (e0 ++ e)) w.
Proof.
  intros Hq. apply runs_arrival.
  - intros h e Hh Hqe _. by apply cut_after_quiet.
  - intros x w1 _ Hx. eapply runs_mono; [apply (runs_show_reply _ x r w1 Hx); simpl; lia| |].
    + intros r' e He. by apply round_of_quiet_l.
    + intros h e He. by apply replied_cut_quiet_l.
Qed.

Lemma runs_set {S} (s : gset Z) g (k : gset Z -> M (S + unit)) w :
  (risk \/ 0 <= g < FD_SETSIZE) -> (forall s w, runs (k s) Round Cut w) ->
  runs (s ← fd_set g s; k s) Round Cut w.
Proof.
  intros Hg Hk. unfold fd_set. destruct (_ && _) eqn:E; [apply Hk|].
  apply (runs_halted Undefined). split; [|split; [done|split; [done|]]].
  - right. right. split; [done|]. left. destruct Hg; [done|lia].
  - by apply (showing_seg fd show_from [] [] []).
Qed.

Lemma set_risk_dec g : (set_risk g -> risk) -> risk \/ 0 <= g < FD_SETSIZE.
Proof. unfold set_risk. intros H. destruct (decide (0 <= g < FD_SETSIZE)); auto. Qed.

Lemma bcast4_body (u : unit) w :
  (set_risk fd -> risk) ->
  runs (rset ← fd_set fd ∅;
        p ← kernel (libc "pselect" [fd + 1; sigset_empty] (elements rset));
        if a_ret p <? 0 then
          err ← get_errno;
          if err =? EINTR then mret (inr ()) else err_sys (chars "pselect error")
        else if negb (a_ret p =? 1) then
          err_sys (chars "pselect error: returned " ++ fmt_d (a_ret p))
        else
          a ← Recvfrom fd MAXLINE 0;
          show_reply a ;; mret (inl ())) (fun (r : unit + unit) e => Round r e) Cut w.
Proof.
  intros Hrisk. apply runs_set; [by apply set_risk_dec|]. intros rset w1.
  apply runs_call; [done|apply replied_cut_quiet; auto with world|].
  intros p0 w2 p _. assert (quiet fd [(libc "pselect" [fd + 1; sigset_empty] (elements rset), p)]) as Hq
    by (by apply quiet_cons). destruct (_ <? 0); [|destruct (negb _)].
  - apply (runs_wait_over _ [_]); [done|simpl; lia].
  - apply runs_err_sys. intros rep Hrep. apply (cut_after_quiet _ [_]); auto with world.
  - by apply (runs_Recvfrom_show [_]).
Qed.
Lemma bcast6_body pipefd0 rset w :
  (set_risk fd -> risk) -> (set_risk pipefd0 -> risk) ->
  runs (dgclibcast6_body fd pipefd0 rset) Round Cut w.
Proof.
  intros Hr1 Hr2. unfold dgclibcast6_body.
  apply runs_set; [by apply set_risk_dec|]. intros rset1 w1.
  apply runs_set; [by apply set_risk_dec|]. intros rset2 w2.
  apply runs_call; [done|apply replied_cut_quiet; auto with world|]. intros a0 w3 a _.
  set (ev := (CSelect _ _ _ _, a)). assert (quiet fd [ev]) as Hq by (by apply quiet_cons).
  destruct (a_ret a <? 0).
  { apply runs_get_errno. destruct (_ =? _).
    - apply runs_ret. apply round_of_quiet; [done|simpl; lia].
    - apply runs_err_sys. intros rep Hrep. apply (cut_after_quiet _ [ev]); auto with world. }
  set (ready := list_to_set (a_data a) : gset Z). apply runs_bind.
  assert (forall w, runs (if fd_isset fd ready then a ← Recvfrom fd MAXLINE 0; show_reply a else mret ())
    (fun _ e => exists ds, seg fd [] [] ds (shown show_from ds) ([ev] ++ e)) (fun h e => Cut h ([ev] ++ e)) w) as Hrecv.
  { intros w4. destruct (fd_isset fd ready); [|by apply runs_ret; exists []].
    apply (runs_ext _ (r ← (a ← Recvfrom fd MAXLINE 0; show_reply a ;; mret (inr () : unit + unit)); mret ())).
    - unfold mbind, M_bind, mret, M_ret. destruct (Recvfrom _ _ _ w4) as [[x|h] w5]; [|done].
      by destruct (show_reply x w5) as [[[]|h] w6].
    - apply runs_bind. eapply runs_mono; [by apply (runs_Recvfrom_show [ev])| |done].
      intros r e [He _] w5. apply runs_ret. by rewrite app_nil_r. }
  eapply runs_mono; [apply Hrecv| |done]. intros [] e (ds & He) w4.
  assert (forall (r : gset Z + unit) q, quiet fd q -> Round r (ev :: e ++ q)) as Hround.
  { intros r q Hq2. split; [|simpl; lia]. exists ds. by apply (seg_quiet_r fd _ _ _ _ ([ev] ++ e)). }
  assert (forall h q, h = Blocked \/ h = Exited 1 -> quiet fd q -> Cut h (ev :: e ++ q)) as Hcut.
  { intros h q Hh Hq2. apply (replied_cut_app fd show_from is_sin risk h ds ([ev] ++ e) q); [done|].
    by apply replied_cut_quiet. }
  destruct (fd_isset pipefd0 ready).
  - eapply runs_wraps; [apply Read_wraps| | |].
    + apply Hcut; auto with world.
    + intros x rep _ Hrep. apply Hcut; [auto|]. apply quiet_cons; [done|auto with world].
    + intros x w5 _. apply runs_ret. apply Hround. by apply quiet_cons.
  - apply runs_ret. apply Hround. done.
Qed.
End Broadcast.

Lemma runs_bcast_round {S} fd to (risk : Z -> Prop) secs (body : S -> M (S + unit)) s :
  (forall s w, runs (body s) (fun r e => round_of fd show_from r e) (replied_cut fd show_from is_sin (risk fd)) w) ->
  runs_to (while_fgets (fun line => Sendto fd (c_string line) to ;; kernel (CAlarm secs) ;; loop body s))
    (conv show_from any_number is_sin risk fd to).
Proof.
  intros Hb. apply (runs_rounds (fun _ => show_from)). intros w.
  apply runs_replied_quiet; [by apply quietly_kernel|]. intros _ w1. by apply runs_replies.
Qed.

Lemma bcast_setup_quiet fd to : quietly fd (bcast_setup fd to).
Proof.
  apply quietly_bind; [by eapply quietly_wraps; [apply Malloc_wraps|]|]. intros _.
  by eapply quietly_wraps; [apply Setsockopt_wraps|].
Qed.

Lemma dgclibcast1_runs fd to : runs_to (dgclibcast1 fd to) (conv show_from any_number is_sin no_risk fd to).
Proof.
  apply (runs_setup (fun _ => show_from)); [apply bcast_setup_quiet|]. intros _.
  apply (runs_setup (fun _ => show_from)); [apply quietly_Signal|]. intros _.
  apply runs_bcast_round. intros s w. apply bcast1_body. exact s.
Qed.

Lemma dgclibcast2_runs fd to : runs_to (dgclibcast2 fd to) (conv show_from any_number is_sin no_risk fd to).
Proof.
  apply (runs_setup (fun _ => show_from)); [apply bcast_setup_quiet|]. intros _.
  apply (runs_setup (fun _ => show_from)); [apply quietly_Signal|]. intros _.
  apply runs_bcast_round. intros s w. apply bcast2_body. exact s.
Qed.

Lemma quietly_sigset fd set : quietly fd (Sigemptyset set) /\ quietly fd (Sigaddset set SIGALRM) /\
  quietly fd (Sigprocmask SIG_BLOCK set NULL).
Proof.
  split_and!; eapply quietly_wraps; [apply Sigemptyset_wraps|done|apply Sigaddset_wraps|done|
    apply Sigprocmask_wraps|done].
Qed.

Lemma dgclibcast3_runs fd to : runs_to (dgclibcast3 fd to) (conv show_from any_number is_sin no_risk fd to).
Proof.
  apply (runs_setup (fun _ => show_from)); [apply bcast_setup_quiet|]. intros _.
  apply (runs_setup (fun _ => show_from)); [apply quietly_sigset|]. intros _.
  apply (runs_setup (fun _ => show_from)); [apply quietly_sigset|]. intros _.
  apply (runs_setup (fun _ => show_from)); [apply quietly_Signal|]. intros _.
  apply runs_bcast_round. intros s w. apply bcast3_body. exact s.
Qed.

Lemma dgclibcast4_runs fd to : runs_to (dgclibcast4 fd to) (conv show_from any_number is_sin set_risk fd to).
Proof.
  apply (runs_setup (fun _ => show_from)); [apply bcast_setup_quiet|]. intros _.
  do 3 (apply (runs_setup (fun _ => show_from)); [apply quietly_sigset|]; intros _).
  apply (runs_setup (fun _ => show_from)); [apply quietly_Signal|]. intros _.
  apply (runs_rounds (fun _ => show_from)). intros w.
  apply runs_replied_quiet; [apply quietly_sigset|]. intros _ w1.
  apply runs_replied_quiet; [by apply quietly_kernel|]. intros _ w2.
  apply runs_replies; [done|]. intros s w3. apply bcast4_body; [exact s|done].
Qed.

Lemma dgclibcast5_runs fd to : runs_to (dgclibcast5 fd to) (conv show_from any_number is_sin no_risk fd to).
Proof. apply dgclibcast1_runs. Qed.

(** The client with the pipe: it can also be unable to watch the pipe. *)
Definition piped (fd : Z) (to : list Z) (h : halt) (e : list event) : Prop :=
  ((h = Blocked \/ h = Exited 1) /\ quiet fd e) \/
  exists q a e', quiet fd q /\ e = q ++ (libc "pipe" [] [], a) :: e' /\
    conv show_from any_number is_sin (fun fd => set_risk fd \/ set_risk (byte_at (a_data a) 0)) fd to h e'.

Lemma dgclibcast6_runs fd to : runs_to (dgclibcast6 fd to) (piped fd to).
Proof.
  intros w. apply runs_bind. eapply runs_mono; [apply bcast_setup_quiet| |].
  - intros [] q Hq w1. eapply runs_wraps; [apply Pipe_wraps| | |].
    + left. rewrite app_nil_r. auto.
    + intros a rep _ Hrep. left. split; [auto|]. apply noise_app; [done|].
      apply quiet_cons; [done|auto with world].
    + intros a w2 _. set (x := normalise _ a).
      pose (risk := fun fd => set_risk fd \/ set_risk (byte_at (a_data x) 0)).
      eapply runs_mono; [apply (runs_setup (fun _ => show_from) any_number is_sin risk fd to (Signal SIGALRM recvfrom_alarm)
        (fun _ => while_fgets (fun line => Sendto fd (c_string line) to ;; kernel (CAlarm 5) ;;
           loop (dgclibcast6_body fd (byte_at (a_data x) 0)) ∅)))| |].
      * apply quietly_Signal.
      * intros _. apply runs_bcast_round. intros s w3. apply bcast6_body; unfold risk; auto.
      * intros [] e He. right. by exists q, x, e.
      * intros h e He. right. by exists q, x, e.
  - intros h e [Hh Hq]. left. auto.
Qed.

(** ** The senders of many datagrams *)

(** [n] copies of the datagram have been sent; all of the [ndg] when the
    program ends. *)
Definition floods (ndg : nat) (sendline : list Z) (fd : Z) (to : list Z) (h : halt) (e : list event) : Prop :=
  exists n, (n <= ndg)%nat /\ outgoing fd e = replicate n (sendline, to) /\ incoming fd e = [] /\
    displays e = [] /\ (h = Exited 0 -> n = ndg) /\ (h = Exited 0 \/ h = Exited 1 \/ h = Blocked).

Lemma sent_seg fd d to a :
  0 <= a_ret a -> seg fd [] [(d, to)] [] [] [(CSendto fd d to, a)].
Proof. intros H. unfold seg. cbn. by replace (_ && _) with true by lia. Qed.
Lemma unsent_quiet fd d to a : a_ret a < 0 -> quiet fd [(CSendto fd d to, a)].
Proof. intros H. unfold quiet, seg. cbn. by replace (_ && _) with false by lia. Qed.
(** A partial write of a datagram is reported as an error after it was sent. *)
Lemma Sendto_failed fd d to a rep :
  only is_report rep ->
  exists n, (n <= 1)%nat /\ seg fd [] (replicate n (d, to)) [] [] ((CSendto fd d to, a) :: rep).
Proof.
  intros Hrep. destruct (decide (0 <= a_ret a)).
  - exists 1%nat. split; [lia|]. apply (seg_quiet_r fd _ _ _ _ [_]); [by apply sent_seg|by apply noise_reports].
  - exists 0%nat. split; [lia|]. apply (noise_app fd [_]); [apply unsent_quiet; lia|by apply noise_reports].
Qed.

Lemma runs_send_loop ndg fd line to w :
  0 <= ndg -> runs (send_loop ndg fd line to) (fun _ e => floods (Z.to_nat ndg) line fd to (Exited 0) e)
    (floods (Z.to_nat ndg) line fd to) w.
Proof.
  intros Hn. apply (runs_loop _ (fun i e => 0 <= i <= ndg /\
    seg fd [] (replicate (Z.to_nat i) (line, to)) [] [] e)); [split; [lia|done]|].
  intros i evs w1 [Hi He]. destruct (i <? ndg) eqn:E; zbool.
  - assert (forall h e2 m, (m <= 1)%nat -> seg fd [] (replicate m (line, to)) [] [] e2 ->
      h = Exited 1 \/ h = Blocked -> floods (Z.to_nat ndg) line fd to h (evs ++ e2)) as Hstop.
    { intros h e2 m Hm He2 Hh. exists (Z.to_nat i + m)%nat. split; [lia|].
      destruct (seg_app _ _ _ _ _ _ _ _ _ _ _ He He2) as (_ & -> & -> & ->).
      rewrite replicate_add. split; [done|]. split; [done|]. split; [done|]. split; [|tauto].
      intros ->. by destruct Hh. }
    eapply runs_wraps; [apply Sendto_wraps| | |].
    + by apply (Hstop _ [] 0%nat); [lia| |right].
    + intros a rep _ Hrep. destruct (Sendto_failed fd line to (normalise (CSendto fd line to) a) rep Hrep) as (m & Hm & He2).
      apply (Hstop _ _ m); auto.
    + intros a w2 Hg. unfold returned in Hg. apply runs_ret. split; [simpl; lia|]. split; [lia|].
      replace (Z.to_nat (i + 1)) with (Z.to_nat i + 1)%nat by lia. rewrite replicate_add.
      apply (seg_app fd [] [] _ _ [] [] [] []); [done|]. apply sent_seg. lia.
  - apply runs_ret. rewrite app_nil_r. destruct He as (_ & H1 & H2 & H3). exists (Z.to_nat ndg).
    replace i with ndg in * by lia. split_and!; auto.
Qed.

Lemma floods_quiet ndg line fd to h q e :
  quiet fd q -> floods ndg line fd to h e -> floods ndg line fd to h (q ++ e).
Proof.
  intros (_ & Q1 & Q2 & Q3) (n & H1 & H2 & H3 & H4 & H5). exists n.
  by rewrite outgoing_app, incoming_app, displays_app, Q1, Q2, Q3.
Qed.

Lemma dgcliloop1_runs fd line to : runs_to (dgcliloop1 fd line to) (floods 2000 line fd to).
Proof. intros w. by apply (runs_send_loop NDG). Qed.

Lemma dgcliloop3_runs fd line to : runs_to (dgcliloop3 fd line to) (floods 2000 line fd to).
Proof.
  intros w. apply (runs_quietly fd).
  - by eapply quietly_wraps; [apply Setsockopt_wraps|].
  - intros _ q e. apply floods_quiet.
  - intros h q e. apply floods_quiet.
  - intros h e Hh (_ & H1 & H2 & H3). exists 0%nat. split; [lia|]. split_and!; try done; [|destruct Hh; auto].
    intros ->. by destruct Hh.
  - intros _ w1. by apply (runs_send_loop NDG).
Qed.

(** ** The main functions *)

Definition is_setup (c : call) : Prop :=
  match c with
  | CSocket _ _ _ | CConnect _ _ | CLibc _ _ _ | CFflush _ | CStderr _ | CSyslog _ _ => True
  | _ => False
  end.

(** How a client of [port] ends: with the usage message, before it has a
    socket, or as [R] says of its socket and the address it was given. *)
Definition udp_end (text : list Z) (port : Z) (argv : list (list Z))
    (R : Z -> list Z -> halt -> list event -> Prop) (h : halt) (evs : list event) : Prop :=
  match argv with
  | [_; addr] =>
      ((h = Blocked \/ h = Exited 1) /\ only is_setup evs) \/
      exists a bin e, inet_pton AF_INET addr = (1, Some bin, None) /\ 0 <= a_ret a /\
        evs = (CSocket AF_INET SOCK_DGRAM 0, a) :: e /\ R (a_ret a) (sockaddr_in port bin) h e
  | _ => h = Exited 1 /\ only is_report evs
  end.

Lemma reports_setup rep : only is_report rep -> only is_setup rep.
Proof. apply only_mono. by intros []. Qed.

Lemma runs_Inet_pton {B} addr (k : list Z -> M B) (Q : B -> list event -> Prop) (H : halt -> list event -> Prop) w :
  (forall rep, only is_report rep -> H (Exited 1) rep) ->
  (forall bin w', inet_pton AF_INET addr = (1, Some bin, None) -> runs (k bin) Q H w') ->
  runs (Inet_pton AF_INET addr ≫= k) Q H w.
Proof.
  intros HH HQ. apply runs_bind. pose proof (Inet_pton_spec AF_INET addr w) as Hp.
  destruct (inet_pton AF_INET addr) as [[n d] e] eqn:Ep.
  assert (e = None) as ->.
  { unfold inet_pton in Ep. cbn in Ep. destruct (inet_pton4 addr); by simplify_eq. }
  assert (runs (Inet_pton AF_INET addr)
    (fun bin e => e = [] /\ (n, d) = (1, Some bin)) (fun h e => h = Exited 1 /\ only is_report e) w) as Hrun.
  { unfold runs. unfold inet_pton in Ep. cbn in Ep. destruct (inet_pton4 addr) as [| |bin]; simplify_eq.
    1, 2: destruct Hp as [_ ->]; eexists; (split; [apply report_extends|]);
          split; [done|apply report_events_only].
    rewrite Hp. exists []. auto. }
  eapply runs_mono; [exact Hrun| |].
  - intros bin e [-> [= -> ->]] w2. by apply HQ.
  - intros h e [-> Hrep]. by apply HH.
Qed.

Lemma runs_udp_main text port client argv R w :
  (forall fd to, runs_to (client fd to) (R fd to)) ->
  runs (udp_main text port client argv) (fun _ _ => False) (udp_end text port argv R) w.
Proof.
  intros Hc. unfold udp_main, udp_end.
  destruct argv as [|p [|addr [|]]];
    try (apply (runs_fatal false); intros rep Hrep; done).
  apply runs_Inet_pton.
  { intros rep Hrep. left. split; [auto|]. by apply reports_setup. }
  intros bin w1 Hp. eapply runs_wraps; [apply Socket_wraps| | |].
  - left. split; [auto|done].
  - intros a rep _ Hrep. left. split; [auto|]. constructor; [done|by apply reports_setup].
  - intros a w2 Hg. apply runs_bind. eapply runs_mono; [apply Hc| |].
    + intros [] e He w3. apply runs_halted. right. rewrite app_nil_r. by eexists _, bin, e.
    + intros h e He. right. by eexists _, bin, e.
Qed.

(** The line of udpcli09. *)
Definition local_line (a : answer) : option (list Z) :=
  sa ← sin_of (map u8 (a_data a));
  Some (chars "local address " ++ text_of (sock_ntop sa (sockaddr_len (a_data a))) ++ newline).

Definition udpcli09_end (argv : list (list Z)) (h : halt) (evs : list event) : Prop :=
  match argv with
  | [_; addr] =>
      ((h = Blocked \/ h = Exited 1) /\ only is_setup evs) \/
      exists a b c bin, inet_pton AF_INET addr = (1, Some bin, None) /\
        let base := [(CSocket AF_INET SOCK_DGRAM 0, a);
                     (CConnect (a_ret a) (sockaddr_in SERV_PORT bin), b);
                     (libc "getsockname" [a_ret a] [], c)] in
        match local_line c with
        | Some line => h = Exited 0 /\ evs = base ++ [(CStdout line, ok 0)]
        | None => h = Undefined /\ evs = base
        end
  | _ => h = Exited 1 /\ only is_report evs
  end.

Lemma sock_ntop_sin l sa len : sin_of (map u8 l) = Some sa ->
  sock_ntop sa len = SrText (text_of (sock_ntop sa len)).
Proof. intros H. by apply (sock_ntop_text (Ans 0 0 [] l)). Qed.

Lemma udpcli09_runs argv w : runs (udpcli09 argv) (fun _ _ => False) (udpcli09_end argv) w.
Proof.
  unfold udpcli09, udpcli09_end. destruct argv as [|p [|addr [|]]];
    try (apply (runs_fatal false); intros rep Hrep; done).
  assert (forall h e, h = Blocked \/ h = Exited 1 -> only is_setup e ->
    udpcli09_end [p; addr] h e) as Hleft by (intros; by left).
  eapply runs_wraps; [apply Socket_wraps|by apply Hleft; auto| |].
  { intros a rep _ Hrep. apply Hleft; [auto|]. constructor; [done|by apply reports_setup]. }
  intros a w1 Hg. apply runs_Inet_pton.
  { intros rep Hrep. apply Hleft; [auto|]. constructor; [done|by apply reports_setup]. }
  intros bin w2 Hp. eapply runs_wraps; [apply Connect_wraps|apply Hleft; [auto|by repeat constructor]| |].
  { intros b rep _ Hrep. apply Hleft; [auto|]. do 2 (constructor; [done|]). by apply reports_setup. }
  intros b w3 _. eapply runs_wraps; [apply Getsockname_wraps|apply Hleft; [auto|by repeat constructor]| |].
  { intros c rep _ Hrep. apply Hleft; [auto|]. do 3 (constructor; [done|]). by apply reports_setup. }
  intros c0 w4 _. set (c := normalise _ c0).
  destruct (sin_of (map u8 (a_data c))) as [sa|] eqn:E.
  - apply (runs_or_undef _ sa); [done|]. unfold Sock_ntop. rewrite (sock_ntop_sin _ _ _ E). cbn [wrap_text].
    apply (runs_ext _ (output (CStdout (chars "local address " ++ text_of (sock_ntop sa (sockaddr_len (a_data c))) ++ newline)) ;; exit 0));
      [reflexivity|].
    apply runs_out; [done|]. intros w5. apply runs_halted. right.
    eexists _, _, c, bin. split; [done|]. unfold local_line. rewrite E. done.
  - eapply (runs_mono _ (fun _ _ => False) _ (fun h e => h = Undefined /\ e = []));
      [by apply (runs_none _ _ _ _ _ E)|done|].
    intros h e [-> ->]. right. eexists _, _, c, bin. split; [done|]. unfold local_line. by rewrite E.
Qed.


(** What the clients with a timer do not have is a way to tell a late reply
    from the reply to the current line: the reply to "a", which came after
    five seconds, is shown for "b". *)
Example late_reply :
  let '(r, w) := dgclitimeo1 3 (sockaddr_in 7 [127; 0; 0; 1]) (world0
    [data (chars "a" ++ [10]); ok 2; ok 0;
     data (chars "b" ++ [10]); ok 2; Ans 1 0 [3] []; data (chars "a" ++ [10]); ok 0; ok 0]) in
  r = Ret () /\ displays (trace w) = [chars "a" ++ [10]] /\
  outgoing 3 (trace w) = (fun s => (chars s ++ [10], sockaddr_in 7 [127; 0; 0; 1])) <$> ["a"; "b"]%string.
Proof. by vm_compute. Qed.

(** The replies that dgcliaddr refuses take the place of the right ones: the
    answer to the first line is read, and shown, after the second. *)
Definition other_host : list Z := sockaddr_in 7 [10; 0; 0; 1].
Definition the_host : list Z := sockaddr_in 7 [127; 0; 0; 1].
Example foreign_reply :
  let '(r, w) := dgcliaddr 3 the_host (world0
    [ok 1; data (chars "a" ++ [10]); ok 2; Ans 1 0 [120] other_host;
     data (chars "b" ++ [10]); ok 2; Ans 2 0 (chars "a" ++ [10]) the_host; ok 0; ok 0]) in
  r = Ret () /\
  displays (trace w) = [chars "reply from 10.0.0.1:7 (ignored)" ++ [10]; chars "a" ++ [10]].
Proof. by vm_compute. Qed.
