(* ===== verification/UdpServ.v ===== *)
(** * The UDP servers: lib/dg_echo.c, rtt/dg_echo.c, udpcliserv/ and udpservselect01.c

    The echo servers answer every datagram to its sender.  udpservselect01
    serves TCP and UDP at once: it forks for a connection, as the servers of
    TcpEcho.v do, and answers datagrams itself. *)

From S2P Require Import Prelude InetPton Unix ErrorLib Wrap ReadWrite TcpEcho TcpCli Udp.

(** ** lib/dg_echo.c

    [recvfrom] stores at most [clilen] bytes of the address and sets [len] to
    its whole length, which [sendto] then reads. *)
Definition echo_dgram (sockfd clilen : Z) : M unit :=
  a ← Recvfrom sockfd MAXLINE 0;
  if sockaddr_len (sender a) <=? clilen then Sendto sockfd (a_data a) (sender a)
  else undefined.
Definition dg_echo (sockfd clilen : Z) : M Empty_set :=
  loop (fun _ : unit => echo_dgram sockfd clilen ;; mret (inl ())) ().

(** rtt/dg_echo.c sends to [clilen] bytes of the object, whatever [recvfrom]
    has stored there: [cliaddr] is its contents. *)
Definition rtt_dg_echo (sockfd clilen : Z) (cliaddr : list Z) : M Empty_set :=
  loop (fun cliaddr : list Z =>
    a ← Recvfrom sockfd MAXLINE 0;
    let stored := take (Z.to_nat clilen) (sender a) in
    let cliaddr := stored ++ drop (length stored) cliaddr in
    Sendto sockfd (a_data a) cliaddr ;;
    mret (inl cliaddr)) cliaddr.

(** ** udpcliserv/dgecholoop1.c and dgecholoop2.c: datagrams are only counted

    [count] is a static [int]; the handler of SIGINT prints it. *)
Definition SIGINT : Z := 2.
Definition recvfrom_int : Z := 1.
Definition INT_MAX : Z := 2147483647.

Definition count_loop (sockfd : Z) (count : Z) : M Empty_set :=
  loop (fun count : Z =>
    Recvfrom sockfd MAXLINE 0 ;;
    if count <? INT_MAX then mret (inl (count + 1)) else undefined) count.
Definition dgecholoop1 (sockfd clilen : Z) : M Empty_set :=
  Signal SIGINT recvfrom_int ;; count_loop sockfd 0.
Definition dgecholoop2 (sockfd clilen : Z) : M Empty_set :=
  Signal SIGINT recvfrom_int ;;
  Setsockopt sockfd SOL_SOCKET SO_RCVBUF (int_bytes (220 * 1024)) ;;
  count_loop sockfd 0.
Definition recvfrom_int_handler (count signo : Z) : M Empty_set :=
  stdout (newline ++ chars "received " ++ fmt_d count ++ chars " datagrams" ++ newline) ;;
  exit 0.

(** ** udpcliserv/udpserv01.c, udpserv06.c and udpserv07.c *)

Definition udp_server (echo : Z -> Z -> M Empty_set) : M Empty_set :=
  sockfd ← Socket AF_INET SOCK_DGRAM 0;
  Bind sockfd (sockaddr_in SERV_PORT INADDR_ANY) ;;
  echo sockfd sizeof_sockaddr_in.
Definition udpserv01 : M Empty_set := udp_server dg_echo.
Definition udpserv06 : M Empty_set := udp_server dgecholoop1.
Definition udpserv07 : M Empty_set := udp_server dgecholoop2.

(** ** udpcliserv/udpservselect01.c *)

Definition SO_REUSEADDR : Z := 2.

Definition udpservselect01_tcp (listenfd : Z) : M unit :=
  a ← Accept listenfd;
  r ← serve str_echo listenfd (a_ret a);
  match (r : unit + Empty_set) with inl _ => mret () | inr x => Empty_set_rect (fun _ => M unit) x end.

Definition udpservselect01_body (listenfd udpfd : Z) (rset : gset Z) : M (gset Z + Empty_set) :=
  rset ← fd_set listenfd rset;
  rset ← fd_set udpfd rset;
  a ← kernel (CSelect (Z.max listenfd udpfd + 1) rset ∅ None);
  if a_ret a <? 0 then
    err ← get_errno;
    if err =? EINTR then mret (inl rset) else err_sys (chars "select error")
  else
    let rset : gset Z := list_to_set (a_data a) in
    (if fd_isset listenfd rset then udpservselect01_tcp listenfd else mret ()) ;;
    (if fd_isset udpfd rset then echo_dgram udpfd sizeof_sockaddr_in else mret ()) ;;
    mret (inl rset).

Definition udpservselect01 (sig_chld : Z) : M Empty_set :=
  listenfd ← Socket AF_INET SOCK_STREAM 0;
  Setsockopt listenfd SOL_SOCKET SO_REUSEADDR [1; 0; 0; 0] ;;
  Bind listenfd (sockaddr_in SERV_PORT INADDR_ANY) ;;
  Listen listenfd LISTENQ ;;
  udpfd ← Socket AF_INET SOCK_DGRAM 0;
  Bind udpfd (sockaddr_in SERV_PORT INADDR_ANY) ;;
  Signal SIGCHLD sig_chld ;;
  loop (udpservselect01_body listenfd udpfd) ∅.


(** ** Echoes *)

(** Datagrams go back as they came, at most the last one is still held. *)
Definition echoes (fd : Z) (e : list event) : Prop :=
  outgoing fd e `prefix_of` incoming fd e /\ (length (incoming fd e) <= length (outgoing fd e) + 1)%nat.

(** The ends of a server: stopped or reported, or an address longer than its object. *)
Definition echo_stops (fd clilen : Z) (h : halt) (e : list event) : Prop :=
  h = Blocked \/ h = Exited 1 \/
  h = Undefined /\ exists x, x ∈ incoming fd e /\ clilen < sockaddr_len x.2.

Lemma dgram_neutral e : only dgram_call e -> only neutral e.
Proof. apply only_mono. by intros []. Qed.

Definition echo_one (fd : Z) (e : list event) : Prop :=
  (0 < waits e)%nat /\ only dgram_call e /\ exists x, seg fd [] [x] [x] [] e.
Definition echo_cut (fd clilen : Z) (h : halt) (e : list event) : Prop :=
  echo_stops fd clilen h e /\ only dgram_call e /\
  exists out inc, seg fd [] out inc [] e /\ out `prefix_of` inc /\ (length inc <= 1)%nat.

(** One datagram sent, in full or not. *)
Lemma runs_bounce fd d to w :
  runs (Sendto fd d to)
    (fun _ e => (0 < waits e)%nat /\ only dgram_call e /\ seg fd [] [(d, to)] [] [] e)
    (fun h e => (h = Blocked \/ h = Exited 1) /\ only dgram_call e /\
       exists m, (m <= 1)%nat /\ seg fd [] (replicate m (d, to)) [] [] e) w.
Proof.
  eapply runs_wraps_ret; [apply Sendto_wraps| | |].
  - split; [auto|]. split; [done|]. by exists 0%nat; split; [lia|].
  - intros a rep _ Hrep. split; [auto|]. split; [constructor; [done|by apply reports_dgram]|].
    by apply Sendto_failed.
  - intros a Hg. unfold returned in Hg. split; [simpl; lia|]. split; [by repeat constructor|].
    apply sent_seg. lia.
Qed.

Lemma seg_reply fd x o e1 e2 :
  seg fd [] [] [x] [] e1 -> seg fd [] o [] [] e2 -> seg fd [] o [x] [] (e1 ++ e2).
Proof. apply (seg_app fd [] [] [] o [x] [] [] []). Qed.

Lemma replicate_prefix {A} m (x : A) : (m <= 1)%nat -> replicate m x `prefix_of` [x].
Proof. destruct m as [|[|]]; intros; [apply prefix_nil|done|lia]. Qed.

Lemma runs_echo_dgram fd clilen w :
  runs (echo_dgram fd clilen) (fun _ e => echo_one fd e) (echo_cut fd clilen) w.
Proof.
  unfold echo_dgram. apply runs_arrival.
  - intros h e Hh Hq He. split; [destruct Hh; [by left|by right; left]|]. split; [done|].
    exists [], []. split; [exact Hq|]. split; [done|simpl; lia].
  - intros x w1 _ Hx. destruct (_ <=? _) eqn:El; zbool.
    + eapply runs_mono; [apply runs_bounce| |].
      * intros [] e (Hw & Ho & He). split; [simpl; lia|]. split; [constructor; [done|exact Ho]|].
        exists (a_data x, sender x). by apply seg_reply.
      * intros h e (Hh & Ho & m & Hm & He). split; [destruct Hh; [by left|by right; left]|].
        split; [constructor; [done|exact Ho]|]. exists (replicate m (a_data x, sender x)), [(a_data x, sender x)].
        split; [by apply seg_reply|]. split; [by apply replicate_prefix|simpl; lia].
    + apply runs_halted. rewrite app_nil_r. split; [right; right; split; [done|]|].
      { rewrite (proj1 (proj2 (proj2 Hx))). exists (a_data x, sender x).
        split; [by apply list_elem_of_here|done]. }
      split; [by constructor|]. eexists [], _. split; [exact Hx|]. split; [apply prefix_nil|simpl; lia].
Qed.

(** ** The server loops *)

Definition echoing_to (fd clilen : Z) (h : halt) (e : list event) : Prop :=
  echo_stops fd clilen h e /\ only dgram_call e /\ echoes fd e.

Lemma echo_stops_app fd clilen h e1 e2 : echo_stops fd clilen h e2 -> echo_stops fd clilen h (e1 ++ e2).
Proof.
  intros [?|[?|[? (x & Hx & Hl)]]]; [by left|by right; left|]. right. right. split; [done|].
  exists x. split; [|done]. rewrite incoming_app. by apply elem_of_app; right.
Qed.

Lemma echoes_app fd e1 e2 out inc :
  outgoing fd e1 = incoming fd e1 -> seg fd [] out inc [] e2 -> out `prefix_of` inc -> (length inc <= 1)%nat ->
  echoes fd (e1 ++ e2).
Proof.
  intros H1 (_ & H2 & H3 & _) Hp Hl. unfold echoes. rewrite outgoing_app, incoming_app, H1, H2, H3, !length_app.
  split; [by apply prefix_app|lia].
Qed.

Lemma runs_dg_echo fd clilen w :
  runs (dg_echo fd clilen) (fun _ _ => False) (echoing_to fd clilen) w.
Proof.
  apply (runs_loop _ (fun _ e => only dgram_call e /\ outgoing fd e = incoming fd e)); [done|].
  intros [] e w1 [Ho He]. apply runs_bind. eapply runs_mono; [apply runs_echo_dgram| |].
  - intros [] e2 (Hw & Ho2 & x & _ & H2 & H3 & _) w2. apply runs_ret. rewrite app_nil_r.
    split; [done|]. split; [by apply only_app|]. by rewrite outgoing_app, incoming_app, He, H2, H3.
  - intros h e2 (Hs & Ho2 & out & inc & Hseg & Hp & Hl). split; [by apply echo_stops_app|].
    split; [by apply only_app|]. by eapply echoes_app.
Qed.

(** The version of rtt: to the sender if every address has the size of the object. *)
Definition echoes_if (fd clilen : Z) (e : list event) : Prop :=
  Forall (fun x => sockaddr_len x.2 = clilen) (incoming fd e) -> echoes fd e.

Lemma runs_rtt_dg_echo fd clilen cliaddr w :
  sockaddr_len cliaddr = clilen ->
  runs (rtt_dg_echo fd clilen cliaddr) (fun _ _ => False)
    (fun h e => (h = Blocked \/ h = Exited 1) /\ only dgram_call e /\
       (outgoing fd e).*1 `prefix_of` (incoming fd e).*1 /\ echoes_if fd clilen e) w.
Proof.
  intros Hlen. apply (runs_loop _ (fun cli e => sockaddr_len cli = clilen /\ only dgram_call e /\
    (outgoing fd e).*1 = (incoming fd e).*1 /\
    (Forall (fun x => sockaddr_len x.2 = clilen) (incoming fd e) -> outgoing fd e = incoming fd e))).
  { done. }
  intros cli e w1 (Hl & Ho & H1 & H2). apply runs_arrival.
  - intros h e2 Hh (_ & Q1 & Q2 & _) Hd. split; [done|]. split; [by apply only_app|].
    unfold echoes_if, echoes. rewrite outgoing_app, incoming_app, Q1, Q2, !app_nil_r, H1.
    split; [done|]. intros Hf. rewrite (H2 Hf). split; [done|lia].
  - intros x w2 _ (_ & X1 & X2 & _). cbv zeta.
    set (st := take (Z.to_nat clilen) (sender x)). set (cli' := st ++ drop (length st) cli).
    assert (sockaddr_len cli' = clilen) as Hl'.
    { unfold sockaddr_len in *. unfold cli', st. rewrite length_app, length_drop, length_take. lia. }
    assert (sockaddr_len (sender x) = clilen -> cli' = sender x) as Hsame.
    { unfold sockaddr_len in *. intros Hs. unfold cli', st. rewrite take_ge by lia.
      rewrite drop_ge by lia. apply app_nil_r. }
    apply runs_bind. eapply runs_mono; [apply runs_bounce| |].
    + intros [] e2 (Hw & Hd & _ & B1 & B2 & _) w3. apply runs_ret. rewrite app_nil_r.
      split; [simpl; lia|]. split; [done|]. split; [apply only_app; split; [done|by constructor]|].
      rewrite !outgoing_app, !incoming_app, X1, X2, B1, B2, app_nil_r, !fmap_app, H1. split; [done|].
      rewrite Forall_app, Forall_singleton. cbn [snd]. intros [Hf Hx]. by rewrite (H2 Hf), (Hsame Hx).
    + intros h e2 (Hh & Hd & m & Hm & _ & B1 & B2 & _). split; [done|].
      split; [apply only_app; split; [done|by constructor]|]. unfold echoes_if, echoes.
      rewrite !outgoing_app, !incoming_app, X1, X2, B1, B2, app_nil_r, !fmap_app, H1, !length_app.
      cbn [app fmap list_fmap length fst]. split.
      * apply prefix_app. rewrite fmap_replicate. by apply replicate_prefix.
      * rewrite Forall_app, Forall_singleton. cbn [snd]. intros [Hf Hx].
        rewrite (H2 Hf), (Hsame Hx), length_replicate. split; [by apply prefix_app, replicate_prefix|lia].
Qed.

(** The counting servers: nothing is sent, and the counter cannot overflow
    before its two thousand millionth datagram. *)
Definition counting (count fd : Z) (h : halt) (e : list event) : Prop :=
  only dgram_call e /\ outgoing fd e = [] /\
  let n := count + Z.of_nat (length (incoming fd e)) in
  (h = Blocked \/ h = Exited 1) /\ n <= INT_MAX \/ h = Undefined /\ n = INT_MAX + 1.

Lemma runs_count_loop fd count w :
  count <= INT_MAX -> runs (count_loop fd count) (fun _ _ => False) (counting count fd) w.
Proof.
  intros Hc. apply (runs_loop _ (fun n e => n <= INT_MAX /\ only dgram_call e /\
    n = count + Z.of_nat (length (incoming fd e)) /\ outgoing fd e = [])); [split_and!; simpl; try done; lia|].
  intros n e w1 (Hn & Ho & He & Hout). apply runs_arrival.
  - intros h q Hh (_ & Q1 & Q2 & _) Hd. split; [by apply only_app|].
    rewrite outgoing_app, incoming_app, Hout, Q1, Q2, !app_nil_r. split; [done|]. left. split; [done|cbv zeta; lia].
  - intros x w2 _ (_ & X1 & X2 & _). set (ev := (CRecvfrom fd MAXLINE 0, x)) in *.
    assert (only dgram_call (e ++ [ev])) as Hd by (apply only_app; by split; [|repeat constructor]).
    destruct (_ <? _) eqn:E; zbool; [apply runs_ret|apply runs_halted]; rewrite app_nil_r.
    + split; [simpl; lia|]. split; [lia|]. split; [done|].
      rewrite outgoing_app, incoming_app, Hout, X1, X2, length_app. simpl. split; [lia|done].
    + split; [done|]. rewrite outgoing_app, incoming_app, Hout, X1, X2, length_app. split; [done|].
      right. split; [done|]. simpl. lia.
Qed.

Lemma runs_dgecholoop fd clilen w :
  runs (dgecholoop1 fd clilen) (fun _ _ => False)
    (fun h e => (h = Blocked \/ h = Exited 1) /\ only is_setup e \/
       exists e1 e2, e = e1 ++ e2 /\ only is_setup e1 /\ counting 0 fd h e2) w /\
  runs (dgecholoop2 fd clilen) (fun _ _ => False)
    (fun h e => (h = Blocked \/ h = Exited 1) /\ quiet fd e \/
       exists e1 e2, e = e1 ++ e2 /\ quiet fd e1 /\ counting 0 fd h e2) w.
Proof.
  split.
  - eapply runs_wraps; [apply Signal_wraps|left; auto| |].
    + intros a rep _ Hrep. left. split; [auto|]. constructor; [done|by apply reports_setup].
    + intros a w1 _. eapply runs_mono; [by apply runs_count_loop|done|].
      intros h e He. right. eexists [_], e. split; [reflexivity|]. split; [by repeat constructor|done].
  - apply runs_bind. eapply runs_mono; [apply (quietly_Signal fd)| |].
    + intros ? q Hq w1. apply runs_bind.
      eapply runs_mono; [eapply (quietly_wraps fd); [apply Setsockopt_wraps|done]| |].
      * intros [] q2 Hq2 w2. eapply runs_mono; [by apply runs_count_loop|done|].
        intros h e He. right. exists (q ++ q2), e. rewrite app_assoc. auto with world.
      * intros h q2 [Hh Hq2]. left. auto with world.
    + intros h q [Hh Hq]. by left.
Qed.

(** ** The main functions of the UDP servers *)

Definition udpserv_end (R : Z -> halt -> list event -> Prop) (h : halt) (e : list event) : Prop :=
  ((h = Blocked \/ h = Exited 1) /\
     only (fun c => match c with CSocket _ _ _ | CBind _ _ => True | _ => is_report c end) e) \/
  exists a b e', 0 <= a_ret a /\
    e = [(CSocket AF_INET SOCK_DGRAM 0, a); (CBind (a_ret a) (sockaddr_in SERV_PORT INADDR_ANY), b)] ++ e' /\
    R (a_ret a) h e'.

Lemma runs_udp_server echo R w :
  (forall fd w, runs (echo fd sizeof_sockaddr_in) (fun _ _ => False) (R fd) w) ->
  runs (udp_server echo) (fun _ _ => False) (udpserv_end R) w.
Proof.
  intros Hr. unfold udp_server.
  assert (forall rep, only is_report rep ->
    only (fun c => match c with CSocket _ _ _ | CBind _ _ => True | _ => is_report c end) rep) as Hrep0
    by (intros rep; apply only_mono; by intros []).
  eapply runs_wraps; [apply Socket_wraps|left; auto| |].
  { intros a rep _ Hrep. left. split; [auto|]. constructor; [done|by apply Hrep0]. }
  intros a w1 Hg. unfold succeeded in Hg.
  eapply runs_wraps; [apply Bind_wraps|left; split; [auto|by repeat constructor]| |].
  { intros b rep _ Hrep. left. split; [auto|]. do 2 (constructor; [done|]). by apply Hrep0. }
  intros b w2 _. eapply runs_mono; [apply Hr|done|]. intros h e He. right. eexists _, _, e. done.
Qed.

(** ** udpservselect01 *)

(** The events of the parent: those before a [fork] that returned 0. *)
Fixpoint until_fork (evs : list event) : list event :=
  match evs with
  | [] => []
  | (c, a) :: evs' =>
      match c with
      | CFork => if a_ret a =? 0 then [] else (c, a) :: until_fork evs'
      | _ => (c, a) :: until_fork evs'
      end
  end.

Lemma until_fork_app a b : is_parent a -> until_fork (a ++ b) = a ++ until_fork b.
Proof.
  induction 1 as [|[c x] a Hc _ IH]; [done|]. destruct c; simpl; rewrite ?IH; try done.
  cbn in Hc. specialize (Hc eq_refl). by replace (a_ret x =? 0) with false by lia.
Qed.
Lemma until_fork_parent a : is_parent a -> until_fork a = a.
Proof. intros H. rewrite <- (app_nil_r a), (until_fork_app a []) by done. done. Qed.

(** What a process of the server has done when it stops: as the forking
    servers for TCP; the parent has echoed every datagram; undefined
    behaviour of the parent has one of two causes. *)
Definition select_end (l u : Z) (h : halt) (e : list event) : Prop :=
  server_end echoed echo_part l h e /\ echoes u (until_fork e) /\
  (h = Undefined -> is_parent e -> set_risk l \/ set_risk u \/
     exists x, x ∈ incoming u e /\ sizeof_sockaddr_in < sockaddr_len x.2).

Definition select_inv (u : Z) (e : list event) : Prop := parent_inv e /\ outgoing u e = incoming u e.

(** Calls of the parent that are no datagrams. *)
Definition parent_call (c : call) : Prop :=
  match c with
  | CSelect _ _ _ _ | CAccept _ | CFork | CClose _ => True
  | _ => is_report c
  end.
Lemma parent_call_quiet u e : only parent_call e -> quiet u e.
Proof. intros H. apply only_silent. refine (only_mono _ _ _ _ H). by intros []. Qed.
Lemma reports_parent_call e : only is_report e -> only parent_call e.
Proof. apply only_mono. by intros []. Qed.
Lemma until_fork_only P e : only P e -> only P (until_fork e).
Proof.
  induction 1 as [|[c a] e Hc _ IH]; [done|]. destruct c; simpl; try (by constructor).
  destruct (_ =? _); [done|by constructor].
Qed.

Lemma runs_serve_parent l conn w :
  runs (serve str_echo l conn)
    (fun r e => match r with inl _ => only parent_call e | inr _ => False end)
    (fun h e => only parent_call (until_fork e) /\ (h = Undefined -> ~ is_parent e)) w.
Proof.
  unfold serve. eapply runs_wraps; [apply Fork_wraps|done| |].
  - intros a rep _ Hrep. split; [|done]. apply until_fork_only.
    constructor; [done|by apply reports_parent_call].
  - intros a w1 _. set (f := normalise CFork a). destruct (a_ret f =? 0) eqn:E.
    + eapply runs_mono; [|intros r e; exact (False_ind _)|].
      2:{ intros h e _. cbn [until_fork]. rewrite E. split; [done|]. intros _ Hp.
          inversion_clear Hp as [|? ? Hf _]. cbn in Hf. specialize (Hf eq_refl). lia. }
      eapply (runs_wraps _ _ _ _ _ _ _ _ (fun _ _ => False) (fun _ _ => True)); [apply Close_wraps|done|done|].
      intros x w2 _. apply runs_bind. eapply runs_mono; [apply str_echo_spec| |done].
      intros [] e _ w3. by apply runs_halted.
    + eapply runs_wraps; [apply Close_wraps| | |].
      * cbn [until_fork]. rewrite E. split; [by repeat constructor|done].
      * intros x rep _ Hrep. split; [|done]. apply until_fork_only.
        do 2 (constructor; [done|]). by apply reports_parent_call.
      * intros x w2 _. apply runs_ret. by repeat constructor.
Qed.

Section Select.
Context (l u : Z).

Lemma select_stop h evs e :
  select_inv u evs -> h = Blocked \/ h = Exited 1 -> only parent_call e ->
  accepted e = [] -> closed e = [] -> is_parent e -> select_end l u h (evs ++ e).
Proof.
  intros [Hp Hu] Hh Hq H1 H2 H3. split; [|split].
  - apply parent_blocked; try done. destruct Hh; congruence.
  - rewrite until_fork_parent by (apply is_parent_app; split; [apply Hp|done]).
    destruct (parent_call_quiet u e Hq) as (_ & Q1 & Q2 & _).
    unfold echoes. rewrite outgoing_app, incoming_app, Q1, Q2, !app_nil_r, Hu. split; [done|lia].
  - intros ->. by destruct Hh.
Qed.

Lemma select_stop_neutral h evs e :
  select_inv u evs -> h = Blocked \/ h = Exited 1 -> only parent_call e -> only neutral e ->
  select_end l u h (evs ++ e).
Proof. intros Hi Hh Hq Hn. destruct (neutral_events e Hn) as (H1 & H2 & H3). by apply select_stop. Qed.

Lemma aborted_parent e : Forall (aborted l) e -> only parent_call e.
Proof. intros H. refine (Forall_impl _ _ _ H _). intros [c a] (Hc & _). cbn in *. by subst c. Qed.

Lemma runs_tcp evs w :
  select_inv u evs ->
  runs (udpservselect01_tcp l) (fun _ e => select_inv u (evs ++ e))
    (fun h e => select_end l u h (evs ++ e)) w.
Proof.
  intros Hi. pose proof Hi as [Hp Hu]. unfold udpservselect01_tcp. apply runs_bind, runs_Accept.
  - intros e He. destruct (aborted_events _ _ He) as (?&?&?).
    apply select_stop; auto. by apply aborted_parent.
  - intros a e rep He Hr Hrep. destruct (aborted_events _ _ He) as (H1&H2&H3).
    destruct (neutral_events rep (reports_neutral _ Hrep)) as (H4 & H5 & H6).
    apply select_stop; auto.
    + rewrite !only_app. split; [split; [by apply aborted_parent|by repeat constructor]|].
      by apply reports_parent_call.
    + rewrite !accepted_app, H1, H4. simpl. by rewrite Hr.
    + by rewrite !closed_app, H2, H5.
    + rewrite !is_parent_app. split_and!; try done. by repeat constructor.
  - intros a e He Hr w2. destruct (aborted_events _ _ He) as (H1&H2&H3). apply runs_bind.
    set (e1 := e ++ [(CAccept l, a)]).
    assert (only parent_call e1) as He1
      by (apply only_app; split; [by apply aborted_parent|by repeat constructor]).
    assert (is_parent (evs ++ e1)) as Hp1.
    { unfold e1. rewrite !is_parent_app. split_and!; [apply Hp|done|by repeat constructor]. }
    eapply runs_mono; [apply (runs_conj _ _ _ _ _ _
      (runs_serve_after str_echo echoed echo_part str_echo_spec l evs e a w2 Hp H1 H2 H3 Hr)
      (runs_serve_parent l (a_ret a) w2))| |].
    + intros [[]|[]] e2 [[_ Hinv] Ho] w3. apply runs_ret. rewrite app_nil_r. split; [done|].
      destruct (parent_call_quiet u e1 He1) as (_ & Q1 & Q2 & _).
      destruct (parent_call_quiet u e2 Ho) as (_ & Q3 & Q4 & _).
      by rewrite !outgoing_app, !incoming_app, Q1, Q2, Q3, Q4, Hu.
    + intros h e2 [Hend [Ho Hun]]. split; [exact Hend|]. split.
      * rewrite app_assoc, until_fork_app by done.
        destruct (parent_call_quiet u e1 He1) as (_ & Q1 & Q2 & _).
        destruct (parent_call_quiet u (until_fork e2) Ho) as (_ & Q3 & Q4 & _).
        unfold echoes. rewrite !outgoing_app, !incoming_app, Q1, Q2, Q3, Q4, !app_nil_r, Hu. split; [done|lia].
      * intros Hh. rewrite app_assoc, is_parent_app. intros [_ Hpe]. by destruct (Hun Hh).
Qed.

Lemma runs_udp evs w :
  select_inv u evs ->
  runs (echo_dgram u sizeof_sockaddr_in) (fun _ e => select_inv u (evs ++ e))
    (fun h e => select_end l u h (evs ++ e)) w.
Proof.
  intros [Hp Hu]. eapply runs_mono; [apply runs_echo_dgram| |].
  - intros [] e (_ & Ho & x & _ & H1 & H2 & _).
    destruct (neutral_events e (dgram_neutral _ Ho)) as (H3 & H4 & H5). split; [split|].
    + apply is_parent_app. split; [apply Hp|done].
    + rewrite accepted_app, closed_app, H3, H4, (proj2 Hp). done.
    + by rewrite outgoing_app, incoming_app, H1, H2, Hu.
  - intros h e (Hs & Ho & out & inc & Hseg & Hpre & Hl).
    destruct (neutral_events e (dgram_neutral _ Ho)) as (H3 & H4 & H5). split; [|split].
    + apply parent_blocked; try done. destruct Hs as [->|[->|[-> _]]]; congruence.
    + rewrite until_fork_parent by (apply is_parent_app; split; [apply Hp|done]).
      by eapply echoes_app.
    + intros -> _. destruct Hs as [?|[?|[_ (x & Hx & Hlx)]]]; [done|done|]. right. right.
      exists x. split; [|done]. rewrite incoming_app. by apply elem_of_app; right.
Qed.

Lemma runs_fd_set_select {A} g s (k : gset Z -> M A) (Q : A -> list event -> Prop) evs w :
  select_inv u evs -> (g = l \/ g = u) ->
  (forall s w, runs (k s) Q (fun h e => select_end l u h (evs ++ e)) w) ->
  runs (s ← fd_set g s; k s) Q (fun h e => select_end l u h (evs ++ e)) w.
Proof.
  intros [Hp Hu] Hg Hk. unfold fd_set. destruct (_ && _) eqn:E; [apply Hk|].
  apply (runs_halted Undefined). split; [|split].
  - apply parent_blocked; try done. constructor.
  - rewrite app_nil_r, until_fork_parent by apply Hp. unfold echoes. rewrite Hu. split; [done|lia].
  - intros _ _. unfold set_risk. destruct Hg as [->| ->]; [left|right; left]; lia.
Qed.

Lemma runs_udpservselect01_body evs rset w :
  select_inv u evs ->
  runs (udpservselect01_body l u rset)
    (fun r e => match r with inl _ => (0 < waits e)%nat /\ select_inv u (evs ++ e) | inr _ => False end)
    (fun h e => select_end l u h (evs ++ e)) w.
Proof.
  intros Hi. unfold udpservselect01_body.
  apply runs_fd_set_select; [done|auto|]. intros rset1 w1.
  apply runs_fd_set_select; [done|auto|]. intros rset2 w2.
  apply runs_call; [done|apply select_stop_neutral; auto|]. intros a0 w3 a _.
  set (ev := (CSelect _ _ _ _, a)).
  assert (select_inv u (evs ++ [ev])) as Hi1.
  { destruct Hi as [Hp Hu]. split; [split|].
    - apply is_parent_app. split; [apply Hp|by repeat constructor].
    - by rewrite accepted_app, closed_app, (proj2 Hp).
    - rewrite outgoing_app, incoming_app, Hu. done. }
  destruct (a_ret a <? 0).
  { apply runs_get_errno. destruct (_ =? _).
    - apply runs_ret. split; [simpl; lia|done].
    - apply runs_err_sys. intros rep Hrep. apply select_stop_neutral; auto.
      + constructor; [done|by apply reports_parent_call].
      + constructor; [done|by apply reports_neutral]. }
  set (ready := list_to_set (a_data a) : gset Z). apply runs_bind.
  eapply (runs_mono _ (fun _ e => select_inv u ((evs ++ [ev]) ++ e)) _
    (fun h e => select_end l u h ((evs ++ [ev]) ++ e))).
  - destruct (fd_isset l ready); [by apply runs_tcp|]. apply runs_ret. by rewrite app_nil_r.
  - intros [] e1 Hi2 w4. apply runs_bind.
    eapply (runs_mono _ (fun _ e => select_inv u (((evs ++ [ev]) ++ e1) ++ e)) _
      (fun h e => select_end l u h (((evs ++ [ev]) ++ e1) ++ e))).
    + destruct (fd_isset u ready); [by apply runs_udp|]. apply runs_ret. by rewrite app_nil_r.
    + intros [] e2 Hi3 w5. apply runs_ret. split; [simpl; lia|]. by rewrite app_nil_r, <- !app_assoc in *.
    + intros h e2 He. by rewrite <- !app_assoc in *.
  - intros h e1 He. by rewrite <- !app_assoc in *.
Qed.
End Select.

(** The set-up: two sockets on the same port. *)
Definition select_setup (l u : Z) (evs : list event) : Prop :=
  only neutral evs /\ only silent evs /\
  exists a b, (CSocket AF_INET SOCK_STREAM 0, a) ∈ evs /\ (CSocket AF_INET SOCK_DGRAM 0, b) ∈ evs /\
    l = a_ret a /\ u = a_ret b /\ 0 <= l /\ 0 <= u.

Definition select_main_end (h : halt) (e : list event) : Prop :=
  ((h = Blocked \/ h = Exited 1) /\ only neutral e) \/
  exists l u e1 e2, select_setup l u e1 /\ e = e1 ++ e2 /\ select_end l u h e.

Lemma runs_udpservselect01 sig_chld w :
  runs (udpservselect01 sig_chld) (fun _ _ => False) select_main_end w.
Proof.
  unfold udpservselect01.
  assert (forall h e, h = Blocked \/ h = Exited 1 -> only neutral e -> select_main_end h e) as Hleft by (by left).
  eapply runs_wraps; [apply Socket_wraps|apply Hleft; auto| |].
  { intros a rep _ Hrep. apply Hleft; [auto|]. constructor; [done|by apply reports_neutral]. }
  intros a w1 Ha. unfold succeeded in Ha.
  eapply runs_wraps; [apply Setsockopt_wraps|apply Hleft; [auto|by repeat constructor]| |].
  { intros b rep _ Hrep. apply Hleft; [auto|]. do 2 (constructor; [done|]). by apply reports_neutral. }
  intros b w2 _.
  eapply runs_wraps; [apply Bind_wraps|apply Hleft; [auto|by repeat constructor]| |].
  { intros c rep _ Hrep. apply Hleft; [auto|]. do 3 (constructor; [done|]). by apply reports_neutral. }
  intros c w3 _. apply runs_bind, runs_Listen.
  { apply Hleft; [auto|by repeat constructor]. }
  { intros d. apply Hleft; [auto|by repeat constructor]. }
  { intros d n x rep Hrep. apply Hleft; [auto|]. do 5 (constructor; [done|]). by apply reports_neutral. }
  intros d n x w4.
  eapply runs_wraps; [apply Socket_wraps|apply Hleft; [auto|by repeat constructor]| |].
  { intros f rep _ Hrep. apply Hleft; [auto|]. cbn [app]. do 6 (constructor; [done|]). by apply reports_neutral. }
  intros f w5 Hf. unfold succeeded in Hf.
  eapply runs_wraps; [apply Bind_wraps|apply Hleft; [auto|by repeat constructor]| |].
  { intros g rep _ Hrep. apply Hleft; [auto|]. cbn [app]. do 7 (constructor; [done|]). by apply reports_neutral. }
  intros g w6 _.
  eapply runs_wraps; [apply Signal_wraps|apply Hleft; [auto|by repeat constructor]| |].
  { intros i rep _ Hrep. apply Hleft; [auto|]. cbn [app]. do 8 (constructor; [done|]). by apply reports_neutral. }
  intros i w7 _. cbn [app].
  set (l := a_ret (normalise _ a)) in *. set (u := a_ret (normalise _ f)) in *.
  match goal with |- runs _ _ (fun h e => _ h (?e0 :: ?e1 :: ?e2 :: ?e3 :: ?e4 :: ?e5 :: ?e6 :: ?e7 :: e)) _ =>
    set (es := [e0; e1; e2; e3; e4; e5; e6; e7]);
    assert (select_setup l u es) as Hset end.
  { split; [by repeat constructor|]. split; [by repeat constructor|]. do 2 eexists.
    split; [by apply list_elem_of_here|]. split; [do 5 apply list_elem_of_further; by apply list_elem_of_here|]. done. }
  assert (select_inv u es) as Hi by (split; [by apply neutral_inv, Hset|done]).
  eapply runs_mono; [apply (runs_loop _ (fun _ e => select_inv u (es ++ e))
    (fun _ _ => False) (fun h e => select_end l u h (es ++ e)))| |].
  - by rewrite app_nil_r.
  - intros rset e w8 Hi2. eapply runs_mono; [by apply (runs_udpservselect01_body l u (es ++ e))| |].
    + intros [s|[]] e2 [Hw Hi3]. split; [done|]. by rewrite app_assoc.
    + intros h e2 He. by rewrite app_assoc.
  - done.
  - intros h e He. right. exists l, u, es, e. done.
Qed.

(** C32: every UDP server answers its datagrams.  dg_echo sends each datagram
    back, unchanged, to the address it came from, one before it takes the
    next, and never ends by itself; it reads beyond its address only if one is
    longer than the object.  The version of rtt does the same when every
    address fills the object, and otherwise still returns the right bytes.
    The counting servers send nothing and count correctly up to INT_MAX.
    udpservselect01 does both of its jobs: for TCP its processes end as those
    of the forking servers (at most one connection open in the parent, a child
    serves only its own to the end), for UDP its parent has echoed every
    datagram it took but perhaps the last; undefined behaviour comes only from
    descriptors that [FD_SET] cannot take or an overlong address. *)
Theorem udp_servers_correct sig_chld fd clilen cliaddr w (Hlen : sockaddr_len cliaddr = clilen) :
  runs (dg_echo fd clilen) (fun _ _ => False) (echoing_to fd clilen) w /\
  runs (rtt_dg_echo fd clilen cliaddr) (fun _ _ => False)
    (fun h e => (h = Blocked \/ h = Exited 1) /\ only dgram_call e /\
       (outgoing fd e).*1 `prefix_of` (incoming fd e).*1 /\ echoes_if fd clilen e) w /\
  runs udpserv01 (fun _ _ => False)
    (udpserv_end (fun fd => echoing_to fd sizeof_sockaddr_in)) w /\
  runs udpserv06 (fun _ _ => False)
    (udpserv_end (fun fd h e => (h = Blocked \/ h = Exited 1) /\ only is_setup e \/
       exists e1 e2, e = e1 ++ e2 /\ only is_setup e1 /\ counting 0 fd h e2)) w /\
  runs udpserv07 (fun _ _ => False)
    (udpserv_end (fun fd h e => (h = Blocked \/ h = Exited 1) /\ quiet fd e \/
       exists e1 e2, e = e1 ++ e2 /\ quiet fd e1 /\ counting 0 fd h e2)) w /\
  runs (udpservselect01 sig_chld) (fun _ _ => False) select_main_end w.
Proof.
  split_and!.
  - apply runs_dg_echo.
  - by apply runs_rtt_dg_echo.
  - apply runs_udp_server. intros. apply runs_dg_echo.
  - apply runs_udp_server. intros. apply runs_dgecholoop; exact 0.
  - apply runs_udp_server. intros. apply runs_dgecholoop; exact 0.
  - apply runs_udpservselect01.
Qed.

(** A datagram echoed by udpservselect01 while a connection is accepted in
    the same round. *)
Definition select_world : world := world0
  [ok 3; ok 0; ok 0; err 0; ok 0; ok 4; ok 0; ok 0;
   Ans 2 0 [3; 4] []; ok 7; ok 99; ok 0; Ans 2 0 [104; 105] the_host; ok 2].
Theorem udp_servers_correct_witness :
  sockaddr_len the_host = 16 /\
  runs (udpservselect01 1) (fun _ _ => False) select_main_end select_world /\
  (let '(r, w) := udpservselect01 1 select_world in
   r = Halt Blocked /\ incoming 4 (trace w) = [([104; 105], the_host)] /\
   outgoing 4 (trace w) = [([104; 105], the_host)] /\ accepted (trace w) = [7] /\ closed (trace w) = [7]).
Proof.
  split; [reflexivity|]. split; [|by vm_compute].
  destruct (udp_servers_correct 1 4 16 the_host select_world eq_refl) as (_ & _ & _ & _ & _ & H). exact H.
Defined.
