(* ===== verification/Rtt.v ===== *)
(** * The reliable UDP client: lib/rtt.c, rtt/dg_send_recv.c, rtt/dg_cli.c

    The retransmission timer is Jacobson's estimator in C floating point:
    members of [struct rtt_info] are [float]s, constants and intermediate
    results with them [double]s, both rounded to nearest even, by the
    operations of SpecFloat.  A request carries a sequence number; it is sent
    again when the timer runs out, and replies with another number are
    dropped.

    The handler of SIGALRM jumps back into [dg_send_recv]; the signal is
    delivered while [recvmsg] waits, which is the answer EINTR of that call.
    (A signal between [alarm] and [sigsetjmp] would jump through a buffer that
    is not yet set: no answer of the kernel stands for it.) *)

From Stdlib Require Import Floats.SpecFloat.
From S2P Require Import Prelude InetPton InetNtop Unix ErrorLib Wrap ReadWrite TcpEcho TcpCli Cksum SockAddr SockOpt Udp.

Implicit Types (e : endian).

(** ** float and double *)

Definition round_to (prec emax : Z) (x : spec_float) : spec_float :=
  match x with
  | S754_finite s m ex => binary_round prec emax s m ex
  | _ => x
  end.
Definition to_float (x : spec_float) : spec_float := round_to 24 128 x.
Definition to_double (x : spec_float) : spec_float := round_to 53 1024 x.
Definition float_of (z : Z) : spec_float := binary_normalize 24 128 z 0 false.
Definition double_of (z : Z) : spec_float := binary_normalize 53 1024 z 0 false.
Definition dadd : spec_float -> spec_float -> spec_float := SFadd 53 1024.
Definition dsub : spec_float -> spec_float -> spec_float := SFsub 53 1024.
Definition dmul : spec_float -> spec_float -> spec_float := SFmul 53 1024.
Definition ddiv : spec_float -> spec_float -> spec_float := SFdiv 53 1024.
Definition fsub : spec_float -> spec_float -> spec_float := SFsub 24 128.
Definition fmul : spec_float -> spec_float -> spec_float := SFmul 24 128.

(** A literal such as 0.75: the double nearest to [p / q]. *)
Definition literal (p q : Z) : spec_float := ddiv (double_of p) (double_of q).

(** [(int) x]: truncated; undefined when it is no [int]. *)
Definition int_of (x : spec_float) : option Z :=
  match x with
  | S754_zero _ => Some 0
  | S754_finite s m ex =>
      let v := if 0 <=? ex then Zpos m * 2 ^ ex else Zpos m / 2 ^ (- ex) in
      let v := if s then - v else v in
      if bool_decide (- 2 ^ 31 <= v < 2 ^ 31) then Some v else None
  | _ => None
  end.

(** "%.3f": the value in thousandths, rounded to nearest even. *)
Definition thousandths (m : positive) (ex : Z) : Z :=
  if 0 <=? ex then Zpos m * 2 ^ ex * 1000
  else let d := 2 ^ (- ex) in
       let n := Zpos m * 1000 in
       let q := n / d in
       let r := n mod d in
       if 2 * r <? d then q else if d <? 2 * r then q + 1
       else if Z.even q then q else q + 1.
Definition three_digits (n : Z) : list Z := [48 + n / 100; 48 + n / 10 mod 10; 48 + n mod 10].
Definition fmt_f3 (x : spec_float) : list Z :=
  match x with
  | S754_zero s => (if s then chars "-" else []) ++ chars "0.000"
  | S754_finite s m ex =>
      let t := thousandths m ex in
      (if s then chars "-" else []) ++ digits_of 40 10 (t / 1000) [] ++ chars "." ++ three_digits (t mod 1000)
  | S754_infinity s => (if s then chars "-" else []) ++ chars "inf"
  | S754_nan => chars "nan"
  end.
(** "%4d" *)
Definition fmt_4d (z : Z) : list Z := let s := fmt_d z in replicate (4 - length s) 32 ++ s.

(** ** lib/unprtt.h and lib/rtt.c *)

Record rtt_info : Type := RttInfo {
  rtt_rtt : spec_float;
  rtt_srtt : spec_float;
  rtt_rttvar : spec_float;
  rtt_rto : spec_float;
  rtt_nrexmt : Z;
  rtt_base : Z
}.

Definition RTT_RXTMIN : Z := 2.
Definition RTT_RXTMAX : Z := 60.
Definition RTT_MAXNREXMT : Z := 3.

Definition RTT_RTOCALC (srtt rttvar : spec_float) : spec_float :=
  dadd (to_double srtt) (dmul (double_of 4) (to_double rttvar)).

Definition rtt_minmax (rto : spec_float) : spec_float :=
  if SFltb rto (float_of RTT_RXTMIN) then float_of RTT_RXTMIN
  else if SFltb (float_of RTT_RXTMAX) rto then float_of RTT_RXTMAX
  else rto.

(** The fields of the [struct timeval] that [gettimeofday] stores. *)
Definition tv_sec (a : answer) : Z := nth 0 (a_data a) 0.
Definition tv_usec (a : answer) : Z := nth 1 (a_data a) 0.

Definition rtt_init : M rtt_info :=
  tv ← Gettimeofday;
  let srtt := float_of 0 in
  let rttvar := to_float (literal 3 4) in
  mret (RttInfo (float_of 0) srtt rttvar (rtt_minmax (to_float (RTT_RTOCALC srtt rttvar)))
    0 (u32 (tv_sec tv))).

Definition rtt_ts (ptr : rtt_info) : M Z :=
  tv ← Gettimeofday;
  mret (u32 ((tv_sec tv - rtt_base ptr) * 1000 + Z.quot (tv_usec tv) 1000)).

Definition rtt_newpack (ptr : rtt_info) : rtt_info :=
  RttInfo (rtt_rtt ptr) (rtt_srtt ptr) (rtt_rttvar ptr) (rtt_rto ptr) 0 (rtt_base ptr).

Definition rtt_start (ptr : rtt_info) : option Z :=
  int_of (dadd (to_double (rtt_rto ptr)) (literal 1 2)).

Definition rtt_stop (ptr : rtt_info) (ms : Z) : rtt_info :=
  let rtt := to_float (ddiv (double_of ms) (double_of 1000)) in
  let delta := to_double (fsub rtt (rtt_srtt ptr)) in
  let srtt := to_float (dadd (to_double (rtt_srtt ptr)) (ddiv delta (double_of 8))) in
  let delta := if SFltb delta (double_of 0) then SFopp delta else delta in
  let rttvar := to_float (dadd (to_double (rtt_rttvar ptr))
    (ddiv (dsub delta (to_double (rtt_rttvar ptr))) (double_of 4))) in
  RttInfo rtt srtt rttvar (rtt_minmax (to_float (RTT_RTOCALC srtt rttvar)))
    (rtt_nrexmt ptr) (rtt_base ptr).

(** The next state, and whether it is time to give up. *)
Definition rtt_timeout (ptr : rtt_info) : Z * rtt_info :=
  let nrexmt := rtt_nrexmt ptr + 1 in
  (if RTT_MAXNREXMT <? nrexmt then -1 else 0,
   RttInfo (rtt_rtt ptr) (rtt_srtt ptr) (rtt_rttvar ptr) (fmul (rtt_rto ptr) (float_of 2))
     nrexmt (rtt_base ptr)).

Definition rtt_debug (rtt_d_flag : Z) (ptr : rtt_info) : M unit :=
  if rtt_d_flag =? 0 then mret ()
  else
    stderr (chars "rtt = " ++ fmt_f3 (rtt_rtt ptr) ++ chars ", srtt = " ++ fmt_f3 (rtt_srtt ptr) ++
            chars ", rttvar = " ++ fmt_f3 (rtt_rttvar ptr) ++ chars ", rto = " ++ fmt_f3 (rtt_rto ptr) ++
            newline) ;;
    output (CFflush 2).

(** ** rtt/dg_send_recv.c *)

(** The static objects: [rttinfo], [rttinit], [sendhdr.seq], the eight bytes
    of [recvhdr], and [rtt_d_flag]. *)
Record dg_static : Type := DgStatic {
  rttinfo : rtt_info;
  rttinit : Z;
  send_seq : Z;
  recvhdr : list Z;
  d_flag : Z
}.
Definition sizeof_hdr : Z := 8.
Definition hdr_bytes e (seq ts : Z) : list Z := store32 e seq ++ store32 e ts.
Definition hdr_seq e (hdr : list Z) : Z := load32 e hdr.
Definition hdr_ts e (hdr : list Z) : Z := load32 e (drop 4 hdr).

(** Bytes stored over the first of an object. *)
Definition overlay (new old : list Z) : list Z := new ++ drop (length new) old.

(** What [recvmsg] scatters: at most [inbytes] bytes after the header. *)
Definition msg_data (inbytes : Z) (a : answer) : list Z :=
  map u8 (take (Z.to_nat (sizeof_hdr + inbytes)) (a_data a)).

(** The [do ... while] loop; [None] is the jump of the handler. *)
Definition recv_body e (fd inbytes seq : Z) (s : list Z * list Z)
  : M ((list Z * list Z) + (option Z * (list Z * list Z))) :=
  a ← kernel (libc "recvmsg" [fd; 0] []);
  if a_ret a <? 0 then
    err ← get_errno;
    if err =? EINTR then mret (inr (None, s)) else err_sys (chars "recvmsg error")
  else
    let d := msg_data inbytes a in
    let n := Z.of_nat (length d) in
    let hdr := overlay (take 8 d) s.1 in
    let inbuff := overlay (drop 8 d) s.2 in
    stderr (chars "recv " ++ fmt_4d (s32 (hdr_seq e hdr)) ++ newline) ;;
    if (n <? sizeof_hdr) || negb (hdr_seq e hdr =? seq) then mret (inl (hdr, inbuff))
    else mret (inr (Some n, (hdr, inbuff))).

(** From [sendagain] to the next jump there, or to the return. *)
Definition sendagain e (fd : Z) (destaddr outbuff : list Z) (inbytes : Z) (seq dflag : Z)
    (s : rtt_info * (list Z * list Z))
  : M ((rtt_info * (list Z * list Z)) + (option Z * (rtt_info * (list Z * list Z)))) :=
  let '(info, bufs) := s in
  stderr (chars "send " ++ fmt_4d (s32 seq) ++ chars ": ") ;;
  ts ← rtt_ts info;
  Sendmsg fd destaddr [hdr_bytes e seq ts; outbuff] 0 ;;
  secs ← or_undef (rtt_start info);
  kernel (CAlarm (u32 secs)) ;;
  rtt_debug dflag info ;;
  r ← loop (recv_body e fd inbytes seq) bufs;
  let '(n, bufs) := r : option Z * (list Z * list Z) in
  match n with
  | None =>
      let '(rc, info) := rtt_timeout info in
      if rc <? 0 then
        err_msg (chars "dg_send_recv: no response from server, giving up") ;;
        set_errno ETIMEDOUT ;;
        mret (inr (None, (info, bufs)))
      else
        err_msg (chars "dg_send_recv: timeout, retransmitting") ;;
        mret (inl (info, bufs))
  | Some n =>
      kernel (CAlarm 0) ;;
      now ← rtt_ts info;
      mret (inr (Some (n - sizeof_hdr), (rtt_stop info (u32 (now - hdr_ts e bufs.1)), bufs)))
  end.

(** [None] is the result -1. *)
Definition dg_send_recv e (fd : Z) (outbuff : list Z) (inbuff : list Z) (inbytes : Z) (destaddr : list Z)
    (st : dg_static)
  : M (option Z * (list Z * dg_static)) :=
  p ← (if rttinit st =? 0 then info ← rtt_init; mret (info, 1)
       else mret (rttinfo st, d_flag st));
  let '(info, dflag) := p : rtt_info * Z in
  let seq := u32 (send_seq st + 1) in
  Signal SIGALRM sig_alrm ;;
  r ← loop (sendagain e fd destaddr outbuff inbytes seq dflag) (rtt_newpack info, (recvhdr st, inbuff));
  let '(n, (info, (hdr, inbuff))) := r : option Z * (rtt_info * (list Z * list Z)) in
  mret (n, (inbuff, DgStatic info (if n is Some _ then 1 else 0) seq hdr dflag)).

Definition Dg_send_recv e fd outbuff inbuff inbytes destaddr st : M (Z * (list Z * dg_static)) :=
  r ← dg_send_recv e fd outbuff inbuff inbytes destaddr st;
  match r with
  | (Some n, s) => mret (n, s)
  | (None, _) => err_quit (chars "dg_send_recv error")
  end.

(** ** rtt/dg_cli.c and rtt/udpcli01.c *)

Definition rtt_dg_cli_body e (sockfd : Z) (servaddr : list Z) (s : list Z * dg_static)
  : M ((list Z * dg_static) + unit) :=
  let '(recvline, st) := s in
  l ← Fgets MAXLINE;
  match l with
  | None => mret (inr ())
  | Some sendline =>
      r ← Dg_send_recv e sockfd (c_string sendline) recvline MAXLINE servaddr st;
      let '(n, (recvline, st)) := r : Z * (list Z * dg_static) in
      recvline ← or_undef (store recvline (Z.to_nat n) 0);
      Fputs (c_string recvline) ;;
      mret (inl (recvline, st))
  end.

(** The objects at the start of the program; [recvline] has MAXLINE + 1 bytes. *)
Definition dg_static0 : dg_static :=
  DgStatic (RttInfo (float_of 0) (float_of 0) (float_of 0) (float_of 0) 0 0) 0 0 (replicate 8 0) 0.

Definition rtt_dg_cli e (recvline : list Z) (sockfd : Z) (servaddr : list Z) : M unit :=
  loop (rtt_dg_cli_body e sockfd servaddr) (recvline, dg_static0).
Definition rtt_udpcli01 e (recvline : list Z) : list (list Z) -> M Empty_set :=
  udp_main udp_usage 7 (rtt_dg_cli e recvline).

(** Nobody answers: four transmissions of the same request, with alarms
    after 3, 6, 12 and 24 seconds. *)
Definition alarms (evs : list event) : list Z :=
  omap (fun ev => match fst ev with CAlarm n => Some n | _ => None end) evs.
Definition now_is (sec usec : Z) : answer := Ans 0 0 [sec; usec] [].
Example nobody_answers :
  let '(r, w) := dg_send_recv Little 3 (chars "hi") (replicate 10 0) 9 the_host dg_static0 (world0
    ([now_is 100 0; ok 0] ++ concat (replicate 4 [now_is 101 500000; ok 10; ok 0; err EINTR]))) in
  (exists s, r = Ret (None, s)) /\ alarms (trace w) = [3; 6; 12; 24].
Proof. vm_compute. split; [by eexists|done]. Qed.

(** The estimator on the round-trip times that rtt/rtt.out.kumba.1 records, in
    milliseconds: the lines that the program printed then. *)
Definition debug_line (ptr : rtt_info) : list Z :=
  chars "rtt = " ++ fmt_f3 (rtt_rtt ptr) ++ chars ", srtt = " ++ fmt_f3 (rtt_srtt ptr) ++
  chars ", rttvar = " ++ fmt_f3 (rtt_rttvar ptr) ++ chars ", rto = " ++ fmt_f3 (rtt_rto ptr).
Fixpoint estimates (ptr : rtt_info) (ms : list Z) : list (list Z) :=
  debug_line ptr ::
  match ms with [] => [] | m :: ms' => estimates (rtt_stop ptr m) ms' end.
Definition rtt_info0 (base : Z) : rtt_info :=
  RttInfo (float_of 0) (float_of 0) (to_float (literal 3 4))
    (rtt_minmax (to_float (RTT_RTOCALC (float_of 0) (to_float (literal 3 4))))) 0 base.
Example recorded_session :
  estimates (rtt_info0 0) [366; 309; 298; 360; 360; 320] =
  chars <$>
   ["rtt = 0.000, srtt = 0.000, rttvar = 0.750, rto = 3.000";
    "rtt = 0.366, srtt = 0.046, rttvar = 0.654, rto = 2.662";
    "rtt = 0.309, srtt = 0.079, rttvar = 0.556, rto = 2.304";
    "rtt = 0.298, srtt = 0.106, rttvar = 0.472, rto = 2.000";
    "rtt = 0.360, srtt = 0.138, rttvar = 0.418, rto = 2.000";
    "rtt = 0.360, srtt = 0.166, rttvar = 0.369, rto = 2.000";
    "rtt = 0.320, srtt = 0.185, rttvar = 0.315, rto = 2.000"]%string.
Proof. by vm_compute. Qed.
(** A timeout does not apply RTT_RXTMAX: from the largest timeout the next
    alarms are after 120, 240 and 480 seconds. *)
Definition slowest : rtt_info :=
  RttInfo (float_of 40) (float_of 40) (float_of 10) (float_of RTT_RXTMAX) 0 0.
Definition after (k : nat) (ptr : rtt_info) : rtt_info := Nat.iter k (fun p => (rtt_timeout p).2) ptr.
Example backoff_unbounded : (fun k => rtt_start (after k slowest)) <$> [0; 1; 2; 3]%nat = [Some 60; Some 120; Some 240; Some 480].
Proof. by vm_compute. Qed.

(** ** The bounds of the estimator *)

(** [rtt_minmax] keeps its result between the two bounds, except for a NaN. *)
Definition rto_ok (rto : spec_float) : Prop :=
  rto = S754_nan \/ SFleb (float_of RTT_RXTMIN) rto = true /\ SFleb rto (float_of RTT_RXTMAX) = true.

Lemma SFcompare_flip x y c : SFcompare x y = Some c -> SFcompare y x = Some (CompOpp c).
Proof.
  destruct x as [sx|sx| |sx mx ex], y as [sy|sy| |sy my ey]; simpl; try done;
    try (destruct sx; intros [= <-]; done); try (destruct sy; intros [= <-]; done);
    try (destruct sx, sy; intros [= <-]; done).
  assert (forall a b, Pos.compare_cont Eq b a = CompOpp (Pos.compare_cont Eq a b)) as Hp
    by (intros a b; apply eq_sym, (Pos.compare_cont_antisym a b Eq)).
  rewrite (Z.compare_antisym ex ey), (Hp mx my).
  destruct sx, sy; intros [= <-]; try done; destruct (ex ?= ey); try done;
    by destruct (Pos.compare_cont Eq mx my).
Qed.

Lemma SFleb_of_not_ltb x y : SFcompare x y <> None -> SFltb x y = false -> SFleb y x = true.
Proof.
  unfold SFltb, SFleb. intros Hn H. destruct (SFcompare x y) as [c|] eqn:E; [|done].
  rewrite (SFcompare_flip _ _ _ E). by destruct c.
Qed.

Lemma rtt_minmax_ok rto : rto_ok (rtt_minmax rto).
Proof.
  unfold rto_ok, rtt_minmax.
  assert (rto = S754_nan \/ forall z, 0 < z <= 60 -> SFcompare rto (float_of z) <> None /\ SFcompare (float_of z) rto <> None) as [->|Hn].
  { destruct rto as [s|s| |s m ex]; [right|right|by left|right]; intros z Hz;
      (assert (exists m' ex', float_of z = S754_finite false m' ex') as (m' & ex' & ->); [|by destruct s]).
    all: clear -Hz; unfold float_of; destruct z as [|p|p]; try lia.
    all: assert (all_below 61 (fun z => match float_of z with S754_finite false _ _ => true | _ => z =? 0 end) = true)
           as Ha by (by vm_compute).
    all: apply (all_below_spec _ _ (Zpos p)) in Ha; [|lia]; unfold float_of in Ha.
    all: destruct (binary_normalize 24 128 (Zpos p) 0 false) as [| | |[] m' ex']; try done; by eexists _, _. }
  { left. done. }
  destruct (Hn RTT_RXTMIN ltac:(unfold RTT_RXTMIN; lia)) as [H1 _].
  destruct (Hn RTT_RXTMAX ltac:(unfold RTT_RXTMAX; lia)) as [_ H2].
  destruct (SFltb rto (float_of RTT_RXTMIN)) eqn:E1; [by right|].
  destruct (SFltb (float_of RTT_RXTMAX) rto) eqn:E2; [by right|].
  right. split; by apply SFleb_of_not_ltb.
Qed.

Lemma rtt_stop_ok ptr ms : rto_ok (rtt_rto (rtt_stop ptr ms)).
Proof. apply rtt_minmax_ok. Qed.

(** ** What [dg_send_recv] has sent and received *)

(** A request is the arguments of [sendmsg], with the address, and its bytes. *)
Definition request : Type := list Z * list Z.
Definition request_of (ev : event) : option request :=
  match ev with
  | (CLibc name args d, a) =>
      if String.eqb name "sendmsg" && (a_ret a =? Z.of_nat (length d)) then Some (args, d) else None
  | _ => None
  end.
Definition reply_of (inbytes : Z) (ev : event) : option (list Z) :=
  match ev with
  | (CLibc name _ _, a) =>
      if String.eqb name "recvmsg" && (0 <=? a_ret a) then Some (msg_data inbytes a) else None
  | _ => None
  end.
Definition requests (evs : list event) : list request := omap request_of evs.
Definition replies (inbytes : Z) (evs : list event) : list (list Z) := omap (reply_of inbytes) evs.

(** [rseg inbytes req rep al evs]: the requests, replies and alarms of [evs]. *)
Definition rseg (inbytes : Z) (req : list request) (rep : list (list Z)) (al : list Z) (evs : list event) : Prop :=
  requests evs = req /\ replies inbytes evs = rep /\ alarms evs = al.

Lemma rseg_app b r1 r2 p1 p2 a1 a2 ev1 ev2 :
  rseg b r1 p1 a1 ev1 -> rseg b r2 p2 a2 ev2 -> rseg b (r1 ++ r2) (p1 ++ p2) (a1 ++ a2) (ev1 ++ ev2).
Proof.
  intros (<- & <- & <-) (<- & <- & <-). unfold rseg, requests, replies, alarms. by rewrite !omap_app.
Qed.

(** Calls that are none of the three. *)
Definition aside (c : call) : Prop :=
  match c with
  | CLibc name _ _ => name <> "sendmsg"%string /\ name <> "recvmsg"%string
  | CAlarm _ => False
  | _ => True
  end.
Lemma rseg_aside b evs : only aside evs -> rseg b [] [] [] evs.
Proof.
  induction 1 as [|[c a] evs Hc _ (H1 & H2 & H3)]; [done|].
  unfold rseg, requests, replies, alarms in *. cbn [omap list_omap].
  destruct c; cbn in *; rewrite ?H1, ?H2, ?H3; try done.
  destruct Hc as [Hn1 Hn2]. apply String.eqb_neq in Hn1, Hn2. by rewrite Hn1, Hn2.
Qed.
Lemma reports_aside rep : only is_report rep -> only aside rep.
Proof. apply only_mono. by intros []. Qed.
Lemma rseg_aside_l b r p a q evs : only aside q -> rseg b r p a evs -> rseg b r p a (q ++ evs).
Proof. intros Hq. apply (rseg_app b [] r [] p [] a), rseg_aside, Hq. Qed.
Lemma rseg_aside_r b r p a q evs : only aside q -> rseg b r p a evs -> rseg b r p a (evs ++ q).
Proof.
  intros Hq He. pose proof (rseg_app b _ _ _ _ _ _ _ _ He (rseg_aside b q Hq)) as H. by rewrite !app_nil_r in H.
Qed.

Section Exchange.
Context (e : endian) (fd : Z) (to outbuff : list Z) (inbytes : Z) (num : Z).

(** A datagram of the exchange with the number [num], or not. *)
Definition fresh (d : list Z) : Prop := sizeof_hdr <= Z.of_nat (length d) /\ hdr_seq e d = num.
Definition stale (d : list Z) : Prop := ~ fresh d.
Definition copy_of (req : request) : Prop :=
  req.1 = fd :: 0 :: to /\ exists ts, req.2 = hdr_bytes e num ts ++ outbuff.

(** The receive loop: stale datagrams, then the fresh one or the alarm. *)
Definition buffers (size : nat) (s : list Z * list Z) : Prop := length s.1 = 8%nat /\ length s.2 = size.
Definition received_reply (n : Z) (s : list Z * list Z) (d : list Z) : Prop :=
  fresh d /\ n = Z.of_nat (length d) /\ n <= sizeof_hdr + inbytes /\
  s.1 = take 8 d /\ take (length d - 8) s.2 = drop 8 d.

Lemma overlay_length new old : (length new <= length old)%nat -> length (overlay new old) = length old.
Proof. intros H. unfold overlay. rewrite length_app, length_drop. lia. Qed.
Lemma overlay_take new old : take (length new) (overlay new old) = new.
Proof. apply take_app_length. Qed.

Lemma msg_data_length a : 0 <= inbytes -> (length (msg_data inbytes a) <= 8 + Z.to_nat inbytes)%nat.
Proof. intros H. unfold msg_data. rewrite length_map, length_take. unfold sizeof_hdr. lia. Qed.

Lemma load32_take_app l : load32 e (take 8 l) = load32 e l.
Proof.
  do 8 (destruct l as [|? l]; [done|]). by destruct e.
Qed.

Definition recv_spec (size : nat) (r : option Z * (list Z * list Z)) (ev : list event) : Prop :=
  buffers size r.2 /\
  exists ds, Forall stale ds /\
    match r.1 with
    | None => rseg inbytes [] ds [] ev
    | Some n => exists d, received_reply n r.2 d /\ rseg inbytes [] (ds ++ [d]) [] ev
    end.
Definition recv_stop (h : halt) (ev : list event) : Prop :=
  (h = Blocked \/ h = Exited 1) /\ exists ds, Forall stale ds /\ rseg inbytes [] ds [] ev.

Lemma runs_recv_loop size s w :
  0 <= inbytes -> (Z.to_nat inbytes <= size)%nat -> buffers size s ->
  runs (loop (recv_body e fd inbytes num) s) (recv_spec size) recv_stop w.
Proof.
  intros Hin Hsize Hs. apply (runs_loop _ (fun s ev => buffers size s /\
    exists ds, Forall stale ds /\ rseg inbytes [] ds [] ev)).
  { split; [done|]. by exists []. }
  intros [hdr inbuff] ev w1 [[Hh Hb] (ds & Hds & Hev)]. unfold recv_body. cbn [fst snd] in *.
  assert (forall q, rseg inbytes [] [] [] q -> rseg inbytes [] ds [] (ev ++ q)) as Hquiet.
  { intros q Hq. pose proof (rseg_app inbytes _ _ _ _ _ _ _ _ Hev Hq) as H. by rewrite !app_nil_r in H. }
  apply runs_call; [done|split; [auto|exists ds; split; [done|by apply Hquiet]]|].
  intros a0 w2 a _. set (rv := (libc "recvmsg" [fd; 0] [], a)).
  destruct (a_ret a <? 0) eqn:Ea; zbool.
  - assert (rseg inbytes [] [] [] [rv]) as Hrv.
    { unfold rseg, replies, requests. cbn. by replace (0 <=? a_ret a) with false by lia. }
    apply runs_get_errno. destruct (_ =? _).
    + apply runs_ret. split; [done|]. exists ds. split; [done|]. by apply Hquiet.
    + apply runs_err_sys. intros rep Hrep. split; [auto|]. exists ds. split; [done|]. apply Hquiet.
      apply (rseg_aside_r _ _ _ _ _ [rv]); [by apply reports_aside|done].
  - set (d := msg_data inbytes a).
    assert (forall q, only aside q -> rseg inbytes [] (ds ++ [d]) [] (ev ++ rv :: q)) as Hrv.
    { intros q Hq. apply (rseg_app inbytes [] [] ds [d] [] []); [done|].
      apply (rseg_aside_r _ _ _ _ _ [rv]); [done|]. unfold rseg, replies, requests. cbn.
      by replace (0 <=? a_ret a) with true by lia. }
    assert (length d <= 8 + Z.to_nat inbytes)%nat as Hd by by apply msg_data_length.
    assert (buffers size (overlay (take 8 d) hdr, overlay (drop 8 d) inbuff)) as Hbuf.
    { split; cbn [fst snd]; rewrite overlay_length; rewrite ?length_take, ?length_drop; lia. }
    unfold stderr. apply runs_out; [done|]. intros w3.
    destruct (_ || _) eqn:Ec; apply runs_ret.
    + split; [simpl; lia|]. split; [done|]. exists (ds ++ [d]). split; [|by apply Hrv; repeat constructor].
      apply Forall_app. split; [done|]. constructor; [|done]. intros [Hl Hseq].
      apply orb_true_iff in Ec as [Ec|Ec]; zbool; [lia|]. apply Ec. rewrite <- Hseq.
      unfold hdr_seq, overlay. unfold sizeof_hdr in Hl. rewrite drop_ge by (rewrite length_take; lia).
      rewrite app_nil_r. apply load32_take_app.
    + zbool. split; [done|]. exists ds. split; [done|]. exists d. split; [|by apply Hrv; repeat constructor].
      assert (overlay (take 8 d) hdr = take 8 d) as Hov.
      { unfold overlay. rewrite drop_ge by (rewrite length_take; unfold sizeof_hdr in *; lia). apply app_nil_r. }
      rewrite Hov in *. split; [split; [done|]|split; [done|split; [unfold sizeof_hdr in *; lia|split; [done|]]]].
      * unfold hdr_seq in *. by rewrite load32_take_app in *.
      * cbn [snd]. rewrite <- (overlay_take (drop 8 d) inbuff) at 2. by rewrite length_drop.
Qed.

(** Parts of an attempt that are neither request, reply nor alarm. *)
Lemma runs_rtt_ts ptr w :
  runs (rtt_ts ptr) (fun _ ev => only aside ev) (fun h ev => (h = Blocked \/ h = Exited 1) /\ only aside ev) w.
Proof.
  eapply runs_wraps; [apply Gettimeofday_wraps|auto| |].
  - intros a rep _ Hrep. split; [auto|]. constructor; [done|by apply reports_aside].
  - intros a w1 _. apply runs_ret. by repeat constructor.
Qed.
Lemma runs_rtt_debug flag ptr w : runs (rtt_debug flag ptr) (fun _ ev => only aside ev) (fun _ _ => False) w.
Proof.
  unfold rtt_debug. destruct (flag =? 0); [by apply runs_ret|].
  unfold stderr. apply runs_out; [done|]. intros w1.
  apply runs_wp, wp_out; [done|]. intros w2 He _ _. eexists. split; [exact He|]. by repeat constructor.
Qed.
Lemma runs_err_msg text w : runs (err_msg text) (fun _ ev => only aside ev) (fun _ _ => False) w.
Proof.
  unfold runs, err_msg. rewrite err_doit_spec. eexists. split; [apply report_extends|].
  apply reports_aside, report_events_only.
Qed.

(** One transmission and its end. *)
Definition attempt (size : nat) (info : rtt_info)
    (r : (rtt_info * (list Z * list Z)) + (option Z * (rtt_info * (list Z * list Z)))) (ev : list event) : Prop :=
  exists secs req ds, rtt_start info = Some secs /\ copy_of req /\ Forall stale ds /\
    match r with
    | inl (info', s) =>
        buffers size s /\ rtt_timeout info = (0, info') /\ rseg inbytes [req] ds [u32 secs] ev
    | inr (None, (info', s)) =>
        buffers size s /\ rtt_timeout info = (-1, info') /\ rseg inbytes [req] ds [u32 secs] ev
    | inr (Some n, (info', s)) =>
        buffers size s /\ exists d ms, received_reply (n + sizeof_hdr) s d /\ info' = rtt_stop info ms /\
          rseg inbytes [req] (ds ++ [d]) [u32 secs; 0] ev
    end.

(** Stopped: not more than one transmission, nothing fresh but perhaps the
    last datagram. *)
Definition halfway (max : nat) (ev : list event) : Prop :=
  exists reqs ds r als, rseg inbytes reqs (ds ++ r) als ev /\ Forall copy_of reqs /\
    (length reqs <= max)%nat /\ Forall stale ds /\ (length r <= 1)%nat.
Definition attempt_stop (info : rtt_info) (h : halt) (ev : list event) : Prop :=
  (h = Blocked \/ h = Exited 1 \/ h = Undefined /\ rtt_start info = None) /\ halfway 1 ev.

Lemma halfway_intro max reqs ds r als ev :
  rseg inbytes reqs (ds ++ r) als ev -> Forall copy_of reqs -> (length reqs <= max)%nat ->
  Forall stale ds -> (length r <= 1)%nat -> halfway max ev.
Proof. intros. by exists reqs, ds, r, als. Qed.

Lemma halfway_aside max ev : only aside ev -> halfway max ev.
Proof. intros H. apply (halfway_intro max [] [] [] []); [by apply rseg_aside|done|simpl; lia|done|simpl; lia]. Qed.

Lemma stop_or (h : halt) (info : rtt_info) :
  h = Blocked \/ h = Exited 1 -> h = Blocked \/ h = Exited 1 \/ h = Undefined /\ rtt_start info = None.
Proof. tauto. Qed.

(** After the alarm has been set by the events [ev0]. *)
Lemma runs_wait_reply size info s ev0 req secs w :
  0 <= inbytes -> (Z.to_nat inbytes <= size)%nat -> buffers size s ->
  rtt_start info = Some secs -> copy_of req -> rseg inbytes [req] [] [u32 secs] ev0 -> (0 < waits ev0)%nat ->
  runs (r ← loop (recv_body e fd inbytes num) s;
        let '(n, bufs) := r : option Z * (list Z * list Z) in
        match n with
        | None =>
            let '(rc, info) := rtt_timeout info in
            if rc <? 0 then
              err_msg (chars "dg_send_recv: no response from server, giving up") ;;
              set_errno ETIMEDOUT ;;
              mret (inr (None, (info, bufs)))
            else
              err_msg (chars "dg_send_recv: timeout, retransmitting") ;;
              mret (inl (info, bufs))
        | Some n =>
            kernel (CAlarm 0) ;;
            now ← rtt_ts info;
            mret (inr (Some (n - sizeof_hdr), (rtt_stop info (u32 (now - hdr_ts e bufs.1)), bufs)))
        end)
    (fun r ev => attempt size info r (ev0 ++ ev)) (fun h ev => attempt_stop info h (ev0 ++ ev)) w.
Proof.
  intros Hin Hsize Hs Hsecs Hreq He0 Hw. apply runs_bind.
  eapply runs_mono; [by apply (runs_recv_loop size s w Hin Hsize Hs)| |].
  - intros [[n|] bufs] ev (Hb & ds & Hds & Hev) w1; cbn [fst snd] in *.
    + destruct Hev as (d & Hd & Hev).
      pose proof (rseg_app _ _ _ _ _ _ _ _ _ He0 Hev) as Hall. cbn [app] in Hall.
      assert (forall h q als, (h = Blocked \/ h = Exited 1) -> rseg inbytes [] [] als q ->
        attempt_stop info h (ev0 ++ ev ++ q)) as Hstop.
      { intros h q als Hh Hq. split; [by apply stop_or|]. rewrite app_assoc.
        pose proof (rseg_app _ _ _ _ _ _ _ _ _ Hall Hq) as H. rewrite !app_nil_r in H.
        eapply (halfway_intro 1 [req] ds [d]); [exact H|by constructor|simpl; lia|done|simpl; lia]. }
      apply runs_call; [done|by eapply Hstop; [auto|]|]. intros a w2 x _.
      apply runs_bind. eapply runs_mono; [apply runs_rtt_ts| |].
      * intros now q Hq w3. apply runs_ret. rewrite app_nil_r.
        exists secs, req, ds. split; [done|]. split; [done|]. split; [done|]. split; [done|].
        exists d, (u32 (now - hdr_ts e bufs.1)). split; [by rewrite Z.sub_add|]. split; [done|].
        rewrite app_assoc. pose proof (rseg_app _ _ _ _ _ _ _ _ _ Hall
          (rseg_aside_r inbytes [] [] [0] q [(CAlarm 0, x)] Hq ltac:(done))) as H.
        rewrite !app_nil_r in H. exact H.
      * intros h q [Hh Hq]. eapply Hstop; [done|].
        by apply (rseg_aside_r inbytes [] [] [0] q [(CAlarm 0, x)]).
    + pose proof (rseg_app _ _ _ _ _ _ _ _ _ He0 Hev) as Hall. cbn [app] in Hall.
      assert (forall q, only aside q -> rseg inbytes [req] ds [u32 secs] (ev0 ++ ev ++ q)) as Hq0.
      { intros q Hq. rewrite app_assoc. by apply rseg_aside_r. }
      destruct (rtt_timeout info) as [rc info'] eqn:Et.
      assert (rc = -1 \/ rc = 0) as Hrc by (unfold rtt_timeout in Et; injection Et as <- _; destruct (_ <? _); auto).
      destruct (rc <? 0) eqn:Erc; zbool; apply runs_bind; (eapply runs_mono; [apply runs_err_msg| |done]);
        intros [] q Hq w2.
      * apply runs_set_errno. intros w3 _. apply runs_ret. rewrite app_nil_r. exists secs, req, ds.
        split; [done|]. split; [done|]. split; [done|]. split; [done|].
        split; [rewrite Et; by replace rc with (-1) by lia|by apply Hq0].
      * apply runs_ret. rewrite app_nil_r. exists secs, req, ds.
        split; [done|]. split; [done|]. split; [done|]. split; [done|].
        split; [rewrite Et; by replace rc with 0 by lia|by apply Hq0].
  - intros h ev [Hh (ds & Hds & Hev)]. split; [by apply stop_or|].
    pose proof (rseg_app _ _ _ _ _ _ _ _ _ He0 Hev) as H. cbn [app] in H.
    apply (halfway_intro 1 [req] ds [] [u32 secs]); rewrite ?app_nil_r; [done|by constructor|simpl; lia|done|simpl; lia].
Qed.

Lemma runs_sendagain size dflag info s w :
  0 <= inbytes -> (Z.to_nat inbytes <= size)%nat -> buffers size s ->
  runs (sendagain e fd to outbuff inbytes num dflag (info, s))
    (fun r ev => (0 < waits ev)%nat /\ attempt size info r ev) (attempt_stop info) w.
Proof.
  intros Hin Hsize Hs. unfold sendagain, stderr. apply runs_out; [done|]. intros w0.
  set (ev0 := (CStderr (chars "send " ++ fmt_4d (s32 num) ++ chars ": "), ok 0)).
  apply runs_bind. eapply runs_mono; [apply runs_rtt_ts| |].
  2:{ intros h ev [Hh Hev]. split; [by apply stop_or|]. apply halfway_aside. by constructor. }
  intros ts ev1 He1 w1. set (req := (fd :: 0 :: to, hdr_bytes e num ts ++ outbuff) : request).
  assert (concat [hdr_bytes e num ts; outbuff] = req.2) as Hcat by (cbn [concat]; by rewrite app_nil_r).
  set (c := libc "sendmsg" (fd :: 0 :: to) (concat [hdr_bytes e num ts; outbuff])).
  assert (only aside (ev0 :: ev1)) as He01 by (by constructor).
  assert (copy_of req) as Hcopy by (split; [done|by exists ts]).
  eapply runs_wraps; [apply Sendmsg_wraps| | |].
  - split; [by left|]. apply halfway_aside. by rewrite app_nil_r.
  - intros a rep Hbad Hrep. unfold returned in Hbad. fold c in Hbad |- *. split; [by right; left|].
    apply (halfway_intro 1 [] [] [] []); [|done|simpl; lia|done|simpl; lia].
    apply (rseg_aside_l _ _ _ _ (ev0 :: ev1)); [done|].
    apply (rseg_aside_r _ _ _ _ _ [_]); [by apply reports_aside|].
    unfold rseg, requests, replies. cbn -[normalise concat].
    by rewrite (proj2 (Z.eqb_neq _ _) Hbad).
  - intros a w2 Hg. unfold returned in Hg. fold c in Hg. set (x := normalise c a) in *.
    assert (rseg inbytes [req] [] [] [(c, x)]) as Hc.
    { unfold rseg, requests, replies. cbn -[concat]. rewrite Hg, Z.eqb_refl. by rewrite Hcat. }
    assert (halfway 1 (ev0 :: ev1 ++ [(c, x)])) as Hhalf.
    { apply (halfway_intro 1 [req] [] [] []); [|by constructor|simpl; lia|done|simpl; lia].
      by apply (rseg_aside_l _ _ _ _ (ev0 :: ev1)). }
    destruct (rtt_start info) as [secs|] eqn:Esecs.
    2:{ apply (runs_none None); [done|]. split; [by right; right|exact Hhalf]. }
    apply (runs_or_undef _ secs); [done|].
    apply runs_call; [done|split; [by left|exact Hhalf]|]. intros b w3 y _.
    set (al := (CAlarm (u32 secs), y)).
    assert (forall q, only aside q -> rseg inbytes [req] [] [u32 secs] ((ev0 :: ev1) ++ [(c, x)] ++ al :: q)) as Hset.
    { intros q Hq. apply rseg_aside_l; [done|]. apply (rseg_app _ [req] [] [] [] [] [u32 secs] [(c, x)]); [done|].
      by apply (rseg_aside_r _ _ _ _ _ [al]). }
    apply runs_bind. eapply runs_mono; [apply runs_rtt_debug| |done]. intros [] q Hq w4.
    eapply runs_mono; [apply (runs_wait_reply size info s ((ev0 :: ev1) ++ [(c, x)] ++ al :: q) req secs); try done| |].
    + by apply Hset.
    + rewrite !waits_app. simpl. lia.
    + intros r ev Hatt. cbv beta in Hatt. rewrite <- app_assoc in Hatt. split; [|exact Hatt].
      simpl. rewrite waits_app. simpl. lia.
    + intros h ev Hatt. cbv beta in Hatt. by rewrite <- app_assoc in Hatt.
Qed.

(** The alarms of the first [k] transmissions: the timeout doubles. *)
Definition started (info : rtt_info) (k : nat) (als : list Z) : Prop :=
  Some <$> als = (fun i => u32 <$> rtt_start (after i info)) <$> List.seq 0 k.

Definition exchange (size : nat) (info : rtt_info) (r : option Z * (rtt_info * (list Z * list Z)))
    (ev : list event) : Prop :=
  exists reqs als ds, (1 <= length reqs <= 4)%nat /\ Forall copy_of reqs /\ Forall stale ds /\
    started info (length reqs) als /\
    match r with
    | (Some n, (info', s)) =>
        buffers size s /\ exists d ms, received_reply (n + sizeof_hdr) s d /\
          info' = rtt_stop (after (length reqs - 1) info) ms /\
          rseg inbytes reqs (ds ++ [d]) (als ++ [0]) ev
    | (None, (info', s)) =>
        buffers size s /\ length reqs = 4%nat /\ rseg inbytes reqs ds als ev
    end.
Definition exchange_stop (info : rtt_info) (h : halt) (ev : list event) : Prop :=
  (h = Blocked \/ h = Exited 1 \/ h = Undefined /\ exists k, (k < 4)%nat /\ rtt_start (after k info) = None) /\
  halfway 4 ev.

(** The invariant of the outer loop: [k] transmissions timed out. *)
Definition retrying (size : nat) (info0 : rtt_info) (p : rtt_info * (list Z * list Z)) (ev : list event) : Prop :=
  exists reqs als ds, p.1 = after (length reqs) info0 /\ rtt_nrexmt p.1 = Z.of_nat (length reqs) /\
    (length reqs <= 3)%nat /\ buffers size p.2 /\ Forall copy_of reqs /\ Forall stale ds /\
    started info0 (length reqs) als /\ rseg inbytes reqs ds als ev.

Lemma started_snoc info k als secs :
  started info k als -> rtt_start (after k info) = Some secs -> started info (S k) (als ++ [u32 secs]).
Proof.
  unfold started. intros H Hs. rewrite seq_S, !fmap_app, H. cbn [fmap list_fmap Nat.add]. by rewrite Hs.
Qed.

Lemma runs_exchange size dflag info s w :
  0 <= inbytes -> (Z.to_nat inbytes <= size)%nat -> buffers size s -> rtt_nrexmt info = 0 ->
  runs (loop (sendagain e fd to outbuff inbytes num dflag) (info, s)) (exchange size info) (exchange_stop info) w.
Proof.
  intros Hin Hsize Hs Hn. apply (runs_loop _ (retrying size info)).
  { exists [], [], []. split_and!; try done. cbn. lia. }
  intros [info1 s1] ev w1 (reqs & als & ds & Hi & Hk & Hl & Hb & Hc & Hd & Hst & Hev). cbn [fst snd] in *. subst info1.
  eapply runs_mono; [by apply (runs_sendagain size)| |].
  - intros r ev2 (Hw & secs & req & ds2 & Hsecs & Hreq & Hds2 & Hr).
    pose proof (started_snoc _ _ _ _ Hst Hsecs) as Hst2.
    assert (Forall copy_of (reqs ++ [req])) as Hc2 by (apply Forall_app; auto).
    assert (Forall stale (ds ++ ds2)) as Hd2 by (by apply Forall_app).
    assert (length (reqs ++ [req]) = S (length reqs)) as Hlen by (rewrite length_app; simpl; lia).
    destruct r as [[info' s']|[[n|] [info' s']]].
    + destruct Hr as (Hb2 & Ht & Hev2). split; [done|].
      exists (reqs ++ [req]), (als ++ [u32 secs]), (ds ++ ds2). rewrite Hlen.
      injection Ht as Hlt Hinfo.
      split_and!; try done.
      * cbn [fst]. rewrite <- Hinfo. cbn [rtt_nrexmt]. rewrite Hk. lia.
      * rewrite Hk in Hlt. unfold RTT_MAXNREXMT in Hlt. destruct (_ <? _) eqn:E in Hlt; zbool; [done|lia].
      * by apply rseg_app.
    + destruct Hr as (Hb2 & d & ms & Hrec & Hinfo & Hev2).
      exists (reqs ++ [req]), (als ++ [u32 secs]), (ds ++ ds2). rewrite Hlen.
      split; [lia|]. split; [done|]. split; [done|]. split; [done|]. split; [done|].
      exists d, ms. split; [done|]. split; [by replace (S (length reqs) - 1)%nat with (length reqs) by lia|].
      pose proof (rseg_app _ _ _ _ _ _ _ _ _ Hev Hev2) as H. rewrite <- !app_assoc. exact H.
    + destruct Hr as (Hb2 & Ht & Hev2).
      exists (reqs ++ [req]), (als ++ [u32 secs]), (ds ++ ds2). rewrite Hlen.
      split; [lia|]. split; [done|]. split; [done|]. split; [done|]. split; [done|].
      injection Ht as Hlt _. rewrite Hk in Hlt. unfold RTT_MAXNREXMT in Hlt.
      destruct (_ <? _) eqn:E in Hlt; zbool; [|done]. split; [lia|]. by apply rseg_app.
  - intros h ev2 [Hh (reqs2 & ds2 & r2 & als2 & Hev2 & Hc2 & Hl2 & Hd2 & Hr2)]. split.
    + destruct Hh as [?|[?|[? Hu]]]; [by left|by right; left|]. right. right. split; [done|].
      exists (length reqs). split; [lia|done].
    + apply (halfway_intro 4 (reqs ++ reqs2) (ds ++ ds2) r2 (als ++ als2)).
      * rewrite <- app_assoc. by apply rseg_app.
      * by apply Forall_app.
      * rewrite length_app. lia.
      * by apply Forall_app.
      * done.
Qed.
End Exchange.

(** ** [dg_send_recv] *)

(** The timer of a call: the one of the last call, or a new one. *)
Definition timer_of (st : dg_static) (info : rtt_info) : Prop :=
  (rttinit st <> 0 /\ info = rtt_newpack (rttinfo st)) \/
  (rttinit st = 0 /\ exists base, info = rtt_info0 base).

(** The static objects between two calls. *)
Definition static_ok (st : dg_static) : Prop :=
  length (recvhdr st) = 8%nat /\ (rttinit st <> 0 -> rto_ok (rtt_rto (rttinfo st))).

Definition next_seq (st : dg_static) : Z := u32 (send_seq st + 1).

(** A call that returns: one to four copies of the request under a new number,
    only datagrams of other requests, then its reply, or four alarms. *)
Definition answered_by e (fd : Z) (to outbuff : list Z) (inbytes : Z) (size : nat) (st : dg_static)
    (r : option Z * (list Z * dg_static)) (ev : list event) : Prop :=
  let num := next_seq st in
  exists info reqs als ds, timer_of st info /\ (1 <= length reqs <= 4)%nat /\
    Forall (copy_of e fd to outbuff num) reqs /\ Forall (stale e num) ds /\ started info (length reqs) als /\
    match r with
    | (n, (inbuff, st')) =>
        length inbuff = size /\ static_ok st' /\ send_seq st' = num /\
        match n with
        | Some n => exists d ms, fresh e num d /\ n = Z.of_nat (length d) - sizeof_hdr /\ n <= inbytes /\
            take (Z.to_nat n) inbuff = drop 8 d /\ rttinit st' = 1 /\
            rttinfo st' = rtt_stop (after (length reqs - 1) info) ms /\
            rseg inbytes reqs (ds ++ [d]) (als ++ [0]) ev
        | None => length reqs = 4%nat /\ rttinit st' = 0 /\ rseg inbytes reqs ds als ev
        end
    end.
Definition unanswered e (fd : Z) (to outbuff : list Z) (inbytes : Z) (st : dg_static) (h : halt) (ev : list event) : Prop :=
  halfway e fd to outbuff inbytes (next_seq st) 4 ev /\
  (h = Blocked \/ h = Exited 1 \/
   h = Undefined /\ exists info k, timer_of st info /\ (k < 4)%nat /\ rtt_start (after k info) = None).

(** The calls before the first transmission. *)
Lemma runs_timer st w :
  runs (if rttinit st =? 0 then info ← rtt_init; mret (info, 1) else mret (rttinfo st, d_flag st))
    (fun p ev => timer_of st (rtt_newpack p.1) /\ only aside ev)
    (fun h ev => (h = Blocked \/ h = Exited 1) /\ only aside ev) w.
Proof.
  destruct (rttinit st =? 0) eqn:E; zbool.
  - apply runs_bind. eapply runs_wraps; [apply Gettimeofday_wraps|auto| |].
    + intros a rep _ Hrep. split; [auto|]. constructor; [done|by apply reports_aside].
    + intros a w1 _. apply runs_ret. intros w2. apply runs_ret. split; [|by repeat constructor].
      right. split; [done|]. by eexists.
  - apply runs_ret. split; [|done]. by left.
Qed.

Lemma runs_dg_send_recv e fd to outbuff inbuff inbytes st w :
  0 <= inbytes -> (Z.to_nat inbytes <= length inbuff)%nat -> static_ok st ->
  runs (dg_send_recv e fd outbuff inbuff inbytes to st)
    (answered_by e fd to outbuff inbytes (length inbuff) st) (unanswered e fd to outbuff inbytes st) w.
Proof.
  intros Hin Hsize [Hhdr Hrto]. unfold dg_send_recv. apply runs_bind.
  eapply runs_mono; [apply runs_timer| |].
  2:{ intros h ev [Hh Ho]. split; [by apply halfway_aside|]. destruct Hh; auto. }
  intros [info dflag] ev0 [Ht Ho] w1. cbn [fst] in Ht.
  assert (forall h q, (h = Blocked \/ h = Exited 1) -> only aside q -> unanswered e fd to outbuff inbytes st h (ev0 ++ q)) as Hq.
  { intros h q Hh Hoq. split; [apply halfway_aside; by apply only_app|]. destruct Hh; auto. }
  eapply runs_wraps; [apply Signal_wraps|apply Hq; auto| |].
  { intros a rep _ Hrep. apply Hq; [auto|]. constructor; [done|by apply reports_aside]. }
  intros a w2 _. set (sig := (libc _ _ _, _) : event).
  assert (only aside (ev0 ++ [sig])) as Hsig by (apply only_app; split; [done|by repeat constructor]).
  apply runs_bind. eapply runs_mono;
    [apply (runs_exchange e fd to outbuff inbytes (next_seq st) (length inbuff) dflag (rtt_newpack info) (recvhdr st, inbuff)); try done| |].
  - intros [n [info' [hdr inbuff']]] ev (reqs & als & ds & Hl & Hc & Hd & Hst & Hr) w3. apply runs_ret.
    rewrite app_nil_r. change (sig :: ev) with ([sig] ++ ev). rewrite app_assoc.
    exists (rtt_newpack info), reqs, als, ds. split; [done|]. split; [done|]. split; [done|]. split; [done|].
    split; [done|]. cbn [send_seq rttinit rttinfo].
    destruct n as [n|].
    + destruct Hr as ([Hb1 Hb2] & d & ms & (Hf & Hn & Hle & Hh & Htk) & -> & Hev). cbn [fst snd] in *.
      split; [done|]. split; [split; [done|intros _; apply rtt_stop_ok]|]. split; [done|].
      exists d, ms. split; [done|]. split; [lia|]. split; [lia|]. split.
      { rewrite <- Htk. f_equal. unfold sizeof_hdr in *. lia. }
      split; [done|]. split; [done|]. by apply rseg_aside_l.
    + destruct Hr as ([Hb1 Hb2] & Hl4 & Hev). cbn [fst snd] in *.
      split; [done|]. split; [by split|]. split; [done|]. split; [done|]. split; [done|]. by apply rseg_aside_l.
  - intros h ev [Hh (reqs & ds & r & als & Hev & ?)]. change (sig :: ev) with ([sig] ++ ev). rewrite app_assoc.
    split.
    + exists reqs, ds, r, als. split; [by apply rseg_aside_l|done].
    + destruct Hh as [?|[?|[? (k & Hk & Hu)]]]; [by left|by right; left|]. right. right. split; [done|]. by eexists _, k.
Qed.

(** ** The client of rtt/dg_cli.c *)

Lemma makes_wraps {A} P (m : M A) c good val flag text code :
  wraps m c good val flag text code -> P c -> (forall c, is_report c -> P c) -> makes P m.
Proof.
  intros Hw Hc Hr w. eapply runs_wraps_ret; [exact Hw|done| |].
  - intros a rep _ Hrep. constructor; [done|]. by apply (only_mono _ _ _ Hr).
  - intros a _. by constructor.
Qed.

Lemma is_report_silent c : is_report c -> silent c.
Proof. by destruct c. Qed.

Lemma makes_rtt_ts ptr : makes silent (rtt_ts ptr).
Proof.
  apply makes_bind; [|intros; apply makes_ret].
  by apply (makes_wraps _ _ _ _ _ _ _ _ Gettimeofday_wraps); [|apply is_report_silent].
Qed.

Lemma makes_dg_send_recv e fd to outbuff inbuff inbytes st :
  makes silent (dg_send_recv e fd outbuff inbuff inbytes to st).
Proof.
  assert (forall text, makes silent (err_msg text)) as Hmsg by (intros; apply makes_report, is_report_silent).
  unfold dg_send_recv. apply makes_bind.
  { destruct (rttinit st =? 0); [|apply makes_ret].
    repeat (apply makes_bind; [|intros; apply makes_ret]).
    by apply (makes_wraps _ _ _ _ _ _ _ _ Gettimeofday_wraps); [|apply is_report_silent]. }
  intros [info dflag]. cbv zeta. apply makes_bind.
  { by apply (makes_wraps _ _ _ _ _ _ _ _ (Signal_wraps SIGALRM sig_alrm)); [|apply is_report_silent]. }
  intros _. apply makes_bind; [|intros [n [info' [hdr b]]]; apply makes_ret].
  apply makes_loop. intros [ptr bufs]. unfold sendagain.
  apply makes_bind; [by apply makes_output|]. intros _. apply makes_bind; [apply makes_rtt_ts|]. intros ts.
  apply makes_bind.
  { by apply (makes_wraps _ _ _ _ _ _ _ _ (Sendmsg_wraps fd _ _ 0)); [|apply is_report_silent]. }
  intros _. apply makes_bind; [destruct (rtt_start ptr); [apply makes_ret|apply makes_halted]|]. intros secs.
  apply makes_bind; [by apply makes_kernel|]. intros _. apply makes_bind.
  { unfold rtt_debug, stderr. solve_makes. }
  intros _. apply makes_bind.
  { apply makes_loop. intros s. unfold recv_body, stderr. solve_makes. apply makes_err_sys, is_report_silent. }
  intros [[n|] bufs'].
  - apply makes_bind; [by apply makes_kernel|]. intros _.
    apply makes_bind; [apply makes_rtt_ts|intros; apply makes_ret].
  - destruct (rtt_timeout ptr) as [rc info']. destruct (rc <? 0); (apply makes_bind; [apply Hmsg|]); intros _.
    + apply makes_bind; [apply makes_set_errno|intros; apply makes_ret].
    + apply makes_ret.
Qed.

(** One line of input: its requests, the datagrams dropped, and its reply. *)
Record turn : Type := Turn {
  t_line : list Z;
  t_requests : list request;
  t_dropped : list (list Z);
  t_reply : list Z
}.
Definition good_turn e (fd : Z) (to : list Z) (num : Z) (t : turn) : Prop :=
  (1 <= length (t_requests t) <= 4)%nat /\
  Forall (copy_of e fd to (c_string (t_line t)) num) (t_requests t) /\
  Forall (stale e num) (t_dropped t) /\ fresh e num (t_reply t).

(** The number of the [i]th request of a program. *)
Definition number (i : nat) : Z := u32 (Z.of_nat i + 1).

Definition reliable e (fd : Z) (to : list Z) (ts : list turn) (evs : list event) : Prop :=
  inputs evs = t_line <$> ts /\
  requests evs = concat (t_requests <$> ts) /\
  replies MAXLINE evs = concat ((fun t => t_dropped t ++ [t_reply t]) <$> ts) /\
  displays evs = (fun t => c_string (drop 8 (t_reply t))) <$> ts /\
  forall i t, ts !! i = Some t -> good_turn e fd to (number i) t.

(** Stopped in the turn after [ts]: nothing of it is shown. *)
Definition turning e (fd : Z) (to : list Z) (i : nat) (evs : list event) : Prop :=
  displays evs = [] /\
  (inputs evs = [] /\ only aside evs \/
   exists line, inputs evs = [line] /\ halfway e fd to (c_string line) MAXLINE (number i) 4 evs).
Definition reliable_cut e (fd : Z) (to : list Z) (h : halt) (evs : list event) : Prop :=
  (h = Blocked \/ h = Exited 1 \/
   h = Undefined /\ exists info k, rto_ok (rtt_rto info) /\ (k < 4)%nat /\ rtt_start (after k info) = None) /\
  exists ts ev1 ev2, evs = ev1 ++ ev2 /\ reliable e fd to ts ev1 /\ turning e fd to (length ts) ev2.

Definition dg_cli_inv e (fd : Z) (to : list Z) (p : list Z * dg_static) (evs : list event) : Prop :=
  Z.of_nat (length p.1) = MAXLINE + 1 /\ static_ok p.2 /\
  exists ts, reliable e fd to ts evs /\ send_seq p.2 = u32 (Z.of_nat (length ts)).

Lemma number_next st n : send_seq st = u32 (Z.of_nat n) -> next_seq st = number n.
Proof.
  intros H. unfold next_seq, number, u32. rewrite H. unfold u32.
  by rewrite Z.add_mod_idemp_l.
Qed.

Lemma timer_of_ok st info : static_ok st -> timer_of st info -> rto_ok (rtt_rto info).
Proof. intros [_ Hok] [[Hn ->]|[_ [base ->]]]; [by apply Hok|apply rtt_minmax_ok]. Qed.

Lemma c_string_cut (l rest : list Z) : c_string (l ++ 0 :: rest) = c_string l.
Proof. induction l as [|c l IH]; [done|]. cbn. destruct (c =? 0); [done|]. by rewrite IH. Qed.

Lemma reliable_snoc e fd to ts t ev1 ev2 :
  reliable e fd to ts ev1 -> good_turn e fd to (number (length ts)) t ->
  inputs ev2 = [t_line t] -> requests ev2 = t_requests t -> replies MAXLINE ev2 = t_dropped t ++ [t_reply t] ->
  displays ev2 = [c_string (drop 8 (t_reply t))] -> reliable e fd to (ts ++ [t]) (ev1 ++ ev2).
Proof.
  intros (H1 & H2 & H3 & H4 & H5) Ht I1 I2 I3 I4. unfold reliable, requests, replies in *.
  rewrite inputs_app, displays_app, !omap_app, !fmap_app, !concat_app, H1, H2, H3, H4, I1, I2, I3, I4.
  cbn. rewrite !app_nil_r. split_and!; try done.
  intros i t' Hi. apply lookup_app_Some in Hi as [Hi|[Hl Hi]]; [by apply H5|].
  destruct (i - length ts)%nat eqn:E; [|done]. cbn in Hi. injection Hi as <-.
  by replace i with (length ts) by lia.
Qed.

Lemma reliable_stop e fd to ts h ev1 ev2 :
  reliable e fd to ts ev1 -> h = Blocked \/ h = Exited 1 -> turning e fd to (length ts) ev2 -> reliable_cut e fd to h (ev1 ++ ev2).
Proof. intros H1 Hh H2. split; [tauto|]. by exists ts, ev1, ev2. Qed.

Lemma runs_rtt_body e fd to p evs w :
  dg_cli_inv e fd to p evs ->
  runs (rtt_dg_cli_body e fd to p)
    (fun r ev => match r with
       | inl p' => (0 < waits ev)%nat /\ dg_cli_inv e fd to p' (evs ++ ev)
       | inr _ => exists ts, reliable e fd to ts (evs ++ ev)
       end)
    (fun h ev => reliable_cut e fd to h (evs ++ ev)) w.
Proof.
  destruct p as [recvline st]. intros (Hlen & Hst & ts & Hts & Hseq). cbn [fst snd] in *.
  unfold rtt_dg_cli_body. apply runs_Fgets.
  - apply (reliable_stop e fd to ts); [done|auto|]. split; [done|]. by left.
  - intros a rep Ha Hrep. apply (reliable_stop e fd to ts); [done|auto|].
    destruct (noise_reports 0 rep Hrep) as (H1 & _ & _ & H2). split; [done|]. left. split.
    + cbn. by replace (0 <? a_ret a) with false by lia.
    + constructor; [done|by apply reports_aside].
  - intros a w1 Ha. apply runs_ret. exists ts. destruct Hts as (H1 & H2 & H3 & H4 & H5).
    unfold reliable, requests, replies in *.
    rewrite inputs_app, displays_app, !omap_app, H1, H2, H3, H4. cbn. rewrite Ha. cbn. by rewrite !app_nil_r.
  - intros a w1 Hin _. set (ev := (CFgets MAXLINE, a)) in *. set (line := a_data a) in *.
    pose proof (number_next _ _ Hseq) as Hnum. unfold Dg_send_recv.
    apply runs_bind, runs_bind. eapply runs_mono; [apply (runs_conj _ _ _ _ _ _
      (runs_dg_send_recv e fd to (c_string line) recvline MAXLINE st _ ltac:(done) ltac:(lia) Hst)
      (makes_dg_send_recv e fd to (c_string line) recvline MAXLINE st _))| |].
    2:{ intros h q [[Hhalf Hh] Ho]. destruct (only_silent 0 q Ho) as (Q1 & _ & _ & Q2). split.
        - destruct Hh as [?|[?|[? (info & k & Ht & Hk & Hu)]]]; [by left|by right; left|]. right. right.
          split; [done|]. exists info, k. split; [by eapply timer_of_ok|done].
        - exists ts, evs, (ev :: q). split; [done|]. split; [done|]. split; [done|]. right. exists line.
          split; [change (ev :: q) with ([ev] ++ q); by rewrite inputs_app, Hin, Q1|]. rewrite <- Hnum.
          destruct Hhalf as (reqs & ds & r & als & Hs & ?). exists reqs, ds, r, als.
          split; [by apply (rseg_aside_l _ _ _ _ [ev]); [repeat constructor|]|done]. }
    intros [n [recvline' st']] q [(info & reqs & als & ds & Ht & Hl & Hc & Hd & Hstd & Hlen' & Hst' & Hseq' & Hn) Ho] w2.
    destruct (only_silent 0 q Ho) as (Q1 & _ & _ & Q2).
    assert (inputs (ev :: q) = [line]) as Hin2
      by (change (ev :: q) with ([ev] ++ q); by rewrite inputs_app, Hin, Q1).
    assert (forall h r als x, (h = Blocked \/ h = Exited 1) -> rseg MAXLINE reqs (ds ++ r) als (ev :: q) ->
      (length r <= 1)%nat -> only aside x -> inputs x = [] -> displays x = [] ->
      reliable_cut e fd to h (evs ++ (ev :: q) ++ x)) as Hcut.
    { intros h r als' x Hh Hs Hr Hx X1 X2. apply (reliable_stop e fd to ts); [done|done|]. split.
      - rewrite displays_app, X2, app_nil_r. exact Q2.
      - right. exists line. split; [by rewrite inputs_app, X1, app_nil_r|]. rewrite <- Hnum.
        apply (halfway_intro _ _ _ _ _ _ 4 reqs ds r als'); [by apply rseg_aside_r|done|lia|done|done]. }
    destruct n as [n|].
    + destruct Hn as (d & ms & Hf & Hnd & Hnle & Htk & _ & _ & Hs). unfold sizeof_hdr in Hnd.
      apply (rseg_aside_l _ _ _ _ [ev]) in Hs; [|by repeat constructor]. cbn [app] in Hs.
      apply runs_ret. intros w3. rewrite app_nil_r.
      assert (0 <= n) as Hn0 by (destruct Hf as [Hf _]; unfold sizeof_hdr in Hf; lia).
      eapply runs_or_undef; [apply store_ok; lia|].
      set (rl := <[Z.to_nat n := 0]> recvline').
      assert (c_string rl = c_string (drop 8 d)) as Hshow.
      { unfold rl. rewrite <- Htk, insert_take_drop by lia. apply c_string_cut. }
      eapply runs_wraps; [apply Fputs_wraps| | |].
      * rewrite !app_nil_r. rewrite <- (app_nil_r (evs ++ _)), <- app_assoc.
        by eapply (Hcut _ [d] _ []); [auto|exact Hs|simpl; lia|constructor|..].
      * intros b rep Hb Hrep. unfold succeeded in Hb.
        destruct (noise_reports 0 rep Hrep) as (H1 & _ & _ & H2).
        eapply (Hcut _ [d] _ (_ :: rep)); [auto|exact Hs|simpl; lia| |exact H1|].
        -- constructor; [done|by apply reports_aside].
        -- cbn -[normalise]. by replace (_ <? 0) with true by lia.
      * intros b w4 Hb. unfold succeeded in Hb. apply runs_ret. split; [simpl; lia|].
        set (put := (CFputs (c_string rl), normalise (CFputs (c_string rl)) b)).
        split; [unfold rl; cbn [fst]; rewrite length_insert; lia|]. split; [done|].
        exists (ts ++ [Turn line reqs ds d]). split.
        -- change (ev :: q ++ [put]) with ((ev :: q) ++ [put]).
           assert (rseg MAXLINE reqs (ds ++ [d]) (als ++ [0]) ((ev :: q) ++ [put])) as (R1 & R2 & _)
             by (by apply rseg_aside_r; [repeat constructor|]).
           apply reliable_snoc; cbn [t_line t_requests t_dropped t_reply]; try done.
           ++ rewrite <- Hnum. done.
           ++ by rewrite inputs_app, Hin2.
           ++ rewrite displays_app. change (displays (ev :: q)) with (displays q). rewrite Q2. unfold put.
              cbn -[normalise]. replace (_ <? 0) with false by lia. by rewrite Hshow.
        -- cbn [snd]. rewrite Hseq', Hnum, length_app. unfold number. f_equal. simpl. lia.
    + destruct Hn as (_ & _ & Hs). apply (rseg_aside_l _ _ _ _ [ev]) in Hs; [|by repeat constructor]. cbn [app] in Hs.
      apply runs_err_quit. intros rep Hrep. destruct (noise_reports 0 rep Hrep) as (H1 & _ & _ & H2).
      apply (Hcut (Exited 1) [] als rep); [auto|by rewrite app_nil_r|simpl; lia|by apply reports_aside|done|done].
Qed.

Definition rtt_client_end e (fd : Z) (to : list Z) (h : halt) (evs : list event) : Prop :=
  h = Exited 0 /\ (exists ts, reliable e fd to ts evs) \/ reliable_cut e fd to h evs.

Lemma runs_rtt_dg_cli e recvline fd to :
  length recvline = S (Z.to_nat MAXLINE) -> runs_to (rtt_dg_cli e recvline fd to) (rtt_client_end e fd to).
Proof.
  intros Hlen w. eapply runs_mono; [apply (runs_loop _ (dg_cli_inv e fd to)
    (fun _ evs => exists ts, reliable e fd to ts evs) (reliable_cut e fd to))| |].
  - unfold dg_cli_inv. cbn [fst snd]. split; [rewrite Hlen; done|]. split; [done|]. by exists [].
  - intros p evs w1 Hp. by apply runs_rtt_body.
  - intros [] evs Hts. left. split; [done|exact Hts].
  - intros h evs Hc. by right.
Qed.

(** C33: The reliable UDP client (rtt/dg_send_recv.c, lib/rtt.c, rtt/dg_cli.c,
    rtt/udpcli01.c), with any answers of the kernel, so any loss, delay,
    duplication and reordering of datagrams.  One call of [dg_send_recv] sends
    one to four copies of the request, all under the next number and to the
    server, with the timeout doubled after each alarm; every datagram it drops
    is too short or has another number; it returns the payload of the first
    datagram with its number, cut to the buffer, and the timer that the
    estimator makes of the one before; or, after four alarms, -1.  The program
    shows, for each line in order, the reply with the number of that line and
    nothing else, and stops in the middle of a line only when it waits for
    ever, after a reported error, or in the undefined conversion of a timeout
    that is no [int]; an estimate is between RTT_RXTMIN and RTT_RXTMAX. *)
Theorem rtt_client_correct e fd to outbuff inbuff inbytes st recvline argv ptr ms w :
  0 <= inbytes -> (Z.to_nat inbytes <= length inbuff)%nat -> static_ok st ->
  length recvline = S (Z.to_nat MAXLINE) ->
  runs (dg_send_recv e fd outbuff inbuff inbytes to st)
    (answered_by e fd to outbuff inbytes (length inbuff) st) (unanswered e fd to outbuff inbytes st) w /\
  runs (rtt_udpcli01 e recvline argv) (fun _ _ => False) (udp_end udp_usage 7 argv (rtt_client_end e)) w /\
  rto_ok (rtt_rto (rtt_stop ptr ms)).
Proof.
  intros Hin Hsize Hst Hlen. split; [by apply runs_dg_send_recv|]. split; [|apply rtt_stop_ok].
  apply runs_udp_main. intros fd' to'. by apply runs_rtt_dg_cli.
Qed.

(** The first transmission is lost; a datagram of another request is dropped;
    the reply is shown. *)
Definition lossy_world : world := world0
  [ok 3; data (chars "a" ++ [10]); now_is 100 0; ok 0;
   now_is 100 0; ok 10; ok 0; err EINTR;
   now_is 103 0; ok 10; ok 0;
   Ans 9 0 (hdr_bytes Little 7 0 ++ chars "z") []; Ans 10 0 (hdr_bytes Little 1 3000 ++ chars "a" ++ [10]) [];
   ok 0; now_is 103 250000; ok 0; ok 0].
Theorem rtt_client_correct_witness :
  static_ok dg_static0 /\
  runs (rtt_udpcli01 Little (replicate (S (Z.to_nat MAXLINE)) 0) [chars "udpcli01"; chars "127.0.0.1"])
    (fun _ _ => False)
    (udp_end udp_usage 7 [chars "udpcli01"; chars "127.0.0.1"] (rtt_client_end Little)) lossy_world /\
  (let '(r, w) := rtt_udpcli01 Little (replicate (S (Z.to_nat MAXLINE)) 0)
       [chars "udpcli01"; chars "127.0.0.1"] lossy_world in
   r = Halt (Exited 0) /\
   requests (trace w) = (fun ts => (3 :: 0 :: the_host, hdr_bytes Little 1 ts ++ chars "a" ++ [10])) <$> [0; 3000] /\
   displays (trace w) = [chars "a" ++ [10]] /\ alarms (trace w) = [3; 6; 0]).
Proof.
  assert (static_ok dg_static0) as Hst by (by split).
  split; [exact Hst|]. split; [|by vm_compute].
  destruct (rtt_client_correct Little 3 the_host [] [] 0 dg_static0 (replicate (S (Z.to_nat MAXLINE)) 0)
    [chars "udpcli01"; chars "127.0.0.1"] slowest 0 lossy_world (Z.le_refl 0) (le_n 0) Hst
    (length_replicate _ _)) as (_ & H & _). exact H.
Defined.
