(* ===== verification/NetConn.v ===== *)
(** * Connection set-up over lists of addresses

    lib/host_serv.c, tcp_connect.c, tcp_listen.c, udp_client.c, udp_connect.c,
    udp_server.c, names/udp_server_reuseaddr.c, and the programs on them:
    names/daytimetcpcli.c, daytimetcpcli1.c, daytimetcpcli2.c,
    daytimetcpsrv1.c to daytimetcpsrv4.c, daytimeudpcli1.c, daytimeudpcli2.c,
    daytimeudpsrv2.c, daytimeudpsrv3.c and udpcliserv/udpcli10.c.

    The resolver is asked with the calls "getaddrinfo" (its answer is 0 and the
    list, or the error number), "gai_strerror", "gethostbyname" and
    "getservbyname"; "ctime" gives the text of a time.  [freeaddrinfo] releases
    what the program no longer uses and is not an event. *)

From S2P Require Import Prelude InetPton InetNtop InetRound InetLegacy Unix ErrorLib Wrap ReadWrite TcpEcho TcpCli SockAddr SockOpt Udp UdpServ.

(** ** The lists of [getaddrinfo] *)

Definition AF_UNSPEC : Z := 0.
Definition AI_PASSIVE : Z := 1.
Definition AI_CANONNAME : Z := 2.

Record addrinfo : Type := AddrInfo {
  ai_family : Z;
  ai_socktype : Z;
  ai_protocol : Z;
  ai_addr : list Z;
  ai_canonname : option (list Z)
}.
#[export] Instance addrinfo_eq_dec : EqDecision addrinfo.
Proof. solve_decision. Defined.

(** The list as the answer carries it: for each element the three numbers, the
    length and the bytes of the address, the length and the characters of the
    canonical name (-1 for NULL).  Every element has five numbers, so that the
    length is fuel enough. *)
Fixpoint addrinfos (fuel : nat) (l : list Z) : list addrinfo :=
  match fuel, l with
  | S f, family :: socktype :: protocol :: n :: l1 =>
      match drop (Z.to_nat n) l1 with
      | c :: l2 =>
          AddrInfo family socktype protocol (map u8 (take (Z.to_nat n) l1))
            (if c <? 0 then None else Some (map u8 (take (Z.to_nat c) l2)))
          :: addrinfos f (drop (Z.to_nat c) l2)
      | [] => []
      end
  | _, _ => []
  end.

Definition present (s : option (list Z)) : Z := if s is Some _ then 1 else 0.
Definition name_bytes (s : option (list Z)) : list Z := if s is Some s then s ++ [0] else [].
Definition getaddrinfo_call (host serv : option (list Z)) (flags family socktype : Z) : call :=
  libc "getaddrinfo" [flags; family; socktype; present host; present serv] (name_bytes host ++ name_bytes serv).

(** A list, which is not empty, or an error number. *)
Definition getaddrinfo (host serv : option (list Z)) (flags family socktype : Z) : M (Z + list addrinfo) :=
  a ← kernel (getaddrinfo_call host serv flags family socktype);
  if a_ret a =? 0 then
    match addrinfos (length (a_data a)) (a_data a) with [] => undefined | l => mret (inr l) end
  else mret (inl (a_ret a)).
Definition gai_strerror (n : Z) : M (list Z) :=
  a ← kernel (libc "gai_strerror" [n] []); mret (c_string (map u8 (a_data a))).

(** "for %s, %s" of a null pointer is undefined. *)
Definition for_names (host serv : option (list Z)) : option (list Z) :=
  match host, serv with Some h, Some s => Some (h ++ chars ", " ++ s) | _, _ => None end.

(** ** lib/host_serv.c *)

Definition host_serv (host serv : option (list Z)) (family socktype : Z) : M (list addrinfo) :=
  n ← getaddrinfo host serv AI_CANONNAME family socktype;
  match n with inl _ => mret [] | inr res => mret res end.

Definition name_or (text : string) (s : option (list Z)) : list Z := if s is Some s then s else chars text.
Definition Host_serv (host serv : option (list Z)) (family socktype : Z) : M (list addrinfo) :=
  n ← getaddrinfo host serv AI_CANONNAME family socktype;
  match n with
  | inl code =>
      why ← gai_strerror code;
      err_quit (chars "host_serv error for " ++ name_or "(no hostname)" host ++ chars ", " ++
                name_or "(no service name)" serv ++ chars ": " ++ why)
  | inr res => mret res
  end.

(** ** The loop of lib/tcp_connect.c, tcp_listen.c, udp_connect.c and udp_server.c

    [use] is what a function does with a socket of its own; its result 0
    ends the search. *)
Fixpoint first_usable (use : Z -> addrinfo -> M Z) (res : list addrinfo) : M (option (Z * addrinfo)) :=
  match res with
  | [] => mret None
  | ai :: next =>
      sockfd ← ret_of (CSocket (ai_family ai) (ai_socktype ai) (ai_protocol ai));
      if sockfd <? 0 then first_usable use next
      else
        r ← use sockfd ai;
        if r =? 0 then mret (Some (sockfd, ai))
        else Close sockfd ;; first_usable use next
  end.

Definition open_first (name : string) (flags socktype : Z) (use : Z -> addrinfo -> M Z)
    (host serv : option (list Z)) : M (Z * addrinfo) :=
  n ← getaddrinfo host serv flags AF_UNSPEC socktype;
  match n with
  | inl code =>
      why ← gai_strerror code;
      names ← or_undef (for_names host serv);
      err_quit (chars (name ++ " error for ") ++ names ++ chars ": " ++ why)
  | inr res =>
      r ← first_usable use res;
      match r with
      | None => names ← or_undef (for_names host serv); err_sys (chars (name ++ " error for ") ++ names)
      | Some x => mret x
      end
  end.

Definition use_connect (sockfd : Z) (ai : addrinfo) : M Z := ret_of (CConnect sockfd (ai_addr ai)).
Definition use_bind (sockfd : Z) (ai : addrinfo) : M Z := ret_of (CBind sockfd (ai_addr ai)).
Definition use_reuse_bind (sockfd : Z) (ai : addrinfo) : M Z :=
  Setsockopt sockfd SOL_SOCKET SO_REUSEADDR [1; 0; 0; 0] ;; use_bind sockfd ai.

Definition tcp_connect (host serv : option (list Z)) : M Z :=
  r ← open_first "tcp_connect" 0 SOCK_STREAM use_connect host serv; mret r.1.
Definition Tcp_connect : option (list Z) -> option (list Z) -> M Z := tcp_connect.

(** The descriptor and the length of an address. *)
Definition tcp_listen (host serv : option (list Z)) : M (Z * Z) :=
  r ← open_first "tcp_listen" AI_PASSIVE SOCK_STREAM use_reuse_bind host serv;
  Listen r.1 LISTENQ ;;
  mret (r.1, sockaddr_len (ai_addr r.2)).
Definition Tcp_listen : option (list Z) -> option (list Z) -> M (Z * Z) := tcp_listen.

(** The descriptor and a copy of the address. *)
Definition udp_client (host serv : option (list Z)) : M (Z * list Z) :=
  r ← open_first "udp_client" 0 SOCK_DGRAM (fun _ _ => mret 0) host serv;
  Malloc (sockaddr_len (ai_addr r.2)) ;;
  mret (r.1, ai_addr r.2).
Definition Udp_client : option (list Z) -> option (list Z) -> M (Z * list Z) := udp_client.

Definition udp_connect (host serv : option (list Z)) : M Z :=
  r ← open_first "udp_connect" 0 SOCK_DGRAM use_connect host serv; mret r.1.
Definition Udp_connect (host serv : option (list Z)) : M Z :=
  n ← udp_connect host serv;
  if n <? 0 then
    why ← gai_strerror (- n);
    names ← or_undef (for_names host serv);
    err_quit (chars "udp_connect error for " ++ names ++ chars ": " ++ why)
  else mret n.

Definition udp_server (host serv : option (list Z)) : M (Z * Z) :=
  r ← open_first "udp_server" AI_PASSIVE SOCK_DGRAM use_bind host serv;
  mret (r.1, sockaddr_len (ai_addr r.2)).
Definition Udp_server : option (list Z) -> option (list Z) -> M (Z * Z) := udp_server.
(** names/udp_server_reuseaddr.c; its messages name udp_server. *)
Definition udp_server_reuseaddr (host serv : option (list Z)) : M (Z * Z) :=
  r ← open_first "udp_server" AI_PASSIVE SOCK_DGRAM use_reuse_bind host serv;
  mret (r.1, sockaddr_len (ai_addr r.2)).
Definition Udp_server_reuseaddr : option (list Z) -> option (list Z) -> M (Z * Z) := udp_server_reuseaddr.

(** ** An address that the kernel has stored, as a [struct sockaddr]

    Complete for its family, else its fields are not determined. *)
Definition sa_of (l : list Z) : option sockaddr :=
  match l with
  | f0 :: f1 :: rest =>
      let family := f0 + 256 * f1 in
      if family =? AF_INET then
        if decide (length l = 16%nat) then Some (SaIn (take 2 rest) (take 4 (drop 2 rest))) else None
      else if family =? AF_INET6 then
        if decide (length l = 28%nat)
        then Some (SaIn6 (take 2 rest) (take 4 (drop 2 rest)) (take 16 (drop 6 rest)) (drop 22 rest)) else None
      else if family =? AF_UNIX then
        if decide (length l = 110%nat) then Some (SaUn rest) else None
      else Some (SaOther family)
  | _ => None
  end.
Definition Sock_ntop_of (l : list Z) : M (list Z) :=
  sa ← or_undef (sa_of l); Sock_ntop sa (sockaddr_len l).
Definition Sock_ntop_host_of (l : list Z) : M (list Z) :=
  sa ← or_undef (sa_of l); Sock_ntop_host sa (sockaddr_len l).

(** ** The TCP clients of names/ *)

(** Everything the server sends, until it closes. *)
Definition copy_reply (sockfd : Z) : M unit :=
  loop (fun _ : unit =>
    a ← Read sockfd MAXLINE;
    if 0 <? a_ret a then Fputs (c_string (a_data a)) ;; mret (inl ()) else mret (inr ())) ().

Definition daytimetcpcli (argv : list (list Z)) : M Empty_set :=
  match argv with
  | [_; host; serv] =>
      sockfd ← Tcp_connect (Some host) (Some serv);
      ss ← Getpeername sockfd;
      peer ← Sock_ntop_host_of (map u8 (a_data ss));
      stdout (chars "connected to " ++ peer ++ newline) ;;
      copy_reply sockfd ;;
      exit 0
  | _ => err_quit (chars "usage: daytimetcpcli <hostname/IPaddress> <service/port#>")
  end.

(** [gethostbyname] and [getservbyname]: the addresses of four bytes, in
    order, and the two bytes of the port; NULL with the number [h_errno]. *)
Fixpoint quads (fuel : nat) (l : list Z) : list (list Z) :=
  match fuel, l with
  | S f, b0 :: b1 :: b2 :: b3 :: l' => map u8 [b0; b1; b2; b3] :: quads f l'
  | _, _ => []
  end.
Definition gethostbyname (name : list Z) : M (Z + list (list Z)) :=
  a ← kernel (libc "gethostbyname" [] name);
  mret (if a_ret a <? 0 then inl (a_err a) else inr (quads (length (a_data a)) (a_data a))).
Definition getservbyname (name proto : list Z) : M (option (list Z)) :=
  a ← kernel (libc "getservbyname" [] (name ++ [0] ++ proto));
  mret (if a_ret a <? 0 then None else Some (map u8 [byte_at (a_data a) 0; byte_at (a_data a) 1])).

(** [getservbyname], or the message. *)
Definition service {A} (serv : list Z) (k : list Z -> M A) : M A :=
  sp ← getservbyname serv (chars "tcp");
  match sp with None => err_quit (chars "getservbyname error for " ++ serv) | Some port => k port end.
(** lib/hstrerror.c *)
Definition HOST_NOT_FOUND : Z := 1.
Definition TRY_AGAIN : Z := 2.
Definition NO_RECOVERY : Z := 3.
Definition NO_DATA : Z := 4.
Definition hstrerror (err : Z) : list Z :=
  chars (if err =? 0 then "no error"
         else if err =? HOST_NOT_FOUND then "Unknown host"
         else if err =? TRY_AGAIN then "Hostname lookup failure"
         else if err =? NO_RECOVERY then "Unknown server error"
         else if err =? NO_DATA then "No address associated with name"
         else "unknown error").

(** The address with the port as it is in memory. *)
Definition sin_bytes (port addr : list Z) : list Z := [AF_INET; 0] ++ port ++ addr ++ replicate 8 0.

(** The loop over [*pptr]. *)
Fixpoint try_addresses (port : list Z) (pptr : list (list Z)) : M (option Z) :=
  match pptr with
  | [] => mret None
  | addr :: pptr' =>
      sockfd ← Socket AF_INET SOCK_STREAM 0;
      text ← Sock_ntop (SaIn port addr) sizeof_sockaddr_in;
      stdout (chars "trying " ++ text ++ newline) ;;
      r ← ret_of (CConnect sockfd (sin_bytes port addr));
      if r =? 0 then mret (Some sockfd)
      else
        err_ret (chars "connect error") ;;
        kernel (CClose sockfd) ;;
        try_addresses port pptr'
  end.
Definition try_and_copy (port : list Z) (pptr : list (list Z)) : M Empty_set :=
  r ← try_addresses port pptr;
  match r with
  | None => err_quit (chars "unable to connect")
  | Some sockfd => copy_reply sockfd ;; exit 0
  end.

Definition hostname_error {A} (name : list Z) (h_errno : Z) : M A :=
  err_quit (chars "hostname error for " ++ name ++ chars ": " ++ hstrerror h_errno).

(** [inet_aton] stores the address as it is compared there. *)
Definition daytimetcpcli1 (argv : list (list Z)) : M Empty_set :=
  match argv with
  | [_; host; serv] =>
      hp ← gethostbyname host;
      pptr ← match hp with
             | inr addrs => mret addrs
             | inl h_errno =>
                 match inet_aton host with
                 | None => hostname_error host h_errno
                 | Some inetaddr => mret [inetaddr]
                 end
             end;
      service serv (fun port => try_and_copy port pptr)
  | _ => err_quit (chars "usage: daytimetcpcli1 <hostname> <service>")
  end.

Definition daytimetcpcli2 (argv : list (list Z)) : M Empty_set :=
  match argv with
  | [_; host; serv] =>
      pptr ← match inet_pton AF_INET host with
             | (1, Some addr, _) => mret [addr]
             | _ =>
                 hp ← gethostbyname host;
                 match hp with inr addrs => mret addrs | inl h_errno => hostname_error host h_errno end
             end;
      let n := atoi serv in
      port ← (if 0 <? n then mret (htons n)
              else service serv mret);
      try_and_copy port pptr
  | _ => err_quit (chars "usage: daytimetcpcli2 <hostname> <service>")
  end.

(** ** The servers of names/ *)

(** "%.24s\r\n" of the text of [ctime]. *)
Definition stamp (text : list Z) : list Z := take 24 (c_string text) ++ [13; 10].
Definition time_stamp : M (list Z) :=
  ticks ← kernel (libc "time" [0] []);
  t ← kernel (libc "ctime" [a_ret ticks] []);
  if a_ret t <? 0 then undefined else mret (stamp (map u8 (a_data t))).

(** What a server does with the address of its client. *)
Definition day_turn (greet : list Z -> M unit) (linger : Z -> M unit) (rest : Z -> M unit) (listenfd : Z) : M unit :=
  a ← Accept listenfd;
  greet (sender a) ;;
  linger (a_ret a) ;;
  buff ← time_stamp;
  Write (a_ret a) buff ;;
  rest (a_ret a) ;;
  Close (a_ret a).
Definition day_loop (turn : M unit) : M Empty_set :=
  loop (fun _ : unit => turn ;; mret (inl ())) ().

(** [accept] stores at most so many bytes of the address; here into a
    [struct sockaddr_storage]. *)
Definition sizeof_storage : nat := 128.
Definition connection_from (addr : list Z) : M unit :=
  text ← Sock_ntop_of addr; stdout (chars "connection from " ++ text ++ newline).
Definition nothing (fd : Z) : M unit := mret ().

Definition listen_args (usage : string) (argv : list (list Z)) : M (Z * Z) :=
  match argv with
  | [_; serv] => Tcp_listen None (Some serv)
  | [_; host; serv] => Tcp_listen (Some host) (Some serv)
  | _ => err_quit (chars usage)
  end.
Definition daytimetcpsrv1 (argv : list (list Z)) : M Empty_set :=
  match argv with
  | [_; serv] =>
      l ← Tcp_listen None (Some serv);
      day_loop (day_turn (fun addr => connection_from (take sizeof_storage addr)) nothing nothing l.1)
  | _ => err_quit (chars "usage: daytimetcpsrv1 <service or port#>")
  end.
Definition daytimetcpsrv2 (argv : list (list Z)) : M Empty_set :=
  l ← listen_args "usage: daytimetcpsrv2 [ <host> ] <service or port>" argv;
  day_loop (day_turn (fun addr => connection_from (take sizeof_storage addr)) nothing nothing l.1).

(** [cliaddr] has [addrlen] bytes. *)
Definition SO_LINGER : Z := 13.
Definition daytimetcpsrv3 (argv : list (list Z)) : M Empty_set :=
  l ← listen_args "usage: daytimetcpsrv3 [ <host> ] <service or port>" argv;
  Malloc l.2 ;;
  day_loop (day_turn (fun addr => connection_from (take (Z.to_nat l.2) addr))
    (fun fd => Setsockopt fd SOL_SOCKET SO_LINGER [1; 0; 0; 0; 0; 0; 0; 0])
    (fun fd => kernel (libc "sleep" [2] []) ;; mret ()) l.1).

(** [getnameinfo] answers 0 and the two strings, each with its NUL. *)
Definition NI_NUMERICHOST : Z := 1.
Definition NI_NUMERICSERV : Z := 2.
Definition name_info (addr : list Z) : M unit :=
  a ← kernel (libc "getnameinfo" [Z.lor NI_NUMERICHOST NI_NUMERICSERV] addr);
  if a_ret a =? 0 then
    let host := c_string (map u8 (a_data a)) in
    let serv := c_string (map u8 (a_wdata a)) in
    stdout (chars "connection from " ++ host ++ chars "." ++ serv ++ newline)
  else mret ().
Definition daytimetcpsrv4 (argv : list (list Z)) : M Empty_set :=
  l ← listen_args "usage: daytimetcpsrv4 [ <host> ] <service or port>" argv;
  Malloc l.2 ;;
  day_loop (day_turn (fun addr => name_info (take (Z.to_nat l.2) addr)) nothing nothing l.1).

(** ** The UDP programs *)

Definition daytimeudpcli1 (argv : list (list Z)) : M Empty_set :=
  match argv with
  | [_; host; serv] =>
      c ← Udp_client (Some host) (Some serv);
      text ← Sock_ntop_host_of c.2;
      stdout (chars "sending to " ++ text ++ newline) ;;
      Sendto c.1 [0] c.2 ;;
      a ← Recvfrom c.1 MAXLINE 0;
      Fputs (c_string (a_data a)) ;;
      exit 0
  | _ => err_quit (chars "usage: daytimeudpcli1 <hostname/IPaddress> <service/port#>")
  end.
Definition daytimeudpcli2 (argv : list (list Z)) : M Empty_set :=
  match argv with
  | [_; host; serv] =>
      sockfd ← Udp_connect (Some host) (Some serv);
      Write sockfd [0] ;;
      a ← Read sockfd MAXLINE;
      Fputs (c_string (a_data a)) ;;
      exit 0
  | _ => err_quit (chars "usage: daytimeudpcli2 <hostname/IPaddress> <service/port#>")
  end.

(** [cliaddr] is a [struct sockaddr_storage], which holds any address. *)
Definition udp_day_turn (sockfd : Z) : M unit :=
  a ← Recvfrom sockfd MAXLINE 0;
  text ← Sock_ntop_of (sender a);
  stdout (chars "datagram from " ++ text ++ newline) ;;
  buff ← time_stamp;
  Sendto sockfd buff (sender a).
Definition udp_day_server (server : option (list Z) -> option (list Z) -> M (Z * Z)) (argv : list (list Z))
  : M Empty_set :=
  s ← match argv with
      | [_; serv] => server None (Some serv)
      | [_; host; serv] => server (Some host) (Some serv)
      | _ => err_quit (chars "usage: daytimeudpsrv [ <host> ] <service or port>")
      end;
  day_loop (udp_day_turn s.1).
Definition daytimeudpsrv2 : list (list Z) -> M Empty_set := udp_day_server Udp_server.
Definition daytimeudpsrv3 : list (list Z) -> M Empty_set := udp_day_server Udp_server_reuseaddr.

Definition udpcli10 (argv : list (list Z)) : M Empty_set :=
  match argv with
  | [_; host; serv] =>
      c ← Udp_client (Some host) (Some serv);
      dg_cli c.1 c.2 ;;
      exit 0
  | _ => err_quit (chars "usage: udpcli02 <hostname> <service>")
  end.

(** ** The search for an address *)

(** The descriptors that [socket] has given out. *)
Fixpoint opened (evs : list event) : list Z :=
  match evs with
  | [] => []
  | (CSocket _ _ _, a) :: evs' => if a_ret a <? 0 then opened evs' else a_ret a :: opened evs'
  | _ :: evs' => opened evs'
  end.
Lemma opened_app a b : opened (a ++ b) = opened a ++ opened b.
Proof. induction a as [|[c x] a IH]; [done|]. destruct c; simpl; rewrite ?IH; try done. by destruct (_ <? 0). Qed.

(** Calls that neither open nor close. *)
Definition plain (c : call) : Prop := match c with CSocket _ _ _ | CClose _ => False | _ => True end.
Lemma plain_events e : only plain e -> opened e = [] /\ closed e = [].
Proof.
  induction 1 as [|[c a] e Hc He [IH1 IH2]]; [done|]. by destruct c.
Qed.
Lemma reports_plain rep : only is_report rep -> only plain rep.
Proof. apply only_mono. by intros []. Qed.

Definition held (e : list event) (l : list Z) : Prop := opened e = closed e ++ l.
Lemma held_plain_l q e l : only plain q -> held e l -> held (q ++ e) l.
Proof. intros [H1 H2]%plain_events He. unfold held. by rewrite opened_app, closed_app, H1, H2. Qed.
Lemma held_plain_r q e l : only plain q -> held e l -> held (e ++ q) l.
Proof. intros [H1 H2]%plain_events He. unfold held. by rewrite opened_app, closed_app, H1, H2, !app_nil_r. Qed.
Lemma held_app e1 e2 l : held e1 [] -> held e2 l -> held (e1 ++ e2) l.
Proof. unfold held. intros H1 H2. rewrite opened_app, closed_app, H1, H2, app_nil_r. by rewrite app_assoc. Qed.

Definition socket_of (ai : addrinfo) : call := CSocket (ai_family ai) (ai_socktype ai) (ai_protocol ai).
Definition answered (a : answer) : list addrinfo := addrinfos (length (a_data a)) (a_data a).
Definition stopped (h : halt) : Prop := h = Blocked \/ h = Exited 1.

Section Search.
Context (use : Z -> addrinfo -> M Z) (U : Z -> addrinfo -> Z -> list event -> Prop).
Context (use_runs : forall fd ai w,
  runs (use fd ai) (fun r e => U fd ai r e /\ only plain e) (fun h e => stopped h /\ only plain e) w).

(** None of the addresses can be used; every socket made for one is closed. *)
Inductive tried : list addrinfo -> list event -> Prop :=
| tried_nil : tried [] []
| tried_refused ai l s e :
    a_ret s < 0 -> tried l e -> tried (ai :: l) ((socket_of ai, s) :: e)
| tried_closed ai l s r u k e :
    0 <= a_ret s -> U (a_ret s) ai r u -> only plain u -> r <> 0 -> 0 <= a_ret k -> tried l e ->
    tried (ai :: l) ((socket_of ai, s) :: u ++ (CClose (a_ret s), k) :: e).

(** The first address that can be used. *)
Definition found (res : list addrinfo) (x : Z * addrinfo) (e : list event) : Prop :=
  exists before after ev s u, res = before ++ x.2 :: after /\ tried before ev /\
    0 <= a_ret s /\ x.1 = a_ret s /\ U (a_ret s) x.2 0 u /\ only plain u /\
    e = ev ++ (socket_of x.2, s) :: u.

(** Stopped at an address: its socket may be left. *)
Definition tried_cut (res : list addrinfo) (h : halt) (e : list event) : Prop :=
  stopped h /\ exists before after ev part l, res = before ++ after /\ tried before ev /\
    e = ev ++ part /\ held part l /\ (length l <= 1)%nat.

Lemma tried_app l1 l2 e1 e2 : tried l1 e1 -> tried l2 e2 -> tried (l1 ++ l2) (e1 ++ e2).
Proof.
  induction 1 as [|ai l s e Hs _ IH|ai l s r u k e Hs Hu Hp Hr Hk _ IH]; intros H2; [done|..]; cbn [app].
  - apply tried_refused; auto.
  - rewrite <- app_assoc. cbn [app]. eapply tried_closed; eauto.
Qed.

Lemma tried_held l e : tried l e -> held e [].
Proof.
  induction 1 as [|ai l s e Hs _ IH|ai l s r u k e Hs Hu Hp Hr Hk _ IH]; [done|..].
  - apply (held_app [_]); [|done]. unfold held. simpl. by replace (a_ret s <? 0) with true by lia.
  - change ((socket_of ai, s) :: u ++ (CClose (a_ret s), k) :: e)
      with ([(socket_of ai, s)] ++ u ++ [(CClose (a_ret s), k)] ++ e).
    rewrite !(app_assoc _ _ e). apply held_app; [|done]. rewrite app_assoc.
    destruct (plain_events u Hp) as [H1 H2]. unfold held. rewrite !opened_app, !closed_app, H1, H2. simpl.
    by replace (a_ret s <? 0) with false by lia.
Qed.

Lemma found_held res x e : found res x e -> held e [x.1].
Proof.
  intros (before & after & ev & s & u & _ & Ht & Hs & Hx & _ & Hp & ->).
  apply held_app; [by eapply tried_held|]. apply (held_plain_r u [_]); [done|].
  unfold held. simpl. by rewrite Hx; replace (a_ret s <? 0) with false by lia.
Qed.

Lemma found_later l1 l2 e1 e2 x : tried l1 e1 -> found l2 x e2 -> found (l1 ++ l2) x (e1 ++ e2).
Proof.
  intros H1 (before & after & ev & s & u & -> & Ht & H). exists (l1 ++ before), after, (e1 ++ ev), s, u.
  rewrite <- !app_assoc. destruct H as (? & ? & ? & ? & ->). split; [done|]. split; [by apply tried_app|]. done.
Qed.
Lemma tried_cut_later l1 l2 e1 e2 h : tried l1 e1 -> tried_cut l2 h e2 -> tried_cut (l1 ++ l2) h (e1 ++ e2).
Proof.
  intros H1 (Hh & before & after & ev & part & l & -> & Ht & -> & Hl). split; [done|].
  exists (l1 ++ before), after, (e1 ++ ev), part, l. rewrite <- !app_assoc. split; [done|].
  split; [by apply tried_app|]. done.
Qed.
Lemma tried_cut_here res h e l : stopped h -> held e l -> (length l <= 1)%nat -> tried_cut res h e.
Proof. intros Hh He Hl. split; [done|]. exists [], res, [], e, l. split; [done|]. split; [constructor|done]. Qed.

Lemma runs_first_usable res w :
  runs (first_usable use res)
    (fun r e => match r with None => tried res e | Some x => found res x e end) (tried_cut res) w.
Proof using use_runs.
  revert w. induction res as [|ai next IH]; intros w; cbn [first_usable].
  { apply runs_ret. constructor. }
  assert (forall ev w, tried [ai] ev ->
    runs (first_usable use next)
      (fun r e => match r with None => tried (ai :: next) (ev ++ e) | Some x => found (ai :: next) x (ev ++ e) end)
      (fun h e => tried_cut (ai :: next) h (ev ++ e)) w) as Hnext.
  { intros ev w1 Hev. eapply runs_mono; [apply IH| |].
    - intros [x|] e He; [by apply (found_later [ai])|by apply (tried_app [ai])].
    - intros h e He. by apply (tried_cut_later [ai]). }
  apply runs_ret_of; [done|apply (tried_cut_here _ _ _ []); [by left|done|simpl; lia]|].
  intros a w1 s _. fold (socket_of ai). destruct (a_ret s <? 0) eqn:Es; zbool.
  - apply (Hnext [_]). constructor; [done|constructor].
  - assert (held [(socket_of ai, s)] [a_ret s]) as Hheld
      by (unfold held; simpl; by replace (a_ret s <? 0) with false by lia).
    assert (forall h q, stopped h -> only plain q -> tried_cut (ai :: next) h ((socket_of ai, s) :: q)) as Hcut.
    { intros h q Hh Hq. apply (tried_cut_here _ _ _ [a_ret s]); [done| |simpl; lia].
      by apply (held_plain_r q [_]). }
    apply runs_bind. eapply runs_mono; [apply use_runs| |].
    2:{ intros h u [Hh Hp]. by apply Hcut. }
    intros r u [Hu Hp] w2. destruct (r =? 0) eqn:Er; zbool.
    + subst r. apply runs_ret. rewrite app_nil_r. exists [], next, [], s, u. cbn [fst snd app].
      split; [done|]. split; [constructor|]. done.
    + eapply runs_wraps; [apply Close_wraps| | |].
      * rewrite app_nil_r. by apply Hcut; [left|].
      * intros k rep Hk Hrep. apply (tried_cut_here _ _ _ []); [by right| |simpl; lia].
        change ((socket_of ai, s) :: u ++ (CClose (a_ret s), normalise (CClose (a_ret s)) k) :: rep)
          with ([(socket_of ai, s)] ++ u ++ [(CClose (a_ret s), normalise (CClose (a_ret s)) k)] ++ rep).
        rewrite !app_assoc. apply held_plain_r; [by apply reports_plain|].
        destruct (plain_events u Hp) as [H1 H2]. unfold held. rewrite !opened_app, !closed_app, H1, H2. simpl.
        by replace (a_ret s <? 0) with false by lia.
      * intros k w3 Hk. unfold succeeded in Hk.
        eapply runs_mono; [apply (Hnext ((socket_of ai, s) :: u ++ [(CClose (a_ret s), normalise (CClose (a_ret s)) k)]))| |].
        -- by apply (tried_closed _ [] s r u _ []); try constructor.
        -- intros r2 e He. destruct r2; cbn [app] in *; by rewrite <- app_assoc in He.
        -- intros h e He. cbn [app] in He. by rewrite <- app_assoc in He.
Qed.
End Search.

(** ** What the functions of the library do *)

Section Open.
Context (use : Z -> addrinfo -> M Z) (U : Z -> addrinfo -> Z -> list event -> Prop).
Context (use_runs : forall fd ai w,
  runs (use fd ai) (fun r e => U fd ai r e /\ only plain e) (fun h e => stopped h /\ only plain e) w).
Context (name : string) (flags socktype : Z) (host serv : option (list Z)).
Let asked : call := getaddrinfo_call host serv flags AF_UNSPEC socktype.

(** The resolver is asked once, and the first usable address is taken. *)
Definition opens (x : Z * addrinfo) (e : list event) : Prop :=
  exists a e', a_ret a = 0 /\ found U (answered a) x e' /\ e = (asked, a) :: e'.

(** Without a socket: the resolver fails or, against its contract, answers with
    no address; no address can be used; or the process is stopped on the way. *)
Inductive not_opened (h : halt) : list event -> Prop :=
| not_asked : h = Blocked -> not_opened h []
| not_resolved a e :
    a_ret a <> 0 -> only plain e -> (stopped h \/ h = Undefined /\ for_names host serv = None) ->
    not_opened h ((asked, a) :: e)
| no_address a : a_ret a = 0 -> answered a = [] -> h = Undefined -> not_opened h [(asked, a)]
| none_usable a e rep :
    a_ret a = 0 -> tried U (answered a) e -> only is_report rep ->
    (h = Exited 1 \/ h = Undefined /\ for_names host serv = None) -> not_opened h ((asked, a) :: e ++ rep)
| cut_short a e : a_ret a = 0 -> tried_cut U (answered a) h e -> not_opened h ((asked, a) :: e).

Lemma runs_open_first w : runs (open_first name flags socktype use host serv) opens not_opened w.
Proof using use_runs.
  unfold open_first, getaddrinfo. apply runs_bind, runs_call; [done|by constructor|].
  intros a0 w1 a _. fold asked in a |- *.
  destruct (a_ret a =? 0) eqn:Ea; zbool.
  - fold (answered a). destruct (answered a) as [|ai res] eqn:Er.
    + apply runs_halted. by apply no_address.
    + rewrite <- Er. apply runs_ret. intros w2. apply runs_bind. eapply runs_mono; [by apply (runs_first_usable use U)| |].
      * intros [x|] e He w3.
        -- apply runs_ret. exists a, e. by rewrite app_nil_r.
        -- destruct (for_names host serv) as [names|] eqn:En.
           ++ apply (runs_or_undef _ names); [done|]. apply runs_err_sys. intros rep Hrep.
              by apply (none_usable _ a e rep); [|exact He| |left].
           ++ apply (runs_none None); [done|]. by apply (none_usable _ a e []); [|exact He| |right].
      * intros h e He. by apply cut_short.
  - apply runs_ret. intros w2. unfold gai_strerror. apply runs_bind, runs_call; [done|apply not_resolved; [done|done|left; by left]|].
    intros b w3 x _. apply runs_ret. intros w4. cbn [app].
    destruct (for_names host serv) as [names|] eqn:En.
    + apply (runs_or_undef _ names); [done|]. apply runs_err_quit. intros rep Hrep.
      apply not_resolved; [done| |left; by right]. constructor; [done|by apply reports_plain].
    + apply (runs_none None); [done|]. apply not_resolved; [done|by repeat constructor|auto].
Qed.

Lemma not_opened_held h e : not_opened h e -> exists l, held e l /\ (length l <= 1)%nat.
Proof.
  assert (forall e a l, held e l -> held ((asked, a) :: e) l) as Hcons.
  { intros e0 a l. apply (held_plain_l [_]). by repeat constructor. }
  intros [->|a e0 _ Hp _|a _ _ _|a e0 rep _ Ht Hrep _|a e0 _ (_ & before & after & ev & part & l & _ & Ht & -> & Hl & Hn)].
  - exists []. split; [done|simpl; lia].
  - exists []. split; [apply Hcons|simpl; lia]. rewrite <- (app_nil_l e0). by apply held_plain_r.
  - exists []. split; [by apply Hcons|simpl; lia].
  - exists []. split; [apply Hcons|simpl; lia]. apply held_plain_r; [by apply reports_plain|by eapply tried_held].
  - exists l. split; [|done]. apply Hcons, held_app; [by eapply tried_held|done].
Qed.

Lemma opens_held x e : opens x e -> held e [x.1].
Proof.
  intros (a & e' & _ & Hf & ->). apply (held_plain_l [_]); [by repeat constructor|by eapply found_held].
Qed.
End Open.

(** The uses, as events. *)
Definition connecting (fd : Z) (ai : addrinfo) (r : Z) (e : list event) : Prop :=
  exists a, a_ret a = r /\ e = [(CConnect fd (ai_addr ai), a)].
Definition binding (fd : Z) (ai : addrinfo) (r : Z) (e : list event) : Prop :=
  exists a, a_ret a = r /\ e = [(CBind fd (ai_addr ai), a)].
Definition reuse_binding (fd : Z) (ai : addrinfo) (r : Z) (e : list event) : Prop :=
  exists s a, 0 <= a_ret s /\ a_ret a = r /\
    e = [(CSetsockopt fd SOL_SOCKET SO_REUSEADDR [1; 0; 0; 0], s); (CBind fd (ai_addr ai), a)].
Definition unused (fd : Z) (ai : addrinfo) (r : Z) (e : list event) : Prop := r = 0 /\ e = [].

Lemma runs_ret_of_end c (Q : Z -> list event -> Prop) (H : halt -> list event -> Prop) w :
  is_output c = false -> H Blocked [] -> (forall a, Q (a_ret a) [(c, a)]) -> runs (ret_of c) Q H w.
Proof.
  intros Hc HB HQ. unfold ret_of. apply runs_call; [done|done|]. intros a w1 x _. by apply runs_ret, HQ.
Qed.

Lemma use_connect_runs fd ai w :
  runs (use_connect fd ai) (fun r e => connecting fd ai r e /\ only plain e) (fun h e => stopped h /\ only plain e) w.
Proof.
  apply runs_ret_of_end; [done|by split; [left|]|]. intros a. split; [by exists a|by repeat constructor].
Qed.
Lemma use_bind_runs fd ai w :
  runs (use_bind fd ai) (fun r e => binding fd ai r e /\ only plain e) (fun h e => stopped h /\ only plain e) w.
Proof.
  apply runs_ret_of_end; [done|by split; [left|]|]. intros a. split; [by exists a|by repeat constructor].
Qed.
Lemma use_reuse_bind_runs fd ai w :
  runs (use_reuse_bind fd ai) (fun r e => reuse_binding fd ai r e /\ only plain e)
    (fun h e => stopped h /\ only plain e) w.
Proof.
  eapply runs_wraps; [apply Setsockopt_wraps|by split; [left|]| |].
  - intros a rep _ Hrep. split; [by right|]. constructor; [done|by apply reports_plain].
  - intros s w1 Hs. unfold succeeded in Hs. apply runs_ret_of_end; [done|split; [by left|by repeat constructor]|].
    intros a. split; [by eexists _, a|by repeat constructor].
Qed.
Lemma unused_runs fd ai w :
  runs (mret 0) (fun r e => unused fd ai r e /\ only plain e) (fun h e => stopped h /\ only plain e) w.
Proof. by apply runs_ret. Qed.

(** After an address was opened: the calls that remain. *)
Definition opened_then (U : Z -> addrinfo -> Z -> list event -> Prop) (flags socktype : Z)
    (host serv : option (list Z)) (R : Z * addrinfo -> list event -> Prop) (e : list event) : Prop :=
  exists x e1 e2, opens U flags socktype host serv x e1 /\ R x e2 /\ e = e1 ++ e2.
Definition open_fails (U : Z -> addrinfo -> Z -> list event -> Prop) (flags socktype : Z)
    (host serv : option (list Z)) (h : halt) (e : list event) : Prop :=
  not_opened U flags socktype host serv h e \/
  stopped h /\ opened_then U flags socktype host serv (fun _ e2 => only plain e2) e.

Definition tcp_connected (host serv : option (list Z)) (fd : Z) (e : list event) : Prop :=
  exists ai, opens connecting 0 SOCK_STREAM host serv (fd, ai) e.
Definition listening (host serv : option (list Z)) (r : Z * Z) (e : list event) : Prop :=
  opened_then reuse_binding AI_PASSIVE SOCK_STREAM host serv
    (fun x e2 => r = (x.1, sockaddr_len (ai_addr x.2)) /\ exists a n b,
       e2 = [(libc "getenv" [] (chars "LISTENQ"), a); (CListen x.1 n, b)]) e.
Definition client_ready (host serv : option (list Z)) (r : Z * list Z) (e : list event) : Prop :=
  opened_then unused 0 SOCK_DGRAM host serv
    (fun x e2 => r = (x.1, ai_addr x.2) /\ exists a, e2 = [(libc "malloc" [sockaddr_len (ai_addr x.2)] [], a)]) e.
Definition udp_connected (host serv : option (list Z)) (fd : Z) (e : list event) : Prop :=
  exists ai, opens connecting 0 SOCK_DGRAM host serv (fd, ai) e.
Definition bound (U : Z -> addrinfo -> Z -> list event -> Prop) (host serv : option (list Z)) (r : Z * Z)
    (e : list event) : Prop :=
  exists ai, opens U AI_PASSIVE SOCK_DGRAM host serv (r.1, ai) e /\ r.2 = sockaddr_len (ai_addr ai).

Lemma tcp_connect_runs host serv w :
  runs (tcp_connect host serv) (tcp_connected host serv) (not_opened connecting 0 SOCK_STREAM host serv) w.
Proof.
  apply runs_bind. eapply runs_mono; [apply (runs_open_first _ _ use_connect_runs)| |done].
  intros [fd ai] e He w1. apply runs_ret. rewrite app_nil_r. by exists ai.
Qed.
Lemma udp_connect_runs host serv w :
  runs (udp_connect host serv) (udp_connected host serv) (not_opened connecting 0 SOCK_DGRAM host serv) w.
Proof.
  apply runs_bind. eapply runs_mono; [apply (runs_open_first _ _ use_connect_runs)| |done].
  intros [fd ai] e He w1. apply runs_ret. rewrite app_nil_r. by exists ai.
Qed.
Lemma opens_fd U flags socktype host serv x e : opens U flags socktype host serv x e -> 0 <= x.1.
Proof. intros (a & e' & _ & (before & after & ev & s & u & _ & _ & Hs & -> & _) & _). done. Qed.
Lemma Udp_connect_runs host serv w :
  runs (Udp_connect host serv) (udp_connected host serv) (not_opened connecting 0 SOCK_DGRAM host serv) w.
Proof.
  apply runs_bind. eapply runs_mono; [apply udp_connect_runs| |done].
  intros fd e [ai He] w1. pose proof (opens_fd _ _ _ _ _ _ _ He) as Hfd. cbn [fst] in Hfd.
  replace (fd <? 0) with false by lia. apply runs_ret. rewrite app_nil_r. by exists ai.
Qed.
Lemma tcp_listen_runs host serv w :
  runs (tcp_listen host serv) (listening host serv) (open_fails reuse_binding AI_PASSIVE SOCK_STREAM host serv) w.
Proof.
  apply runs_bind. eapply runs_mono; [apply (runs_open_first _ _ use_reuse_bind_runs)| |by left].
  intros x e He w1.
  assert (forall h q, stopped h -> only plain q -> open_fails reuse_binding AI_PASSIVE SOCK_STREAM host serv h (e ++ q)) as Hs.
  { intros h q Hh Hq. right. split; [done|]. by exists x, e, q. }
  apply runs_bind, runs_Listen.
  - apply Hs; [by left|done].
  - intros a. apply Hs; [by left|by repeat constructor].
  - intros a n b rep Hrep. apply Hs; [by right|]. repeat (constructor; [done|]). by apply reports_plain.
  - intros a n b w2. apply runs_ret. exists x, e, [(libc "getenv" [] (chars "LISTENQ"), a); (CListen x.1 n, b)].
    split; [done|]. split; [|done]. split; [done|]. by exists a, n, b.
Qed.
Lemma udp_client_runs host serv w :
  runs (udp_client host serv) (client_ready host serv) (open_fails unused 0 SOCK_DGRAM host serv) w.
Proof.
  apply runs_bind. eapply runs_mono; [apply (runs_open_first _ _ unused_runs)| |by left].
  intros x e He w1. eapply runs_wraps; [apply Malloc_wraps| | |].
  - right. split; [by left|]. by exists x, e, [].
  - intros a rep _ Hrep. right. split; [by right|]. eexists x, e, (_ :: rep). split; [done|]. split; [|done].
    constructor; [done|by apply reports_plain].
  - intros a w2 _. apply runs_ret. exists x, e. eexists. split; [done|]. split; [|done]. split; [done|]. by eexists.
Qed.
Lemma udp_server_runs host serv w :
  runs (udp_server host serv) (bound binding host serv) (not_opened binding AI_PASSIVE SOCK_DGRAM host serv) w.
Proof.
  apply runs_bind. eapply runs_mono; [apply (runs_open_first _ _ use_bind_runs)| |done].
  intros [fd ai] e He w1. apply runs_ret. rewrite app_nil_r. by exists ai.
Qed.
Lemma udp_server_reuseaddr_runs host serv w :
  runs (udp_server_reuseaddr host serv) (bound reuse_binding host serv)
    (not_opened reuse_binding AI_PASSIVE SOCK_DGRAM host serv) w.
Proof.
  apply runs_bind. eapply runs_mono; [apply (runs_open_first _ _ use_reuse_bind_runs)| |done].
  intros [fd ai] e He w1. apply runs_ret. rewrite app_nil_r. by exists ai.
Qed.

(** [host_serv]: the list, or NULL; [Host_serv] reports. *)
Definition host_serv_asked (host serv : option (list Z)) (family socktype : Z) : call :=
  getaddrinfo_call host serv AI_CANONNAME family socktype.
Definition host_serv_spec (host serv : option (list Z)) (family socktype : Z) (w : world) : Prop :=
  let asked := host_serv_asked host serv family socktype in
  runs (host_serv host serv family socktype)
    (fun res e => exists a, e = [(asked, a)] /\ (a_ret a = 0 /\ res = answered a /\ res <> [] \/ a_ret a <> 0 /\ res = []))
    (fun h e => h = Blocked /\ e = [] \/ h = Undefined /\ exists a, a_ret a = 0 /\ answered a = [] /\ e = [(asked, a)]) w /\
  runs (Host_serv host serv family socktype)
    (fun res e => exists a, e = [(asked, a)] /\ a_ret a = 0 /\ res = answered a /\ res <> [])
    (fun h e => h = Blocked /\ e = [] \/
       exists a e', e = (asked, a) :: e' /\ only plain e' /\
         (a_ret a <> 0 /\ stopped h \/ h = Undefined /\ a_ret a = 0 /\ answered a = [] /\ e' = [])) w.
Lemma host_serv_runs host serv family socktype w : host_serv_spec host serv family socktype w.
Proof.
  unfold host_serv_spec. set (asked := host_serv_asked host serv family socktype).
  unfold host_serv, Host_serv, getaddrinfo. split.
  - apply runs_bind, runs_call; [done|by left|]. intros a0 w1 a _. fold (host_serv_asked host serv family socktype) asked in a |- *.
    destruct (a_ret a =? 0) eqn:Ea; zbool.
    + fold (answered a). destruct (answered a) as [|ai res] eqn:Er; [apply runs_halted; right; eauto|].
      rewrite <- Er. apply runs_ret. intros w2. apply runs_ret. exists a. split; [done|]. left. by rewrite Er.
    + apply runs_ret. intros w2. apply runs_ret. exists a. split; [done|]. by right.
  - apply runs_bind, runs_call; [done|by left|]. intros a0 w1 a _. fold (host_serv_asked host serv family socktype) asked in a |- *.
    destruct (a_ret a =? 0) eqn:Ea; zbool.
    + fold (answered a). destruct (answered a) as [|ai res] eqn:Er.
      { apply runs_halted. right. exists a, []. split; [done|]. split; [done|]. by right. }
      rewrite <- Er. apply runs_ret. intros w2. apply runs_ret. exists a. by rewrite Er.
    + apply runs_ret. intros w2. unfold gai_strerror. apply runs_bind, runs_call; [done| |].
      { right. exists a, []. split; [done|]. split; [done|]. left. split; [done|by left]. }
      intros b w3 x _. apply runs_ret. intros w4. apply runs_err_quit. intros rep Hrep.
      right. eexists a, (_ :: rep). split; [done|]. split; [constructor; [done|by apply reports_plain]|].
      left. split; [done|by right].
Qed.

(** ** The clients *)

(** The pieces of the stream that have been shown, each up to its first NUL. *)
Definition pieces (fd : Z) (e : list event) : list (list Z) := (incoming fd e).*1.
Lemma pieces_app fd a b : pieces fd (a ++ b) = pieces fd a ++ pieces fd b.
Proof. unfold pieces. by rewrite incoming_app, fmap_app. Qed.
Lemma pieces_cons fd ev e : pieces fd (ev :: e) = pieces fd [ev] ++ pieces fd e.
Proof. apply (pieces_app fd [ev]). Qed.
Definition copied (fd : Z) (ps : list (list Z)) (e : list event) : Prop :=
  displays e = c_string <$> ps /\ Forall (fun p => p <> []) ps.

Definition copy_ends (fd : Z) (h : halt) (e : list event) : Prop :=
  h = Exited 0 /\ (exists ps, copied fd ps e /\ pieces fd e = ps ++ [[]]) \/
  stopped h /\ exists ps r, copied fd ps e /\ pieces fd e = ps ++ r /\ (length r <= 1)%nat.

Lemma quiet_pieces fd e : quiet fd e -> pieces fd e = [] /\ displays e = [].
Proof. intros (_ & _ & H & Hd). unfold pieces. by rewrite H. Qed.

Lemma runs_copy_reply fd w :
  runs (copy_reply fd) (fun _ e => copy_ends fd (Exited 0) e) (fun h e => stopped h /\ copy_ends fd h e) w.
Proof.
  unfold copy_reply.
  apply (runs_loop _ (fun _ e => exists ps, copied fd ps e /\ pieces fd e = ps)); [exists []; by repeat split|].
  intros [] e w1 (ps & [Hd Hps] & Hp).
  assert (forall h q r, stopped h -> pieces fd q = r -> (length r <= 1)%nat -> displays q = [] ->
    stopped h /\ copy_ends fd h (e ++ q)) as Hcut.
  { intros h q r Hh Hq Hr Hdq. split; [done|]. right. split; [done|]. exists ps, r. unfold copied.
    by rewrite displays_app, pieces_app, Hd, Hp, Hq, Hdq, app_nil_r. }
  eapply runs_wraps; [apply Read_wraps| | |].
  - by apply (Hcut _ _ []); [left|..|simpl; lia|].
  - intros a rep Hbad Hrep. unfold succeeded in Hbad.
    destruct (quiet_pieces fd rep ltac:(auto with world)) as [H1 H2].
    apply (Hcut _ _ []); [by right| |simpl; lia|exact H2].
    rewrite pieces_cons, H1, app_nil_r. unfold pieces. cbn -[normalise].
    by replace (_ && _) with false by lia.
  - intros a w2 Hg. unfold succeeded in Hg.
    destruct (normalise_read fd MAXLINE a ltac:(unfold MAXLINE; lia)) as [[H _]|(_ & Hlen & _)]; [lia|].
    set (x := normalise (CRead fd MAXLINE) a) in *.
    assert (pieces fd [((CRead fd MAXLINE, x) : event)] = [a_data x]) as Hrd.
    { unfold pieces. cbn. by replace (_ && _) with true by lia. }
    cbn [id]. destruct (0 <? a_ret x) eqn:Ex; zbool.
    + eapply runs_wraps; [apply Fputs_wraps| | |].
      * by apply (Hcut _ [_] [a_data x]); [left|..|simpl; lia|].
      * intros b rep Hbad Hrep. unfold succeeded in Hbad.
        destruct (quiet_pieces fd rep ltac:(auto with world)) as [H1 H2].
        apply (Hcut _ _ [a_data x]); [by right| |simpl; lia|].
        -- by rewrite pieces_cons, Hrd, pieces_cons, H1.
        -- cbn -[normalise]. by replace (_ <? 0) with true by lia.
      * intros b w3 Hb. unfold succeeded in Hb. apply runs_ret. split; [simpl; lia|].
        exists (ps ++ [a_data x]). split; [split|].
        -- rewrite displays_app, Hd, fmap_app. cbn -[normalise]. by replace (_ <? 0) with false by lia.
        -- apply Forall_app. split; [done|]. constructor; [|done]. intros Hnil. rewrite Hnil in Hlen. simpl in Hlen. lia.
        -- rewrite pieces_app, Hp. f_equal. by rewrite pieces_cons, Hrd.
    + apply runs_ret. left. split; [done|]. exists ps. split.
      * split; [|done]. by rewrite displays_app, Hd, app_nil_r.
      * rewrite pieces_app, Hp. f_equal. transitivity [a_data x]; [exact Hrd|].
        assert (length (a_data x) = 0)%nat as ->%nil_length_inv by lia. done.
Qed.

(** After a program has connected by [e1]: [e2] is the rest. *)
Definition peer_call (fd : Z) : call := libc "getpeername" [fd] [].
Definition daytime_rest (fd : Z) (h : halt) (e : list event) : Prop :=
  stopped h /\ only silent e \/
  exists a, 0 <= a_ret a /\
    (h = Undefined /\ (forall sa, sa_of (map u8 (a_data a)) = Some sa -> ~ internet sa) /\ e = [(peer_call fd, a)] \/
     exists sa text e', sa_of (map u8 (a_data a)) = Some sa /\
       sock_ntop_host sa (sockaddr_len (a_data a)) = SrText text /\ copy_ends fd h e' /\
       e = (peer_call fd, a) :: (CStdout (chars "connected to " ++ text ++ newline), ok 0) :: e').

Lemma sa_of_wf l sa : bytes l -> sa_of l = Some sa -> internet sa -> wf_sa sa.
Proof.
  intros Hb Hs Hi. unfold sa_of in Hs. destruct l as [|f0 [|f1 rest]]; try done.
  unfold bytes in Hb. do 2 (apply Forall_cons in Hb as [_ Hb]).
  assert (forall n m, (m + n <= length rest)%nat -> length (take n (drop m rest)) = n /\ bytes (take n (drop m rest))) as Hpart.
  { intros n m Hn. split; [rewrite length_take, length_drop; lia|]. unfold bytes. by apply Forall_take, Forall_drop. }
  destruct (_ =? AF_INET) eqn:E1.
  { destruct (decide _) as [Hl|] in Hs; [|done]. injection Hs as <-. cbn [length] in Hl.
    destruct (Hpart 2%nat 0%nat) as [? ?]; [lia|]. destruct (Hpart 4%nat 2%nat) as [? ?]; [lia|].
    rewrite drop_0 in *. done. }
  destruct (_ =? AF_INET6) eqn:E2.
  { destruct (decide _) as [Hl|] in Hs; [|done]. injection Hs as <-. cbn [length] in Hl.
    destruct (Hpart 2%nat 0%nat) as [? ?]; [lia|]. destruct (Hpart 16%nat 6%nat) as [? ?]; [lia|].
    rewrite drop_0 in *. done. }
  destruct (_ =? AF_UNIX) eqn:E3.
  { destruct (decide _) in Hs; [|done]. injection Hs as <-. by destruct Hi. }
  injection Hs as <-. zbool. by destruct Hi.
Qed.

(** The text of an address is there unless the path of a Unix domain address
    has no end. *)
Lemma sock_texts l sa : bytes l -> sa_of l = Some sa ->
  (exists s, sock_ntop sa (sockaddr_len l) = SrText s) /\ (exists s, sock_ntop_host sa (sockaddr_len l) = SrText s) \/
  ~ internet sa /\ sock_ntop sa (sockaddr_len l) = SrFault /\ sock_ntop_host sa (sockaddr_len l) = SrFault.
Proof.
  intros Hb Hs. destruct (decide (internet sa)) as [Hi|Hn].
  - left. destruct (sock_ntop_internet sa (sockaddr_len l) (sa_of_wf _ _ Hb Hs Hi) Hi) as (s & _ & -> & ->). eauto.
  - destruct sa as [| |path|f]; [by destruct Hn; left|by destruct Hn; right| |left; split; by eexists].
    unfold sock_ntop, sock_ntop_host, path_text. destruct (byte_at path 0 =? 0); [left; split; by eexists|].
    case_bool_decide; [left; split; by eexists|by right].
Qed.

(** An address whose text is not determined. *)
Definition odd_address (l : list Z) : Prop := forall sa, sa_of l = Some sa -> ~ internet sa.

Lemma runs_Sock_ntop_of {B} (host : bool) l (k : list Z -> M B) (Q : B -> list event -> Prop)
    (H : halt -> list event -> Prop) w :
  bytes l -> (odd_address l -> H Undefined []) ->
  (forall sa s w', sa_of l = Some sa ->
     (if host then sock_ntop_host sa (sockaddr_len l) else sock_ntop sa (sockaddr_len l)) = SrText s ->
     runs (k s) Q H w') ->
  runs ((if host then Sock_ntop_host_of l else Sock_ntop_of l) ≫= k) Q H w.
Proof.
  intros Hb Hodd Hk. destruct (sa_of l) as [sa|] eqn:Hs.
  - set (r := if host then sock_ntop_host sa (sockaddr_len l) else sock_ntop sa (sockaddr_len l)) in *.
    apply (runs_ext _ (wrap_text r (chars (if host then "sock_ntop_host error" else "sock_ntop error")) ≫= k)).
    { unfold r. by destruct host; unfold Sock_ntop_host_of, Sock_ntop_of; rewrite Hs. }
    assert ((exists s, r = SrText s) \/ ~ internet sa /\ r = SrFault) as [[s Hr]|[Hn Hr]].
    { unfold r. destruct (sock_texts l sa Hb Hs) as [[? ?]|(? & ? & ?)]; destruct host; auto. }
    + rewrite Hr. by apply (Hk sa s w).
    + rewrite Hr. apply (runs_halted Undefined), Hodd. unfold odd_address. rewrite Hs. by intros sa' [= <-].
  - assert (H Undefined []) as HU by (apply Hodd; unfold odd_address; rewrite Hs; by intros).
    destruct host; unfold Sock_ntop_host_of, Sock_ntop_of; rewrite Hs; by apply (runs_halted Undefined).
Qed.

Lemma bytes_u8 l : bytes (map u8 l).
Proof. unfold bytes. apply Forall_map, Forall_true. intros x. apply u8_range. Qed.

Lemma runs_daytime_rest fd w :
  runs (ss ← Getpeername fd;
        peer ← Sock_ntop_host_of (map u8 (a_data ss));
        stdout (chars "connected to " ++ peer ++ newline) ;;
        copy_reply fd ;;
        exit (A := Empty_set) 0) (fun _ _ => False) (daytime_rest fd) w.
Proof.
  eapply runs_wraps; [apply Getpeername_wraps|left; split; [by left|done]| |].
  - intros a rep _ Hrep. left. split; [by right|]. constructor; [done|by apply reports_silent].
  - intros a w1 Hg. unfold succeeded in Hg. set (x := normalise _ a) in *. cbn [id].
    apply (runs_Sock_ntop_of true); [apply bytes_u8|intros Hodd; right; exists x; split; [done|]; by left|].
    intros sa text w2 Hs Ht. unfold stdout. apply runs_out; [done|]. intros w3.
    apply runs_bind. eapply runs_mono; [apply runs_copy_reply| |].
    + intros [] e He w4. apply runs_halted. rewrite app_nil_r. right. exists x. split; [done|]. right.
      exists sa, text, e. unfold sockaddr_len in *. by rewrite length_map in Ht.
    + intros h e [_ He]. right. exists x. split; [done|]. right.
      exists sa, text, e. unfold sockaddr_len in *. by rewrite length_map in Ht.
Qed.

Definition after_connect (host serv : list Z) (R : Z -> halt -> list event -> Prop) (h : halt) (e : list event) : Prop :=
  not_opened connecting 0 SOCK_STREAM (Some host) (Some serv) h e \/
  exists fd e1 e2, tcp_connected (Some host) (Some serv) fd e1 /\ R fd h e2 /\ e = e1 ++ e2.
Definition usage_end (h : halt) (e : list event) : Prop := h = Exited 1 /\ only is_report e.

Definition daytimetcpcli_end (argv : list (list Z)) (h : halt) (e : list event) : Prop :=
  match argv with [_; host; serv] => after_connect host serv daytime_rest h e | _ => usage_end h e end.
Lemma runs_usage {A} text w : runs (err_quit (A := A) text) (fun _ _ => False) usage_end w.
Proof. apply runs_err_quit. by intros rep Hrep. Qed.
Lemma daytimetcpcli_runs argv w : runs (daytimetcpcli argv) (fun _ _ => False) (daytimetcpcli_end argv) w.
Proof.
  unfold daytimetcpcli, daytimetcpcli_end. destruct argv as [|p [|host [|serv [|]]]]; try apply runs_usage.
  apply runs_bind. eapply runs_mono; [apply tcp_connect_runs| |by left].
  intros fd e1 He w1. eapply runs_mono; [apply runs_daytime_rest|done|].
  intros h e2 He2. right. by exists fd, e1, e2.
Qed.

(** ** daytimetcpcli1 and daytimetcpcli2: the addresses of a host, in order *)

Definition inet_socket : call := CSocket AF_INET SOCK_STREAM 0.
Definition trying (port addr : list Z) (text : list Z) : call := CStdout (chars "trying " ++ text ++ newline).

Inductive refused_all (port : list Z) : list (list Z) -> list event -> Prop :=
| refused_nil : refused_all port [] []
| refused_cons addr l s text c rep k e :
    0 <= a_ret s -> sock_ntop (SaIn port addr) sizeof_sockaddr_in = SrText text -> a_ret c <> 0 ->
    only is_report rep -> refused_all port l e ->
    refused_all port (addr :: l)
      ([(inet_socket, s); (trying port addr text, ok 0); (CConnect (a_ret s) (sin_bytes port addr), c)] ++
       rep ++ (CClose (a_ret s), k) :: e).
Definition accepted_one (port : list Z) (pptr : list (list Z)) (fd : Z) (e : list event) : Prop :=
  exists before addr after e1 s text c, pptr = before ++ addr :: after /\ refused_all port before e1 /\
    0 <= a_ret s /\ fd = a_ret s /\ sock_ntop (SaIn port addr) sizeof_sockaddr_in = SrText text /\ a_ret c = 0 /\
    e = e1 ++ [(inet_socket, s); (trying port addr text, ok 0); (CConnect fd (sin_bytes port addr), c)].
Definition refused_cut (port : list Z) (pptr : list (list Z)) (h : halt) (e : list event) : Prop :=
  stopped h /\ exists before after e1 part l, pptr = before ++ after /\ refused_all port before e1 /\
    e = e1 ++ part /\ held part l /\ (length l <= 1)%nat.

(** Four bytes of an address and two of a port. *)
Definition quad_bytes (addr : list Z) : Prop := length addr = 4%nat /\ bytes addr.
Definition port_bytes (port : list Z) : Prop := length port = 2%nat /\ bytes port.

Lemma refused_cut_here port pptr h e l :
  stopped h -> held e l -> (length l <= 1)%nat -> refused_cut port pptr h e.
Proof. intros Hh He Hl. split; [done|]. exists [], pptr, [], e, l. split; [done|]. split; [constructor|done]. Qed.

Lemma runs_err_ret {B} text (k : unit -> M B) (Q : B -> list event -> Prop) (H : halt -> list event -> Prop) w :
  (forall rep w', only is_report rep -> runs (k ()) (fun b e => Q b (rep ++ e)) (fun h e => H h (rep ++ e)) w') ->
  runs (err_ret text ≫= k) Q H w.
Proof.
  intros Hk. apply runs_bind. unfold runs, err_ret. rewrite err_doit_spec.
  eexists. split; [apply report_extends|]. intros w'. apply Hk, report_events_only.
Qed.

Lemma refused_app port l1 l2 e1 e2 : refused_all port l1 e1 -> refused_all port l2 e2 -> refused_all port (l1 ++ l2) (e1 ++ e2).
Proof.
  induction 1 as [|addr l s text c rep k e Hs Ht Hc Hrep _ IH]; intros H2; [done|].
  rewrite <- app_assoc. cbn [app]. rewrite <- app_assoc. cbn [app]. by apply refused_cons; auto.
Qed.
Lemma accepted_later port l1 l2 e1 e2 fd :
  refused_all port l1 e1 -> accepted_one port l2 fd e2 -> accepted_one port (l1 ++ l2) fd (e1 ++ e2).
Proof.
  intros H1 (before & addr & after & e & s & text & c & -> & Hr & Hs & -> & Ht & Hc & ->).
  exists (l1 ++ before), addr, after, (e1 ++ e), s, text, c. rewrite <- !app_assoc. split; [done|].
  split; [by apply refused_app|done].
Qed.
Lemma refused_cut_later port l1 l2 e1 e2 h :
  refused_all port l1 e1 -> refused_cut port l2 h e2 -> refused_cut port (l1 ++ l2) h (e1 ++ e2).
Proof.
  intros H1 (Hh & before & after & e & part & l & -> & Hr & -> & Hl). split; [done|].
  exists (l1 ++ before), after, (e1 ++ e), part, l. rewrite <- !app_assoc. split; [done|].
  split; [by apply refused_app|done].
Qed.

Lemma runs_try_addresses port pptr w :
  port_bytes port -> Forall quad_bytes pptr ->
  runs (try_addresses port pptr)
    (fun r e => match r with None => refused_all port pptr e | Some fd => accepted_one port pptr fd e end)
    (refused_cut port pptr) w.
Proof.
  intros [Hp1 Hp2] Hq. revert w. induction Hq as [|addr l [Ha1 Ha2] Hl IH]; intros w; cbn [try_addresses].
  { apply runs_ret. constructor. }
  eapply runs_wraps; [apply Socket_wraps|apply (refused_cut_here _ _ _ _ []); [by left|done|simpl; lia]| |].
  { intros s rep Hbad Hrep. unfold succeeded in Hbad. apply (refused_cut_here _ _ _ _ []); [by right| |simpl; lia].
    apply (held_plain_r rep [_]); [by apply reports_plain|].
    unfold held. cbn -[normalise]. by replace (_ <? 0) with true by lia. }
  intros a w1 Hg. unfold succeeded in Hg. fold inet_socket in Hg |- *. set (s := normalise inet_socket a) in *.
  assert (exists text, sock_ntop (SaIn port addr) sizeof_sockaddr_in = SrText text) as [text Ht].
  { destruct (sock_ntop_internet (SaIn port addr) sizeof_sockaddr_in) as (t & _ & _ & Ht); [done|by left|by eexists]. }
  assert (held [(inet_socket, s)] [a_ret s]) as Hheld
    by (unfold held; simpl; by replace (a_ret s <? 0) with false by lia).
  unfold Sock_ntop. rewrite Ht. apply runs_bind, runs_ret. intros w2. unfold stdout. apply runs_out; [done|].
  intros w3. fold (trying port addr text).
  assert (forall h q, stopped h -> only plain q -> refused_cut port (addr :: l) h ((inet_socket, s) :: q)) as Hcut.
  { intros h q Hh Hp. apply (refused_cut_here _ _ _ _ [a_ret s]); [done| |simpl; lia].
    by apply (held_plain_r q [_]). }
  apply runs_ret_of; [done|apply (Hcut _ [_]); [by left|by repeat constructor]|].
  intros b w4 c _. destruct (a_ret c =? 0) eqn:Ec; zbool.
  { apply runs_ret. by exists [], addr, l, [], s, text, c; repeat (split; [first [done|constructor]|]). }
  apply runs_err_ret. intros rep w5 Hrep. apply runs_call; [done| |].
  { rewrite app_nil_r. apply (Hcut _ (_ :: _ :: rep)); [by left|].
    repeat (constructor; [done|]). by apply reports_plain. }
  intros d w6 k _. set (e1 := [(inet_socket, s); (trying port addr text, ok 0);
    (CConnect (a_ret s) (sin_bytes port addr), c)] ++ rep ++ [(CClose (a_ret s), k)]).
  assert (refused_all port [addr] e1) as Hone by (by apply (refused_cons port addr [] s text c rep k []); [| | | |constructor]).
  eapply runs_mono; [apply IH| |].
  - intros r e He.
    assert (match r with None => refused_all port (addr :: l) (e1 ++ e)
            | Some fd => accepted_one port (addr :: l) fd (e1 ++ e) end) as X
      by (destruct r; [by apply (accepted_later port [addr])|by apply (refused_app port [addr])]).
    unfold e1 in X. cbn [app] in X. by rewrite <- app_assoc in X.
  - intros h e He. assert (refused_cut port (addr :: l) h (e1 ++ e)) as X by (by apply (refused_cut_later port [addr])).
    unfold e1 in X. cbn [app] in X. by rewrite <- app_assoc in X.
Qed.

Lemma quads_ok fuel l : Forall quad_bytes (quads fuel l).
Proof.
  revert l. induction fuel as [|f IH]; intros l; [done|]. destruct l as [|b0 [|b1 [|b2 [|b3 l]]]]; try done.
  constructor; [|apply IH]. split; [done|]. apply bytes_u8.
Qed.
Lemma htons_ok p : port_bytes (htons p).
Proof.
  split; [done|]. unfold htons, bytes, byte. repeat constructor; change 255 with (Z.ones 8);
    rewrite ?Z.land_ones by lia; apply Z.mod_pos_bound; lia.
Qed.
Lemma pton4_quad host addr e : cstr host -> inet_pton AF_INET host = (1, Some addr, e) -> quad_bytes addr.
Proof.
  intros Hc. unfold inet_pton. cbn. unfold inet_pton4. rewrite pton4_from_ref by done.
  destruct (quad_ref host) as [d|] eqn:E; [|done]. cbn. intros [= <- _].
  split; [by eapply quad_ref_length|by eapply quad_ref_bytes].
Qed.
Lemma inet_aton_quad host addr : inet_aton host = Some addr -> quad_bytes addr.
Proof.
  unfold inet_aton. destruct (aton_loop host 0 0 0) as [[dots a]|]; [|done]. intros [= <-].
  split; [done|]. unfold htonl_bytes, bytes. repeat constructor; apply u8_range.
Qed.

(** The addresses that are tried, and the calls that found them. *)
Definition by_hostname (name : list Z) (pptr : list (list Z)) (q : list event) : Prop :=
  exists a, 0 <= a_ret a /\ pptr = quads (length (a_data a)) (a_data a) /\ q = [(libc "gethostbyname" [] name, a)].
Definition by_service (serv port : list Z) (q : list event) : Prop :=
  exists a, 0 <= a_ret a /\ port = map u8 [byte_at (a_data a) 0; byte_at (a_data a) 1] /\
    q = [(libc "getservbyname" [] (serv ++ [0] ++ chars "tcp"), a)].
Definition host_first (host : list Z) (pptr : list (list Z)) (q : list event) : Prop :=
  by_hostname host pptr q \/
  exists a addr, a_ret a < 0 /\ inet_aton host = Some addr /\ pptr = [addr] /\
    q = [(libc "gethostbyname" [] host, a)].
Definition number_first (host : list Z) (pptr : list (list Z)) (q : list event) : Prop :=
  (exists addr e, inet_pton AF_INET host = (1, Some addr, e) /\ pptr = [addr] /\ q = []) \/
  (forall addr e, inet_pton AF_INET host <> (1, Some addr, e)) /\ by_hostname host pptr q.
Definition service_number (serv port : list Z) (q : list event) : Prop :=
  0 < atoi serv /\ port = htons (atoi serv) /\ q = [] \/ atoi serv <= 0 /\ by_service serv port q.

Definition tries_end (port : list Z) (pptr : list (list Z)) (h : halt) (e : list event) : Prop :=
  refused_cut port pptr h e \/
  h = Exited 1 /\ (exists e1 rep, refused_all port pptr e1 /\ only is_report rep /\ e = e1 ++ rep) \/
  exists fd e1 e2, accepted_one port pptr fd e1 /\ copy_ends fd h e2 /\ e = e1 ++ e2.
Definition names_end (host_found : list (list Z) -> list event -> Prop)
    (port_found : list Z -> list event -> Prop) (h : halt) (e : list event) : Prop :=
  stopped h /\ only plain e \/
  exists pptr port q1 q2 e2, host_found pptr q1 /\ port_found port q2 /\ tries_end port pptr h e2 /\
    e = q1 ++ q2 ++ e2.

Lemma runs_try_and_copy port pptr w :
  port_bytes port -> Forall quad_bytes pptr ->
  runs (try_and_copy port pptr) (fun _ _ => False) (tries_end port pptr) w.
Proof.
  intros Hp Hq. unfold try_and_copy. apply runs_bind.
  eapply runs_mono; [by apply runs_try_addresses| |by left].
  intros [fd|] e1 He w1.
  - apply runs_bind. eapply runs_mono; [apply runs_copy_reply| |].
    + intros [] e2 He2 w2. apply runs_halted. rewrite app_nil_r. right. right. by exists fd, e1, e2.
    + intros h e2 [_ He2]. right. right. by exists fd, e1, e2.
  - apply runs_err_quit. intros rep Hrep. right. left. split; [done|]. by exists e1, rep.
Qed.

Lemma runs_gethostbyname {B} name (k : Z + list (list Z) -> M B) (Q : B -> list event -> Prop)
    (H : halt -> list event -> Prop) w :
  H Blocked [] ->
  (forall pptr q w', by_hostname name pptr q -> only plain q -> Forall quad_bytes pptr ->
     runs (k (inr pptr)) (fun b e => Q b (q ++ e)) (fun h e => H h (q ++ e)) w') ->
  (forall a w', a_ret a < 0 -> let q := [(libc "gethostbyname" [] name, a)] in
     runs (k (inl (a_err a))) (fun b e => Q b (q ++ e)) (fun h e => H h (q ++ e)) w') ->
  runs (gethostbyname name ≫= k) Q H w.
Proof.
  intros HB Hgood Hbad. unfold gethostbyname. apply runs_bind, runs_call; [done|done|]. intros a w1 x _.
  apply runs_ret. intros w2. destruct (a_ret x <? 0) eqn:E; zbool.
  - by apply (Hbad x).
  - apply (Hgood (quads (length (a_data x)) (a_data x)) [(_, x)]); [by exists x|by repeat constructor|apply quads_ok].
Qed.

Lemma runs_service {B} serv (k : list Z -> M B) (Q : B -> list event -> Prop) (H : halt -> list event -> Prop) w :
  (forall h q, stopped h -> only plain q -> H h q) ->
  (forall port q w', by_service serv port q -> port_bytes port ->
     runs (k port) (fun b e => Q b (q ++ e)) (fun h e => H h (q ++ e)) w') ->
  runs (service serv k) Q H w.
Proof.
  intros Hs Hk. unfold service, getservbyname. apply runs_bind, runs_call; [done|apply Hs; [by left|done]|].
  intros a w1 x _. apply runs_ret. intros w2. destruct (a_ret x <? 0) eqn:E; zbool.
  - apply runs_err_quit. intros rep Hrep. apply Hs; [by right|]. constructor; [done|by apply reports_plain].
  - apply (Hk (map u8 [byte_at (a_data x) 0; byte_at (a_data x) 1]) [(_, x)]); [by exists x|].
    split; [done|apply bytes_u8].
Qed.

Lemma names_quiet hf pf h e : stopped h -> only plain e -> names_end hf pf h e.
Proof. by left. Qed.

Lemma hostname_error_runs {A} name e0 q hf pf w :
  only plain q ->
  runs (hostname_error (A := A) name e0) (fun _ _ => False) (fun h e => names_end hf pf h (q ++ e)) w.
Proof.
  intros Hq. apply runs_err_quit. intros rep Hrep. apply names_quiet; [by right|].
  apply only_app. split; [done|by apply reports_plain].
Qed.

(** From the addresses on. *)
Lemma runs_names_rest hf pf pptr q1 (m : M (list Z)) w :
  only plain q1 -> hf pptr q1 -> Forall quad_bytes pptr ->
  (forall w, runs m (fun port q => pf port q /\ port_bytes port /\ only plain q)
     (fun h q => stopped h /\ only plain q) w) ->
  runs (port ← m; try_and_copy port pptr) (fun _ _ => False) (fun h e => names_end hf pf h (q1 ++ e)) w.
Proof.
  intros Ho Hhf Hq Hm. apply runs_bind. eapply runs_mono; [apply Hm| |].
  - intros port q2 (Hpf & Hp & Ho2) w1. eapply runs_mono; [by apply runs_try_and_copy|done|].
    intros h e He. right. by exists pptr, port, q1, q2, e.
  - intros h q [Hh Hq2]. apply names_quiet; [done|by apply only_app].
Qed.

Lemma runs_service_ret serv w :
  runs (service serv mret) (fun port q => by_service serv port q /\ port_bytes port /\ only plain q)
    (fun h q => stopped h /\ only plain q) w.
Proof.
  apply runs_service; [done|]. intros port q w1 Hs Hp. apply runs_ret. rewrite app_nil_r. split; [done|].
  split; [done|]. destruct Hs as (a & _ & _ & ->). by repeat constructor.
Qed.
Lemma service_bind {B} serv (k : list Z -> M B) w : service serv k w = (port ← service serv mret; k port) w.
Proof.
  unfold service, getservbyname, mbind, M_bind. destruct (kernel _ w) as [[a|h] w']; [|done].
  cbn. destruct (a_ret a <? 0); [|done]. by rewrite !err_quit_reported.
Qed.

Definition daytimetcpcli1_end (argv : list (list Z)) (h : halt) (e : list event) : Prop :=
  match argv with
  | [_; host; serv] => names_end (host_first host) (by_service serv) h e
  | _ => usage_end h e
  end.
Definition daytimetcpcli2_end (argv : list (list Z)) (h : halt) (e : list event) : Prop :=
  match argv with
  | [_; host; serv] => names_end (number_first host) (service_number serv) h e
  | _ => usage_end h e
  end.

Lemma daytimetcpcli1_runs argv w : runs (daytimetcpcli1 argv) (fun _ _ => False) (daytimetcpcli1_end argv) w.
Proof.
  unfold daytimetcpcli1, daytimetcpcli1_end. destruct argv as [|p [|host [|serv [|]]]]; try apply runs_usage.
  assert (forall pptr q w, only plain q -> host_first host pptr q -> Forall quad_bytes pptr ->
    runs (service serv (fun port => try_and_copy port pptr)) (fun _ _ => False)
      (fun h e => names_end (host_first host) (by_service serv) h (q ++ e)) w) as Hrest.
  { intros pptr q w1 Hq Hf Hb. eapply runs_ext; [apply service_bind|]. apply runs_names_rest; try done.
    apply runs_service_ret. }
  apply runs_gethostbyname; [by apply names_quiet; [left|]| |].
  - intros pptr q w1 Hn Hq Hb. apply runs_bind, runs_ret. intros w2. by apply Hrest; [|left|].
  - intros a w1 Ha q. destruct (inet_aton host) as [addr|] eqn:E.
    + apply runs_bind, runs_ret. intros w2. apply (Hrest [addr] q); [by repeat constructor| |].
      * right. by exists a, addr.
      * constructor; [|done]. by eapply inet_aton_quad.
    + apply runs_bind. eapply runs_mono; [by apply (hostname_error_runs _ _ q), only_one|by intros ? ? []|intros h e He; exact He].
Qed.

Lemma daytimetcpcli2_runs argv w :
  Forall cstr argv -> runs (daytimetcpcli2 argv) (fun _ _ => False) (daytimetcpcli2_end argv) w.
Proof.
  intros Hargv. unfold daytimetcpcli2, daytimetcpcli2_end.
  destruct argv as [|p [|host [|serv [|]]]]; try apply runs_usage.
  assert (forall pptr q w, only plain q -> number_first host pptr q -> Forall quad_bytes pptr ->
    runs (port ← (if 0 <? atoi serv then mret (htons (atoi serv)) else service serv mret); try_and_copy port pptr)
      (fun _ _ => False) (fun h e => names_end (number_first host) (service_number serv) h (q ++ e)) w) as Hrest.
  { intros pptr q w1 Hq Hf Hb. apply runs_names_rest; try done. intros w2.
    destruct (0 <? atoi serv) eqn:E; zbool.
    - apply runs_ret. split; [by left|]. split; [apply htons_ok|done].
    - eapply runs_mono; [apply runs_service_ret| |done]. intros port q2 (Hs & Hp & Ho).
      split; [by right|done]. }
  assert (forall w, (forall addr e, inet_pton AF_INET host <> (1, Some addr, e)) ->
    runs (pptr ← (hp ← gethostbyname host;
                  match hp with inr addrs => mret addrs | inl h_errno => hostname_error host h_errno end);
          port ← (if 0 <? atoi serv then mret (htons (atoi serv)) else service serv mret); try_and_copy port pptr)
      (fun _ _ => False) (names_end (number_first host) (service_number serv)) w) as Hname.
  { intros w1 Hno. apply runs_bind, runs_gethostbyname; [by apply names_quiet; [left|]| |].
    - intros pptr q w2 Hn Hq Hb. apply runs_ret. rewrite app_nil_r. intros w3. by apply Hrest; [|right|].
    - intros a w2 Ha q. eapply runs_mono; [by apply (hostname_error_runs _ _ q), only_one|by intros ? ? []|intros h e He; exact He]. }
  destruct (inet_pton AF_INET host) as [[n d] eo] eqn:E.
  destruct n as [|[n|n|]|n]; try (apply Hname; by intros ? ?).
  destruct d as [addr|]; [|apply Hname; by intros ? ?].
  apply runs_bind, runs_ret. intros w2. apply (Hrest [addr] []); [done| |].
  - left. by exists addr, eo.
  - constructor; [|done]. eapply pton4_quad; [|done]. by inversion_clear Hargv as [|? ? ? H]; inversion_clear H.
Qed.

(** ** The daytime servers *)

(** What was written in full, and the times that were made into texts. *)
Fixpoint written (evs : list event) : list (Z * list Z) :=
  match evs with
  | [] => []
  | (CWrite fd d, a) :: evs' =>
      if a_ret a =? Z.of_nat (length d) then (fd, d) :: written evs' else written evs'
  | _ :: evs' => written evs'
  end.
Definition ctime_of (ev : event) : option (list Z) :=
  match ev with
  | (CLibc name _ _, a) =>
      if String.eqb name "ctime" && (0 <=? a_ret a) then Some (map u8 (a_data a)) else None
  | _ => None
  end.
Definition ctimes (evs : list event) : list (list Z) := omap ctime_of evs.
Lemma written_app a b : written (a ++ b) = written a ++ written b.
Proof. induction a as [|[c x] a IH]; [done|]. destruct c; simpl; rewrite ?IH; try done. by destruct (_ =? _). Qed.
Lemma ctimes_app a b : ctimes (a ++ b) = ctimes a ++ ctimes b.
Proof. apply omap_app. Qed.

(** Calls that are none of these. *)
Definition bystander (c : call) : Prop :=
  match c with
  | CAccept _ | CClose _ | CWrite _ _ => False
  | CLibc name _ _ => name <> "ctime"%string
  | _ => True
  end.
(** [day acc cl ws ts e]: connections accepted and closed, writes and times. *)
Definition day (acc cl : list Z) (ws : list (Z * list Z)) (ts : list (list Z)) (e : list event) : Prop :=
  accepted e = acc /\ closed e = cl /\ written e = ws /\ ctimes e = ts.
Lemma day_app a1 a2 c1 c2 w1 w2 t1 t2 e1 e2 :
  day a1 c1 w1 t1 e1 -> day a2 c2 w2 t2 e2 -> day (a1 ++ a2) (c1 ++ c2) (w1 ++ w2) (t1 ++ t2) (e1 ++ e2).
Proof.
  intros (<- & <- & <- & <-) (<- & <- & <- & <-). unfold day.
  by rewrite accepted_app, closed_app, written_app, ctimes_app.
Qed.
Lemma bystander_day e : only bystander e -> day [] [] [] [] e.
Proof.
  induction 1 as [|[c a] e Hc He (H1 & H2 & H3 & H4)]; [done|]. unfold day, ctimes in *.
  destruct c; try done; simpl; rewrite ?H1, ?H2, ?H3, ?H4; try done.
  cbn in Hc. apply String.eqb_neq in Hc. by rewrite Hc.
Qed.
Lemma reports_bystander rep : only is_report rep -> only bystander rep.
Proof. apply only_mono. by intros []. Qed.
Lemma day_bystander_l a c w t q e : only bystander q -> day a c w t e -> day a c w t (q ++ e).
Proof. intros Hq. apply (day_app [] a [] c [] w [] t), bystander_day, Hq. Qed.
Lemma day_bystander_r a c w t q e : only bystander q -> day a c w t e -> day a c w t (e ++ q).
Proof.
  intros Hq He. pose proof (day_app _ _ _ _ _ _ _ _ _ _ He (bystander_day q Hq)) as H. by rewrite !app_nil_r in H.
Qed.

(** Each client is sent the text of one time, and closed. *)
Definition day_sent (turns : list (Z * list Z)) (e : list event) : Prop :=
  day turns.*1 turns.*1 ((fun t => (t.1, stamp t.2)) <$> turns) turns.*2 e.
(** Stopped in a turn: at most one connection, sent at most the time. *)
Definition day_part (e : list event) : Prop :=
  exists acc cl ws ts, day acc cl ws ts e /\ (length acc <= 1)%nat /\ cl `prefix_of` acc /\
    ws `prefix_of` zip acc (stamp <$> ts).
(** The reasons for undefined behaviour: an address that is not determined
    in [n] bytes, or no time. *)
Definition day_risk (n : nat) (e : list event) : Prop :=
  (exists fd a, (CAccept fd, a) ∈ e /\ odd_address (take n (sender a))) \/
  (exists args a, (libc "ctime" args [], a) ∈ e /\ a_ret a < 0).
Definition day_stops (n : nat) (h : halt) (e : list event) : Prop := stopped h \/ h = Undefined /\ day_risk n e.
Definition day_cut (n : nat) (h : halt) (e : list event) : Prop :=
  day_stops n h e /\ exists turns e1 e2, e = e1 ++ e2 /\ day_sent turns e1 /\ day_part e2.

Lemma day_risk_app n e1 e2 : day_risk n e2 -> day_risk n (e1 ++ e2).
Proof.
  intros [(fd & a & Hin & Ho)|(args & a & Hin & Ha)]; [left; exists fd, a|right; exists args, a];
    (split; [apply elem_of_app; by right|done]).
Qed.
Lemma day_stops_app n h e1 e2 : day_stops n h e2 -> day_stops n h (e1 ++ e2).
Proof. intros [?|[? ?]]; [by left|right; split; [done|by apply day_risk_app]]. Qed.

Lemma aborted_day fd e : Forall (aborted fd) e -> day [] [] [] [] e.
Proof.
  induction 1 as [|[c a] e (Hc & Hr & _) He IH]; [done|]. cbn in *. subst c.
  apply (day_app [] [] [] [] [] [] [] [] [_]); [|done]. unfold day. simpl. by rewrite Hr.
Qed.

(** A step after the events [e0]. *)
Lemma runs_seq {A B} (m : M A) (k : A -> M B) e0 (Q : B -> list event -> Prop) (H : halt -> list event -> Prop) w :
  runs m (fun a e => forall w', runs (k a) (fun b e2 => Q b ((e0 ++ e) ++ e2)) (fun h e2 => H h ((e0 ++ e) ++ e2)) w')
    (fun h e => H h (e0 ++ e)) w ->
  runs (m ≫= k) (fun b e => Q b (e0 ++ e)) (fun h e => H h (e0 ++ e)) w.
Proof.
  intros Hm. apply runs_bind. eapply runs_mono; [exact Hm| |done].
  intros a e Hk w'. eapply runs_mono; [apply Hk| |]; intros; by rewrite app_assoc.
Qed.

Definition calmly {A} (m : M A) : Prop :=
  forall w, runs m (fun _ e => only bystander e) (fun h e => stopped h /\ only bystander e) w.
Definition greets (n : nat) (addr : list Z) (m : M unit) : Prop :=
  forall w, runs m (fun _ e => only bystander e)
    (fun h e => only bystander e /\ (stopped h \/ h = Undefined /\ odd_address (take n addr))) w.

Lemma runs_time_stamp {B} (k : list Z -> M B) (Q : B -> list event -> Prop) (H : halt -> list event -> Prop) w :
  (forall h e, stopped h -> only bystander e -> H h e) ->
  (forall a b args, a_ret b < 0 -> day [] [] [] [] [a; (libc "ctime" args [], b)] ->
     H Undefined [a; (libc "ctime" args [], b)]) ->
  (forall t e w', day [] [] [] [t] e ->
     runs (k (stamp t)) (fun b e2 => Q b (e ++ e2)) (fun h e2 => H h (e ++ e2)) w') ->
  runs (time_stamp ≫= k) Q H w.
Proof.
  intros Hs Hu Hk. unfold time_stamp. apply runs_bind, runs_call; [done|apply Hs; [by left|done]|].
  intros a w1 x _. apply runs_call; [done|apply Hs; [by left|by repeat constructor]|].
  intros b w2 y _. destruct (a_ret y <? 0) eqn:E; zbool.
  - apply runs_halted. apply (Hu (_, x) y); [done|]. unfold day, ctimes. simpl.
    by replace (0 <=? a_ret y) with false by lia.
  - apply runs_ret. intros w3. apply (Hk (map u8 (a_data y)) [(_, x); (_, y)]). unfold day, ctimes. simpl.
    by replace (0 <=? a_ret y) with true by lia.
Qed.

Section DayTurn.
Context (n : nat) (greet : list Z -> M unit) (linger rest : Z -> M unit).
Context (greet_ok : forall addr, bytes addr -> greets n addr (greet addr)).
Context (linger_ok : forall fd, calmly (linger fd)) (rest_ok : forall fd, calmly (rest fd)).

Lemma part_of fd cl ws ts e :
  day [fd] cl ws ts e -> cl `prefix_of` [fd] -> ws `prefix_of` zip [fd] (stamp <$> ts) -> day_part e.
Proof. intros He Hc Hw. exists [fd], cl, ws, ts. split; [done|]. split; [simpl; lia|done]. Qed.

Definition turn_done (r : unit) (e : list event) : Prop :=
  (0 < waits e)%nat /\ exists fd t, day [fd] [fd] [(fd, stamp t)] [t] e.
Definition turn_cut (h : halt) (e : list event) : Prop := day_stops n h e /\ day_part e.

(** A step that is only looked on. *)
Lemma runs_calm {A} (m : M A) (k : A -> M unit) e0 fd cl ws ts w :
  day [fd] cl ws ts e0 -> cl `prefix_of` [fd] -> ws `prefix_of` zip [fd] (stamp <$> ts) -> calmly m ->
  (forall a e w', only bystander e -> day [fd] cl ws ts (e0 ++ e) ->
     runs (k a) (fun b e2 => turn_done b ((e0 ++ e) ++ e2)) (fun h e2 => turn_cut h ((e0 ++ e) ++ e2)) w') ->
  runs (m ≫= k) (fun b e => turn_done b (e0 ++ e)) (fun h e => turn_cut h (e0 ++ e)) w.
Proof.
  intros He Hc Hw Hm Hk. apply runs_seq. eapply runs_mono; [apply Hm| |].
  - intros a e Ho w'. apply Hk; [done|by apply day_bystander_r].
  - intros h e [Hh Ho]. split; [by left|]. eapply part_of; [by apply day_bystander_r|done|done].
Qed.

Lemma runs_day_turn listenfd w :
  runs (day_turn greet linger rest listenfd)
    turn_done turn_cut w.
Proof using greet_ok linger_ok rest_ok.
  unfold day_turn. apply runs_bind, runs_Accept.
  { intros evs Hev. split; [left; by left|]. exists [], [], [], []. split; [by eapply aborted_day|].
    split; [simpl; lia|]. split; [done|apply prefix_nil]. }
  { intros a evs rep Hev Ha Hrep. split; [left; by right|]. exists [], [], [], [].
    split; [|split; [simpl; lia|split; [done|apply prefix_nil]]].
    apply day_bystander_r; [by apply reports_bystander|].
    apply (day_app [] [] [] [] [] [] [] []); [by eapply aborted_day|]. unfold day. simpl. by rewrite Ha. }
  intros a evs Hev Ha w1. set (e0 := evs ++ [(CAccept listenfd, a)]). set (fd := a_ret a) in *.
  assert (day [fd] [] [] [] e0) as He0.
  { apply (day_app [] [fd] [] [] [] [] [] []); [by eapply aborted_day|]. unfold day. simpl.
    by replace (a_ret a <? 0) with false by lia. }
  assert (0 < waits e0)%nat as Hw by (unfold e0; rewrite waits_app; simpl; lia).
  apply runs_seq. eapply runs_mono; [apply greet_ok, bytes_u8| |].
  2:{ intros h e [He Hh]. split.
      - destruct Hh as [Hh|[-> Ho]]; [by left|]. right. split; [done|]. left. exists listenfd, a. split; [|done].
        unfold e0. rewrite !elem_of_app. left. right. apply list_elem_of_here.
      - apply (part_of fd [] [] []); [by apply day_bystander_r|apply prefix_nil|done]. }
  intros [] q1 Hq1 w2. apply (runs_calm _ _ _ fd [] [] []); [by apply day_bystander_r|apply prefix_nil|done|apply linger_ok|].
  intros [] q2 w3 Hq2 He1. set (e1 := (e0 ++ q1) ++ q2) in *.
  assert (0 < waits e1)%nat as Hw1 by (unfold e1; rewrite !waits_app; lia). clearbody e1. clear Hq1 Hq2 He0 Hw e0 q1 q2.
  apply runs_time_stamp.
  { intros h e Hh He. split; [by left|]. apply (part_of fd [] [] []); [by apply day_bystander_r|apply prefix_nil|done]. }
  { intros x b args Hb Hd. split.
    - right. split; [done|]. right. exists args, b. split; [|done]. rewrite elem_of_app. right.
      apply list_elem_of_further, list_elem_of_here.
    - apply (part_of fd [] [] []); [|apply prefix_nil|done]. by apply (day_app [fd] [] [] [] [] [] [] []). }
  intros t q w4 Hq. assert (day [fd] [] [] [t] (e1 ++ q)) as He2 by by apply (day_app [fd] [] [] [] [] [] [] [t]).
  assert (forall e, only bystander e -> day_part (e1 ++ q ++ e)) as Hpart.
  { intros e He. rewrite app_assoc. apply (part_of fd [] [] [t]); [by apply day_bystander_r|apply prefix_nil|apply prefix_nil]. }
  eapply runs_wraps; [apply Write_wraps| | |].
  - split; [left; by left|]. by apply Hpart.
  - intros b rep Hb Hrep. unfold returned in Hb. split; [left; by right|]. rewrite app_assoc.
    apply (part_of fd [] [] [t]); [|apply prefix_nil|apply prefix_nil].
    apply (day_app [fd] [] [] [] [] [] [t] []); [done|].
    apply (day_app [] [] [] [] [] [] [] [] [_]); [|by apply bystander_day, reports_bystander].
    unfold day. cbn -[normalise]. by rewrite (proj2 (Z.eqb_neq _ _) Hb).
  - intros b w5 Hb. unfold returned in Hb.
    set (wr := (CWrite fd (stamp t), normalise (CWrite fd (stamp t)) b)).
    set (e2 := (e1 ++ q) ++ [wr]).
    assert (day [fd] [] [(fd, stamp t)] [t] e2) as He3.
    { apply (day_app [fd] [] [] [] [] [_] [t] []); [done|]. unfold day, wr. cbn -[normalise]. by rewrite Hb, Z.eqb_refl. }
    assert (0 < waits e2)%nat as Hw2 by (unfold e2; rewrite !waits_app; lia).
    apply (runs_mono _ (fun r e => turn_done r (e2 ++ e)) _ (fun h e => turn_cut h (e2 ++ e)));
      [|intros r e; unfold e2; by rewrite <- !app_assoc|intros h e; unfold e2; by rewrite <- !app_assoc].
    apply (runs_calm _ _ _ fd [] [(fd, stamp t)] [t]); [done|apply prefix_nil|done|apply rest_ok|].
    intros [] e w6 He He4. eapply runs_wraps_ret; [apply Close_wraps| | |].
    + split; [left; by left|]. eapply part_of; [by rewrite app_nil_r|apply prefix_nil|done].
    + intros c rep _ Hrep. split; [left; by right|]. apply (part_of fd [fd] [(fd, stamp t)] [t]); [|done|done].
      apply (day_app [fd] [] [] [fd] [_] [] [t] []); [done|].
      apply (day_app [] [] [fd] [] [] [] [] [] [_]); [done|by apply bystander_day, reports_bystander].
    + intros c _. split; [rewrite !waits_app; lia|]. exists fd, t.
      by apply (day_app [fd] [] [] [fd] [_] [] [t] []).
Qed.
End DayTurn.

Lemma day_cut_turn turns fd t e1 e2 :
  day_sent turns e1 -> day [fd] [fd] [(fd, stamp t)] [t] e2 -> day_sent (turns ++ [(fd, t)]) (e1 ++ e2).
Proof. intros H1 H2. unfold day_sent. rewrite !fmap_app. by apply day_app. Qed.

Lemma runs_day_loop n (turn : M unit) w :
  (forall w, runs turn turn_done (turn_cut n) w) ->
  runs (day_loop turn) (fun _ _ => False) (day_cut n) w.
Proof.
  intros Ht. apply (runs_loop _ (fun _ e => exists turns, day_sent turns e)); [by exists []|].
  intros [] e w1 (turns & Hd). apply runs_bind. eapply runs_mono; [apply Ht| |].
  - intros [] e2 [Hw (fd & t & H2)] w2. apply runs_ret. rewrite app_nil_r. split; [done|].
    exists (turns ++ [(fd, t)]). by apply day_cut_turn.
  - intros h e2 [Hs Hp]. split; [by apply day_stops_app|]. by exists turns, e, e2.
Qed.

Lemma day_cut_quiet n h q e : only bystander q -> day_cut n h e -> day_cut n h (q ++ e).
Proof.
  intros Hq [Hs (turns & e1 & e2 & -> & H1 & H2)]. split; [by apply day_stops_app|].
  exists turns, (q ++ e1), e2. rewrite app_assoc. split; [done|]. split; [by apply day_bystander_l|done].
Qed.

Lemma connection_from_greets n addr : bytes addr -> greets n addr (connection_from (take n addr)).
Proof.
  intros Hb w. unfold connection_from.
  apply (runs_Sock_ntop_of false (take n addr)); [by apply Forall_take| |].
  - intros Ho. split; [done|]. by right.
  - intros sa s w1 _ _. apply runs_wp, wp_out; [done|]. intros w2 He _ _. eexists. split; [exact He|]. by repeat constructor.
Qed.
Lemma name_info_greets n addr : greets n addr (name_info (take n addr)).
Proof.
  intros w. unfold name_info. apply runs_call; [done|split; [done|left; by left]|]. intros a w1 x _.
  destruct (a_ret x =? 0); [|apply runs_ret; by repeat constructor].
  apply runs_wp, wp_out; [done|]. intros w2 He _ _. eexists. split; [exact He|]. by repeat constructor.
Qed.
Lemma nothing_calm fd : calmly (nothing fd).
Proof. intros w. by apply runs_ret. Qed.
Lemma calmly_wraps {A} (m : M A) c good val flag text code :
  wraps m c good val flag text code -> bystander c -> calmly m.
Proof.
  intros Hw Hc w. eapply runs_wraps_ret; [exact Hw|split; [by left|done]| |].
  - intros a rep _ Hrep. split; [by right|]. constructor; [done|by apply reports_bystander].
  - intros a _. by repeat constructor.
Qed.
Lemma sleep_calm fd : calmly ((fun _ : Z => kernel (libc "sleep" [2] []) ;; mret ()) fd).
Proof.
  intros w. apply runs_call; [done|split; [by left|done]|]. intros a w1 x _. apply runs_ret. by repeat constructor.
Qed.

(** A server: no socket, or its turns, on the addresses cut to [n]. *)
Definition day_server_end (n : Z -> nat) (host serv : option (list Z)) (h : halt) (e : list event) : Prop :=
  open_fails reuse_binding AI_PASSIVE SOCK_STREAM host serv h e \/
  exists r e1 e2, listening host serv r e1 /\ day_cut (n r.2) h e2 /\ e = e1 ++ e2.
Definition day_main_end (n : Z -> nat) (argv : list (list Z)) (h : halt) (e : list event) : Prop :=
  match argv with
  | [_; serv] => day_server_end n None (Some serv) h e
  | [_; host; serv] => day_server_end n (Some host) (Some serv) h e
  | _ => usage_end h e
  end.
Definition whole (_ : Z) : nat := sizeof_storage.

Lemma runs_day_server n host serv (rest : Z * Z -> M Empty_set) w :
  (forall r w, runs (rest r) (fun _ _ => False) (day_cut (n r.2)) w) ->
  runs (l ← Tcp_listen host serv; rest l) (fun _ _ => False) (day_server_end n host serv) w.
Proof.
  intros Hr. apply runs_bind. eapply runs_mono; [apply tcp_listen_runs| |by left].
  intros r e1 He1 w1. eapply runs_mono; [apply Hr|done|]. intros h e2 He2. right. by exists r, e1, e2.
Qed.
Lemma runs_day_main n usage argv (rest : Z * Z -> M Empty_set) w :
  (forall r w, runs (rest r) (fun _ _ => False) (day_cut (n r.2)) w) ->
  runs (l ← listen_args usage argv; rest l) (fun _ _ => False) (day_main_end n argv) w.
Proof.
  intros Hr. unfold listen_args, day_main_end.
  destruct argv as [|p [|a1 [|a2 [|]]]];
    try (apply runs_bind; eapply runs_mono; [apply runs_usage|by intros ? ? []|done]);
    by apply runs_day_server.
Qed.
Lemma runs_after_malloc n size (m : M Empty_set) w :
  (forall w, runs m (fun _ _ => False) (day_cut n) w) ->
  runs (Malloc size ;; m) (fun _ _ => False) (day_cut n) w.
Proof.
  intros Hm. assert (forall h e, stopped h -> only bystander e -> day_cut n h e) as Hq.
  { intros h e Hh He. split; [by left|]. exists [], [], e. split; [done|]. split; [done|].
    exists [], [], [], []. split; [by apply bystander_day|]. split; [simpl; lia|done]. }
  apply runs_bind. eapply runs_mono; [apply (calmly_wraps _ _ _ _ _ _ _ (Malloc_wraps size)); done| |].
  - intros a q Hq1 w1. eapply runs_mono; [apply Hm|done|]. intros h e. by apply day_cut_quiet.
  - intros h e [Hh He]. by apply Hq.
Qed.

Definition day_servers_spec (argv : list (list Z)) (w : world) : Prop :=
  runs (daytimetcpsrv1 argv) (fun _ _ => False)
    (match argv with [_; serv] => day_server_end whole None (Some serv) | _ => usage_end end) w /\
  runs (daytimetcpsrv2 argv) (fun _ _ => False) (day_main_end whole argv) w /\
  runs (daytimetcpsrv3 argv) (fun _ _ => False) (day_main_end Z.to_nat argv) w /\
  runs (daytimetcpsrv4 argv) (fun _ _ => False) (day_main_end Z.to_nat argv) w.
Lemma day_servers_run argv w : day_servers_spec argv w.
Proof.
  split; [|split; [|split]].
  - unfold daytimetcpsrv1. destruct argv as [|p [|serv [|]]]; try apply runs_usage.
    apply runs_day_server. intros r w1. apply runs_day_loop. intros w2. apply runs_day_turn; [|apply nothing_calm..].
    intros addr Hb. by apply connection_from_greets.
  - apply runs_day_main. intros r w1. apply runs_day_loop. intros w2. apply runs_day_turn; [|apply nothing_calm..].
    intros addr Hb. by apply connection_from_greets.
  - apply runs_day_main. intros r w1. apply runs_after_malloc. intros w2. apply runs_day_loop. intros w3.
    apply runs_day_turn; [| |apply sleep_calm].
    + intros addr Hb. by apply connection_from_greets.
    + intros fd. by apply (calmly_wraps _ _ _ _ _ _ _ (Setsockopt_wraps fd SOL_SOCKET SO_LINGER _)).
  - apply runs_day_main. intros r w1. apply runs_after_malloc. intros w2. apply runs_day_loop. intros w3.
    apply runs_day_turn; [|apply nothing_calm..]. intros addr Hb. by apply name_info_greets.
Qed.

(** ** The UDP clients *)

(** One datagram of one NUL, and its reply. *)
Definition ask_end (fd : Z) (to : list Z) (h : halt) (e : list event) : Prop :=
  h = Exited 0 /\ (exists d, seg fd [] [([0], to)] [d] [c_string d.1] e) \/
  stopped h /\ exists out inc, seg fd [] out inc [] e /\ out `prefix_of` [([0], to)] /\
    (length inc <= 1)%nat /\ (out = [] -> inc = []).

Lemma runs_ask fd to (send : M unit) c (recv : M answer) cr textS textR flagS flagR codeS codeR w :
  c = CSendto fd [0] to /\ cr = CRecvfrom fd MAXLINE 0 \/ c = CWrite fd [0] /\ to = [] /\ cr = CRead fd MAXLINE ->
  wraps send c (returned 1) (fun _ => ()) flagS textS codeS ->
  wraps recv cr succeeded id flagR textR codeR ->
  runs (send ;; a ← recv; Fputs (c_string (a_data a)) ;; exit (A := Empty_set) 0) (fun _ _ => False) (ask_end fd to) w.
Proof.
  intros Hc Hsend Hrecv.
  assert (forall a, a_ret a <> 1 -> exists out, out `prefix_of` [([0], to)] /\ seg fd [] out [] [] [(c, a)]) as Hbad.
  { intros a Ha. exists (outgoing fd [(c, a)]). destruct Hc as [[-> ->]|(-> & -> & ->)]; cbn [outgoing];
      destruct (_ && _) eqn:E; (split; [first [done|apply prefix_nil]|]); unfold seg; cbn [outgoing]; by rewrite ?E. }
  assert (forall a, a_ret a = 1 -> seg fd [] [([0], to)] [] [] [(c, a)]) as Hout.
  { intros a Ha. unfold seg. destruct Hc as [[-> ->]|(-> & -> & ->)]; cbn; by rewrite Z.eqb_refl, Ha. }
  assert (forall a, 0 <= a_ret a -> exists d, d.1 = a_data a /\ seg fd [] [] [d] [] [(cr, a)]) as Hin.
  { intros a Ha. unfold seg. destruct Hc as [[-> ->]|(-> & -> & ->)]; eexists (a_data a, _); (split; [done|]);
      cbn; rewrite !Z.eqb_refl; by replace (0 <=? a_ret a) with true by lia. }
  assert (forall a, ~ 0 <= a_ret a -> quiet fd [(cr, a)]) as Hnone.
  { intros a Ha. unfold quiet, seg. destruct Hc as [[-> ->]|(-> & -> & ->)];
      cbn; rewrite !Z.eqb_refl; by replace (0 <=? a_ret a) with false by lia. }
  eapply runs_wraps; [exact Hsend| | |].
  - right. split; [by left|]. exists [], []. split; [apply quiet_nil|]. split; [apply prefix_nil|]. simpl. split; [lia|done].
  - intros a rep Ha Hrep. unfold returned in Ha. right. split; [by right|]. destruct (Hbad _ Ha) as (out & Hp & Ho).
    exists out, []. split; [by apply (seg_quiet_r _ _ _ _ _ [_]); auto with world|]. split; [done|]. simpl. split; [lia|done].
  - intros a w1 Ha. unfold returned in Ha. pose proof (Hout _ Ha) as Ho.
    assert (forall h inc e, stopped h -> seg fd [] [] inc [] e -> (length inc <= 1)%nat ->
      ask_end fd to h ((c, normalise c a) :: e)) as Hcut.
    { intros h inc e Hh He Hi. right. split; [done|]. exists [([0], to)], inc.
      split; [by apply (seg_app fd [] [] [_] [] [] inc [] [] [_])|done]. }
    eapply runs_wraps; [exact Hrecv| | |].
    + apply (Hcut _ [] []); [by left|apply quiet_nil|simpl; lia].
    + intros b rep Hb Hrep. unfold succeeded in Hb. apply (Hcut _ [] (_ :: rep)); [by right| |simpl; lia].
      apply (noise_app fd [_]); [by apply Hnone|auto with world].
    + intros b w2 Hb. unfold succeeded in Hb. destruct (Hin _ Hb) as (d & Hd & Hs). cbn [id]. rewrite <- Hd.
      eapply runs_wraps; [apply Fputs_wraps| | |].
      * by apply (Hcut _ [d]); [left| |simpl; lia].
      * intros x rep Hx Hrep. unfold succeeded in Hx. apply (Hcut _ [d] (_ :: _ :: rep)); [by right| |simpl; lia].
        apply (seg_quiet_r _ _ _ _ _ [_]); [done|]. apply (noise_app fd [_]); [|auto with world].
        unfold quiet, seg. cbn -[normalise]. by replace (_ <? 0) with true by lia.
      * intros x w3 Hx. unfold succeeded in Hx. apply runs_halted. left. split; [done|]. exists d.
        apply (seg_app fd [] [] [_] [] [] [d] [] [_] [_]); [done|].
        apply (seg_app fd [] [] [] [] [d] [] [] [_] [_]); [done|].
        unfold seg. cbn -[normalise]. by replace (_ <? 0) with false by lia.
Qed.

Definition udp_client_end (host serv : list Z) (R : Z -> list Z -> halt -> list event -> Prop)
    (h : halt) (e : list event) : Prop :=
  open_fails unused 0 SOCK_DGRAM (Some host) (Some serv) h e \/
  exists r e1 e2, client_ready (Some host) (Some serv) r e1 /\ R r.1 r.2 h e2 /\ e = e1 ++ e2.
Definition sending_end (fd : Z) (to : list Z) (h : halt) (e : list event) : Prop :=
  h = Undefined /\ odd_address to /\ e = [] \/
  exists sa text e', sa_of to = Some sa /\ sock_ntop_host sa (sockaddr_len to) = SrText text /\
    e = (CStdout (chars "sending to " ++ text ++ newline), ok 0) :: e' /\ ask_end fd to h e'.
Definition daytimeudpcli1_end (argv : list (list Z)) (h : halt) (e : list event) : Prop :=
  match argv with [_; host; serv] => udp_client_end host serv sending_end h e | _ => usage_end h e end.
Definition daytimeudpcli2_end (argv : list (list Z)) (h : halt) (e : list event) : Prop :=
  match argv with
  | [_; host; serv] =>
      not_opened connecting 0 SOCK_DGRAM (Some host) (Some serv) h e \/
      exists fd e1 e2, udp_connected (Some host) (Some serv) fd e1 /\ ask_end fd [] h e2 /\ e = e1 ++ e2
  | _ => usage_end h e
  end.
Definition udpcli10_end (argv : list (list Z)) (h : halt) (e : list event) : Prop :=
  match argv with
  | [_; host; serv] => udp_client_end host serv (conv show_text one anything no_risk) h e
  | _ => usage_end h e
  end.

Lemma map_u8_addr f l : Forall (fun ai => bytes (ai_addr ai)) (addrinfos f l).
Proof.
  revert l. induction f as [|f IH]; intros l; [done|].
  destruct l as [|f0 [|t [|p [|n l1]]]]; try done. cbn [addrinfos]. destruct (drop _ _) as [|c l2]; [done|].
  constructor; [apply bytes_u8|apply IH].
Qed.
Lemma client_ready_bytes host serv r e : client_ready host serv r e -> bytes r.2.
Proof.
  intros (x & e1 & e2 & (a & e' & _ & (before & after & ev & s & u & Hr & _) & _) & [-> _] & _). cbn [snd].
  assert (Forall (fun ai => bytes (ai_addr ai)) (answered a)) as Hf by apply map_u8_addr.
  rewrite Hr in Hf. apply Forall_app in Hf as [_ Hf]. by inversion_clear Hf.
Qed.

Definition udp_clients_spec (argv : list (list Z)) (w : world) : Prop :=
  runs (daytimeudpcli1 argv) (fun _ _ => False) (daytimeudpcli1_end argv) w /\
  runs (daytimeudpcli2 argv) (fun _ _ => False) (daytimeudpcli2_end argv) w /\
  runs (udpcli10 argv) (fun _ _ => False) (udpcli10_end argv) w.
Lemma udp_clients_run argv w : udp_clients_spec argv w.
Proof.
  unfold udp_clients_spec, daytimeudpcli1, daytimeudpcli2, udpcli10, daytimeudpcli1_end, daytimeudpcli2_end, udpcli10_end.
  destruct argv as [|p [|host [|serv [|]]]]; try (repeat split; apply runs_usage). split; [|split].
  - apply runs_bind. eapply runs_mono; [apply udp_client_runs| |by left].
    intros r e1 He1 w1. pose proof (client_ready_bytes _ _ _ _ He1) as Hb.
    assert (forall h e, sending_end r.1 r.2 h e ->
      udp_client_end host serv sending_end h (e1 ++ e)) as Hend by (intros h e He; right; by exists r, e1, e).
    apply (runs_Sock_ntop_of true); [done| |].
    + intros Ho. apply Hend. by left.
    + intros sa text w2 Hs Ht. unfold stdout. apply runs_out; [done|]. intros w3.
      eapply runs_mono; [eapply runs_ask; [left; split; reflexivity|apply Sendto_wraps|apply Recvfrom_wraps]|done|].
      intros h e He. apply Hend. right. by exists sa, text, e.
  - apply runs_bind. eapply runs_mono; [apply Udp_connect_runs| |by left].
    intros fd e1 He1 w1.
    eapply runs_mono; [eapply runs_ask; [right; split; [reflexivity|split; reflexivity]|apply Write_wraps|apply Read_wraps]|done|].
    intros h e He. right. by exists fd, e1, e.
  - apply runs_bind. eapply runs_mono; [apply udp_client_runs| |by left].
    intros r e1 He1 w1. apply runs_bind. eapply runs_mono; [apply dg_cli_runs| |].
    + intros [] e He w2. apply runs_halted. rewrite app_nil_r. right. by exists r, e1, e.
    + intros h e He. right. by exists r, e1, e.
Qed.

(** ** The UDP servers: every datagram is answered with the time *)

Record udp_day : Type := UdpDay { u_data : list Z; u_from : list Z; u_text : list Z; u_time : list Z }.
Definition names_address (t : udp_day) : Prop :=
  exists sa, sa_of (u_from t) = Some sa /\ sock_ntop sa (sockaddr_len (u_from t)) = SrText (u_text t).
Definition udp_served (fd : Z) (ts : list udp_day) (e : list event) : Prop :=
  seg fd [] ((fun t => (stamp (u_time t), u_from t)) <$> ts) ((fun t => (u_data t, u_from t)) <$> ts)
    ((fun t => chars "datagram from " ++ u_text t ++ newline) <$> ts) e /\
  ctimes e = u_time <$> ts /\ Forall names_address ts.
(** In a turn: at most one datagram, not yet answered. *)
Definition udp_day_part (fd : Z) (e : list event) : Prop :=
  exists out inc dis, seg fd [] out inc dis e /\ (length inc <= 1)%nat /\
    out `prefix_of` zip (stamp <$> ctimes e) inc.*2.
Definition udp_day_risk (fd : Z) (e : list event) : Prop :=
  (exists x, x ∈ incoming fd e /\ odd_address x.2) \/
  (exists args a, (libc "ctime" args [], a) ∈ e /\ a_ret a < 0).
Definition udp_day_cut (fd : Z) (h : halt) (e : list event) : Prop :=
  (stopped h \/ h = Undefined /\ udp_day_risk fd e) /\
  exists ts e1 e2, e = e1 ++ e2 /\ udp_served fd ts e1 /\ udp_day_part fd e2.

Lemma silent_ctimes e : only is_report e -> ctimes e = [].
Proof.
  intros He. destruct (bystander_day e (reports_bystander _ He)) as (_ & _ & _ & H). done.
Qed.

(** The time, between other events. *)
Lemma runs_time_quietly {B} fd (k : list Z -> M B) (Q : B -> list event -> Prop) (H : halt -> list event -> Prop) w :
  (forall h e, stopped h -> quiet fd e -> ctimes e = [] -> H h e) ->
  (forall a b args, a_ret b < 0 -> quiet fd [a; (libc "ctime" args [], b)] -> ctimes [a; (libc "ctime" args [], b)] = [] ->
     H Undefined [a; (libc "ctime" args [], b)]) ->
  (forall t e w', quiet fd e -> ctimes e = [t] ->
     runs (k (stamp t)) (fun b e2 => Q b (e ++ e2)) (fun h e2 => H h (e ++ e2)) w') ->
  runs (time_stamp ≫= k) Q H w.
Proof.
  intros Hs Hu Hk. unfold time_stamp. apply runs_bind, runs_call; [done|by apply Hs; [left| |]|].
  intros a w1 x _. apply runs_call; [done|by apply Hs; [left| |]|].
  intros b w2 y _. destruct (a_ret y <? 0) eqn:E; zbool.
  - apply runs_halted. apply (Hu (_, x) y); [done|done|]. unfold ctimes. simpl.
    by replace (0 <=? a_ret y) with false by lia.
  - apply runs_ret. intros w3. apply (Hk (map u8 (a_data y)) [(_, x); (_, y)]); [done|]. unfold ctimes. simpl.
    by replace (0 <=? a_ret y) with true by lia.
Qed.

Lemma runs_udp_day_turn fd w :
  runs (udp_day_turn fd) (fun _ e => (0 < waits e)%nat /\ exists t, udp_served fd [t] e)
    (fun h e => (stopped h \/ h = Undefined /\ udp_day_risk fd e) /\ udp_day_part fd e) w.
Proof.
  unfold udp_day_turn. apply runs_arrival.
  { intros h e Hh Hq He. split; [by left|]. exists [], [], []. split; [done|]. split; [simpl; lia|apply prefix_nil]. }
  intros a w1 Ha Hin. set (e0 := [(CRecvfrom fd MAXLINE 0, a)]). change ([(CRecvfrom fd MAXLINE 0, a)]) with e0 in Hin.
  assert (ctimes e0 = []) as Ht0 by done.
  assert (bytes (sender a)) as Hb by apply bytes_u8.
  assert (forall q dis e, quiet fd q -> seg fd [] [] [] dis e ->
    seg fd [] [] [(a_data a, sender a)] dis (e0 ++ e ++ q)) as Hpart.
  { intros q dis e Hq He. apply (seg_app fd [] [] [] [] [_] [] [] _ e0); [done|]. by apply seg_quiet_r. }
  assert (forall h e out dis, (stopped h \/ h = Undefined /\ udp_day_risk fd (e0 ++ e)) ->
    seg fd [] out [] dis e -> out `prefix_of` zip (stamp <$> ctimes e) [sender a] ->
    (stopped h \/ h = Undefined /\ udp_day_risk fd (e0 ++ e)) /\ udp_day_part fd (e0 ++ e)) as Hcut.
  { intros h e out dis Hh He Hp. split; [done|]. exists out, [(a_data a, sender a)], dis.
    split; [by apply (seg_app fd [] [] [] out [_] [] [] dis e0)|]. split; [simpl; lia|]. by rewrite ctimes_app. }
  apply (runs_Sock_ntop_of false (sender a)); [done| |].
  { intros Ho. apply (Hcut _ [] [] []); [|apply quiet_nil|apply prefix_nil]. right. split; [done|]. left.
    exists (a_data a, sender a). split; [|done]. destruct Hin as (_ & _ & Hi & _).
    rewrite incoming_app, Hi. apply elem_of_app. left. apply list_elem_of_here. }
  intros sa text w2 Hs Ht. unfold stdout. apply runs_out; [done|]. intros w3.
  set (o := (CStdout (chars "datagram from " ++ text ++ newline), ok 0) : event).
  assert (seg fd [] [] [] [chars "datagram from " ++ text ++ newline] [o]) as Ho by done.
  apply (runs_time_quietly fd).
  { intros h e Hh Hq Hc. apply (Hcut h (o :: e) [] [chars "datagram from " ++ text ++ newline]);
      [by left|by apply (seg_quiet_r _ _ _ _ _ [o])|apply prefix_nil]. }
  { intros x b args Hbad Hq Hc.
    apply (Hcut Undefined [o; x; (libc "ctime" args [], b)] [] [chars "datagram from " ++ text ++ newline]);
      [|by apply (seg_quiet_r _ _ _ _ _ [o])|apply prefix_nil].
    right. split; [done|]. right. exists args, b. split; [|done]. unfold e0, o.
    repeat (first [apply list_elem_of_here|apply list_elem_of_further]). }
  intros t q w4 Hq Hc.
  assert (seg fd [] [] [] [chars "datagram from " ++ text ++ newline] (o :: q)) as Hoq by (by apply (seg_quiet_r _ _ _ _ _ [o])).
  assert (ctimes (o :: q) = [t]) as Htq by exact Hc.
  eapply runs_wraps_ret; [apply Sendto_wraps| | |].
  - rewrite app_nil_r. apply (Hcut Blocked (o :: q) [] [chars "datagram from " ++ text ++ newline]);
      [by left; left|exact Hoq|apply prefix_nil].
  - intros b rep Hbad Hrep. set (s := CSendto fd (stamp t) (sender a)).
    destruct (Sendto_failed fd (stamp t) (sender a) (normalise s b) rep Hrep) as (m & Hm & Hseg).
    apply (Hcut (Exited 1) ((o :: q) ++ (s, normalise s b) :: rep)
      (replicate m (stamp t, sender a)) [chars "datagram from " ++ text ++ newline]); [left; by right| |].
    + apply (seg_app fd [] [] [] _ [] [] [_] [] (o :: q)); [exact Hoq|exact Hseg].
    + rewrite ctimes_app, Htq. cbn [fmap list_fmap app zip].
      destruct m as [|[|]]; [apply prefix_nil| |lia]. cbn. by apply prefix_cons, prefix_nil.
  - intros b Hg. unfold returned in Hg. split; [simpl; lia|]. exists (UdpDay (a_data a) (sender a) text t).
    split; [|split].
    + pose proof (sent_seg fd (stamp t) (sender a) (normalise (CSendto fd (stamp t) (sender a)) b) ltac:(lia)) as Hsend.
      apply (seg_app fd [] [] [] [_] [_] [] [] [_] e0); [done|].
      pose proof (seg_app _ _ _ _ _ _ _ _ _ _ _ Hoq Hsend) as H. exact H.
    + change (ctimes (e0 ++ (o :: q) ++ [(CSendto fd (stamp t) (sender a), normalise (CSendto fd (stamp t) (sender a)) b)]) = [t]).
      by rewrite !ctimes_app, Ht0, Htq.
    + constructor; [|done]. by exists sa.
Qed.

Definition udp_day_end (U : Z -> addrinfo -> Z -> list event -> Prop) (host serv : option (list Z)) (h : halt)
    (e : list event) : Prop :=
  not_opened U AI_PASSIVE SOCK_DGRAM host serv h e \/
  exists r e1 e2, bound U host serv r e1 /\ udp_day_cut r.1 h e2 /\ e = e1 ++ e2.
Definition udp_day_main_end (U : Z -> addrinfo -> Z -> list event -> Prop) (argv : list (list Z)) (h : halt)
    (e : list event) : Prop :=
  match argv with
  | [_; serv] => udp_day_end U None (Some serv) h e
  | [_; host; serv] => udp_day_end U (Some host) (Some serv) h e
  | _ => usage_end h e
  end.

Lemma udp_served_app fd ts t e1 e2 : udp_served fd ts e1 -> udp_served fd [t] e2 -> udp_served fd (ts ++ [t]) (e1 ++ e2).
Proof.
  intros (H1 & H2 & H3) (H4 & H5 & H6). unfold udp_served. rewrite !fmap_app, ctimes_app, H2, H5.
  split; [by apply (seg_app fd [] [])|]. split; [done|]. by apply Forall_app.
Qed.
Lemma udp_day_risk_app fd e1 e2 : udp_day_risk fd e2 -> udp_day_risk fd (e1 ++ e2).
Proof.
  intros [(x & Hx & Ho)|(args & a & Ha & Hr)].
  - left. exists x. split; [|done]. rewrite incoming_app. apply elem_of_app. by right.
  - right. exists args, a. split; [|done]. apply elem_of_app. by right.
Qed.

Lemma runs_udp_day_loop fd w : runs (day_loop (udp_day_turn fd)) (fun _ _ => False) (udp_day_cut fd) w.
Proof.
  apply (runs_loop _ (fun _ e => exists ts, udp_served fd ts e)); [by exists []|].
  intros [] e w1 (ts & Hs). apply runs_bind. eapply runs_mono; [apply runs_udp_day_turn| |].
  - intros [] e2 [Hw (t & H2)] w2. apply runs_ret. rewrite app_nil_r. split; [done|].
    exists (ts ++ [t]). by apply udp_served_app.
  - intros h e2 [Hh Hp]. split; [|by exists ts, e, e2].
    destruct Hh as [|[-> Hr]]; [by left|right; split; [done|by apply udp_day_risk_app]].
Qed.

Lemma udp_day_server_runs server U argv w :
  (forall host serv w, runs (server host serv) (bound U host serv) (not_opened U AI_PASSIVE SOCK_DGRAM host serv) w) ->
  runs (udp_day_server server argv) (fun _ _ => False) (udp_day_main_end U argv) w.
Proof.
  intros Hserver. unfold udp_day_server, udp_day_main_end.
  assert (forall host serv w, runs (s ← server host serv; day_loop (udp_day_turn s.1))
    (fun _ _ => False) (udp_day_end U host serv) w) as Hmain.
  { intros host serv w1. apply runs_bind. eapply runs_mono; [apply Hserver| |by left].
    intros r e1 He1 w2. eapply runs_mono; [apply runs_udp_day_loop|done|]. intros h e2 He2. right. by exists r, e1, e2. }
  destruct argv as [|p [|a1 [|a2 [|]]]]; try apply Hmain;
    (apply runs_bind; eapply runs_mono; [apply runs_usage|by intros ? ? []|done]).
Qed.

(** ** The properties *)

(** What holds at the end holds of the descriptors, too. *)
Definition keeps (e : list event) (fd : Z) : Prop := held e [fd].
Definition keeps_at_most_one (e : list event) : Prop := exists l, held e l /\ (length l <= 1)%nat.

Lemma runs_accounted {A} (m : M A) (fd_of : A -> Z) Q H w :
  runs m Q H w -> (forall x e, Q x e -> keeps e (fd_of x)) -> (forall h e, H h e -> keeps_at_most_one e) ->
  runs m (fun x e => Q x e /\ keeps e (fd_of x)) (fun h e => H h e /\ keeps_at_most_one e) w.
Proof. intros Hm HQ HH. eapply runs_mono; [exact Hm| |]; intros ? ? H1; (split; [exact H1|]); [by apply HQ|by eapply HH]. Qed.

Lemma opens_keeps U flags socktype host serv x e e' :
  opens U flags socktype host serv x e -> only plain e' -> keeps (e ++ e') x.1.
Proof. intros He Hp. apply held_plain_r; [done|by eapply opens_held]. Qed.
Lemma open_fails_accounted U flags socktype host serv h e :
  open_fails U flags socktype host serv h e -> keeps_at_most_one e.
Proof.
  intros [H|(_ & x & e1 & e2 & H1 & H2 & ->)]; [by eapply not_opened_held|].
  exists [x.1]. split; [apply held_plain_r; [done|by eapply opens_held]|simpl; lia].
Qed.

(** C34: the library's functions over the lists of [getaddrinfo].  Each asks
    the resolver once, tries the addresses in the order of the list, and
    returns the socket of the first that [connect] (tcp_connect,
    udp_connect) or [bind] (tcp_listen, udp_server, udp_server_reuseaddr)
    accepts; udp_client takes the first for which there is a socket.  The
    socket of every address before it is closed: the function leaves exactly
    the descriptor it returns, and at most one when it ends the process, which it
    does only when the resolver fails, no address can be used or a wrapped call
    fails.  Undefined behaviour is limited to the message, if the host or
    the service is NULL, and to a resolver that answers with no address.
    host_serv gives the list or NULL, and Host_serv the list or a
    message. *)
Theorem net_functions_correct host serv family socktype w :
  runs (Tcp_connect host serv) (fun fd e => tcp_connected host serv fd e /\ keeps e fd)
    (fun h e => not_opened connecting 0 SOCK_STREAM host serv h e /\ keeps_at_most_one e) w /\
  runs (Udp_connect host serv) (fun fd e => udp_connected host serv fd e /\ keeps e fd)
    (fun h e => not_opened connecting 0 SOCK_DGRAM host serv h e /\ keeps_at_most_one e) w /\
  runs (Tcp_listen host serv) (fun r e => listening host serv r e /\ keeps e r.1)
    (fun h e => open_fails reuse_binding AI_PASSIVE SOCK_STREAM host serv h e /\ keeps_at_most_one e) w /\
  runs (Udp_client host serv) (fun r e => client_ready host serv r e /\ keeps e r.1)
    (fun h e => open_fails unused 0 SOCK_DGRAM host serv h e /\ keeps_at_most_one e) w /\
  runs (Udp_server host serv) (fun r e => bound binding host serv r e /\ keeps e r.1)
    (fun h e => not_opened binding AI_PASSIVE SOCK_DGRAM host serv h e /\ keeps_at_most_one e) w /\
  runs (Udp_server_reuseaddr host serv) (fun r e => bound reuse_binding host serv r e /\ keeps e r.1)
    (fun h e => not_opened reuse_binding AI_PASSIVE SOCK_DGRAM host serv h e /\ keeps_at_most_one e) w /\
  host_serv_spec host serv family socktype w.
Proof.
  assert (forall U flags socktype h e, not_opened U flags socktype host serv h e -> keeps_at_most_one e) as Hno
    by (intros ? ? ? ? ?; apply not_opened_held).
  split_and!; [| | | | | |apply host_serv_runs].
  - eapply (runs_accounted _ id); [apply tcp_connect_runs| |apply Hno]. intros fd e [ai He]. exact (opens_held _ _ _ _ _ _ _ He).
  - eapply (runs_accounted _ id); [apply Udp_connect_runs| |apply Hno]. intros fd e [ai He]. exact (opens_held _ _ _ _ _ _ _ He).
  - eapply (runs_accounted _ fst); [apply tcp_listen_runs| |apply open_fails_accounted].
    intros r e (x & e1 & e2 & H1 & [-> (a & n & b & ->)] & ->). eapply opens_keeps; [exact H1|by repeat constructor].
  - eapply (runs_accounted _ fst); [apply udp_client_runs| |apply open_fails_accounted].
    intros r e (x & e1 & e2 & H1 & [-> (a & ->)] & ->). eapply opens_keeps; [exact H1|by repeat constructor].
  - eapply (runs_accounted _ fst); [apply udp_server_runs| |apply Hno]. intros r e (ai & He & _). exact (opens_held _ _ _ _ _ _ _ He).
  - eapply (runs_accounted _ fst); [apply udp_server_reuseaddr_runs| |apply Hno]. intros r e (ai & He & _). exact (opens_held _ _ _ _ _ _ _ He).
Qed.

(** The resolver's answer of two IPv4 addresses; the first refuses the
    connection and its socket 3 is closed. *)
Definition two_hosts : list Z :=
  [2; 1; 6; 16; 2; 0; 0; 13; 10; 0; 0; 1; 0; 0; 0; 0; 0; 0; 0; 0; -1;
   2; 1; 6; 16; 2; 0; 0; 13; 10; 0; 0; 2; 0; 0; 0; 0; 0; 0; 0; 0; -1].
Definition host_10_0_0_2 : list Z := [2; 0; 0; 13; 10; 0; 0; 2; 0; 0; 0; 0; 0; 0; 0; 0].
Definition day_world : world := world0
  [Ans 0 0 two_hosts []; ok 3; err ECONNREFUSED; ok 0; ok 4; ok 0;
   Ans 0 0 host_10_0_0_2 []; Ans 3 0 [104; 105; 10] []; ok 0; Ans 0 0 [] []].
Definition day_args : list (list Z) := [chars "cli"; chars "host"; chars "daytime"].

Example net_functions_day :
  let '(r, w) := Tcp_connect (Some (chars "host")) (Some (chars "daytime")) day_world in
  r = Ret 4 /\ opened (trace w) = [3; 4] /\ closed (trace w) = [3].
Proof. by vm_compute. Qed.

(** C35: the programs on these functions end as they should.  The
    three TCP clients show "connected to" or "trying" and the right text of each address they try,
    then the whole reply up to the end of the connection, and exit with 0;
    daytimetcpcli1 and daytimetcpcli2 try the addresses of [gethostbyname] (or of
    the number itself) in order and close each that refuses.  The four TCP servers
    never end by themselves: every connection gets one time stamp and
    is closed before the next is accepted.  The two UDP servers
    answer every datagram with a time stamp, to the address it came from and
    before the next is taken; the UDP clients send one datagram and show one
    reply.  With a wrong number of arguments there is a usage message and status
    1, and nothing else. *)
Theorem net_programs_correct argv w (Hargv : Forall cstr argv) :
  runs (daytimetcpcli argv) (fun _ _ => False) (daytimetcpcli_end argv) w /\
  runs (daytimetcpcli1 argv) (fun _ _ => False) (daytimetcpcli1_end argv) w /\
  runs (daytimetcpcli2 argv) (fun _ _ => False) (daytimetcpcli2_end argv) w /\
  day_servers_spec argv w /\
  udp_clients_spec argv w /\
  runs (daytimeudpsrv2 argv) (fun _ _ => False) (udp_day_main_end binding argv) w /\
  runs (daytimeudpsrv3 argv) (fun _ _ => False) (udp_day_main_end reuse_binding argv) w.
Proof.
  split_and!.
  - apply daytimetcpcli_runs.
  - apply daytimetcpcli1_runs.
  - by apply daytimetcpcli2_runs.
  - apply day_servers_run.
  - apply udp_clients_run.
  - apply udp_day_server_runs, udp_server_runs.
  - apply udp_day_server_runs, udp_server_reuseaddr_runs.
Qed.

Theorem net_programs_correct_witness :
  Forall cstr day_args /\
  runs (daytimetcpcli day_args) (fun _ _ => False) (daytimetcpcli_end day_args) day_world /\
  (let '(r, w) := daytimetcpcli day_args day_world in
   r = Halt (Exited 0) /\ displays (trace w) = [chars "connected to 10.0.0.2" ++ newline; [104; 105; 10]] /\
   closed (trace w) = [3]).
Proof.
  assert (Forall cstr day_args) as H by (repeat constructor; done).
  split; [exact H|]. split; [|by vm_compute].
  destruct (net_programs_correct day_args day_world H) as (Hc & _). exact Hc.
Defined.
