(* ===== verification/WebClient.v ===== *)
(** * The web client with simultaneous non-blocking connections

    nonblock/web.c, web.h, start_connect.c, home_page.c, write_get_cmd.c.

    The array of files, the counters and the descriptor sets are the state of
    the loop.  The abstract machine is a table of phases, one for each file:
    the program refines it, whatever the kernel answers. *)

From S2P Require Import Prelude Unix ErrorLib Wrap ReadWrite TcpEcho TcpSelect SockOpt Udp NetConn.

(** ** Data *)

Definition MAXFILES : Z := 20.
Definition SERV : list Z := chars "80".
Definition F_CONNECTING : Z := 1.
Definition F_READING : Z := 2.
Definition F_DONE : Z := 4.

Record file : Type := File {
  f_name : list Z;
  f_host : list Z;
  f_fd : Z;
  f_flags : Z
}.

Record web : Type := Web {
  w_file : list file;
  nconn : Z;
  nlefttoconn : Z;
  nlefttoread : Z;
  w_maxfd : Z;
  w_rset : gset Z;
  w_wset : gset Z
}.

(** The GET_CMD of web.h. *)
Definition GET_CMD (name : list Z) : list Z :=
  chars "GET " ++ name ++ chars " HTTP/1.0" ++ [13; 10; 13; 10].

(** [n = snprintf(line, sizeof(line), ...)] and [Writen(fd, line, n)]: the
    array holds at most MAXLINE - 1 characters and the NUL, and [n] is the
    length that the whole text would have. *)
Definition print_and_write (fd : Z) (text : list Z) : M Z :=
  let n := Z.of_nat (length text) in
  if n <=? MAXLINE
  then Writen fd (take (length text) (take (Z.to_nat MAXLINE - 1) text ++ [0])) ;; mret n
  else undefined.

(** ** home_page.c *)

Definition home_page (host fname : list Z) : M unit :=
  fd ← Tcp_connect (Some host) (Some SERV);
  print_and_write fd (GET_CMD fname) ;;
  loop (fun _ : unit =>
    a ← Read fd MAXLINE;
    if a_ret a =? 0 then mret (inr ())
    else stdout (chars "read " ++ fmt_d (a_ret a) ++ chars " bytes of home page" ++ newline) ;; mret (inl ())) () ;;
  stdout (chars "end-of-file on home page" ++ newline) ;;
  Close fd ;;
  mret ().

(** ** write_get_cmd.c and start_connect.c *)

Definition set_file (i : nat) (f : file) (st : web) : web :=
  Web (<[i := f]> (w_file st)) (nconn st) (nlefttoconn st) (nlefttoread st) (w_maxfd st) (w_rset st) (w_wset st).
Definition with_fd (f : file) (fd : Z) : file := File (f_name f) (f_host f) fd (f_flags f).
Definition with_flags (f : file) (flags : Z) : file := File (f_name f) (f_host f) (f_fd f) flags.
Definition set_rset (s : gset Z) (st : web) : web :=
  Web (w_file st) (nconn st) (nlefttoconn st) (nlefttoread st) (w_maxfd st) s (w_wset st).
Definition set_wset (s : gset Z) (st : web) : web :=
  Web (w_file st) (nconn st) (nlefttoconn st) (nlefttoread st) (w_maxfd st) (w_rset st) s.
Definition raise_maxfd (fd : Z) (st : web) : web :=
  Web (w_file st) (nconn st) (nlefttoconn st) (nlefttoread st) (if w_maxfd st <? fd then fd else w_maxfd st)
    (w_rset st) (w_wset st).

Definition write_get_cmd (i : nat) (f : file) (st : web) : M web :=
  n ← print_and_write (f_fd f) (GET_CMD (f_name f));
  stdout (chars "wrote " ++ fmt_d n ++ chars " bytes for " ++ f_name f ++ newline) ;;
  let st := set_file i (with_flags f F_READING) st in
  r ← fd_set (f_fd f) (w_rset st);
  mret (raise_maxfd (f_fd f) (set_rset r st)).

Definition start_connect (i : nat) (f : file) (st : web) : M web :=
  res ← Host_serv (Some (f_host f)) (Some SERV) 0 SOCK_STREAM;
  ai ← or_undef (head res);
  fd ← Socket (ai_family ai) (ai_socktype ai) (ai_protocol ai);
  let f := with_fd f fd in
  let st := set_file i f st in
  stdout (chars "start_connect for " ++ f_name f ++ chars ", fd " ++ fmt_d fd ++ newline) ;;
  flags ← Fcntl fd F_GETFL 0;
  Fcntl fd F_SETFL (Z.lor flags O_NONBLOCK) ;;
  n ← ret_of (CConnect fd (ai_addr ai));
  if n <? 0 then
    e ← get_errno;
    if negb (e =? EINPROGRESS) then err_sys (chars "nonblocking connect error")
    else
      let st := set_file i (with_flags f F_CONNECTING) st in
      r ← fd_set fd (w_rset st);
      s ← fd_set fd (w_wset st);
      mret (raise_maxfd fd (set_wset s (set_rset r st)))
  else write_get_cmd i f st.

(** ** web.c *)

(** The first file that has not been started. *)
Fixpoint find_file (l : list file) (i : nat) : option (nat * file) :=
  match l with
  | [] => None
  | f :: l' => if f_flags f =? 0 then Some (i, f) else find_file l' (S i)
  end.

(** The inner while loop. *)
Definition fill_body (maxnconn : Z) (st : web) : M (web + web) :=
  if (nconn st <? maxnconn) && (0 <? nlefttoconn st) then
    match find_file (w_file st) 0 with
    | None => err_quit (chars "nlefttoconn = " ++ fmt_d (nlefttoconn st) ++ chars " but nothing found")
    | Some (i, f) =>
        st ← start_connect i f st;
        mret (inl (Web (w_file st) (nconn st + 1) (nlefttoconn st - 1) (nlefttoread st) (w_maxfd st)
                     (w_rset st) (w_wset st)))
    end
  else mret (inr st).

(** [getsockopt] fails or has stored an error; an [int] is 0 when all its
    bytes are. *)
Definition connect_failed (a : answer) : bool :=
  (a_ret a <? 0) || existsb (fun b => negb (b =? 0)) (take 4 (stored_bytes a)).

Definition serve_file (rs ws : gset Z) (i : nat) (f : file) (st : web) : M web :=
  let flags := f_flags f in
  let fd := f_fd f in
  if (flags =? 0) || negb (Z.land flags F_DONE =? 0) then mret st
  else if negb (Z.land flags F_CONNECTING =? 0) && (fd_isset fd rs || fd_isset fd ws) then
    a ← kernel (CGetsockopt fd SOL_SOCKET SO_ERROR);
    (if connect_failed a then err_ret (chars "nonblocking connect failed for " ++ f_name f) else mret ()) ;;
    stdout (chars "connection established for " ++ f_name f ++ newline) ;;
    s ← fd_clr fd (w_wset st);
    write_get_cmd i f (set_wset s st)
  else if negb (Z.land flags F_READING =? 0) && fd_isset fd rs then
    a ← Read fd MAXLINE;
    if a_ret a =? 0 then
      stdout (chars "end-of-file on " ++ f_name f ++ newline) ;;
      Close fd ;;
      let st := set_file i (with_flags f F_DONE) st in
      r ← fd_clr fd (w_rset st);
      mret (Web (w_file st) (nconn st - 1) (nlefttoconn st) (nlefttoread st - 1) (w_maxfd st) r (w_wset st))
    else
      stdout (chars "read " ++ fmt_d (a_ret a) ++ chars " bytes from " ++ f_name f ++ newline) ;;
      mret st
  else mret st.

(** The for loop, from file [i], [todo] of them. *)
Fixpoint serve_files (rs ws : gset Z) (todo : nat) (i : nat) (st : web) : M web :=
  match todo with
  | O => mret st
  | S todo' =>
      f ← or_undef (w_file st !! i);
      st ← serve_file rs ws i f st;
      serve_files rs ws todo' (S i) st
  end.

Definition web_body (maxnconn : Z) (st : web) : M (web + unit) :=
  if 0 <? nlefttoread st then
    st ← loop (fill_body maxnconn) st;
    sel ← Select (w_maxfd st + 1) (w_rset st) (w_wset st) None;
    st ← serve_files (list_to_set (a_data sel)) (list_to_set (a_wdata sel)) (length (w_file st)) 0 st;
    mret (inl st)
  else mret (inr ()).

Definition web_start (host : list Z) (names : list (list Z)) : web :=
  let nfiles := Z.of_nat (length names) in
  Web ((fun name => File name host 0 0) <$> names) 0 nfiles nfiles (-1) ∅ ∅.

Definition web_main (argv : list (list Z)) : M Empty_set :=
  match argv with
  | _ :: conns :: host :: homepage :: (_ :: _) as files =>
      let names := take (Z.to_nat MAXFILES) files in
      stdout (chars "nfiles = " ++ fmt_d (Z.of_nat (length names)) ++ newline) ;;
      home_page host homepage ;;
      loop (web_body (atoi conns)) (web_start host names) ;;
      exit 0
  | _ => err_quit (chars "usage: web <#conns> <hostname> <homepage> <file1> ...")
  end.

(** One connection at a time; the second file gets the descriptor of the
    first again. *)
Definition one_host : list Z := [2; 1; 6; 16; 2; 0; 0; 80; 10; 0; 0; 1; 0; 0; 0; 0; 0; 0; 0; 0; -1].
Definition web_world : world := world0
  [Ans 0 0 one_host []; ok 3; ok 0; ok 100; data [104; 105]; ok 0; ok 0;
   Ans 0 0 one_host []; ok 3; ok 2; ok 0; err EINPROGRESS; Ans 1 0 [] [3]; Ans 0 0 [0; 0; 0; 0] []; ok 100;
   Ans 1 0 [3] []; data [97]; Ans 1 0 [3] []; ok 0; ok 0;
   Ans 0 0 one_host []; ok 3; ok 2; ok 0; ok 0; ok 100; Ans 1 0 [3] []; ok 0; ok 0].
Definition web_args : list (list Z) :=
  [chars "web"; chars "1"; chars "h"; chars "/"; chars "/a"; chars "/b"].
Example web_two_files :
  let '(r, w) := web_main web_args web_world in
  r = Halt (Exited 0) /\ opened (trace w) = [3; 3; 3] /\ closed (trace w) = [3; 3; 3] /\ script w = [] /\
  sent 3 (trace w) = GET_CMD (chars "/") ++ GET_CMD (chars "/a") ++ GET_CMD (chars "/b").
Proof. by vm_compute. Qed.

(** ** The abstract machine: one phase for each file *)

Inductive phase : Type :=
| Waiting
| Connecting (fd : Z)
| Reading (fd : Z)
| Done.

Definition fd_of (p : phase) : option Z :=
  match p with Connecting fd | Reading fd => Some fd | _ => None end.
Definition connecting_fd (p : phase) : option Z := if p is Connecting fd then Some fd else None.
Definition still_waiting (p : phase) : option unit := if p is Waiting then Some () else None.
Definition not_done (p : phase) : option unit := if p is Done then None else Some ().
Notation busy bk := (omap fd_of bk).
Notation in_progress bk := (omap connecting_fd bk).
Notation waiting bk := (omap still_waiting bk).
Notation unfinished bk := (omap not_done bk).

Definition first_waiting (bk : list phase) (i : nat) : Prop :=
  bk !! i = Some Waiting /\ forall j, (j < i)%nat -> bk !! j <> Some Waiting.

(** The bytes of a command: [line] holds one character less than its size. *)
Definition cmd_bytes (name : list Z) : list Z :=
  take (length (GET_CMD name)) (take (Z.to_nat MAXLINE - 1) (GET_CMD name) ++ [0]).
Definition too_long (name : list Z) : Prop := MAXLINE < Z.of_nat (length (GET_CMD name)).

(** The command is written in full, and then reported. *)
Definition commands (name : list Z) (fd : Z) (e : list event) : Prop :=
  ~ too_long name /\ exists ws, only (is_write fd) ws /\ sent fd ws = cmd_bytes name /\
    e = ws ++ [(CStdout (chars "wrote " ++ fmt_d (Z.of_nat (length (GET_CMD name))) ++ chars " bytes for " ++
                         name ++ newline), ok 0)].

(** A connection is started: it is in progress, or the command follows at once. *)
Definition starts (host name : list Z) (fd : Z) (p : phase) (e : list event) : Prop :=
  exists a0 ai rest s f g c e0, 0 <= fd < FD_SETSIZE /\ a_ret a0 = 0 /\ answered a0 = ai :: rest /\ a_ret s = fd /\
    e0 = [(host_serv_asked (Some host) (Some SERV) 0 SOCK_STREAM, a0); (socket_of ai, s);
          (CStdout (chars "start_connect for " ++ name ++ chars ", fd " ++ fmt_d fd ++ newline), ok 0);
          (CFcntl fd F_GETFL 0, f); (CFcntl fd F_SETFL (Z.lor (a_ret f) O_NONBLOCK), g);
          (CConnect fd (ai_addr ai), c)] /\
    (a_ret c < 0 /\ a_err c = EINPROGRESS /\ p = Connecting fd /\ e = e0 \/
     0 <= a_ret c /\ p = Reading fd /\ exists cmd, commands name fd cmd /\ e = e0 ++ cmd).

(** The connection that [select] reports is taken for established: an error
    is reported, and the command is written all the same. *)
Definition establishes (name : list Z) (fd : Z) (e : list event) : Prop :=
  exists a rep cmd, (if connect_failed a then only is_report rep else rep = []) /\ commands name fd cmd /\
    e = (CGetsockopt fd SOL_SOCKET SO_ERROR, a) :: rep ++
        (CStdout (chars "connection established for " ++ name ++ newline), ok 0) :: cmd.

Definition some_data (name : list Z) (fd : Z) (e : list event) : Prop :=
  exists a, 0 < a_ret a /\
    e = [(CRead fd MAXLINE, a); (CStdout (chars "read " ++ fmt_d (a_ret a) ++ chars " bytes from " ++ name ++ newline), ok 0)].
Definition end_of_data (name : list Z) (fd : Z) (e : list event) : Prop :=
  exists a k, a_ret a = 0 /\ 0 <= a_ret k /\
    e = [(CRead fd MAXLINE, a); (CStdout (chars "end-of-file on " ++ name ++ newline), ok 0); (CClose fd, k)].

Section Session.
Context (names : list (list Z)) (host : list Z) (maxnconn : Z).

(** [session bk rs ws e]: from the start, the calls [e] have brought the files
    to the phases [bk], and the last [select] has reported [rs] and [ws].
    [select] is asked only when no further connection may be started. *)
Inductive session : list phase -> gset Z -> gset Z -> list event -> Prop :=
| session_start : session ((fun _ => Waiting) <$> names) ∅ ∅ []
| session_begin bk rs ws e i name fd p ev :
    session bk rs ws e -> first_waiting bk i -> names !! i = Some name ->
    Z.of_nat (length (busy bk)) < maxnconn -> starts host name fd p ev ->
    session (<[i := p]> bk) rs ws (e ++ ev)
| session_select bk rs ws e nfds r w a :
    session bk rs ws e -> maxnconn <= Z.of_nat (length (busy bk)) \/ waiting bk = [] -> unfinished bk <> [] ->
    Forall (fun fd => 0 <= fd < nfds) (busy bk) ->
    (fresh ∅ e -> r = list_to_set (busy bk) /\ w = list_to_set (in_progress bk)) -> 0 <= a_ret a ->
    session bk (list_to_set (a_data a)) (list_to_set (a_wdata a)) (e ++ [(CSelect nfds r w None, a)])
| session_established bk rs ws e i name fd ev :
    session bk rs ws e -> bk !! i = Some (Connecting fd) -> names !! i = Some name -> fd ∈ rs ∪ ws ->
    establishes name fd ev -> session (<[i := Reading fd]> bk) rs ws (e ++ ev)
| session_data bk rs ws e i name fd ev :
    session bk rs ws e -> bk !! i = Some (Reading fd) -> names !! i = Some name -> fd ∈ rs ->
    some_data name fd ev -> session bk rs ws (e ++ ev)
| session_end bk rs ws e i name fd ev :
    session bk rs ws e -> bk !! i = Some (Reading fd) -> names !! i = Some name -> fd ∈ rs ->
    end_of_data name fd ev -> session (<[i := Done]> bk) rs ws (e ++ ev).

(** What can make the behaviour undefined. *)
Definition web_risk (e : list event) : Prop :=
  Exists too_long names \/ (exists fd, fd ∈ opened e /\ FD_SETSIZE <= fd) \/
  (exists a, (host_serv_asked (Some host) (Some SERV) 0 SOCK_STREAM, a) ∈ e /\ a_ret a = 0 /\ answered a = []).

(** Stopped within a step: by the kernel, or after a call of this step. *)
Definition step_cut (bk : list phase) (h : halt) (e : list event) : Prop :=
  (h = Blocked \/ h = Exited 1 /\ (0 < waits e)%nat \/ h = Undefined /\ web_risk e) /\
  (opened e = [] \/ length (opened e) = 1%nat /\ Z.of_nat (length (busy bk)) < maxnconn).

Definition web_cut (h : halt) (e : list event) : Prop :=
  exists bk rs ws e1 e2, session bk rs ws e1 /\ e = e1 ++ e2 /\
    (h = Exited 0 /\ e2 = [] /\ Forall (fun p => p = Done) bk \/ step_cut bk h e2).

(** ** The invariant *)

Definition file_is (name : list Z) (p : phase) (f : file) : Prop :=
  f_name f = name /\ f_host f = host /\
  match p with
  | Waiting => f_flags f = 0
  | Connecting fd => f_flags f = F_CONNECTING /\ f_fd f = fd
  | Reading fd => f_flags f = F_READING /\ f_fd f = fd
  | Done => f_flags f = F_DONE
  end.

Record web_inv (bk : list phase) (e : list event) (st : web) : Prop := WebInv {
  wi_files : Forall3 file_is names bk (w_file st);
  wi_nconn : nconn st = Z.of_nat (length (busy bk));
  wi_toconn : nlefttoconn st = Z.of_nat (length (waiting bk));
  wi_toread : nlefttoread st = Z.of_nat (length (unfinished bk));
  wi_range : Forall (fun fd => 0 <= fd < FD_SETSIZE /\ fd <= w_maxfd st) (busy bk);
  wi_sets : fresh ∅ e -> w_rset st = list_to_set (busy bk) /\ w_wset st = list_to_set (in_progress bk) /\
    NoDup (busy bk) /\ open_after ∅ e = list_to_set (busy bk)
}.

(** ** Phases and their descriptors *)

Lemma omap_at {A B} (g : A -> option B) (l : list A) i x :
  l !! i = Some x ->
  exists k, omap g l ≡ₚ option_list (g x) ++ k /\ forall y, omap g (<[i := y]> l) ≡ₚ option_list (g y) ++ k.
Proof.
  intros Hi. pose proof (lookup_lt_Some _ _ _ Hi) as Hlt.
  assert (forall y, omap g (take i l ++ y :: drop (S i) l)
    ≡ₚ option_list (g y) ++ omap g (take i l) ++ omap g (drop (S i) l)) as Hy.
  { intros y. rewrite omap_app. cbn [omap list_omap]. destruct (g y); [by rewrite <- Permutation_middle|done]. }
  exists (omap g (take i l) ++ omap g (drop (S i) l)). split.
  - rewrite <- (Hy x). by rewrite take_drop_middle.
  - intros y. rewrite insert_take_drop by done. apply Hy.
Qed.

Lemma Forall3_insert_mr {A B C} (P : A -> B -> C -> Prop) l k k' i y z :
  Forall3 P l k k' -> (forall x, l !! i = Some x -> P x y z) -> Forall3 P l (<[i := y]> k) (<[i := z]> k').
Proof.
  intros H. revert i. induction H as [|x y0 z0 l k k' Hx H IH]; intros [|i] Hi; constructor; auto.
Qed.

Definition weight {A} (o : option A) : Z := if o is Some _ then 1 else 0.
Lemma omap_count {A B} (g : A -> option B) (l : list A) i x y :
  l !! i = Some x ->
  Z.of_nat (length (omap g (<[i := y]> l))) = Z.of_nat (length (omap g l)) - weight (g x) + weight (g y).
Proof.
  intros Hi. destruct (omap_at g l i x Hi) as (k & H1 & H2). specialize (H2 y).
  apply Permutation_length in H1, H2. rewrite length_app in *.
  destruct (g x), (g y); simpl in *; lia.
Qed.

Lemma in_progress_busy bk : in_progress bk `sublist_of` busy bk.
Proof.
  induction bk as [|p bk IH]; [done|]. destruct p; cbn [omap list_omap connecting_fd fd_of]; try done.
  - by apply sublist_skip.
  - by apply sublist_cons.
Qed.

Lemma first_waiting_find l bk ns i0 :
  Forall3 file_is ns bk l ->
  match find_file l i0 with
  | Some (j, f) => exists i, j = (i0 + i)%nat /\ l !! i = Some f /\ first_waiting bk i
  | None => waiting bk = []
  end.
Proof.
  intros H. revert i0. induction H as [|n p f ns bk l (_ & _ & Hp) _ IH]; intros i0; [done|]. cbn [find_file].
  destruct (f_flags f =? 0) eqn:E; zbool.
  - exists O. split; [lia|]. split; [done|]. split; [|intros j Hj; lia].
    destruct p; [done|..]; unfold F_CONNECTING, F_READING, F_DONE in Hp; destruct_and?; lia.
  - assert (still_waiting p = None) as Hs by (destruct p; done).
    specialize (IH (S i0)). destruct (find_file l (S i0)) as [[j f']|].
    + destruct IH as (i & -> & Hi & [H1 H2]). exists (S i). split; [lia|]. split; [done|]. split; [done|].
      intros [|j] Hj; cbn [lookup list_lookup]; [intros [= ->]; done|]. apply H2. lia.
    + cbn [omap list_omap]. by rewrite Hs.
Qed.

Lemma web_eq l n1 n2 c1 c2 r1 r2 m rs ws :
  n1 = n2 -> c1 = c2 -> r1 = r2 -> Web l n1 c1 r1 m rs ws = Web l n2 c2 r2 m rs ws.
Proof. congruence. Qed.

(** The state after one file has changed its phase. *)
Lemma inv_update bk e st i q p f' ev maxfd r s :
  web_inv bk e st -> bk !! i = Some q -> (forall name, names !! i = Some name -> file_is name p f') ->
  (forall fd, fd_of p = Some fd -> 0 <= fd < FD_SETSIZE /\ fd <= maxfd) -> w_maxfd st <= maxfd ->
  (fresh ∅ (e ++ ev) -> r = list_to_set (busy (<[i := p]> bk)) /\ s = list_to_set (in_progress (<[i := p]> bk)) /\
     NoDup (busy (<[i := p]> bk)) /\ open_after ∅ (e ++ ev) = list_to_set (busy (<[i := p]> bk))) ->
  web_inv (<[i := p]> bk) (e ++ ev)
    (Web (<[i := f']> (w_file st)) (nconn st - weight (fd_of q) + weight (fd_of p))
       (nlefttoconn st - weight (still_waiting q) + weight (still_waiting p))
       (nlefttoread st - weight (not_done q) + weight (not_done p)) maxfd r s).
Proof.
  intros [Hf Hn Hc Hr Hrg _] Hq Hp Hfd Hmax Hsets. split; cbn [w_file nconn nlefttoconn nlefttoread w_maxfd w_rset w_wset].
  - by apply Forall3_insert_mr.
  - by rewrite (omap_count _ _ _ q) by done; rewrite Hn.
  - by rewrite (omap_count _ _ _ q) by done; rewrite Hc.
  - by rewrite (omap_count _ _ _ q) by done; rewrite Hr.
  - destruct (omap_at fd_of bk i q Hq) as (k & H1 & H2). rewrite (H2 p). rewrite H1 in Hrg.
    apply Forall_app in Hrg as [_ Hk]. apply Forall_app. split.
    + destruct (fd_of p) as [fd|] eqn:Ep; [|constructor]. constructor; [|constructor]. by apply Hfd.
    + eapply Forall_impl; [exact Hk|]. cbn. intros. lia.
  - done.
Qed.

Lemma inv_quiet bk e st ev : web_inv bk e st -> only keeps_open ev -> web_inv bk (e ++ ev) st.
Proof.
  intros [Hf Hn Hc Hr Hrg Hs] Hev. split; try done. rewrite fresh_app, open_after_app. intros [He _].
  destruct (keeps_open_events (open_after ∅ e) ev Hev) as [-> _]. by apply Hs.
Qed.

(** ** The steps as runs *)

Lemma plain_writes fd e : only (is_write fd) e -> only plain e.
Proof. apply only_mono. by intros []. Qed.

(** Stopped where the behaviour can only be undefined by [U]. *)
Definition soft_cut (U : Prop) (h : halt) (e : list event) : Prop :=
  (h = Blocked \/ h = Exited 1 \/ h = Undefined /\ U) /\ only plain e.

Lemma runs_print_and_write fd text w :
  runs (print_and_write fd text)
    (fun n e => n = Z.of_nat (length text) /\ n <= MAXLINE /\ only (is_write fd) e /\
       sent fd e = take (length text) (take (Z.to_nat MAXLINE - 1) text ++ [0]))
    (soft_cut (MAXLINE < Z.of_nat (length text))) w.
Proof.
  unfold print_and_write. destruct (_ <=? _) eqn:E; zbool.
  - apply runs_bind, runs_Writen.
    + intros e He _. split; [by left|by eapply plain_writes].
    + intros e rep He Hr _. split; [by right; left|].
      apply only_app. split; [by eapply plain_writes|by apply reports_plain].
    + intros e He Hs w1. apply runs_ret. rewrite app_nil_r. done.
  - apply runs_halted. split; [|done]. right. by right.
Qed.

Definition commanded (i : nat) (f : file) (st : web) : web :=
  raise_maxfd (f_fd f) (set_rset ({[f_fd f]} ∪ w_rset st) (set_file i (with_flags f F_READING) st)).

Lemma fd_set_ok fd s : 0 <= fd < FD_SETSIZE -> fd_set fd s = mret ({[fd]} ∪ s).
Proof. intros H. unfold fd_set. by replace (_ && _) with true by lia. Qed.
Lemma fd_set_out fd s : ~ 0 <= fd < FD_SETSIZE -> fd_set fd s = undefined.
Proof. intros H. unfold fd_set. by replace (_ && _) with false by lia. Qed.
Lemma fd_clr_ok fd s : 0 <= fd < FD_SETSIZE -> fd_clr fd s = mret (s ∖ {[fd]}).
Proof. intros H. unfold fd_clr. by replace (_ && _) with true by lia. Qed.

Lemma runs_write_get_cmd i f st w :
  runs (write_get_cmd i f st)
    (fun st' e => commands (f_name f) (f_fd f) e /\ 0 <= f_fd f < FD_SETSIZE /\ st' = commanded i f st)
    (soft_cut (too_long (f_name f) \/ ~ 0 <= f_fd f < FD_SETSIZE)) w.
Proof.
  unfold write_get_cmd. apply runs_bind. eapply runs_mono; [apply runs_print_and_write| |].
  - intros n e (-> & Hn & He & Hs) w1. unfold stdout. apply runs_out; [done|]. intros w2.
    cbv zeta. cbn [set_file w_rset]. destruct (decide (0 <= f_fd f < FD_SETSIZE)) as [Hr|Hr].
    + rewrite fd_set_ok by done. apply runs_bind, runs_ret. intros w3. apply runs_ret. split; [|done].
      split; [unfold too_long; lia|]. by exists e.
    + rewrite fd_set_out by done. apply (runs_halted Undefined). split; [right; right; by split; [|right]|].
      apply only_app. split; [by eapply plain_writes|by repeat constructor].
  - intros h e [Hh He]. split; [|done]. unfold too_long. intuition.
Qed.

Definition started (i : nat) (f : file) (p : phase) (st : web) : web :=
  match p with
  | Connecting fd =>
      raise_maxfd fd (set_wset ({[fd]} ∪ w_wset st) (set_rset ({[fd]} ∪ w_rset st) (set_file i (with_flags f F_CONNECTING) st)))
  | _ => commanded i f st
  end.

(** [soft_cut] after the calls [e0] of a step. *)
Lemma soft_cut_later U h e0 e (n : nat) :
  soft_cut U h e -> (0 < waits e0)%nat -> length (opened e0) = n ->
  (h = Blocked \/ h = Exited 1 /\ (0 < waits (e0 ++ e))%nat \/ h = Undefined /\ U) /\ length (opened (e0 ++ e)) = n.
Proof.
  intros [Hh He] Hw Ho. rewrite waits_app, opened_app, (proj1 (plain_events e He)), app_nil_r.
  split; [|done]. assert (0 < waits e0 + waits e)%nat by lia. intuition.
Qed.

Definition start_cut (h : halt) (e : list event) : Prop :=
  (h = Blocked \/ h = Exited 1 /\ (0 < waits e)%nat \/ h = Undefined /\ web_risk e) /\
  (opened e = [] \/ length (opened e) = 1%nat).

Lemma start_cut_host h e :
  (h = Blocked /\ e = [] \/
   exists a e', e = (host_serv_asked (Some host) (Some SERV) 0 SOCK_STREAM, a) :: e' /\ only plain e' /\
     (a_ret a <> 0 /\ stopped h \/ h = Undefined /\ a_ret a = 0 /\ answered a = [] /\ e' = [])) ->
  start_cut h e.
Proof.
  intros [[-> ->]|(a & e' & -> & Hp & Hh)]; [by split; left|]. split.
  - destruct Hh as [[_ [->| ->]]|(-> & H0 & H1 & ->)]; [by left|right; left; split; [done|simpl; lia]|].
    right. right. split; [done|]. right. right. exists a. split; [apply list_elem_of_here|done].
  - left. apply (plain_events e' Hp).
Qed.

Lemma risk_of_file f e0 fd e :
  f_name f ∈ names -> 0 <= fd -> fd ∈ opened (e0 ++ e) ->
  too_long (f_name f) \/ ~ 0 <= fd < FD_SETSIZE -> web_risk (e0 ++ e).
Proof.
  intros Hn H0 Ho [Hl|Hr]; [left|right; left; exists fd; split; [done|lia]].
  apply Exists_exists. by exists (f_name f).
Qed.

Lemma runs_start_connect i f st w :
  f_host f = host -> f_name f ∈ names ->
  runs (start_connect i f st)
    (fun st' e => exists fd p, starts host (f_name f) fd p e /\
       st' = started i (with_fd f fd) p (set_file i (with_fd f fd) st)) start_cut w.
Proof.
  intros Hhost Hname. unfold start_connect. rewrite Hhost. apply runs_bind.
  eapply runs_mono; [apply (host_serv_runs (Some host) (Some SERV) 0 SOCK_STREAM)| |apply start_cut_host].
  intros res e (a0 & -> & Ha0 & -> & Hne) w1.
  destruct (answered a0) as [|ai rest] eqn:Eres; [done|]. apply (runs_or_undef _ ai); [done|].
  eapply runs_wraps; [apply Socket_wraps|split; [by left|by left]| |].
  { intros s rep Hbad Hrep. unfold succeeded in Hbad. fold (socket_of ai) in *.
    split; [right; left; split; [done|simpl; lia]|]. left.
    destruct (plain_events rep (reports_plain _ Hrep)) as [Ho _]. cbn [opened app socket_of].
    change (CSocket (ai_family ai) (ai_socktype ai) (ai_protocol ai)) with (socket_of ai).
    by replace (_ <? 0) with true by lia. }
  intros s w2 Hs. unfold succeeded in Hs. fold (socket_of ai) in *. set (sock := normalise (socket_of ai) s) in *.
  set (fd := a_ret sock) in *.
  assert (forall h q, (h = Blocked \/ h = Exited 1) -> only plain q ->
    start_cut h ([(host_serv_asked (Some host) (Some SERV) 0 SOCK_STREAM, a0); (socket_of ai, sock)] ++ q)) as Hcut.
  { intros h q Hh Hq. split; [destruct Hh as [->| ->]; [by left|right; left; split; [done|simpl; lia]]|]. right.
    rewrite opened_app, (proj1 (plain_events q Hq)). cbn [opened socket_of app]. fold fd.
    by replace (fd <? 0) with false by lia. }
  unfold stdout. apply runs_out; [done|]. intros w3. cbv zeta. cbn [with_fd f_name].
  eapply runs_wraps; [apply Fcntl_wraps| | |].
  - apply (Hcut _ [_]); [by left|by repeat constructor].
  - intros g rep _ Hrep. apply (Hcut _ (_ :: _ :: rep)); [by right|].
    repeat (constructor; [done|]). by apply reports_plain.
  - intros g w4 _. eapply runs_wraps; [apply Fcntl_wraps| | |].
    + apply (Hcut _ [_; _]); [by left|by repeat constructor].
    + intros g2 rep _ Hrep. apply (Hcut _ (_ :: _ :: _ :: rep)); [by right|].
      repeat (constructor; [done|]). by apply reports_plain.
    + intros g2 w5 _. apply runs_ret_of; [done|apply (Hcut _ [_; _; _]); [by left|by repeat constructor]|].
      intros c w6 x Herr. set (fl := normalise (CFcntl fd F_GETFL 0) g) in *.
      set (fl2 := normalise (CFcntl fd F_SETFL (Z.lor (a_ret fl) O_NONBLOCK)) g2) in *.
      set (e0 := [(host_serv_asked (Some host) (Some SERV) 0 SOCK_STREAM, a0); (socket_of ai, sock);
        (CStdout (chars "start_connect for " ++ f_name f ++ chars ", fd " ++ fmt_d fd ++ newline), ok 0);
        (CFcntl fd F_GETFL 0, fl); (CFcntl fd F_SETFL (Z.lor (a_ret fl) O_NONBLOCK), fl2); (CConnect fd (ai_addr ai), x)]).
      assert (forall p ev, 0 <= fd < FD_SETSIZE ->
        (a_ret x < 0 /\ a_err x = EINPROGRESS /\ p = Connecting fd /\ ev = e0 \/
         0 <= a_ret x /\ p = Reading fd /\ exists cmd, commands (f_name f) fd cmd /\ ev = e0 ++ cmd) ->
        starts host (f_name f) fd p ev) as Hst.
      { intros p ev Hr Hp. by exists a0, ai, rest, sock, fl, fl2, x, e0. }
      assert (opened e0 = [fd]) as Ho.
      { cbn [opened socket_of e0]. fold fd. by replace (fd <? 0) with false by lia. }
      assert (forall e, soft_cut (too_long (f_name f) \/ ~ 0 <= fd < FD_SETSIZE) Undefined e -> web_risk (e0 ++ e)) as Hrisk.
      { intros e [[H|[H|[_ Hu]]] _]; [done|done|]. apply (risk_of_file f e0 fd); [done|done| |done].
        rewrite opened_app, Ho. apply list_elem_of_here. }
      destruct (a_ret x <? 0) eqn:Ex; zbool.
      * apply runs_get_errno. rewrite Herr by done. destruct (a_err x =? EINPROGRESS) eqn:Ee; zbool; cbn [negb].
        -- cbv zeta. cbn [set_file w_rset w_wset]. destruct (decide (0 <= fd < FD_SETSIZE)) as [Hr|Hr].
           ++ rewrite !fd_set_ok by done. apply runs_bind, runs_ret. intros w7. apply runs_bind, runs_ret.
              intros w8. apply runs_ret. exists fd, (Connecting fd). split; [|done]. apply Hst; [done|]. by left.
           ++ rewrite !fd_set_out by done. apply (runs_halted Undefined).
              change (start_cut Undefined (e0 ++ [])).
              split; [right; right; split; [done|]|right; by rewrite app_nil_r, Ho].
              apply Hrisk. split; [|done]. right. right. split; [done|by right].
        -- apply runs_err_sys. intros rep Hrep. apply (Hcut _ (_ :: _ :: _ :: _ :: rep)); [by right|].
           repeat (constructor; [done|]). by apply reports_plain.
      * eapply runs_mono; [apply runs_write_get_cmd| |]; cbn [with_fd f_fd f_name].
        -- intros st' cmd (Hc & Hr & ->). exists fd, (Reading fd). split; [|done]. apply Hst; [done|]. right.
           split; [done|]. split; [done|]. by exists cmd.
        -- intros h cmd Hsoft. destruct (soft_cut_later _ h e0 cmd 1 Hsoft) as [Hh Hl]; [simpl; lia|by rewrite Ho|].
           split; [|by right]. destruct Hh as [->|[Hh|[-> _]]]; [by left|right; by left|].
           right. right. split; [done|]. by apply Hrisk.
Qed.

(** ** The state follows the abstract machine *)

Lemma omap_move {A B} (g : A -> option B) l i x y :
  l !! i = Some x -> g x = None -> omap g (<[i := y]> l) ≡ₚ option_list (g y) ++ omap g l.
Proof. intros Hi Hx. destruct (omap_at g l i x Hi) as (k & H1 & H2). rewrite Hx in H1. by rewrite (H2 y), H1. Qed.
Lemma omap_same {A B} (g : A -> option B) l i x y :
  l !! i = Some x -> g x = g y -> omap g (<[i := y]> l) ≡ₚ omap g l.
Proof. intros Hi Hx. destruct (omap_at g l i x Hi) as (k & H1 & H2). by rewrite (H2 y), H1, Hx. Qed.

Lemma commands_keep name fd e : commands name fd e -> only keeps_open e.
Proof.
  intros (_ & ws & Hw & _ & ->). apply only_app. split; [by eapply writes_keep|by repeat constructor].
Qed.

Lemma starts_open name fd p ev open :
  starts host name fd p ev ->
  (fresh open ev -> fd ∉ open) /\ open_after open ev = {[fd]} ∪ open.
Proof.
  intros (a0 & ai & rest & s & f & g & c & e0 & Hr & _ & _ & Hs & -> & Hev).
  assert (exists cmd, only keeps_open cmd /\ ev = [(host_serv_asked (Some host) (Some SERV) 0 SOCK_STREAM, a0); (socket_of ai, s)] ++ cmd)
    as (cmd & Hc & ->).
  { destruct Hev as [(_ & _ & _ & ->)|(_ & _ & cmd & Hc & ->)]; (eexists; split; [|cbn [app]; reflexivity]).
    - by repeat constructor.
    - repeat (constructor; [done|]). by eapply commands_keep. }
  rewrite fresh_app, open_after_app. cbn [fresh open_after socket_of host_serv_asked getaddrinfo_call libc]. rewrite Hs.
  replace (fd <? 0) with false by lia. destruct (keeps_open_events ({[fd]} ∪ open) cmd Hc) as [-> _]. tauto.
Qed.

Lemma starts_phase name fd p ev : starts host name fd p ev -> 0 <= fd < FD_SETSIZE /\ (p = Connecting fd \/ p = Reading fd).
Proof. intros (a0 & ai & rest & s & f & g & c & e0 & Hr & _ & _ & _ & _ & [(_ & _ & -> & _)|(_ & -> & _)]); auto. Qed.

Lemma inv_begin bk e st i f name fd p ev :
  web_inv bk e st -> bk !! i = Some Waiting -> names !! i = Some name -> w_file st !! i = Some f ->
  starts host name fd p ev ->
  let st' := started i (with_fd f fd) p (set_file i (with_fd f fd) st) in
  web_inv (<[i := p]> bk) (e ++ ev)
    (Web (w_file st') (nconn st' + 1) (nlefttoconn st' - 1) (nlefttoread st') (w_maxfd st') (w_rset st') (w_wset st')).
Proof.
  intros Hinv Hi Hname Hf Hst st'. pose proof (starts_phase _ _ _ _ Hst) as [Hr Hp].
  pose proof (Forall3_lookup_lmr _ _ _ _ _ _ _ _ (wi_files _ _ _ Hinv) Hname Hi Hf) as (Hn & Hh & _).
  assert (fd_of p = Some fd /\ still_waiting p = None /\ not_done p = Some ()) as (Hfd & Hw & Hd)
    by (by destruct Hp as [-> | ->]).
  set (s := if p is Connecting _ then {[fd]} ∪ w_wset st else w_wset st).
  set (fl := if p is Connecting _ then F_CONNECTING else F_READING).
  replace (Web _ _ _ _ _ _ _) with
    (Web (<[i := with_flags (with_fd f fd) fl]> (w_file st)) (nconn st - weight (fd_of Waiting) + weight (fd_of p))
       (nlefttoconn st - weight (still_waiting Waiting) + weight (still_waiting p))
       (nlefttoread st - weight (not_done Waiting) + weight (not_done p))
       (if w_maxfd st <? fd then fd else w_maxfd st) ({[fd]} ∪ w_rset st) s).
  2:{ unfold st', s, fl. destruct Hp as [-> | ->]; cbn -[Z.add Z.sub]; rewrite list_insert_insert_eq; f_equal; lia. }
  apply inv_update; [done|done| | | |].
  - intros name' Hname'. rewrite Hname in Hname'. injection Hname' as <-. split; [done|]. split; [done|].
    unfold fl. by destruct Hp as [-> | ->].
  - intros fd'. rewrite Hfd. intros [= <-]. split; [done|]. destruct (_ <? _) eqn:E; lia.
  - destruct (_ <? _) eqn:E; lia.
  - rewrite fresh_app, open_after_app. intros [He Hev]. destruct (wi_sets _ _ _ Hinv He) as (Hrs & Hws & Hnd & Ho).
    destruct (starts_open _ _ _ _ (open_after ∅ e) Hst) as [Hfresh ->]. specialize (Hfresh Hev). rewrite Ho in Hfresh |- *.
    pose proof (omap_move fd_of bk i Waiting p Hi eq_refl) as Hb. rewrite Hfd in Hb. cbn in Hb.
    assert (list_to_set (busy (<[i:=p]> bk)) = {[fd]} ∪ (list_to_set (busy bk) : gset Z)) as Hset
      by (by rewrite (list_to_set_perm_L _ _ Hb)).
    rewrite Hset, Hrs. split_and!; [done| |rewrite Hb; constructor; [set_solver|done]|done].
    unfold s. rewrite Hws. pose proof (omap_move connecting_fd bk i Waiting p Hi eq_refl) as Hc.
    rewrite (list_to_set_perm_L _ _ Hc). by destruct Hp as [-> | ->].
Qed.

Lemma establishes_keep name fd ev : establishes name fd ev -> only keeps_open ev.
Proof.
  intros (a & rep & cmd & Hrep & Hc & ->). constructor; [done|]. apply only_app. split.
  - destruct (connect_failed a); [by apply reports_keep|by subst].
  - constructor; [done|by eapply commands_keep].
Qed.

Lemma inv_established bk e st i f name fd ev :
  web_inv bk e st -> bk !! i = Some (Connecting fd) -> names !! i = Some name -> w_file st !! i = Some f ->
  establishes name fd ev ->
  web_inv (<[i := Reading fd]> bk) (e ++ ev) (commanded i f (set_wset (w_wset st ∖ {[fd]}) st)).
Proof.
  intros Hinv Hi Hname Hf Hev.
  pose proof (Forall3_lookup_lmr _ _ _ _ _ _ _ _ (wi_files _ _ _ Hinv) Hname Hi Hf) as (Hn & Hh & Hfl & Hfd).
  assert (0 <= fd < FD_SETSIZE /\ fd <= w_maxfd st) as [Hr Hm].
  { pose proof (wi_range _ _ _ Hinv) as H. rewrite Forall_forall in H. apply H.
    apply list_elem_of_omap. exists (Connecting fd). split; [by eapply list_elem_of_lookup_2|done]. }
  replace (commanded i f (set_wset (w_wset st ∖ {[fd]}) st)) with
    (Web (<[i := with_flags f F_READING]> (w_file st)) (nconn st - weight (fd_of (Connecting fd)) + weight (fd_of (Reading fd)))
       (nlefttoconn st - weight (still_waiting (Connecting fd)) + weight (still_waiting (Reading fd)))
       (nlefttoread st - weight (not_done (Connecting fd)) + weight (not_done (Reading fd)))
       (w_maxfd st) ({[fd]} ∪ w_rset st) (w_wset st ∖ {[fd]})).
  2:{ unfold commanded, raise_maxfd, set_rset, set_file, set_wset. cbn [w_file nconn nlefttoconn nlefttoread w_maxfd w_rset w_wset weight fd_of still_waiting not_done]. rewrite Hfd. replace (w_maxfd st <? fd) with false by lia. apply web_eq; lia. }
  apply inv_update; [done|done| | |done|].
  - intros name' Hname'. rewrite Hname in Hname'. by injection Hname' as <-.
  - intros fd'. intros [= <-]. done.
  - rewrite fresh_app, open_after_app. intros [He _].
    destruct (wi_sets _ _ _ Hinv He) as (Hrs & Hws & Hnd & Ho).
    destruct (keeps_open_events (open_after ∅ e) ev (establishes_keep _ _ _ Hev)) as [-> _].
    pose proof (omap_same fd_of bk i (Connecting fd) (Reading fd) Hi eq_refl) as Hb.
    assert (fd ∈ busy bk) as Hin.
    { apply list_elem_of_omap. exists (Connecting fd). split; [by eapply list_elem_of_lookup_2|done]. }
    rewrite (list_to_set_perm_L _ _ Hb), Hb, Hrs, Hws, Ho. split_and!; [set_solver| |done|done].
    destruct (omap_at connecting_fd bk i (Connecting fd) Hi) as (k & H1 & H2). specialize (H2 (Reading fd)).
    cbn in H1, H2. rewrite (list_to_set_perm_L _ _ H1), (list_to_set_perm_L _ _ H2).
    assert (NoDup (fd :: k)) as [Hk _]%NoDup_cons.
    { rewrite <- H1. eapply sublist_NoDup; [done|apply in_progress_busy]. }
    rewrite list_to_set_cons. set_solver.
Qed.

Lemma inv_ended bk e st i f name fd ev :
  web_inv bk e st -> bk !! i = Some (Reading fd) -> names !! i = Some name -> w_file st !! i = Some f ->
  end_of_data name fd ev ->
  web_inv (<[i := Done]> bk) (e ++ ev)
    (Web (<[i := with_flags f F_DONE]> (w_file st)) (nconn st - 1) (nlefttoconn st) (nlefttoread st - 1) (w_maxfd st)
       (w_rset st ∖ {[fd]}) (w_wset st)).
Proof.
  intros Hinv Hi Hname Hf (a & k0 & _ & _ & ->).
  pose proof (Forall3_lookup_lmr _ _ _ _ _ _ _ _ (wi_files _ _ _ Hinv) Hname Hi Hf) as (Hn & Hh & Hfl & Hfd).
  replace (Web _ _ _ _ _ _ _) with
    (Web (<[i := with_flags f F_DONE]> (w_file st)) (nconn st - weight (fd_of (Reading fd)) + weight (fd_of Done))
       (nlefttoconn st - weight (still_waiting (Reading fd)) + weight (still_waiting Done))
       (nlefttoread st - weight (not_done (Reading fd)) + weight (not_done Done))
       (w_maxfd st) (w_rset st ∖ {[fd]}) (w_wset st)) by (apply web_eq; cbn -[Z.add Z.sub]; lia).
  apply inv_update; [done|done| |done|done|].
  - intros name' Hname'. rewrite Hname in Hname'. by injection Hname' as <-.
  - rewrite fresh_app, open_after_app. intros [He _].
    destruct (wi_sets _ _ _ Hinv He) as (Hrs & Hws & Hnd & Ho). cbn [open_after].
    destruct (omap_at fd_of bk i (Reading fd) Hi) as (k & H1 & H2). specialize (H2 Done). cbn in H1, H2.
    pose proof (omap_same connecting_fd bk i (Reading fd) Done Hi eq_refl) as Hc.
    rewrite (list_to_set_perm_L _ _ H2), (list_to_set_perm_L _ _ Hc), H2, Ho, Hrs, Hws, (list_to_set_perm_L _ _ H1).
    rewrite H1 in Hnd. apply NoDup_cons in Hnd as [Hk Hnd]. rewrite list_to_set_cons.
    split_and!; [set_solver|done|done|set_solver].
Qed.

(** ** The inner loop *)

Definition filled (bk : list phase) : Prop := maxnconn <= Z.of_nat (length (busy bk)) \/ waiting bk = [].

Lemma session_at bk rs ws e st :
  session bk rs ws e -> web_inv bk e st -> forall h q, step_cut bk h q -> web_cut h (e ++ q).
Proof. intros Hs _ h q Hq. exists bk, rs, ws, e, q. split; [done|]. split; [done|]. by right. Qed.

Lemma runs_fill bk rs ws e0 st w :
  session bk rs ws e0 -> web_inv bk e0 st ->
  runs (loop (fill_body maxnconn) st)
    (fun st' e => exists bk', session bk' rs ws (e0 ++ e) /\ web_inv bk' (e0 ++ e) st' /\ filled bk' /\
       nlefttoread st' = nlefttoread st)
    (fun h e => web_cut h (e0 ++ e)) w.
Proof.
  intros Hs Hinv.
  apply (runs_loop _ (fun st' e => exists bk', session bk' rs ws (e0 ++ e) /\ web_inv bk' (e0 ++ e) st' /\
    nlefttoread st' = nlefttoread st)); [exists bk; by rewrite app_nil_r|].
  intros st1 e w1 (bk1 & Hs1 & Hinv1 & Hr1). unfold fill_body.
  pose proof Hinv1 as [Hfiles Hn Hc _ _ _].
  destruct ((nconn st1 <? maxnconn) && (0 <? nlefttoconn st1)) eqn:E; zbool.
  - pose proof (first_waiting_find _ _ _ 0 Hfiles) as Hfind. destruct (find_file (w_file st1) 0) as [[i f]|].
    2:{ rewrite Hfind in Hc. simpl in Hc. lia. }
    destruct Hfind as (i' & -> & Hf & Hi). cbn [Nat.add].
    destruct (Forall3_lookup_m _ _ _ _ _ _ Hfiles (proj1 Hi)) as (name & f' & Hname & Hf' & Hfile).
    rewrite Hf in Hf'. injection Hf' as <-. destruct Hfile as (Hfn & Hfh & _).
    apply runs_bind. eapply runs_mono; [apply runs_start_connect; [done|]| |].
    + rewrite Hfn. by eapply list_elem_of_lookup_2.
    + intros st2 ev (fd & p & Hst & ->) w2. rewrite Hfn in Hst. apply runs_ret. rewrite app_nil_r. split.
      { destruct Hst as (a0 & ai & rest & s & fl & g & c & e1 & _ & _ & _ & _ & -> & [(_ & _ & _ & ->)|(_ & _ & cmd & _ & ->)]);
          simpl; lia. }
      exists (<[i' := p]> bk1). rewrite app_assoc. split; [|split].
      * eapply session_begin; try done. lia.
      * exact (inv_begin _ _ _ _ _ _ _ _ _ Hinv1 (proj1 Hi) Hname Hf Hst).
      * pose proof (starts_phase _ _ _ _ Hst) as [_ [-> | ->]]; done.
    + intros h q [Hh Ho]. rewrite app_assoc. eapply session_at; [done|done|]. split; [done|].
      destruct Ho as [Ho|Ho]; [by left|right; split; [done|lia]].
  - apply runs_ret. rewrite app_nil_r. exists bk1. split; [done|]. split; [done|]. split; [|done].
    unfold filled. apply andb_false_iff in E as [E|E]; [left; lia|right].
    apply nil_length_inv. lia.
Qed.

(** ** Serving the files that are ready *)

Lemma soft_step bk U h e0 e :
  soft_cut U h e -> (0 < waits e0)%nat -> opened e0 = [] -> (U -> web_risk (e0 ++ e)) -> step_cut bk h (e0 ++ e).
Proof.
  intros Hs Hw Ho HU. destruct (soft_cut_later U h e0 e 0 Hs Hw) as [Hh Hl]; [by rewrite Ho|].
  split; [|left; by apply nil_length_inv]. destruct Hh as [Hh|[Hh|[Hh Hu]]]; auto.
Qed.

Lemma step_cut_plain bk h e : h = Blocked \/ h = Exited 1 /\ (0 < waits e)%nat -> only plain e -> step_cut bk h e.
Proof.
  intros Hh He. split; [|left; by apply plain_events]. destruct Hh as [Hh|Hh]; auto.
Qed.

(** What [serve_file] does in each phase. *)
Lemma serve_idle rs ws i f st : f_flags f = 0 \/ f_flags f = F_DONE -> serve_file rs ws i f st = mret st.
Proof. unfold serve_file. by intros [-> | ->]. Qed.
Lemma serve_connecting rs ws i f st :
  f_flags f = F_CONNECTING ->
  serve_file rs ws i f st =
  if fd_isset (f_fd f) rs || fd_isset (f_fd f) ws then
    a ← kernel (CGetsockopt (f_fd f) SOL_SOCKET SO_ERROR);
    (if connect_failed a then err_ret (chars "nonblocking connect failed for " ++ f_name f) else mret ()) ;;
    stdout (chars "connection established for " ++ f_name f ++ newline) ;;
    s ← fd_clr (f_fd f) (w_wset st);
    write_get_cmd i f (set_wset s st)
  else mret st.
Proof. unfold serve_file. by intros ->. Qed.
Lemma serve_reading rs ws i f st :
  f_flags f = F_READING ->
  serve_file rs ws i f st =
  if fd_isset (f_fd f) rs then
    a ← Read (f_fd f) MAXLINE;
    if a_ret a =? 0 then
      stdout (chars "end-of-file on " ++ f_name f ++ newline) ;;
      Close (f_fd f) ;;
      r ← fd_clr (f_fd f) (w_rset st);
      mret (Web (<[i := with_flags f F_DONE]> (w_file st)) (nconn st - 1) (nlefttoconn st) (nlefttoread st - 1)
              (w_maxfd st) r (w_wset st))
    else
      stdout (chars "read " ++ fmt_d (a_ret a) ++ chars " bytes from " ++ f_name f ++ newline) ;;
      mret st
  else mret st.
Proof. unfold serve_file. by intros ->. Qed.

Lemma busy_range bk e st i p fd :
  web_inv bk e st -> bk !! i = Some p -> fd_of p = Some fd -> 0 <= fd < FD_SETSIZE.
Proof.
  intros Hinv Hp Hfd. pose proof (wi_range _ _ _ Hinv) as H. rewrite Forall_forall in H. apply H.
  apply list_elem_of_omap. exists p. split; [by eapply list_elem_of_lookup_2|done].
Qed.

Definition moves (rs ws : gset Z) (e : list event) (st' : web) (ev : list event) : Prop :=
  exists bk', session bk' rs ws (e ++ ev) /\ web_inv bk' (e ++ ev) st'.
Lemma moves_not bk rs ws e st : session bk rs ws e -> web_inv bk e st -> moves rs ws e st [].
Proof. intros. exists bk. by rewrite app_nil_r. Qed.

Lemma runs_established bk rs ws e i name fd f st w :
  session bk rs ws e -> web_inv bk e st -> w_file st !! i = Some f -> names !! i = Some name ->
  bk !! i = Some (Connecting fd) -> f_name f = name -> f_flags f = F_CONNECTING -> f_fd f = fd ->
  runs (serve_file rs ws i f st) (moves rs ws e) (fun h ev => web_cut h (e ++ ev)) w.
Proof.
  intros Hs Hinv Hf Hname Hp Hn Hfl Hfd. pose proof (session_at _ _ _ _ _ Hs Hinv) as Hcut.
  pose proof (busy_range _ _ _ _ _ fd Hinv Hp eq_refl) as Hrange.
  rewrite (serve_connecting _ _ _ _ _ Hfl), Hfd, Hn.
  destruct (fd_isset fd rs || fd_isset fd ws) eqn:Er; [|by apply runs_ret, (moves_not bk)].
  assert (fd ∈ rs ∪ ws) as Hready.
  { apply elem_of_union. apply orb_true_iff in Er. unfold fd_isset in Er. by rewrite !bool_decide_eq_true in Er. }
  apply runs_call; [done|apply Hcut, step_cut_plain; [by left|done]|]. intros a w1 x _.
  assert (forall rep, (if connect_failed x then only is_report rep else rep = []) -> forall w2,
    runs (stdout (chars "connection established for " ++ name ++ newline) ;;
          s ← fd_clr fd (w_wset st); write_get_cmd i f (set_wset s st))
      (fun st' ev => moves rs ws e st' ((CGetsockopt fd SOL_SOCKET SO_ERROR, x) :: rep ++ ev))
      (fun h ev => web_cut h (e ++ (CGetsockopt fd SOL_SOCKET SO_ERROR, x) :: rep ++ ev)) w2) as Hrest.
  { intros rep Hrep w2. unfold stdout. apply runs_out; [done|]. intros w3.
    rewrite fd_clr_ok by done. apply runs_bind, runs_ret. intros w4.
    assert (only plain rep) as Hpl by (destruct (connect_failed x); [by apply reports_plain|by subst]).
    eapply runs_mono; [apply runs_write_get_cmd| |].
    - intros st' cmd (Hc & _ & ->). rewrite Hn, Hfd in Hc.
      assert (establishes name fd ((CGetsockopt fd SOL_SOCKET SO_ERROR, x) :: rep ++
        (CStdout (chars "connection established for " ++ name ++ newline), ok 0) :: cmd)) as Hest
        by (by exists x, rep, cmd).
      exists (<[i := Reading fd]> bk). split; [by eapply session_established|].
      exact (inv_established _ _ _ _ _ _ _ _ Hinv Hp Hname Hf Hest).
    - intros h cmd Hsoft. apply Hcut.
      change (step_cut bk h (((CGetsockopt fd SOL_SOCKET SO_ERROR, x) :: rep) ++
        [(CStdout (chars "connection established for " ++ name ++ newline), ok 0)] ++ cmd)).
      rewrite app_assoc. eapply soft_step; [exact Hsoft|simpl; lia| |].
      + rewrite opened_app. cbn [opened app]. by rewrite (proj1 (plain_events rep Hpl)).
      + rewrite Hn, Hfd. intros [Hl|Ho]; [|lia]. left. apply Exists_exists. exists name.
        split; [by eapply list_elem_of_lookup_2|done]. }
  destruct (connect_failed x) eqn:Ec.
  - apply runs_err_ret. intros rep w2 Hrep. by apply Hrest.
  - apply runs_bind, runs_ret. intros w2. by apply (Hrest []).
Qed.

Lemma runs_reading bk rs ws e i name fd f st w :
  session bk rs ws e -> web_inv bk e st -> w_file st !! i = Some f -> names !! i = Some name ->
  bk !! i = Some (Reading fd) -> f_name f = name -> f_flags f = F_READING -> f_fd f = fd ->
  runs (serve_file rs ws i f st) (moves rs ws e) (fun h ev => web_cut h (e ++ ev)) w.
Proof.
  intros Hs Hinv Hf Hname Hp Hn Hfl Hfd. pose proof (session_at _ _ _ _ _ Hs Hinv) as Hcut.
  pose proof (busy_range _ _ _ _ _ fd Hinv Hp eq_refl) as Hrange.
  rewrite (serve_reading _ _ _ _ _ Hfl), Hfd, Hn.
  destruct (fd_isset fd rs) eqn:Er; [|by apply runs_ret, (moves_not bk)].
  apply bool_decide_eq_true in Er.
  eapply runs_wraps; [apply Read_wraps| | |].
  - apply Hcut, step_cut_plain; [by left|done].
  - intros a rep _ Hrep. apply Hcut, step_cut_plain; [right; split; [done|simpl; lia]|].
    constructor; [done|by apply reports_plain].
  - intros a w1 Hg. unfold succeeded in Hg. set (x := normalise (CRead fd MAXLINE) a) in *. cbn [id].
    destruct (a_ret x =? 0) eqn:Ex; zbool.
    + unfold stdout. apply runs_out; [done|]. intros w2. eapply runs_wraps; [apply Close_wraps| | |].
      * apply Hcut, step_cut_plain; [by left|by repeat constructor].
      * intros k rep _ Hrep. apply Hcut. split; [right; left; split; [done|simpl; lia]|]. left.
        cbn [opened]. by apply (plain_events rep), reports_plain.
      * intros k w3 Hk. unfold succeeded in Hk. rewrite fd_clr_ok by done. apply runs_bind, runs_ret. intros w4.
        apply runs_ret.
        match goal with |- moves _ _ _ _ ?ev => assert (end_of_data name fd ev) as Hend by (by eexists x, _) end.
        exists (<[i := Done]> bk). split; [by eapply session_end|].
        exact (inv_ended _ _ _ _ _ _ _ _ Hinv Hp Hname Hf Hend).
    + unfold stdout. apply runs_out; [done|]. intros w2. apply runs_ret. exists bk. split.
      * eapply session_data; try done. exists x. split; [lia|done].
      * by apply inv_quiet; [|repeat constructor].
Qed.

Lemma runs_serve_file bk rs ws e i f st w :
  session bk rs ws e -> web_inv bk e st -> w_file st !! i = Some f ->
  runs (serve_file rs ws i f st) (moves rs ws e) (fun h ev => web_cut h (e ++ ev)) w.
Proof.
  intros Hs Hinv Hf.
  destruct (Forall3_lookup_r _ _ _ _ _ _ (wi_files _ _ _ Hinv) Hf) as (name & p & Hname & Hp & Hn & _ & Hfl).
  destruct p as [|fd|fd|].
  - rewrite serve_idle by (by left). by apply runs_ret, (moves_not bk).
  - destruct Hfl. by eapply (runs_established bk).
  - destruct Hfl. by eapply (runs_reading bk).
  - rewrite serve_idle by (by right). by apply runs_ret, (moves_not bk).
Qed.

Lemma runs_serve_files rs ws todo i bk e st w :
  session bk rs ws e -> web_inv bk e st -> (i + todo = length names)%nat ->
  runs (serve_files rs ws todo i st) (moves rs ws e) (fun h ev => web_cut h (e ++ ev)) w.
Proof.
  revert i bk e st w. induction todo as [|todo IH]; intros i bk e st w Hs Hinv Hl; cbn [serve_files].
  { by apply runs_ret, (moves_not bk). }
  assert (length (w_file st) = length names) as Hlen
    by (symmetry; eapply Forall3_length_lr, wi_files; exact Hinv).
  destruct (lookup_lt_is_Some_2 (w_file st) i) as [f Hf]; [lia|].
  apply (runs_or_undef _ f); [done|]. apply runs_bind. eapply runs_mono; [by eapply runs_serve_file| |done].
  intros st1 ev (bk1 & Hs1 & Hinv1) w1. eapply runs_mono; [apply (IH (S i) bk1); [done|done|lia]| |].
  - intros st2 ev2 (bk2 & Hs2 & Hinv2). exists bk2. by rewrite <- app_assoc in Hs2, Hinv2.
  - intros h q. by rewrite app_assoc.
Qed.

(** ** The main loop *)

Lemma unfinished_nil bk : unfinished bk = [] -> Forall (fun p => p = Done) bk.
Proof.
  induction bk as [|p bk IH]; intros H; [constructor|]. cbn [omap list_omap] in H.
  destruct p; cbn [not_done] in H; [done..|]. constructor; [done|by apply IH].
Qed.

Lemma runs_web_body e st w :
  (exists bk rs ws, session bk rs ws e /\ web_inv bk e st) ->
  runs (web_body maxnconn st)
    (fun r ev => match r with
                 | inl st' => (0 < waits ev)%nat /\ exists bk rs ws, session bk rs ws (e ++ ev) /\ web_inv bk (e ++ ev) st'
                 | inr _ => web_cut (Exited 0) (e ++ ev)
                 end) (fun h ev => web_cut h (e ++ ev)) w.
Proof.
  intros (bk & rs & ws & Hs & Hinv). unfold web_body. destruct (0 <? nlefttoread st) eqn:E; zbool.
  2:{ apply runs_ret. exists bk, rs, ws, e, []. split; [done|]. split; [done|]. left. split; [done|]. split; [done|].
      apply unfinished_nil, nil_length_inv. pose proof (wi_toread _ _ _ Hinv). lia. }
  apply runs_bind. eapply runs_mono; [by apply (runs_fill bk rs ws)| |done].
  intros st1 ev1 (bk1 & Hs1 & Hinv1 & Hfill & Hr) w1.
  pose proof (session_at _ _ _ _ _ Hs1 Hinv1) as Hcut.
  eapply runs_wraps; [apply Select_wraps| | |].
  - rewrite app_assoc. apply Hcut, step_cut_plain; [by left|done].
  - intros a rep _ Hrep. rewrite app_assoc. apply Hcut, step_cut_plain; [right; split; [done|simpl; lia]|].
    constructor; [done|by apply reports_plain].
  - intros a w2 Hg. unfold succeeded in Hg. set (sel := CSelect _ _ _ _) in *. set (x := normalise sel a) in *. cbn [id].
    assert (session bk1 (list_to_set (a_data x)) (list_to_set (a_wdata x)) ((e ++ ev1) ++ [(sel, x)])) as Hs2.
    { eapply session_select; [done|done| | | |done].
      - intros Hu. pose proof (wi_toread _ _ _ Hinv1) as H. rewrite Hu in H. simpl in H. lia.
      - eapply Forall_impl; [apply (wi_range _ _ _ Hinv1)|]. cbn. intros. lia.
      - intros He. by destruct (wi_sets _ _ _ Hinv1 He) as (? & ? & _). }
    assert (web_inv bk1 ((e ++ ev1) ++ [(sel, x)]) st1) as Hinv2 by (by apply inv_quiet; [|repeat constructor]).
    apply runs_bind. eapply runs_mono; [apply (runs_serve_files _ _ _ 0 bk1 _ _ _ Hs2 Hinv2)| |].
    + symmetry. eapply Forall3_length_lr, wi_files. exact Hinv1.
    + intros st2 ev2 (bk2 & Hs3 & Hinv3) w3. apply runs_ret. rewrite app_nil_r. split; [rewrite waits_app; simpl; lia|].
      exists bk2. eexists _, _. rewrite <- !app_assoc in Hs3, Hinv3. cbn [app] in Hs3, Hinv3. split; [exact Hs3|exact Hinv3].
    + intros h q Hq. by rewrite <- !app_assoc in Hq.
Qed.

(** Every prefix of a session: the sockets of the files that are not closed
    are those in use, and there are never more than allowed. *)
Lemma commands_plain name fd e : commands name fd e -> only plain e.
Proof. intros (_ & ws & Hw & _ & ->). apply only_app. split; [by eapply plain_writes|by repeat constructor]. Qed.
Lemma starts_sockets name fd p ev : starts host name fd p ev -> opened ev = [fd] /\ closed ev = [].
Proof.
  intros (a0 & ai & rest & s & f & g & c & e0 & Hr & _ & _ & Hs & -> & Hev).
  assert (forall cmd, only plain cmd -> opened ([(host_serv_asked (Some host) (Some SERV) 0 SOCK_STREAM, a0); (socket_of ai, s)] ++ cmd) = [fd] /\
    closed ([(host_serv_asked (Some host) (Some SERV) 0 SOCK_STREAM, a0); (socket_of ai, s)] ++ cmd) = []) as H.
  { intros cmd Hc. rewrite opened_app, closed_app. destruct (plain_events cmd Hc) as [-> ->].
    cbn [opened closed socket_of host_serv_asked getaddrinfo_call libc app]. by rewrite Hs; replace (fd <? 0) with false by lia. }
  destruct Hev as [(_ & _ & _ & ->)|(_ & _ & cmd & Hc & ->)]; apply (H (_ :: _)); repeat (constructor; [done|]);
    [constructor|by eapply commands_plain].
Qed.

Lemma session_sockets bk rs ws e :
  session bk rs ws e ->
  (length (opened e) = length (closed e) + length (busy bk))%nat /\ Z.of_nat (length (busy bk)) <= Z.max 0 maxnconn /\
  length bk = length names.
Proof.
  induction 1 as [|bk rs ws e i name fd p ev _ [IH [IHm IHl]] [Hi _] _ Hmax Hst
    |bk rs ws e nfds r w a _ IH _ _ _ _ _|bk rs ws e i name fd ev _ [IH [IHm IHl]] Hi _ _ Hev
    |bk rs ws e i name fd ev _ [IH [IHm IHl]] _ _ _ (a & _ & ->)
    |bk rs ws e i name fd ev _ [IH [IHm IHl]] Hi _ _ (a & k & _ & _ & ->)].
  - rewrite length_fmap. assert (busy ((fun _ => Waiting) <$> names) = []) as -> by (by induction names).
    simpl. split; [lia|]. split; [lia|done].
  - rewrite length_insert, opened_app, closed_app. destruct (starts_sockets _ _ _ _ Hst) as [-> ->].
    pose proof (omap_count fd_of bk i Waiting p Hi) as Hc. destruct (starts_phase _ _ _ _ Hst) as [_ Hp].
    assert (weight (fd_of p) = 1) as Hw by (by destruct Hp as [-> | ->]). rewrite Hw in Hc. cbn [fd_of weight] in Hc.
    rewrite !length_app. simpl. lia.
  - rewrite opened_app, closed_app, !length_app. simpl. lia.
  - rewrite length_insert, opened_app, closed_app.
    assert (only plain ev) as Hpl.
    { destruct Hev as (a & rep & cmd & Hrep & Hc & ->). constructor; [done|]. apply only_app. split.
      - destruct (connect_failed a); [by apply reports_plain|by subst].
      - constructor; [done|by eapply commands_plain]. }
    destruct (plain_events ev Hpl) as [-> ->].
    pose proof (omap_count fd_of bk i (Connecting fd) (Reading fd) Hi) as Hc. cbn [fd_of weight] in Hc.
    rewrite !length_app. simpl. lia.
  - rewrite opened_app, closed_app, !length_app. simpl. lia.
  - rewrite length_insert, opened_app, closed_app, !length_app.
    pose proof (omap_count fd_of bk i (Reading fd) Done Hi) as Hc. cbn [fd_of weight] in Hc. simpl. lia.
Qed.

Lemma done_idle bk : Forall (fun p => p = Done) bk -> busy bk = [].
Proof. by induction 1 as [|p bk' -> _ IH]. Qed.

Lemma web_cut_sockets h e :
  web_cut h e ->
  Z.of_nat (length (opened e)) <= Z.of_nat (length (closed e)) + Z.max 0 maxnconn /\
  (h = Exited 0 -> length (opened e) = length (closed e)).
Proof.
  intros (bk & rs & ws & e1 & e2 & Hs & -> & Hend). destruct (session_sockets _ _ _ _ Hs) as (H1 & H2 & _).
  rewrite opened_app, closed_app, !length_app.
  destruct Hend as [(-> & -> & Hd)|[Hh Ho]].
  - rewrite (done_idle bk Hd) in *. simpl in *. lia.
  - split; [|intros ->; by destruct Hh as [?|[[? _]|[? _]]]]. destruct Ho as [->|[Ho Hlt]]; simpl in *; lia.
Qed.
End Session.

(** ** The home page *)

(** Every piece of the page is reported, up to the end of the connection. *)
Definition page (fd : Z) (e : list event) : Prop :=
  exists pieces a, Forall (fun p => exists a, 0 < a_ret a /\
      p = [(CRead fd MAXLINE, a); (CStdout (chars "read " ++ fmt_d (a_ret a) ++ chars " bytes of home page" ++ newline), ok 0)])
    pieces /\ a_ret a = 0 /\ e = concat pieces ++ [(CRead fd MAXLINE, a)].
Definition home_done (host fname : list Z) (e : list event) : Prop :=
  exists fd e1 ws rs k, tcp_connected (Some host) (Some SERV) fd e1 /\ ~ too_long fname /\
    only (is_write fd) ws /\ sent fd ws = cmd_bytes fname /\ page fd rs /\ 0 <= a_ret k /\
    e = e1 ++ ws ++ rs ++ [(CStdout (chars "end-of-file on home page" ++ newline), ok 0); (CClose fd, k)].
Definition home_cut (host fname : list Z) (h : halt) (e : list event) : Prop :=
  not_opened connecting 0 SOCK_STREAM (Some host) (Some SERV) h e \/
  exists fd e1 e2, tcp_connected (Some host) (Some SERV) fd e1 /\ e = e1 ++ e2 /\
    (stopped h \/ h = Undefined /\ too_long fname) /\
    (only plain e2 \/ exists q k rep, only plain q /\ only is_report rep /\ e2 = q ++ (CClose fd, k) :: rep).

Lemma page_plain fd e : page fd e -> only plain e.
Proof.
  intros (ps & a & Hps & _ & ->). apply only_app. split; [|by repeat constructor].
  induction Hps as [|p ps (b & _ & ->) _ IH]; [done|]. by repeat (constructor; [done|]).
Qed.

Lemma runs_page fd w :
  runs (loop (fun _ : unit =>
    a ← Read fd MAXLINE;
    if a_ret a =? 0 then mret (inr ())
    else stdout (chars "read " ++ fmt_d (a_ret a) ++ chars " bytes of home page" ++ newline) ;; mret (inl ())) ())
    (fun _ => page fd) (fun h e => stopped h /\ only plain e) w.
Proof.
  set (piece := fun p => exists a, 0 < a_ret a /\
    p = [(CRead fd MAXLINE, a); (CStdout (chars "read " ++ fmt_d (a_ret a) ++ chars " bytes of home page" ++ newline), ok 0)]).
  apply (runs_loop _ (fun _ e => exists ps, Forall piece ps /\ e = concat ps)); [by exists []|].
  intros [] e w1 (ps & Hps & ->).
  assert (only plain (concat ps)) as Hpl.
  { induction Hps as [|p ps (b & _ & ->) _ IH]; [done|]. by repeat (constructor; [done|]). }
  eapply runs_wraps; [apply Read_wraps| | |].
  - split; [by left|]. by rewrite app_nil_r.
  - intros a rep _ Hrep. split; [by right|]. apply only_app. split; [done|]. constructor; [done|by apply reports_plain].
  - intros a w2 Hg. unfold succeeded in Hg. set (x := normalise (CRead fd MAXLINE) a) in *. cbn [id].
    destruct (a_ret x =? 0) eqn:Ex; zbool.
    + apply runs_ret. by exists ps, x.
    + unfold stdout. apply runs_out; [done|]. intros w3. apply runs_ret. split; [simpl; lia|].
      eexists (ps ++ [_]). split; [apply Forall_app; split; [done|constructor; [|done]]|].
      2:{ rewrite concat_app. cbn [concat]. by rewrite app_nil_r. }
      exists x. split; [lia|done].
Qed.

Lemma runs_home_page host fname w : runs (home_page host fname) (fun _ => home_done host fname) (home_cut host fname) w.
Proof.
  unfold home_page. apply runs_bind. eapply runs_mono; [apply tcp_connect_runs| |by left].
  intros fd e1 He1 w1.
  assert (forall h e2, stopped h \/ h = Undefined /\ too_long fname -> only plain e2 -> home_cut host fname h (e1 ++ e2)) as Hcut.
  { intros h e2 Hh He2. right. exists fd, e1, e2. auto. }
  apply runs_bind. eapply runs_mono; [apply runs_print_and_write| |].
  2:{ intros h e2 [Hh He2]. apply Hcut; [|done]. unfold stopped, too_long. tauto. }
  intros n ws (-> & Hn & Hws & Hsent) w2.
  apply runs_bind. eapply runs_mono; [apply runs_page| |].
  2:{ intros h q [Hh Hq]. apply Hcut; [by left|]. apply only_app. split; [by eapply plain_writes|done]. }
  intros [] rs Hrs w3. unfold stdout. apply runs_out; [done|]. intros w4.
  assert (only plain (ws ++ rs ++ [(CStdout (chars "end-of-file on home page" ++ newline), ok 0)])) as Hpl.
  { apply only_app. split; [by eapply plain_writes|]. apply only_app. split; [by eapply page_plain|by repeat constructor]. }
  eapply runs_wraps; [apply Close_wraps| | |].
  - apply Hcut; [by left; left|exact Hpl].
  - intros k rep _ Hrep. right. eexists fd, e1, _. split; [exact He1|]. split; [reflexivity|]. split; [by left; right|].
    right. eexists _, _, rep. split; [exact Hpl|]. split; [exact Hrep|]. by rewrite <- !app_assoc.
  - intros k w5 Hk. unfold succeeded in Hk. apply runs_ret. exists fd, e1, ws, rs. eexists.
    split; [exact He1|]. split; [unfold too_long; lia|]. split; [done|]. split; [done|]. split; [done|]. split; [exact Hk|done].
Qed.

Lemma connected_held host serv fd e : tcp_connected host serv fd e -> held e [fd].
Proof. intros [ai He]. exact (opens_held _ _ _ _ _ _ _ He). Qed.
Lemma held_close fd k e : held e [fd] -> held (e ++ [(CClose fd, k)]) [].
Proof. unfold held. intros He. by rewrite opened_app, closed_app, He, !app_nil_r. Qed.
Lemma home_done_held host fname e : home_done host fname e -> held e [].
Proof.
  intros (fd & e1 & ws & rs & k & H1 & _ & Hws & _ & Hrs & _ & ->).
  assert (only plain (ws ++ rs ++ [(CStdout (chars "end-of-file on home page" ++ newline), ok 0)])) as Hpl.
  { apply only_app. split; [by eapply plain_writes|]. apply only_app. split; [by eapply page_plain|by repeat constructor]. }
  pose proof (held_close fd k _ (held_plain_r _ _ _ Hpl (connected_held _ _ _ _ H1))) as H. by rewrite <- !app_assoc in H.
Qed.
Lemma home_cut_held host fname h e : home_cut host fname h e -> exists l, held e l /\ (length l <= 1)%nat.
Proof.
  intros [H|(fd & e1 & e2 & H1 & -> & _ & [Hp|(q & k & rep & Hq & Hrep & ->)])]; [by eapply not_opened_held|..].
  - exists [fd]. split; [|simpl; lia]. apply held_plain_r; [done|by eapply connected_held].
  - exists []. split; [|simpl; lia].
    pose proof (held_close fd k _ (held_plain_r q _ _ Hq (connected_held _ _ _ _ H1))) as H.
    pose proof (held_plain_r rep _ _ (reports_plain _ Hrep) H) as H2. by rewrite <- !app_assoc in H2.
Qed.

(** ** The program *)

Definition web_end (argv : list (list Z)) (h : halt) (e : list event) : Prop :=
  match argv with
  | _ :: conns :: host :: homepage :: (_ :: _) as files =>
      let names := take (Z.to_nat MAXFILES) files in
      exists e', e = (CStdout (chars "nfiles = " ++ fmt_d (Z.of_nat (length names)) ++ newline), ok 0) :: e' /\
        (home_cut host homepage h e' \/
         exists e1 e2, home_done host homepage e1 /\ web_cut names host (atoi conns) h e2 /\ e' = e1 ++ e2)
  | _ => usage_end h e
  end.
Definition allowed (argv : list (list Z)) : Z :=
  match argv with _ :: conns :: _ => Z.max 1 (atoi conns) | _ => 1 end.

Lemma web_start_inv host names : web_inv names host ((fun _ => Waiting) <$> names) [] (web_start host names).
Proof.
  unfold web_start. split; cbn [w_file nconn nlefttoconn nlefttoread w_maxfd w_rset w_wset].
  - induction names as [|n ns IH]; constructor; [done|exact IH].
  - by induction names.
  - f_equal. induction names as [|n ns IH]; [done|]. simpl in *. by rewrite IH.
  - f_equal. induction names as [|n ns IH]; [done|]. simpl in *. by rewrite IH.
  - assert (busy ((fun _ : list Z => Waiting) <$> names) = []) as -> by (by induction names). constructor.
  - assert (busy ((fun _ : list Z => Waiting) <$> names) = []) as -> by (by induction names).
    assert (in_progress ((fun _ : list Z => Waiting) <$> names) = []) as -> by (by induction names).
    intros _. split_and!; [done|done|constructor|done].
Qed.

Lemma runs_web_main argv w : runs (web_main argv) (fun _ _ => False) (web_end argv) w.
Proof.
  unfold web_main, web_end. destruct argv as [|p [|conns [|host [|homepage [|f fs]]]]]; try apply runs_usage.
  cbv zeta. set (names := take (Z.to_nat MAXFILES) (f :: fs)). unfold stdout. apply runs_out; [done|]. intros w1.
  apply runs_bind. eapply runs_mono; [apply runs_home_page| |].
  - intros [] e1 He1 w2. apply runs_bind.
    eapply runs_mono; [apply (runs_loop _ (fun st e => exists bk rs ws, session names host (atoi conns) bk rs ws e /\
      web_inv names host bk e st) (fun _ => web_cut names host (atoi conns) (Exited 0)) (web_cut names host (atoi conns)))| |].
    + exists ((fun _ => Waiting) <$> names), ∅, ∅. split; [constructor|by apply web_start_inv].
    + intros st e w3 HI. by apply runs_web_body.
    + intros [] e2 He2 w3. apply runs_halted. rewrite app_nil_r. eexists. split; [reflexivity|]. right. by exists e1, e2.
    + intros h e2 He2. eexists. split; [reflexivity|]. right. by exists e1, e2.
  - intros h e He. eexists. split; [reflexivity|]. by left.
Qed.

Lemma web_end_sockets argv h e :
  web_end argv h e -> Z.of_nat (length (opened e)) <= Z.of_nat (length (closed e)) + allowed argv /\
  (h = Exited 0 -> length (opened e) = length (closed e)).
Proof.
  assert (forall e l, held e l -> (length l <= 1)%nat -> Z.of_nat (length (opened e)) <= Z.of_nat (length (closed e)) + 1) as Hheld.
  { unfold held. intros e0 l -> Hl. rewrite length_app. lia. }
  assert (forall h e, usage_end h e -> Z.of_nat (length (opened e)) <= Z.of_nat (length (closed e)) + 1 /\
    (h = Exited 0 -> length (opened e) = length (closed e))) as Husage.
  { intros h0 e0 [-> [-> ->]%reports_plain%plain_events]. simpl. split; [lia|done]. }
  unfold web_end, allowed. destruct argv as [|p [|conns [|host [|homepage [|f fs]]]]];
    try (intros H; destruct (Husage _ _ H); split; [lia|done]).
  intros (e' & -> & [Hh|(e1 & e2 & H1 & H2 & ->)]); cbn [opened closed].
  - destruct (home_cut_held _ _ _ _ Hh) as (l & Hl & Hn). pose proof (Hheld _ _ Hl Hn). split; [lia|].
    intros ->. destruct Hh as [Hno|(fd & a & b & _ & _ & [[?|?]|[? _]] & _)]; [|done..].
    destruct Hno as [?|? ? ? ? [[?|?]|[? _]]|? ? ? ?|? ? ? ? ? ? [?|[? _]]|? ? ? [[?|?] _]]; done.
  - pose proof (home_done_held _ _ _ H1) as Hd. unfold held in Hd. rewrite app_nil_r in Hd.
    destruct (web_cut_sockets _ _ _ _ _ H2) as [H3 H4]. rewrite opened_app, closed_app, !length_app, Hd.
    split; [lia|]. intros Hh. specialize (H4 Hh). lia.
Qed.

(** C36: nonblock/web.c refines its abstract machine, whatever the kernel
    does.  After the home page has been read to its end, every file goes
    through the phases waiting, connecting, reading and done; the files are
    started in the order of the arguments; [select] is asked exactly when no
    further connection may be started, for reading on all connections in use
    and for writing on those in progress (as long as the system does not hand out a
    descriptor that is open); a file moves only when [select] has reported its
    descriptor, its command is written in full once, and its descriptor is closed after the end of
    file.  There are never more sockets open than the first argument allows (one
    for the home page).  The program exits with 0 only when every file is done and every
    socket closed; the message "nothing found" is never reached; undefined
    behaviour needs a name too long for the line, a descriptor that [fd_set]
    cannot hold, or an empty answer of the resolver. *)
Theorem web_client_correct argv w :
  runs (web_main argv) (fun _ _ => False)
    (fun h e => web_end argv h e /\
       Z.of_nat (length (opened e)) <= Z.of_nat (length (closed e)) + allowed argv /\
       (h = Exited 0 -> length (opened e) = length (closed e))) w.
Proof.
  eapply runs_mono; [apply runs_web_main|done|]. intros h e He. split; [done|by apply web_end_sockets].
Qed.

(** A refused connection is reported and then written to. *)
Definition refused_world : world := world0
  [Ans 0 0 one_host []; ok 3; ok 0; ok 100; ok 0; ok 0;
   Ans 0 0 one_host []; ok 3; ok 2; ok 0; err EINPROGRESS; Ans 2 0 [3] [3]; Ans 0 0 [111; 0; 0; 0] []; err EPIPE].
Example refused_written :
  let '(r, w) := web_main (take 5 web_args) refused_world in
  r = Halt (Exited 1) /\ nth_error (trace w) 20 = Some (CWrite 3 (GET_CMD (chars "/a")), err EPIPE).
Proof. by vm_compute. Qed.
