(* ===== verification/Icmp.v ===== *)
(** * Fields of received packets, times and options: what ping and traceroute share

    The structures that both programs lay over a byte buffer, [struct timeval]
    with ping/tv_sub.c and traceroute/tv_sub.c, the round-trip time in
    milliseconds, [struct icmp6_filter], and [getopt].  A field outside of the
    buffer is [None]. *)

From Stdlib Require Import Floats.SpecFloat.
From S2P Require Import Prelude Unix ErrorLib Wrap TcpEcho Cksum SockAddr SockOpt Udp Rtt NetConn.

Implicit Types (e : endian).

(** ** Fields at an offset *)

Definition rd8 (buf : list Z) (off : Z) : option Z := if off <? 0 then None else buf !! Z.to_nat off.
Definition rd16 e (buf : list Z) (off : Z) : option Z :=
  b0 ← rd8 buf off; b1 ← rd8 buf (off + 1); Some (load16 e b0 b1).

(** Bytes [off .. off + n - 1]. *)
Definition slice (buf : list Z) (off n : Z) : option (list Z) :=
  if (off <? 0) || (Z.of_nat (length buf) <? off + n) then None
  else Some (take (Z.to_nat n) (drop (Z.to_nat off) buf)).

Lemma rd8_in buf off : 0 <= off < Z.of_nat (length buf) -> exists b, rd8 buf off = Some b.
Proof.
  intros H. unfold rd8. replace (off <? 0) with false by lia.
  destruct (lookup_lt_is_Some_2 buf (Z.to_nat off)) as [b Hb]; [lia|eauto].
Qed.
Lemma rd16_in e buf off : 0 <= off -> off + 1 < Z.of_nat (length buf) -> exists v, rd16 e buf off = Some v.
Proof.
  intros H0 H1. unfold rd16. destruct (rd8_in buf off) as [b0 ->]; [lia|].
  destruct (rd8_in buf (off + 1)) as [b1 ->]; [lia|]. cbn. eauto.
Qed.
Lemma slice_in buf off n : 0 <= off -> off + n <= Z.of_nat (length buf) -> exists l, slice buf off n = Some l.
Proof. intros H0 H1. unfold slice. replace (_ || _) with false by lia. eauto. Qed.

(** ** struct timeval: two 64-bit longs *)

Definition s64 (z : Z) : Z := (z + 2 ^ 63) mod 2 ^ 64 - 2 ^ 63.
Definition is_long (z : Z) : Prop := - 2 ^ 63 <= z < 2 ^ 63.
#[export] Instance is_long_dec z : Decision (is_long z).
Proof. unfold is_long. apply _. Defined.

Definition store64 e (v : Z) : list Z :=
  match e with Little => long_bytes v | Big => reverse (long_bytes v) end.
Definition load64 e (l : list Z) : Z :=
  long_of (match e with Little => l | Big => reverse l end).

Definition timeval : Type := Z * Z.
Definition sizeof_timeval : Z := 16.
Definition timeval_of (a : answer) : timeval := (s64 (tv_sec a), s64 (tv_usec a)).
Definition store_timeval e (tv : timeval) : list Z := store64 e tv.1 ++ store64 e tv.2.
Definition load_timeval e (l : list Z) : timeval := (load64 e (take 8 l), load64 e (drop 8 l)).

(** tv_sub.c: signed arithmetic, undefined when it overflows. *)
Definition long_or_none (z : Z) : option Z := if decide (is_long z) then Some z else None.
Definition tv_sub (out tin : timeval) : option timeval :=
  usec ← long_or_none (out.2 - tin.2);
  '(sec, usec) ← if usec <? 0 then (fun s => (s, usec + 1000000)) <$> long_or_none (out.1 - 1) else Some (out.1, usec);
  (fun s => (s, usec)) <$> long_or_none (sec - tin.1).

(** [tv_sec * 1000.0 + tv_usec / 1000.0] *)
Definition rtt_ms (tv : timeval) : spec_float :=
  dadd (dmul (double_of tv.1) (double_of 1000)) (ddiv (double_of tv.2) (double_of 1000)).

Lemma long_ok z : is_long z -> long_or_none z = Some z.
Proof. intros Hz. unfold long_or_none. by rewrite decide_True. Qed.
Lemma is_long_s64 z : is_long (s64 z).
Proof. unfold is_long, s64. pose proof (Z.mod_pos_bound (z + 2 ^ 63) (2 ^ 64) ltac:(lia)). lia. Qed.

(** The microseconds of a time; of normalised times, [tv_sub] takes the difference. *)
Definition micros (tv : timeval) : Z := tv.1 * 1000000 + tv.2.
Definition proper (tv : timeval) : Prop := 0 <= tv.1 < 2 ^ 62 /\ 0 <= tv.2 < 1000000.

Lemma tv_sub_proper out tin :
  proper out -> proper tin -> exists tv, tv_sub out tin = Some tv /\ micros tv = micros out - micros tin /\ 0 <= tv.2 < 1000000.
Proof.
  destruct out as [s u], tin as [s' u']. unfold proper, micros, tv_sub. cbn [fst snd].
  intros [H1 H2] [H3 H4]. rewrite (long_ok (u - u')) by (unfold is_long; lia). cbn [mbind option_bind].
  destruct (_ <? _) eqn:E; zbool.
  - rewrite (long_ok (s - 1)) by (unfold is_long; lia). cbn [fmap option_fmap option_map mbind option_bind].
    rewrite (long_ok (s - 1 - s')) by (unfold is_long; lia). cbn. eexists. split; [reflexivity|]. cbn [fst snd]. lia.
  - cbn [mbind option_bind]. rewrite (long_ok (s - s')) by (unfold is_long; lia). cbn. eexists. split; [reflexivity|].
    cbn [fst snd]. lia.
Qed.

(** What was stored is read back. *)
Lemma length_le_bytes n z : length (le_bytes n z) = n.
Proof. revert z. induction n as [|n IH]; intros z; [done|]. cbn. by rewrite IH. Qed.
Lemma le_val_bytes n z : 0 <= z < 256 ^ Z.of_nat n -> le_val (le_bytes n z) = z.
Proof.
  revert z. induction n as [|n IH]; intros z Hz; [simpl in *; lia|]. cbn [le_bytes le_val].
  rewrite Nat2Z.inj_succ, Z.pow_succ_r in Hz by lia. rewrite IH.
  - pose proof (Z.div_mod z 256). lia.
  - split; [apply Z.div_pos; lia|apply Z.div_lt_upper_bound; lia].
Qed.
Lemma bytes_le_bytes n z : bytes (le_bytes n z).
Proof.
  revert z. induction n as [|n IH]; intros z; constructor; [|apply IH]. apply Z.mod_pos_bound. lia.
Qed.
Lemma long_bytes_of z : is_long z -> long_of (long_bytes z) = z.
Proof.
  unfold is_long, long_of, long_bytes. intros Hz. pose proof (Z.mod_pos_bound z (2 ^ 64) ltac:(lia)) as Hm.
  rewrite le_val_bytes by (simpl Z.of_nat; lia). destruct (decide (0 <= z)).
  - rewrite Z.mod_small by lia. by replace (z <? 2 ^ 63) with true by lia.
  - assert (z mod 2 ^ 64 = z + 2 ^ 64) as -> by (rewrite <- (Z_mod_plus_full z 1), Z.mod_small; lia).
    replace (_ <? _) with false by lia. lia.
Qed.
Lemma load_store64 e z : is_long z -> load64 e (store64 e z) = z.
Proof. intros Hz. unfold load64, store64. destruct e; rewrite ?reverse_involutive; by apply long_bytes_of. Qed.
Lemma length_store64 e z : length (store64 e z) = 8%nat.
Proof. unfold store64, long_bytes. destruct e; rewrite ?length_reverse; apply length_le_bytes. Qed.
Lemma bytes_store64 e z : bytes (store64 e z).
Proof.
  unfold store64, long_bytes. destruct e; [apply bytes_le_bytes|].
  unfold bytes. apply Forall_reverse, bytes_le_bytes.
Qed.
Lemma load_store_timeval e tv : is_long tv.1 -> is_long tv.2 -> load_timeval e (store_timeval e tv) = tv.
Proof.
  intros H1 H2. unfold load_timeval, store_timeval.
  rewrite take_app_length', drop_app_length' by (by rewrite length_store64).
  rewrite !load_store64 by done. by destruct tv.
Qed.
Lemma length_store_timeval e tv : length (store_timeval e tv) = 16%nat.
Proof. unfold store_timeval. by rewrite length_app, !length_store64. Qed.
Lemma bytes_store_timeval e tv : bytes (store_timeval e tv).
Proof. apply bytes_app. split; apply bytes_store64. Qed.

(** ** The ICMPv6 filter: a set bit blocks its type *)

Definition ICMP6_FILTER : Z := 1.
Definition ICMP6_FILTER_SETBLOCKALL : list Z := replicate 8 (2 ^ 32 - 1).
Definition ICMP6_FILTER_SETPASS (type : Z) (filt : list Z) : list Z :=
  let i := Z.to_nat (Z.shiftr type 5) in
  <[i := Z.ldiff (nth i filt 0) (Z.shiftl 1 (Z.land type 31))]> filt.
Definition filter_bytes e (filt : list Z) : list Z := concat (store32 e <$> filt).

(** [IN6_IS_ADDR_V4MAPPED] of the address in a [struct sockaddr_in6]. *)
Definition is_v4mapped (addr : list Z) : option bool :=
  (fun l => bool_decide (l = replicate 10 0 ++ [255; 255])) <$> slice addr 8 12.

(** ** getopt, as POSIX describes it: it stops at the first operand

    [spec] gives the option characters and whether they take an argument;
    ['?'] stands for an unknown one and for a missing argument. *)

Definition question : Z := 63.
Fixpoint option_of (c : Z) (spec : list (Z * bool)) : option bool :=
  match spec with
  | [] => None
  | (o, takes) :: spec' => if c =? o then Some takes else option_of c spec'
  end.

(** The options of one word; [Some c] when the last needs the next word. *)
Fixpoint word_options (spec : list (Z * bool)) (w : list Z) : list (Z * list Z) * option Z :=
  match w with
  | [] => ([], None)
  | c :: w' =>
      match option_of c spec with
      | Some true => match w' with [] => ([], Some c) | _ => ([(c, w')], None) end
      | Some false => let '(os, need) := word_options spec w' in ((c, []) :: os, need)
      | None => let '(os, need) := word_options spec w' in ((question, []) :: os, need)
      end
  end.
Fixpoint getopt (spec : list (Z * bool)) (args : list (list Z)) : list (Z * list Z) * list (list Z) :=
  match args with
  | (45 :: (c :: w)) :: args' =>
      if bool_decide (c :: w = [45]) then ([], args')
      else
        let '(os, need) := word_options spec (c :: w) in
        match need, args' with
        | None, _ => let '(os', operands) := getopt spec args' in (os ++ os', operands)
        | Some o, v :: args'' => let '(os', operands) := getopt spec args'' in (os ++ (o, v) :: os', operands)
        | Some _, [] => (os ++ [(question, [])], [])
        end
  | _ => ([], args)
  end.

Example getopt_trace :
  let spec := [(109, true); (118, false)] in
  getopt spec [chars "-vm"; chars "5"; chars "host"] = ([(118, []); (109, chars "5")], [chars "host"]) /\
  getopt spec [chars "-m9"; chars "-x"; chars "--"; chars "-h"] = ([(109, chars "9"); (question, [])], [chars "-h"]) /\
  getopt spec [chars "-m"] = ([(question, [])], []).
Proof. by vm_compute. Qed.
