(* ===== verification/Ping.v ===== *)
(** * ping

    ping/main.c, readloop.c, sig_alrm.c, send_v4.c, send_v6.c, proc_v4.c,
    proc_v6.c, init_v6.c and tv_sub.c.

    The handler of SIGALRM sends a request and sets the next alarm; it runs
    when the signal interrupts [recvmsg], which then answers EINTR.  The
    receive buffer and the peer's address keep what earlier packets have left
    in them. *)

From Stdlib Require Import Floats.SpecFloat.
From S2P Require Import Prelude InetPton InetNtop Unix ErrorLib Wrap ReadWrite TcpEcho TcpCli Cksum SockAddr SockOpt Udp UdpServ Rtt NetConn Icmp.

Implicit Types (e : endian).

(** ** ping.h and the system's constants *)

Definition BUFSIZE : Z := 1500.
Definition datalen : Z := 56.
Definition IPPROTO_ICMP : Z := 1.
Definition IPPROTO_ICMPV6 : Z := 58.
Definition ICMP_ECHO : Z := 8.
Definition ICMP_ECHOREPLY : Z := 0.
Definition ICMP6_ECHO_REQUEST : Z := 128.
Definition ICMP6_ECHO_REPLY : Z := 129.
Definition SOCK_RAW : Z := 3.
Definition IPV6_RECVHOPLIMIT : Z := 49.
Definition IPV6_HOPLIMIT : Z := 52.

(** ** recvmsg: the message, the name and the control messages *)

Record cmsghdr : Type := Cmsg { cmsg_level : Z; cmsg_type : Z; cmsg_data : Z }.
Fixpoint controls (l : list Z) : list cmsghdr :=
  match l with
  | level :: type :: v :: l' => Cmsg level type v :: controls l'
  | _ => []
  end.
(** In the answer: the length of the name, the name, the control messages. *)
Definition msg_name (salen : nat) (a : answer) : list Z :=
  match a_wdata a with n :: l => map u8 (take (Nat.min (Z.to_nat n) salen) l) | [] => [] end.
Definition msg_control (a : answer) : list cmsghdr :=
  match a_wdata a with n :: l => controls (drop (Z.to_nat n) l) | [] => [] end.
Definition msg_bytes (a : answer) : list Z := map u8 (take (Z.to_nat BUFSIZE) (a_data a)).

Section Ping.
Context (e : endian) (verbose pid : Z).

(** ** send_v4.c and send_v6.c

    All of the first [8 + datalen] bytes of [sendbuf] are written each time but the
    checksum of ICMPv6, which stays 0. *)

Definition icmp_request (type id seq : Z) (cksum : list Z) (tv : timeval) : list Z :=
  [type; 0] ++ cksum ++ store16 e id ++ store16 e seq ++ store_timeval e tv ++
  replicate (Z.to_nat (datalen - sizeof_timeval)) 0xa5.

(** [nsent++] of an [int]. *)
Definition next_sent (nsent : Z) : M Z := if nsent <? INT_MAX then mret (nsent + 1) else undefined.

Definition send_v4 (sockfd nsent : Z) (sasend : list Z) : M Z :=
  n ← next_sent nsent;
  tv ← Gettimeofday;
  let len := 8 + datalen in
  cksum ← or_undef (in_cksum e (icmp_request ICMP_ECHO pid (u16 nsent) [0; 0] (timeval_of tv)) len);
  Sendto sockfd (icmp_request ICMP_ECHO pid (u16 nsent) (store16 e cksum) (timeval_of tv)) sasend ;;
  mret n.
Definition send_v6 (sockfd nsent : Z) (sasend : list Z) : M Z :=
  n ← next_sent nsent;
  tv ← Gettimeofday;
  Sendto sockfd (icmp_request ICMP6_ECHO_REQUEST pid (u16 nsent) [0; 0] (timeval_of tv)) sasend ;;
  mret n.

(** ** proc_v4.c and proc_v6.c: [ptr] is the buffer, [len] the length of the message *)

Definition reply_time (ptr : list Z) (off : Z) (tvrecv : timeval) : option spec_float :=
  tvsend ← slice ptr off sizeof_timeval;
  tv ← tv_sub tvrecv (load_timeval e tvsend);
  Some (rtt_ms tv).

Definition proc_v4 (ptr : list Z) (len : Z) (_ : list cmsghdr) (sarecv : list Z) (tvrecv : timeval) : M unit :=
  ip_hl ← or_undef (rd8 ptr 0);
  let hlen1 := 4 * Z.land ip_hl 15 in
  ip_p ← or_undef (rd8 ptr 9);
  if negb (ip_p =? IPPROTO_ICMP) then mret ()
  else
    let icmplen := len - hlen1 in
    if icmplen <? 8 then mret ()
    else
      icmp_type ← or_undef (rd8 ptr hlen1);
      if icmp_type =? ICMP_ECHOREPLY then
        icmp_id ← or_undef (rd16 e ptr (hlen1 + 4));
        if negb (icmp_id =? pid) then mret ()
        else if icmplen <? 16 then mret ()
        else
          rtt ← or_undef (reply_time ptr (hlen1 + 8) tvrecv);
          from ← Sock_ntop_host_of sarecv;
          seq ← or_undef (rd16 e ptr (hlen1 + 6));
          ttl ← or_undef (rd8 ptr 8);
          stdout (fmt_d icmplen ++ chars " bytes from " ++ from ++ chars ": seq=" ++ fmt_u seq ++
                  chars ", ttl=" ++ fmt_d ttl ++ chars ", rtt=" ++ fmt_f3 rtt ++ chars " ms" ++ newline)
      else if negb (verbose =? 0) then
        from ← Sock_ntop_host_of sarecv;
        icmp_code ← or_undef (rd8 ptr (hlen1 + 1));
        stdout (chars "  " ++ fmt_d icmplen ++ chars " bytes from " ++ from ++ chars ": type = " ++ fmt_d icmp_type ++
                chars ", code = " ++ fmt_d icmp_code ++ newline)
      else mret ().

(** The hop limit of the first control message that has one. *)
Fixpoint find_hlim (l : list cmsghdr) : Z :=
  match l with
  | [] => -1
  | c :: l' =>
      if (cmsg_level c =? IPPROTO_IPV6) && (cmsg_type c =? IPV6_HOPLIMIT) then s32 (cmsg_data c) else find_hlim l'
  end.

Definition proc_v6 (ptr : list Z) (len : Z) (msg : list cmsghdr) (sarecv : list Z) (tvrecv : timeval) : M unit :=
  if len <? 8 then mret ()
  else
    icmp6_type ← or_undef (rd8 ptr 0);
    if icmp6_type =? ICMP6_ECHO_REPLY then
      icmp6_id ← or_undef (rd16 e ptr 4);
      if negb (icmp6_id =? pid) then mret ()
      else if len <? 16 then mret ()
      else
        rtt ← or_undef (reply_time ptr 8 tvrecv);
        let hlim := find_hlim msg in
        from ← Sock_ntop_host_of sarecv;
        seq ← or_undef (rd16 e ptr 6);
        stdout (fmt_d len ++ chars " bytes from " ++ from ++ chars ": seq=" ++ fmt_u seq ++ chars ", hlim=") ;;
        (if hlim =? -1 then stdout (chars "???") else stdout (fmt_d hlim)) ;;
        stdout (chars ", rtt=" ++ fmt_f3 rtt ++ chars " ms" ++ newline)
    else if negb (verbose =? 0) then
      from ← Sock_ntop_host_of sarecv;
      icmp6_code ← or_undef (rd8 ptr 1);
      stdout (chars "  " ++ fmt_d len ++ chars " bytes from " ++ from ++ chars ": type = " ++ fmt_d icmp6_type ++
              chars ", code = " ++ fmt_d icmp6_code ++ newline)
    else mret ().

(** ** init_v6.c *)

Definition init_v6 (sockfd : Z) : M unit :=
  (if verbose =? 0 then
     kernel (CSetsockopt sockfd IPPROTO_IPV6 ICMP6_FILTER
       (filter_bytes e (ICMP6_FILTER_SETPASS ICMP6_ECHO_REPLY ICMP6_FILTER_SETBLOCKALL))) ;; mret ()
   else mret ()) ;;
  kernel (CSetsockopt sockfd IPPROTO_IPV6 IPV6_RECVHOPLIMIT (store32 e 1)) ;;
  mret ().

(** ** struct proto *)

Record proto : Type := Proto {
  fproc : list Z -> Z -> list cmsghdr -> list Z -> timeval -> M unit;
  fsend : Z -> Z -> list Z -> M Z;
  finit : option (Z -> M unit);
  icmpproto : Z
}.
Definition proto_v4 : proto := Proto proc_v4 send_v4 None IPPROTO_ICMP.
Definition proto_v6 : proto := Proto proc_v6 send_v6 (Some init_v6) IPPROTO_ICMPV6.

(** ** sig_alrm.c and readloop.c *)

Definition sig_alrm (pr : proto) (sockfd nsent : Z) (sasend : list Z) : M Z :=
  n ← fsend pr sockfd nsent sasend;
  kernel (CAlarm 1) ;;
  mret n.

(** The number of requests sent, the receive buffer and the peer's address. *)
Record ping_state : Type := PingState { nsent : Z; recvbuf : list Z; sarecv : list Z }.

Definition readloop_body (pr : proto) (sockfd : Z) (sasend : list Z) (st : ping_state) : M (ping_state + Empty_set) :=
  a ← kernel (libc "recvmsg" [sockfd; 0] []);
  if a_ret a <? 0 then
    if a_err a =? EINTR then
      n ← sig_alrm pr sockfd (nsent st) sasend;
      mret (inl (PingState n (recvbuf st) (sarecv st)))
    else err_sys (chars "recvmsg error")
  else
    let msg := msg_bytes a in
    let st := PingState (nsent st) (overlay msg (recvbuf st)) (overlay (msg_name (length sasend) a) (sarecv st)) in
    tval ← Gettimeofday;
    fproc pr (recvbuf st) (Z.of_nat (length msg)) (msg_control a) (sarecv st) (timeval_of tval) ;;
    mret (inl st).

(** [recvbuf0] is what the stack holds where [recvbuf] is. *)
Definition readloop (pr : proto) (family : Z) (sasend recvbuf0 : list Z) : M Empty_set :=
  sockfd ← Socket family SOCK_RAW (icmpproto pr);
  uid ← kernel (libc "getuid" [] []);
  kernel (libc "setuid" [a_ret uid] []) ;;
  (match finit pr with Some init => init sockfd | None => mret () end) ;;
  kernel (CSetsockopt sockfd SOL_SOCKET SO_RCVBUF (store32 e (60 * 1024))) ;;
  n ← sig_alrm pr sockfd 0 sasend;
  loop (readloop_body pr sockfd sasend) (PingState n recvbuf0 (replicate (length sasend) 0)).
End Ping.

(** ** main.c *)

(** Every 'v' adds to [verbose]; '?' ends the program. *)
Fixpoint ping_options (os : list (Z * list Z)) (verbose : Z) : M Z :=
  match os with
  | [] => mret verbose
  | (c, _) :: os' =>
      if c =? 118 then ping_options os' (verbose + 1)
      else if c =? question then err_quit (chars "unrecognized option: " ++ [c])
      else ping_options os' verbose
  end.

Definition ping_main e (recvbuf0 : list Z) (argv : list (list Z)) : M Empty_set :=
  let '(os, operands) := getopt [(118, false)] (drop 1 argv) in
  verbose ← ping_options os 0;
  match operands with
  | [host] =>
      p ← kernel (libc "getpid" [] []);
      let pid := Z.land (a_ret p) 0xffff in
      Signal SIGALRM Udp.sig_alrm ;;
      res ← Host_serv (Some host) None 0 0;
      ai ← or_undef (head res);
      h ← Sock_ntop_host_of (ai_addr ai);
      stdout (chars "PING " ++ default h (ai_canonname ai) ++ chars " (" ++ h ++ chars "): " ++ fmt_d datalen ++
              chars " data bytes" ++ newline) ;;
      pr ← (if ai_family ai =? AF_INET then mret (proto_v4 e verbose pid)
            else if ai_family ai =? AF_INET6 then
              mapped ← or_undef (is_v4mapped (ai_addr ai));
              if (mapped : bool) then err_quit (chars "cannot ping IPv4-mapped IPv6 address")
              else mret (proto_v6 e verbose pid)
            else err_quit (chars "unknown address family " ++ fmt_d (ai_family ai)));
      Calloc 1 (sockaddr_len (ai_addr ai)) ;;
      family ← or_undef (sa_family <$> sa_of (ai_addr ai));
      readloop e pr family (ai_addr ai) recvbuf0
  | _ => err_quit (chars "usage: ping [ -v ] <hostname>")
  end.

(** A reply with a time that is one second and 250 ms old. *)
Definition lo_info : list Z := [2; 3; 1; 16; 2; 0; 0; 0; 127; 0; 0; 1; 0; 0; 0; 0; 0; 0; 0; 0; -1].
Definition lo_name : list Z := [16; 2; 0; 0; 0; 127; 0; 0; 1; 0; 0; 0; 0; 0; 0; 0; 0].
Definition reply_packet e (id seq : Z) (tv : timeval) : list Z :=
  [0x45; 0; 0; 84; 0; 0; 0; 0; 64; 1; 0; 0; 127; 0; 0; 1; 127; 0; 0; 1] ++ icmp_request e ICMP_ECHOREPLY id seq [0; 0] tv.
Definition ping_world : world := world0
  [ok 4242; ok 0; Ans 0 0 lo_info []; ok 0; ok 3; ok 0; ok 0; ok 0; Ans 0 0 [1000; 500000] []; ok 64; ok 0;
   Ans 84 0 (reply_packet Little 4242 0 (1000, 500000)) lo_name; Ans 0 0 [1001; 750000] []].
Example ping_reply :
  let '(r, w) := ping_main Little (replicate 1500 0) [chars "ping"; chars "lo"] ping_world in
  r = Halt Blocked /\ script w = [] /\
  displays (trace w) = [chars "PING 127.0.0.1 (127.0.0.1): 56 data bytes" ++ newline;
                        chars "64 bytes from 127.0.0.1: seq=0, ttl=64, rtt=1250.000 ms" ++ newline].
Proof. by vm_compute. Qed.

(** ** Requests *)

Lemma length_icmp_request e type id seq ck tv :
  length ck = 2%nat -> length (icmp_request e type id seq ck tv) = 64%nat.
Proof.
  intros Hc. unfold icmp_request. rewrite !length_app, Hc, length_store_timeval. destruct e; done.
Qed.
(** The bytes of a request around its checksum. *)
Definition request_rest e (id seq : Z) (tv : timeval) : list Z :=
  store16 e id ++ store16 e seq ++ store_timeval e tv ++ replicate (Z.to_nat (datalen - sizeof_timeval)) 0xa5.
Lemma request_bytes e type id seq tv :
  byte type -> word id -> word seq -> bytes ([type; 0] ++ request_rest e id seq tv).
Proof.
  intros Ht Hi Hs. constructor; [done|]. constructor; [done|]. unfold request_rest.
  apply bytes_app. split; [by apply bytes_store|]. apply bytes_app. split; [by apply bytes_store|].
  apply bytes_app. split; [apply bytes_store_timeval|]. unfold bytes. apply Forall_replicate. unfold byte. lia.
Qed.

(** The checksum is there, and the request verifies with it. *)
Lemma request_cksum e type id seq tv :
  byte type -> word id -> word seq ->
  exists v, in_cksum e (icmp_request e type id seq [0; 0] tv) 64 = Some v /\ word v /\
    in_cksum e (icmp_request e type id seq (store16 e v) tv) 64 = Some 0.
Proof.
  intros Ht Hi Hs. pose proof (request_bytes e type id seq tv Ht Hi Hs) as Hb.
  assert (length (request_rest e id seq tv) = 60%nat) as Hl.
  { unfold request_rest. rewrite !length_app, length_store_timeval. by destruct e. }
  destruct (in_cksum_protects e [type; 0] (request_rest e id seq tv) Hb eq_refl) as [(v & H1 & Hv & H2) _].
  { rewrite Hl. simpl. lia. }
  rewrite Hl in H1, H2. exists v. split; [exact H1|]. split; [exact Hv|exact H2].
Qed.

(** The datagram of request number [k]: its identifier, its number as 16 bits, the time and the
    pattern; an ICMPv4 request verifies. *)
Definition is_request e (v6 : bool) (pid k : Z) (tv : timeval) (d : list Z) : Prop :=
  exists ck, length ck = 2%nat /\
    d = icmp_request e (if v6 then ICMP6_ECHO_REQUEST else ICMP_ECHO) pid (u16 k) ck tv /\
    (if v6 then ck = [0; 0] else in_cksum e d 64 = Some 0).

(** ** What a received packet shows *)

Section Shows.
Context (e : endian) (verbose pid : Z).

Definition reply_line4 (icmplen : Z) (from : list Z) (seq ttl : Z) (rtt : spec_float) : list Z :=
  fmt_d icmplen ++ chars " bytes from " ++ from ++ chars ": seq=" ++ fmt_u seq ++ chars ", ttl=" ++ fmt_d ttl ++
  chars ", rtt=" ++ fmt_f3 rtt ++ chars " ms" ++ newline.
Definition type_line (len : Z) (from : list Z) (type code : Z) : list Z :=
  chars "  " ++ fmt_d len ++ chars " bytes from " ++ from ++ chars ": type = " ++ fmt_d type ++
  chars ", code = " ++ fmt_d code ++ newline.
Definition reply_lines6 (len : Z) (from : list Z) (seq hlim : Z) (rtt : spec_float) : list (list Z) :=
  [fmt_d len ++ chars " bytes from " ++ from ++ chars ": seq=" ++ fmt_u seq ++ chars ", hlim=";
   if hlim =? -1 then chars "???" else fmt_d hlim; chars ", rtt=" ++ fmt_f3 rtt ++ chars " ms" ++ newline].
Definition prints (lines : list (list Z)) : list event := (fun l => (CStdout l, ok 0)) <$> lines.
Definition text_of (sarecv from : list Z) : Prop :=
  exists sa, sa_of sarecv = Some sa /\ sock_ntop_host sa (sockaddr_len sarecv) = SrText from.

(** The fields of the message of [n] bytes at the start of [b]. *)
Definition hlen (b : list Z) : nat := Z.to_nat (4 * Z.land (byte_at b 0) 15).
Definition at16 (b : list Z) (i : nat) : Z := load16 e (byte_at b i) (byte_at b (S i)).
Definition age (b : list Z) (i : nat) (t : timeval) : option timeval :=
  tv_sub t (load_timeval e (take 16 (drop i b))).

Definition is_icmp4 (b : list Z) (n : Z) : Prop := byte_at b 9 = IPPROTO_ICMP /\ 8 <= n - Z.of_nat (hlen b).
Definition ours4 (b : list Z) (n : Z) : Prop :=
  is_icmp4 b n /\ byte_at b (hlen b) = ICMP_ECHOREPLY /\ at16 b (hlen b + 4) = pid /\ 16 <= n - Z.of_nat (hlen b).
Definition other4 (b : list Z) (n : Z) : Prop := is_icmp4 b n /\ byte_at b (hlen b) <> ICMP_ECHOREPLY.
Definition ours6 (b : list Z) (n : Z) : Prop :=
  16 <= n /\ byte_at b 0 = ICMP6_ECHO_REPLY /\ at16 b 4 = pid.
Definition other6 (b : list Z) (n : Z) : Prop := 8 <= n /\ byte_at b 0 <> ICMP6_ECHO_REPLY.

(** An answer to our requests shows one line, with its number and the time
    since the time it carries; the others show their type with "-v" and
    nothing without. *)
Inductive shows4 (b : list Z) (n : Z) (sarecv : list Z) (t : timeval) : list event -> Prop :=
| shows4_reply from tv :
    ours4 b n -> text_of sarecv from -> age b (hlen b + 8) t = Some tv ->
    shows4 b n sarecv t (prints [reply_line4 (n - Z.of_nat (hlen b)) from (at16 b (hlen b + 6)) (byte_at b 8) (rtt_ms tv)])
| shows4_type from :
    other4 b n -> verbose <> 0 -> text_of sarecv from ->
    shows4 b n sarecv t
      (prints [type_line (n - Z.of_nat (hlen b)) from (byte_at b (hlen b)) (byte_at b (S (hlen b)))])
| shows4_nothing : ~ ours4 b n -> (other4 b n -> verbose = 0) -> shows4 b n sarecv t [].
Inductive shows6 (b : list Z) (n : Z) (msg : list cmsghdr) (sarecv : list Z) (t : timeval) : list event -> Prop :=
| shows6_reply from tv :
    ours6 b n -> text_of sarecv from -> age b 8 t = Some tv ->
    shows6 b n msg sarecv t (prints (reply_lines6 n from (at16 b 6) (find_hlim msg) (rtt_ms tv)))
| shows6_type from :
    other6 b n -> verbose <> 0 -> text_of sarecv from ->
    shows6 b n msg sarecv t (prints [type_line n from (byte_at b 0) (byte_at b 1)])
| shows6_nothing : ~ ours6 b n -> (other6 b n -> verbose = 0) -> shows6 b n msg sarecv t [].

(** The only undefined behaviour: a time that is out of range, or an address
    without a text. *)
Definition proc_risk (ours other : Prop) (aged : option timeval) (sarecv : list Z) : Prop :=
  ours /\ aged = None \/ (ours \/ other /\ verbose <> 0) /\ odd_address sarecv.

Lemma rd8_at b i : (i < length b)%nat -> rd8 b (Z.of_nat i) = Some (byte_at b i).
Proof.
  intros Hi. unfold rd8, byte_at. replace (Z.of_nat i <? 0) with false by lia. rewrite Nat2Z.id.
  destruct (lookup_lt_is_Some_2 b i Hi) as [x Hx]. rewrite Hx. by rewrite (nth_lookup_Some b i _ x).
Qed.
Lemma rd16_at b i : (S i < length b)%nat -> rd16 e b (Z.of_nat i) = Some (at16 b i).
Proof.
  intros Hi. unfold rd16. rewrite rd8_at by lia. cbn [mbind option_bind].
  replace (Z.of_nat i + 1) with (Z.of_nat (S i)) by lia. by rewrite rd8_at by lia.
Qed.
Lemma reply_time_at b i t :
  (i + 16 <= length b)%nat -> reply_time e b (Z.of_nat i) t = rtt_ms <$> age b i t.
Proof.
  intros Hi. unfold reply_time, slice, age, sizeof_timeval. replace (_ || _) with false by lia. rewrite Nat2Z.id.
  cbn [mbind option_bind]. by destruct (tv_sub _ _).
Qed.

Lemma hlen_range b : Z.of_nat (hlen b) = 4 * Z.land (byte_at b 0) 15 /\ (hlen b <= 60)%nat.
Proof.
  unfold hlen. change 15 with (Z.ones 4). rewrite Z.land_ones by lia.
  pose proof (Z.mod_pos_bound (byte_at b 0) (2 ^ 4)). lia.
Qed.
Lemma runs_stdout l (Q : unit -> list event -> Prop) (H : halt -> list event -> Prop) w :
  Q () [(CStdout l, ok 0)] -> runs (stdout l) Q H w.
Proof.
  intros HQ. apply (runs_ext _ (stdout l ≫= mret)); [unfold mbind, M_bind; by destruct (stdout l w) as [[[]|] ?]|].
  apply runs_out; [done|]. intros w1. by apply runs_ret.
Qed.
(** The sender's text, when something is shown. *)
Lemma runs_from {B} sarecv (k : list Z -> M B) (Q : B -> list event -> Prop) (H : halt -> list event -> Prop) w :
  bytes sarecv -> (odd_address sarecv -> H Undefined []) ->
  (forall from w', text_of sarecv from -> runs (k from) Q H w') ->
  runs (Sock_ntop_host_of sarecv ≫= k) Q H w.
Proof.
  intros Hb Hodd Hk. apply (runs_Sock_ntop_of true); [done|done|]. intros sa s w' Hs Ht. apply Hk. by exists sa.
Qed.

Lemma proc_v4_runs b n msg sarecv t w :
  length b = Z.to_nat BUFSIZE -> 0 <= n <= BUFSIZE -> bytes sarecv ->
  runs (proc_v4 e verbose pid b n msg sarecv t) (fun _ => shows4 b n sarecv t)
    (fun h ev => h = Undefined /\ ev = [] /\ proc_risk (ours4 b n) (other4 b n) (age b (hlen b + 8) t) sarecv) w.
Proof.
  unfold BUFSIZE. intros Hl Hn Hb. destruct (hlen_range b) as [Hh Hle]. unfold proc_v4.
  apply (runs_or_undef _ (byte_at b 0)); [apply (rd8_at b 0); lia|]. cbv zeta. rewrite <- Hh.
  apply (runs_or_undef _ (byte_at b 9)); [apply (rd8_at b 9); lia|].
  destruct (_ =? IPPROTO_ICMP) eqn:Ep; zbool; cbn [negb].
  2:{ apply runs_ret, shows4_nothing; unfold ours4, other4, is_icmp4; tauto. }
  destruct (_ <? 8) eqn:E8; zbool; [apply runs_ret, shows4_nothing; unfold ours4, other4, is_icmp4; lia|].
  assert (is_icmp4 b n) as Hi by done.
  apply (runs_or_undef _ (byte_at b (hlen b))); [apply rd8_at; lia|].
  destruct (_ =? ICMP_ECHOREPLY) eqn:Er; zbool.
  - apply (runs_or_undef _ (at16 b (hlen b + 4))).
    { rewrite <- rd16_at by lia. f_equal. lia. }
    destruct (_ =? pid) eqn:Ei; zbool; cbn [negb]; [|apply runs_ret, shows4_nothing; unfold ours4, other4; tauto].
    destruct (_ <? 16) eqn:E16; zbool; [apply runs_ret, shows4_nothing; unfold ours4, other4; lia|].
    assert (ours4 b n) as Ho by done.
    replace (Z.of_nat (hlen b) + 8) with (Z.of_nat (hlen b + 8)) by lia. rewrite reply_time_at by lia.
    destruct (age b (hlen b + 8) t) as [tv|] eqn:Ea; cbn [fmap option_fmap option_map].
    2:{ apply runs_none; [done|]. split; [done|]. split; [done|]. by left. }
    apply (runs_or_undef _ (rtt_ms tv)); [done|]. apply runs_from; [done|intros Hodd; split; [done|]; split; [done|]; right; split; [by left|done]|].
    intros from w1 Hf. apply (runs_or_undef _ (at16 b (hlen b + 6))).
    { rewrite <- rd16_at by lia. f_equal. lia. }
    apply (runs_or_undef _ (byte_at b 8)); [apply (rd8_at b 8); lia|].
    apply runs_stdout. by apply (shows4_reply b n sarecv t from tv).
  - assert (~ ours4 b n) as Hno by (unfold ours4; tauto).
    destruct (verbose =? 0) eqn:Ev; zbool; cbn [negb]; [by apply runs_ret, shows4_nothing|].
    assert (other4 b n) as Ho by done.
    apply runs_from; [done|intros Hodd; split; [done|]; split; [done|]; right; split; [by right|done]|].
    intros from w1 Hf. apply (runs_or_undef _ (byte_at b (S (hlen b)))).
    { rewrite <- rd8_at by lia. f_equal. lia. }
    apply runs_stdout. by apply shows4_type.
Qed.

Lemma proc_v6_runs b n msg sarecv t w :
  length b = Z.to_nat BUFSIZE -> 0 <= n <= BUFSIZE -> bytes sarecv ->
  runs (proc_v6 e verbose pid b n msg sarecv t) (fun _ => shows6 b n msg sarecv t)
    (fun h ev => h = Undefined /\ ev = [] /\ proc_risk (ours6 b n) (other6 b n) (age b 8 t) sarecv) w.
Proof.
  unfold BUFSIZE. intros Hl Hn Hb. unfold proc_v6.
  destruct (n <? 8) eqn:E8; zbool; [apply runs_ret, shows6_nothing; unfold ours6, other6; lia|].
  apply (runs_or_undef _ (byte_at b 0)); [apply (rd8_at b 0); lia|].
  destruct (_ =? ICMP6_ECHO_REPLY) eqn:Er; zbool.
  - apply (runs_or_undef _ (at16 b 4)); [apply (rd16_at b 4); lia|].
    destruct (_ =? pid) eqn:Ei; zbool; cbn [negb]; [|apply runs_ret, shows6_nothing; unfold ours6, other6; tauto].
    destruct (n <? 16) eqn:E16; zbool; [apply runs_ret, shows6_nothing; unfold ours6, other6; lia|].
    assert (ours6 b n) as Ho by done.
    change (reply_time e b 8 t) with (reply_time e b (Z.of_nat 8) t). rewrite reply_time_at by lia.
    destruct (age b 8 t) as [tv|] eqn:Ea; cbn [fmap option_fmap option_map].
    2:{ apply runs_none; [done|]. split; [done|]. split; [done|]. by left. }
    apply (runs_or_undef _ (rtt_ms tv)); [done|]. cbv zeta. apply runs_from; [done|intros Hodd; split; [done|]; split; [done|]; right; split; [by left|done]|].
    intros from w1 Hf. apply (runs_or_undef _ (at16 b 6)); [apply (rd16_at b 6); lia|].
    apply runs_out; [done|]. intros w2.
    pose proof (shows6_reply b n msg sarecv t from tv Ho Hf Ea) as Hshow. unfold reply_lines6 in Hshow.
    destruct (_ =? -1); (apply runs_out; [done|]; intros w3; by apply runs_stdout).
  - assert (~ ours6 b n) as Hno by (unfold ours6; tauto).
    destruct (verbose =? 0) eqn:Ev; zbool; cbn [negb]; [by apply runs_ret, shows6_nothing|].
    assert (other6 b n) as Ho by done.
    apply runs_from; [done|intros Hodd; split; [done|]; split; [done|]; right; split; [by right|done]|].
    intros from w1 Hf. apply (runs_or_undef _ (byte_at b 1)); [apply (rd8_at b 1); lia|].
    apply runs_stdout. by apply shows6_type.
Qed.
End Shows.

(** ** A reply shows the time since its request *)

Section Reply.
Context (e : endian).

Lemma byte_at_app_r l l' i : byte_at (l ++ l') (length l + i) = byte_at l' i.
Proof. unfold byte_at. rewrite app_nth2 by lia. f_equal. lia. Qed.
Lemma at16_stored l v l' i : word v -> i = length l -> at16 e (l ++ store16 e v ++ l') i = v.
Proof.
  intros Hv ->. destruct (load_store e v Hv) as (b0 & b1 & -> & _ & _ & Hl). unfold at16.
  replace (byte_at _ (length l)) with b0 by (rewrite <- (Nat.add_0_r (length l)); by rewrite byte_at_app_r).
  replace (byte_at _ (S (length l))) with b1 by (rewrite <- (Nat.add_1_r (length l)); by rewrite byte_at_app_r).
  exact Hl.
Qed.
Lemma age_stored l tv l' i t :
  is_long tv.1 -> is_long tv.2 -> i = length l -> age e (l ++ store_timeval e tv ++ l') i t = tv_sub t tv.
Proof.
  intros H1 H2 ->. unfold age. rewrite drop_app_length, take_app_length' by (by rewrite length_store_timeval).
  by rewrite load_store_timeval.
Qed.

(** The fields of a request that comes back behind [ip]. *)
Lemma request_fields ip type id seq ck tv rest t :
  let b := ip ++ icmp_request e type id seq ck tv ++ rest in
  word id -> word seq -> length ck = 2%nat -> is_long tv.1 -> is_long tv.2 ->
  byte_at b (length ip) = type /\ at16 e b (length ip + 4) = id /\ at16 e b (length ip + 6) = seq /\
  age e b (length ip + 8) t = tv_sub t tv.
Proof.
  intros b Hid Hseq Hck H1 H2. subst b. unfold icmp_request.
  set (pad := replicate _ _). assert (length (store16 e id) = 2%nat /\ length (store16 e seq) = 2%nat) as [Li Ls]
    by (by destruct e).
  split_and!.
  - rewrite <- (Nat.add_0_r (length ip)) at 1. by rewrite byte_at_app_r.
  - rewrite <- !app_assoc, (app_assoc ip), (app_assoc _ ck). apply at16_stored; [done|].
    rewrite !length_app, Hck. simpl. lia.
  - rewrite <- !app_assoc, (app_assoc ip), (app_assoc _ ck), (app_assoc _ (store16 e id)). apply at16_stored; [done|].
    rewrite !length_app, Hck, Li. simpl. lia.
  - rewrite <- !app_assoc, (app_assoc ip), (app_assoc _ ck), (app_assoc _ (store16 e id)), (app_assoc _ (store16 e seq)).
    apply age_stored; [done|done|]. rewrite !length_app, Hck, Li, Ls. simpl. lia.
Qed.

Lemma text_of_inj l t1 t2 : text_of l t1 -> text_of l t2 -> t1 = t2.
Proof. intros (s1 & H1 & H2) (s2 & H3 & H4). congruence. Qed.
Lemma proper_long tv : proper tv -> is_long tv.1 /\ is_long tv.2.
Proof. unfold proper, is_long. lia. Qed.

(** Behind an IP header of the length it announces. *)
Lemma reply4_shows verbose pid ip ck seq tv old sarecv from t ev :
  let d := icmp_request e ICMP_ECHOREPLY pid seq ck tv in
  word pid -> word seq -> length ck = 2%nat -> length ip = hlen ip -> (20 <= length ip)%nat ->
  byte_at ip 9 = IPPROTO_ICMP -> proper tv -> proper t -> text_of sarecv from ->
  shows4 e verbose pid (overlay (ip ++ d) old) (Z.of_nat (length (ip ++ d))) sarecv t ev ->
  exists rtt, micros rtt = micros t - micros tv /\ 0 <= rtt.2 < 1000000 /\
    ev = prints [reply_line4 64 from seq (byte_at ip 8) (rtt_ms rtt)].
Proof.
  intros d Hpid Hseq Hck Hip H20 Hicmp Htv Ht Hfrom. destruct (proper_long tv Htv) as [L1 L2].
  destruct (tv_sub_proper t tv Ht Htv) as (rtt & Hrtt & Hm & Hr).
  assert (length d = 64%nat) as Hd by (by apply length_icmp_request).
  unfold overlay. rewrite <- app_assoc. set (rest := drop _ old).
  destruct (request_fields ip ICMP_ECHOREPLY pid seq ck tv rest t Hpid Hseq Hck L1 L2) as (F0 & F4 & F6 & F8).
  fold d in F0, F4, F6, F8. set (b := ip ++ d ++ rest) in *.
  assert (forall i, (i < length ip)%nat -> byte_at b i = byte_at ip i) as Hb
    by (intros i Hi; unfold byte_at, b; by rewrite app_nth1).
  assert (hlen b = length ip) as Hh by (rewrite Hip; unfold hlen; by rewrite Hb by lia).
  replace (Z.of_nat (length (ip ++ d))) with (Z.of_nat (length ip) + 64) by (rewrite length_app; lia).
  assert (ours4 e pid b (Z.of_nat (length ip) + 64)) as Ho.
  { unfold ours4, is_icmp4. rewrite Hh, F0, F4, Hb by lia. repeat split; try done; lia. }
  intros Hs. destruct Hs as [from' rtt' _ Hf Ha|from' [_ Hne] _ _|Hno _]; [|by rewrite Hh in Hne|done].
  rewrite Hh in *. rewrite F8, Hrtt in Ha. injection Ha as <-. rewrite F6, (text_of_inj _ _ _ Hf Hfrom), Hb by lia.
  exists rtt. split; [done|]. split; [done|]. by replace (_ - _) with 64 by lia.
Qed.

Lemma reply6_shows verbose pid ck seq tv old msg sarecv from t ev :
  let d := icmp_request e ICMP6_ECHO_REPLY pid seq ck tv in
  word pid -> word seq -> length ck = 2%nat -> proper tv -> proper t -> text_of sarecv from ->
  shows6 e verbose pid (overlay d old) (Z.of_nat (length d)) msg sarecv t ev ->
  exists rtt, micros rtt = micros t - micros tv /\ 0 <= rtt.2 < 1000000 /\
    ev = prints (reply_lines6 64 from seq (find_hlim msg) (rtt_ms rtt)).
Proof.
  intros d Hpid Hseq Hck Htv Ht Hfrom. destruct (proper_long tv Htv) as [L1 L2].
  destruct (tv_sub_proper t tv Ht Htv) as (rtt & Hrtt & Hm & Hr).
  assert (length d = 64%nat) as Hd by (by apply length_icmp_request).
  rewrite Hd. unfold overlay. set (rest := drop _ old).
  destruct (request_fields [] ICMP6_ECHO_REPLY pid seq ck tv rest t Hpid Hseq Hck L1 L2) as (F0 & F4 & F6 & F8).
  fold d in F0, F4, F6, F8. cbn [app length Nat.add] in *. set (b := d ++ rest) in *.
  assert (ours6 e pid b 64) as Ho by done.
  intros Hs. change (Z.of_nat 64) with 64 in Hs.
  destruct Hs as [from' rtt' _ Hf Ha|from' [_ Hne] _ _|Hno _]; [|done|done].
  rewrite F8, Hrtt in Ha. injection Ha as <-. rewrite F6, (text_of_inj _ _ _ Hf Hfrom).
  exists rtt. done.
Qed.
End Reply.

(** ** The loop: requests when the alarm interrupts, lines for the packets in between *)

(** Nothing on standard output. *)
Definition mute (c : call) : Prop := match c with CStdout _ => False | _ => True end.
Lemma reports_mute rep : only is_report rep -> only mute rep.
Proof. apply only_mono. by intros []. Qed.

Section Session.
Context (e : endian) (v6 : bool) (verbose pid fd : Z) (to buf0 : list Z).

Definition proto_of : proto := if v6 then proto_v6 e verbose pid else proto_v4 e verbose pid.
Definition shows (b : list Z) (n : Z) (msg : list cmsghdr) (sarecv : list Z) (t : timeval) (ev : list event) : Prop :=
  if v6 then shows6 e verbose pid b n msg sarecv t ev else shows4 e verbose pid b n sarecv t ev.
Definition show_risk (b : list Z) (n : Z) (sarecv : list Z) (t : timeval) : Prop :=
  if v6 then proc_risk verbose (ours6 e pid b n) (other6 b n) (age e b 8 t) sarecv
  else proc_risk verbose (ours4 e pid b n) (other4 b n) (age e b (hlen b + 8) t) sarecv.

(** Request number [k] and the next alarm. *)
Definition requested (k : Z) (ev : list event) : Prop :=
  exists a d s al, ev = [(CGettimeofday, a); (CSendto fd d to, s); (CAlarm 1, al)] /\
    0 <= a_ret a /\ a_ret s = Z.of_nat (length d) /\ is_request e v6 pid k (timeval_of a) d.

Definition arrived (st : ping_state) (r : answer) : ping_state :=
  PingState (nsent st) (overlay (msg_bytes r) (recvbuf st)) (overlay (msg_name (length to) r) (sarecv st)).
Definition recvmsg_call : call := libc "recvmsg" [fd; 0] [].
Definition shown (st : ping_state) (r a : answer) (ev : list event) : Prop :=
  shows (recvbuf st) (Z.of_nat (length (msg_bytes r))) (msg_control r) (sarecv st) (timeval_of a) ev.

Inductive pinging : ping_state -> list event -> Prop :=
| pinging_first ev : requested 0 ev -> pinging (PingState 1 buf0 (replicate (length to) 0)) ev
| pinging_alarm st evs r ev :
    pinging st evs -> a_ret r < 0 -> a_err r = EINTR -> nsent st < INT_MAX -> requested (nsent st) ev ->
    pinging (PingState (nsent st + 1) (recvbuf st) (sarecv st)) (evs ++ (recvmsg_call, r) :: ev)
| pinging_packet st evs r a ev :
    pinging st evs -> 0 <= a_ret r -> 0 <= a_ret a -> shown (arrived st r) r a ev ->
    pinging (arrived st r) (evs ++ (recvmsg_call, r) :: (CGettimeofday, a) :: ev).

(** Where it ends after [st]: nothing more is shown; undefined behaviour is
    the overflow of the count, and what [show_risk] says. *)
Definition ping_cut (st : ping_state) (h : halt) (ev : list event) : Prop :=
  stopped h /\ only mute ev \/
  h = Undefined /\
  ((exists r, ev = [(recvmsg_call, r)] /\ a_err r = EINTR /\ nsent st = INT_MAX) \/
   exists r a, ev = [(recvmsg_call, r); (CGettimeofday, a)] /\ 0 <= a_ret r /\
     show_risk (recvbuf (arrived st r)) (Z.of_nat (length (msg_bytes r))) (sarecv (arrived st r)) (timeval_of a)).

Lemma fproc_runs b n msg sarecv t w :
  length b = Z.to_nat BUFSIZE -> 0 <= n <= BUFSIZE -> bytes sarecv ->
  runs (fproc proto_of b n msg sarecv t) (fun _ => shows b n msg sarecv t)
    (fun h ev => h = Undefined /\ ev = [] /\ show_risk b n sarecv t) w.
Proof. intros. unfold proto_of, shows, show_risk. destruct v6; [by apply proc_v6_runs|by apply proc_v4_runs]. Qed.

(** A function that only sends and shows nothing ends so, or with the count too high. *)
Definition not_sent (k : Z) (h : halt) (ev : list event) : Prop :=
  stopped h /\ only mute ev \/ h = Undefined /\ ev = [] /\ k = INT_MAX.

Lemma runs_next_sent {B} k (f : Z -> M B) (Q : B -> list event -> Prop) (H : halt -> list event -> Prop) w :
  k <= INT_MAX -> (k = INT_MAX -> H Undefined []) -> (k < INT_MAX -> forall w', runs (f (k + 1)) Q H w') ->
  runs (next_sent k ≫= f) Q H w.
Proof.
  intros Hk HU Hf. unfold next_sent. destruct (k <? INT_MAX) eqn:E; zbool.
  - apply runs_bind, runs_ret. intros w1. by apply Hf.
  - apply (runs_halted Undefined), HU. lia.
Qed.

(** The datagram [d a] for the time [a], the next alarm, and the count. *)
Lemma runs_send_and_alarm n d w :
  (forall a, is_request e v6 pid (n - 1) (timeval_of a) (d (timeval_of a))) ->
  runs (tv ← Gettimeofday; Sendto fd (d (timeval_of tv)) to ;; kernel (CAlarm 1) ;; mret n)
    (fun n' ev => n' = n /\ requested (n - 1) ev) (fun h ev => stopped h /\ only mute ev) w.
Proof.
  intros Hd. assert (forall h ev, stopped h -> only mute ev -> stopped h /\ only mute ev) as Hcut by done.
  eapply runs_wraps; [apply Gettimeofday_wraps|apply Hcut; [by left|done]| |].
  { intros a rep _ Hrep. apply Hcut; [by right|]. constructor; [done|by apply reports_mute]. }
  intros a w1 Ha. unfold succeeded in Ha. set (x := normalise CGettimeofday a) in *. cbn [id].
  eapply runs_wraps; [apply Sendto_wraps|apply Hcut; [by left|by repeat constructor]| |].
  { intros s rep _ Hrep. apply Hcut; [by right|]. repeat (constructor; [done|]). by apply reports_mute. }
  intros s w2 Hs. unfold returned in Hs. apply runs_call; [done|apply Hcut; [by left|by repeat constructor]|].
  intros al w3. cbv zeta. intros _. apply runs_ret. split; [done|].
  eexists _, _, _, _. split; [reflexivity|]. split; [done|]. split; [exact Hs|apply Hd].
Qed.

Lemma sig_alrm_runs k w :
  word pid -> k <= INT_MAX ->
  runs (sig_alrm proto_of fd k to) (fun n ev => n = k + 1 /\ k < INT_MAX /\ requested k ev) (not_sent k) w.
Proof.
  intros Hpid Hk.
  assert (forall d, k < INT_MAX -> (forall tv, is_request e v6 pid k tv (d tv)) -> forall w1,
    runs (tv ← Gettimeofday; Sendto fd (d (timeval_of tv)) to ;; kernel (CAlarm 1) ;; mret (k + 1))
      (fun n ev => n = k + 1 /\ k < INT_MAX /\ requested k ev) (not_sent k) w1) as Hsend.
  { intros d Hlt Hd w1. eapply runs_mono; [apply (runs_send_and_alarm (k + 1) d)| |].
    - intros a. rewrite Z.add_simpl_r. apply Hd.
    - intros n ev [-> Hr]. by rewrite Z.add_simpl_r in Hr.
    - intros h ev Hh. by left. }
  unfold sig_alrm, proto_of. pose proof (u16_range k) as Hu. destruct v6; cbn [fsend proto_v4 proto_v6].
  - apply (runs_ext _ (next_sent k ≫= fun n => tv ← Gettimeofday;
      Sendto fd (icmp_request e ICMP6_ECHO_REQUEST pid (u16 k) [0; 0] (timeval_of tv)) to ;; kernel (CAlarm 1) ;; mret n)).
    { unfold send_v6, mbind, M_bind. destruct (next_sent k w) as [[n|] w1]; [|done].
      destruct (Gettimeofday w1) as [[a|] w2]; [|done]. by destruct (Sendto _ _ _ w2) as [[[]|] w3]. }
    apply runs_next_sent; [done|by right|]. intros Hlt w1.
    apply (Hsend (fun tv => icmp_request e ICMP6_ECHO_REQUEST pid (u16 k) [0; 0] tv)); [done|]. intros tv. by exists [0; 0].
  - pose (ck := fun tv => default 0 (in_cksum e (icmp_request e ICMP_ECHO pid (u16 k) [0; 0] tv) 64)).
    assert (forall tv, in_cksum e (icmp_request e ICMP_ECHO pid (u16 k) [0; 0] tv) 64 = Some (ck tv) /\
      in_cksum e (icmp_request e ICMP_ECHO pid (u16 k) (store16 e (ck tv)) tv) 64 = Some 0) as Hck.
    { intros tv. destruct (request_cksum e ICMP_ECHO pid (u16 k) tv) as (v & Hv & _ & H0); [done|done|done|].
      unfold ck. rewrite Hv. done. }
    apply (runs_ext _ (next_sent k ≫= fun n => tv ← Gettimeofday;
      Sendto fd (icmp_request e ICMP_ECHO pid (u16 k) (store16 e (ck (timeval_of tv))) (timeval_of tv)) to ;;
      kernel (CAlarm 1) ;; mret n)).
    { unfold send_v4, mbind, M_bind. destruct (next_sent k w) as [[n|] w1]; [|done].
      destruct (Gettimeofday w1) as [[a|] w2]; [|done]. change (8 + datalen) with 64.
      rewrite (proj1 (Hck (timeval_of a))). cbn [or_undef]. unfold mret, M_ret. by destruct (Sendto _ _ _ w2) as [[[]|] w3]. }
    apply runs_next_sent; [done|by right|]. intros Hlt w1.
    apply (Hsend (fun tv => icmp_request e ICMP_ECHO pid (u16 k) (store16 e (ck tv)) tv)); [done|].
    intros tv. exists (store16 e (ck tv)). split; [by destruct e|]. split; [done|]. apply Hck.
Qed.

(** The invariant: the buffer has its size, the address holds bytes. *)
Definition st_ok (st : ping_state) : Prop :=
  nsent st <= INT_MAX /\ length (recvbuf st) = Z.to_nat BUFSIZE /\ bytes (sarecv st).

Lemma bytes_overlay new old : bytes new -> bytes old -> bytes (overlay new old).
Proof. intros Hn Ho. apply bytes_app. split; [done|]. unfold bytes in *. by apply Forall_drop. Qed.
Lemma msg_bytes_length r : 0 <= Z.of_nat (length (msg_bytes r)) <= BUFSIZE.
Proof. unfold msg_bytes, BUFSIZE. rewrite length_map, length_take. lia. Qed.
Lemma arrived_ok st r : st_ok st -> st_ok (arrived st r).
Proof.
  intros (H1 & H2 & H3). split; [done|]. split; cbn [arrived recvbuf sarecv].
  - rewrite overlay_length; [done|]. pose proof (msg_bytes_length r). unfold BUFSIZE in *. lia.
  - apply bytes_overlay; [|done]. unfold msg_name. destruct (a_wdata r); [constructor|apply bytes_u8].
Qed.

Lemma readloop_body_runs st evs w :
  word pid -> st_ok st -> pinging st evs ->
  runs (readloop_body proto_of fd to st)
    (fun r ev => match r with inl st' => (0 < waits ev)%nat /\ pinging st' (evs ++ ev) /\ st_ok st' | inr _ => False end)
    (fun h ev => ping_cut st h ev) w.
Proof.
  intros Hpid Hok Hp. unfold readloop_body. fold recvmsg_call.
  assert (forall h ev, stopped h -> only mute ev -> ping_cut st h ev) as Hcut by (intros; by left).
  apply runs_call; [done|apply Hcut; [by left|done]|]. intros r0 w1 r _.
  destruct (a_ret r <? 0) eqn:Er; zbool.
  - destruct (a_err r =? EINTR) eqn:Ee; zbool.
    + apply runs_bind. eapply runs_mono; [apply sig_alrm_runs; [done|apply Hok]| |].
      * intros n ev (-> & Hlt & Hr) w2. apply runs_ret. rewrite app_nil_r. split; [simpl; lia|]. split; [by apply pinging_alarm|].
        destruct Hok as (H1 & H2 & H3). split; [cbn [nsent]; lia|by split].
      * intros h ev [[Hh Hm]|(-> & -> & Hk)]; [apply Hcut; [done|by constructor]|].
        right. split; [done|]. left. by exists r.
    + apply runs_err_sys. intros rep Hrep. apply Hcut; [by right|]. constructor; [done|by apply reports_mute].
  - cbv zeta. fold (arrived st r). pose proof (arrived_ok st r Hok) as Hok2. pose proof Hok2 as (H1 & H2 & H3).
    eapply runs_wraps; [apply Gettimeofday_wraps|apply Hcut; [by left|by repeat constructor]| |].
    { intros a rep _ Hrep. apply Hcut; [by right|]. repeat (constructor; [done|]). by apply reports_mute. }
    intros a w2 Ha. unfold succeeded in Ha. set (x := normalise CGettimeofday a) in *. cbn [id].
    apply runs_bind. eapply runs_mono; [apply fproc_runs; [done|apply msg_bytes_length|done]| |].
    + intros [] ev Hs w3. apply runs_ret. rewrite app_nil_r. split; [simpl; lia|]. split; [|done].
      by apply pinging_packet.
    + intros h ev (-> & -> & Hr). right. split; [done|]. right. exists r, x. split; [done|]. split; [lia|done].
Qed.

(** The calls before the first request: the privileges are dropped before anything is sent. *)
Definition ready (family : Z) (ev : list event) : Prop :=
  exists s uid a fs b, 0 <= a_ret s /\ a_ret s = fd /\ fs.*1 =
    (if v6 then (if verbose =? 0 then [CSetsockopt fd IPPROTO_IPV6 ICMP6_FILTER
        (filter_bytes e (ICMP6_FILTER_SETPASS ICMP6_ECHO_REPLY ICMP6_FILTER_SETBLOCKALL))] else []) ++
      [CSetsockopt fd IPPROTO_IPV6 IPV6_RECVHOPLIMIT (store32 e 1)] else []) /\
    ev = [(CSocket family SOCK_RAW (if v6 then IPPROTO_ICMPV6 else IPPROTO_ICMP), s); (libc "getuid" [] [], uid);
          (libc "setuid" [a_ret uid] [], a)] ++ fs ++ [(CSetsockopt fd SOL_SOCKET SO_RCVBUF (store32 e (60 * 1024)), b)].
End Session.

(** From the socket on. *)
Definition ping_session e (v6 : bool) (verbose pid family : Z) (to buf0 : list Z) (h : halt) (ev : list event) : Prop :=
  stopped h /\ only mute ev \/
  exists fd st ev0 ev1 ev2, ready e v6 verbose fd family ev0 /\ pinging e v6 verbose pid fd to buf0 st ev1 /\
    ping_cut e v6 verbose pid fd to st h ev2 /\ ev = ev0 ++ ev1 ++ ev2.

Lemma runs_mute_call {B} c (f : answer -> M B) (Q : B -> list event -> Prop) (H : halt -> list event -> Prop) w :
  is_output c = false -> (forall h, stopped h -> H h []) ->
  (forall a w', let x := normalise c a in
     runs (f x) (fun b ev => Q b ((c, x) :: ev)) (fun h ev => H h ((c, x) :: ev)) w') -> runs (kernel c ≫= f) Q H w.
Proof. intros Hc HB Hf. apply runs_call; [done|apply HB; by left|]. intros a w1. cbv zeta. intros _. apply Hf. Qed.

Lemma init_v6_runs e verbose fd w :
  runs (init_v6 e verbose fd)
    (fun _ fs => fs.*1 = (if verbose =? 0 then [CSetsockopt fd IPPROTO_IPV6 ICMP6_FILTER
        (filter_bytes e (ICMP6_FILTER_SETPASS ICMP6_ECHO_REPLY ICMP6_FILTER_SETBLOCKALL))] else []) ++
      [CSetsockopt fd IPPROTO_IPV6 IPV6_RECVHOPLIMIT (store32 e 1)])
    (fun h ev => stopped h /\ only mute ev) w.
Proof.
  unfold init_v6. assert (forall h ev, stopped h -> only mute ev -> stopped h /\ only mute ev) as Hcut by done.
  apply runs_bind. destruct (verbose =? 0).
  - apply runs_mute_call; [done|intros; by apply Hcut|]. intros a w1 x. apply runs_ret. intros w2.
    apply runs_mute_call; [done|intros; apply Hcut; [done|by repeat constructor]|]. intros b w3 y. by apply runs_ret.
  - apply runs_ret. intros w2. apply runs_mute_call; [done|intros; by apply Hcut|]. intros b w3 y. by apply runs_ret.
Qed.

Lemma readloop_runs e (v6 : bool) verbose pid family to buf0 w :
  word pid -> length buf0 = Z.to_nat BUFSIZE ->
  runs (readloop e (proto_of e v6 verbose pid) family to buf0) (fun _ _ => False)
    (ping_session e v6 verbose pid family to buf0) w.
Proof.
  intros Hpid Hb. unfold readloop.
  assert (forall h ev, stopped h -> only mute ev -> ping_session e v6 verbose pid family to buf0 h ev) as Hcut
    by (intros; by left).
  replace (icmpproto (proto_of e v6 verbose pid)) with (if v6 then IPPROTO_ICMPV6 else IPPROTO_ICMP) by (by destruct v6).
  eapply runs_wraps; [apply Socket_wraps|apply Hcut; [by left|done]| |].
  { intros a rep _ Hrep. apply Hcut; [by right|]. constructor; [done|by apply reports_mute]. }
  intros s w1 Hs. unfold succeeded in Hs. set (sock := normalise _ s) in *. set (fd := a_ret sock) in *.
  apply runs_mute_call; [done|intros; apply Hcut; [done|by repeat constructor]|]. intros a w2 uid.
  apply runs_mute_call; [done|intros; apply Hcut; [done|by repeat constructor]|]. intros a2 w3 set.
  pose (pre := [(CSocket family SOCK_RAW (if v6 then IPPROTO_ICMPV6 else IPPROTO_ICMP), sock);
    (libc "getuid" [] [], uid); (libc "setuid" [a_ret uid] [], set)] : list event).
  apply runs_bind. eapply (runs_mono _ (fun _ fs => fs.*1 = if v6 then (if verbose =? 0 then [CSetsockopt fd IPPROTO_IPV6 ICMP6_FILTER
        (filter_bytes e (ICMP6_FILTER_SETPASS ICMP6_ECHO_REPLY ICMP6_FILTER_SETBLOCKALL))] else []) ++
      [CSetsockopt fd IPPROTO_IPV6 IPV6_RECVHOPLIMIT (store32 e 1)] else []) _ (fun h ev => stopped h /\ only mute ev)).
  { unfold proto_of. destruct v6; cbn [finit proto_v4 proto_v6]; [apply init_v6_runs|by apply runs_ret]. }
  2:{ intros h ev [Hh Hm]. apply Hcut; [done|]. by repeat (constructor; [done|]). }
  intros [] fs Hfs w4.
  assert (only mute fs) as Hmf.
  { unfold only. rewrite <- (Forall_fmap fst mute), Hfs. destruct v6; [destruct (verbose =? 0)|]; repeat constructor. }
  apply runs_mute_call; [done| |].
  { intros h Hh. apply Hcut; [done|]. repeat (constructor; [done|]). apply only_app. split; [done|constructor]. }
  intros b w5 rcv. set (last := (CSetsockopt fd SOL_SOCKET SO_RCVBUF (store32 e (60 * 1024)), rcv) : event).
  assert (ready e v6 verbose fd family (pre ++ fs ++ [last])) as Hready.
  { exists sock, uid, set, fs, rcv. done. }
  assert (only mute (pre ++ fs ++ [last])) as Hmp.
  { repeat (constructor; [done|]). apply only_app. split; [done|by repeat constructor]. }
  apply runs_bind. eapply runs_mono; [apply sig_alrm_runs; [done|unfold INT_MAX; lia]| |].
  2:{ intros h ev [[Hh Hm]|(_ & _ & Hk)]; [|by unfold INT_MAX in Hk].
      change (ping_session e v6 verbose pid family to buf0 h (pre ++ fs ++ last :: ev)). apply Hcut; [done|].
      replace (pre ++ fs ++ last :: ev) with ((pre ++ fs ++ [last]) ++ ev) by (by rewrite <- !app_assoc). by apply only_app. }
  intros n ev1 (-> & _ & Hr) w6.
  apply (runs_loop _ (fun st ev => pinging e v6 verbose pid fd to buf0 st (ev1 ++ ev) /\ st_ok st)).
  - rewrite app_nil_r. split; [by apply pinging_first|]. split; [unfold INT_MAX; simpl; lia|]. split; [done|].
    cbn [sarecv]. unfold bytes. apply Forall_replicate. unfold byte. lia.
  - intros st ev w7 [Hp Hok]. eapply runs_mono; [by apply readloop_body_runs| |].
    + intros [st'|[]] ev2. intros (Hw & H1 & H2). split; [done|]. by rewrite app_assoc.
    + intros h ev2 Hc. right. exists fd, st, (pre ++ fs ++ [last]), (ev1 ++ ev), ev2.
      split; [exact Hready|]. split; [exact Hp|]. split; [exact Hc|]. unfold pre. cbn [app]. by rewrite <- !app_assoc.
Qed.

(** ** From the host's name to the protocol: the same in ping and traceroute *)

(** The handler is set and the resolver asked once; a list is never empty.
    [K] is what follows with the first address and its text. *)
Definition resolved (handler : Z) (host : list Z) (K : addrinfo -> list Z -> halt -> list event -> Prop)
    (h : halt) (ev : list event) : Prop :=
  stopped h /\ only mute ev \/
  exists s a rest,
    ev = (libc "sigaction" [SIGALRM; handler; SA_INTERRUPT] [], s) :: (host_serv_asked (Some host) None 0 0, a) :: rest /\
    (a_ret a <> 0 /\ stopped h /\ only plain rest \/
     a_ret a = 0 /\
     match answered a with
     | [] => h = Undefined /\ rest = []
     | ai :: _ =>
         odd_address (ai_addr ai) /\ h = Undefined /\ rest = [] \/
         exists text, text_of (ai_addr ai) text /\ K ai text h rest
     end).

(** An IPv4 address, or an IPv6 address that is not an IPv4-mapped one. *)
Definition by_family (S : bool -> halt -> list event -> Prop) (ai : addrinfo) (h : halt) (ev : list event) : Prop :=
  if ai_family ai =? AF_INET then S false h ev
  else if ai_family ai =? AF_INET6 then
    match is_v4mapped (ai_addr ai) with
    | None => h = Undefined /\ ev = []
    | Some true => usage_end h ev
    | Some false => S true h ev
    end
  else usage_end h ev.

Lemma runs_resolved handler host (k : addrinfo -> list Z -> M Empty_set) K w :
  (forall ai text w', text_of (ai_addr ai) text -> runs (k ai text) (fun _ _ => False) (K ai text) w') ->
  runs (Signal SIGALRM handler ;; res ← Host_serv (Some host) None 0 0; ai ← or_undef (head res);
        h ← Sock_ntop_host_of (ai_addr ai); k ai h) (fun _ _ => False) (resolved handler host K) w.
Proof.
  intros Hk. assert (forall h ev, stopped h -> only mute ev -> resolved handler host K h ev) as Hcut by (intros; by left).
  eapply runs_wraps; [apply Signal_wraps|apply Hcut; [by left|done]| |].
  { intros a rep _ Hrep. apply Hcut; [by right|]. constructor; [done|by apply reports_mute]. }
  cbn [Z.eqb SIGALRM]. intros s w1 _. apply runs_bind.
  destruct (host_serv_runs (Some host) None 0 0 w1) as [_ Hserv]. cbv zeta in Hserv.
  eapply runs_mono; [exact Hserv| |].
  2:{ intros h ev [[-> ->]|(a & rep & -> & Hp & Hends)]; [apply Hcut; [by left|by repeat constructor]|].
      right. eexists _, a, rep. split; [reflexivity|]. destruct Hends as [[Ha Hh]|(-> & Ha & -> & ->)]; [by left|by right]. }
  intros res ev (a & -> & Ha & Hres & Hne) w2. subst res.
  assert (Forall (fun ai => bytes (ai_addr ai)) (answered a)) as Hf by apply map_u8_addr.
  destruct (answered a) as [|ai res] eqn:Er; [done|]. inversion_clear Hf as [|? ? Hai _].
  apply (runs_or_undef _ ai); [done|].
  eapply (runs_mono _ (fun _ _ => False) _ (fun h rest => odd_address (ai_addr ai) /\ h = Undefined /\ rest = [] \/
      exists text, text_of (ai_addr ai) text /\ K ai text h rest)); [|done|].
  2:{ intros h rest Hr. right. eexists _, a, rest. split; [reflexivity|]. right. split; [done|]. by rewrite Er. }
  apply runs_from; [done|intros Hodd; by left|]. intros text w3 Ht.
  eapply runs_mono; [by apply Hk|done|]. intros h rest Hr. right. by exists text.
Qed.

Lemma runs_by_family {P} (p4 p6 : P) ai mapped unknown (k : P -> M Empty_set) (S : bool -> halt -> list event -> Prop) w :
  (forall v6 w', runs (k (if (v6 : bool) then p6 else p4)) (fun _ _ => False) (S v6) w') ->
  runs (pr ← (if ai_family ai =? AF_INET then mret p4
              else if ai_family ai =? AF_INET6 then
                m ← or_undef (is_v4mapped (ai_addr ai)); if (m : bool) then err_quit mapped else mret p6
              else err_quit unknown); k pr) (fun _ _ => False) (by_family S ai) w.
Proof.
  intros Hk. unfold by_family. destruct (ai_family ai =? AF_INET).
  { apply runs_bind, runs_ret. intros w1. apply (Hk false). }
  destruct (ai_family ai =? AF_INET6); [|apply runs_bind; eapply runs_mono; [apply runs_usage|by intros ? ? []|done]].
  destruct (is_v4mapped (ai_addr ai)) as [[|]|]; [| |by apply (runs_halted Undefined)].
  - apply runs_bind, (runs_or_undef _ true); [done|]. eapply runs_mono; [apply runs_usage|by intros ? ? []|done].
  - apply runs_bind, (runs_or_undef _ false), runs_ret; [done|]. intros w1. apply (Hk true).
Qed.

(** ** The program *)

Definition banner (ai : addrinfo) (text : list Z) : call :=
  CStdout (chars "PING " ++ default text (ai_canonname ai) ++ chars " (" ++ text ++ chars "): " ++ fmt_d datalen ++
           chars " data bytes" ++ newline).
Definition pinged e (buf0 : list Z) (v6 : bool) (verbose pid : Z) (addr : list Z) (h : halt) (ev : list event) : Prop :=
  stopped h /\ only mute ev \/
  exists c family ev', ev = (libc "calloc" [1; sockaddr_len addr] [], c) :: ev' /\
    sa_family <$> sa_of addr = Some family /\ ping_session e v6 verbose pid family addr buf0 h ev'.

(** The program with the one operand [host]. *)
Definition ping_host e (buf0 : list Z) (verbose : Z) (host : list Z) (h : halt) (ev : list event) : Prop :=
  stopped h /\ ev = [] \/
  exists p rest, ev = (libc "getpid" [] [], p) :: rest /\
    resolved Udp.sig_alrm host (fun ai text h ev => exists ev', ev = (banner ai text, ok 0) :: ev' /\
      by_family (fun v6 => pinged e buf0 v6 verbose (Z.land (a_ret p) 0xffff) (ai_addr ai)) ai h ev') h rest.
Definition times_v (os : list (Z * list Z)) : Z := Z.of_nat (length (filter (fun o => o.1 = 118) os)).
Definition ping_end e (buf0 : list Z) (argv : list (list Z)) (h : halt) (ev : list event) : Prop :=
  let '(os, operands) := getopt [(118, false)] (drop 1 argv) in
  if decide (question ∈ os.*1) then usage_end h ev
  else match operands with [host] => ping_host e buf0 (times_v os) host h ev | _ => usage_end h ev end.

Lemma runs_ping_options {B} os v (k : Z -> M B) (Q : B -> list event -> Prop) (H : halt -> list event -> Prop) w :
  (question ∈ os.*1 -> forall h ev, usage_end h ev -> H h ev) ->
  (question ∉ os.*1 -> forall w', runs (k (v + times_v os)) Q H w') -> runs (ping_options os v ≫= k) Q H w.
Proof.
  revert v. induction os as [|[c arg] os IH]; intros v HU Hk.
  - apply runs_bind, runs_ret. intros w1. change (v + times_v []) with (v + 0) in Hk. rewrite Z.add_0_r in Hk.
    apply Hk. by apply not_elem_of_nil.
  - cbn [ping_options]. destruct (c =? 118) eqn:Ev; zbool.
    + apply IH.
      * intros Hin. apply HU. by apply list_elem_of_further.
      * intros Hin w1. replace (v + 1 + times_v os) with (v + times_v ((c, arg) :: os)).
        -- apply Hk. cbn [fmap list_fmap fst]. intros [->%eq_sym|]%elem_of_cons; done.
        -- unfold times_v. rewrite filter_cons_True by done. simpl. lia.
    + destruct (c =? question) eqn:Eq; zbool.
      * apply runs_bind. eapply runs_mono; [apply runs_usage|by intros ? ? []|]. apply HU. subst. apply list_elem_of_here.
      * apply IH.
        -- intros Hin. apply HU. by apply list_elem_of_further.
        -- intros Hin w1. replace (times_v os) with (times_v ((c, arg) :: os)).
           ++ apply Hk. cbn [fmap list_fmap fst]. intros [|]%elem_of_cons; done.
           ++ unfold times_v. by rewrite filter_cons_False.
Qed.

Lemma pinged_runs e buf0 v6 verbose pid addr sa w :
  word pid -> length buf0 = Z.to_nat BUFSIZE -> sa_of addr = Some sa ->
  runs (Calloc 1 (sockaddr_len addr) ;; family ← or_undef (sa_family <$> sa_of addr);
        readloop e (proto_of e v6 verbose pid) family addr buf0) (fun _ _ => False)
    (pinged e buf0 v6 verbose pid addr) w.
Proof.
  intros Hpid Hb Hsa. eapply runs_wraps; [apply Calloc_wraps|left; split; [by left|done]| |].
  { intros a rep _ Hrep. left. split; [by right|]. constructor; [done|by apply reports_mute]. }
  intros c w1 _. apply (runs_or_undef _ (sa_family sa)); [by rewrite Hsa|].
  eapply runs_mono; [by apply readloop_runs|done|]. intros h ev Hs. right. eexists _, _, ev. split; [done|]. by rewrite Hsa.
Qed.

Lemma ping_main_runs e buf0 argv w :
  length buf0 = Z.to_nat BUFSIZE -> runs (ping_main e buf0 argv) (fun _ _ => False) (ping_end e buf0 argv) w.
Proof.
  intros Hb. unfold ping_main, ping_end. destruct (getopt _ _) as [os operands].
  apply runs_ping_options.
  { intros Hin h ev Hu. by rewrite decide_True. }
  intros Hin w1. rewrite Z.add_0_l. set (verbose := times_v os).
  eapply (runs_mono _ (fun _ _ => False) _ (fun h ev => match operands with [host] => ping_host e buf0 verbose host h ev | _ => usage_end h ev end));
    [|done|intros h ev Hh; by rewrite decide_False].
  destruct operands as [|host [|]]; [apply runs_usage| |apply runs_usage].
  apply runs_mute_call; [done|intros; by left|]. intros p0 w2 p.
  assert (word (Z.land (a_ret p) 0xffff)) as Hpid.
  { change 0xffff with (Z.ones 16). rewrite Z.land_ones by lia. apply Z.mod_pos_bound. lia. }
  eapply runs_mono; [apply runs_resolved|done|intros h rest Hr; right; exists p, rest; split; [done|exact Hr]].
  intros ai text w3 (sa & Hsa & _). apply runs_out; [done|]. intros w4.
  eapply runs_mono; [apply runs_by_family|done|intros h rest Hr; exists rest; split; [done|exact Hr]].
  intros v6 w5. by apply (pinged_runs e buf0 v6 verbose _ (ai_addr ai) sa).
Qed.

(** A reply to request number [seq], sent at [tv]: one line with the number and the time since [tv]. *)
Definition replies_timed e : Prop :=
  forall verbose pid ck seq tv old sarecv from t ev,
    word pid -> word seq -> length ck = 2%nat -> proper tv -> proper t -> text_of sarecv from ->
    (forall ip, length ip = hlen ip -> (20 <= length ip)%nat -> byte_at ip 9 = IPPROTO_ICMP ->
       let b := ip ++ icmp_request e ICMP_ECHOREPLY pid seq ck tv in
       shows4 e verbose pid (overlay b old) (Z.of_nat (length b)) sarecv t ev ->
       exists rtt, micros rtt = micros t - micros tv /\ 0 <= rtt.2 < 1000000 /\
         ev = prints [reply_line4 64 from seq (byte_at ip 8) (rtt_ms rtt)]) /\
    (forall msg, let b := icmp_request e ICMP6_ECHO_REPLY pid seq ck tv in
       shows6 e verbose pid (overlay b old) (Z.of_nat (length b)) msg sarecv t ev ->
       exists rtt, micros rtt = micros t - micros tv /\ 0 <= rtt.2 < 1000000 /\
         ev = prints (reply_lines6 64 from seq (find_hlim msg) (rtt_ms rtt))).

(** C37: ping.  It ends by itself only with status 1: an unknown option, a wrong
    number of operands, a host that does not resolve, an IPv4-mapped or other
    address, or a call that fails.  Otherwise it shows the host, gives up its
    privileges before anything is sent, and sends request 0; every
    alarm that interrupts [recvmsg] sends the request with the next number, with a
    checksum that verifies (IPv4), the process's identifier and the time, and
    sets the next alarm; every packet shows exactly what [shows4] or [shows6]
    says, whatever its length, its header length and its contents: no field is read
    outside of the buffer.  The
    only undefined behaviour is the overflow of the count of requests or of
    the difference of the times, and an address without a text.  The reply
    to a request shows its number and the time since it was sent. *)
Theorem ping_correct e buf0 argv w (Hbuf : length buf0 = Z.to_nat BUFSIZE) :
  runs (ping_main e buf0 argv) (fun _ _ => False) (ping_end e buf0 argv) w /\ replies_timed e.
Proof.
  split; [by apply ping_main_runs|]. intros verbose pid ck seq tv old sarecv from t ev ? ? ? ? ? ?.
  split.
  - intros ip Hip H20 Hicmp b Hs. by apply (reply4_shows e verbose pid ip ck seq tv old sarecv from t ev).
  - intros msg b Hs. by apply (reply6_shows e verbose pid ck seq tv old msg sarecv from t ev).
Qed.

Theorem ping_correct_witness :
  length (replicate 1500 0) = Z.to_nat BUFSIZE /\
  runs (ping_main Little (replicate 1500 0) [chars "ping"; chars "lo"]) (fun _ _ => False)
    (ping_end Little (replicate 1500 0) [chars "ping"; chars "lo"]) ping_world.
Proof.
  assert (length (replicate 1500 0) = Z.to_nat BUFSIZE) as H by (by rewrite length_replicate).
  split; [exact H|]. exact (proj1 (ping_correct Little (replicate 1500 0) [chars "ping"; chars "lo"] ping_world H)).
Defined.

(** A second reply of 16 bytes passes the test for "enough data" and holds only
    the seconds; the microseconds shown are those of the reply before. *)
Example ping_stale :
  let short := take 36 (reply_packet Little 4242 1 (1002, 0)) in
  let '(r, w) := ping_main Little (replicate 1500 0) [chars "ping"; chars "lo"]
    (world0 (script ping_world ++ [Ans 36 0 short lo_name; Ans 0 0 [1003; 750000] []])) in
  r = Halt Blocked /\
  drop 2 (displays (trace w)) = [chars "16 bytes from 127.0.0.1: seq=1, ttl=64, rtt=1250.000 ms" ++ newline].
Proof. by vm_compute. Qed.
