(* ===== verification/Trace.v ===== *)
(** * traceroute

    traceroute/main.c, traceloop.c, recv_v4.c, recv_v6.c, icmpcode_v4.c,
    icmpcode_v6.c and sig_alrm.c, with the fields, times and options of Icmp.v.

    The handler of SIGALRM sets [gotalarm]; it runs where [recvfrom] answers
    EINTR.  [recvbuf] and the addresses keep what earlier packets have
    left in them. *)

From Stdlib Require Import Floats.SpecFloat.
From S2P Require Import Prelude InetPton InetNtop Unix ErrorLib Wrap ReadWrite TcpEcho TcpCli Cksum SockAddr SockOpt Udp UdpServ Rtt NetConn Icmp Ping.

Implicit Types (e : endian).

(** ** trace.h and the system's constants *)

Definition sizeof_rec : Z := 24.
Definition dport : Z := 32768 + 666.
Definition nprobes : nat := 3.
Definition PROTO_UDP : Z := 17.
Definition IP_TTL : Z := 2.
Definition IPV6_UNICAST_HOPS : Z := 16.
Definition ICMP_UNREACH : Z := 3.
Definition ICMP_UNREACH_PORT : Z := 3.
Definition ICMP_TIMXCEED : Z := 11.
Definition ICMP_TIMXCEED_INTRANS : Z := 0.
Definition ICMP6_DST_UNREACH : Z := 1.
Definition ICMP6_DST_UNREACH_NOROUTE : Z := 0.
Definition ICMP6_DST_UNREACH_ADMIN : Z := 1.
Definition ICMP6_DST_UNREACH_NOTNEIGHBOR : Z := 2.
Definition ICMP6_DST_UNREACH_ADDR : Z := 3.
Definition ICMP6_DST_UNREACH_NOPORT : Z := 4.
Definition ICMP6_TIME_EXCEEDED : Z := 3.
Definition ICMP6_TIME_EXCEED_TRANSIT : Z := 0.
Definition sizeof_ip : Z := 20.
Definition sizeof_ip6_hdr : Z := 40.
Definition NI_MAXHOST : Z := 1025.

(** ** icmpcode_v4.c and icmpcode_v6.c *)

Definition unknown_code (code : Z) : list Z := chars "[unknown code " ++ fmt_d code ++ chars "]".
Definition icmpcode_v4 (code : Z) : list Z :=
  match code with
  | 0 => chars "network unreachable"
  | 1 => chars "host unreachable"
  | 2 => chars "protocol unreachable"
  | 3 => chars "port unreachable"
  | 4 => chars "fragmentation required but DF bit set"
  | 5 => chars "source route failed"
  | 6 => chars "destination network unknown"
  | 7 => chars "destination host unknown"
  | 8 => chars "source host isolated (obsolete)"
  | 9 => chars "destination network administratively prohibited"
  | 10 => chars "destination host administratively prohibited"
  | 11 => chars "network unreachable for TOS"
  | 12 => chars "host unreachable for TOS"
  | 13 => chars "communication administratively prohibited by filtering"
  | 14 => chars "host recedence violation"
  | 15 => chars "precedence cutoff in effect"
  | _ => unknown_code code
  end.
Definition icmpcode_v6 (code : Z) : list Z :=
  if code =? ICMP6_DST_UNREACH_NOROUTE then chars "no route to host"
  else if code =? ICMP6_DST_UNREACH_ADMIN then chars "administratively prohibited"
  else if code =? ICMP6_DST_UNREACH_NOTNEIGHBOR then chars "not a neighbor"
  else if code =? ICMP6_DST_UNREACH_ADDR then chars "address unreachable"
  else if code =? ICMP6_DST_UNREACH_NOPORT then chars "port unreachable"
  else unknown_code code.

(** ** State: the receive buffer, the peer's address and the last one of this ttl *)

Record trace_state : Type := TraceState { recvbuf : list Z; sarecv : list Z; salast : list Z }.

(** A packet is ignored, or ends the loop with [ret], which is [None] when it has no value. *)
Inductive recv_verdict : Type := Continue | Break (ret : option Z).

(** [gotalarm], set by the handler. *)
Definition sig_alrm : Z := 1.

(** [sock_set_port] on the bytes of an address. *)
Definition set_port e (addr : list Z) (port : Z) : option (list Z) :=
  match sa_of addr with
  | Some (SaIn _ _ | SaIn6 _ _ _ _) => Some (take 2 addr ++ store16 e (u16 port) ++ drop 4 addr)
  | Some _ => Some addr
  | None => None
  end.

(** [dport + seq] of an [int]. *)
Definition probe_port (seq : Z) : option Z := if dport + seq <=? INT_MAX then Some (dport + seq) else None.

Section Trace.
Context (e : endian) (verbose sport recvfd : Z).

Definition from_line (from : list Z) (type code : Z) : list Z :=
  chars " (from " ++ from ++ chars ": type = " ++ fmt_d type ++ chars ", code = " ++ fmt_d code ++ chars ")" ++ newline.

(** ** recv_v4.c: one packet *)

(** Does the message of [icmplen] bytes at [hlen1] quote the probe [seq]?  [None]: too short to tell.
    ([dport + seq] has been computed before, when the probe was sent.) *)
Definition quoted_v4 (hlen1 icmplen seq : Z) (b : list Z) : M (option bool) :=
  if icmplen <? 8 + sizeof_ip then mret None
  else
    ip_hl ← or_undef (rd8 b (hlen1 + 8));
    let hlen2 := 4 * Z.land ip_hl 15 in
    if icmplen <? 8 + hlen2 + 4 then mret None
    else
      let udp := hlen1 + 8 + hlen2 in
      ip_p ← or_undef (rd8 b (hlen1 + 8 + 9));
      uh_sport ← or_undef (rd16 e b udp);
      uh_dport ← or_undef (rd16 e b (udp + 2));
      mret (Some ((ip_p =? PROTO_UDP) && (uh_sport =? hton16 e sport) && (uh_dport =? hton16 e (u16 (dport + seq))))).

Definition noise (b sarecv : list Z) (icmp : Z) : M recv_verdict :=
  if negb (verbose =? 0) then
    from ← Sock_ntop_host_of sarecv;
    type ← or_undef (rd8 b icmp);
    code ← or_undef (rd8 b (icmp + 1));
    stdout (from_line from type code) ;;
    mret Continue
  else mret Continue.

Definition packet_v4 (seq : Z) (b sarecv : list Z) (n : Z) : M recv_verdict :=
  ip_hl ← or_undef (rd8 b 0);
  let hlen1 := 4 * Z.land ip_hl 15 in
  let icmplen := n - hlen1 in
  if icmplen <? 8 then mret Continue
  else
    type ← or_undef (rd8 b hlen1);
    code ← or_undef (rd8 b (hlen1 + 1));
    if (type =? ICMP_TIMXCEED) && (code =? ICMP_TIMXCEED_INTRANS) then
      quoted ← quoted_v4 hlen1 icmplen seq b;
      match quoted with
      | None => mret Continue
      | Some true => mret (Break (Some (-2)))
      | Some false => noise b sarecv hlen1
      end
    else if type =? ICMP_UNREACH then
      quoted ← quoted_v4 hlen1 icmplen seq b;
      match quoted with
      | None => mret Continue
      | Some true => mret (Break (Some (if code =? ICMP_UNREACH_PORT then -1 else code)))
      | Some false => noise b sarecv hlen1
      end
    else noise b sarecv hlen1.

(** ** recv_v6.c: one packet

    The [break] after the test of a time exceeded message is outside of the
    [if]: it ends the loop for every such message. *)

Definition quoted_v6 (icmp6len seq : Z) (b : list Z) : M (option bool) :=
  if icmp6len <? 8 + sizeof_ip6_hdr + 4 then mret None
  else
    let udp := 8 + sizeof_ip6_hdr in
    ip6_nxt ← or_undef (rd8 b (8 + 6));
    uh_sport ← or_undef (rd16 e b udp);
    uh_dport ← or_undef (rd16 e b (udp + 2));
    mret (Some ((ip6_nxt =? PROTO_UDP) && (uh_sport =? hton16 e sport) && (uh_dport =? hton16 e (u16 (dport + seq))))).

Definition packet_v6 (seq : Z) (b sarecv : list Z) (n : Z) : M recv_verdict :=
  let icmp6len := n in
  if icmp6len <? 8 then mret Continue
  else
    type ← or_undef (rd8 b 0);
    code ← or_undef (rd8 b 1);
    if (type =? ICMP6_TIME_EXCEEDED) && (code =? ICMP6_TIME_EXCEED_TRANSIT) then
      quoted ← quoted_v6 icmp6len seq b;
      match quoted with
      | None => mret Continue
      | Some true => mret (Break (Some (-2)))
      | Some false => mret (Break None)
      end
    else if type =? ICMP6_DST_UNREACH then
      quoted ← quoted_v6 icmp6len seq b;
      match quoted with
      | None => mret Continue
      | Some true => mret (Break (Some (if code =? ICMP6_DST_UNREACH_NOPORT then -1 else code)))
      | Some false => mret Continue
      end
    else noise b sarecv 0.

(** ** recv_v4.c and recv_v6.c around it

    [-3] on timeout; otherwise the value of [ret] and the time of arrival. *)

Definition arrived_at (st : trace_state) (a : answer) : trace_state :=
  TraceState (overlay (a_data a) (recvbuf st)) (overlay (take (length (sarecv st)) (sender a)) (sarecv st)) (salast st).

Definition recv_turn (packet : list Z -> list Z -> Z -> M recv_verdict) (s : Z * trace_state) :
    M ((Z * trace_state) + (option (option Z) * trace_state)) :=
  let '(gotalarm, st) := s in
  if negb (gotalarm =? 0) then mret (inr (None, st))
  else
    a ← kernel (CRecvfrom recvfd BUFSIZE 0);
    if a_ret a <? 0 then
      if a_err a =? EINTR then mret (inl (sig_alrm, st)) else err_sys (chars "recvfrom error")
    else
      let st := arrived_at st a in
      v ← packet (recvbuf st) (sarecv st) (a_ret a);
      match v with
      | Continue => mret (inl (gotalarm, st))
      | Break ret => mret (inr (Some ret, st))
      end.

Definition recv (packet : list Z -> list Z -> Z -> M recv_verdict) (st : trace_state) : M (Z * timeval * trace_state) :=
  kernel (CAlarm 3) ;;
  r ← loop (recv_turn packet) (0, st);
  match r with
  | (None, st) => mret (-3, (0, 0), st)
  | (Some ret, st) =>
      kernel (CAlarm 0) ;;
      tv ← Gettimeofday;
      ret ← or_undef ret;
      mret (ret, timeval_of tv, st)
  end.
Definition recv_v4 (seq : Z) : trace_state -> M (Z * timeval * trace_state) := recv (packet_v4 seq).
Definition recv_v6 (seq : Z) : trace_state -> M (Z * timeval * trace_state) := recv (packet_v6 seq).
End Trace.

(** ** struct proto *)

Record trace_proto : Type := TraceProto {
  icmpcode : Z -> list Z;
  precv : Z -> Z -> Z -> trace_state -> M (Z * timeval * trace_state);
  icmpproto : Z;
  ttllevel : Z;
  ttloptname : Z
}.
Definition proto_v4 e (verbose : Z) : trace_proto :=
  TraceProto icmpcode_v4 (recv_v4 e verbose) IPPROTO_ICMP IPPROTO_IP IP_TTL.
Definition proto_v6 e (verbose : Z) : trace_proto :=
  TraceProto icmpcode_v6 (recv_v6 e verbose) IPPROTO_ICMPV6 IPPROTO_IPV6 IPV6_UNICAST_HOPS.

(** ** traceloop.c *)

Section Loop.
Context (e : endian) (verbose : Z) (pr : trace_proto) (sport recvfd sendfd : Z) (sasend : list Z).

(** [struct rec], with four bytes of padding before the time. *)
Definition rec_bytes (seq ttl : Z) (tv : timeval) : list Z :=
  store16 e (u16 seq) ++ store16 e (u16 ttl) ++ replicate 4 0 ++ store_timeval e tv.

(** The name of a router that is not the one of the probe before. *)
Definition show_router (st : trace_state) : M trace_state :=
  this ← or_undef (sa_of (sarecv st));
  last ← or_undef (sa_of (salast st));
  if negb (sock_cmp_addr this last =? 0) then
    a ← kernel (libc "getnameinfo" [0] (sarecv st));
    from ← Sock_ntop_host_of (sarecv st);
    (if a_ret a =? 0
     then stdout (chars " " ++ c_string (map u8 (take (Z.to_nat NI_MAXHOST - 1) (a_data a))) ++ chars " (" ++ from ++ chars ")")
     else stdout (chars " " ++ from)) ;;
    mret (TraceState (recvbuf st) (sarecv st) (sarecv st))
  else mret st.

(** One probe: the number of the probe and what [done] becomes. *)
Definition probe (ttl seq done : Z) (st : trace_state) : M (Z * trace_state) :=
  now ← Gettimeofday;
  let tvsend := timeval_of now in
  port ← or_undef (probe_port seq);
  to ← or_undef (set_port e sasend (hton16 e (u16 port)));
  Sendto sendfd (rec_bytes seq ttl tvsend) to ;;
  '(code, tvrecv, st) ← precv pr sport recvfd seq st;
  if code =? -3 then
    stdout (chars " *") ;;
    output (CFflush STDOUT_FILENO) ;;
    mret (done, st)
  else
    st ← show_router st;
    tv ← or_undef (tv_sub tvrecv tvsend);
    stdout (chars "  " ++ fmt_f3 (rtt_ms tv) ++ chars " ms") ;;
    (if code =? -1 then mret ()
     else if 0 <=? code then stdout (chars " (ICMP " ++ icmpcode pr code ++ chars ")")
     else mret ()) ;;
    output (CFflush STDOUT_FILENO) ;;
    mret (if code =? -1 then done + 1 else done, st).

Fixpoint probes (n : nat) (ttl seq done : Z) (st : trace_state) : M (Z * Z * trace_state) :=
  match n with
  | O => mret (seq, done, st)
  | S n' =>
      '(done, st) ← probe ttl (seq + 1) done st;
      probes n' ttl (seq + 1) done st
  end.

Definition fmt_2d (z : Z) : list Z := let s := fmt_d z in replicate (2 - length s) 32 ++ s.

Record hop_state : Type := HopState { ttl : Z; seq : Z; done : Z; hop_st : trace_state }.

Definition trace_body (max_ttl : Z) (h : hop_state) : M (hop_state + unit) :=
  if (ttl h <=? max_ttl) && (done h =? 0) then
    Setsockopt sendfd (ttllevel pr) (ttloptname pr) (store32 e (ttl h)) ;;
    stdout (fmt_2d (ttl h) ++ chars " ") ;;
    output (CFflush STDOUT_FILENO) ;;
    let st := TraceState (recvbuf (hop_st h)) (sarecv (hop_st h)) (replicate (length sasend) 0) in
    '(seq, done, st) ← probes nprobes (ttl h) (seq h) (done h) st;
    stdout newline ;;
    mret (inl (HopState (ttl h + 1) seq done st))
  else mret (inr ()).
End Loop.

(** [gotalarm] is set by the call of the handler and cleared by the first [recv]. *)
Definition traceloop e (verbose max_ttl : Z) (pr : trace_proto) (sasend : list Z) : M unit :=
  family ← or_undef (sa_family <$> sa_of sasend);
  recvfd ← Socket family SOCK_RAW (icmpproto pr);
  uid ← kernel (libc "getuid" [] []);
  kernel (libc "setuid" [a_ret uid] []) ;;
  (if (family =? AF_INET6) && (verbose =? 0) then
     let myfilt := ICMP6_FILTER_SETPASS ICMP6_DST_UNREACH
                     (ICMP6_FILTER_SETPASS ICMP6_TIME_EXCEEDED ICMP6_FILTER_SETBLOCKALL) in
     kernel (CSetsockopt recvfd IPPROTO_IPV6 ICMP6_FILTER (filter_bytes e myfilt)) ;; mret ()
   else mret ()) ;;
  sendfd ← Socket family SOCK_DGRAM 0;
  p ← kernel (libc "getpid" [] []);
  let sport := Z.lor (Z.land (a_ret p) 0xffff) 0x8000 in
  sabind ← or_undef (set_port e (take 2 sasend ++ replicate (length sasend - 2) 0) (hton16 e sport));
  Bind sendfd sabind ;;
  let zeros := replicate (length sasend) 0 in
  loop (trace_body e pr sport recvfd sendfd sasend max_ttl)
    (HopState 1 0 0 (TraceState (replicate (Z.to_nat BUFSIZE) 0) zeros zeros)).

(** ** main.c *)

Fixpoint trace_options (os : list (Z * list Z)) (max_ttl verbose : Z) : M (Z * Z) :=
  match os with
  | [] => mret (max_ttl, verbose)
  | (c, optarg) :: os' =>
      if c =? 109 then
        if atoi optarg <=? 1 then err_quit (chars "invalid -m value") else trace_options os' (atoi optarg) verbose
      else if c =? 118 then trace_options os' max_ttl (verbose + 1)
      else if c =? question then err_quit (chars "unrecognized option: " ++ [c])
      else trace_options os' max_ttl verbose
  end.

Definition trace_main e (argv : list (list Z)) : M Empty_set :=
  let '(os, operands) := getopt [(109, true); (118, false)] (drop 1 argv) in
  '(max_ttl, verbose) ← trace_options os 30 0;
  match operands with
  | [host] =>
      kernel (libc "getpid" [] []) ;;
      Signal SIGALRM sig_alrm ;;
      res ← Host_serv (Some host) None 0 0;
      ai ← or_undef (head res);
      h ← Sock_ntop_host_of (ai_addr ai);
      stdout (chars "traceroute to " ++ default h (ai_canonname ai) ++ chars " (" ++ h ++ chars "): " ++ fmt_d max_ttl ++
              chars " hops max, " ++ fmt_d sizeof_rec ++ chars " data bytes" ++ newline) ;;
      pr ← (if ai_family ai =? AF_INET then mret (proto_v4 e verbose)
            else if ai_family ai =? AF_INET6 then
              mapped ← or_undef (is_v4mapped (ai_addr ai));
              if (mapped : bool) then err_quit (chars "cannot traceroute IPv4-mapped IPv6 address")
              else mret (proto_v6 e verbose)
            else err_quit (chars "unknown address family " ++ fmt_d (ai_family ai)));
      Calloc 1 (sockaddr_len (ai_addr ai)) ;;
      Calloc 1 (sockaddr_len (ai_addr ai)) ;;
      Calloc 1 (sockaddr_len (ai_addr ai)) ;;
      traceloop e verbose max_ttl pr (ai_addr ai) ;;
      exit 0
  | _ => err_quit (chars "usage: traceroute [ -m <maxttl> -v ] <hostname>")
  end.

(** One router, a lost probe, and the destination: with "-m 2". *)
Definition quoting (type code port : Z) : list Z :=
  [0x45; 0; 0; 56; 0; 0; 0; 0; 64; 1; 0; 0; 127; 0; 0; 9; 127; 0; 0; 1] ++ [type; code; 0; 0; 0; 0; 0; 0] ++
  [0x45; 0; 0; 52; 0; 0; 0; 0; 1; 17; 0; 0; 127; 0; 0; 1; 127; 0; 0; 1] ++ be16 37010 ++ be16 port.
Definition router : list Z := [2; 0; 0; 0; 127; 0; 0; 9; 0; 0; 0; 0; 0; 0; 0; 0].
Definition answer_from (type code port : Z) (from : list Z) : list answer :=
  [Ans 0 0 [1000; 0] []; ok 24; ok 0; Ans 52 0 (quoting type code port) from; ok 0; Ans 0 0 [1000; 1500] []].
Definition trace_world : world := world0
  ([ok 4242; ok 0; Ans 0 0 lo_info []; ok 0; ok 0; ok 0; ok 3; ok 0; ok 0; ok 4; ok 4242; ok 0; ok 0] ++
   answer_from 11 0 33435 router ++ [Ans 0 0 (chars "gw") []] ++
   [Ans 0 0 [1001; 0] []; ok 24; ok 0; err EINTR] ++
   answer_from 11 0 33437 router ++ [ok 0] ++
   answer_from 3 3 33438 (drop 1 lo_name) ++ [err 1] ++ answer_from 3 1 33439 (drop 1 lo_name) ++
   answer_from 3 3 33440 (drop 1 lo_name)).
Example trace_two_hops :
  let '(r, w) := trace_main Little [chars "traceroute"; chars "-m2"; chars "lo"] trace_world in
  r = Halt (Exited 0) /\ script w = [] /\
  concat (displays (trace w)) =
    chars "traceroute to 127.0.0.1 (127.0.0.1): 2 hops max, 24 data bytes" ++ newline ++
    chars " 1  gw (127.0.0.9)  1.500 ms *  1.500 ms" ++ newline ++
    chars " 2  127.0.0.1  1.500 ms  1.500 ms (ICMP host unreachable)  1.500 ms" ++ newline.
Proof. vm_compute. done. Qed.

(** ** What a packet means *)

(** Two bytes in network order. *)
Definition be16_at (b : list Z) (i : nat) : Z := 256 * byte_at b i + byte_at b (S i).

Inductive fate : Type :=
| Ignored
| Other (** shown with "-v" *)
| Answered (ret : Z)
| NoValue. (** the loop ends without a value *)

Section Fate.
Context (sport : Z) (b : list Z) (n seq : Z).

(** The probe's ports, at [i]. *)
Definition our_ports (i : nat) : Prop := be16_at b i = sport /\ be16_at b (S (S i)) = u16 (dport + seq).

(** An ICMPv4 error quotes an IP header and the first bytes behind it. *)
Definition inner : nat := hlen b + 8.
Definition inner_hlen : nat := Z.to_nat (4 * Z.land (byte_at b inner) 15).
Definition full4 : Prop := 28 <= n - Z.of_nat (hlen b) /\ 12 + Z.of_nat inner_hlen <= n - Z.of_nat (hlen b).
Definition quotes4 : Prop := byte_at b (inner + 9) = PROTO_UDP /\ our_ports (inner + inner_hlen).
Definition expired4 : Prop := byte_at b (hlen b) = ICMP_TIMXCEED /\ byte_at b (S (hlen b)) = ICMP_TIMXCEED_INTRANS.
Definition unreachable4 : Prop := byte_at b (hlen b) = ICMP_UNREACH.

Inductive fate4 : fate -> Prop :=
| fate4_no_header : n - Z.of_nat (hlen b) < 8 -> fate4 Ignored
| fate4_no_probe : expired4 \/ unreachable4 -> ~ full4 -> fate4 Ignored
| fate4_router : expired4 -> full4 -> quotes4 -> fate4 (Answered (-2))
| fate4_unreachable : unreachable4 -> full4 -> quotes4 ->
    fate4 (Answered (if byte_at b (S (hlen b)) =? ICMP_UNREACH_PORT then -1 else byte_at b (S (hlen b))))
| fate4_error : expired4 \/ unreachable4 -> full4 -> ~ quotes4 -> fate4 Other
| fate4_other : 8 <= n - Z.of_nat (hlen b) -> ~ expired4 -> ~ unreachable4 -> fate4 Other.

(** ICMPv6 has no outer header, and the inner one has 40 bytes. *)
Definition full6 : Prop := 52 <= n.
Definition quotes6 : Prop := byte_at b 14 = PROTO_UDP /\ our_ports 48.
Definition expired6 : Prop := byte_at b 0 = ICMP6_TIME_EXCEEDED /\ byte_at b 1 = ICMP6_TIME_EXCEED_TRANSIT.
Definition unreachable6 : Prop := byte_at b 0 = ICMP6_DST_UNREACH.

Inductive fate6 : fate -> Prop :=
| fate6_no_header : n < 8 -> fate6 Ignored
| fate6_no_probe : expired6 \/ unreachable6 -> ~ full6 -> fate6 Ignored
| fate6_router : expired6 -> full6 -> quotes6 -> fate6 (Answered (-2))
| fate6_unreachable : unreachable6 -> full6 -> quotes6 ->
    fate6 (Answered (if byte_at b 1 =? ICMP6_DST_UNREACH_NOPORT then -1 else byte_at b 1))
| fate6_expired_other : expired6 -> full6 -> ~ quotes6 -> fate6 NoValue
| fate6_unreachable_other : unreachable6 -> full6 -> ~ quotes6 -> fate6 Ignored
| fate6_other : 8 <= n -> ~ expired6 -> ~ unreachable6 -> fate6 Other.
End Fate.

Section Packets.
Context (e : endian) (verbose sport : Z).

Lemma bytes_byte_at b i : bytes b -> byte (byte_at b i).
Proof.
  intros Hb. unfold byte_at. destruct (decide (i < length b)%nat) as [Hi|Hi].
  - destruct (lookup_lt_is_Some_2 b i Hi) as [x Hx]. rewrite (nth_lookup_Some b i _ x Hx).
    by apply (Forall_lookup_1 _ _ _ _ Hb Hx).
  - rewrite nth_overflow by lia. unfold byte. lia.
Qed.

Lemma at16_hton b i v : bytes b -> word v -> at16 e b i = hton16 e v <-> be16_at b i = v.
Proof.
  intros Hb Hv. pose proof (bytes_byte_at b i Hb) as H0. pose proof (bytes_byte_at b (S i) Hb) as H1.
  unfold at16, hton16, be16_at. destruct e; simpl; [|done].
  unfold byte, word in *. pose proof (Z.div_mod v 256 ltac:(lia)). pose proof (Z.mod_pos_bound v 256 ltac:(lia)).
  assert (0 <= v / 256 < 256) by (split; [apply Z.div_pos|apply Z.div_lt_upper_bound]; lia). lia.
Qed.

(** The test of the protocol and the ports. *)
Lemma ours_spec b (i j : nat) seq :
  bytes b -> word sport ->
  (byte_at b i =? PROTO_UDP) && (at16 e b j =? hton16 e sport) && (at16 e b (S (S j)) =? hton16 e (u16 (dport + seq))) = true <->
  byte_at b i = PROTO_UDP /\ our_ports sport b seq j.
Proof.
  intros Hb Hs. unfold our_ports. rewrite !andb_true_iff, !Z.eqb_eq, !at16_hton by (done || apply u16_range). tauto.
Qed.

(** [n] bytes have arrived in the buffer. *)
Definition in_buffer (b : list Z) (n : Z) : Prop := length b = Z.to_nat BUFSIZE /\ bytes b /\ 0 <= n <= BUFSIZE.

Definition noisy (b sarecv : list Z) (icmp : nat) (ev : list event) : Prop :=
  verbose = 0 /\ ev = [] \/
  verbose <> 0 /\ exists from, text_of sarecv from /\ ev = [(CStdout (from_line from (byte_at b icmp) (byte_at b (S icmp))), ok 0)].

(** A packet with the fate [f]: what the loop does, and what is shown. *)
Definition treated (F : fate -> Prop) (b sarecv : list Z) (icmp : nat) (v : recv_verdict) (ev : list event) : Prop :=
  match v with
  | Continue => F Ignored /\ ev = [] \/ F Other /\ noisy b sarecv icmp ev
  | Break (Some r) => F (Answered r) /\ ev = []
  | Break None => F NoValue /\ ev = []
  end.
Definition untreated (F : fate -> Prop) (sarecv : list Z) (h : halt) (ev : list event) : Prop :=
  h = Undefined /\ ev = [] /\ F Other /\ verbose <> 0 /\ odd_address sarecv.

Lemma noise_runs (F : fate -> Prop) b sarecv n (icmp : nat) w :
  in_buffer b n -> (S icmp < Z.to_nat BUFSIZE)%nat -> bytes sarecv -> F Other ->
  runs (noise verbose b sarecv (Z.of_nat icmp)) (treated F b sarecv icmp) (untreated F sarecv) w.
Proof.
  intros (Hl & _ & _) Hi Hsa HF. unfold noise. destruct (verbose =? 0) eqn:Ev; zbool; cbn [negb].
  - apply runs_ret. right. split; [done|]. by left.
  - apply runs_from; [done|done|]. intros from w1 Hf.
    apply (runs_or_undef _ (byte_at b icmp)); [apply rd8_at; lia|].
    apply (runs_or_undef _ (byte_at b (S icmp))).
    { rewrite <- rd8_at by lia. f_equal. lia. }
    apply runs_out; [done|]. intros w2. apply runs_ret. right. split; [done|]. right. split; [done|]. by exists from.
Qed.

Lemma runs_quoted_v4 {B} b n seq (k : option bool -> M B) (Q : B -> list event -> Prop) (H : halt -> list event -> Prop) w :
  in_buffer b n -> word sport -> 8 <= n - Z.of_nat (hlen b) ->
  (~ full4 b n -> runs (k None) Q H w) -> (full4 b n -> quotes4 sport b seq -> runs (k (Some true)) Q H w) ->
  (full4 b n -> ~ quotes4 sport b seq -> runs (k (Some false)) Q H w) ->
  runs (quoted_v4 e sport (Z.of_nat (hlen b)) (n - Z.of_nat (hlen b)) seq b ≫= k) Q H w.
Proof.
  intros (Hl & Hb & Hn) Hs H8 H1 H2 H3. unfold quoted_v4, sizeof_ip. pose proof (hlen_range b) as [_ Hle].
  assert (0 <= Z.land (byte_at b (inner b)) 15 < 16) as Hr.
  { change 15 with (Z.ones 4). rewrite Z.land_ones by lia. apply Z.mod_pos_bound. lia. }
  assert (forall r, runs (k r) Q H w -> runs (mret r ≫= k) Q H w) as Hret by done.
  destruct (_ <? 8 + 20) eqn:E28; zbool; [apply Hret, H1; unfold full4; lia|].
  apply (runs_ext _ (or_undef (rd8 b (Z.of_nat (hlen b) + 8)) ≫= fun ip_hl =>
    (let hlen2 := 4 * Z.land ip_hl 15 in
     if n - Z.of_nat (hlen b) <? 8 + hlen2 + 4 then mret None
     else let udp := Z.of_nat (hlen b) + 8 + hlen2 in
      ip_p ← or_undef (rd8 b (Z.of_nat (hlen b) + 8 + 9));
      uh_sport ← or_undef (rd16 e b udp); uh_dport ← or_undef (rd16 e b (udp + 2));
      mret (Some ((ip_p =? PROTO_UDP) && (uh_sport =? hton16 e sport) && (uh_dport =? hton16 e (u16 (dport + seq))))))
    ≫= k)).
  { unfold mbind, M_bind. by destruct (or_undef (rd8 b (Z.of_nat (hlen b) + 8)) w) as [[]]. }
  replace (Z.of_nat (hlen b) + 8) with (Z.of_nat (inner b)) by (unfold inner; lia).
  rewrite rd8_at by (unfold inner, BUFSIZE in *; lia). apply (runs_or_undef _ (byte_at b (inner b))); [done|]. cbv zeta.
  assert (4 * Z.land (byte_at b (inner b)) 15 = Z.of_nat (inner_hlen b)) as -> by (unfold inner_hlen; lia).
  destruct (_ <? _) eqn:E12; zbool; [apply Hret, H1; unfold full4; lia|].
  assert (full4 b n) as Hfull by (unfold full4; lia).
  replace (Z.of_nat (inner b) + 9) with (Z.of_nat (inner b + 9)) by lia.
  replace (Z.of_nat (inner b) + Z.of_nat (inner_hlen b) + 2) with (Z.of_nat (S (S (inner b + inner_hlen b)))) by lia.
  replace (Z.of_nat (inner b) + Z.of_nat (inner_hlen b)) with (Z.of_nat (inner b + inner_hlen b)) by lia.
  assert (inner b + inner_hlen b + 3 < length b)%nat by (unfold inner, BUFSIZE in *; lia).
  rewrite rd8_at by (unfold inner, BUFSIZE in *; lia). rewrite !rd16_at by lia. cbn [or_undef].
  apply Hret. pose proof (ours_spec b (inner b + 9) (inner b + inner_hlen b) seq Hb Hs) as Ho.
  destruct (_ && _) eqn:Eq.
  - apply H2; [done|]. by apply Ho.
  - apply H3; [done|]. intros Hq. by apply Ho in Hq.
Qed.

Lemma packet_v4_runs b sarecv n seq w :
  in_buffer b n -> word sport -> bytes sarecv ->
  runs (packet_v4 e verbose sport seq b sarecv n) (treated (fate4 sport b n seq) b sarecv (hlen b))
    (untreated (fate4 sport b n seq) sarecv) w.
Proof.
  intros Hbuf Hs Hsa. pose proof Hbuf as (Hl & Hb & Hn). destruct (hlen_range b) as [Hh Hle]. unfold packet_v4.
  set (F := fate4 sport b n seq). assert (S (hlen b) < Z.to_nat BUFSIZE)%nat as Hin by (unfold BUFSIZE in *; lia).
  apply (runs_or_undef _ (byte_at b 0)); [apply (rd8_at b 0); unfold BUFSIZE in *; lia|]. cbv zeta. rewrite <- Hh.
  destruct (_ <? 8) eqn:E8; zbool; [apply runs_ret; left; split; [by apply fate4_no_header|done]|].
  apply (runs_or_undef _ (byte_at b (hlen b))); [apply rd8_at; lia|].
  apply (runs_or_undef _ (byte_at b (S (hlen b)))).
  { rewrite <- rd8_at by lia. f_equal. lia. }
  assert (forall k : option bool -> M recv_verdict, (expired4 b \/ unreachable4 b) ->
    k None = mret Continue -> k (Some false) = noise verbose b sarecv (Z.of_nat (hlen b)) ->
    (full4 b n -> quotes4 sport b seq -> forall w', runs (k (Some true)) (treated F b sarecv (hlen b)) (untreated F sarecv) w') ->
    forall w', runs (quoted_v4 e sport (Z.of_nat (hlen b)) (n - Z.of_nat (hlen b)) seq b ≫= k)
      (treated F b sarecv (hlen b)) (untreated F sarecv) w') as Herr.
  { intros k Hk Hnone Hfalse Htrue w'. apply runs_quoted_v4; try done.
    - intros Hf. rewrite Hnone. apply runs_ret. left. split; [by apply fate4_no_probe|done].
    - intros Hf Hq. by apply Htrue.
    - intros Hf Hq. rewrite Hfalse. eapply noise_runs; [done|done|done|by apply fate4_error]. }
  destruct (_ && _) eqn:Et; zbool.
  - assert (expired4 b) as He by (unfold expired4; lia). apply Herr; [by left|done|done|].
    intros Hf Hq w'. apply runs_ret. split; [by apply fate4_router|done].
  - destruct (_ =? ICMP_UNREACH) eqn:Eu; zbool.
    + apply Herr; [by right|done|done|]. intros Hf Hq w'. apply runs_ret. split; [by apply fate4_unreachable|done].
    + eapply noise_runs; [done|done|done|]. apply fate4_other; [lia|by unfold expired4; lia|done].
Qed.

Lemma runs_quoted_v6 {B} b n seq (k : option bool -> M B) (Q : B -> list event -> Prop) (H : halt -> list event -> Prop) w :
  in_buffer b n -> word sport ->
  (~ full6 n -> runs (k None) Q H w) -> (full6 n -> quotes6 sport b seq -> runs (k (Some true)) Q H w) ->
  (full6 n -> ~ quotes6 sport b seq -> runs (k (Some false)) Q H w) ->
  runs (quoted_v6 e sport n seq b ≫= k) Q H w.
Proof.
  intros (Hl & Hb & Hn) Hs H1 H2 H3. unfold quoted_v6, sizeof_ip6_hdr, BUFSIZE in *. cbv zeta.
  destruct (_ <? _) eqn:E52; zbool; [apply H1; unfold full6; lia|].
  change (8 + 6) with (Z.of_nat 14). change (8 + 40) with (Z.of_nat 48). change (Z.of_nat 48 + 2) with (Z.of_nat 50).
  rewrite rd8_at, !rd16_at by lia. cbn [or_undef]. pose proof (ours_spec b 14 48 seq Hb Hs) as Ho.
  change (runs (k (Some ((byte_at b 14 =? PROTO_UDP) && (at16 e b 48 =? hton16 e sport) &&
    (at16 e b 50 =? hton16 e (u16 (dport + seq)))))) Q H w).
  destruct (_ && _) eqn:Eq.
  - apply H2; [unfold full6; lia|]. by apply Ho.
  - apply H3; [unfold full6; lia|]. intros Hq. by apply Ho in Hq.
Qed.

Lemma packet_v6_runs b sarecv n seq w :
  in_buffer b n -> word sport -> bytes sarecv ->
  runs (packet_v6 e verbose sport seq b sarecv n) (treated (fate6 sport b n seq) b sarecv 0)
    (untreated (fate6 sport b n seq) sarecv) w.
Proof.
  intros Hbuf Hs Hsa. pose proof Hbuf as (Hl & Hb & Hn). unfold packet_v6.
  set (F := fate6 sport b n seq). unfold BUFSIZE in *.
  destruct (n <? 8) eqn:E8; zbool; [apply runs_ret; left; split; [by apply fate6_no_header|done]|].
  apply (runs_or_undef _ (byte_at b 0)); [apply (rd8_at b 0); lia|].
  apply (runs_or_undef _ (byte_at b 1)); [apply (rd8_at b 1); lia|].
  destruct (_ && _) eqn:Et; zbool.
  - assert (expired6 b) as He by (unfold expired6; lia). apply runs_quoted_v6; [done|done| | |]; intros Hf; [|intros Hq..]; apply runs_ret.
    + left. split; [apply fate6_no_probe; [by left|done]|done].
    + split; [by apply fate6_router|done].
    + split; [by apply fate6_expired_other|done].
  - destruct (_ =? ICMP6_DST_UNREACH) eqn:Eu; zbool.
    + apply runs_quoted_v6; [done|done| | |]; intros Hf; [|intros Hq..]; apply runs_ret.
      * left. split; [apply fate6_no_probe; [by right|done]|done].
      * split; [by apply fate6_unreachable|done].
      * left. split; [by apply fate6_unreachable_other|done].
    + apply (noise_runs F b sarecv n 0%nat); [done|unfold BUFSIZE; lia|done|]. apply fate6_other; [lia|by unfold expired6; lia|done].
Qed.
End Packets.

(** ** Waiting for the answer to a probe *)

Section Receive.
Context (e : endian) (v6 : bool) (verbose sport recvfd : Z).

Definition packet_of : Z -> list Z -> list Z -> Z -> M recv_verdict :=
  if v6 then packet_v6 e verbose sport else packet_v4 e verbose sport.
Definition fate_of (st : trace_state) (r : answer) (seq : Z) : fate -> Prop :=
  if v6 then fate6 sport (recvbuf st) (a_ret r) seq else fate4 sport (recvbuf st) (a_ret r) seq.
Definition icmp_at (b : list Z) : nat := if v6 then 0%nat else hlen b.
Definition recvfrom_call : call := CRecvfrom recvfd BUFSIZE 0.

(** A packet that does not answer the probe. *)
Definition overlooked (seq : Z) (st : trace_state) (r : answer) (ev : list event) : Prop :=
  fate_of st r seq Ignored /\ ev = [] \/
  fate_of st r seq Other /\ noisy verbose (recvbuf st) (sarecv st) (icmp_at (recvbuf st)) ev.

Inductive awaiting (seq : Z) (st0 : trace_state) : trace_state -> list event -> Prop :=
| awaiting_start : awaiting seq st0 st0 []
| awaiting_more st evs r ev :
    awaiting seq st0 st evs -> 0 <= a_ret r -> overlooked seq (arrived_at st r) r ev ->
    awaiting seq st0 (arrived_at st r) (evs ++ (recvfrom_call, r) :: ev).

(** The alarm first, or a packet that answers; -3 says which. *)
Definition timed_out (seq : Z) (st0 st : trace_state) (ev : list event) : Prop :=
  exists evs r, awaiting seq st0 st evs /\ a_ret r < 0 /\ a_err r = EINTR /\ ev = evs ++ [(recvfrom_call, r)].
Definition ends_with (seq : Z) (f : fate) (st0 st : trace_state) (ev : list event) : Prop :=
  exists st1 evs r, awaiting seq st0 st1 evs /\ 0 <= a_ret r /\ st = arrived_at st1 r /\ fate_of st r seq f /\
    ev = evs ++ [(recvfrom_call, r)].
Definition recv_done (seq : Z) (st0 : trace_state) (x : Z * timeval * trace_state) (ev : list event) : Prop :=
  let '(code, tv, st) := x in
  exists a evs, (code = -3 /\ timed_out seq st0 st evs /\ ev = (CAlarm 3, a) :: evs \/
    exists b t, 0 <= a_ret t /\ tv = timeval_of t /\ ends_with seq (Answered code) st0 st evs /\
      ev = (CAlarm 3, a) :: evs ++ [(CAlarm 0, b); (CGettimeofday, t)]).
(** The undefined behaviour: an address without a text, and the missing value. *)
Definition recv_fault (seq : Z) (st0 : trace_state) (ev : list event) : Prop :=
  exists a st evs, (ends_with seq Other st0 st evs /\ verbose <> 0 /\ odd_address (sarecv st) /\ ev = (CAlarm 3, a) :: evs \/
    exists b t, ends_with seq NoValue st0 st evs /\ ev = (CAlarm 3, a) :: evs ++ [(CAlarm 0, b); (CGettimeofday, t)]).

Definition trace_ok (st : trace_state) : Prop :=
  length (recvbuf st) = Z.to_nat BUFSIZE /\ bytes (recvbuf st) /\ bytes (sarecv st).

Lemma recvfrom_answer a : let x := normalise recvfrom_call a in
  0 <= a_ret x -> a_ret x <= BUFSIZE /\ bytes (a_data x) /\ (length (a_data x) <= Z.to_nat BUFSIZE)%nat.
Proof.
  unfold recvfrom_call, normalise, BUFSIZE. destruct (a_ret a <? 0); cbn [a_ret a_data]; [done|]. intros _.
  rewrite length_map, length_take. split; [lia|]. split; [apply bytes_u8|lia].
Qed.
Lemma received_ok st a : let x := normalise recvfrom_call a in
  trace_ok st -> 0 <= a_ret x -> trace_ok (arrived_at st x) /\ in_buffer (recvbuf (arrived_at st x)) (a_ret x).
Proof.
  intros x (H1 & H2 & H3) Hr. destruct (recvfrom_answer a Hr) as (Hn & Hb & Hl). fold x in Hn, Hb, Hl.
  assert (length (recvbuf (arrived_at st x)) = Z.to_nat BUFSIZE) as Hlen by (cbn [arrived_at recvbuf]; rewrite overlay_length; lia).
  assert (bytes (recvbuf (arrived_at st x))) as Hby by (by apply bytes_overlay).
  split; [|done]. split; [done|]. split; [done|]. apply bytes_overlay; [|done].
  unfold bytes, sender. apply Forall_take, bytes_u8.
Qed.

Lemma packet_runs seq st r w :
  word sport -> in_buffer (recvbuf st) (a_ret r) -> bytes (sarecv st) ->
  runs (packet_of seq (recvbuf st) (sarecv st) (a_ret r))
    (treated verbose (fate_of st r seq) (recvbuf st) (sarecv st) (icmp_at (recvbuf st)))
    (untreated verbose (fate_of st r seq) (sarecv st)) w.
Proof. intros. unfold packet_of, fate_of, icmp_at. destruct v6; [by apply packet_v6_runs|by apply packet_v4_runs]. Qed.

(** The loop: its state is the one of the packets so far. *)
Definition waiting (seq : Z) (st0 : trace_state) (s : Z * trace_state) (evs : list event) : Prop :=
  trace_ok s.2 /\ (s.1 = 0 /\ awaiting seq st0 s.2 evs \/ s.1 <> 0 /\ timed_out seq st0 s.2 evs).
Definition loop_done (seq : Z) (st0 : trace_state) (x : option (option Z) * trace_state) (evs : list event) : Prop :=
  trace_ok x.2 /\
  match x.1 with
  | None => timed_out seq st0 x.2 evs
  | Some (Some ret) => ends_with seq (Answered ret) st0 x.2 evs
  | Some None => ends_with seq NoValue st0 x.2 evs
  end.
Definition loop_cut (seq : Z) (st0 : trace_state) (h : halt) (evs : list event) : Prop :=
  stopped h \/ h = Undefined /\ exists st, ends_with seq Other st0 st evs /\ verbose <> 0 /\ odd_address (sarecv st).

Lemma recv_loop_runs seq st0 w :
  word sport -> trace_ok st0 ->
  runs (loop (recv_turn recvfd (packet_of seq)) (0, st0)) (loop_done seq st0) (loop_cut seq st0) w.
Proof.
  intros Hs Hok0. apply (runs_loop _ (waiting seq st0)); [split; [done|left; split; [done|constructor]]|].
  intros [g st] evs w1 [Hok Hg]. cbn [fst snd] in *. unfold recv_turn.
  destruct (g =? 0) eqn:Eg; zbool; cbn [negb].
  2:{ destruct Hg as [[? _]|[_ Ht]]; [done|]. apply runs_ret. by rewrite app_nil_r. }
  destruct Hg as [[_ Ha]|[? _]]; [|done]. fold recvfrom_call.
  assert (forall h ev, stopped h -> loop_cut seq st0 h ev) as Hcut by (intros; by left).
  apply runs_call; [done|apply Hcut; by left|]. intros a w2 x _.
  destruct (a_ret x <? 0) eqn:Er; zbool.
  - destruct (_ =? EINTR) eqn:Ee; zbool; [|apply runs_err_sys; intros; apply Hcut; by right].
    apply runs_ret. split; [simpl; lia|]. split; [done|]. right. split; [done|]. by exists evs, x.
  - destruct (received_ok st a Hok Er) as [Hok2 Hin]. fold x in Hok2, Hin. cbv zeta.
    apply runs_bind. eapply runs_mono; [apply packet_runs; [done|done|apply Hok2]| |].
    + intros v ev Hv w3. destruct v as [|ret].
      * apply runs_ret. rewrite app_nil_r. split; [simpl; lia|]. split; [done|]. left. split; [done|].
        by apply awaiting_more.
      * apply runs_ret. rewrite app_nil_r. split; [done|]. cbn [fst snd].
        assert (forall f, fate_of (arrived_at st x) x seq f -> ends_with seq f st0 (arrived_at st x) (evs ++ [(recvfrom_call, x)])) as He
          by (intros f Hf; by exists st, evs, x).
        destruct ret as [ret|]; destruct Hv as [Hf ->]; by apply He.
    + intros h ev (-> & -> & Hf & Hv & Ho). right. split; [done|]. exists (arrived_at st x). split; [|done]. by exists st, evs, x.
Qed.

Lemma recv_runs seq st0 w :
  word sport -> trace_ok st0 ->
  runs (recv recvfd (packet_of seq) st0) (fun x ev => trace_ok x.2 /\ recv_done seq st0 x ev)
    (fun h ev => stopped h \/ h = Undefined /\ recv_fault seq st0 ev) w.
Proof.
  intros Hs Hok. unfold recv. apply runs_call; [done|left; by left|]. intros a0 w1 a _.
  apply runs_bind. eapply runs_mono; [by apply recv_loop_runs| |].
  2:{ intros h evs [Hh|(-> & st & H1 & H2 & H3)]; [by left|]. right. split; [done|]. exists a, st, evs. by left. }
  intros [r st] evs [Hok2 Hr] w2. cbn [fst snd] in *. destruct r as [ret|].
  - apply runs_call; [done|left; by left|]. intros b0 w3 b _.
    eapply runs_wraps; [apply Gettimeofday_wraps|left; by left|intros; left; by right|].
    intros t w4 Ht. unfold succeeded in Ht. cbn [id]. destruct ret as [ret|].
    + apply (runs_or_undef _ ret); [done|]. apply runs_ret. split; [done|]. exists a, evs. right.
      eexists b, _. split; [exact Ht|]. split; [done|]. by split.
    + apply runs_none; [done|]. right. split; [done|]. exists a, st, evs. right. by eexists b, _.
  - apply runs_ret. rewrite app_nil_r. split; [done|]. exists a, evs. by left.
Qed.
End Receive.

(** ** Probes and hops *)

Section Hops.
Context (e : endian) (v6 : bool) (verbose sport recvfd sendfd : Z) (sasend : list Z) (sa : sockaddr).
Context (Hsa : sa_of sasend = Some sa).

Definition trace_proto_of : trace_proto := if v6 then proto_v6 e verbose else proto_v4 e verbose.
Definition flushed : event := (CFflush STDOUT_FILENO, ok 0).

(** The name of a router is shown when it is not the one that answered the probe before. *)
Definition named (st st' : trace_state) (ev : list event) : Prop :=
  exists this last, sa_of (sarecv st) = Some this /\ sa_of (salast st) = Some last /\
    (sock_cmp_addr this last = 0 /\ st' = st /\ ev = [] \/
     sock_cmp_addr this last <> 0 /\ st' = TraceState (recvbuf st) (sarecv st) (sarecv st) /\
     exists from g, text_of (sarecv st) from /\
       ev = [(libc "getnameinfo" [0] (sarecv st), g);
             (CStdout (if a_ret g =? 0 then chars " " ++ c_string (map u8 (take (Z.to_nat NI_MAXHOST - 1) (a_data g))) ++
                         chars " (" ++ from ++ chars ")" else chars " " ++ from), ok 0)]).

(** An answer of [code] at [tvrecv] to a probe of [tvsend]. *)
Definition answer_shown (code : Z) (tvsend tvrecv : timeval) (st st' : trace_state) (ev : list event) : Prop :=
  exists rtt evr, tv_sub tvrecv tvsend = Some rtt /\ named st st' evr /\
    ev = evr ++ prints ((chars "  " ++ fmt_f3 (rtt_ms rtt) ++ chars " ms") ::
      (if 0 <=? code then [chars " (ICMP " ++ icmpcode trace_proto_of code ++ chars ")"] else [])).

Definition probe_sent (ttl seq : Z) (a s : answer) (to : list Z) : list event :=
  [(CGettimeofday, a); (CSendto sendfd (rec_bytes e seq ttl (timeval_of a)) to, s)].
Definition probe_to (seq : Z) (to : list Z) : Prop :=
  dport + seq <= INT_MAX /\ set_port e sasend (hton16 e (u16 (dport + seq))) = Some to.

(** Probe [seq] with this [ttl]; [hit] when the destination has answered. *)
Definition probed (ttl seq : Z) (st0 st : trace_state) (hit : bool) (ev : list event) : Prop :=
  exists a s to code tvrecv st1 ev1 ev2, probe_to seq to /\ a_ret s = sizeof_rec /\
    recv_done v6 verbose sport recvfd seq st0 (code, tvrecv, st1) ev1 /\
    (code = -3 /\ st = st1 /\ hit = false /\ ev2 = prints [chars " *"] \/
     code <> -3 /\ hit = (code =? -1) /\ answer_shown code (timeval_of a) tvrecv st1 st ev2) /\
    ev = probe_sent ttl seq a s to ++ ev1 ++ ev2 ++ [flushed].

(** Undefined behaviour: the port overflows, in [recv], or a sender without a text
    or a time out of range. *)
Definition probe_fault (ttl seq : Z) (st0 : trace_state) (ev : list event) : Prop :=
  INT_MAX < dport + seq \/
  exists a s to ev', ev = probe_sent ttl seq a s to ++ ev' /\
    (recv_fault v6 verbose sport recvfd seq st0 ev' \/
     exists code tvrecv st ev1 ev2, recv_done v6 verbose sport recvfd seq st0 (code, tvrecv, st) ev1 /\ ev' = ev1 ++ ev2 /\
       (odd_address (sarecv st) \/ tv_sub tvrecv (timeval_of a) = None)).

Definition probing_ok (st : trace_state) : Prop := trace_ok st /\ exists last, sa_of (salast st) = Some last.

Lemma set_port_some port : exists to, set_port e sasend port = Some to.
Proof. unfold set_port. rewrite Hsa. destruct sa; eauto. Qed.
Lemma length_rec_bytes seq ttl tv : length (rec_bytes e seq ttl tv) = 24%nat.
Proof. unfold rec_bytes. rewrite !length_app, length_store_timeval. by destruct e. Qed.

Lemma recv_keeps seq st0 code tv st ev :
  recv_done v6 verbose sport recvfd seq st0 (code, tv, st) ev -> salast st = salast st0.
Proof.
  assert (forall st1 evs, awaiting v6 verbose sport recvfd seq st0 st1 evs -> salast st1 = salast st0) as Ha
    by (intros st1 evs; induction 1; done).
  intros (a & evs & [(_ & (evs1 & r & H & _) & _)|(b & t & _ & _ & (st1 & evs1 & r & H & _ & -> & _) & _)]); exact (Ha _ _ H).
Qed.

Lemma show_router_runs {B} st (k : trace_state -> M B) (Q : B -> list event -> Prop) (H : halt -> list event -> Prop) w :
  probing_ok st -> (forall ev, H Blocked ev) -> (forall ev, odd_address (sarecv st) -> H Undefined ev) ->
  (forall st' evr, named st st' evr -> probing_ok st' ->
     forall w', runs (k st') (fun b ev => Q b (evr ++ ev)) (fun h ev => H h (evr ++ ev)) w') ->
  runs (show_router st ≫= k) Q H w.
Proof.
  intros [Hok (last & Hlast)] HB HU Hk. apply runs_bind. unfold show_router.
  destruct (sa_of (sarecv st)) as [this|] eqn:Hthis.
  2:{ apply runs_none; [done|]. apply HU. unfold odd_address. rewrite Hthis. by intros. }
  apply (runs_or_undef _ this); [done|]. apply (runs_or_undef _ last); [done|].
  destruct (sock_cmp_addr this last =? 0) eqn:Ec; zbool; cbn [negb].
  - apply runs_ret. intros w1. apply (Hk st []); [|by split; [|exists last]]. exists this, last. by repeat (split || left).
  - apply runs_call; [done|apply HB|]. intros g0 w1 g _. apply runs_from; [apply Hok|apply HU|].
    intros from w2 Hf. apply runs_bind.
    set (ev := [(libc "getnameinfo" [0] (sarecv st), g); (CStdout (if a_ret g =? 0 then chars " " ++ c_string (map u8 (take (Z.to_nat NI_MAXHOST - 1) (a_data g))) ++
                         chars " (" ++ from ++ chars ")" else chars " " ++ from), ok 0)] : list event).
    assert (named st (TraceState (recvbuf st) (sarecv st) (sarecv st)) ev) as Hn.
    { exists this, last. split; [done|]. split; [done|]. right. split; [done|]. split; [done|]. by exists from, g. }
    assert (probing_ok (TraceState (recvbuf st) (sarecv st) (sarecv st))) as Hok2 by (split; [done|by exists this]).
    pose proof (Hk _ _ Hn Hok2) as Hgo. unfold ev in Hgo.
    destruct (a_ret g =? 0); apply runs_stdout; intros w3; apply runs_ret; exact Hgo.
Qed.

Lemma prints_cons l ls : prints (l :: ls) = (CStdout l, ok 0) :: prints ls.
Proof. done. Qed.

Lemma probe_runs ttl seq done st0 w :
  word sport -> probing_ok st0 ->
  runs (probe e trace_proto_of sport recvfd sendfd sasend ttl seq done st0)
    (fun x ev => probing_ok x.2 /\ exists hit, probed ttl seq st0 x.2 hit ev /\ x.1 = if (hit : bool) then done + 1 else done)
    (fun h ev => stopped h \/ h = Undefined /\ probe_fault ttl seq st0 ev) w.
Proof.
  intros Hs [Hok Hlast]. unfold probe.
  eapply runs_wraps; [apply Gettimeofday_wraps|left; by left|intros; left; by right|].
  intros a0 w1 Ha. set (a := normalise CGettimeofday a0) in *. cbn [id]. cbv zeta.
  unfold probe_port. destruct (_ <=? INT_MAX) eqn:Ep; zbool.
  2:{ apply runs_none; [done|]. right. split; [done|]. left. lia. }
  apply (runs_or_undef _ (dport + seq)); [done|].
  destruct (set_port_some (hton16 e (u16 (dport + seq)))) as [to Hto]. apply (runs_or_undef _ to); [done|].
  eapply runs_wraps; [apply Sendto_wraps|left; by left|intros; left; by right|].
  intros s0 w2 Hsent. unfold returned in Hsent. rewrite length_rec_bytes in Hsent. set (s := normalise _ s0) in *.
  apply runs_bind. replace (precv trace_proto_of sport recvfd seq st0) with (recv recvfd (packet_of e v6 verbose sport seq) st0)
    by (unfold trace_proto_of, packet_of; by destruct v6).
  eapply runs_mono; [by apply recv_runs| |].
  2:{ intros h ev [Hh|[-> Hf]]; [by left|]. right. split; [done|]. right. exists a, s, to, ev. split; [done|]. by left. }
  intros [[code tvrecv] st1] ev1 [Hok1 Hr] w3. cbn [snd] in Hok1.
  assert (probing_ok st1) as Hp1 by (split; [done|]; by rewrite (recv_keeps _ _ _ _ _ _ Hr)).
  assert (forall ev2, odd_address (sarecv st1) \/ tv_sub tvrecv (timeval_of a) = None ->
    probe_fault ttl seq st0 (probe_sent ttl seq a s to ++ ev1 ++ ev2)) as Hfault.
  { intros ev2 Hbad. right. exists a, s, to, (ev1 ++ ev2). split; [done|]. right. by exists code, tvrecv, st1, ev1, ev2. }
  destruct (code =? -3) eqn:Ec; zbool.
  - apply runs_out; [done|]. intros w4. apply runs_out; [done|]. intros w5. apply runs_ret. split; [done|].
    exists false. split; [|done]. exists a, s, to, code, tvrecv, st1, ev1, (prints [chars " *"]).
    split; [done|]. split; [done|]. split; [done|]. split; [by left|done].
  - apply show_router_runs; [done|intros; left; by left|intros ev Ho; right; split; [done|]; apply (Hfault ev); by left|].
    intros st' evr Hn Hok' w4. destruct (tv_sub tvrecv (timeval_of a)) as [rtt|] eqn:Et.
    2:{ apply runs_none; [done|]. right. split; [done|]. apply (Hfault (evr ++ [])). by right. }
    apply (runs_or_undef _ rtt); [done|]. apply runs_out; [done|]. intros w5.
    set (line := prints ((chars "  " ++ fmt_f3 (rtt_ms rtt) ++ chars " ms") ::
        (if 0 <=? code then [chars " (ICMP " ++ icmpcode trace_proto_of code ++ chars ")"] else []))).
    assert (forall hit ev, hit = (code =? -1) -> ev = probe_sent ttl seq a s to ++ ev1 ++ (evr ++ line) ++ [flushed] ->
      probed ttl seq st0 st' hit ev) as Hdone.
    { intros hit ev -> ->. exists a, s, to, code, tvrecv, st1, ev1, (evr ++ line).
      split; [done|]. split; [done|]. split; [done|]. split; [|done]. right. split; [done|]. split; [done|]. by exists rtt, evr. }
    apply runs_bind.
    destruct (code =? -1) eqn:E1; [|destruct (0 <=? code) eqn:E0]; zbool;
      [apply runs_ret|apply runs_stdout|apply runs_ret]; intros w6; (apply runs_out; [done|]); intros w7; apply runs_ret;
      (split; [done|]); (first [exists true; split; [|reflexivity]|exists false; split; [|reflexivity]]); (apply Hdone; [done|]); unfold line, prints;
      try replace (0 <=? code) with false by lia; try replace (0 <=? code) with true by lia;
      cbn [fmap list_fmap app]; by rewrite <- !app_assoc.
Qed.

(** Some probes of one hop; [d] counts the answers of the destination. *)
Inductive probes_done (ttl : Z) : nat -> Z -> trace_state -> Z -> trace_state -> list event -> Prop :=
| probes_none seq st : probes_done ttl 0 seq st 0 st []
| probes_one n seq st st1 st2 hit d ev1 ev2 :
    probed ttl (seq + 1) st st1 hit ev1 -> probes_done ttl n (seq + 1) st1 d st2 ev2 ->
    probes_done ttl (S n) seq st (Z.b2z hit + d) st2 (ev1 ++ ev2).

(** A hop forgets the last router; its line has the three probes. *)
Definition forget (st : trace_state) : trace_state :=
  TraceState (recvbuf st) (sarecv st) (replicate (length sasend) 0).
Definition hop_start (ttl : Z) (o : answer) : list event :=
  [(CSetsockopt sendfd (if v6 then IPPROTO_IPV6 else IPPROTO_IP) (if v6 then IPV6_UNICAST_HOPS else IP_TTL) (store32 e ttl), o);
   (CStdout (fmt_2d ttl ++ chars " "), ok 0); flushed].
Definition hop (ttl seq : Z) (st0 st : trace_state) (d : Z) (ev : list event) : Prop :=
  exists o ev1, probes_done ttl nprobes seq (forget st0) d st ev1 /\ ev = hop_start ttl o ++ ev1 ++ [(CStdout newline, ok 0)].

(** The hops before [ttl], which the destination has not answered; [d] is what [done] is after them. *)
Inductive tracing (max_ttl : Z) (st0 : trace_state) : Z -> trace_state -> Z -> list event -> Prop :=
| tracing_start : tracing max_ttl st0 1 st0 0 []
| tracing_hop ttl st st' d evs ev :
    tracing max_ttl st0 ttl st 0 evs -> ttl <= max_ttl -> hop ttl (3 * (ttl - 1)) st st' d ev ->
    tracing max_ttl st0 (ttl + 1) st' d (evs ++ ev).

(** Undefined behaviour in a hop: the fault of a probe after those that are done. *)
Definition probes_fault (ttl seq : Z) (n : nat) (st0 : trace_state) (ev : list event) : Prop :=
  exists k st d ev1 ev2, (k < n)%nat /\ probes_done ttl k seq st0 d st ev1 /\
    probe_fault ttl (seq + Z.of_nat k + 1) st ev2 /\ ev = ev1 ++ ev2.

Lemma probes_runs n ttl seq dn st0 w :
  word sport -> probing_ok st0 ->
  runs (probes e trace_proto_of sport recvfd sendfd sasend n ttl seq dn st0)
    (fun x ev => probing_ok x.2 /\ x.1.1 = seq + Z.of_nat n /\ exists d, x.1.2 = dn + d /\ 0 <= d /\ probes_done ttl n seq st0 d x.2 ev)
    (fun h ev => stopped h \/ h = Undefined /\ probes_fault ttl seq n st0 ev) w.
Proof.
  intros Hs. revert seq dn st0 w. induction n as [|n IH]; intros seq dn st0 w Hok; cbn [probes].
  - apply runs_ret. split; [done|]. split; [simpl; lia|]. exists 0. split; [simpl; lia|]. split; [lia|constructor].
  - apply runs_bind. eapply runs_mono; [by apply probe_runs| |].
    2:{ intros h ev [Hh|[-> Hf]]; [by left|]. right. split; [done|]. exists 0%nat, st0, 0, [], ev. split; [lia|].
        split; [constructor|]. split; [|done]. by rewrite Z.add_0_r. }
    intros [dn1 st1] ev1 (Hok1 & hit & Hp & Hd) w1. cbn [fst snd] in *.
    eapply runs_mono; [by apply IH| |].
    + intros [[seq2 dn2] st2] ev2 (Hok2 & Hseq & d & Hd2 & H0 & Hps). cbn [fst snd] in *. split; [done|]. split; [lia|].
      exists (Z.b2z hit + d). split; [destruct hit; simpl; lia|]. split; [destruct hit; simpl; lia|]. by eapply probes_one.
    + intros h ev2 [Hh|[-> (k & st & d & eva & evb & Hk & H1 & H2 & ->)]]; [by left|]. right. split; [done|].
      exists (S k), st, (Z.b2z hit + d), (ev1 ++ eva), evb. split; [lia|]. split; [by eapply probes_one|].
      split; [|by rewrite <- app_assoc]. replace (seq + Z.of_nat (S k) + 1) with (seq + 1 + Z.of_nat k + 1) by lia. done.
Qed.

(** How the loop ends: complete, or inside the hop [ttl]. *)
Definition traced (max_ttl : Z) (st0 : trace_state) (ev : list event) : Prop :=
  exists ttl st d, tracing max_ttl st0 ttl st d ev /\ (max_ttl < ttl \/ 0 < d).
Definition trace_cut (max_ttl : Z) (st0 : trace_state) (h : halt) (ev : list event) : Prop :=
  exists ttl st ev1 ev2, tracing max_ttl st0 ttl st 0 ev1 /\ ttl <= max_ttl /\ ev = ev1 ++ ev2 /\
    (stopped h \/ h = Undefined /\ exists o ev3, ev2 = hop_start ttl o ++ ev3 /\
       probes_fault ttl (3 * (ttl - 1)) nprobes (forget st) ev3).

Lemma forget_ok st : trace_ok st -> probing_ok (forget st).
Proof.
  intros Hok. split; [done|]. cbn [salast forget]. unfold sa_of in Hsa. destruct sasend as [|a [|b l]]; [done..|].
  by eexists.
Qed.

Lemma waits_hop ttl o ev : (0 < waits (hop_start ttl o ++ ev))%nat.
Proof. simpl. lia. Qed.

Lemma trace_loop_runs max_ttl st0 w :
  word sport -> trace_ok st0 ->
  runs (loop (trace_body e trace_proto_of sport recvfd sendfd sasend max_ttl) (HopState 1 0 0 st0))
    (fun _ => traced max_ttl st0) (trace_cut max_ttl st0) w.
Proof.
  intros Hs Hok0.
  apply (runs_loop _ (fun h evs => trace_ok (hop_st h) /\ 0 <= done h /\ seq h = 3 * (ttl h - 1) /\
    tracing max_ttl st0 (ttl h) (hop_st h) (done h) evs)); [split; [done|]; split; [simpl; lia|]; split; [done|constructor]|].
  intros [t s d st] evs w1 (Hok & Hd & Hseq & Ht). cbn [ttl seq done hop_st] in *. unfold trace_body. cbn [ttl seq done hop_st].
  destruct ((t <=? max_ttl) && (d =? 0)) eqn:Eg; zbool.
  2:{ apply runs_ret. rewrite app_nil_r. exists t, st, d. split; [done|]. lia. }
  assert (t <= max_ttl /\ d = 0) as [Et ->] by lia. subst s.
  assert (forall h ev, stopped h -> trace_cut max_ttl st0 h (evs ++ ev)) as Hcut.
  { intros h ev Hh. exists t, st, evs, ev. split; [done|]. split; [done|]. split; [done|]. by left. }
  replace (ttllevel trace_proto_of) with (if v6 then IPPROTO_IPV6 else IPPROTO_IP) by (by unfold trace_proto_of; destruct v6).
  replace (ttloptname trace_proto_of) with (if v6 then IPV6_UNICAST_HOPS else IP_TTL) by (by unfold trace_proto_of; destruct v6).
  eapply runs_wraps; [apply Setsockopt_wraps|apply Hcut; by left|intros; apply Hcut; by right|].
  intros o0 w2 _. set (o := normalise _ o0). apply runs_out; [done|]. intros w3. apply runs_out; [done|]. intros w4. cbv zeta.
  fold (forget st). apply runs_bind. eapply runs_mono; [apply probes_runs; [done|by apply forget_ok]| |].
  - intros [[seq2 d2] st2] ev (Hok2 & Hseq2 & d & Hd2 & Hdn & Hps) w5. cbn [fst snd] in *.
    apply runs_out; [done|]. intros w6. apply runs_ret.
    change (waits _) with (waits (hop_start t o ++ ev ++ [(CStdout newline, ok 0)])). split; [apply waits_hop|].
    cbn [ttl seq done hop_st]. split; [apply Hok2|]. split; [lia|]. split; [unfold nprobes in *; lia|].
    replace d2 with d by lia. apply (tracing_hop _ _ t st st2 d evs (hop_start t o ++ ev ++ [(CStdout newline, ok 0)])); [done|done|].
    by exists o, ev.
  - intros h ev [Hh|[-> Hf]]; [by apply Hcut|]. exists t, st, evs, (hop_start t o ++ ev).
    split; [done|]. split; [done|]. split; [done|]. right. split; [done|]. by exists o, ev.
Qed.
End Hops.

(** ** traceloop and main *)

Definition trace_start (sasend : list Z) : trace_state :=
  let zeros := replicate (length sasend) 0 in TraceState (replicate (Z.to_nat BUFSIZE) 0) zeros zeros.
(** The sockets, the privileges that are dropped in between, and the source port. *)
Definition trace_ready e (v6 : bool) (verbose : Z) (sasend : list Z) (sa : sockaddr) (recvfd sendfd sport : Z) (ev : list event) : Prop :=
  exists r uid a fs s p addr b, 0 <= a_ret r /\ 0 <= a_ret s /\ a_ret r = recvfd /\ a_ret s = sendfd /\
    sport = Z.lor (Z.land (a_ret p) 0xffff) 0x8000 /\
    set_port e (take 2 sasend ++ replicate (length sasend - 2) 0) (hton16 e sport) = Some addr /\
    fs.*1 = (if (sa_family sa =? AF_INET6) && (verbose =? 0) then
      [CSetsockopt recvfd IPPROTO_IPV6 ICMP6_FILTER (filter_bytes e (ICMP6_FILTER_SETPASS ICMP6_DST_UNREACH
         (ICMP6_FILTER_SETPASS ICMP6_TIME_EXCEEDED ICMP6_FILTER_SETBLOCKALL)))] else []) /\
    ev = [(CSocket (sa_family sa) SOCK_RAW (if v6 then IPPROTO_ICMPV6 else IPPROTO_ICMP), r); (libc "getuid" [] [], uid);
          (libc "setuid" [a_ret uid] [], a)] ++ fs ++
         [(CSocket (sa_family sa) SOCK_DGRAM 0, s); (libc "getpid" [] [], p); (CBind sendfd addr, b)].
Definition trace_complete e (v6 : bool) (verbose max_ttl : Z) (sasend : list Z) (sa : sockaddr) (ev : list event) : Prop :=
  exists recvfd sendfd sport ev0 ev1, trace_ready e v6 verbose sasend sa recvfd sendfd sport ev0 /\
    traced e v6 verbose sport recvfd sendfd sasend max_ttl (trace_start sasend) ev1 /\ ev = ev0 ++ ev1.
Definition trace_broken e (v6 : bool) (verbose max_ttl : Z) (sasend : list Z) (sa : sockaddr) (h : halt) (ev : list event) : Prop :=
  stopped h /\ only mute ev \/
  exists recvfd sendfd sport ev0 ev1, trace_ready e v6 verbose sasend sa recvfd sendfd sport ev0 /\
    trace_cut e v6 verbose sport recvfd sendfd sasend max_ttl (trace_start sasend) h ev1 /\ ev = ev0 ++ ev1.

Lemma zeros_bytes n : bytes (replicate n 0).
Proof. unfold bytes. apply Forall_replicate. unfold byte. lia. Qed.
Lemma trace_start_ok sasend : trace_ok (trace_start sasend).
Proof. split; [done|]. split; apply zeros_bytes. Qed.

Lemma sabind_sa l sa : sa_of l = Some sa -> exists sa', sa_of (take 2 l ++ replicate (length l - 2) 0) = Some sa'.
Proof.
  destruct l as [|f0 [|f1 l]]; [done..|]. cbn [take app length Nat.sub]. rewrite Nat.sub_0_r. unfold sa_of.
  rewrite take_0. cbn [app length]. rewrite length_replicate. destruct (_ =? AF_INET).
  { destruct (decide _); [by eexists|done]. }
  destruct (_ =? AF_INET6).
  { destruct (decide _); [by eexists|done]. }
  destruct (_ =? AF_UNIX); [|by eexists]. destruct (decide _); [by eexists|done].
Qed.

Lemma source_port p : word (Z.lor (Z.land p 0xffff) 0x8000).
Proof.
  unfold word. replace (Z.lor (Z.land p 0xffff) 0x8000) with (Z.land (Z.lor p 0x8000) (Z.ones 16)).
  - rewrite Z.land_ones by lia. apply (Z.mod_pos_bound _ (2 ^ 16)). lia.
  - rewrite Z.land_lor_distr_l. by f_equal.
Qed.

Lemma traceloop_runs e (v6 : bool) verbose max_ttl sasend sa w :
  sa_of sasend = Some sa ->
  runs (traceloop e verbose max_ttl (trace_proto_of e v6 verbose) sasend)
    (fun _ => trace_complete e v6 verbose max_ttl sasend sa) (trace_broken e v6 verbose max_ttl sasend sa) w.
Proof.
  intros Hsa. unfold traceloop.
  assert (forall h ev, stopped h -> only mute ev -> trace_broken e v6 verbose max_ttl sasend sa h ev) as Hcut by (intros; by left).
  replace (icmpproto (trace_proto_of e v6 verbose)) with (if v6 then IPPROTO_ICMPV6 else IPPROTO_ICMP)
    by (by unfold trace_proto_of; destruct v6).
  apply (runs_or_undef _ (sa_family sa)); [by rewrite Hsa|]. set (family := sa_family sa).
  eapply runs_wraps; [apply Socket_wraps|apply Hcut; [by left|done]| |].
  { intros a rep _ Hrep. apply Hcut; [by right|]. constructor; [done|by apply reports_mute]. }
  intros r0 w1 Hr. unfold succeeded in Hr. set (r := normalise _ r0) in *. set (recvfd := a_ret r) in *.
  apply runs_mute_call; [done|intros; apply Hcut; [done|by repeat constructor]|]. intros u0 w2 uid.
  apply runs_mute_call; [done|intros; apply Hcut; [done|by repeat constructor]|]. intros su0 w3 su.
  apply runs_bind.
  eapply (runs_mono _ (fun _ fs => fs.*1 = (if (family =? AF_INET6) && (verbose =? 0) then
      [CSetsockopt recvfd IPPROTO_IPV6 ICMP6_FILTER (filter_bytes e (ICMP6_FILTER_SETPASS ICMP6_DST_UNREACH
         (ICMP6_FILTER_SETPASS ICMP6_TIME_EXCEEDED ICMP6_FILTER_SETBLOCKALL)))] else [])) _ (fun h ev => stopped h /\ ev = [])).
  { destruct (_ && _); [|by apply runs_ret]. apply runs_mute_call; [done|done|]. intros a w4 x. by apply runs_ret. }
  2:{ intros h ev [Hh ->]. apply Hcut; [done|by repeat constructor]. }
  intros [] fs Hfs w4.
  assert (only mute fs) as Hmf by (unfold only; rewrite <- (Forall_fmap fst mute), Hfs; by destruct (_ && _); repeat constructor).
  pose (pre := [(CSocket family SOCK_RAW (if v6 then IPPROTO_ICMPV6 else IPPROTO_ICMP), r);
    (libc "getuid" [] [], uid); (libc "setuid" [a_ret uid] [], su)] : list event).
  assert (forall h ev, stopped h -> only mute ev -> trace_broken e v6 verbose max_ttl sasend sa h (pre ++ fs ++ ev)) as Hcut2.
  { intros h ev Hh Hm. apply Hcut; [done|]. repeat (constructor; [done|]). by apply only_app. }
  eapply runs_wraps; [apply Socket_wraps|apply Hcut2; [by left|done]| |].
  { intros a rep _ Hrep. apply Hcut2; [by right|]. constructor; [done|by apply reports_mute]. }
  intros s0 w5 Hs. unfold succeeded in Hs. set (s := normalise _ s0) in *. set (sendfd := a_ret s) in *.
  apply runs_mute_call; [done|intros; apply Hcut2; [done|by repeat constructor]|]. intros p0 w6 p. cbv zeta.
  set (sport := Z.lor _ _). destruct (sabind_sa sasend sa Hsa) as [sab Hsab].
  destruct (set_port_some e _ sab Hsab (hton16 e sport)) as [addr Haddr]. apply (runs_or_undef _ addr); [done|].
  eapply runs_wraps; [apply Bind_wraps|apply Hcut2; [by left|by repeat constructor]| |].
  { intros a rep _ Hrep. apply Hcut2; [by right|]. repeat (constructor; [done|]). by apply reports_mute. }
  intros b0 w7 _. set (b := normalise _ b0).
  set (ev0 := pre ++ fs ++ [(CSocket family SOCK_DGRAM 0, s); (libc "getpid" [] [], p); (CBind sendfd addr, b)]).
  assert (trace_ready e v6 verbose sasend sa recvfd sendfd sport ev0) as Hready.
  { by exists r, uid, su, fs, s, p, addr, b. }
  assert (forall ev, ev0 ++ ev = pre ++ fs ++ [(CSocket family SOCK_DGRAM 0, s); (libc "getpid" [] [], p); (CBind sendfd addr, b)] ++ ev) as Hev
    by (intros ev; unfold ev0; by rewrite <- !app_assoc).
  eapply runs_mono; [apply (trace_loop_runs e v6 verbose sport recvfd sendfd sasend sa Hsa); [apply source_port|apply trace_start_ok]| |].
  - intros [] ev1 Ht. exists recvfd, sendfd, sport, ev0, ev1. split; [done|]. split; [exact Ht|]. symmetry. apply Hev.
  - intros h ev1 Ht. right. exists recvfd, sendfd, sport, ev0, ev1. split; [done|]. split; [exact Ht|]. symmetry. apply Hev.
Qed.

(** The options: the last "-m" counts, 30 without; every "-v" adds one. *)
Definition bad_option (o : Z * list Z) : Prop := o.1 = question \/ o.1 = 109 /\ atoi o.2 <= 1.
Definition max_of (os : list (Z * list Z)) (d : Z) : Z := foldl (fun d o => if o.1 =? 109 then atoi o.2 else d) d os.

Definition trace_banner (ai : addrinfo) (text : list Z) (max_ttl : Z) : call :=
  CStdout (chars "traceroute to " ++ default text (ai_canonname ai) ++ chars " (" ++ text ++ chars "): " ++ fmt_d max_ttl ++
           chars " hops max, " ++ fmt_d sizeof_rec ++ chars " data bytes" ++ newline).
Definition trace_address e (v6 : bool) (verbose max_ttl : Z) (addr : list Z) (h : halt) (ev : list event) : Prop :=
  stopped h /\ only mute ev \/
  exists sa c1 c2 c3 ev', sa_of addr = Some sa /\
    ev = [(libc "calloc" [1; sockaddr_len addr] [], c1); (libc "calloc" [1; sockaddr_len addr] [], c2);
          (libc "calloc" [1; sockaddr_len addr] [], c3)] ++ ev' /\
    (h = Exited 0 /\ trace_complete e v6 verbose max_ttl addr sa ev' \/ trace_broken e v6 verbose max_ttl addr sa h ev').
Definition trace_host e (verbose max_ttl : Z) (host : list Z) (h : halt) (ev : list event) : Prop :=
  stopped h /\ ev = [] \/
  exists p rest, ev = (libc "getpid" [] [], p) :: rest /\
    resolved sig_alrm host (fun ai text h ev => exists ev', ev = (trace_banner ai text max_ttl, ok 0) :: ev' /\
      by_family (fun v6 => trace_address e v6 verbose max_ttl (ai_addr ai)) ai h ev') h rest.
Definition trace_end e (argv : list (list Z)) (h : halt) (ev : list event) : Prop :=
  let '(os, operands) := getopt [(109, true); (118, false)] (drop 1 argv) in
  Exists bad_option os /\ usage_end h ev \/
  ~ Exists bad_option os /\
  match operands with [host] => trace_host e (times_v os) (max_of os 30) host h ev | _ => usage_end h ev end.

Lemma runs_trace_options {B} os m v (k : Z * Z -> M B) (Q : B -> list event -> Prop) (H : halt -> list event -> Prop) w :
  (Exists bad_option os -> forall h ev, usage_end h ev -> H h ev) ->
  (~ Exists bad_option os -> forall w', runs (k (max_of os m, v + times_v os)) Q H w') -> runs (trace_options os m v ≫= k) Q H w.
Proof.
  revert m v. induction os as [|[c arg] os IH]; intros m v HU Hk.
  - apply runs_bind, runs_ret. intros w1. change (v + times_v []) with (v + 0) in Hk. rewrite Z.add_0_r in Hk.
    apply Hk. by intros ?%Exists_nil.
  - cbn [trace_options].
    assert (forall w', bad_option (c, arg) -> forall text, runs (err_quit text ≫= k) Q H w') as Hbad.
    { intros w' Hb text. apply runs_bind. eapply runs_mono; [apply runs_usage|by intros ? ? []|]. apply HU. by left. }
    assert (forall m' v', ~ bad_option (c, arg) -> max_of os m' = max_of ((c, arg) :: os) m ->
      v' + times_v os = v + times_v ((c, arg) :: os) -> runs (trace_options os m' v' ≫= k) Q H w) as Hnext.
    { intros m' v' Hnb Hm Hv. apply IH; [intros Hex; apply HU; by right|]. intros Hno w1. rewrite Hm, Hv.
      apply Hk. by intros [|]%Exists_cons. }
    assert (times_v ((c, arg) :: os) = (if c =? 118 then 1 else 0) + times_v os) as Ht.
    { unfold times_v. destruct (c =? 118) eqn:E; zbool; [rewrite filter_cons_True by done; simpl; lia|by rewrite filter_cons_False]. }
    destruct (c =? 109) eqn:Em; zbool.
    + destruct (atoi arg <=? 1) eqn:Ea; zbool; [apply Hbad; by right|].
      apply Hnext; [unfold bad_option, question; cbn [fst snd]; lia| |].
      * unfold max_of. cbn [foldl fst snd]. by replace (c =? 109) with true by lia.
      * rewrite Ht. by replace (c =? 118) with false by lia.
    + assert (max_of ((c, arg) :: os) m = max_of os m) as Hm.
      { unfold max_of. cbn [foldl fst snd]. by replace (c =? 109) with false by lia. }
      destruct (c =? 118) eqn:Ev; [|destruct (c =? question) eqn:Eq]; zbool.
      * apply Hnext; [unfold bad_option, question; cbn [fst snd]; lia|done|rewrite Ht; lia].
      * apply Hbad. by left.
      * apply Hnext; [unfold bad_option, question in *; cbn [fst snd]; lia|done|rewrite Ht; lia].
Qed.

Lemma trace_address_runs e (v6 : bool) verbose max_ttl addr sa w :
  sa_of addr = Some sa ->
  runs (Calloc 1 (sockaddr_len addr) ;; Calloc 1 (sockaddr_len addr) ;; Calloc 1 (sockaddr_len addr) ;;
        traceloop e verbose max_ttl (trace_proto_of e v6 verbose) addr ;; exit (A := Empty_set) 0) (fun _ _ => False)
    (trace_address e v6 verbose max_ttl addr) w.
Proof.
  intros Hsa. set (cal := libc "calloc" [1; sockaddr_len addr] []).
  assert (forall h ev, stopped h -> only mute ev -> trace_address e v6 verbose max_ttl addr h ev) as Hcut by (intros; by left).
  eapply runs_wraps; [apply Calloc_wraps|apply Hcut; [by left|by repeat constructor]| |].
  { intros a rep _ Hrep. apply Hcut; [by right|]. repeat (constructor; [done|]). by apply reports_mute. }
  intros c1 w1 _. eapply runs_wraps; [apply Calloc_wraps|apply Hcut; [by left|by repeat constructor]| |].
  { intros a rep _ Hrep. apply Hcut; [by right|]. repeat (constructor; [done|]). by apply reports_mute. }
  intros c2 w2 _. eapply runs_wraps; [apply Calloc_wraps|apply Hcut; [by left|by repeat constructor]| |].
  { intros a rep _ Hrep. apply Hcut; [by right|]. repeat (constructor; [done|]). by apply reports_mute. }
  intros c3 w3 _. apply runs_bind. eapply runs_mono; [by apply traceloop_runs| |].
  - intros [] ev Hc w4. apply (runs_halted (Exited 0)). rewrite app_nil_r. right. exists sa. do 3 eexists. exists ev.
    split; [done|]. split; [reflexivity|]. by left.
  - intros h ev Hb. right. exists sa. do 3 eexists. exists ev. split; [done|]. split; [reflexivity|]. by right.
Qed.

Lemma trace_main_runs e argv w : runs (trace_main e argv) (fun _ _ => False) (trace_end e argv) w.
Proof.
  unfold trace_main, trace_end. destruct (getopt _ _) as [os operands].
  apply runs_trace_options; [by left|].
  intros Hok w1. rewrite Z.add_0_l. set (verbose := times_v os). set (max_ttl := max_of os 30). cbv beta iota.
  eapply (runs_mono _ (fun _ _ => False) _ (fun h ev => match operands with [host] => trace_host e verbose max_ttl host h ev | _ => usage_end h ev end));
    [|done|intros h ev Hh; by right].
  destruct operands as [|host [|]]; [apply runs_usage| |apply runs_usage].
  apply runs_mute_call; [done|intros; by left|]. intros p0 w2 p.
  eapply runs_mono; [apply runs_resolved|done|intros h rest Hr; right; exists p, rest; split; [done|exact Hr]].
  intros ai text w3 (sa & Hsa & _). apply runs_out; [done|]. intros w4.
  eapply runs_mono; [apply runs_by_family|done|intros h rest Hr; exists rest; split; [done|exact Hr]].
  intros v6 w5. by apply (trace_address_runs e v6 verbose max_ttl (ai_addr ai) sa).
Qed.

(** ** The property *)

(** Every packet has exactly one fate; the value is missing exactly for an ICMPv6
    time exceeded message about another datagram. *)
Definition fates_determined (sport : Z) : Prop :=
  forall b n seq,
    (exists f, fate4 sport b n seq f /\ f <> NoValue /\ forall f', fate4 sport b n seq f' -> f' = f) /\
    (exists f, fate6 sport b n seq f /\ (f = NoValue <-> expired6 b /\ full6 n /\ ~ quotes6 sport b seq) /\
       forall f', fate6 sport b n seq f' -> f' = f).

Lemma fates sport : fates_determined sport.
Proof.
  intros b n seq.
  assert (~ (expired4 b /\ unreachable4 b)) as Hx4
    by (unfold expired4, unreachable4, ICMP_TIMXCEED, ICMP_UNREACH; lia).
  assert (~ (expired6 b /\ unreachable6 b)) as Hx6
    by (unfold expired6, unreachable6, ICMP6_TIME_EXCEEDED, ICMP6_DST_UNREACH; lia).
  assert (expired4 b \/ unreachable4 b -> full4 b n -> 8 <= n - Z.of_nat (hlen b)) as H4 by (unfold full4; lia).
  assert (full6 n -> 8 <= n) as H6 by (unfold full6; lia).
  assert (n - Z.of_nat (hlen b) < 8 -> ~ full4 b n) as H4' by (unfold full4; lia).
  assert (n < 8 -> ~ full6 n) as H6' by (unfold full6; lia).
  split.
  - assert (Decision (expired4 b) * Decision (unreachable4 b) * Decision (full4 b n) * Decision (quotes4 sport b seq))%type as [[[D1 D2] D3] D4].
    { unfold expired4, unreachable4, full4, quotes4, our_ports. repeat split; apply _. }
    destruct (decide (n - Z.of_nat (hlen b) < 8)); [|destruct (decide (expired4 b)), (decide (unreachable4 b)),
      (decide (full4 b n)), (decide (quotes4 sport b seq))];
      try tauto; (eexists; split; [by (constructor; first [assumption|lia|tauto])|]);
      (split; [done|]); inversion 1; subst; try done; tauto || lia.
  - assert (Decision (expired6 b) * Decision (unreachable6 b) * Decision (full6 n) * Decision (quotes6 sport b seq))%type as [[[D1 D2] D3] D4].
    { unfold expired6, unreachable6, full6, quotes6, our_ports. repeat split; apply _. }
    destruct (decide (n < 8)); [|destruct (decide (expired6 b)), (decide (unreachable6 b)),
      (decide (full6 n)), (decide (quotes6 sport b seq))];
      try tauto; (eexists; split; [by (constructor; first [assumption|lia|tauto])|]);
      (split; [naive_solver|]); inversion 1; subst; try done; tauto || lia.
Qed.

(** C38: traceroute.  With a wrong option, a wrong number of operands, a host that does
    not resolve or an address of another family, and after a call that fails, it
    ends with status 1.  Otherwise it gives up its privileges after the raw socket is open,
    and for ttl 1, 2, ... sends three probes, numbered in
    order over all hops, with the ttl set before them; it ends with status 0
    exactly after the first hop in which the destination has answered, or after the last one allowed.
    Each probe waits for an answer: of a packet of any length and content
    no field is read outside of the buffer, and it counts as the answer only if it
    quotes a UDP header with our source port and the port of this very
    probe ([fate4], [fate6]); then the sender is shown, when it is another than before, with the
    round-trip time and the code, and at the alarm a star.  Every packet has
    exactly one fate.  Undefined
    behaviour: a port beyond [INT_MAX], times out of range, an address without
    a text, and in recv_v6.c every time exceeded message about another
    datagram, where [ret] has no value. *)
Theorem traceroute_correct e argv w sport :
  runs (trace_main e argv) (fun _ _ => False) (trace_end e argv) w /\ fates_determined sport.
Proof. split; [apply trace_main_runs|apply fates]. Qed.

(** Over IPv6, a router's answer to the datagram of another program, which is for port 53. *)
Definition lo6_info : list Z := [10; 3; 1; 28; 10; 0] ++ replicate 6 0 ++ replicate 15 0 ++ [1] ++ replicate 4 0 ++ [-1].
Definition lo6 : list Z := [10; 0] ++ replicate 6 0 ++ replicate 15 0 ++ [1] ++ replicate 4 0.
Definition foreign_error : list Z :=
  [3; 0; 0; 0; 0; 0; 0; 0] ++ [96; 0; 0; 0; 0; 32; 17; 1] ++ replicate 32 0 ++ be16 53000 ++ be16 53.
Example trace_no_value :
  let '(r, w) := trace_main Little [chars "traceroute"; chars "lo6"] (world0
    [ok 4242; ok 0; Ans 0 0 lo6_info []; ok 0; ok 0; ok 0; ok 3; ok 0; ok 0; ok 0; ok 4; ok 4242; ok 0; ok 0;
     Ans 0 0 [1000; 0] []; ok 24; ok 0; Ans 52 0 foreign_error lo6; ok 0; Ans 0 0 [1000; 500] []]) in
  r = Halt Undefined /\ script w = [].
Proof. by vm_compute. Qed.
