(* ===== verification/Gai.v ===== *)
(** * getaddrinfo: libgai

    libgai/getaddrinfo.c with ga_echeck.c, ga_nsearch.c, ga_aistruct.c,
    ga_clone.c, ga_port.c, ga_serv.c, ga_unix.c, freeaddrinfo.c,
    gai_strerror.c.

    The linked list is a list of structures, each with the pointers of its
    blocks, so that what is allocated and what is freed can be compared.  The
    allocator and the resolver are calls; a resolver answer is NULL with
    [h_errno], or an address family, the bytes of the addresses and a name.  The
    options of the resolver are part of the call: the argument of
    "gethostbyname" is 1 when RES_USE_INET6 is set for it. *)

From stdpp Require Import gmultiset.
From S2P Require Import Prelude UdpRaw InetPton InetNtop InetRound Unix ErrorLib Wrap ReadWrite TcpEcho TcpCli Cksum SockAddr SockOpt Udp UdpServ NetConn.

(** ** addrinfo.h and gai_hdr.h *)

Definition AI_CLONE : Z := 4.
Definition EAI_ADDRFAMILY : Z := 1.
Definition EAI_AGAIN : Z := 2.
Definition EAI_BADFLAGS : Z := 3.
Definition EAI_FAIL : Z := 4.
Definition EAI_FAMILY : Z := 5.
Definition EAI_MEMORY : Z := 6.
Definition EAI_NODATA : Z := 7.
Definition EAI_NONAME : Z := 8.
Definition EAI_SERVICE : Z := 9.
Definition EAI_SOCKTYPE : Z := 10.
Definition EAI_SYSTEM : Z := 11.

(** [struct addrinfo] with its own pointer; the blocks that it points to are
    their pointers and contents. *)
Record info : Type := Info {
  g_self : Z;
  g_flags : Z;
  g_family : Z;
  g_socktype : Z;
  g_protocol : Z;
  g_addr : option (Z * list Z);
  g_canonname : option (Z * list Z)
}.
Record hints : Type := Hints { h_flags : Z; h_family : Z; h_socktype : Z; h_protocol : Z }.
Definition no_hints : hints := Hints 0 AF_UNSPEC 0 0.

(** [name == NULL || name[0] == '\0'] *)
Definition no_name (name : option (list Z)) : bool := match name with Some (_ :: _) => false | _ => true end.
Definition flag (flags bit : Z) : bool := negb (Z.land flags bit =? 0).

(** ** gai_strerror.c *)

Definition gai_text (err : Z) : list Z :=
  if err =? EAI_ADDRFAMILY then chars "address family for host not supported"
  else if err =? EAI_AGAIN then chars "temporary failure in name resolution"
  else if err =? EAI_BADFLAGS then chars "invalid flags value"
  else if err =? EAI_FAIL then chars "non-recoverable failure in name resolution"
  else if err =? EAI_FAMILY then chars "address family not supported"
  else if err =? EAI_MEMORY then chars "memory allocation failure"
  else if err =? EAI_NODATA then chars "no address associated with host"
  else if err =? EAI_NONAME then chars "host nor service provided, or not known"
  else if err =? EAI_SERVICE then chars "service not supported for socket type"
  else if err =? EAI_SOCKTYPE then chars "socket type not supported"
  else if err =? EAI_SYSTEM then chars "system error"
  else chars "unknown getaddrinfo() error".

(** ** ga_echeck.c *)

Definition ga_echeck (hostname servname : option (list Z)) (flags family socktype : Z) : Z :=
  let inet_type := (socktype =? 0) || (socktype =? SOCK_STREAM) || (socktype =? SOCK_DGRAM) || (socktype =? SOCK_RAW) in
  let local_type := (socktype =? 0) || (socktype =? SOCK_STREAM) || (socktype =? SOCK_DGRAM) in
  if negb (Z.land flags (Z.lnot (Z.lor AI_PASSIVE AI_CANONNAME)) =? 0) then EAI_BADFLAGS
  else if no_name hostname && no_name servname then EAI_NONAME
  else if family =? AF_UNSPEC then 0
  else if family =? AF_INET then if inet_type then 0 else EAI_SOCKTYPE
  else if family =? AF_INET6 then if inet_type then 0 else EAI_SOCKTYPE
  else if family =? AF_LOCAL then if local_type then 0 else EAI_SOCKTYPE
  else EAI_FAMILY.

(** ** ga_nsearch.c *)

Definition each_family (host6 host4 : list Z) (family : Z) : list (list Z * Z) :=
  if family =? AF_INET then [(host4, AF_INET)]
  else if family =? AF_INET6 then [(host6, AF_INET6)]
  else if family =? AF_UNSPEC then [(host6, AF_INET6); (host4, AF_INET)]
  else [].
Definition searches (hostname : option (list Z)) (h : hints) : list (list Z * Z) :=
  match hostname with
  | Some ((_ :: _) as host) => each_family host host (h_family h)
  | _ =>
      if flag (h_flags h) AI_PASSIVE then each_family (chars "0::0") (chars "0.0.0.0") (h_family h)
      else each_family (chars "0::1") (chars "localhost") (h_family h)
  end.
Definition ga_nsearch (hostname : option (list Z)) (h : hints) : M (list (list Z * Z)) :=
  let search := searches hostname h in
  let nsearch := Z.of_nat (length search) in
  if (nsearch <? 1) || (2 <? nsearch) then err_quit (chars "nsearch = " ++ fmt_d nsearch) else mret search.

(** ** The allocator *)

Definition alloc (c : call) : M (option Z) :=
  a ← kernel c; mret (if null a then None else Some (a_ret a)).
Definition calloc (size : Z) : M (option Z) := alloc (libc "calloc" [1; size] []).
Definition malloc (size : Z) : M (option Z) := alloc (libc "malloc" [size] []).
Definition strdup (s : list Z) : M (option (Z * list Z)) :=
  p ← alloc (libc "strdup" [] s); mret ((fun p => (p, s)) <$> p).
Definition free_ptr (p : Z) : M unit := kernel (libc "free" [p] []) ;; mret ().

(** ** freeaddrinfo.c *)

Fixpoint freeaddrinfo (aihead : list info) : M unit :=
  match aihead with
  | [] => mret ()
  | ai :: ainext =>
      (match g_addr ai with Some (p, _) => free_ptr p | None => mret () end) ;;
      (match g_canonname ai with Some (p, _) => free_ptr p | None => mret () end) ;;
      free_ptr (g_self ai) ;;
      freeaddrinfo ainext
  end.

(** ** ga_aistruct.c: one more structure at the end of the list, linked before its address is there *)

Definition sizeof_addrinfo : Z := 48.
Definition sizeof_sun_path : Z := 108.
Definition sin_bytes (addr : list Z) : list Z := [AF_INET; 0; 0; 0] ++ take 4 addr ++ replicate 8 0.
Definition sin6_bytes (addr : list Z) : list Z := [AF_INET6; 0; 0; 0] ++ replicate 4 0 ++ take 16 addr ++ replicate 4 0.
Definition sun_bytes (path : list Z) : list Z :=
  [AF_LOCAL; 0] ++ path ++ replicate (Z.to_nat sizeof_sun_path - length path) 0.
Definition with_addr (p : Z) (addr : list Z) (ai : info) : info :=
  Info (g_self ai) (g_flags ai) (g_family ai) (g_socktype ai) (g_protocol ai) (Some (p, addr)) (g_canonname ai).

Definition ga_aistruct (aihead : list info) (h : hints) (addr : list Z) (family : Z) : M (Z * list info) :=
  ai ← calloc sizeof_addrinfo;
  match ai with
  | None => mret (EAI_MEMORY, aihead)
  | Some p =>
      let ai := Info p (if h_socktype h =? 0 then AI_CLONE else 0) family (h_socktype h) (h_protocol h) None None in
      let finish (sa : list Z) :=
        sp ← calloc (Z.of_nat (length sa));
        match sp with
        | None => mret (EAI_MEMORY, aihead ++ [ai])
        | Some q => mret (0, aihead ++ [with_addr q sa ai])
        end in
      if family =? AF_INET then finish (sin_bytes addr)
      else if family =? AF_INET6 then finish (sin6_bytes addr)
      else if family =? AF_LOCAL then
        if sizeof_sun_path <=? Z.of_nat (length addr) then mret (EAI_SERVICE, aihead ++ [ai])
        else
          r ← finish (sun_bytes addr);
          if (r.1 =? 0) && flag (h_flags h) AI_PASSIVE then kernel (libc "unlink" [] addr) ;; mret r else mret r
      else mret (0, aihead ++ [ai])
  end.

(** ** ga_clone.c and ga_port.c *)

(** The clone, which stands behind [ai] in the list even when its address cannot be
    allocated, and whether all went well. *)
Definition ga_clone (ai : info) : M (option (info * bool)) :=
  new ← calloc sizeof_addrinfo;
  match new with
  | None => mret None
  | Some p =>
      let new := Info p 0 (g_family ai) (g_socktype ai) (g_protocol ai) None None in
      let addr := match g_addr ai with Some (_, addr) => addr | None => [] end in
      q ← malloc (Z.of_nat (length addr));
      match q with
      | None => mret (Some (new, false))
      | Some q => mret (Some (with_addr q addr new, true))
      end
  end.

(** [port] is in network byte order. *)
Definition set_sin_port (port : list Z) (ai : info) : info :=
  match g_addr ai with
  | Some (p, addr) => with_addr p (take 2 addr ++ port ++ drop 4 addr) ai
  | None => ai
  end.
Definition with_socktype (socktype : Z) (ai : info) : info :=
  Info (g_self ai) (g_flags ai) (g_family ai) socktype (g_protocol ai) (g_addr ai) (g_canonname ai).
Definition fill_port (port : list Z) (socktype : Z) (ai : info) : info * Z :=
  let ai := with_socktype socktype ai in
  if (g_family ai =? AF_INET) || (g_family ai =? AF_INET6) then (set_sin_port port ai, 1) else (ai, 0).

(** The number of structures found, or -1. *)
Fixpoint ga_port (aihead : list info) (port : list Z) (socktype nfound : Z) : M (Z * list info) :=
  match aihead with
  | [] => mret (nfound, [])
  | ai :: ainext =>
      if flag (g_flags ai) AI_CLONE then
        if negb (g_socktype ai =? 0) then
          new ← ga_clone ai;
          match new with
          | None => mret (-1, ai :: ainext)
          | Some (new, false) => mret (-1, ai :: new :: ainext)
          | Some (new, true) =>
              let '(new, n) := fill_port port socktype new in
              '(r, l) ← ga_port ainext port socktype (nfound + n);
              mret (r, ai :: new :: l)
          end
        else
          let '(ai, n) := fill_port port socktype ai in
          '(r, l) ← ga_port ainext port socktype (nfound + n);
          mret (r, ai :: l)
      else if negb (g_socktype ai =? socktype) then
        '(r, l) ← ga_port ainext port socktype nfound;
        mret (r, ai :: l)
      else
        let '(ai, n) := fill_port port socktype ai in
        '(r, l) ← ga_port ainext port socktype (nfound + n);
        mret (r, ai :: l)
  end.

(** ** ga_serv.c *)

(** The socket types and ports to enter, in order; the first -1 ends it. *)
Fixpoint enter_ports (aihead : list info) (ports : list (list Z * Z)) (nfound : Z) : M (Z * list info) :=
  match ports with
  | [] => mret (nfound, aihead)
  | (port, socktype) :: ports' =>
      '(rc, aihead) ← ga_port aihead port socktype 0;
      if rc <? 0 then mret (-1, aihead) else enter_ports aihead ports' (nfound + rc)
  end.
(** [getservbyname] for one protocol, if the hints allow it. *)
Definition try_service (aihead : list info) (h : hints) (serv : list Z) (proto : string) (socktype nfound : Z) :
    M (Z * list info) :=
  if (h_socktype h =? 0) || (h_socktype h =? socktype) then
    sptr ← getservbyname serv (chars proto);
    match sptr with
    | Some port => enter_ports aihead [(port, socktype)] nfound
    | None => mret (nfound, aihead)
    end
  else mret (nfound, aihead).

Definition ga_serv (aihead : list info) (h : hints) (serv : list Z) : M (Z * list info) :=
  '(nfound, aihead) ←
    (if isdigit (byte_at serv 0) then
       let port := htons (atoi serv) in
       if negb (h_socktype h =? 0) then enter_ports aihead [(port, h_socktype h)] 0
       else enter_ports aihead [(port, SOCK_STREAM); (port, SOCK_DGRAM)] 0
     else
       '(nfound, aihead) ← try_service aihead h serv "tcp" SOCK_STREAM 0;
       if nfound <? 0 then mret (nfound, aihead) else try_service aihead h serv "udp" SOCK_DGRAM nfound);
  if nfound <? 0 then mret (EAI_MEMORY, aihead)
  else if nfound =? 0 then mret (if h_socktype h =? 0 then EAI_NONAME else EAI_SERVICE, aihead)
  else mret (0, aihead).

(** ** ga_unix.c *)

Definition with_h_socktype (socktype : Z) (h : hints) : hints :=
  Hints (h_flags h) (h_family h) socktype (h_protocol h).
Definition with_canonname (canon : Z * list Z) (aihead : list info) : list info :=
  match aihead with
  | ai :: l =>
      Info (g_self ai) (g_flags ai) (g_family ai) (g_socktype ai) (g_protocol ai) (g_addr ai) (Some canon) :: l
  | [] => []
  end.

(** With the list, which is lost when the number is not 0. *)
Definition ga_unix (path : list Z) (h : hints) : M (Z * list info) :=
  if negb (h_family h =? AF_UNSPEC) && negb (h_family h =? AF_LOCAL) then mret (EAI_ADDRFAMILY, [])
  else
    '(rc, aihead, h) ←
      (if h_socktype h =? 0 then
         let h := with_h_socktype SOCK_STREAM h in
         '(rc, aihead) ← ga_aistruct [] h path AF_LOCAL;
         mret (rc, aihead, with_h_socktype SOCK_DGRAM h)
       else mret (0, [], h));
    if negb (rc =? 0) then mret (rc, aihead)
    else
      '(rc, aihead) ← ga_aistruct aihead h path AF_LOCAL;
      if negb (rc =? 0) then mret (rc, aihead)
      else if flag (h_flags h) AI_CANONNAME then
        u ← kernel (libc "uname" [] []);
        if a_ret u <? 0 then mret (EAI_SYSTEM, aihead)
        else
          canon ← strdup (c_string (map u8 (a_data u)));
          match canon with
          | None => mret (EAI_MEMORY, aihead)
          | Some canon => mret (0, with_canonname canon aihead)
          end
      else mret (0, aihead).

(** ** getaddrinfo.c *)

Record hostent : Type := Hostent { h_name : list Z; h_addrtype : Z; h_addr_list : list (list Z) }.

(** The answer of the resolver: AF_INET6 with addresses of 16 bytes, or AF_INET with addresses of 4. *)
Fixpoint chunks (fuel n : nat) (l : list Z) : list (list Z) :=
  match fuel with
  | O => []
  | S f => if decide (n <= length l)%nat then map u8 (take n l) :: chunks f n (drop n l) else []
  end.
Definition hostent_of (a : answer) : hostent :=
  match a_data a with
  | t :: l =>
      Hostent (c_string (map u8 (a_wdata a))) (if t =? AF_INET6 then AF_INET6 else AF_INET)
        (chunks (length l) (if t =? AF_INET6 then 16 else 4) l)
  | [] => Hostent (c_string (map u8 (a_wdata a))) AF_INET []
  end.
Definition hostent_call (two : bool) (host : list Z) (family : Z) : call :=
  if two then libc "gethostbyname2" [family] host
  else libc "gethostbyname" [if family =? AF_INET6 then 1 else 0] host.

(** What the loop of the searches has: the list, the canonical name. *)
Definition gai_state : Type := list info * option (Z * list Z).

(** [inl]: the error to return; [inr]: go on. *)
Fixpoint add_addresses (h : hints) (family : Z) (addrs : list (list Z)) (aihead : list info) : M (Z * list info) :=
  match addrs with
  | [] => mret (0, aihead)
  | addr :: addrs' =>
      '(rc, aihead) ← ga_aistruct aihead h addr family;
      if negb (rc =? 0) then mret (rc, aihead) else add_addresses h family addrs' aihead
  end.

(** A literal of [family] in an entry for [sfamily]. *)
Definition add_literal (h : hints) (family sfamily : Z) (addr : list Z) (st : gai_state) : M (Z * gai_state) :=
  let '(aihead, canon) := st in
  if negb (h_family h =? AF_UNSPEC) && negb (h_family h =? family) then mret (EAI_ADDRFAMILY, (aihead, canon))
  else if negb (sfamily =? family) then mret (0, (aihead, canon))
  else '(rc, aihead) ← ga_aistruct aihead h addr family; mret (rc, (aihead, canon)).

Definition isxdigit (c : Z) : bool := isdigit c || ((97 <=? c) && (c <=? 102)) || ((65 <=? c) && (c <=? 70)).
Definition literal4 (host : list Z) : option (list Z) :=
  if isdigit (byte_at host 0) then match inet_pton AF_INET host with (1, Some addr, _) => Some addr | _ => None end
  else None.
Definition literal6 (host : list Z) : option (list Z) :=
  if (isxdigit (byte_at host 0) || (byte_at host 0 =? 58)) && bool_decide (58 ∈ host)
  then match inet_pton AF_INET6 host with (1, Some addr, _) => Some addr | _ => None end else None.

Definition h_errno_error (h_errno : Z) : Z :=
  if h_errno =? HOST_NOT_FOUND then EAI_NONAME
  else if h_errno =? TRY_AGAIN then EAI_AGAIN
  else if h_errno =? NO_RECOVERY then EAI_FAIL
  else if h_errno =? NO_DATA then EAI_NODATA
  else EAI_NONAME.

(** The resolver. *)
Definition add_host (hostname : option (list Z)) (h : hints) (two : bool) (host : list Z) (family : Z) (st : gai_state) :
    M (Z * gai_state) :=
  let '(aihead, canon) := st in
  a ← kernel (hostent_call two host family);
  if a_ret a <? 0 then mret (if two then 0 else h_errno_error (a_err a), (aihead, canon))
  else
    let hptr := hostent_of a in
    if negb (h_family h =? AF_UNSPEC) && negb (h_family h =? h_addrtype hptr) then mret (EAI_ADDRFAMILY, (aihead, canon))
    else
      '(rc, canon) ←
        (if negb (no_name hostname) && flag (h_flags h) AI_CANONNAME && bool_decide (canon = None) then
           c ← strdup (h_name hptr);
           match c with None => mret (EAI_MEMORY, canon) | Some c => mret (0, Some c) end
         else mret (0, canon));
      if negb (rc =? 0) then mret (rc, (aihead, canon))
      else
        '(rc, aihead) ← add_addresses h (h_addrtype hptr) (h_addr_list hptr) aihead;
        mret (rc, (aihead, canon)).

Definition search_one (hostname : option (list Z)) (h : hints) (two : bool) (sptr : list Z * Z) (st : gai_state) :
    M (Z * gai_state) :=
  let '(host, family) := sptr in
  match literal4 host, literal6 host with
  | Some addr, _ => add_literal h AF_INET family addr st
  | None, Some addr => add_literal h AF_INET6 family addr st
  | None, None => add_host hostname h two host family st
  end.
Fixpoint search_all (hostname : option (list Z)) (h : hints) (two : bool) (search : list (list Z * Z)) (st : gai_state) :
    M (Z * gai_state) :=
  match search with
  | [] => mret (0, st)
  | sptr :: search' =>
      '(rc, st) ← search_one hostname h two sptr st;
      if negb (rc =? 0) then mret (rc, st) else search_all hostname h two search' st
  end.

Definition bad (error : Z) (aihead : list info) : M (Z * list info) := freeaddrinfo aihead ;; mret (error, []).

Definition getaddrinfo (hostname servname : option (list Z)) (hintsp : option hints) : M (Z * list info) :=
  let h := default no_hints hintsp in
  let rc := ga_echeck hostname servname (h_flags h) (h_family h) (h_socktype h) in
  if negb (rc =? 0) then bad rc []
  else if bool_decide (hostname = Some (chars "/local") \/ hostname = Some (chars "/unix")) &&
          match servname with Some (47 :: _) => true | _ => false end
  then '(rc, aihead) ← ga_unix (default [] servname) h; mret (rc, if rc =? 0 then aihead else [])
  else
    search ← ga_nsearch hostname h;
    '(rc, st) ← search_all hostname h (bool_decide (length search = 2%nat)) search ([], None);
    let '(aihead, canon) := st in
    if negb (rc =? 0) then bad rc aihead
    else if bool_decide (aihead = []) then bad EAI_NONAME aihead
    else
      '(rc, aihead) ←
        (if negb (no_name hostname) && flag (h_flags h) AI_CANONNAME then
           match canon with
           | Some canon => mret (0, with_canonname canon aihead)
           | None =>
               c ← strdup (match search with (host, _) :: _ => host | [] => [] end);
               match c with None => mret (EAI_MEMORY, aihead) | Some c => mret (0, with_canonname c aihead) end
           end
         else mret (0, aihead));
      if negb (rc =? 0) then bad rc aihead
      else
        '(rc, aihead) ←
          (if no_name servname then mret (0, aihead) else ga_serv aihead h (default [] servname));
        if negb (rc =? 0) then bad rc aihead else mret (0, aihead).

(** The two ports of the comment in ga_port.c for a host with two addresses. *)
Definition entries (l : list info) : list (Z * Z * option (list Z)) :=
  (fun ai => (g_family ai, g_socktype ai, snd <$> g_addr ai)) <$> l.
Example daytime_multihomed :
  let '(r, w) := getaddrinfo (Some (chars "host")) (Some (chars "daytime")) (Some (Hints 0 AF_INET 0 0))
    (world0 [Ans 0 0 [2; 10; 0; 0; 1; 10; 0; 0; 2] (chars "host"); ok 100; ok 101; ok 102; ok 103;
             Ans 0 0 [0; 13] []; Ans 0 0 [0; 13] []; ok 104; ok 105; ok 106; ok 107]) in
  script w = [] /\
  match r with
  | Ret (rc, l) => rc = 0 /\ entries l =
      [(AF_INET, SOCK_STREAM, Some [2; 0; 0; 13; 10; 0; 0; 1; 0; 0; 0; 0; 0; 0; 0; 0]);
       (AF_INET, SOCK_DGRAM, Some [2; 0; 0; 13; 10; 0; 0; 1; 0; 0; 0; 0; 0; 0; 0; 0]);
       (AF_INET, SOCK_STREAM, Some [2; 0; 0; 13; 10; 0; 0; 2; 0; 0; 0; 0; 0; 0; 0; 0]);
       (AF_INET, SOCK_DGRAM, Some [2; 0; 0; 13; 10; 0; 0; 2; 0; 0; 0; 0; 0; 0; 0; 0])]
  | _ => False
  end.
Proof. vm_compute. done. Qed.
(** A family for which ga_nsearch.c has no case ends the whole process. *)
Example local_family_quits :
  (getaddrinfo (Some (chars "host")) None (Some (Hints 0 AF_LOCAL 0 0)) (world0 [])).1 = Halt (Exited 1).
Proof. by vm_compute. Qed.

(** ** The blocks: what has been allocated, what has been freed, what a list owns *)

Definition allocates (c : call) : bool :=
  match c with
  | CLibc name _ _ => String.eqb name "calloc" || String.eqb name "malloc" || String.eqb name "strdup"
  | _ => false
  end.
Definition allocated_by (ev : event) : gmultiset Z :=
  if allocates ev.1 && negb (null ev.2) then {[+ a_ret ev.2 +]} else ∅.
Definition freed_by (ev : event) : gmultiset Z :=
  match ev.1 with CLibc name [p] _ => if String.eqb name "free" then {[+ p +]} else ∅ | _ => ∅ end.
Definition allocated (evs : list event) : gmultiset Z := foldr (fun ev m => allocated_by ev ⊎ m) ∅ evs.
Definition freed (evs : list event) : gmultiset Z := foldr (fun ev m => freed_by ev ⊎ m) ∅ evs.
Definition block (b : option (Z * list Z)) : gmultiset Z := match b with Some (p, _) => {[+ p +]} | None => ∅ end.
Definition blocks (ai : info) : gmultiset Z := {[+ g_self ai +]} ⊎ block (g_addr ai) ⊎ block (g_canonname ai).
Definition owned (l : list info) : gmultiset Z := foldr (fun ai m => blocks ai ⊎ m) ∅ l.

(** From the blocks [m0] to the blocks [m1]. *)
Definition keeps_blocks (m0 : gmultiset Z) (evs : list event) (m1 : gmultiset Z) : Prop :=
  allocated evs ⊎ m0 = freed evs ⊎ m1.

(** A failed allocation is among the calls. *)
Definition out_of_memory (evs : list event) : Prop := exists ev, ev ∈ evs /\ allocates ev.1 = true /\ null ev.2 = true.

Lemma allocated_app a b : allocated (a ++ b) = allocated a ⊎ allocated b.
Proof. induction a as [|x a IH]; cbn [allocated foldr app]; [multiset_solver|]. unfold allocated in *. rewrite IH. multiset_solver. Qed.
Lemma freed_app a b : freed (a ++ b) = freed a ⊎ freed b.
Proof. induction a as [|x a IH]; cbn [freed foldr app]; [multiset_solver|]. unfold freed in *. rewrite IH. multiset_solver. Qed.
Lemma owned_app a b : owned (a ++ b) = owned a ⊎ owned b.
Proof. induction a as [|x a IH]; cbn [owned foldr app]; [multiset_solver|]. unfold owned in *. rewrite IH. multiset_solver. Qed.
Lemma keeps_app m0 m1 m2 a b : keeps_blocks m0 a m1 -> keeps_blocks m1 b m2 -> keeps_blocks m0 (a ++ b) m2.
Proof. unfold keeps_blocks. rewrite allocated_app, freed_app. multiset_solver. Qed.
Lemma keeps_nil m : keeps_blocks m [] m.
Proof. done. Qed.
Lemma keeps_to m0 m1 m evs : keeps_blocks ∅ evs m -> m1 = m0 ⊎ m -> keeps_blocks m0 evs m1.
Proof. unfold keeps_blocks. intros H ->. rewrite gmultiset_disj_union_right_id in H. rewrite H. multiset_solver. Qed.
Lemma owned_one ai : owned [ai] = blocks ai.
Proof. unfold owned. cbn [foldr]. multiset_solver. Qed.
Lemma owned_cons ai l : owned (ai :: l) = blocks ai ⊎ owned l.
Proof. done. Qed.
Lemma out_of_memory_l a b : out_of_memory a -> out_of_memory (a ++ b).
Proof. intros (ev & H & ?). exists ev. split; [apply elem_of_app; by left|done]. Qed.
Lemma out_of_memory_r a b : out_of_memory b -> out_of_memory (a ++ b).
Proof. intros (ev & H & ?). exists ev. split; [apply elem_of_app; by right|done]. Qed.

(** The calls of the resolver. *)
Definition resolves (c : call) : bool :=
  match c with
  | CLibc name _ _ => String.eqb name "gethostbyname" || String.eqb name "gethostbyname2" || String.eqb name "getservbyname"
  | _ => false
  end.
Definition asked (evs : list event) : list event := filter (fun ev => resolves ev.1 = true) evs.
Lemma asked_app a b : asked (a ++ b) = asked a ++ asked b.
Proof. apply filter_app. Qed.

(** A call of the allocator. *)
Lemma runs_alloc {B} c (k : option Z -> M B) (Q : B -> list event -> Prop) (H : halt -> list event -> Prop) w :
  is_output c = false -> allocates c = true -> resolves c = false -> freed_by (c, ok 0) = ∅ -> H Blocked [] ->
  (forall x w', keeps_blocks ∅ [x] ∅ -> out_of_memory [x] -> asked [x] = [] ->
     runs (k None) (fun b ev => Q b (x :: ev)) (fun h ev => H h (x :: ev)) w') ->
  (forall p x w', keeps_blocks ∅ [x] {[+ p +]} -> asked [x] = [] ->
     runs (k (Some p)) (fun b ev => Q b (x :: ev)) (fun h ev => H h (x :: ev)) w') ->
  runs (alloc c ≫= k) Q H w.
Proof.
  intros Ho Ha Hr Hf HB Hnone Hsome.
  apply (runs_ext _ (kernel c ≫= fun a => k (if null a then None else Some (a_ret a)))).
  { unfold alloc, mbind, M_bind. by destruct (kernel c w) as [[a|] w1]. }
  apply runs_call; [done|done|]. intros a w1 x _.
  assert (asked [(c, x)] = []) as Has by (unfold asked; by rewrite filter_cons_False by (cbn [fst]; congruence)).
  assert (freed_by (c, x) = ∅) as Hfx by exact Hf.
  destruct (null x) eqn:En.
  - apply Hnone; [| |done].
    + unfold keeps_blocks, allocated, freed. cbn [foldr]. rewrite Hfx. unfold allocated_by. cbn [fst snd]. rewrite En, andb_false_r. done.
    + exists (c, x). split; [by apply list_elem_of_singleton|done].
  - apply Hsome; [|done]. unfold keeps_blocks, allocated, freed. cbn [foldr]. rewrite Hfx. unfold allocated_by. cbn [fst snd].
    rewrite Ha, En. cbn [negb andb]. multiset_solver.
Qed.

(** ** The lists without their pointers *)

Definition erase_block (b : option (Z * list Z)) : option (Z * list Z) := (fun b => (0, b.2)) <$> b.
Definition erase (ai : info) : info :=
  Info 0 (g_flags ai) (g_family ai) (g_socktype ai) (g_protocol ai) (erase_block (g_addr ai)) (erase_block (g_canonname ai)).

Definition sockaddr_for (family : Z) (addr : list Z) : list Z :=
  if family =? AF_INET then sin_bytes addr else if family =? AF_INET6 then sin6_bytes addr else sun_bytes addr.
(** The structure for an address of this family. *)
Definition fresh (h : hints) (family : Z) (addr : list Z) : info :=
  Info 0 (if h_socktype h =? 0 then AI_CLONE else 0) family (h_socktype h) (h_protocol h)
    (Some (0, sockaddr_for family addr)) None.
Definition inet_family (family : Z) : Prop := family = AF_INET \/ family = AF_INET6.

(** What ga_port.c does with one structure. *)
Definition clone_of (ai : info) : info :=
  Info 0 0 (g_family ai) (g_socktype ai) (g_protocol ai) (Some (0, match g_addr ai with Some (_, addr) => addr | None => [] end)) None.
Definition port_step (port : list Z) (socktype : Z) (ai : info) : list info :=
  if flag (g_flags ai) AI_CLONE then
    if g_socktype ai =? 0 then [(fill_port port socktype ai).1] else [ai; (fill_port port socktype (clone_of ai)).1]
  else if g_socktype ai =? socktype then [(fill_port port socktype ai).1] else [ai].
Definition port_found (socktype : Z) (ai : info) : Z :=
  if flag (g_flags ai) AI_CLONE || (g_socktype ai =? socktype) then
    if (g_family ai =? AF_INET) || (g_family ai =? AF_INET6) then 1 else 0
  else 0.
Definition ports_found (socktype : Z) (l : list info) : Z := foldr (fun ai n => port_found socktype ai + n) 0 l.

Lemma erase_fill port socktype ai : erase (fill_port port socktype ai).1 = (fill_port port socktype (erase ai)).1.
Proof.
  unfold fill_port. cbn [with_socktype g_family erase]. destruct (_ || _); [|done]. cbn [fst].
  unfold set_sin_port. cbn [with_socktype g_addr erase]. by destruct (g_addr ai) as [[p a]|].
Qed.
Lemma fill_found port socktype ai :
  (fill_port port socktype ai).2 = if (g_family ai =? AF_INET) || (g_family ai =? AF_INET6) then 1 else 0.
Proof. unfold fill_port. cbn [with_socktype g_family]. by destruct (_ || _). Qed.
Lemma blocks_fill port socktype ai : blocks (fill_port port socktype ai).1 = blocks ai.
Proof.
  unfold fill_port. destruct (_ || _); [|done]. unfold set_sin_port. cbn [fst with_socktype g_addr].
  by destruct ai as [? ? ? ? ? [[p a]|] ?].
Qed.
Lemma ports_found_erase socktype l : ports_found socktype (erase <$> l) = ports_found socktype l.
Proof. induction l as [|ai l IH]; [done|]. cbn [fmap list_fmap ports_found foldr]. unfold ports_found in IH. by rewrite IH. Qed.

(** A function that takes the list [l0] to the list of the result. *)
Definition list_result (l0 l1 : list info) (evs : list event) : Prop :=
  keeps_blocks (owned l0) evs (owned l1) /\ asked evs = [].
Lemma list_result_app l0 l1 l2 a b : list_result l0 l1 a -> list_result l1 l2 b -> list_result l0 l2 (a ++ b).
Proof. intros [H1 A1] [H2 A2]. split; [by eapply keeps_app|]. by rewrite asked_app, A1, A2. Qed.
Lemma list_result_nil l : list_result l l [].
Proof. by split. Qed.
(** One call that allocates, and what follows from the block that it gives. *)
Lemma list_result_cons m l0 l1 x evs :
  keeps_blocks ∅ [x] m -> asked [x] = [] -> keeps_blocks (owned l0 ⊎ m) evs (owned l1) -> asked evs = [] ->
  list_result l0 l1 (x :: evs).
Proof.
  intros Hx Ax He Ae. split.
  - unfold keeps_blocks in *. change (x :: evs) with ([x] ++ evs). rewrite allocated_app, freed_app. multiset_solver.
  - change (x :: evs) with ([x] ++ evs). by rewrite asked_app, Ax, Ae.
Qed.

Lemma runs_calloc {B} size (k : option Z -> M B) (Q : B -> list event -> Prop) (H : halt -> list event -> Prop) w :
  H Blocked [] ->
  (forall x w', keeps_blocks ∅ [x] ∅ -> out_of_memory [x] -> asked [x] = [] ->
     runs (k None) (fun b ev => Q b (x :: ev)) (fun h ev => H h (x :: ev)) w') ->
  (forall p x w', keeps_blocks ∅ [x] {[+ p +]} -> asked [x] = [] ->
     runs (k (Some p)) (fun b ev => Q b (x :: ev)) (fun h ev => H h (x :: ev)) w') ->
  runs (calloc size ≫= k) Q H w.
Proof. intros. by apply runs_alloc. Qed.

(** The outcome of a step that returns a number: 0 with the list [pure], or no memory. *)
Definition grown (l0 pure : list info) (x : Z * list info) (evs : list event) : Prop :=
  list_result l0 x.2 evs /\ (x.1 = 0 /\ erase <$> x.2 = pure \/ x.1 = EAI_MEMORY /\ out_of_memory evs).
Definition blocked (h : halt) (_ : list event) : Prop := h = Blocked.

Lemma oom_cons x evs : out_of_memory [x] -> out_of_memory (x :: evs).
Proof. apply (out_of_memory_l [x]). Qed.
Lemma oom_tail x evs : out_of_memory evs -> out_of_memory (x :: evs).
Proof. apply (out_of_memory_r [x]). Qed.

Lemma ga_aistruct_runs l h addr family w :
  inet_family family ->
  runs (ga_aistruct l h addr family) (grown l ((erase <$> l) ++ [fresh h family addr])) blocked w.
Proof.
  intros Hf. unfold ga_aistruct. apply runs_calloc; [done| |].
  - intros x w1 Hk Ho Ha. apply runs_ret. split; [|by right]. cbn [snd]. by apply (list_result_cons ∅); [| |apply (keeps_to _ _ ∅); [|multiset_solver]|].
  - intros p x w1 Hk Ha. cbv zeta.
    assert (forall sa, sa = sockaddr_for family addr -> forall w2, runs (sp ← calloc (Z.of_nat (length sa));
      match sp with
      | Some q => mret (0, l ++ [with_addr q sa (Info p (if h_socktype h =? 0 then AI_CLONE else 0) family (h_socktype h) (h_protocol h) None None)])
      | None => mret (EAI_MEMORY, l ++ [Info p (if h_socktype h =? 0 then AI_CLONE else 0) family (h_socktype h) (h_protocol h) None None])
      end) (fun b ev => grown l ((erase <$> l) ++ [fresh h family addr]) b (x :: ev)) blocked w2) as Hfin.
    { intros sa -> w2. apply runs_calloc; [done| |].
      - intros y w3 Hk2 Ho2 Ha2. apply runs_ret. split; [|right; split; [done|by apply oom_tail]]. cbn [snd].
        apply (list_result_cons {[+ p +]}); [done|done| |done]. apply (keeps_to _ _ _ _ Hk2).
        rewrite owned_app, owned_one. unfold blocks. cbn [g_self g_addr g_canonname with_addr block]. multiset_solver.
      - intros q y w3 Hk2 Ha2. apply runs_ret. split; [|left; split; [done|cbn [snd]; by rewrite fmap_app]]. cbn [snd].
        apply (list_result_cons {[+ p +]}); [done|done| |done]. apply (keeps_to _ _ _ _ Hk2).
        rewrite owned_app, owned_one. unfold blocks. cbn [g_self g_addr g_canonname with_addr block]. multiset_solver. }
    destruct Hf as [-> | ->]; by apply Hfin.
Qed.

(** [rc] of ga_port: the number, or -1 without memory. *)
Definition ported (l0 pure : list info) (n : Z) (x : Z * list info) (evs : list event) : Prop :=
  list_result l0 x.2 evs /\ (x.1 = n /\ erase <$> x.2 = pure \/ x.1 = -1 /\ out_of_memory evs).

(** What was done to the head, before the rest of the list. *)
Lemma ported_cons a hd pure_hd l pure n x evs0 evs :
  list_result [a] hd evs0 -> erase <$> hd = pure_hd -> ported l pure n x evs ->
  ported (a :: l) (pure_hd ++ pure) n (x.1, hd ++ x.2) (evs0 ++ evs).
Proof.
  intros [Hk Ha] <- [[Hk2 Ha2] Hx]. split.
  - split; [|by rewrite asked_app, Ha, Ha2]. unfold keeps_blocks in *. cbn [snd].
    rewrite owned_cons, owned_app, allocated_app, freed_app. rewrite owned_one in Hk. multiset_solver.
  - destruct Hx as [[H1 H2]|[H1 H2]]; [left|right; split; [done|by apply out_of_memory_r]].
    split; [done|]. cbn [snd]. by rewrite fmap_app, H2.
Qed.
Lemma no_memory_port l0 l1 pure n evs :
  list_result l0 l1 evs -> out_of_memory evs -> ported l0 pure n (-1, l1) evs.
Proof. intros. split; [done|by right]. Qed.
Lemma list_result_fill port socktype ai : list_result [ai] [(fill_port port socktype ai).1] [].
Proof. split; [|done]. unfold keeps_blocks. by rewrite !owned_one, blocks_fill. Qed.

Lemma list_result_frame a hd l evs : list_result [a] hd evs -> list_result (a :: l) (hd ++ l) evs.
Proof.
  intros [Hk Ha]. split; [|done]. unfold keeps_blocks in *. rewrite owned_cons, owned_app. rewrite owned_one in Hk. multiset_solver.
Qed.

(** The clone owns its own two blocks. *)
Lemma runs_ga_clone {B} ai (k : option (info * bool) -> M B) (Q : B -> list event -> Prop) w :
  (forall evs w', list_result [ai] [ai] evs -> out_of_memory evs ->
     runs (k None) (fun b ev => Q b (evs ++ ev)) blocked w') ->
  (forall new evs w', list_result [ai] [ai; new] evs -> out_of_memory evs ->
     runs (k (Some (new, false))) (fun b ev => Q b (evs ++ ev)) blocked w') ->
  (forall new evs w', list_result [ai] [ai; new] evs -> erase new = clone_of (erase ai) ->
     runs (k (Some (new, true))) (fun b ev => Q b (evs ++ ev)) blocked w') ->
  runs (ga_clone ai ≫= k) Q blocked w.
Proof.
  intros H1 H2 H3. apply runs_bind. unfold ga_clone. apply runs_calloc; [done| |].
  - intros x w1 Hk Ho Ha. apply runs_ret. intros w2. apply (H1 [x]); [|done]. split; [|done]. apply (keeps_to _ _ _ _ Hk). multiset_solver.
  - intros p x w1 Hk Ha. cbv zeta. unfold malloc. apply runs_alloc; [done..| |].
    + intros y w2 Hk2 Ho Ha2. apply runs_ret. intros w3. apply (H2 _ [x; y]); [|by apply oom_tail].
      apply (list_result_cons {[+ p +]}); [done|done| |done]. apply (keeps_to _ _ _ _ Hk2).
      rewrite owned_cons, !owned_one. unfold blocks at 1 3. cbn [g_self g_addr g_canonname block]. multiset_solver.
    + intros q y w2 Hk2 Ha2. apply runs_ret. intros w3. apply (H3 _ [x; y]).
      * apply (list_result_cons {[+ p +]}); [done|done| |done]. apply (keeps_to _ _ _ _ Hk2).
        rewrite owned_cons, !owned_one. unfold blocks at 3. cbn [g_self g_addr g_canonname with_addr block]. multiset_solver.
      * unfold clone_of, erase. cbn. by destruct (g_addr ai) as [[? ?]|].
Qed.

Lemma ga_port_runs l port socktype n w :
  runs (ga_port l port socktype n)
    (ported l ((erase <$> l) ≫= port_step port socktype) (n + ports_found socktype l)) blocked w.
Proof.
  revert n w. induction l as [|ai l IH]; intros n w; cbn [ga_port].
  - apply runs_ret. split; [apply list_result_nil|]. left. split; [|done]. unfold ports_found. simpl. lia.
  - cbn [fmap list_fmap]. rewrite bind_cons. unfold port_step at 1. cbn [erase g_flags g_socktype].
    assert (forall hd pure_hd evs0 m w1, list_result [ai] hd evs0 -> erase <$> hd = pure_hd -> n + port_found socktype ai = m ->
      runs ('(r, l') ← ga_port l port socktype m; mret (r, hd ++ l'))
        (fun b ev => ported (ai :: l) (pure_hd ++ ((erase <$> l) ≫= port_step port socktype)) (n + ports_found socktype (ai :: l)) b (evs0 ++ ev))
        blocked w1) as Hgo.
    { intros hd pure_hd evs0 m w1 Hl Hp Hm. apply runs_bind. eapply runs_mono; [apply IH| |done].
      intros [r l'] evs Hx w2. apply runs_ret. rewrite app_nil_r.
      replace (n + ports_found socktype (ai :: l)) with (m + ports_found socktype l) by (rewrite <- Hm; cbn [ports_found foldr]; unfold ports_found; lia).
      by apply (ported_cons ai hd pure_hd l _ _ (r, l')). }
    assert (port_found socktype ai = if flag (g_flags ai) AI_CLONE || (g_socktype ai =? socktype) then
      (fill_port port socktype ai).2 else 0) as Hfound by (rewrite fill_found; done).
    destruct (flag (g_flags ai) AI_CLONE) eqn:Ec; [destruct (g_socktype ai =? 0) eqn:E0|destruct (g_socktype ai =? socktype) eqn:Es];
      cbn [negb orb] in *.
    + destruct (fill_port port socktype ai) as [ai' k] eqn:Ef. apply (Hgo [ai'] [(fill_port port socktype (erase ai)).1] []).
      * pose proof (list_result_fill port socktype ai) as H. by rewrite Ef in H.
      * by rewrite <- erase_fill, Ef.
      * by rewrite Hfound.
    + apply runs_ga_clone.
      * intros evs w1 Hl Ho. apply runs_ret. rewrite app_nil_r. apply no_memory_port; [by apply (list_result_frame ai [ai])|done].
      * intros new evs w1 Hl Ho. apply runs_ret. rewrite app_nil_r. apply no_memory_port; [by apply (list_result_frame ai [ai; new])|done].
      * intros new evs w1 Hl He. destruct (fill_port port socktype new) as [new' k] eqn:Ef.
        apply (Hgo [ai; new'] [erase ai; (fill_port port socktype (clone_of (erase ai))).1] evs).
        -- destruct Hl as [Hk Ha]. split; [|done]. unfold keeps_blocks in *. rewrite Hk, !owned_cons. f_equal.
           pose proof (blocks_fill port socktype new) as Hb. rewrite Ef in Hb. cbn [fst] in Hb. by rewrite Hb.
        -- cbn [fmap list_fmap]. f_equal. f_equal. by rewrite <- He, <- erase_fill, Ef.
        -- rewrite Hfound, fill_found. pose proof (fill_found port socktype new) as Hn. rewrite Ef in Hn. cbn [snd] in Hn. rewrite Hn.
           replace (g_family new) with (g_family ai); [done|]. change (g_family ai) with (g_family (clone_of (erase ai))). by rewrite <- He.
    + destruct (fill_port port socktype ai) as [ai' k] eqn:Ef. apply (Hgo [ai'] [(fill_port port socktype (erase ai)).1] []).
      * pose proof (list_result_fill port socktype ai) as H. by rewrite Ef in H.
      * by rewrite <- erase_fill, Ef.
      * by rewrite Hfound.
    + apply (Hgo [ai] [erase ai] []); [apply list_result_nil|done|]. rewrite Hfound. lia.
Qed.

(** ** The service *)

Definition enter_all (ports : list (list Z * Z)) (l : list info) : list info :=
  foldl (fun l p => l ≫= port_step p.1 p.2) l ports.
Fixpoint found_all (ports : list (list Z * Z)) (l : list info) : Z :=
  match ports with
  | [] => 0
  | (port, socktype) :: ports' => ports_found socktype l + found_all ports' (l ≫= port_step port socktype)
  end.

Lemma ports_found_pos socktype l : 0 <= ports_found socktype l.
Proof.
  induction l as [|ai l IH]; cbn [ports_found foldr]; [lia|]. unfold ports_found in IH.
  assert (0 <= port_found socktype ai) by (unfold port_found; destruct (_ || _); [destruct (_ || _)|]; lia). lia.
Qed.
Lemma found_all_pos ports l : 0 <= found_all ports l.
Proof.
  revert l. induction ports as [|[port socktype] ports IH]; intros l; cbn [found_all]; [lia|].
  pose proof (ports_found_pos socktype l). specialize (IH (l ≫= port_step port socktype)). lia.
Qed.

Lemma enter_ports_runs l ports n w :
  0 <= n ->
  runs (enter_ports l ports n) (ported l (enter_all ports (erase <$> l)) (n + found_all ports (erase <$> l))) blocked w.
Proof.
  revert l n w. induction ports as [|[port socktype] ports IH]; intros l n w Hn; cbn [enter_ports].
  - apply runs_ret. split; [apply list_result_nil|]. left. split; [simpl; lia|done].
  - apply runs_bind. eapply runs_mono; [apply ga_port_runs| |done]. intros [rc l1] evs [Hl Hr] w1. cbn [fst snd] in *.
    rewrite Z.add_0_l in Hr. pose proof (ports_found_pos socktype l) as Hp.
    destruct (rc <? 0) eqn:Erc; zbool.
    + apply runs_ret. rewrite app_nil_r. apply no_memory_port; [done|]. destruct Hr as [[? _]|[_ Ho]]; [lia|done].
    + destruct Hr as [[-> Hl1]|[-> _]]; [|lia]. eapply runs_mono; [apply IH; lia| |done].
      intros [rc2 l2] evs2 [Hl2 Hr2]. cbn [fst snd] in *. split; [by eapply list_result_app|].
      destruct Hr2 as [[-> He]|[-> Ho]]; [left|right; split; [done|by apply out_of_memory_r]].
      cbn [found_all enter_all foldl fst snd]. rewrite ports_found_erase, <- Hl1. split; [cbn [fst]; lia|exact He].
Qed.

Definition service_call (serv : list Z) (proto : string) : call := libc "getservbyname" [] (serv ++ [0] ++ chars proto).
(** The port of one protocol, when the socket type allows it and the service is known. *)
Inductive proto_ports (h : hints) (serv : list Z) (proto : string) (socktype : Z) : list (list Z * Z) -> list event -> Prop :=
| proto_excluded : h_socktype h <> 0 -> h_socktype h <> socktype -> proto_ports h serv proto socktype [] []
| proto_unknown a :
    h_socktype h = 0 \/ h_socktype h = socktype -> a_ret a < 0 ->
    proto_ports h serv proto socktype [] [(service_call serv proto, a)]
| proto_known a :
    h_socktype h = 0 \/ h_socktype h = socktype -> 0 <= a_ret a ->
    proto_ports h serv proto socktype [(map u8 [byte_at (a_data a) 0; byte_at (a_data a) 1], socktype)] [(service_call serv proto, a)].
(** A number for the type of the hints or for both; a name for the types whose protocol knows it. *)
Definition serv_ports (h : hints) (serv : list Z) (ports : list (list Z * Z)) (asks : list event) : Prop :=
  if isdigit (byte_at serv 0) then
    asks = [] /\ ports = let port := htons (atoi serv) in
      if h_socktype h =? 0 then [(port, SOCK_STREAM); (port, SOCK_DGRAM)] else [(port, h_socktype h)]
  else exists p1 a1 p2 a2, proto_ports h serv "tcp" SOCK_STREAM p1 a1 /\ proto_ports h serv "udp" SOCK_DGRAM p2 a2 /\
    ports = p1 ++ p2 /\ asks = a1 ++ a2.

Definition no_port_error (h : hints) : Z := if h_socktype h =? 0 then EAI_NONAME else EAI_SERVICE.

(** [n] found so far for the ports before. *)
Definition try_result (l0 : list info) (n : Z) (P : list (list Z * Z) -> list event -> Prop) (x : Z * list info) (evs : list event) : Prop :=
  keeps_blocks (owned l0) evs (owned x.2) /\
  (x.1 = -1 /\ out_of_memory evs \/
   exists ports, P ports (asked evs) /\ x.1 = n + found_all ports (erase <$> l0) /\ erase <$> x.2 = enter_all ports (erase <$> l0)).

Lemma runs_try_ports l ports n P asks evs0 w :
  P ports asks -> 0 <= n -> keeps_blocks ∅ evs0 ∅ -> asked evs0 = asks ->
  runs (enter_ports l ports n) (fun x ev => try_result l n P x (evs0 ++ ev)) blocked w.
Proof.
  intros HP Hn Hk Ha. eapply runs_mono; [by apply enter_ports_runs| |done]. intros [r l1] evs [[Hk2 Ha2] Hr]. cbn [fst snd] in *.
  split; [eapply keeps_app; [|exact Hk2]; apply (keeps_to _ _ _ _ Hk); multiset_solver|].
  destruct Hr as [[-> He]|[-> Ho]]; [right|left; split; [done|by apply out_of_memory_r]].
  exists ports. rewrite asked_app, Ha, Ha2, app_nil_r. done.
Qed.

Lemma try_service_runs l h serv proto socktype n w :
  0 <= n ->
  runs (try_service l h serv proto socktype n) (try_result l n (proto_ports h serv proto socktype)) blocked w.
Proof.
  intros Hn. unfold try_service.
  assert (forall evs asks, keeps_blocks ∅ evs ∅ -> asked evs = asks -> proto_ports h serv proto socktype [] asks ->
    try_result l n (proto_ports h serv proto socktype) (n, l) evs) as Hnone.
  { intros evs asks Hk Ha HP. split; [apply (keeps_to _ _ _ _ Hk); cbn [snd]; multiset_solver|]. right. exists []. rewrite Ha.
    split; [done|]. split; [simpl; lia|done]. }
  destruct (_ || _) eqn:Eh; zbool.
  2:{ apply runs_ret. apply (Hnone [] []); [done|done|]. apply proto_excluded; lia. }
  assert (h_socktype h = 0 \/ h_socktype h = socktype) as Hs by lia.
  apply (runs_ext _ (kernel (service_call serv proto) ≫= fun a =>
    match (if a_ret a <? 0 then None else Some (map u8 [byte_at (a_data a) 0; byte_at (a_data a) 1])) with
    | Some port => enter_ports l [(port, socktype)] n | None => mret (n, l) end)).
  { unfold getservbyname, service_call, mbind, M_bind. by destruct (kernel _ w) as [[a|] w1]. }
  apply runs_call; [done|done|]. intros a w1 x _.
  assert (keeps_blocks ∅ [(service_call serv proto, x)] ∅) as Hk by done.
  destruct (a_ret x <? 0) eqn:Er; zbool.
  - apply runs_ret. eapply Hnone; [done|reflexivity|]. by apply proto_unknown.
  - apply (runs_try_ports l _ n _ [(service_call serv proto, x)] [(service_call serv proto, x)]); [|done|done|done]. by apply proto_known.
Qed.

Lemma enter_all_app p1 p2 l : enter_all (p1 ++ p2) l = enter_all p2 (enter_all p1 l).
Proof. apply foldl_app. Qed.
Lemma found_all_app p1 p2 l : found_all (p1 ++ p2) l = found_all p1 l + found_all p2 (enter_all p1 l).
Proof.
  revert l. induction p1 as [|[port socktype] p1 IH]; intros l; [done|]. cbn [app found_all]. rewrite IH.
  change (enter_all ((port, socktype) :: p1) l) with (enter_all p1 (l ≫= port_step port socktype)). lia.
Qed.

Definition serv_result (l0 : list info) (h : hints) (serv : list Z) (x : Z * list info) (evs : list event) : Prop :=
  keeps_blocks (owned l0) evs (owned x.2) /\
  (x.1 = EAI_MEMORY /\ out_of_memory evs \/
   exists ports, serv_ports h serv ports (asked evs) /\ erase <$> x.2 = enter_all ports (erase <$> l0) /\
     x.1 = if found_all ports (erase <$> l0) =? 0 then no_port_error h else 0).

Lemma ga_serv_runs l h serv w : runs (ga_serv l h serv) (serv_result l h serv) blocked w.
Proof.
  unfold ga_serv. apply runs_bind.
  apply (runs_mono _ (try_result l 0 (serv_ports h serv)) _ blocked); [| |done].
  - unfold serv_ports. destruct (isdigit (byte_at serv 0)).
    + cbv zeta. destruct (h_socktype h =? 0); cbn [negb];
        by apply (runs_try_ports l _ 0 _ [] []).
    + apply runs_bind. eapply runs_mono; [apply try_service_runs; lia| |done].
      intros [n1 l1] ev1 [Hk1 Hr1] w1. cbn [fst snd] in *.
      destruct Hr1 as [[-> Ho]|(p1 & HP1 & -> & He1)].
      * apply runs_ret. rewrite app_nil_r. split; [done|]. by left.
      * rewrite Z.add_0_l. pose proof (found_all_pos p1 (erase <$> l)). replace (_ <? 0) with false by lia.
        eapply runs_mono; [apply try_service_runs; lia| |done].
        intros [n2 l2] ev2 [Hk2 Hr2]. cbn [fst snd] in *. split; [by eapply keeps_app|].
        destruct Hr2 as [[-> Ho]|(p2 & HP2 & -> & He2)]; [left; split; [done|by apply out_of_memory_r]|right].
        exists (p1 ++ p2). rewrite asked_app, found_all_app, enter_all_app, <- He1. split; [|split; [cbn [fst]; lia|done]].
        by exists p1, (asked ev1), p2, (asked ev2).
  - intros [n l1] evs [Hk Hr] w1. cbn [fst snd] in *. destruct Hr as [[-> Ho]|(ports & HP & -> & He)].
    + apply runs_ret. rewrite app_nil_r. split; [done|]. by left.
    + rewrite Z.add_0_l. pose proof (found_all_pos ports (erase <$> l)). replace (_ <? 0) with false by lia.
      unfold no_port_error. destruct (found_all _ _ =? 0) eqn:E0; apply runs_ret; rewrite app_nil_r; (split; [done|]); right; exists ports; rewrite ?E0; done.
Qed.

(** ** The searches *)

Definition family_ok (h : hints) (family : Z) : Prop := h_family h = AF_UNSPEC \/ h_family h = family.
Definition wants_canon (hostname : option (list Z)) (h : hints) : bool :=
  negb (no_name hostname) && flag (h_flags h) AI_CANONNAME.

Section Search.
Context (hostname : option (list Z)) (h : hints) (two : bool).

(** One search: the addresses, the name that the resolver gives, the questions to it. *)
Inductive located (host : list Z) (family : Z) : list (Z * list Z) -> option (list Z) -> list event -> Prop :=
| located_literal4 addr :
    literal4 host = Some addr -> family_ok h AF_INET ->
    located host family (if family =? AF_INET then [(AF_INET, addr)] else []) None []
| located_literal6 addr :
    literal4 host = None -> literal6 host = Some addr -> family_ok h AF_INET6 ->
    located host family (if family =? AF_INET6 then [(AF_INET6, addr)] else []) None []
| located_nowhere a :
    literal4 host = None -> literal6 host = None -> two = true -> a_ret a < 0 ->
    located host family [] None [(hostent_call two host family, a)]
| located_host a :
    literal4 host = None -> literal6 host = None -> 0 <= a_ret a -> family_ok h (h_addrtype (hostent_of a)) ->
    located host family (pair (h_addrtype (hostent_of a)) <$> h_addr_list (hostent_of a)) (Some (h_name (hostent_of a)))
      [(hostent_call two host family, a)].
(** A search that ends with an error. *)
Inductive unlocated (host : list Z) (family : Z) : Z -> list event -> Prop :=
| unlocated_literal4 addr :
    literal4 host = Some addr -> ~ family_ok h AF_INET -> unlocated host family EAI_ADDRFAMILY []
| unlocated_literal6 addr :
    literal4 host = None -> literal6 host = Some addr -> ~ family_ok h AF_INET6 -> unlocated host family EAI_ADDRFAMILY []
| unlocated_host a :
    literal4 host = None -> literal6 host = None -> two = false -> a_ret a < 0 ->
    unlocated host family (h_errno_error (a_err a)) [(hostent_call two host family, a)]
| unlocated_family a :
    literal4 host = None -> literal6 host = None -> 0 <= a_ret a -> ~ family_ok h (h_addrtype (hostent_of a)) ->
    unlocated host family EAI_ADDRFAMILY [(hostent_call two host family, a)].

(** The searches in order; the first name counts. *)
Inductive all_located : list (list Z * Z) -> list (Z * list Z) -> option (list Z) -> list event -> Prop :=
| all_located_nil : all_located [] [] None []
| all_located_cons host family search addrs addrs' name name' asks asks' :
    located host family addrs name asks -> all_located search addrs' name' asks' ->
    all_located ((host, family) :: search) (addrs ++ addrs') (if name is Some n then Some n else name') (asks ++ asks').
Inductive search_fails : list (list Z * Z) -> Z -> list event -> Prop :=
| search_fails_here host family search rc asks :
    unlocated host family rc asks -> search_fails ((host, family) :: search) rc asks
| search_fails_later host family search addrs name asks rc asks' :
    located host family addrs name asks -> search_fails search rc asks' ->
    search_fails ((host, family) :: search) rc (asks ++ asks').

Definition owned_st (st : gai_state) : gmultiset Z := owned st.1 ⊎ block st.2.
Definition fresh_at (x : Z * list Z) : info := fresh h x.1 x.2.
(** The canonical name that is kept. *)
Definition canon_after (canon name : option (list Z)) : option (list Z) :=
  match canon with Some c => Some c | None => if wants_canon hostname h then name else None end.

(** The step from [st], with the addresses and the name of the relation [P], or with an error of [F]. *)
Definition search_result (st : gai_state) (P : list (Z * list Z) -> option (list Z) -> list event -> Prop)
    (F : Z -> list event -> Prop) (x : Z * gai_state) (evs : list event) : Prop :=
  keeps_blocks (owned_st st) evs (owned_st x.2) /\
  (x.1 = 0 /\ (exists addrs name, P addrs name (asked evs) /\ erase <$> x.2.1 = (erase <$> st.1) ++ (fresh_at <$> addrs) /\
     (snd <$> x.2.2) = canon_after (snd <$> st.2) name) \/
   x.1 <> 0 /\ (wants_canon hostname h = false -> st.2 = None -> x.2.2 = None) /\
   (x.1 = EAI_MEMORY /\ out_of_memory evs \/ F x.1 (asked evs))).

Lemma family_ok_spec family : negb (h_family h =? AF_UNSPEC) && negb (h_family h =? family) = false <-> family_ok h family.
Proof. unfold family_ok. lia. Qed.
Lemma family_bad_spec family : negb (h_family h =? AF_UNSPEC) && negb (h_family h =? family) = true <-> ~ family_ok h family.
Proof. unfold family_ok. lia. Qed.

Lemma canon_after_none canon : canon_after canon None = canon.
Proof. unfold canon_after. destruct canon; [done|]. by destruct (wants_canon hostname h). Qed.

Lemma add_addresses_runs family addrs l w :
  inet_family family ->
  runs (add_addresses h family addrs l) (grown l ((erase <$> l) ++ (fresh h family <$> addrs))) blocked w.
Proof.
  intros Hf. revert l w. induction addrs as [|addr addrs IH]; intros l w; cbn [add_addresses].
  - apply runs_ret. split; [apply list_result_nil|]. left. split; [done|]. cbn [snd fmap list_fmap]. by rewrite app_nil_r.
  - apply runs_bind. eapply runs_mono; [by apply ga_aistruct_runs| |done]. intros [rc l1] evs [Hl Hr] w1. cbn [fst snd] in *.
    destruct Hr as [[-> He]|[-> Ho]]; cbn [Z.eqb negb].
    + eapply runs_mono; [apply IH| |done]. intros [rc2 l2] evs2 [Hl2 Hr2]. split; [by eapply list_result_app|]. cbn [fst snd] in *.
      destruct Hr2 as [[-> He2]|[-> Ho2]]; [left|right; split; [done|by apply out_of_memory_r]].
      split; [done|]. cbn [fmap list_fmap]. by rewrite He2, He, <- app_assoc.
    + apply runs_ret. rewrite app_nil_r. split; [done|]. by right.
Qed.

Lemma add_literal_runs family sfamily addr st (P : list (Z * list Z) -> option (list Z) -> list event -> Prop) (F : Z -> list event -> Prop) w :
  inet_family family -> (family_ok h family -> P (if sfamily =? family then [(family, addr)] else []) None []) ->
  (~ family_ok h family -> F EAI_ADDRFAMILY []) ->
  runs (add_literal h family sfamily addr st) (search_result st P F) blocked w.
Proof.
  intros Hf HP HF. destruct st as [l canon]. unfold add_literal.
  destruct (_ && _) eqn:Eh.
  - apply family_bad_spec in Eh. apply runs_ret. split; [done|]. right. split; [done|]. split; [done|]. right. by apply HF.
  - apply family_ok_spec in Eh. specialize (HP Eh). destruct (sfamily =? family); cbn [negb].
    + apply runs_bind. eapply runs_mono; [by apply ga_aistruct_runs| |done]. intros [rc l1] evs [[Hk Ha] Hr] w1. apply runs_ret.
      rewrite app_nil_r. cbn [fst snd] in *. split; [unfold owned_st, keeps_blocks in *; cbn [fst snd]; multiset_solver|]. rewrite Ha.
      destruct Hr as [[-> He]|[-> Ho]]; [left|right; split; [done|]; split; [done|]; by left]. split; [done|]. exists [(family, addr)], None.
      split; [done|]. split; [done|]. cbn [fst snd]. by rewrite canon_after_none.
    + apply runs_ret. split; [done|]. left. split; [done|]. exists [], None. split; [done|]. cbn [fst snd fmap list_fmap].
      by rewrite app_nil_r, canon_after_none.
Qed.

Lemma runs_strdup {B} s (k : option (Z * list Z) -> M B) (Q : B -> list event -> Prop) w :
  (forall x w', keeps_blocks ∅ [x] ∅ -> out_of_memory [x] -> asked [x] = [] -> runs (k None) (fun b ev => Q b (x :: ev)) blocked w') ->
  (forall p x w', keeps_blocks ∅ [x] {[+ p +]} -> asked [x] = [] -> runs (k (Some (p, s))) (fun b ev => Q b (x :: ev)) blocked w') ->
  runs (strdup s ≫= k) Q blocked w.
Proof.
  intros H1 H2. apply runs_bind. unfold strdup. apply runs_alloc; [done..| |].
  - intros x w1 Hk Ho Ha. apply runs_ret. intros w2. by apply (H1 x).
  - intros p x w1 Hk Ha. apply runs_ret. intros w2. by apply (H2 p x).
Qed.

(** The canonical name is copied the first time. *)
Lemma runs_save_canon {B} name canon (k : Z * option (Z * list Z) -> M B) (Q : B -> list event -> Prop) w :
  (forall rc canon' evs w', keeps_blocks (block canon) evs (block canon') -> asked evs = [] ->
     rc = 0 /\ snd <$> canon' = canon_after (snd <$> canon) (Some name) \/ rc = EAI_MEMORY /\ canon' = canon /\ out_of_memory evs ->
     runs (k (rc, canon')) (fun b ev => Q b (evs ++ ev)) blocked w') ->
  runs ((if wants_canon hostname h && bool_decide (canon = None) then
           c ← strdup name; match c with None => mret (EAI_MEMORY, canon) | Some c => mret (0, Some c) end
         else mret (0, canon)) ≫= k) Q blocked w.
Proof.
  intros Hk. apply runs_bind. destruct (wants_canon hostname h) eqn:Ew; cbn [andb].
  - destruct canon as [c|]; cbn [bool_decide].
    + rewrite bool_decide_false by done. apply runs_ret. intros w1. by apply (Hk 0 (Some c) []); [| |left].
    + rewrite bool_decide_true by done. apply runs_strdup.
      * intros x w1 Hb Ho Ha. apply runs_ret. intros w2. by apply (Hk EAI_MEMORY None [x]); [| |right].
      * intros p x w1 Hb Ha. apply runs_ret. intros w2. apply (Hk 0 (Some (p, name)) [x]); [done|done|]. left.
        split; [done|]. unfold canon_after. cbn. by rewrite Ew.
  - apply runs_ret. intros w1. apply (Hk 0 canon []); [done|done|]. left. split; [done|]. unfold canon_after. rewrite Ew. by destruct canon.
Qed.

Lemma hostent_family a : inet_family (h_addrtype (hostent_of a)).
Proof. unfold inet_family, hostent_of. destruct (a_data a); cbn [h_addrtype]; [by left|]. destruct (_ =? _); [by right|by left]. Qed.

Lemma add_host_runs host family st w :
  literal4 host = None -> literal6 host = None ->
  runs (add_host hostname h two host family st) (search_result st (located host family) (unlocated host family)) blocked w.
Proof.
  intros H4 H6. destruct st as [l canon]. unfold add_host.
  assert (is_output (hostent_call two host family) = false /\ resolves (hostent_call two host family) = true /\
    allocates (hostent_call two host family) = false /\ forall a, freed_by (hostent_call two host family, a) = ∅) as (Hout & Hres & Hall & Hfree)
    by (by destruct two).
  apply runs_call; [done|done|]. intros a w1 x _. set (e0 := (hostent_call two host family, x)).
  assert (asked (@cons (call * answer) e0 (@nil event)) = [e0]) as Ha0 by (unfold asked; by rewrite filter_cons_True by done).
  assert (forall m, keeps_blocks m [e0] m) as Hk0.
  { intros m. unfold keeps_blocks, allocated, freed. cbn [foldr]. unfold e0. rewrite Hfree. unfold allocated_by. cbn [fst]. by rewrite Hall. }
  destruct (a_ret x <? 0) eqn:Ex; zbool.
  - apply runs_ret. fold e0. split; [apply Hk0|]. rewrite Ha0.
    assert (two = true \/ two = false) as [Et|Et] by (clear; destruct two; auto).
    + replace (if two then 0 else h_errno_error (a_err x)) with 0 by (by rewrite Et). left. split; [done|]. exists [], None. split; [by apply located_nowhere|]. cbn [fst snd fmap list_fmap].
      by rewrite app_nil_r, canon_after_none.
    + replace (if two then 0 else h_errno_error (a_err x)) with (h_errno_error (a_err x)) by (by rewrite Et).
      right. split; [|split; [done|]; right; by apply unlocated_host].
      cbn [fst]. unfold h_errno_error. by repeat (destruct (_ =? _); [done|]).
  - set (hp := hostent_of x). destruct (_ && _) eqn:Eh.
    { apply family_bad_spec in Eh. apply runs_ret. fold e0. split; [apply Hk0|]. rewrite Ha0. right. split; [done|]. split; [done|]. right. by apply unlocated_family. }
    apply family_ok_spec in Eh. fold (wants_canon hostname h).
    apply runs_save_canon. intros rc canon' evs w2 Hk Ha Hr.
    assert (forall m, keeps_blocks (m ⊎ block canon) (e0 :: evs) (m ⊎ block canon')) as Hk1.
    { intros m. apply (keeps_app _ (m ⊎ block canon) _ [e0]); [apply Hk0|]. unfold keeps_blocks in *. multiset_solver. }
    assert (asked (e0 :: evs) = [e0]) as Ha1.
    { etransitivity; [exact (asked_app [e0] evs)|]. rewrite Ha, app_nil_r. exact Ha0. }
    destruct Hr as [[-> Hc]|(-> & -> & Ho)]; cbn [Z.eqb negb].
    2:{ apply runs_ret. rewrite app_nil_r. fold e0. split; [apply Hk1|]. right. split; [done|]. split; [done|]. left. split; [done|by apply oom_tail]. }
    apply runs_bind. eapply runs_mono; [apply add_addresses_runs, hostent_family| |done].
    intros [rc l1] evs2 [[Hk2 Ha2] Hr2] w3. apply runs_ret. rewrite app_nil_r. cbn [fst snd] in *.
    fold e0. change (e0 :: evs ++ evs2) with ((e0 :: evs) ++ evs2). split.
    { unfold owned_st. cbn [fst snd]. eapply keeps_app; [apply Hk1|]. unfold keeps_blocks in *. multiset_solver. }
    rewrite asked_app, Ha1, Ha2. destruct Hr2 as [[-> He]|[-> Ho]]; [left|right; split; [done|]].
    2:{ split; [|left; split; [done|by apply out_of_memory_r]]. cbn [snd]. intros Hw ->. unfold canon_after in Hc. rewrite Hw in Hc. by destruct canon'. }
    split; [done|]. exists (pair (h_addrtype hp) <$> h_addr_list hp), (Some (h_name hp)). split; [by apply located_host|].
    cbn [fst snd]. split; [|done]. by rewrite He, <- list_fmap_compose.
Qed.

Lemma search_one_runs sptr st w :
  runs (search_one hostname h two sptr st) (search_result st (located sptr.1 sptr.2) (unlocated sptr.1 sptr.2)) blocked w.
Proof.
  destruct sptr as [host family]. unfold search_one. cbn [fst snd].
  destruct (literal4 host) as [addr|] eqn:E4.
  { apply add_literal_runs; [by left|intros; by apply located_literal4|intros; by eapply unlocated_literal4]. }
  destruct (literal6 host) as [addr|] eqn:E6.
  { apply add_literal_runs; [by right|intros; by apply located_literal6|intros; by eapply unlocated_literal6]. }
  by apply add_host_runs.
Qed.

Lemma canon_after_trans canon name name' :
  canon_after (canon_after canon name) name' = canon_after canon (if name is Some n then Some n else name').
Proof. unfold canon_after. destruct canon; [done|]. destruct (wants_canon hostname h); [|done]. by destruct name. Qed.

Lemma search_all_runs search st w :
  runs (search_all hostname h two search st) (search_result st (all_located search) (search_fails search)) blocked w.
Proof.
  revert st w. induction search as [|[host family] search IH]; intros st w; cbn [search_all].
  - apply runs_ret. split; [done|]. left. split; [done|]. exists [], None. split; [constructor|]. cbn [fst snd fmap list_fmap].
    by rewrite app_nil_r, canon_after_none.
  - apply runs_bind. eapply runs_mono; [apply search_one_runs| |done]. intros [rc st1] ev1 [Hk1 Hr1] w1. cbn [fst snd] in *.
    destruct Hr1 as [(-> & addrs & name & HP & He1 & Hc1)|(Hrc & Hr1)].
    + cbn [Z.eqb negb]. eapply runs_mono; [apply IH| |done]. intros [rc2 st2] ev2 [Hk2 Hr2]. cbn [fst snd] in *.
      split; [by eapply keeps_app|]. rewrite asked_app.
      destruct Hr2 as [(-> & addrs' & name' & HP' & He2 & Hc2)|(Hrc2 & Hr2)].
      * left. split; [done|]. eexists _, _. split; [by eapply all_located_cons|]. split.
        -- cbn [fst snd]. by rewrite He2, He1, fmap_app, <- app_assoc.
        -- cbn [fst snd]. by rewrite Hc2, Hc1, canon_after_trans.
      * right. split; [done|]. destruct Hr2 as [Hw2 Hr2]. split.
        { intros Hw Hst. apply Hw2; [done|]. rewrite Hst in Hc1. unfold canon_after in Hc1. cbn in Hc1. rewrite Hw in Hc1. by destruct (snd st1). }
        destruct Hr2 as [[-> Ho]|HF]; [left; split; [done|by apply out_of_memory_r]|right].
        by eapply search_fails_later.
    + replace (rc =? 0) with false by lia. cbn [negb]. apply runs_ret. rewrite app_nil_r. split; [done|]. right. split; [done|].
      destruct Hr1 as [Hw1 Hr1]. split; [done|]. destruct Hr1 as [?|HF]; [by left|right]. by apply search_fails_here.
Qed.
End Search.

(** ** The list of the comment in ga_port.c: for each address, each socket type with its port *)

Definition sockaddr_port (family : Z) (addr port : list Z) : list Z :=
  take 2 (sockaddr_for family addr) ++ port ++ drop 4 (sockaddr_for family addr).
Definition entry (h : hints) (flags : Z) (x : Z * list Z) (port : list Z) (socktype : Z) : info :=
  Info 0 flags x.1 socktype (h_protocol h) (Some (0, sockaddr_port x.1 x.2 port)) None.
(** Without a service the port is 0; the first structure of an address keeps its flag. *)
Definition entries_of (h : hints) (ports : option (list (list Z * Z))) (x : Z * list Z) : list info :=
  match ports with
  | None => [fresh_at h x]
  | Some ports => imap (fun i p => entry h (if bool_decide (i = 0%nat) then g_flags (fresh_at h x) else 0) x p.1 p.2) ports
  end.

Lemma port_two addr family p1 p2 :
  inet_family family -> length p1 = 2%nat ->
  take 2 (sockaddr_port family addr p1) ++ p2 ++ drop 4 (sockaddr_port family addr p1) = sockaddr_port family addr p2.
Proof.
  intros Hf Hp. unfold sockaddr_port. set (sa := sockaddr_for family addr).
  assert (exists a b c d l, sa = a :: b :: c :: d :: l) as (a & b & c & d & l & ->) by (destruct Hf as [-> | ->]; by eexists _, _, _, _, _).
  destruct p1 as [|x [|y [|]]]; done.
Qed.

Lemma fill_fresh h x port socktype :
  inet_family x.1 ->
  (fill_port port socktype (fresh_at h x)).1 = entry h (g_flags (fresh_at h x)) x port socktype.
Proof. destruct x as [family addr]. cbn [fst]. by intros [-> | ->]. Qed.
Lemma fill_clone h flags x p1 t1 port socktype :
  inet_family x.1 -> length p1 = 2%nat ->
  (fill_port port socktype (clone_of (entry h flags x p1 t1))).1 = entry h 0 x port socktype.
Proof.
  destruct x as [family addr]. cbn [fst]. intros Hf Hp. pose proof (port_two addr family p1 port Hf Hp) as H.
  destruct Hf as [-> | ->];
    match goal with |- _ = entry h 0 (?f, _) _ _ =>
      change (with_addr 0 (take 2 (sockaddr_port f addr p1) ++ port ++ drop 4 (sockaddr_port f addr p1))
        (with_socktype socktype (clone_of (entry h flags (f, addr) p1 t1))) = entry h 0 (f, addr) port socktype) end;
    by rewrite H.
Qed.

(** The ports that ga_serv enters: one or both types for the hint 0, the type of the hint otherwise. *)
Inductive port_list (h : hints) : list (list Z * Z) -> Prop :=
| port_list_none : port_list h []
| port_list_one port socktype :
    length port = 2%nat -> h_socktype h = 0 \/ h_socktype h = socktype -> port_list h [(port, socktype)]
| port_list_two p1 p2 : length p1 = 2%nat -> length p2 = 2%nat -> h_socktype h = 0 -> port_list h [(p1, SOCK_STREAM); (p2, SOCK_DGRAM)].
Lemma serv_port_list h serv ports asks : serv_ports h serv ports asks -> port_list h ports.
Proof.
  unfold serv_ports. destruct (isdigit _).
  - intros [_ ->]. cbv zeta. destruct (h_socktype h =? 0) eqn:E; zbool; constructor; try done. by right.
  - intros (p1 & a1 & p2 & a2 & H1 & H2 & -> & _).
    destruct H1 as [| |a Ha]; destruct H2 as [| |b Hb]; cbn [app]; try (constructor; done).
    apply port_list_two; [done|done|]. unfold SOCK_STREAM, SOCK_DGRAM in *. lia.
Qed.

Lemma enter_all_entries h ports addrs :
  port_list h ports -> ports <> [] -> Forall (fun x => inet_family x.1) addrs ->
  enter_all ports (fresh_at h <$> addrs) = addrs ≫= entries_of h (Some ports).
Proof.
  intros Hports Hne Haddrs.
  assert (forall (f : info -> list info) g, (forall x, inet_family x.1 -> f (fresh_at h x) = g x) -> (fresh_at h <$> addrs) ≫= f = addrs ≫= g) as Hmap.
  { intros f g Hfg. induction Haddrs as [|x addrs Hx _ IH]; [done|]. cbn [fmap list_fmap]. rewrite !bind_cons, IH. f_equal. by apply Hfg. }
  assert (forall port socktype x, inet_family x.1 -> h_socktype h = 0 \/ h_socktype h = socktype ->
    port_step port socktype (fresh_at h x) = [entry h (g_flags (fresh_at h x)) x port socktype]) as Hone.
  { intros port socktype x Hx Hs. unfold port_step. rewrite fill_fresh by done.
    unfold fresh_at, fresh. cbn [g_flags g_socktype]. destruct (h_socktype h =? 0) eqn:E; zbool; [done|].
    cbn [flag]. replace (h_socktype h =? socktype) with true by lia. done. }
  destruct Hports as [|port socktype Hl Hs|p1 p2 H1 H2 H0]; [done| |]; unfold enter_all; cbn [foldl fst snd].
  - apply Hmap. intros x Hx. by rewrite Hone.
  - rewrite (Hmap (port_step p1 SOCK_STREAM) (fun x => [entry h (g_flags (fresh_at h x)) x p1 SOCK_STREAM]))
      by (intros x Hx; apply Hone; [done|by left]).
    clear Hmap Hone. induction Haddrs as [|x addrs Hx _ IH]; [done|]. rewrite !bind_cons. cbn [app]. rewrite bind_cons, IH. f_equal.
    unfold port_step. cbn [entry g_flags g_socktype fresh_at fresh]. rewrite H0. cbn [Z.eqb SOCK_STREAM].
    change (flag AI_CLONE AI_CLONE) with true. cbv iota.
    change (Info 0 AI_CLONE x.1 1 (h_protocol h) (Some (0, sockaddr_port x.1 x.2 p1)) None) with (entry h AI_CLONE x p1 1).
    rewrite fill_clone by done. unfold entries_of, fresh_at, fresh. cbn [g_flags]. by rewrite H0.
Qed.

(** The canonical name of the first structure goes along. *)
Definition named (canon : option (list Z)) (l : list info) : list info :=
  match canon with Some c => with_canonname (0, c) l | None => l end.
Lemma enter_all_named ports canon l : enter_all ports (named canon l) = named canon (enter_all ports l).
Proof.
  destruct canon as [c|]; [|done]. cbn [named]. unfold enter_all. revert l. induction ports as [|[port t] ports IH]; intros l; [done|].
  cbn [foldl fst snd]. rewrite <- IH. f_equal. destruct l as [|ai l]; [done|]. cbn [with_canonname]. rewrite !bind_cons.
  unfold port_step. cbn [g_flags g_socktype].
  assert (forall a c', with_canonname (0, c') [(fill_port port t a).1] = [(fill_port port t (Info (g_self a) (g_flags a) (g_family a)
    (g_socktype a) (g_protocol a) (g_addr a) (Some (0, c')))).1]) as Hfill.
  { intros a c'. unfold fill_port. cbn [with_socktype g_family]. destruct (_ || _); [|done]. unfold set_sin_port. cbn [with_socktype g_addr].
    by destruct a as [? ? ? ? ? [[? ?]|] ?]. }
  destruct (flag _ _); [destruct (g_socktype ai =? 0)|destruct (_ =? t)]; cbn [app with_canonname]; try done;
    rewrite <- (app_nil_l (l ≫= _)); specialize (Hfill ai c); cbn [with_canonname] in Hfill; injection Hfill as ->; done.
Qed.

Lemma found_all_named ports canon l : found_all ports (named canon l) = found_all ports l.
Proof.
  revert l. induction ports as [|[port t] ports IH]; intros l; [done|]. cbn [found_all].
  pose proof (enter_all_named [(port, t)] canon l) as H. cbn [enter_all foldl fst snd] in H. unfold enter_all in H. cbn [foldl fst snd] in H.
  rewrite H, IH. f_equal. destruct canon as [c|]; [|done]. by destruct l.
Qed.

Lemma found_all_zero h ports addrs :
  port_list h ports -> addrs <> [] -> Forall (fun x => inet_family x.1) addrs ->
  found_all ports (fresh_at h <$> addrs) = 0 <-> ports = [].
Proof.
  intros Hp Hne Ha. split; [|by intros ->]. intros H0. destruct Hp as [|port t Hl Hs|p1 p2 H1 H2 Hs]; [done| |]; exfalso; revert H0; cbn [found_all];
    destruct addrs as [|x addrs]; [done| |done|]; inversion Ha as [|? ? Hx _]; subst; cbn [fmap list_fmap ports_found foldr].
  - pose proof (ports_found_pos t (fresh_at h <$> addrs)). unfold ports_found in *.
    assert (port_found t (fresh_at h x) = 1); [|lia].
    unfold port_found, fresh_at, fresh. cbn [g_flags g_socktype g_family]. destruct (h_socktype h =? 0) eqn:E; zbool.
    + by destruct Hx as [-> | ->].
    + replace (h_socktype h =? t) with true by lia. by destruct Hx as [-> | ->].
  - pose proof (ports_found_pos SOCK_STREAM (fresh_at h <$> addrs)).
    match goal with |- ?a + ?b = 0 -> False => assert (0 <= b) by (match goal with |- 0 <= ?c + 0 => pose proof (ports_found_pos SOCK_DGRAM
      ((fresh_at h <$> x :: addrs) ≫= port_step p1 SOCK_STREAM)); unfold ports_found in *; cbn [fmap list_fmap] in *; lia end) end.
    unfold ports_found in *. assert (port_found SOCK_STREAM (fresh_at h x) = 1); [|lia].
    unfold port_found, fresh_at, fresh. cbn [g_flags g_socktype g_family]. rewrite Hs. by destruct Hx as [-> | ->].
Qed.

(** ** freeaddrinfo frees what the list owns *)

Lemma runs_free {B} p (k : unit -> M B) (Q : B -> list event -> Prop) w :
  (forall x w', keeps_blocks {[+ p +]} [x] ∅ -> asked [x] = [] -> runs (k ()) (fun b ev => Q b (x :: ev)) blocked w') ->
  runs (free_ptr p ≫= k) Q blocked w.
Proof.
  intros Hk. apply runs_bind. unfold free_ptr. apply runs_call; [done|done|]. intros a w1 x _. apply runs_ret. intros w2.
  apply (Hk (libc "free" [p] [], x)); [|done]. unfold keeps_blocks.
  change ((∅ ⊎ ∅ : gmultiset Z) ⊎ {[+ p +]} = {[+ p +]} ⊎ ∅ ⊎ ∅). multiset_solver.
Qed.
Lemma runs_free_block {B} b (k : unit -> M B) (Q : B -> list event -> Prop) w :
  (forall evs w', keeps_blocks (block b) evs ∅ -> asked evs = [] -> runs (k ()) (fun b ev => Q b (evs ++ ev)) blocked w') ->
  runs ((match b with Some (p, _) => free_ptr p | None => mret () end) ≫= k) Q blocked w.
Proof.
  intros Hk. destruct b as [[p d]|].
  - apply runs_free. intros x w1 Hx Ha. by apply (Hk [x]).
  - apply runs_bind, runs_ret. intros w1. by apply (Hk []).
Qed.

Lemma freeaddrinfo_runs l w :
  runs (freeaddrinfo l) (fun _ evs => keeps_blocks (owned l) evs ∅ /\ asked evs = []) blocked w.
Proof.
  revert w. induction l as [|ai l IH]; intros w; cbn [freeaddrinfo]; [by apply runs_ret|].
  apply runs_free_block. intros ev1 w1 H1 A1. apply runs_free_block. intros ev2 w2 H2 A2. apply runs_free. intros x w3 H3 A3.
  eapply runs_mono; [apply IH| |done]. intros [] ev4 [H4 A4].
  change (x :: ev4) with ([x] ++ ev4). split; [|by rewrite !asked_app, A1, A2, A3, A4].
  rewrite owned_cons. unfold blocks, keeps_blocks in *. rewrite !allocated_app, !freed_app.
  rewrite gmultiset_disj_union_right_id in H1, H2, H3, H4. multiset_solver.
Qed.

Lemma runs_bad error l m evs0 (Q : Z * list info -> list event -> Prop) w :
  keeps_blocks ∅ evs0 (owned l ⊎ m) ->
  (forall evs, asked evs = [] -> keeps_blocks ∅ (evs0 ++ evs) m -> Q (error, []) (evs0 ++ evs)) ->
  runs (bad error l) (fun x ev => Q x (evs0 ++ ev)) blocked w.
Proof.
  intros Hk HQ. unfold bad. apply runs_bind. eapply runs_mono; [apply freeaddrinfo_runs| |done].
  intros [] evs [Hf Ha] w1. apply runs_ret. rewrite app_nil_r. apply HQ; [done|].
  eapply keeps_app; [exact Hk|]. unfold keeps_blocks in *. rewrite gmultiset_disj_union_right_id in Hf. multiset_solver.
Qed.

(** ** Unix domain names: the types of the hint, or both *)

Definition unix_types (h : hints) : list Z := if h_socktype h =? 0 then [SOCK_STREAM; SOCK_DGRAM] else [h_socktype h].
Definition unix_entry (h : hints) (path : list Z) (socktype : Z) : info :=
  Info 0 0 AF_LOCAL socktype (h_protocol h) (Some (0, sun_bytes path)) None.
Definition unix_result (h : hints) (path : list Z) (x : Z * list info) (evs : list event) : Prop :=
  asked evs = [] /\ keeps_blocks ∅ evs (owned x.2) /\
  (x.1 = 0 /\ (exists node, erase <$> x.2 = named (if flag (h_flags h) AI_CANONNAME then Some node else None)
      (unix_entry h path <$> unix_types h)) \/
   x.1 = EAI_ADDRFAMILY /\ ~ family_ok h AF_LOCAL \/
   x.1 = EAI_SERVICE /\ sizeof_sun_path <= Z.of_nat (length path) \/
   x.1 = EAI_SYSTEM /\ (exists a, (libc "uname" [] [], a) ∈ evs /\ a_ret a < 0) \/
   x.1 = EAI_MEMORY /\ out_of_memory evs).

Lemma ga_aistruct_local_runs l h path w :
  h_socktype h <> 0 ->
  runs (ga_aistruct l h path AF_LOCAL) (fun x evs => list_result l x.2 evs /\
    (x.1 = 0 /\ erase <$> x.2 = (erase <$> l) ++ [unix_entry h path (h_socktype h)] \/
     x.1 = EAI_SERVICE /\ sizeof_sun_path <= Z.of_nat (length path) \/ x.1 = EAI_MEMORY /\ out_of_memory evs)) blocked w.
Proof.
  intros Hs. unfold ga_aistruct. replace (h_socktype h =? 0) with false by lia. apply runs_calloc; [done| |].
  - intros x w1 Hk Ho Ha. apply runs_ret. split; [|right; by right]. cbn [snd]. by apply (list_result_cons ∅); [| |apply (keeps_to _ _ ∅); [|multiset_solver]|].
  - intros p x w1 Hk Ha. cbv zeta.
    change (AF_LOCAL =? AF_INET) with false. change (AF_LOCAL =? AF_INET6) with false. change (AF_LOCAL =? AF_LOCAL) with true. cbv iota.
    destruct (_ <=? _) eqn:El; zbool.
    { apply runs_ret. split; [|right; by left]. apply (list_result_cons {[+ p +]}); [done|done| |done].
      apply (keeps_to _ _ ∅); [done|]. cbn [snd]. rewrite owned_app, owned_one. unfold blocks. cbn [g_self g_addr g_canonname block]. multiset_solver. }
    apply runs_bind. apply runs_calloc; [done| |].
    + intros y w2 Hk2 Ho Ha2. apply runs_ret. intros w3. cbn [fst Z.eqb EAI_MEMORY andb]. apply runs_ret.
      split; [|right; right; split; [done|by apply oom_tail, oom_cons]]. cbn [snd].
      apply (list_result_cons {[+ p +]}); [done|done| |done]. apply (keeps_to _ _ _ _ Hk2).
      rewrite owned_app, owned_one. unfold blocks. cbn [g_self g_addr g_canonname with_addr block]. multiset_solver.
    + intros q y w2 Hk2 Ha2. apply runs_ret. intros w3. cbn [fst Z.eqb andb].
      set (l' := l ++ [_]).
      assert (forall e, allocated e = ∅ -> freed e = ∅ -> asked e = [] -> list_result l l' (x :: y :: e)) as Hl.
      { intros e He1 He2 He3. change (x :: y :: e) with ([x; y] ++ e). apply (list_result_app _ l').
        - apply (list_result_cons {[+ p +]}); [done|done| |done]. apply (keeps_to _ _ _ _ Hk2). unfold l'.
          rewrite owned_app, owned_one. unfold blocks. cbn [g_self g_addr g_canonname with_addr block]. multiset_solver.
        - split; [|done]. unfold keeps_blocks. by rewrite He1, He2. }
      assert (erase <$> l' = (erase <$> l) ++ [unix_entry h path (h_socktype h)]) as He by (unfold l'; by rewrite fmap_app).
      destruct (flag (h_flags h) AI_PASSIVE).
      * apply runs_call; [done|done|]. intros u w4 z _. apply runs_ret. split; [by apply Hl|]. by left.
      * apply runs_ret. split; [by apply Hl|]. by left.
Qed.

Lemma owned_with_canonname p s l : l <> [] -> (exists ai l', l = ai :: l' /\ g_canonname ai = None) ->
  owned (with_canonname (p, s) l) = owned l ⊎ {[+ p +]}.
Proof.
  intros _ (ai & l' & -> & Hc). cbn [with_canonname]. rewrite !owned_cons. unfold blocks. cbn [g_self g_addr g_canonname]. rewrite Hc.
  cbn [block]. multiset_solver.
Qed.
Lemma erase_with_canonname p s l : erase <$> with_canonname (p, s) l = with_canonname (0, s) (erase <$> l).
Proof. by destruct l. Qed.
(** The head of a list whose contents are [x :: l]. *)
Lemma head_canonname l x l' : erase <$> l = x :: l' -> g_canonname x = None ->
  exists ai l2, l = ai :: l2 /\ g_canonname ai = None.
Proof.
  destruct l as [|ai l2]; [done|]. intros [= Hx _] Hc. exists ai, l2. split; [done|]. subst x. cbn [erase g_canonname] in Hc. by destruct (g_canonname ai).
Qed.

Lemma ga_unix_runs path h w : runs (ga_unix path h) (unix_result h path) blocked w.
Proof.
  unfold ga_unix. destruct (_ && _) eqn:Ef.
  { apply family_bad_spec in Ef. apply runs_ret. split; [done|]. split; [done|]. right. by left. }
  assert (forall l h' evs0 w1, h_socktype h' <> 0 -> h_flags h' = h_flags h -> h_protocol h' = h_protocol h ->
    list_result [] l evs0 ->
    (erase <$> l) ++ [unix_entry h path (h_socktype h')] = unix_entry h path <$> unix_types h ->
    runs ('(rc, aihead) ← ga_aistruct l h' path AF_LOCAL;
      if negb (rc =? 0) then mret (rc, aihead)
      else if flag (h_flags h') AI_CANONNAME then
        u ← kernel (libc "uname" [] []);
        if a_ret u <? 0 then mret (EAI_SYSTEM, aihead)
        else canon ← strdup (c_string (map u8 (a_data u)));
          match canon with None => mret (EAI_MEMORY, aihead) | Some canon => mret (0, with_canonname canon aihead) end
      else mret (0, aihead)) (fun x ev => unix_result h path x (evs0 ++ ev)) blocked w1) as Hlast.
  { intros l h' evs0 w1 Hs Hfl Hpr Hl He. apply runs_bind. eapply runs_mono; [by apply ga_aistruct_local_runs| |done].
    intros [rc l1] ev1 [Hl1 Hr] w2. cbn [fst snd] in *. pose proof (list_result_app _ _ _ _ _ Hl Hl1) as [Hk Ha].
    replace (unix_entry h' path (h_socktype h')) with (unix_entry h path (h_socktype h')) in Hr by (unfold unix_entry; by rewrite Hpr).
    rewrite He in Hr.
    destruct Hr as [[-> He1]|[[-> Hp]|[-> Ho]]]; cbn [Z.eqb EAI_SERVICE EAI_MEMORY negb].
    - rewrite Hfl. destruct (flag (h_flags h) AI_CANONNAME) eqn:Ec.
      + apply runs_call; [done|done|]. intros u0 w3 u _. set (eu := (libc "uname" [] [], u) : event).
        assert (forall e, list_result [] l1 (evs0 ++ ev1 ++ eu :: e) <-> list_result l1 l1 e) as Hfr.
        { intros e. unfold list_result, keeps_blocks in *. rewrite !allocated_app, !freed_app, !asked_app in *.
          change (allocated (eu :: e)) with (∅ ⊎ allocated e). change (freed (eu :: e)) with (∅ ⊎ freed e).
          change (asked (eu :: e)) with (asked e). apply app_eq_nil in Ha as [-> ->]. split; intros [H1 H2]; (split; [|exact H2]); multiset_solver. }
        destruct (a_ret u <? 0) eqn:Eu; zbool.
        * apply runs_ret. destruct (proj2 (Hfr []) (list_result_nil l1)) as [Hk2 Ha2]. split; [done|]. split; [done|].
          right. right. right. left. split; [done|]. exists u. split; [|done]. apply elem_of_app. right. apply elem_of_app. right. apply list_elem_of_here.
        * apply runs_strdup.
          -- intros x w4 Hx Ho Hax. apply runs_ret. destruct (proj2 (Hfr [x])) as [Hk2 Ha2].
             { split; [|done]. apply (keeps_to _ _ _ _ Hx). multiset_solver. }
             split; [done|]. split; [done|]. right. right. right. right. split; [done|].
             apply out_of_memory_r, out_of_memory_r. by apply (out_of_memory_r [eu] [x]).
          -- intros p x w4 Hx Hax. apply runs_ret.
             assert (exists ai l2, l1 = ai :: l2 /\ g_canonname ai = None) as Hhead.
             { destruct (unix_types h) as [|t ts] eqn:Et; [unfold unix_types in Et; by destruct (_ =? 0)|].
               by apply (head_canonname _ _ _ He1). }
             assert (owned (with_canonname (p, c_string (map u8 (a_data u))) l1) = owned l1 ⊎ {[+ p +]}) as Hown.
             { apply owned_with_canonname; [by destruct Hhead as (? & ? & -> & _)|done]. }
             assert (asked (evs0 ++ ev1 ++ [eu; x]) = []) as Ha2.
             { rewrite !asked_app. rewrite asked_app in Ha. apply app_eq_nil in Ha as [-> ->].
               etransitivity; [exact (asked_app [eu] [x])|]. by rewrite Hax. }
             split; [exact Ha2|]. cbn [fst snd]. split.
             { rewrite Hown. unfold keeps_blocks in *. rewrite !allocated_app, !freed_app in *.
               change (allocated [eu; x]) with (∅ ⊎ allocated [x]). change (freed [eu; x]) with (∅ ⊎ freed [x]). multiset_solver. }
             left. split; [done|]. exists (c_string (map u8 (a_data u))). rewrite Ec. cbn [named].
             by rewrite erase_with_canonname, He1.
      + apply runs_ret. rewrite app_nil_r. split; [done|]. split; [done|]. left. split; [done|]. exists []. by rewrite Ec.
    - apply runs_ret. rewrite app_nil_r. split; [done|]. split; [done|]. right. right. by left.
    - apply runs_ret. rewrite app_nil_r. split; [done|]. split; [done|]. right. right. right. right. split; [done|by apply out_of_memory_r]. }
  apply runs_bind. unfold unix_types in *. destruct (h_socktype h =? 0) eqn:E0; zbool.
  - apply runs_bind. eapply runs_mono; [by apply ga_aistruct_local_runs| |done].
    intros [rc l1] ev1 [Hl1 Hr] w1. apply runs_ret. intros w2. cbn [fst snd] in *. rewrite app_nil_r.
    destruct Hr as [[-> He]|[[-> Hp]|[-> Ho]]]; cbn [Z.eqb EAI_SERVICE EAI_MEMORY negb].
    + apply Hlast; try done. by rewrite He.
    + apply runs_ret. rewrite app_nil_r. destruct Hl1 as [Hk Ha]. split; [done|]. split; [done|]. right. right. by left.
    + apply runs_ret. rewrite app_nil_r. destruct Hl1 as [Hk Ha]. split; [done|]. split; [done|]. right. right. right. by right.
  - apply runs_ret. intros w1. cbn [Z.eqb negb]. by apply (Hlast [] h []).
Qed.

(** ** getaddrinfo *)

Section Getaddrinfo.
Context (hostname servname : option (list Z)) (h : hints).

Definition local_name : bool :=
  bool_decide (hostname = Some (chars "/local") \/ hostname = Some (chars "/unix")) &&
  match servname with Some (47 :: _) => true | _ => false end.
Definition two_searches : bool := bool_decide (length (searches hostname h) = 2%nat).
Definition first_search : list Z := match searches hostname h with (host, _) :: _ => host | [] => [] end.
Definition canon_of (name : option (list Z)) : option (list Z) :=
  if wants_canon hostname h then Some (default first_search name) else None.

(** The list: for each address in the order of the searches, the entries of the service. *)
Definition lookup_list (asks : list event) (l : list info) : Prop :=
  exists addrs name asks1,
    all_located h two_searches (searches hostname h) addrs name asks1 /\ addrs <> [] /\
    if no_name servname then asks = asks1 /\ l = named (canon_of name) (addrs ≫= entries_of h None)
    else exists ports asks2, serv_ports h (default [] servname) ports asks2 /\ ports <> [] /\ asks = asks1 ++ asks2 /\
      l = named (canon_of name) (addrs ≫= entries_of h (Some ports)).
Definition lookup_error (evs : list event) (rc : Z) : Prop :=
  rc = EAI_MEMORY /\ out_of_memory evs \/
  search_fails h two_searches (searches hostname h) rc (asked evs) \/
  (rc = EAI_NONAME /\ exists name, all_located h two_searches (searches hostname h) [] name (asked evs)) \/
  (rc = no_port_error h /\ no_name servname = false /\ exists addrs name asks1 asks2,
     all_located h two_searches (searches hostname h) addrs name asks1 /\ addrs <> [] /\
     serv_ports h (default [] servname) [] asks2 /\ asked evs = asks1 ++ asks2).

(** With an error every block is freed but the copy of the canonical name. *)
Definition lookup_result (x : Z * list info) (evs : list event) : Prop :=
  h_family h <> AF_LOCAL /\
  (x.1 = 0 /\ keeps_blocks ∅ evs (owned x.2) /\ lookup_list (asked evs) (erase <$> x.2) \/
   x.1 <> 0 /\ x.2 = [] /\ lookup_error evs x.1 /\
   exists lost, keeps_blocks ∅ evs lost /\ (size lost <= 1)%nat /\ (wants_canon hostname h = false -> lost = ∅)).
Definition lookup_halts (hlt : halt) (_ : list event) : Prop :=
  hlt = Blocked \/ hlt = Exited 1 /\ h_family h = AF_LOCAL.

Definition getaddrinfo_result (x : Z * list info) (evs : list event) : Prop :=
  let rc := ga_echeck hostname servname (h_flags h) (h_family h) (h_socktype h) in
  if negb (rc =? 0) then x = (rc, []) /\ evs = []
  else if local_name then exists l, unix_result h (default [] servname) (x.1, l) evs /\ x.2 = if x.1 =? 0 then l else []
  else lookup_result x evs.

Lemma echeck_family :
  ga_echeck hostname servname (h_flags h) (h_family h) (h_socktype h) = 0 ->
  h_family h = AF_LOCAL /\ searches hostname h = [] \/
  h_family h <> AF_LOCAL /\ (1 <= length (searches hostname h) <= 2)%nat.
Proof.
  unfold ga_echeck. cbv zeta. destruct (negb _); [done|]. destruct (_ && _); [done|]. intros Hc.
  assert (forall a b, h_family h = AF_LOCAL /\ each_family a b (h_family h) = [] \/
    h_family h <> AF_LOCAL /\ (1 <= length (each_family a b (h_family h)) <= 2)%nat) as Hboth.
  { intros a b. unfold each_family. destruct (h_family h =? AF_UNSPEC) eqn:E0; [|destruct (h_family h =? AF_INET) eqn:E1;
      [|destruct (h_family h =? AF_INET6) eqn:E2; [|destruct (h_family h =? AF_LOCAL) eqn:E3; [|done]]]]; zbool;
      match goal with H : h_family h = _ |- _ => rewrite H end; cbn; auto with lia; right; (split; [done|lia]). }
  unfold searches. destruct hostname as [[|? ?]|]; [destruct (flag _ _)| |destruct (flag _ _)]; apply Hboth.
Qed.

Lemma runs_ga_nsearch {B} (k : list (list Z * Z) -> M B) (Q : B -> list event -> Prop) (H : halt -> list event -> Prop) w :
  ga_echeck hostname servname (h_flags h) (h_family h) (h_socktype h) = 0 ->
  (forall evs, h_family h = AF_LOCAL -> H (Exited 1) evs) ->
  (forall w', h_family h <> AF_LOCAL -> runs (k (searches hostname h)) Q H w') ->
  runs (ga_nsearch hostname h ≫= k) Q H w.
Proof.
  intros Hc Hq Hk. apply runs_bind. unfold ga_nsearch. destruct (echeck_family Hc) as [[Hf Hs]|[Hf Hs]].
  - rewrite Hs. cbn [length Z.of_nat Z.ltb Z.compare orb].
    apply runs_err_quit. intros evs _. by apply Hq.
  - replace ((Z.of_nat (length (searches hostname h)) <? 1) || (2 <? Z.of_nat (length (searches hostname h)))) with false by lia.
    apply runs_ret. intros w1. by apply (Hk w1).
Qed.

(** The canonical name goes into the first structure, or is copied for it. *)
Lemma put_canon_runs canon name l pure evs0 w :
  keeps_blocks ∅ evs0 (owned l ⊎ block canon) -> (wants_canon hostname h = false -> canon = None) ->
  snd <$> canon = canon_after hostname h None name -> l <> [] -> erase <$> l = pure -> Forall (fun x => g_canonname x = None) pure ->
  runs (if negb (no_name hostname) && flag (h_flags h) AI_CANONNAME then
          match canon with
          | Some canon => mret (0, with_canonname canon l)
          | None =>
              c ← strdup first_search;
              match c with None => mret (EAI_MEMORY, l) | Some c => mret (0, with_canonname c l) end
          end
        else mret (0, l))
    (fun x evs => keeps_blocks ∅ (evs0 ++ evs) (owned x.2) /\ asked evs = [] /\
       (x.1 = 0 /\ erase <$> x.2 = named (canon_of name) pure \/ x.1 = EAI_MEMORY /\ out_of_memory evs)) blocked w.
Proof.
  intros Hk0 Hno Hc Hne He Hpure. fold (wants_canon hostname h).
  assert (exists ai l2, l = ai :: l2 /\ g_canonname ai = None) as Hhead.
  { destruct pure as [|x pure]; [by destruct l|]. inversion Hpure; subst. by eapply head_canonname. }
  unfold canon_of, canon_after in *. destruct (wants_canon hostname h) eqn:Ew.
  - destruct canon as [[p s]|].
    + apply runs_ret. rewrite app_nil_r. split; [by cbn [snd]; rewrite owned_with_canonname|]. split; [done|].
      left. split; [done|]. cbn [snd]. rewrite erase_with_canonname, He, <- Hc. done.
    + apply runs_strdup.
      * intros x w1 Hx Ho Ha. apply runs_ret. split; [|split; [done|by right]].
        eapply keeps_app; [exact Hk0|]. apply (keeps_to _ _ _ _ Hx). cbn [block snd]. multiset_solver.
      * intros p x w1 Hx Ha. apply runs_ret. cbn [snd]. split.
        -- eapply keeps_app; [exact Hk0|]. apply (keeps_to _ _ _ _ Hx). rewrite owned_with_canonname by done. cbn [block]. multiset_solver.
        -- split; [done|]. left. split; [done|]. rewrite erase_with_canonname, He, <- Hc. done.
  - specialize (Hno eq_refl) as ->. apply runs_ret. rewrite app_nil_r. cbn [block] in Hk0.
    rewrite gmultiset_disj_union_right_id in Hk0. split; [done|]. split; [done|]. by left.
Qed.

Lemma all_located_families two search addrs name asks :
  all_located h two search addrs name asks -> Forall (fun x => inet_family x.1) addrs.
Proof.
  induction 1 as [|host family search addrs addrs' name name' asks asks' Hl _ IH]; [done|]. apply Forall_app. split; [|done].
  destruct Hl as [? ? ?|? ? ? ?| |a ? ? ? ?]; try (destruct (_ =? _)); repeat apply Forall_cons_2; try apply Forall_nil_2; try first [by left|by right].
  apply Forall_fmap, Forall_true. intros x. apply hostent_family.
Qed.

Lemma fresh_no_canon addrs : Forall (fun x => g_canonname x = None) (fresh_at h <$> addrs).
Proof. by apply Forall_fmap, Forall_true. Qed.
Lemma bind_fresh addrs : addrs ≫= entries_of h None = fresh_at h <$> addrs.
Proof. induction addrs as [|x addrs IH]; [done|]. by rewrite bind_cons, IH. Qed.

(** An error with the blocks of the list and [lost] of them for no one. *)
Lemma runs_lookup_bad rc l lost evs0 w :
  h_family h <> AF_LOCAL -> rc <> 0 -> keeps_blocks ∅ evs0 (owned l ⊎ lost) -> (size lost <= 1)%nat ->
  (wants_canon hostname h = false -> lost = ∅) -> (forall evs, asked evs = [] -> lookup_error (evs0 ++ evs) rc) ->
  runs (bad rc l) (fun x ev => lookup_result x (evs0 ++ ev)) lookup_halts w.
Proof.
  intros Hf Hrc Hk Hs Hl He. eapply runs_mono; [eapply (runs_bad rc l lost evs0 lookup_result); [done|]| |].
  - intros evs Ha Hk2. split; [done|]. right. split; [done|]. split; [done|]. split; [by apply He|]. by exists lost.
  - done.
  - intros hlt evs Hb. by left.
Qed.

(** What follows the searches. *)
Definition after_search (st : Z * gai_state) : M (Z * list info) :=
  let '(rc, (aihead, canon)) := st in
  if negb (rc =? 0) then bad rc aihead
  else if bool_decide (aihead = []) then bad EAI_NONAME aihead
  else
    '(rc, aihead) ←
      (if negb (no_name hostname) && flag (h_flags h) AI_CANONNAME then
         match canon with
         | Some canon => mret (0, with_canonname canon aihead)
         | None =>
             c ← strdup first_search;
             match c with None => mret (EAI_MEMORY, aihead) | Some c => mret (0, with_canonname c aihead) end
         end
       else mret (0, aihead));
    if negb (rc =? 0) then bad rc aihead
    else
      '(rc, aihead) ←
        (if no_name servname then mret (0, aihead) else ga_serv aihead h (default [] servname));
      if negb (rc =? 0) then bad rc aihead else mret (0, aihead).

Lemma lookup_serv_runs l addrs name evs0 w :
  h_family h <> AF_LOCAL -> keeps_blocks ∅ evs0 (owned l) ->
  all_located h two_searches (searches hostname h) addrs name (asked evs0) -> addrs <> [] ->
  erase <$> l = named (canon_of name) (fresh_at h <$> addrs) ->
  runs ('(rc, aihead) ← (if no_name servname then mret (0, l) else ga_serv l h (default [] servname));
        if negb (rc =? 0) then bad rc aihead else mret (0, aihead))
    (fun x ev => lookup_result x (evs0 ++ ev)) lookup_halts w.
Proof.
  intros Hf Hk Hl Hne He. apply runs_bind. destruct (no_name servname) eqn:En.
  - apply runs_ret. intros w1. cbn [Z.eqb negb]. apply runs_ret. split; [done|]. left. split; [done|].
    rewrite !app_nil_r. split; [done|]. exists addrs, name, (asked evs0). rewrite En, bind_fresh. done.
  - eapply runs_mono; [apply ga_serv_runs| |intros ? ? Hb; by left].
    intros [rc l1] evs [Hk1 Hr] w1. cbn [fst snd] in *.
    assert (keeps_blocks ∅ (evs0 ++ evs) (owned l1)) as Hk2 by (by eapply keeps_app).
    assert (keeps_blocks ∅ (evs0 ++ evs) (owned l1 ⊎ ∅)) as Hk3 by (by rewrite gmultiset_disj_union_right_id).
    apply (runs_mono _ (fun x ev => lookup_result x ((evs0 ++ evs) ++ ev)) _ lookup_halts);
      [|intros x ev Hx; rewrite app_assoc; exact Hx|done].
    destruct Hr as [[-> Ho]|(ports & HP & He1 & ->)].
    + cbn [Z.eqb EAI_MEMORY negb]. apply (runs_lookup_bad _ _ ∅); [done|done|done|by rewrite gmultiset_size_empty; lia|done|].
      intros evs2 Ha2. left. split; [done|]. by apply out_of_memory_l, out_of_memory_r.
    + rewrite He in He1 |- *.
      rewrite found_all_named. pose proof (found_all_zero h ports addrs (serv_port_list _ _ _ _ HP) Hne (all_located_families _ _ _ _ _ Hl)) as Hz.
      destruct (found_all ports (fresh_at h <$> addrs) =? 0) eqn:E0; zbool.
      * apply Hz in E0 as ->. assert (no_port_error h <> 0) as Hnp by (unfold no_port_error; by destruct (_ =? 0)).
        replace (no_port_error h =? 0) with false by lia. cbn [negb].
        apply (runs_lookup_bad _ _ ∅); [done|done|done|by rewrite gmultiset_size_empty; lia|done|].
        intros evs2 Ha2. right. right. right. split; [done|]. split; [done|]. exists addrs, name, (asked evs0), (asked evs).
        split; [done|]. split; [done|]. split; [done|]. by rewrite !asked_app, Ha2, app_nil_r.
      * cbn [Z.eqb negb]. apply runs_ret. split; [done|]. left. split; [done|]. rewrite !app_nil_r. split; [done|].
        exists addrs, name, (asked evs0). split; [done|]. split; [done|]. rewrite En. exists ports, (asked evs).
        assert (ports <> []) as Hpn by tauto.
        split; [done|]. split; [done|]. split; [by rewrite asked_app|]. cbn [snd].
        rewrite He1, enter_all_named, enter_all_entries; [done| |done|]; [by eapply serv_port_list|by eapply all_located_families].
Qed.

Lemma after_search_runs rc st evs0 w :
  h_family h <> AF_LOCAL ->
  search_result hostname h ([], None) (all_located h two_searches (searches hostname h))
    (search_fails h two_searches (searches hostname h)) (rc, st) evs0 ->
  runs (after_search (rc, st)) (fun x ev => lookup_result x (evs0 ++ ev)) lookup_halts w.
Proof.
  destruct st as [l canon]. intros Hf [Hk Hr]. unfold after_search. cbn [fst snd owned_st owned foldr block] in *.
  change (keeps_blocks (∅ ⊎ ∅) evs0 (owned l ⊎ block canon)) in Hk. rewrite gmultiset_disj_union_left_id in Hk.
  assert (size (block canon) <= 1)%nat as Hsize.
  { destruct canon as [[p s]|]; cbn [block]; [by rewrite gmultiset_size_singleton|by rewrite gmultiset_size_empty; lia]. }
  destruct Hr as [(-> & addrs & name & HP & He & Hc)|(Hrc & Hw & Hr)].
  - assert (wants_canon hostname h = false -> canon = None) as Hw.
    { intros Hw. unfold canon_after in Hc. cbn in Hc. rewrite Hw in Hc. by destruct canon. }
    cbn [Z.eqb negb]. change (erase <$> l = fresh_at h <$> addrs) in He. destruct (bool_decide (l = [])) eqn:El; zbool.
    + apply bool_decide_eq_true in El as ->. destruct addrs as [|? ?]; [|done].
      apply (runs_lookup_bad _ _ (block canon)); [done..|by intros ->%Hw|].
      intros evs Ha. right. right. left. split; [done|]. exists name. by rewrite asked_app, Ha, app_nil_r.
    + apply bool_decide_eq_false in El.
      apply runs_bind. eapply runs_mono; [apply put_canon_runs; [exact Hk|done|exact Hc|done|exact He|apply fresh_no_canon]| |].
      2:{ intros ? ? Hb. by left. }
      intros [rc l1] evs (Hk1 & Ha & Hr) w1. cbn [fst snd] in *.
      apply (runs_mono _ (fun x ev => lookup_result x ((evs0 ++ evs) ++ ev)) _ lookup_halts);
        [|intros x ev Hx; rewrite app_assoc; exact Hx|done].
      assert (asked (evs0 ++ evs) = asked evs0) as Ha1 by (by rewrite asked_app, Ha, app_nil_r).
      destruct Hr as [[-> He1]|[-> Ho]]; cbn [Z.eqb EAI_MEMORY negb].
      * apply (lookup_serv_runs _ addrs name); [done|done|by rewrite Ha1| |exact He1]. intros ->. by destruct l.
      * apply (runs_lookup_bad _ _ ∅); [done|done|by rewrite gmultiset_disj_union_right_id|by rewrite gmultiset_size_empty; lia|done|].
        intros evs2 _. left. split; [done|]. by apply out_of_memory_l, out_of_memory_r.
  - replace (rc =? 0) with false by lia. cbn [negb].
    apply (runs_lookup_bad _ _ (block canon)); [done..|by intros ->%Hw|].
    intros evs Ha. destruct Hr as [[-> Ho]|HF]; [left; split; [done|by apply out_of_memory_l]|].
    right. left. by rewrite asked_app, Ha, app_nil_r.
Qed.

Lemma getaddrinfo_runs w :
  runs (getaddrinfo hostname servname (Some h)) getaddrinfo_result lookup_halts w.
Proof.
  unfold getaddrinfo. cbv zeta. cbn [default from_option id].
  destruct (negb (ga_echeck _ _ _ _ _ =? 0)) eqn:Ec.
  { unfold bad. apply runs_bind. cbn [freeaddrinfo]. apply runs_ret. intros w1. apply runs_ret. unfold getaddrinfo_result. cbv zeta. by rewrite Ec. }
  fold local_name. unfold getaddrinfo_result. cbv zeta. rewrite Ec. destruct local_name.
  - apply runs_bind. eapply runs_mono; [apply ga_unix_runs| |intros ? ? Hb; by left].
    intros [rc l] evs Hu w1. apply runs_ret. rewrite app_nil_r. exists l. done.
  - zbool. apply runs_ga_nsearch; [done|intros evs Hf; by right|]. intros w1 Hf.
    apply runs_bind. eapply runs_mono; [apply search_all_runs| |intros ? ? Hb; by left].
    intros [rc [l canon]] evs Hr w2. by apply (after_search_runs rc (l, canon)).
Qed.
End Getaddrinfo.

(** C39: getaddrinfo checks its arguments without a call; a name of a Unix domain socket gives the entries
    of its types; every other name is searched in the order of the table, and the list has, for each address
    in that order, one structure for each socket type with its port, the canonical name in the first; an
    error of these frees all that was allocated but at most one copy of a name (an error for a Unix domain name
    loses the list), and a family without a search ends the process. *)
Theorem getaddrinfo_correct hostname servname hintsp w :
  runs (getaddrinfo hostname servname hintsp) (getaddrinfo_result hostname servname (default no_hints hintsp))
    (lookup_halts (default no_hints hintsp)) w.
Proof. destruct hintsp as [h|]; apply getaddrinfo_runs. Qed.
