(* ===== verification/Getname.v ===== *)
(** * getnameinfo: libgai

    libgai/getnameinfo.c with gn_ipv46.c, and the round trip with getaddrinfo.c:
    the numeric texts of a socket address, given back to getaddrinfo, name that
    address and no other, without a question to the resolver.

    A result is the number and what is stored in the two buffers, if anything.
    An entry of the resolver whose name is NULL counts as no entry, as in the
    code. *)

From stdpp Require Import gmultiset.
From S2P Require Import Prelude InetPton InetNtop InetRound Unix ErrorLib Wrap ReadWrite TcpEcho SockAddr UdpRaw NetConn Gai.

Definition NI_NOFQDN : Z := 1.
Definition NI_NUMERICHOST : Z := 2.
Definition NI_NAMEREQD : Z := 4.
Definition NI_NUMERICSERV : Z := 8.
Definition NI_DGRAM : Z := 16.

(** ** gn_ipv46.c *)

Definition gethostbyaddr (addr : list Z) (family : Z) : M (option (list Z)) :=
  a ← kernel (libc "gethostbyaddr" [family] addr);
  mret (if a_ret a <? 0 then None else Some (c_string (map u8 (a_data a)))).
Definition getservbyport (port proto : list Z) : M (option (list Z)) :=
  a ← kernel (libc "getservbyport" port proto);
  mret (if a_ret a <? 0 then None else Some (c_string (map u8 (a_data a)))).

(** The text before the first dot. *)
Fixpoint first_label (name : list Z) : list Z :=
  match name with
  | [] => []
  | c :: name' => if c =? 46 then [] else c :: first_label name'
  end.
Definition numeric_host (family : Z) (addr : list Z) (hostlen : Z) : M (Z * option (list Z)) :=
  match inet_ntop family addr hostlen with
  | NtOk host => mret (0, Some host)
  | NtNull e => set_errno e ;; mret (1, None)
  end.

Definition gn_ipv46 (hostlen servlen : Z) (addr : list Z) (family : Z) (port : list Z) (flags : Z) :
    M (Z * option (list Z) * option (list Z)) :=
  '(rc, host) ←
    (if 0 <? hostlen then
       if flag flags NI_NUMERICHOST then numeric_host family addr hostlen
       else
         hptr ← gethostbyaddr addr family;
         match hptr with
         | Some name => mret (0, Some (snprintf hostlen (if flag flags NI_NOFQDN then first_label name else name)))
         | None => if flag flags NI_NAMEREQD then mret (1, None) else numeric_host family addr hostlen
         end
     else mret (0, None));
  if negb (rc =? 0) then mret (rc, host, None)
  else
    serv ←
      (if 0 <? servlen then
         if flag flags NI_NUMERICSERV then mret (Some (snprintf servlen (fmt_d (ntohs port))))
         else
           sptr ← getservbyport port (if flag flags NI_DGRAM then chars "udp" else []);
           mret (Some (snprintf servlen (default (fmt_d (ntohs port)) sptr)))
       else mret None);
    mret (0, host, serv).

(** ** getnameinfo.c *)

Definition getnameinfo (sa : list Z) (hostlen servlen flags : Z) : M (Z * option (list Z) * option (list Z)) :=
  let family := byte_at sa 0 + 256 * byte_at sa 1 in
  if family =? AF_INET then gn_ipv46 hostlen servlen (take 4 (drop 4 sa)) AF_INET (take 2 (drop 2 sa)) flags
  else if family =? AF_INET6 then gn_ipv46 hostlen servlen (take 16 (drop 8 sa)) AF_INET6 (take 2 (drop 2 sa)) flags
  else if family =? AF_LOCAL then
    mret (0, (if 0 <? hostlen then Some (snprintf hostlen (chars "/local")) else None),
          (if 0 <? servlen then Some (snprintf servlen (c_string (drop 2 sa))) else None))
  else mret (1, None, None).

Example name_of_host :
  (getnameinfo [2; 0; 0; 13; 10; 0; 0; 1; 0; 0; 0; 0; 0; 0; 0; 0] 6 32 (Z.lor NI_NOFQDN NI_DGRAM)
    (world0 [Ans 0 0 (chars "bsdi.kohala.com") []; Ans 0 0 (chars "daytime") []])).1
  = Ret (0, Some (chars "bsdi"), Some (chars "daytime")).
Proof. by vm_compute. Qed.

(** ** The characters of the numeric texts *)

Lemma split_on_elem sep c l : c ∈ l -> c <> sep -> exists g, g ∈ split_on sep l /\ c ∈ g.
Proof.
  induction l as [|x l IH]; [by intros ?%elem_of_nil|]. intros Hc Hs. cbn [split_on].
  destruct (split_on_cons sep x l) as (g0 & gs0 & E0 & _). destruct (split_on sep l) as [|g gs] eqn:E.
  - exists [x]. split; [apply list_elem_of_here|]. apply elem_of_cons in Hc as [->|Hc]; [apply list_elem_of_here|].
    destruct (IH Hc Hs) as (g & Hg & _). by apply elem_of_nil in Hg.
  - apply elem_of_cons in Hc as [->|Hc].
    + replace (x =? sep) with false by lia. exists (x :: g). split; apply list_elem_of_here.
    + destruct (IH Hc Hs) as (g' & Hg & Hin). destruct (x =? sep).
      * exists g'. split; [by apply list_elem_of_further|done].
      * apply elem_of_cons in Hg as [->|Hg]; [exists (x :: g); split; [apply list_elem_of_here|by apply list_elem_of_further]|].
        exists g'. split; [by apply list_elem_of_further|done].
Qed.

(** A text with a colon is no dotted quad. *)
Lemma no_quad_colon s d : quad_ref s = Some d -> 58 ∉ s.
Proof.
  unfold quad_ref. destruct (mapM octet (split_on 46 s)) as [ds|] eqn:Em; [|done]. intros _ Hin.
  destruct (split_on_elem 46 58 s Hin) as (g & Hg & Hc); [done|]. apply mapM_Some in Em.
  destruct (list_elem_of_lookup_1 _ _ Hg) as [i Hi]. destruct (Forall2_lookup_l _ _ _ _ _ Em Hi) as (v & _ & Hv).
  unfold octet, octet_from in Hv. destruct (_ && _ && _) eqn:E; [|done].
  apply andb_prop in E as [E _]. apply andb_prop in E as [_ E].
  rewrite forallb_forall in E. specialize (E 58 ltac:(by apply list_elem_of_In)). done.
Qed.

(** What getaddrinfo.c looks at in an IPv6 text: its first character, and a colon in it. *)
Definition colon_text (s : list Z) : Prop :=
  cstr s /\ 58 ∈ s /\ (isxdigit (byte_at s 0) = true \/ byte_at s 0 = 58).

Lemma hexc_xdigit d : 0 <= d < 16 -> isxdigit (hexc d) = true.
Proof. intros Hd. unfold isxdigit, isdigit, hexc. destruct (d <? 10) eqn:E; zbool; lia. Qed.
Lemma fmt_x_head w rest : word w -> isxdigit (byte_at (fmt_x w ++ rest) 0) = true.
Proof.
  intros Hw. destruct (fmt_x_digits w Hw) as [[-> _]|[[-> _]|[[-> _]|[-> _]]]];
    apply hexc_xdigit, Z.mod_pos_bound; lia.
Qed.
Lemma fmt_x_cstr w : word w -> cstr (fmt_x w).
Proof. apply fmt_x_word. Qed.
Lemma colon_cstr : cstr [58].
Proof. by_eval. Qed.
Lemma colon_groups_cstr ws : Forall word ws -> cstr (colon_groups ws).
Proof.
  induction 1 as [|w ws Hw _ IH]; [constructor|]. rewrite colon_groups_cons. constructor; [lia|]. apply cstr_app; split; [by apply fmt_x_cstr|done].
Qed.
Lemma pre_text_cstr ws : Forall word ws -> cstr (pre_text ws).
Proof. destruct 1 as [|w ws Hw Hws]; [constructor|]. apply cstr_app; split; [by apply fmt_x_cstr|by apply colon_groups_cstr]. Qed.
Lemma tail_text_cstr ws : Forall word ws -> cstr (tail_text ws).
Proof. destruct ws; [intros _; apply colon_cstr|apply colon_groups_cstr]. Qed.

Lemma text6_colon src s : length src = 16%nat -> bytes src -> text6 src s -> colon_text s.
Proof.
  intros Hlen Hb Ht. destruct (pair_words_ok src Hlen Hb) as [Hws Hw]. destruct Ht as [|b l Hz Hl|l Hz Hl].
  - split; [by apply pre_text_cstr|]. destruct (pair_words src) as [|w [|w' ws]]; [done..|]. inversion_clear Hw as [|? ? Hw0 _].
    unfold pre_text. split; [|left; by apply fmt_x_head]. apply elem_of_app. right. rewrite colon_groups_cons. apply list_elem_of_here.
  - split; [|split].
    + apply cstr_app; split; [by apply pre_text_cstr, Forall_take|]. apply (cstr_app [58]); split; [apply colon_cstr|by apply tail_text_cstr, Forall_drop].
    + apply elem_of_app. right. apply list_elem_of_here.
    + destruct (take (Z.to_nat b) (pair_words src)) as [|w pre] eqn:Ep; [by right|]. left. unfold pre_text. rewrite <- app_assoc. apply fmt_x_head.
      assert (Forall word (w :: pre)) as H by (rewrite <- Ep; by apply Forall_take). by inversion_clear H.
  - split; [|split; [apply list_elem_of_here|by right]].
    apply (cstr_app [58; 58]); split; [by_eval|]. apply cstr_app; split; [destruct (l =? 6); [constructor|]; by_eval|].
    assert (bytes (drop 12 src)) as Hd by (by apply Forall_drop).
    destruct (drop 12 src) as [|a [|b [|c [|d [|]]]]] eqn:Ed; try (apply (f_equal length) in Ed; rewrite length_drop, Hlen in Ed; done).
    unfold bytes in Hd. rewrite !Forall_cons in Hd. destruct Hd as (? & ? & ? & ? & _). by apply fmt_quad_cstr.
Qed.

(** The text of an address is the literal that getaddrinfo.c finds. *)
Definition is_literal (family : Z) (addr host : list Z) : Prop :=
  family = AF_INET /\ literal4 host = Some addr \/
  family = AF_INET6 /\ literal4 host = None /\ literal6 host = Some addr.

Lemma fmt_quad_head addr : length addr = 4%nat -> bytes addr -> isdigit (byte_at (fmt_quad addr) 0) = true.
Proof.
  intros Hl Hb. destruct addr as [|a addr]; [done|]. inversion_clear Hb as [|? ? Ha _]. unfold fmt_quad. change (byte_at (a :: addr) 0) with a.
  destruct (fmt_u_byte a Ha) as (_ & Hd & Hlen). destruct (fmt_u a) as [|c g]; [simpl in Hlen; lia|]. by inversion_clear Hd.
Qed.
Lemma ntop_literal family addr size :
  inet_family family -> length addr = (if family =? AF_INET then 4%nat else 16%nat) -> bytes addr -> 46 <= size ->
  exists host, inet_ntop family addr size = NtOk host /\ is_literal family addr host.
Proof.
  intros [-> | ->] Hl Hb Hs.
  - exists (fmt_quad addr). pose proof (fmt_quad_length addr Hl Hb). split.
    { unfold inet_ntop, inet_ntop4. cbn [Z.eqb Pos.eqb AF_INET]. by replace (_ <? _) with false by lia. }
    left. split; [done|]. unfold literal4. rewrite fmt_quad_head by done.
    destruct addr as [|a [|b [|c [|d [|]]]]]; try done. unfold bytes in Hb. rewrite !Forall_cons in Hb. destruct Hb as (Ha & Hb & Hc & Hd & _).
    unfold inet_pton, inet_pton4. cbn [Z.eqb Pos.eqb AF_INET]. rewrite pton4_from_ref by (done || by apply fmt_quad_cstr).
    by rewrite quad_ref_fmt.
  - destruct (ntop6_ok addr size Hl Hb Hs) as (host & E & Ht). exists host. split; [exact E|]. right. split; [done|].
    destruct (text6_colon _ _ Hl Hb Ht) as (Hc & Hin & Hhead). split.
    + unfold literal4. destruct (isdigit _); [|done]. unfold inet_pton, inet_pton4. cbn [Z.eqb Pos.eqb AF_INET].
      rewrite pton4_from_ref by done. destruct (quad_ref host) eqn:Eq; [|done]. by apply no_quad_colon in Eq.
    + unfold literal6. rewrite bool_decide_true by done. replace (_ || _) with true by (destruct Hhead as [-> | ->]; by rewrite ?orb_true_r).
      cbn [andb]. unfold inet_pton. cbn [Z.eqb Pos.eqb AF_INET AF_INET6]. by rewrite (pton6_text _ _ Hl Hb Ht).
Qed.

Lemma port_atoi port : length port = 2%nat -> bytes port -> htons (ntohs port) = port.
Proof.
  intros Hl Hb. destruct port as [|a [|b [|]]]; try done. unfold bytes in Hb. rewrite !Forall_cons in Hb. destruct Hb as (Ha & Hb & _).
  unfold htons, ntohs, byte_at, byte in *. cbn [nth]. rewrite Z.shiftr_div_pow2 by lia.
  change 255 with (Z.ones 8). rewrite !Z.land_ones by lia. change (2 ^ 8) with 256.
  f_equal; [|f_equal]; [rewrite Z.mul_comm, Z.div_add_l, (Z.div_small b) by lia; rewrite Z.add_0_r; apply Z.mod_small; lia|].
  rewrite Z.add_comm, Z.mul_comm, Z_mod_plus_full. apply Z.mod_small. lia.
Qed.

(** The address and the port are taken from their places in the structure. *)
Lemma name_of_internet family addr port hostlen servlen flags :
  inet_family family -> length addr = (if family =? AF_INET then 4%nat else 16%nat) -> length port = 2%nat ->
  getnameinfo (sockaddr_port family addr port) hostlen servlen flags = gn_ipv46 hostlen servlen addr family port flags.
Proof.
  intros Hf Hl Hp. destruct port as [|p1 [|p2 [|]]]; try done. destruct Hf as [-> | ->].
  - change (gn_ipv46 hostlen servlen (take 4 (take 4 addr ++ replicate 8 0)) AF_INET [p1; p2] flags
      = gn_ipv46 hostlen servlen addr AF_INET [p1; p2] flags).
    cbn in Hl. by rewrite (take_ge addr), take_app_length' by lia.
  - change (gn_ipv46 hostlen servlen (take 16 (take 16 addr ++ replicate 4 0)) AF_INET6 [p1; p2] flags
      = gn_ipv46 hostlen servlen addr AF_INET6 [p1; p2] flags).
    cbn in Hl. by rewrite (take_ge addr), take_app_length' by lia.
Qed.

(** ** The numeric texts give the address back *)

Section Back.
Context (h : hints) (family : Z) (addr port : list Z).
Hypothesis Hfamily : inet_family family.
Hypothesis Hok : family_ok h family.
Hypothesis Hflags : h_flags h = 0 \/ h_flags h = AI_PASSIVE.
Hypothesis Htype : h_socktype h ∈ [0; SOCK_STREAM; SOCK_DGRAM; SOCK_RAW].
Hypothesis Hport : length port = 2%nat.
Hypothesis Hpbytes : bytes port.

Definition own_ports : list (list Z * Z) :=
  if h_socktype h =? 0 then [(port, SOCK_STREAM); (port, SOCK_DGRAM)] else [(port, h_socktype h)].
Definition only_own (x : Z * list info) (evs : list event) : Prop :=
  x.1 = 0 /\ asked evs = [] /\ erase <$> x.2 = entries_of h (Some own_ports) (family, addr) /\ keeps_blocks ∅ evs (owned x.2) \/
  x.1 = EAI_MEMORY /\ x.2 = [] /\ out_of_memory evs /\ keeps_blocks ∅ evs ∅.

Lemma literal_located host two sfamily addrs name asks :
  is_literal family addr host -> located h two host sfamily addrs name asks ->
  addrs = (if sfamily =? family then [(family, addr)] else []) /\ name = None /\ asks = [].
Proof. intros [[-> H4]|(-> & H4 & H6)] Hl; inversion Hl; subst; simplify_eq; done. Qed.
Lemma literal_unlocated host two sfamily rc asks :
  is_literal family addr host -> ~ unlocated h two host sfamily rc asks.
Proof. intros [[-> H4]|(-> & H4 & H6)] Hl; inversion Hl; subst; simplify_eq; done. Qed.

Lemma own_search host :
  is_literal family addr host ->
  exists pre post, searches (Some host) h = pre ++ (host, family) :: post /\ Forall (fun x => x.1 = host /\ x.2 <> family) (pre ++ post).
Proof.
  intros Hl. assert (exists c s, host = c :: s) as (c & s & ->).
  { destruct host as [|c s]; [|by eexists _, _]. by destruct Hl as [[_ ?]|(_ & _ & ?)]. }
  unfold searches, each_family. destruct Hok as [-> | ->].
  - cbn [Z.eqb AF_UNSPEC AF_INET AF_INET6]. destruct Hfamily as [-> | ->].
    + exists [(c :: s, AF_INET6)], []. split; [done|]. by repeat constructor.
    + exists [], [(c :: s, AF_INET)]. split; [done|]. by repeat constructor.
  - exists [], []. by destruct Hfamily as [-> | ->].
Qed.

Lemma all_own two search pre post host addrs name asks :
  is_literal family addr host -> search = pre ++ (host, family) :: post -> Forall (fun x => x.1 = host /\ x.2 <> family) (pre ++ post) ->
  all_located h two search addrs name asks -> addrs = [(family, addr)] /\ asks = [].
Proof.
  intros Hl -> Hf Ha.
  assert (forall s ads nm asks', Forall (fun x => x.1 = host /\ x.2 <> family) s -> all_located h two s ads nm asks' -> ads = [] /\ asks' = []) as Hother.
  { intros s ads nm asks' Hs. revert ads nm asks'. induction Hs as [|[h0 f0] s [E1 E2] _ IH]; intros ads nm asks' Hal; inversion Hal; subst; [done|].
    cbn [fst snd] in *. subst. match goal with H : located _ _ _ _ _ _ _ |- _ => apply literal_located in H as (-> & -> & ->); [|done] end.
    replace (f0 =? family) with false by lia. match goal with H : all_located _ _ s _ _ _ |- _ => by apply IH in H as [-> ->] end. }
  apply Forall_app in Hf as [Hpre Hpost]. revert addrs name asks Ha. induction Hpre as [|[h0 f0] pre [E1 E2] _ IH]; intros addrs name asks Ha;
    inversion Ha; subst; cbn [fst snd] in *; subst;
    match goal with H : located _ _ _ _ _ _ _ |- _ => apply literal_located in H as (-> & -> & ->); [|done] end.
  - rewrite Z.eqb_refl. match goal with H : all_located _ _ post _ _ _ |- _ => by apply Hother in H as [-> ->] end.
  - replace (f0 =? family) with false by lia. match goal with H : all_located _ _ (pre ++ _) _ _ _ |- _ => by apply IH in H as [-> ->] end.
Qed.
Lemma own_fails two search host rc asks :
  is_literal family addr host -> Forall (fun x => x.1 = host) search -> ~ search_fails h two search rc asks.
Proof.
  intros Hl Hs Hf. induction Hf as [h0 f0 search rc asks Hu|h0 f0 search ads nm asks rc asks' _ _ IH]; inversion Hs; cbn [fst] in *; subst.
  - by apply literal_unlocated in Hu.
  - by apply IH.
Qed.

Lemma own_serv ports asks : serv_ports h (fmt_d (ntohs port)) ports asks -> ports = own_ports /\ asks = [].
Proof.
  pose proof (ntohs_range port Hport Hpbytes) as Hr. unfold fmt_d. replace (ntohs port <? 0) with false by lia.
  destruct (fmt_u_spec _ Hr) as (Hd & Hlen & Ha). unfold serv_ports.
  replace (isdigit (byte_at (fmt_u (ntohs port)) 0)) with true by (destruct (fmt_u (ntohs port)); [simpl in Hlen; lia|]; by inversion_clear Hd).
  intros [-> ->]. cbv zeta. rewrite Ha, port_atoi by done. done.
Qed.

Lemma own_result host w :
  is_literal family addr host ->
  runs (getaddrinfo (Some host) (Some (fmt_d (ntohs port))) (Some h)) only_own blocked w.
Proof.
  intros Hl. pose proof (ntohs_range port Hport Hpbytes) as Hr.
  assert (exists c s, fmt_d (ntohs port) = c :: s) as (c & s & Es).
  { unfold fmt_d. replace (ntohs port <? 0) with false by lia. destruct (fmt_u_spec _ Hr) as (_ & Hlen & _).
    destruct (fmt_u _); [simpl in Hlen; lia|]. by eexists _, _. }
  assert (exists c s, host = c :: s) as (c0 & s0 & Eh).
  { destruct host as [|? ?]; [|by eexists _, _]. by destruct Hl as [[_ ?]|(_ & _ & ?)]. }
  assert (h_family h <> AF_LOCAL) as Hnl by (destruct Hok as [-> | ->]; [done|by destruct Hfamily as [-> | ->]]).
  eapply runs_mono; [apply getaddrinfo_runs| |].
  2:{ intros hlt evs [->|[_ ?]]; done. }
  intros [rc l] evs. unfold getaddrinfo_result. cbv zeta.
  assert (ga_echeck (Some host) (Some (fmt_d (ntohs port))) (h_flags h) (h_family h) (h_socktype h) = 0) as ->.
  { unfold ga_echeck. cbv zeta. rewrite Es, Eh. cbn [no_name andb].
    replace (negb (Z.land (h_flags h) _ =? 0)) with false by (by destruct Hflags as [-> | ->]).
    assert ((h_socktype h =? 0) || (h_socktype h =? SOCK_STREAM) || (h_socktype h =? SOCK_DGRAM) || (h_socktype h =? SOCK_RAW) = true) as ->.
    { rewrite !elem_of_cons, elem_of_nil in Htype. unfold SOCK_STREAM, SOCK_DGRAM, SOCK_RAW in *. lia. }
    destruct Hok as [-> | ->]; [done|]. by destruct Hfamily as [-> | ->]. }
  cbn [Z.eqb negb].
  assert (local_name (Some host) (Some (fmt_d (ntohs port))) = false) as ->.
  { unfold local_name. rewrite bool_decide_false; [done|]. intros [[= E]|[= E]]; rewrite E in Hl; destruct Hl as [[_ E4]|(_ & _ & E6)]; done. }
  intros (_ & Hres). destruct (own_search host Hl) as (pre & post & Esearch & Hothers).
  assert (forall ads nm asks, all_located h (two_searches (Some host) h) (searches (Some host) h) ads nm asks -> ads = [(family, addr)] /\ asks = []) as Hall.
  { intros. by eapply all_own. }
  assert (wants_canon (Some host) h = false) as Hw by (unfold wants_canon; destruct Hflags as [-> | ->]; by rewrite andb_false_r).
  cbn [fst snd] in Hres. destruct Hres as [(-> & Hk & Hlist)|(Hrc & -> & Herr & lost & Hk & _ & Hlost)].
  - destruct Hlist as (addrs & name & asks1 & Ha & _ & Hs). apply Hall in Ha as [-> ->]. rewrite Es in Hs. cbn [no_name] in Hs. rewrite <- Es in Hs.
    destruct Hs as (ports & asks2 & Hp & _ & Hasks & El). cbn [default from_option id] in Hp. apply own_serv in Hp as [-> ->].
    left. split; [done|]. split; [exact Hasks|]. split; [|done]. cbn [snd]. rewrite El. unfold canon_of. rewrite Hw. cbn [named].
    rewrite bind_cons. apply app_nil_r.
  - rewrite (Hlost Hw) in Hk. destruct Herr as [[-> Ho]|[Hf|[[_ [name Ha]]|(_ & _ & ads & nm & asks1 & asks2 & _ & _ & Hp & _)]]].
    + by right.
    + exfalso. eapply own_fails; [exact Hl| |exact Hf]. rewrite Esearch. apply Forall_app in Hothers as [H1 H2].
      apply Forall_app. split; [eapply Forall_impl; [exact H1|]; by intros ? [? ?]|]. constructor; [done|]. eapply Forall_impl; [exact H2|]. by intros ? [? ?].
    + by apply Hall in Ha as [? _].
    + apply own_serv in Hp as [Hp _]. unfold own_ports in Hp. by destruct (h_socktype h =? 0).
Qed.

Lemma own_names hostlen servlen w :
  length addr = (if family =? AF_INET then 4%nat else 16%nat) -> bytes addr -> 46 <= hostlen -> 6 <= servlen ->
  runs ('(rc, host, serv) ← getnameinfo (sockaddr_port family addr port) hostlen servlen (Z.lor NI_NUMERICHOST NI_NUMERICSERV);
        getaddrinfo host serv (Some h)) only_own blocked w.
Proof.
  intros Hl Hb Hhost Hserv. destruct (ntop_literal family addr hostlen Hfamily Hl Hb Hhost) as (host & Hn & Hlit).
  assert (getnameinfo (sockaddr_port family addr port) hostlen servlen (Z.lor NI_NUMERICHOST NI_NUMERICSERV)
    = gn_ipv46 hostlen servlen addr family port (Z.lor NI_NUMERICHOST NI_NUMERICSERV)) as ->.
  { by apply name_of_internet. }
  pose proof (ntohs_range port Hport Hpbytes) as Hr. destruct (port_text [] (ntohs port) Hr ltac:(simpl; lia)) as [_ Hlen].
  assert (snprintf servlen (fmt_d (ntohs port)) = fmt_d (ntohs port)) as Es.
  { unfold snprintf. apply take_ge. unfold fmt_d. replace (ntohs port <? 0) with false by lia. lia. }
  unfold gn_ipv46. replace (0 <? hostlen) with true by lia. replace (0 <? servlen) with true by lia.
  change (flag (Z.lor NI_NUMERICHOST NI_NUMERICSERV) NI_NUMERICHOST) with true.
  change (flag (Z.lor NI_NUMERICHOST NI_NUMERICSERV) NI_NUMERICSERV) with true. cbv iota.
  unfold numeric_host. rewrite Hn, Es. by apply own_result.
Qed.
End Back.

(** ** What is stored in the buffers *)

(** A text and its null byte fit, but for the dotted quad of inet_ntop4 that fills the whole buffer. *)
Definition host_fits (family hostlen : Z) (host : option (list Z)) : Prop :=
  match host with
  | Some s => 0 < hostlen /\ (Z.of_nat (length s) < hostlen \/ family = AF_INET /\ Z.of_nat (length s) = hostlen)
  | None => True
  end.
Definition serv_fits (servlen : Z) (serv : option (list Z)) : Prop :=
  match serv with Some s => Z.of_nat (length s) < servlen | None => True end.
(** 0 with every text that was asked for, or 1 without the service. *)
Definition name_result (family hostlen servlen flags : Z) (x : Z * option (list Z) * option (list Z)) (evs : list event) : Prop :=
  let '(rc, host, serv) := x in
  host_fits family hostlen host /\ serv_fits servlen serv /\
  (rc = 0 /\ (0 < hostlen <-> host <> None) /\ (0 < servlen <-> serv <> None) \/ rc = 1 /\ host = None /\ serv = None) /\
  (Z.land flags (Z.lor NI_NUMERICHOST NI_NUMERICSERV) = Z.lor NI_NUMERICHOST NI_NUMERICSERV -> evs = []).

Lemma snprintf_fits n text : 0 < n -> Z.of_nat (length (snprintf n text)) < n.
Proof. intros. unfold snprintf. rewrite length_take. lia. Qed.

Lemma inet_ntop_fits family addr hostlen s :
  0 < hostlen -> inet_ntop family addr hostlen = NtOk s -> host_fits family hostlen (Some s).
Proof.
  intros Hh. unfold inet_ntop, host_fits. destruct (family =? AF_INET) eqn:E4; [|destruct (family =? AF_INET6)]; zbool; [| |done].
  - unfold inet_ntop4. cbv zeta. destruct (_ <? _) eqn:E; [done|]. intros [= <-]. zbool. lia.
  - unfold inet_ntop6. destruct (ntop6_text addr); [done|]. destruct (_ <? _) eqn:E; [done|]. intros [= <-]. zbool. lia.
Qed.

Lemma numeric_host_runs family addr hostlen w :
  0 < hostlen ->
  runs (numeric_host family addr hostlen) (fun x evs => evs = [] /\ host_fits family hostlen x.2 /\
    (x.1 = 0 /\ x.2 <> None \/ x.1 = 1 /\ x.2 = None)) blocked w.
Proof.
  intros Hh. unfold numeric_host. destruct (inet_ntop family addr hostlen) as [e|s] eqn:E.
  - apply runs_set_errno. intros w1 _. apply runs_ret. split; [done|]. split; [done|]. by right.
  - apply runs_ret. split; [done|]. split; [by eapply inet_ntop_fits|]. by left.
Qed.

(** A flag of two. *)
Lemma both_flags flags :
  Z.land flags (Z.lor NI_NUMERICHOST NI_NUMERICSERV) = Z.lor NI_NUMERICHOST NI_NUMERICSERV ->
  flag flags NI_NUMERICHOST = true /\ flag flags NI_NUMERICSERV = true.
Proof.
  intros H. unfold flag.
  assert (Z.land flags NI_NUMERICHOST = NI_NUMERICHOST) as ->.
  { change NI_NUMERICHOST with (Z.land (Z.lor NI_NUMERICHOST NI_NUMERICSERV) 2) at 1 2. by rewrite Z.land_assoc, H. }
  assert (Z.land flags NI_NUMERICSERV = NI_NUMERICSERV) as ->; [|done].
  change NI_NUMERICSERV with (Z.land (Z.lor NI_NUMERICHOST NI_NUMERICSERV) 8) at 1 2. by rewrite Z.land_assoc, H.
Qed.

Lemma gn_ipv46_runs hostlen servlen addr family port flags w :
  runs (gn_ipv46 hostlen servlen addr family port flags) (name_result family hostlen servlen flags) blocked w.
Proof.
  unfold gn_ipv46. apply runs_bind.
  apply (runs_mono _ (fun x evs => host_fits family hostlen x.2 /\ (x.1 = 0 /\ (0 < hostlen <-> x.2 <> None) \/ x.1 = 1 /\ x.2 = None) /\
    (flag flags NI_NUMERICHOST = true -> evs = [])) _ blocked); [| |done].
  - destruct (0 <? hostlen) eqn:Eh; zbool.
    2:{ apply runs_ret. split; [done|]. split; [left; cbn [fst snd]; split; [done|]; split; [lia|done]|done]. }
    assert (forall w1, runs (numeric_host family addr hostlen) (fun x evs => host_fits family hostlen x.2 /\
      (x.1 = 0 /\ (0 < hostlen <-> x.2 <> None) \/ x.1 = 1 /\ x.2 = None) /\ evs = []) blocked w1) as Hnum.
    { intros w1. eapply runs_mono; [by apply numeric_host_runs| |done]. intros x evs (-> & Hf & Hr).
      split; [done|]. split; [|done]. destruct Hr as [[? ?]|?]; [left|by right]. done. }
    destruct (flag flags NI_NUMERICHOST) eqn:En.
    + eapply runs_mono; [apply Hnum| |done]. by intros x evs (? & ? & ->).
    + apply (runs_ext _ (kernel (libc "gethostbyaddr" [family] addr) ≫= fun a =>
        match (if a_ret a <? 0 then None else Some (c_string (map u8 (a_data a)))) with
        | Some name => mret (0, Some (snprintf hostlen (if flag flags NI_NOFQDN then first_label name else name)))
        | None => if flag flags NI_NAMEREQD then mret (1, None) else numeric_host family addr hostlen
        end)).
      { unfold gethostbyaddr, mbind, M_bind. by destruct (kernel _ w) as [[a|] w1]. }
      apply runs_call; [done|done|]. intros a w1 x _. destruct (a_ret x <? 0).
      * destruct (flag flags NI_NAMEREQD).
        -- apply runs_ret. split; [done|]. split; [by right|done].
        -- eapply runs_mono; [apply Hnum| |done]. intros y evs (? & ? & _). split; [done|]. split; [done|done].
      * apply runs_ret. split; [split; [done|]; left; by apply snprintf_fits|]. split; [by left|done].
  - intros [rc host] evs (Hf & Hr & He) w1. cbn [fst snd] in *. destruct Hr as [[-> Hh]|[-> ->]]; cbn [Z.eqb negb].
    2:{ apply runs_ret. rewrite app_nil_r. split; [done|]. split; [done|]. split; [by right|]. intros [H _]%both_flags. by apply He. }
    apply runs_bind.
    apply (runs_mono _ (fun serv ev => serv_fits servlen serv /\ (0 < servlen <-> serv <> None) /\
      (flag flags NI_NUMERICSERV = true -> ev = [])) _ blocked); [| |done].
    + destruct (0 <? servlen) eqn:Es; zbool.
      2:{ apply runs_ret. split; [done|]. split; [split; [lia|done]|done]. }
      destruct (flag flags NI_NUMERICSERV).
      * apply runs_ret. split; [by apply snprintf_fits|]. done.
      * set (proto := if flag flags NI_DGRAM then chars "udp" else []).
        apply (runs_ext _ (kernel (libc "getservbyport" port proto) ≫= fun a =>
          mret (Some (snprintf servlen (default (fmt_d (ntohs port)) (if a_ret a <? 0 then None else Some (c_string (map u8 (a_data a))))))))).
        { unfold getservbyport, mbind, M_bind. by destruct (kernel _ w1) as [[a|] w2]. }
        apply runs_call; [done|done|]. intros a w2 x _. apply runs_ret. split; [by apply snprintf_fits|]. done.
    + intros serv ev (Hs & Hn & Hev) w2. apply runs_ret. rewrite app_nil_r. split; [done|]. split; [done|].
      split; [by left|]. intros [H1 H2]%both_flags. by rewrite (He H1), (Hev H2).
Qed.

(** The family of the structure; any other family than the three gives 1. *)
Definition family_of (sa : list Z) : Z := byte_at sa 0 + 256 * byte_at sa 1.
Lemma getnameinfo_runs sa hostlen servlen flags w :
  runs (getnameinfo sa hostlen servlen flags) (name_result (family_of sa) hostlen servlen flags) blocked w.
Proof.
  unfold getnameinfo. fold (family_of sa). cbv zeta.
  destruct (family_of sa =? AF_INET) eqn:E4; [|destruct (family_of sa =? AF_INET6) eqn:E6; [|destruct (family_of sa =? AF_LOCAL)]]; zbool.
  - rewrite E4. apply gn_ipv46_runs.
  - rewrite E6. apply gn_ipv46_runs.
  - apply runs_ret. destruct (0 <? hostlen) eqn:Eh, (0 <? servlen) eqn:Es; zbool; (split; [|split; [|split; [left; split; [done|]; split; split; done || lia|done]]]);
      cbn [host_fits serv_fits]; try done; try (split; [done|left]); by apply snprintf_fits.
  - apply runs_ret. split; [done|]. split; [done|]. split; [by right|done].
Qed.

(** C40: getnameinfo stores the texts that were asked for within their buffers (one dotted quad that fills its
    buffer apart, whose null byte is written behind it), or returns 1; asked for numbers only it asks no one.
    The numeric texts of an internet address and port, given to getaddrinfo with hints that allow the
    family, name exactly this address and port, without a question to the resolver. *)
Theorem getnameinfo_correct sa flags h family addr port hostlen servlen w :
  runs (getnameinfo sa hostlen servlen flags) (name_result (family_of sa) hostlen servlen flags) blocked w /\
  (inet_family family -> length addr = (if family =? AF_INET then 4%nat else 16%nat) -> bytes addr ->
   length port = 2%nat -> bytes port ->
   family_ok h family -> h_flags h = 0 \/ h_flags h = AI_PASSIVE -> h_socktype h ∈ [0; SOCK_STREAM; SOCK_DGRAM; SOCK_RAW] ->
   46 <= hostlen -> 6 <= servlen ->
   runs ('(rc, host, serv) ← getnameinfo (sockaddr_port family addr port) hostlen servlen (Z.lor NI_NUMERICHOST NI_NUMERICSERV);
         getaddrinfo host serv (Some h)) (only_own h family addr port) blocked w).
Proof. split; [apply getnameinfo_runs|]. intros. by apply own_names. Qed.

Theorem getnameinfo_correct_witness :
  runs (getnameinfo [2; 0; 0; 13; 10; 0; 0; 1] 46 6 0) (name_result AF_INET 46 6 0) blocked (world0 [ok 100; ok 101; ok 102; ok 103]) /\
  runs ('(rc, host, serv) ← getnameinfo (sockaddr_port AF_INET [10; 0; 0; 1] [0; 13]) 46 6 (Z.lor NI_NUMERICHOST NI_NUMERICSERV);
        getaddrinfo host serv (Some no_hints)) (only_own no_hints AF_INET [10; 0; 0; 1] [0; 13]) blocked (world0 [ok 100; ok 101; ok 102; ok 103]).
Proof.
  destruct (getnameinfo_correct [2; 0; 0; 13; 10; 0; 0; 1] 0 no_hints AF_INET [10; 0; 0; 1] [0; 13] 46 6 (world0 [ok 100; ok 101; ok 102; ok 103])) as [H1 H2].
  split; [exact H1|]. apply H2; [by left|reflexivity|by_eval|reflexivity|by_eval|by left|by left|apply list_elem_of_here|lia|lia].
Defined.
